(* ===== verification/_CoqProject ===== *)
-Q . S2P
Prelude.v
Spinlock.v
CString.v
Ide.v
Drive.v
Bio.v
BioFacts.v
Layout.v
Log.v
LogDisk.v
LogFacts.v
LogSpecs.v
LogCrash.v
Fs.v
FsFacts.v
FsInodes.v
FsFiles.v
FsTable.v
FsWrite.v
FsWritei.v
FsTrunc.v
FsDirs.v
FsLink.v
FsPaths.v
FsNames.v
FsTree.v
FsNodes.v
FsUnlink.v
File.v
FileFacts.v
FileCreate.v
FileTxn.v
FileUnlink.v
Mkfs.v
Boot.v
Demo.v
DiskTheorems.v
FsTheorems.v
NameTheorems.v
WriteTheorems.v
FileTheorems.v
CreateTheorems.v
UnlinkTheorems.v
Kalloc.v
Syscall.v
Console.v
ConsoleFacts.v
Printf.v
Vm.v
Mp.v
Apic.v
Bootmain.v
Kernel.v
Reports.v
Init.v
InitFacts.v
Proc.v
Trap.v
Main.v
Sched.v
ProcFacts.v
MainFacts.v
MachineTheorems.v
SchedTheorems.v
MainTheorems.v
InitTheorems.v
KernelTheorems.v
Conc.v
Posix.v
PosixProgs.v
PosixTheorems.v
Peterson.v
Philosophers.v
Counters.v
Transfers.v
Pipes.v
CondVars.v
RwLock.v
RwCtr.v
ConcTheorems.v
