(* ===== verification/Prelude.v ===== *)
(** * A verification library for the COL331 teaching kernel

    The repository (src/) is a uniprocessor teaching kernel derived from xv6,
    with the boot loader, the disk image builder and the lecture programs that
    go with it. The library models nearly all of its C code as functions and
    step relations and proves what makes them correct.

    ** The program and its parts

    The boot loader (bootmain.c) reads the kernel from the disk and jumps to
    it. The kernel ([main]) sets up the page allocator, finds the processors
    and interrupt controllers, initialises console, disk driver, buffer cache,
    open files, log and file system, creates two processes and enters the
    scheduler. From then on control moves between the scheduler, the
    processes, and [trap], which serves system calls and interrupts. Storage
    is a stack: system calls over open files over the file system over the
    write-ahead log over the buffer cache over the IDE driver.

    ** How code is modelled

    C code that can fail, loop or stop is a computation in the monad [M] of
    this file, a state transformer with the outcomes [Ok] (value and new
    state), [Panic] (the kernel's panic), [Hang] (fuel ran out) and [Undef]
    (the C program has no defined behaviour: a null or wild pointer, an index
    out of range). Statements about runs go through [wp], the weakest
    precondition, with a side condition on panics; [wp_ok] and the like turn
    them back into equations about runs, so that theorems say that the code
    returns, not only what it returns. 32-bit and 16-bit integers are [Z] with
    their wrap-around written out ([u32], [s32], [u8]); pointers are addresses
    into a byte memory, or indices where the code points into an array.
    Loops take fuel only where the recursion is not structural; each fuel is
    given by the code around it (the size of a range, the number of polls the
    device needs, the length of a path), and the theorems show it is enough.

    Hardware is not in the sources. The drive, the serial chip, the local and
    the I/O APIC and the I/O ports are type classes of operations with classes
    of laws that state documented behaviour; Drive.v and the theorem files
    have instances. The disk fails only by losing power: writes of whole
    sectors happen one after another or not at all.

    ** Files

    Storage. Ide.v (ide.c, buf.h), Drive.v (an instance of the drive), Bio.v
    and BioFacts.v (bio.c), Layout.v (fs.h), Log.v (log.c), LogDisk.v
    (recovery as a pure function on disks), LogFacts.v and LogSpecs.v (the
    invariant and the specifications of log.c), LogCrash.v (power failures and
    the starts after them), Fs.v (fs.c), FsFacts.v (invariant, bitmap),
    FsInodes.v (inodes), FsFiles.v (reading), FsTable.v, FsWrite.v and
    FsWritei.v (allocating and writing), FsTrunc.v (freeing), FsDirs.v and
    FsLink.v (directories), FsPaths.v and FsNames.v (paths), FsTree.v and
    FsNodes.v (the tree of all inodes as one invariant, and the operations
    that change one inode of it), File.v (file.c), FileFacts.v (transactions
    and writing to open files), FileCreate.v and FileTxn.v (create, mknod and
    mkdir), FsUnlink.v and FileUnlink.v (unlink: the entry that goes, the
    links that remain), Mkfs.v (mkfs.c). Theorems: DiskTheorems.v,
    FsTheorems.v, NameTheorems.v, WriteTheorems.v, FileTheorems.v,
    CreateTheorems.v, UnlinkTheorems.v. Boot.v and Demo.v have the concrete
    machine the theorems are applied to.

    The rest of the kernel. Spinlock.v (spinlock.c), CString.v (string.c),
    Kalloc.v (kalloc.c), Syscall.v (syscall.c, sysfile.c, sysproc.c),
    Console.v and ConsoleFacts.v (console.c, uart.c), Printf.v (printf.c),
    Reports.v (panic and halt of console.c, and what procdump of proc.c
    prints), Vm.v (vm.c, mmu.h). Theorems: KernelTheorems.v.

    The first user program. Init.v (init.c, initcode.S, usys.S and the putc of
    printf.c) runs user code on the state of the system calls: it pushes the
    arguments into the memory of the process and traps. InitFacts.v has what
    the system calls do on the console device. Theorems: InitTheorems.v.

    The machine. Mp.v (mp.c), Apic.v (lapic.c, ioapic.c, picirq.c), Bootmain.v
    (bootmain.c, elf.h). Theorems: MachineTheorems.v.

    Processes. Kernel.v is the state of the whole kernel: the processor, the
    memory and the states of the components, each once; a component runs on
    its view of that state. Its [procdump] is specified in Reports.v. Proc.v (proc.c, swtch.S, the end of main.c) and
    Trap.v (trap.c, trapasm.S) run on it. A routine that switches threads is
    split at the switch, and the process records where its thread is to
    continue. Sched.v has the abstract round-robin machine and the simulation,
    ProcFacts.v the creation of processes. Theorems: SchedTheorems.v. Main.v
    (main.c, with the start routines of the drivers that reach into other
    components) is the state of the whole machine, MainFacts.v the phases of
    the start. Theorems: MainTheorems.v.

    The lecture programs of src/09. Conc.v has threads that share memory: a
    step relation on a table of threads, invariants, termination by a measure,
    and a search of finite state spaces proved sound. Counters.v (semlock.c,
    threads-safe.c, atomic.c), Peterson.v (peterson-fence.c,
    peterson-breaks.c, on a memory with store buffers), Philosophers.v
    (dine.c, dine-dead.c), Transfers.v (dead.c, dead-fix.c), Pipes.v
    (sempipe.c, sem-mpmc.c), CondVars.v (mypipe.c, wait.c, wait-sem.c,
    sems-using-lock-cv.c, alloc.c), RwLock.v (rw-using-sems.c), RwCtr.v
    (rw-ctr.c, and rw-using-sems.c as an implementation of it). Theorems:
    ConcTheorems.v.

    The lecture programs of src/08 and src/05. Posix.v has what they use of
    the host: processes, descriptors that share open file descriptions, pipes
    and buffered streams. PosixProgs.v has the programs (dup.c, nodup.c,
    fork-fd.c, fork-fd2.c, fork-cow.c, p1.c to p5.c, pipe.c, io.c). They run
    on the step relation of Conc.v, and all their runs are explored.
    Theorems: PosixTheorems.v.

    ** What the theorems show

    - Storage: a block that is read is the block of the disk; writes are
      durable; a commit that is cut off at any sector write, and recovered by
      [initlog], however often that is cut off too, leaves all of its blocks
      or none; [log_write] logs a block once.
    - File system: allocation returns a free, cleared block or a fresh inode
      and changes nothing else; the inode cache and its reference counts;
      [readi] returns the bytes of the file; [writei] splices into them and
      grows the file, and refuses what is too large, wrap-around included; what
      is written is read back; [dirlookup] and [namei]
      agree with a reference walk over the tree on the disk; [iput] of the
      last reference to a file without links frees its blocks and inode;
      [dirlink] adds one name and no other, in the first free entry.
    - File operations: [filewrite] is durable, and after a power failure the
      file holds the data up to a chunk; [create] adds one inode at the end of
      the path and keeps the whole tree and all other paths and files; [mknod]
      and [mkdir] are atomic under power failures, recovery included.
      [unlink] removes the entry and, with the last link, the inode, keeps the
      whole tree, and is atomic in the same sense; it refuses the root, dot
      names, missing files and directories that are not empty, and then
      changes nothing; [unlink] undoes [mkdir].
    - Start: [main], from the state the boot loader leaves and with any disk
      that recovers to a whole file system, with the path "console" or space
      for it, returns from all its calls: the pages are free, the controllers
      programmed, the log recovered, "console" made if it was missing, and the
      scheduler begins with two processes ready.
    - Processes: swtch restores what it saved; the end of [main] leads to a
      state of the round-robin machine; scheduler, clock interrupt and context
      switch refine that machine for any number of steps, and no ready process
      waits longer than one round of the table. Exceptions of user programs
      are not handled.
    - Machine: the boot loader loads the segments of an ELF file and refuses
      any other file; mpinit reads
      tables of known entries and loops for ever on others; gates.
    - First user program: with its stub, its stack and the system calls, it
      opens the console and puts its line on the serial port, byte for byte.
    - Kernel services: nesting of interrupt disabling, the page allocator,
      line editing with its echo and the process listing, the bounds of system call arguments, that the user
      segments reach 4 KB too far, and what [panic] prints before it halts.
    - Lecture programs: mutual exclusion, deadlock freedom, termination under
      every schedule, FIFO order, conservation of money and bytes; the lock of
      rw-using-sems.c has exactly the behaviours of the library's; and runs
      that show what is wrong with mypipe.c, alloc.c, wait.c,
      sems-using-lock-cv.c and the start of dine.c. In every run, descriptors
      that are duplicated or inherited share one offset and those opened twice
      do not; memory is copied by fork; pipe.c prints in capitals what echo
      writes, and ends; a redirected descriptor survives exec.

    ** Bounds

    The state spaces of Peterson.v, Philosophers.v and the waiting programs
    are searched completely (300, 700 and 200 states are more than there are);
    the rounds of a fair run (60 and 20) were found by the search. The
    programs of src/08 and src/05 end within 20 steps, pipe.c within 200, and
    the exploration of their runs fails when a run is longer. The other
    lecture programs are proved for any number of threads and iterations.

    ** Not modelled

    - Assembly other than swtch.S, initcode.S, usys.S and the frame of
      trapasm.S: the switch to protected mode (bootasm.S, entry.S) is a
      matter of the processor's modes, and the vectors are generated.
    - Interrupts inside the file system and the drivers, except the disk
      interrupt that [iderw] waits for: a system call runs from start to end.
      The machine of Trap.v takes the clock interrupt in user mode.
    - The stack pointers that later context switches save: a process records
      the code where it continues; swtch.S is related to memory on its own.
    - The loads of segment registers and the host's file operations in
      mkfs.c.
    - The lecture programs of 02, whose functions are not in the repository,
      and of 06, which show undefined behaviour of malloc and free or only use
      up memory and time; the disk simulator in Python (04). There is no
      program in 01. *)

From stdpp Require Import base gmap list numbers strings.
From stdpp Require Export base gmap list numbers strings.
From Stdlib Require Import ZArith Lia.

#[export] Set Warnings "-clear-no-such-hyp".

Declare Scope kernel_scope.
Delimit Scope kernel_scope with K.
Open Scope Z_scope.

(** ** Outcomes

    A kernel routine returns, calls [panic] (which never returns), waits for
    an event that cannot happen any more ([Hang]), or does something the C
    standard gives no meaning to, such as indexing past an array ([Undef]). *)
Inductive outcome (A : Type) : Type :=
| Ok (a : A)
| Panic (msg : string)
| Hang
| Undef.
Arguments Ok {A} a.
Arguments Panic {A} msg.
Arguments Hang {A}.
Arguments Undef {A}.

(** Stateful, fallible code over a state [S]. *)
Definition M (S A : Type) : Type := S → outcome (A * S).

#[global] Instance M_ret S : MRet (M S) := λ A a s, Ok (a, s).
#[global] Instance M_bind S : MBind (M S) := λ A B k m s,
  match m s with
  | Ok (a, s') => k a s'
  | Panic msg => Panic msg
  | Hang => Hang
  | Undef => Undef
  end.

Definition panic {S A} (msg : string) : M S A := λ _, Panic msg.
Definition hang {S A} : M S A := λ _, Hang.
Definition undef {S A} : M S A := λ _, Undef.
Definition get {S} : M S S := λ s, Ok (s, s).
Definition gets {S A} (f : S → A) : M S A := λ s, Ok (f s, s).
Definition modify {S} (f : S → S) : M S unit := λ s, Ok (tt, f s).
(** A read that the C code may perform out of range. *)
Definition getopt {S A} (f : S → option A) : M S A := λ s,
  match f s with Some a => Ok (a, s) | None => Undef end.
Definition when {S} (c : bool) (m : M S unit) : M S unit :=
  if c then m else mret tt.

(** Running code of an inner component inside an outer state. *)
Definition zoom {S T A} (pr : T → S) (up : S → T → T) (m : M S A) : M T A := λ t,
  match m (pr t) with
  | Ok (a, s) => Ok (a, up s t)
  | Panic msg => Panic msg
  | Hang => Hang
  | Undef => Undef
  end.

(** ** Weakest preconditions

    [wp E m Q s]: from [s], [m] returns in a state satisfying [Q], or it
    panics with a message in [E]; it never hangs and never does anything
    undefined. [wp no_panic] is total correctness. *)
Definition wp {S A} (E : string → Prop) (m : M S A) (Q : A → S → Prop) (s : S) : Prop :=
  match m s with
  | Ok (a, s') => Q a s'
  | Panic msg => E msg
  | Hang => False
  | Undef => False
  end.

Definition no_panic : string → Prop := λ _, False.

Section wp.
Context {S : Type} (E : string → Prop).

Lemma wp_ret {A} (a : A) (Q : A → S → Prop) s : Q a s → wp E (mret a) Q s.
Proof. done. Qed.

Lemma wp_bind {A B} (m : M S A) (k : A → M S B) (Q : B → S → Prop) s :
  wp E m (λ a, wp E (k a) Q) s → wp E (m ≫= k) Q s.
Proof.
  unfold wp, mbind, M_bind. destruct (m s) as [[a s']|?| |]; auto.
Qed.

Lemma wp_mono {A} (m : M S A) (Q Q' : A → S → Prop) s :
  wp E m Q s → (∀ a s', Q a s' → Q' a s') → wp E m Q' s.
Proof. unfold wp. destruct (m s) as [[a s']|?| |]; auto. Qed.

Lemma wp_get (Q : S → S → Prop) s : Q s s → wp E get Q s.
Proof. done. Qed.

Lemma wp_gets {A} (f : S → A) (Q : A → S → Prop) s : Q (f s) s → wp E (gets f) Q s.
Proof. done. Qed.

Lemma wp_modify (f : S → S) (Q : unit → S → Prop) s : Q tt (f s) → wp E (modify f) Q s.
Proof. done. Qed.

Lemma wp_getopt {A} (f : S → option A) a (Q : A → S → Prop) s :
  f s = Some a → Q a s → wp E (getopt f) Q s.
Proof. unfold wp, getopt. by intros ->. Qed.

Lemma wp_panic {A} msg (Q : A → S → Prop) s : E msg → wp E (panic msg) Q s.
Proof. done. Qed.

Lemma wp_zoom {T A} (pr : T → S) (up : S → T → T) (m : M S A) (Q : A → T → Prop) t :
  wp E m (λ a s, Q a (up s t)) (pr t) → wp E (zoom pr up m) Q t.
Proof. unfold wp, zoom. destruct (m (pr t)) as [[a s']|?| |]; auto. Qed.

Lemma wp_weaken_panic {A} (E' : string → Prop) (m : M S A) (Q : A → S → Prop) s :
  wp E' m Q s → (∀ msg, E' msg → E msg) → wp E m Q s.
Proof. unfold wp. destruct (m s) as [[a s']|?| |]; auto. Qed.
End wp.

(** A total-correctness specification gives the run itself. *)
Lemma wp_ok {S A} (m : M S A) Q (s : S) :
  wp no_panic m Q s → ∃ a s', m s = Ok (a, s') ∧ Q a s'.
Proof.
  unfold wp, no_panic. destruct (m s) as [[a s']|?| |]; intros; try done; eauto.
Qed.

Lemma wp_of_ok {S A} E (m : M S A) (Q : A → S → Prop) s a s' :
  m s = Ok (a, s') → Q a s' → wp E m Q s.
Proof. unfold wp. by intros ->. Qed.

Lemma wp_run {S} (m : M S unit) (P : S → Prop) (s : S) :
  wp no_panic m (λ _, P) s → ∃ s', m s = Ok (tt, s') ∧ P s'.
Proof. intros ([] & s' & ? & ?)%wp_ok. eauto. Qed.

(** In general a run returns or panics as the specification allows. *)
Lemma wp_cases {S A} E (m : M S A) Q (s : S) :
  wp E m Q s → (∃ a s', m s = Ok (a, s') ∧ Q a s') ∨ ∃ msg, m s = Panic msg ∧ E msg.
Proof. unfold wp. destruct (m s) as [[a s']|msg| |]; intros; try done; eauto. Qed.

Lemma wp_must_panic {S A} msg (m : M S A) (s : S) :
  wp (λ msg', msg' = msg) m (λ _ _, False) s → m s = Panic msg.
Proof. intros [(a & s' & _ & [])|(msg' & Hm & ->)]%wp_cases. done. Qed.

(** Running monadic code by computation, leaving arithmetic alone. *)
Ltac munfold :=
  cbv beta iota zeta delta [mbind M_bind mret M_ret get gets modify getopt when
    zoom panic hang undef fst snd].

(** One step of symbolic execution. *)
Ltac wp_step :=
  lazymatch goal with
  | |- wp _ (mbind _ _) _ _ => apply wp_bind
  | |- wp _ (mret _) _ _ => apply wp_ret
  | |- wp _ (gets _) _ _ => apply wp_gets
  | |- wp _ get _ _ => apply wp_get
  | |- wp _ (modify _) _ _ => apply wp_modify
  | |- wp _ (zoom _ _ _) _ _ => apply wp_zoom
  | |- wp _ (panic _) _ _ => apply wp_panic
  | |- wp _ (when true _) _ _ => unfold when
  | |- wp _ (when false _) _ _ => unfold when
  | |- wp _ (if ?c then _ else _) _ _ => let H := fresh "Hc" in destruct c eqn:H
  end.

(** ** Machine integers

    C's [uchar], [ushort], [uint] and [short]/[int] values are integers kept
    in range by an explicit wrap-around. *)
Definition u8 (z : Z) : Z := z mod 256.
Definition u16 (z : Z) : Z := z mod 65536.
Definition u32 (z : Z) : Z := z mod 4294967296.
Definition s16 (z : Z) : Z := if u16 z <? 32768 then u16 z else u16 z - 65536.
Definition s32 (z : Z) : Z := if u32 z <? 2147483648 then u32 z else u32 z - 4294967296.

Lemma u8_range z : 0 ≤ u8 z < 256.
Proof. apply Z.mod_pos_bound; lia. Qed.
Lemma u32_range z : 0 ≤ u32 z < 4294967296.
Proof. apply Z.mod_pos_bound; lia. Qed.
Lemma u8_small z : 0 ≤ z < 256 → u8 z = z.
Proof. apply Z.mod_small. Qed.
Lemma u16_small z : 0 ≤ z < 65536 → u16 z = z.
Proof. apply Z.mod_small. Qed.
Lemma u32_small z : 0 ≤ z < 4294967296 → u32 z = z.
Proof. apply Z.mod_small. Qed.
Lemma s32_small z : -2147483648 ≤ z < 2147483648 → s32 z = z.
Proof.
  intros. unfold s32, u32. destruct (Z_lt_le_dec z 0).
  - rewrite (Z.mod_eq z) by lia.
    replace (z / 4294967296) with (-1) by (apply Z.div_unique with (z + 4294967296); lia).
    case_match; lia.
  - rewrite Z.mod_small by lia. case_match; lia.
Qed.
Lemma s16_small z : -32768 ≤ z < 32768 → s16 z = z.
Proof.
  intros. unfold s16, u16. destruct (Z_lt_le_dec z 0).
  - rewrite (Z.mod_eq z) by lia.
    replace (z / 65536) with (-1) by (apply Z.div_unique with (z + 65536); lia).
    case_match; lia.
  - rewrite Z.mod_small by lia. case_match; lia.
Qed.
Lemma s32_u32 z : s32 (u32 z) = s32 z.
Proof. unfold s32, u32. by rewrite Z.mod_mod by lia. Qed.
Lemma s16_range z : -32768 ≤ s16 z < 32768.
Proof. unfold s16, u16. pose proof (Z.mod_pos_bound z 65536). destruct (Z.ltb_spec (z mod 65536) 32768); lia. Qed.
Lemma s32_range z : -2147483648 ≤ s32 z < 2147483648.
Proof. unfold s32. pose proof (u32_range z). destruct (Z.ltb_spec (u32 z) 2147483648); lia. Qed.
Lemma s16_u16 z : s16 (u16 z) = s16 z.
Proof. unfold s16, u16. by rewrite Z.mod_mod by lia. Qed.

(** Single-bit tests and updates, as the bitmap code writes them. *)
Lemma land_pow2_eq0 x k : 0 ≤ k → (Z.land x (Z.shiftl 1 k) =? 0) = negb (Z.testbit x k).
Proof.
  intros Hk. rewrite Z.shiftl_1_l. destruct (Z.testbit x k) eqn:Ht; simpl.
  - apply Z.eqb_neq. intros H0.
    assert (Z.testbit (Z.land x (2 ^ k)) k = false) as Hf by by rewrite H0, Z.bits_0.
    rewrite Z.land_spec, Ht, Z.pow2_bits_true in Hf by lia. done.
  - apply Z.eqb_eq, Z.bits_inj'. intros n Hn. rewrite Z.land_spec, Z.bits_0.
    rewrite Z.pow2_bits_eqb by lia. destruct (Z.eqb_spec k n) as [<-|]; [by rewrite Ht|].
    by rewrite andb_false_r.
Qed.

Lemma testbit_lor_pow2 x k n : 0 ≤ k → 0 ≤ n →
  Z.testbit (Z.lor x (Z.shiftl 1 k)) n = (k =? n) || Z.testbit x n.
Proof.
  intros. rewrite Z.shiftl_1_l, Z.lor_spec, Z.pow2_bits_eqb by lia. apply orb_comm.
Qed.

Lemma testbit_andnot_pow2 x k n : 0 ≤ k → 0 ≤ n →
  Z.testbit (Z.land x (Z.lnot (Z.shiftl 1 k))) n = negb (k =? n) && Z.testbit x n.
Proof.
  intros. rewrite Z.shiftl_1_l, Z.land_spec, Z.lnot_spec, Z.pow2_bits_eqb by lia.
  apply andb_comm.
Qed.

(** ** Little-endian fields of a byte buffer *)
Fixpoint le_enc (n : nat) (z : Z) : list Z :=
  match n with
  | O => []
  | S n => z mod 256 :: le_enc n (z / 256)
  end.

Fixpoint le_dec (l : list Z) : Z :=
  match l with
  | [] => 0
  | b :: t => b + 256 * le_dec t
  end.

Lemma length_le_enc n z : length (le_enc n z) = n.
Proof. revert z. induction n; simpl; auto. Qed.

Lemma le_dec_enc n z : le_dec (le_enc n z) = z mod 256 ^ Z.of_nat n.
Proof.
  revert z. induction n as [|n IH]; intros z; simpl le_enc; cbn [le_dec].
  - by rewrite Z.mod_1_r.
  - rewrite IH, Nat2Z.inj_succ, Z.pow_succ_r by lia.
    rewrite Z.rem_mul_r by lia. done.
Qed.

Lemma le_enc_byte n z : Forall (λ b, 0 ≤ b < 256) (le_enc n z).
Proof.
  revert z. induction n; intros z; simpl; constructor; auto.
  apply Z.mod_pos_bound; lia.
Qed.

Lemma le_enc_dec l : Forall (λ b, 0 ≤ b < 256) l → le_enc (length l) (le_dec l) = l.
Proof.
  induction 1 as [|b l Hb _ IH]; cbn [le_enc le_dec length]; [done|].
  rewrite (Z.mul_comm 256), Z_mod_plus_full, Z.mod_small by lia.
  rewrite Z.div_add, Z.div_small, Z.add_0_l by lia. by rewrite IH.
Qed.

(** ** Slices of buffers *)
Definition slice {A} (off n : nat) (l : list A) : list A := take n (drop off l).
Definition splice {A} (off : nat) (src l : list A) : list A :=
  take off l ++ src ++ drop (off + length src) l.

Section slices.
Context {A : Type}.
Implicit Types l src : list A.

Lemma length_splice off src l :
  (off + length src ≤ length l)%nat → length (splice off src l) = length l.
Proof. intros. unfold splice. rewrite !length_app, length_take, length_drop. lia. Qed.

Lemma lookup_splice off src l i :
  (off + length src ≤ length l)%nat →
  splice off src l !! i =
    if decide (off ≤ i < off + length src)%nat then src !! (i - off)%nat else l !! i.
Proof.
  intros. unfold splice. case_decide as Hd.
  - rewrite lookup_app_r by (rewrite length_take; lia).
    rewrite length_take, Nat.min_l by lia. by rewrite lookup_app_l by lia.
  - destruct (decide (i < off)%nat).
    + rewrite lookup_app_l by (rewrite length_take; lia). by rewrite lookup_take_lt by lia.
    + rewrite lookup_app_r by (rewrite length_take; lia).
      rewrite length_take, Nat.min_l by lia.
      rewrite lookup_app_r by lia. rewrite lookup_drop. f_equal. lia.
Qed.

Lemma length_slice off n l :
  (off + n ≤ length l)%nat → length (slice off n l) = n.
Proof. intros. unfold slice. rewrite length_take, length_drop. lia. Qed.

Lemma lookup_slice off n l i :
  slice off n l !! i = if decide (i < n)%nat then l !! (off + i)%nat else None.
Proof.
  unfold slice. case_decide.
  - rewrite lookup_take_lt by lia. by rewrite lookup_drop.
  - by rewrite lookup_take_ge by lia.
Qed.

Lemma slice_splice_eq off src l :
  (off + length src ≤ length l)%nat → slice off (length src) (splice off src l) = src.
Proof.
  intros. apply list_eq. intros i. rewrite lookup_slice.
  case_decide.
  - rewrite lookup_splice by done. rewrite decide_True by lia. f_equal. lia.
  - symmetry. apply lookup_ge_None. lia.
Qed.

Lemma slice_splice_ne off src l o n :
  (off + length src ≤ length l)%nat → (o + n ≤ off ∨ off + length src ≤ o)%nat →
  slice o n (splice off src l) = slice o n l.
Proof.
  intros. apply list_eq. intros i. rewrite !lookup_slice. case_decide; [|done].
  rewrite lookup_splice by done. by rewrite decide_False by lia.
Qed.

Lemma slice_splice_in off src l o n :
  (off + length src ≤ length l)%nat → (o + n ≤ length src)%nat →
  slice (off + o) n (splice off src l) = slice o n src.
Proof.
  intros. apply list_eq. intros i. rewrite !lookup_slice. case_decide; [|done].
  rewrite lookup_splice, decide_True by lia. f_equal. lia.
Qed.

Lemma slice_app_split off n m l :
  slice off n l ++ slice (off + n) m l = slice off (n + m) l.
Proof.
  unfold slice. rewrite <- (take_drop n (take (n + m) (drop off l))).
  rewrite take_take, Nat.min_l by lia. f_equal.
  rewrite <- drop_drop, take_drop_commute. done.
Qed.
End slices.

(** A list splits in one way only around the first occurrence of an element. *)
Lemma split_unique {A} (x : A) k1 k2 l1 l2 :
  k1 ++ x :: k2 = l1 ++ x :: l2 → x ∉ k1 → x ∉ l1 → k1 = l1 ∧ k2 = l2.
Proof.
  revert l1. induction k1 as [|y k1 IH]; intros [|z l1]; cbn [app]; intros Heq Hk Hl; simplify_eq.
  - done.
  - set_solver.
  - set_solver.
  - destruct (IH l1) as [-> ->]; [done|set_solver|set_solver|done].
Qed.

(** A 32-bit (16-bit) field at byte offset [off] of a buffer. *)
Definition get_u32 (off : nat) (l : list Z) : Z := le_dec (slice off 4 l).
Definition put_u32 (off : nat) (v : Z) (l : list Z) : list Z := splice off (le_enc 4 v) l.
Definition get_u16 (off : nat) (l : list Z) : Z := le_dec (slice off 2 l).
Definition put_u16 (off : nat) (v : Z) (l : list Z) : list Z := splice off (le_enc 2 v) l.

Lemma length_put_u32 off v l : (off + 4 ≤ length l)%nat → length (put_u32 off v l) = length l.
Proof. intros. unfold put_u32. apply length_splice. by rewrite length_le_enc. Qed.
Lemma length_put_u16 off v l : (off + 2 ≤ length l)%nat → length (put_u16 off v l) = length l.
Proof. intros. unfold put_u16. apply length_splice. by rewrite length_le_enc. Qed.

Lemma get_put_u32 off v l : (off + 4 ≤ length l)%nat → get_u32 off (put_u32 off v l) = u32 v.
Proof.
  intros. unfold get_u32, put_u32.
  rewrite <- (length_le_enc 4 v) at 1. rewrite slice_splice_eq by (by rewrite length_le_enc).
  by rewrite le_dec_enc.
Qed.
Lemma get_put_u16 off v l : (off + 2 ≤ length l)%nat → get_u16 off (put_u16 off v l) = u16 v.
Proof.
  intros. unfold get_u16, put_u16.
  rewrite <- (length_le_enc 2 v) at 1. rewrite slice_splice_eq by (by rewrite length_le_enc).
  by rewrite le_dec_enc.
Qed.
Lemma get_put_u32_ne off off' v l :
  (off + 4 ≤ length l)%nat → (off' + 4 ≤ off ∨ off + 4 ≤ off')%nat →
  get_u32 off' (put_u32 off v l) = get_u32 off' l.
Proof.
  intros. unfold get_u32, put_u32. f_equal. apply slice_splice_ne; rewrite length_le_enc; lia.
Qed.

(** Lengths of buffers under field updates. *)
Ltac put_len := rewrite ?length_put_u32, ?length_put_u16 by put_len; lia.

(** ** Hint database of the development *)
Create HintDb kernel.
Create Rewrite HintDb len.
#[export] Hint Rewrite @length_splice @length_insert @length_app length_le_enc
  @length_take @length_drop @length_replicate @length_fmap : len.
