(* ===== verification/Spinlock.v ===== *)
(** * spinlock.c: nested interrupt disabling, and call-stack capture

    The state is the part of [struct cpu] that [pushcli]/[popcli] use, with
    the flags register the two read and write through [readeflags], [cli]
    and [sti] (x86.h). [getcallerpcs] walks saved frame pointers in a word
    memory. *)

From S2P Require Import Prelude.

Definition FL_IF : Z := 0x200.

Record cpu := mk_cpu {
  ncli : Z;      (* depth of pushcli nesting *)
  intena : Z;    (* were interrupts enabled before pushcli? *)
  eflags : Z;
}.
#[global] Instance cpu_eq_dec : EqDecision cpu.
Proof. solve_decision. Defined.

Definition readeflags : M cpu Z := gets eflags.
Definition cli : M cpu unit :=
  modify (λ c, mk_cpu (ncli c) (intena c) (Z.land (eflags c) (Z.lnot FL_IF))).
Definition sti : M cpu unit :=
  modify (λ c, mk_cpu (ncli c) (intena c) (Z.lor (eflags c) FL_IF)).

Definition pushcli : M cpu unit :=
  e ← readeflags;
  cli;;
  n ← gets ncli;
  when (n =? 0) (modify (λ c, mk_cpu (ncli c) (Z.land e FL_IF) (eflags c)));;
  modify (λ c, mk_cpu (s32 (ncli c + 1)) (intena c) (eflags c)).

Definition popcli : M cpu unit :=
  e ← readeflags;
  if negb (Z.land e FL_IF =? 0) then panic "popcli - interruptible" else
  modify (λ c, mk_cpu (s32 (ncli c - 1)) (intena c) (eflags c));;
  n ← gets ncli;
  if n <? 0 then panic "popcli" else
  i ← gets intena;
  when ((n =? 0) && negb (i =? 0)) sti.

(** Interrupts are taken by the processor. *)
Definition irq_on (c : cpu) : bool := Z.testbit (eflags c) 9.

(** The walk of [getcallerpcs] over words [w : address → value]: [fuel]
    entries are still to be filled. A frame pointer of 0 or 0xffffffff stops
    the walk, and the rest of the array is cleared. *)
Fixpoint getcallerpcs_from (w : Z → Z) (fuel : nat) (ebp : Z) : list Z :=
  match fuel with
  | O => []
  | S fuel' =>
      if (ebp =? 0) || (ebp =? 0xffffffff) then replicate fuel 0
      else w (u32 (ebp + 4)) :: getcallerpcs_from w fuel' (w ebp)
  end.
Definition getcallerpcs (w : Z → Z) (v : Z) : list Z :=
  getcallerpcs_from w 10 (u32 (v - 8)).

(** ** Reasoning about the flag *)

Lemma irq_land_FL_IF e : (Z.land e FL_IF =? 0) = negb (Z.testbit e 9).
Proof. change FL_IF with (Z.shiftl 1 9). by apply land_pow2_eq0. Qed.

Lemma land_FL_IF e : Z.land e FL_IF = if Z.testbit e 9 then FL_IF else 0.
Proof.
  apply Z.bits_inj'. intros n Hn. rewrite Z.land_spec.
  change FL_IF with (2 ^ 9). rewrite Z.pow2_bits_eqb by lia.
  destruct (Z.eqb_spec 9 n) as [<-|Hne].
  - destruct (Z.testbit e 9); [by rewrite Z.pow2_bits_true by lia|by rewrite Z.bits_0].
  - rewrite andb_false_r. destruct (Z.testbit e 9); [|by rewrite Z.bits_0].
    by rewrite Z.pow2_bits_false by lia.
Qed.

Lemma sti_cli e : Z.testbit e 9 = true → Z.lor (Z.land e (Z.lnot FL_IF)) FL_IF = e.
Proof.
  intros He. apply Z.bits_inj'. intros n Hn. change FL_IF with (Z.shiftl 1 9).
  rewrite testbit_lor_pow2, testbit_andnot_pow2 by lia.
  destruct (Z.eqb_spec 9 n) as [<-|]; simpl; auto.
Qed.

Lemma cli_off e : Z.testbit (Z.land e (Z.lnot FL_IF)) 9 = false.
Proof. change FL_IF with (Z.shiftl 1 9). by rewrite testbit_andnot_pow2. Qed.

Lemma cli_idem e : Z.testbit e 9 = false → Z.land e (Z.lnot FL_IF) = e.
Proof.
  intros He. apply Z.bits_inj'. intros n Hn. change FL_IF with (Z.shiftl 1 9).
  rewrite testbit_andnot_pow2 by lia. destruct (Z.eqb_spec 9 n) as [<-|]; simpl; auto.
Qed.

(** ** The invariant of the nesting counter

    [cpu_wf on c]: outside every critical section the processor takes
    interrupts exactly when [on] says; inside one it takes none and [intena]
    remembers [on]. *)
Definition cpu_wf (on : bool) (c : cpu) : Prop :=
  (ncli c = 0 ∧ irq_on c = on) ∨
  (0 < ncli c < 2147483647 ∧ irq_on c = false ∧ intena c = if on then FL_IF else 0).

(** The result of [pushcli] on a well-formed processor. *)
Definition pushed (on : bool) (c : cpu) : cpu :=
  mk_cpu (ncli c + 1) (if on then FL_IF else 0) (Z.land (eflags c) (Z.lnot FL_IF)).

Lemma pushcli_run on c :
  cpu_wf on c → ncli c < 2147483646 → pushcli c = Ok (tt, pushed on c).
Proof.
  intros Hwf Hlt. unfold pushcli, readeflags, cli, pushed. munfold. cbn.
  destruct Hwf as [[H0 Hon]|(Hn & Hoff & Hi)].
  - rewrite H0. unfold irq_on in Hon. cbn. rewrite land_FL_IF, Hon. done.
  - destruct (Z.eqb_spec (ncli c) 0); [lia|]. cbn. rewrite s32_small by lia. by rewrite Hi.
Qed.

Lemma popcli_run_inner on c :
  cpu_wf on c → 1 < ncli c →
  popcli c = Ok (tt, mk_cpu (ncli c - 1) (intena c) (eflags c)).
Proof.
  intros [[H0 Hon]|(Hn & Hoff & Hi)] Hlt; [lia|]. unfold popcli, readeflags, irq_on in *. munfold. cbn.
  rewrite irq_land_FL_IF, Hoff. cbn. rewrite s32_small by lia.
  destruct (Z.ltb_spec (ncli c - 1) 0); [lia|].
  destruct (Z.eqb_spec (ncli c - 1) 0); [lia|]. done.
Qed.

Lemma popcli_run_outer on c :
  cpu_wf on c → ncli c = 1 →
  popcli c = Ok (tt, mk_cpu 0 (intena c) (if on then Z.lor (eflags c) FL_IF else eflags c)).
Proof.
  intros [[H0 Hon]|(Hn & Hoff & Hi)] Heq; [lia|]. unfold popcli, readeflags, irq_on in *. munfold. cbn.
  rewrite irq_land_FL_IF, Hoff. cbn. rewrite Heq, Hi. destruct on; done.
Qed.

Lemma pushed_wf on c : cpu_wf on c → ncli c < 2147483646 → cpu_wf on (pushed on c).
Proof.
  intros Hwf ?. right. unfold pushed, irq_on; cbn [ncli eflags intena].
  split_and!; [|lia| apply cli_off|done].
  destruct Hwf as [[? _]|[? _]]; lia.
Qed.

(** Every sequence of calls. *)
Inductive irq_step : cpu → cpu → Prop :=
| step_push c c' : pushcli c = Ok (tt, c') → ncli c < 2147483646 → irq_step c c'
| step_pop c c' : popcli c = Ok (tt, c') → irq_step c c'.

Lemma irq_step_wf on c c' : cpu_wf on c → irq_step c c' → cpu_wf on c'.
Proof.
  intros Hwf Hst. revert Hwf. destruct Hst as [c1 c2 Hrun Hlt|c1 c2 Hrun]; intros Hwf.
  - rewrite (pushcli_run on) in Hrun by done. simplify_eq. by apply pushed_wf.
  - destruct (Z.lt_total (ncli c1) 1) as [Hlt|[Heq|Hgt]].
    + exfalso. destruct Hwf as [[H0 _]|[? _]]; [|lia]. revert Hrun. unfold popcli, readeflags. munfold. cbn.
      case_match; [done|]. cbn. rewrite H0. by change (s32 (0 - 1) <? 0) with true.
    + rewrite (popcli_run_outer on) in Hrun by done. simplify_eq. left. split; [done|].
      destruct Hwf as [[? _]|(_ & Hoff & _)]; [lia|]. unfold irq_on in *.
      destruct on; cbn [eflags]; [|done]. change FL_IF with (Z.shiftl 1 9). by rewrite testbit_lor_pow2.
    + rewrite (popcli_run_inner on) in Hrun by done. simplify_eq. right. cbn.
      destruct Hwf as [[? _]|(? & Hoff & ?)]; [lia|]. split_and!; try done; lia.
Qed.

Lemma irq_steps_wf on c c' : cpu_wf on c → rtc irq_step c c' → cpu_wf on c'.
Proof. intros Hwf. induction 1; eauto using irq_step_wf. Qed.

(** ** Brackets *)

(** The processor outside every critical section, taking interrupts: the
    state in which system calls and the boot code run the file system. *)
Definition cpu_idle (c : cpu) : Prop := ncli c = 0 ∧ irq_on c = true.

Lemma cpu_idle_wf c : cpu_idle c → cpu_wf true c.
Proof. intros [? ?]. by left. Qed.

(** The processor inside exactly one critical section entered from [cpu_idle]. *)
Definition cpu_held (c : cpu) : Prop := ncli c = 1 ∧ irq_on c = false ∧ intena c = FL_IF.

Lemma wp_pushcli_idle E Q c :
  cpu_idle c → (∀ c', cpu_held c' → Q tt c') → wp E pushcli Q c.
Proof.
  intros Hi HQ. pose proof (cpu_idle_wf _ Hi). destruct Hi as [Hn Hon].
  eapply wp_of_ok; [apply (pushcli_run true); [done|lia]|].
  apply HQ. unfold pushed, cpu_held, irq_on; cbn [ncli eflags intena]. rewrite Hn. split_and!; [done| |done].
  apply cli_off.
Qed.

Lemma wp_popcli_held E Q c :
  cpu_held c → (∀ c', cpu_idle c' → Q tt c') → wp E popcli Q c.
Proof.
  intros (Hn & Hoff & Hi) HQ. assert (cpu_wf true c) as Hwf by (right; split_and!; [lia..|done|done]).
  eapply wp_of_ok; [apply (popcli_run_outer true); done|].
  apply HQ. split; [done|]. unfold irq_on in *; cbn [eflags].
  change FL_IF with (Z.shiftl 1 9). by rewrite testbit_lor_pow2.
Qed.

(** A critical section entered at any depth, with interrupts on or off. *)
Definition cpu_sane (on : bool) (c : cpu) : Prop := cpu_wf on c ∧ ncli c < 2147483000.

Lemma wp_pushcli_sane on E Q c : cpu_sane on c → Q tt (pushed on c) → wp E pushcli Q c.
Proof. intros [Hwf Hlt] HQ. eapply wp_of_ok; [apply (pushcli_run on); [done|lia]|done]. Qed.

Lemma wp_popcli_pushed on E Q c :
  cpu_sane on c →
  (∀ c', cpu_sane on c' → ncli c' = ncli c → irq_on c' = irq_on c → Q tt c') →
  wp E popcli Q (pushed on c).
Proof.
  intros [Hwf Hlt] HQ. assert (cpu_wf on (pushed on c)) as Hp by (apply pushed_wf; [done|lia]).
  destruct Hwf as [[H0 Hon]|(Hn & Hoff & Hi)].
  - eapply wp_of_ok; [apply (popcli_run_outer on); [done|cbn; lia]|].
    assert (irq_on (mk_cpu 0 (intena (pushed on c)) (if on then Z.lor (eflags (pushed on c)) FL_IF
      else eflags (pushed on c))) = on) as Hir.
    { unfold irq_on, pushed; cbn [eflags intena]. change FL_IF with (Z.shiftl 1 9) at 2.
      destruct on; [by rewrite testbit_lor_pow2|apply cli_off]. }
    apply HQ; [|cbn; lia|by rewrite Hir]. split; [left; done|done].
  - eapply wp_of_ok; [apply (popcli_run_inner on); [done|cbn; lia]|].
    assert (irq_on (mk_cpu (ncli (pushed on c) - 1) (intena (pushed on c)) (eflags (pushed on c))) = false) as Hir.
    { unfold irq_on, pushed; cbn [eflags]. apply cli_off. }
    apply HQ; [|cbn; lia|by rewrite Hir]. split; [right; cbn; split_and!; [lia|lia|exact Hir|done]|cbn; lia].
Qed.

(** [popcli] at any depth. *)
Lemma wp_popcli_wf on E Q c :
  cpu_wf on c → 0 < ncli c → (∀ c', cpu_wf on c' → ncli c' = ncli c - 1 → Q tt c') → wp E popcli Q c.
Proof.
  intros Hwf Hn HQ. destruct (decide (ncli c = 1)) as [H1|H1].
  - pose proof (popcli_run_outer on c Hwf H1) as Hrun. eapply wp_of_ok; [exact Hrun|].
    apply HQ; [by eapply irq_step_wf; [|apply step_pop, Hrun]|cbn; lia].
  - pose proof (popcli_run_inner on c Hwf ltac:(lia)) as Hrun. eapply wp_of_ok; [exact Hrun|].
    apply HQ; [by eapply irq_step_wf; [|apply step_pop, Hrun]|done].
Qed.
Lemma cpu_wf_irq on c c' : cpu_wf on c → cpu_wf on c' → ncli c' = ncli c → irq_on c' = irq_on c.
Proof. intros [[H1 H2]|(H1 & H2 & _)] [[H3 H4]|(H3 & H4 & _)] Hn; lia || congruence. Qed.
