(* ===== verification/CString.v ===== *)
(** * string.c: memory and string primitives

    The [mem*] routines run over a byte memory indexed by address, so that
    overlapping ranges are visible. The [str*] routines only move forward, so
    a [const char*] is the list of bytes from the pointer on: [*p] is its
    head, [p++] its tail, and running off its end is a read out of range
    ([None]). *)

From S2P Require Import Prelude.

(** A string literal with its NUL, and one that ends in a newline. *)
Definition chars (s : string) : list Z := Z.of_nat ∘ Ascii.nat_of_ascii <$> String.list_ascii_of_string s.
Definition str (s : string) : list Z := chars s ++ [0].
Definition line (s : string) : list Z := chars s ++ [10; 0].

Abbreviation mem := (Z → Z).
Definition store (m : mem) (a v : Z) : mem := λ x, if x =? a then v else m x.

(** x86.h: [rep stosb] and [rep stosl]. *)
Fixpoint stosb (m : mem) (addr data : Z) (cnt : nat) : mem :=
  match cnt with
  | O => m
  | S cnt => stosb (store m addr (u8 data)) (addr + 1) data cnt
  end.
Definition store4 (m : mem) (a v : Z) : mem :=
  store (store (store (store m a (u8 v)) (a + 1) (u8 (Z.shiftr v 8)))
    (a + 2) (u8 (Z.shiftr v 16))) (a + 3) (u8 (Z.shiftr v 24)).
Fixpoint stosl (m : mem) (addr data : Z) (cnt : nat) : mem :=
  match cnt with
  | O => m
  | S cnt => stosl (store4 m addr data) (addr + 4) data cnt
  end.

Definition memset (m : mem) (dst c n : Z) : mem :=
  if (Z.rem (s32 dst) 4 =? 0) && (n mod 4 =? 0) then
    let c := Z.land c 0xFF in
    stosl m dst (Z.lor (Z.lor (Z.lor (s32 (Z.shiftl c 24)) (Z.shiftl c 16)) (Z.shiftl c 8)) c)
      (Z.to_nat (n / 4))
  else stosb m dst c (Z.to_nat n).

Fixpoint memcmp_loop (m : mem) (s1 s2 : Z) (n : nat) : Z :=
  match n with
  | O => 0
  | S n => if negb (m s1 =? m s2) then m s1 - m s2 else memcmp_loop m (s1 + 1) (s2 + 1) n
  end.
Definition memcmp (m : mem) (v1 v2 n : Z) : Z := memcmp_loop m v1 v2 (Z.to_nat n).

Fixpoint memmove_down (m : mem) (d s : Z) (n : nat) : mem :=
  match n with
  | O => m
  | S n => memmove_down (store m (d - 1) (m (s - 1))) (d - 1) (s - 1) n
  end.
Fixpoint memmove_up (m : mem) (d s : Z) (n : nat) : mem :=
  match n with
  | O => m
  | S n => memmove_up (store m d (m s)) (d + 1) (s + 1) n
  end.
Definition memmove (m : mem) (dst src n : Z) : mem :=
  if (src <? dst) && (src + n >? dst) then memmove_down m (dst + n) (src + n) (Z.to_nat n)
  else memmove_up m dst src (Z.to_nat n).
Definition memcpy (m : mem) (dst src n : Z) : mem := memmove m dst src n.

Fixpoint strncmp (p q : list Z) (n : nat) {struct n} : option Z :=
  match n with
  | O => Some 0
  | S n =>
      match p, q with
      | x :: p, y :: q =>
          if negb (x =? 0) && (x =? y) then strncmp p q n else Some (u8 x - u8 y)
      | _, _ => None
      end
  end.

(** The bytes [strncpy] writes from [s] on, always [n] of them. *)
Fixpoint strncpy (t : list Z) (n : nat) {struct n} : option (list Z) :=
  match n with
  | O => Some []
  | S n =>
      match t with
      | [] => None
      | x :: t => if negb (x =? 0) then cons x <$> strncpy t n else Some (0 :: replicate n 0)
      end
  end.

(** The bytes [safestrcpy] writes from [s] on; none when [n <= 0]. *)
Fixpoint safestrcpy_loop (t : list Z) (n : nat) {struct n} : option (list Z) :=
  match n with
  | O => Some [0]
  | S n =>
      match t with
      | [] => None
      | x :: t => if negb (x =? 0) then cons x <$> safestrcpy_loop t n else Some [0; 0]
      end
  end.
Definition safestrcpy (t : list Z) (n : Z) : option (list Z) :=
  if n <=? 0 then Some [] else safestrcpy_loop t (Z.to_nat (n - 1)).

Fixpoint strlen (s : list Z) : option Z :=
  match s with
  | [] => None
  | x :: s => if x =? 0 then Some 0 else Z.succ <$> strlen s
  end.

(** ** The mem* routines *)

Lemma store_spec m a v x : store m a v x = if decide (x = a) then v else m x.
Proof. unfold store. case_decide; [by rewrite (proj2 (Z.eqb_eq _ _))|by rewrite (proj2 (Z.eqb_neq _ _))]. Qed.

Lemma stosb_spec m a v n x :
  stosb m a v n x = if decide (a ≤ x < a + Z.of_nat n) then u8 v else m x.
Proof.
  revert m a. induction n as [|n IH]; intros m a; simpl.
  - by rewrite decide_False by lia.
  - rewrite IH, store_spec. repeat case_decide; try done; lia.
Qed.

Definition splat (c : Z) : Z :=
  Z.lor (Z.lor (Z.lor (s32 (Z.shiftl c 24)) (Z.shiftl c 16)) (Z.shiftl c 8)) c.

Lemma splat_bytes c : 0 ≤ c < 256 →
  u8 (splat c) = c ∧ u8 (Z.shiftr (splat c) 8) = c ∧
  u8 (Z.shiftr (splat c) 16) = c ∧ u8 (Z.shiftr (splat c) 24) = c.
Proof.
  intros Hc.
  assert (Forall (λ c, u8 (splat c) = c ∧ u8 (Z.shiftr (splat c) 8) = c ∧
    u8 (Z.shiftr (splat c) 16) = c ∧ u8 (Z.shiftr (splat c) 24) = c) (seqZ 0 256)) as HF
    by (apply (bool_decide_unpack _); vm_compute; exact I).
  rewrite Forall_forall in HF. apply HF, elem_of_seqZ. lia.
Qed.

Lemma stosl_splat_spec m a c n x : 0 ≤ c < 256 →
  stosl m a (splat c) n x = if decide (a ≤ x < a + 4 * Z.of_nat n) then c else m x.
Proof.
  intros Hc. destruct (splat_bytes c Hc) as (H0 & H1 & H2 & H3).
  revert m a. induction n as [|n IH]; intros m a; simpl stosl.
  - by rewrite decide_False by lia.
  - rewrite IH. unfold store4. rewrite !store_spec, H0, H1, H2, H3.
    repeat case_decide; try done; lia.
Qed.

(** The word-at-a-time path fills the same bytes as the byte path. *)
Lemma memset_spec m dst c n x : 0 ≤ n →
  memset m dst c n x = if decide (dst ≤ x < dst + n) then u8 c else m x.
Proof.
  intros Hn. unfold memset. destruct (_ && _) eqn:Hal.
  - apply andb_true_iff in Hal as [_ Hal]. apply Z.eqb_eq in Hal.
    change 0xFF with (Z.ones 8). rewrite Z.land_ones by lia. change (2 ^ 8) with 256.
    fold (splat (c mod 256)). rewrite stosl_splat_spec by (apply Z.mod_pos_bound; lia).
    rewrite Z2Nat.id by (apply Z.div_pos; lia).
    replace (4 * (n / 4)) with n; [done|]. pose proof (Z_div_mod_eq_full n 4). lia.
  - rewrite stosb_spec, Z2Nat.id by lia. done.
Qed.

Lemma memmove_up_spec m d s n x :
  d ≤ s ∨ s + Z.of_nat n ≤ d →
  memmove_up m d s n x = if decide (d ≤ x < d + Z.of_nat n) then m (s + (x - d)) else m x.
Proof.
  revert m d s. induction n as [|n IH]; intros m d s Hov; simpl.
  - by rewrite decide_False by lia.
  - rewrite IH by lia. rewrite !store_spec.
    repeat case_decide; try done; try lia; f_equal; lia.
Qed.

Lemma memmove_down_spec m d s n x :
  s ≤ d ∨ d + Z.of_nat n ≤ s →
  memmove_down m d s n x =
    if decide (d - Z.of_nat n ≤ x < d) then m (s - (d - x)) else m x.
Proof.
  revert m d s. induction n as [|n IH]; intros m d s Hov; simpl.
  - by rewrite decide_False by lia.
  - rewrite IH by lia. rewrite !store_spec.
    repeat case_decide; try done; try lia; f_equal; lia.
Qed.

Lemma memmove_spec m dst src n x : 0 ≤ n →
  memmove m dst src n x = if decide (dst ≤ x < dst + n) then m (src + (x - dst)) else m x.
Proof.
  intros Hn. unfold memmove. destruct (_ && _) eqn:Hov.
  - apply andb_true_iff in Hov as [?%Z.ltb_lt ?%Z.gtb_lt].
    rewrite memmove_down_spec, Z2Nat.id by lia.
    repeat case_decide; try done; try lia; f_equal; lia.
  - apply andb_false_iff in Hov.
    rewrite memmove_up_spec, Z2Nat.id; [done|lia|]. rewrite Z2Nat.id by lia.
    destruct Hov as [?%Z.ltb_ge|?]; [lia|]. rewrite Z.gtb_ltb in *. rewrite Z.ltb_ge in *. lia.
Qed.

Lemma memcmp_loop_zero m s1 s2 n :
  memcmp_loop m s1 s2 n = 0 ↔ ∀ k, 0 ≤ k < Z.of_nat n → m (s1 + k) = m (s2 + k).
Proof.
  revert s1 s2. induction n as [|n IH]; intros s1 s2; simpl; [split; [lia|done]|].
  destruct (Z.eqb_spec (m s1) (m s2)) as [He|He]; simpl.
  - rewrite IH. split; intros H k Hk.
    + destruct (decide (k = 0)) as [->|]; [by rewrite !Z.add_0_r|].
      replace (s1 + k) with (s1 + 1 + (k - 1)) by lia.
      replace (s2 + k) with (s2 + 1 + (k - 1)) by lia. apply H. lia.
    + replace (s1 + 1 + k) with (s1 + (1 + k)) by lia.
      replace (s2 + 1 + k) with (s2 + (1 + k)) by lia. apply H. lia.
  - split; [lia|]. intros H. specialize (H 0 ltac:(lia)). rewrite !Z.add_0_r in H. done.
Qed.

(** ** The str* routines

    [cname n l]: the name held by a C buffer [l] of [n] bytes, that is its
    bytes before the first NUL, at most [n] of them. *)
Fixpoint cname (n : nat) (l : list Z) : list Z :=
  match n, l with
  | S n, x :: l => if x =? 0 then [] else x :: cname n l
  | _, _ => []
  end.

(** A buffer can be read as a string of at most [n] bytes: it holds [n] bytes
    or a NUL among its bytes. *)
Definition readable (n : nat) (l : list Z) : Prop :=
  (n ≤ length l)%nat ∨ 0 ∈ l.

Lemma readable_cons n x l : x ≠ 0 → readable (S n) (x :: l) → readable n l.
Proof.
  intros Hx [Hr|Hr]; [left; simpl in Hr; lia|]. right. apply elem_of_cons in Hr as [?|?]; [lia|done].
Qed.

Lemma strncmp_some p q n : readable n p → readable n q → ∃ v, strncmp p q n = Some v.
Proof.
  revert p q. induction n as [|n IH]; intros p q Hp Hq; simpl; [eauto|].
  destruct p as [|x p]; [destruct Hp as [Hp|Hp]; [simpl in Hp; lia|by apply elem_of_nil in Hp]|].
  destruct q as [|y q]; [destruct Hq as [Hq|Hq]; [simpl in Hq; lia|by apply elem_of_nil in Hq]|].
  destruct (Z.eqb_spec x 0); simpl; [eauto|]. destruct (Z.eqb_spec x y); simpl; [|eauto].
  subst y. apply IH; by eapply readable_cons.
Qed.

Lemma strncmp_zero p q n v :
  Forall (λ b, 0 ≤ b < 256) p → Forall (λ b, 0 ≤ b < 256) q →
  strncmp p q n = Some v → (v = 0 ↔ cname n p = cname n q).
Proof.
  revert p q. induction n as [|n IH]; intros p q Hp Hq; simpl; [by intros [= <-]|].
  destruct Hp as [|x p Hx Hp], Hq as [|y q Hy Hq]; try done.
  destruct (Z.eqb_spec x 0) as [->|Hx0]; simpl.
  - intros [= <-]. rewrite !u8_small by lia. destruct (Z.eqb_spec y 0); split; intros; try done; lia.
  - destruct (Z.eqb_spec x y) as [->|Hxy]; simpl.
    + intros Hr. rewrite (proj2 (Z.eqb_neq y 0)) by done. rewrite (IH p q) by done.
      split; [by intros ->|congruence].
    + intros [= <-]. rewrite !u8_small by lia. split; [lia|].
      destruct (Z.eqb_spec y 0); [done|congruence].
Qed.

Lemma strncpy_some t n : readable n t → ∃ w, strncpy t n = Some w.
Proof.
  revert t. induction n as [|n IH]; intros t Ht; simpl; [eauto|].
  destruct t as [|x t]; [destruct Ht as [Ht|Ht]; [simpl in Ht; lia|by apply elem_of_nil in Ht]|].
  destruct (Z.eqb_spec x 0); simpl; [eauto|].
  destruct (IH t) as [w ->]; [by eapply readable_cons|]. simpl. eauto.
Qed.

Lemma cname_zeros n k : cname n (replicate k 0) = [].
Proof. by destruct n, k. Qed.

Lemma strncpy_name t n w :
  strncpy t n = Some w → length w = n ∧ cname n w = cname n t ∧ (∀ x, x ∈ w → x = 0 ∨ x ∈ t).
Proof.
  revert t w. induction n as [|n IH]; intros t w; simpl; [by intros [= <-]; set_solver|].
  destruct t as [|x t]; [done|]. destruct (Z.eqb_spec x 0) as [->|Hx]; simpl.
  - intros [= <-]. split_and!; [by rewrite length_cons, length_replicate|done|].
    intros y [->|Hy]%elem_of_cons; [by left|]. apply elem_of_replicate in Hy as [-> _]. by left.
  - destruct (strncpy t n) as [w'|] eqn:Hw; simpl; [|done]. intros [= <-].
    destruct (IH _ _ Hw) as (Hl & Hn & He). split_and!; [simpl; by rewrite Hl| |set_solver].
    rewrite (proj2 (Z.eqb_neq x 0)) by done. by rewrite Hn.
Qed.

Lemma safestrcpy_loop_name t n w :
  safestrcpy_loop t n = Some w →
  (1 ≤ length w ≤ S n)%nat ∧ cname (length w) w = cname n t ∧ last w = Some 0.
Proof.
  revert t w. induction n as [|n IH]; intros t w; simpl; [by intros [= <-]|].
  destruct t as [|x t]; [done|]. destruct (Z.eqb_spec x 0) as [->|Hx]; simpl.
  - intros [= <-]. simpl. split_and!; [lia..|done|done].
  - destruct (safestrcpy_loop t n) as [w'|] eqn:Hw; simpl; [|done]. intros [= <-].
    destruct (IH _ _ Hw) as (Hl & Hn & He). simpl length. cbn [cname].
    rewrite (proj2 (Z.eqb_neq x 0)) by done. rewrite Hn. split_and!; [lia..|done|].
    destruct w'; [done|]. done.
Qed.

Lemma strlen_spec s k :
  strlen s = Some k ↔
  0 ≤ k ∧ s !! Z.to_nat k = Some 0 ∧ ∀ i x, (i < Z.to_nat k)%nat → s !! i = Some x → x ≠ 0.
Proof.
  revert k. induction s as [|x s IH]; intros k; simpl.
  - split; [done|]. intros (_ & H & _). by rewrite lookup_nil in H.
  - destruct (Z.eqb_spec x 0) as [->|Hx].
    + split; [intros [= <-]; split_and!; [done..|intros; simpl in *; lia]|].
      intros (Hk & Hl & Hb). destruct (decide (k = 0)) as [->|]; [done|].
      exfalso. eapply (Hb 0%nat 0); [lia|done..].
    + rewrite fmap_Some. split.
      * intros (k' & (Hk & Hl & Hb)%IH & ->). rewrite Z2Nat.inj_succ by lia. split_and!; [lia|done|].
        intros [|i] y Hi; simpl; [by intros [= <-]|]. intros Hy. eapply Hb; [|done]. lia.
      * intros (Hk & Hl & Hb). destruct (decide (k = 0)) as [->|].
        { simpl in Hl. congruence. }
        exists (k - 1). split; [|lia]. apply IH.
        replace (Z.to_nat k) with (S (Z.to_nat (k - 1))) in * by lia.
        split_and!; [lia|done|]. intros i y Hi Hy. eapply (Hb (S i)); [lia|done].
Qed.
