(* ===== verification/Ide.v ===== *)
(** * ide.c and buf.h: disk buffers and the PIO IDE driver

    Buffers live in one array ([bcache.buf] and the list head of bio.c), and
    a buffer pointer is an index into it. The drive is not part of the
    sources: it is a parameter, the class [IdeDevice] of its port accesses,
    with the documented ATA behaviour the driver relies on as the laws of
    [IdeDeviceOk]. *)

From S2P Require Import Prelude Spinlock.

(** ** Constants and buffers *)
Definition BSIZE : Z := 512.
Definition NBUF : nat := 30.
Definition FSSIZE : Z := 1000.
Definition SECTOR_SIZE : Z := 512.
Definition IDE_BSY : Z := 0x80.
Definition IDE_DRDY : Z := 0x40.
Definition IDE_DF : Z := 0x20.
Definition IDE_ERR : Z := 0x01.
Definition IDE_CMD_READ : Z := 0x20.
Definition IDE_CMD_WRITE : Z := 0x30.
Definition IDE_CMD_RDMUL : Z := 0xc4.
Definition IDE_CMD_WRMUL : Z := 0xc5.

Definition B_VALID : Z := 0x2.  (* buffer has been read from disk *)
Definition B_DIRTY : Z := 0x4.  (* buffer needs to be written to disk *)

Record buf := mk_buf {
  b_flags : Z;
  b_dev : Z;
  b_blockno : Z;
  b_refcnt : Z;
  b_prev : option nat;
  b_next : option nat;
  b_qnext : option nat;
  b_data : list Z;
}.
#[global] Instance buf_eq_dec : EqDecision buf.
Proof. solve_decision. Defined.

Definition set_b_flags (v : Z) (b : buf) : buf :=
  mk_buf v (b_dev b) (b_blockno b) (b_refcnt b) (b_prev b) (b_next b) (b_qnext b) (b_data b).
Definition set_b_refcnt (v : Z) (b : buf) : buf :=
  mk_buf (b_flags b) (b_dev b) (b_blockno b) v (b_prev b) (b_next b) (b_qnext b) (b_data b).
Definition set_b_prev (v : option nat) (b : buf) : buf :=
  mk_buf (b_flags b) (b_dev b) (b_blockno b) (b_refcnt b) v (b_next b) (b_qnext b) (b_data b).
Definition set_b_next (v : option nat) (b : buf) : buf :=
  mk_buf (b_flags b) (b_dev b) (b_blockno b) (b_refcnt b) (b_prev b) v (b_qnext b) (b_data b).
Definition set_b_qnext (v : option nat) (b : buf) : buf :=
  mk_buf (b_flags b) (b_dev b) (b_blockno b) (b_refcnt b) (b_prev b) (b_next b) v (b_data b).
Definition set_b_data (v : list Z) (b : buf) : buf :=
  mk_buf (b_flags b) (b_dev b) (b_blockno b) (b_refcnt b) (b_prev b) (b_next b) (b_qnext b) v.

(** ** The drive *)

(** Port accesses; [dev_polls] is how many status reads the model grants the
    drive in one wait before the wait counts as endless. *)
Class IdeDevice (D : Type) := {
  dev_inb : Z → D → Z * D;
  dev_outb : Z → Z → D → D;
  dev_insl : Z → nat → D → list Z * D;
  dev_outsl : Z → list Z → D → D;
  dev_polls : nat;
}.

(** ** Driver state

    [wrote] is a ghost history: the sectors the driver has handed to the
    drive, oldest first, as (drive, sector, contents). No code reads it. *)
Record ide (D : Type) := mk_ide {
  icpu : cpu;
  bufs : list buf;
  idequeue : option nat;
  havedisk1 : Z;
  hw : D;
  wrote : list (Z * Z * list Z);
}.
Arguments mk_ide {D}.
Arguments icpu {D}.
Arguments bufs {D}.
Arguments idequeue {D}.
Arguments havedisk1 {D}.
Arguments hw {D}.
Arguments wrote {D}.

Section driver.
Context {D : Type} {dev : IdeDevice D}.

Definition set_icpu v (s : ide D) : ide D := mk_ide v (bufs s) (idequeue s) (havedisk1 s) (hw s) (wrote s).
Definition set_bufs v (s : ide D) : ide D := mk_ide (icpu s) v (idequeue s) (havedisk1 s) (hw s) (wrote s).
Definition set_idequeue v (s : ide D) : ide D := mk_ide (icpu s) (bufs s) v (havedisk1 s) (hw s) (wrote s).
Definition set_havedisk1 v (s : ide D) : ide D := mk_ide (icpu s) (bufs s) (idequeue s) v (hw s) (wrote s).
Definition set_hw v (s : ide D) : ide D := mk_ide (icpu s) (bufs s) (idequeue s) (havedisk1 s) v (wrote s).
Definition set_wrote v (s : ide D) : ide D := mk_ide (icpu s) (bufs s) (idequeue s) (havedisk1 s) (hw s) v.

Definition on_cpu {A} (m : M cpu A) : M (ide D) A := zoom icpu set_icpu m.

(** Dereferencing a buffer pointer. *)
Definition get_buf (i : nat) : M (ide D) buf := getopt (λ s, bufs s !! i).
Definition put_buf (i : nat) (b : buf) : M (ide D) unit := modify (λ s, set_bufs (<[i:=b]> (bufs s)) s).
Definition mod_buf (i : nat) (f : buf → buf) : M (ide D) unit := b ← get_buf i; put_buf i (f b).

(** x86.h port instructions. *)
Definition inb (port : Z) : M (ide D) Z := λ s,
  let '(v, d) := dev_inb port (hw s) in Ok (v, set_hw d s).
Definition outb (port data : Z) : M (ide D) unit := modify (λ s, set_hw (dev_outb port (u8 data) (hw s)) s).
Definition insl (port : Z) (cnt : nat) : M (ide D) (list Z) := λ s,
  let '(v, d) := dev_insl port cnt (hw s) in Ok (v, set_hw d s).
Definition outsl (port : Z) (addr : list Z) (cnt : nat) : M (ide D) unit :=
  modify (λ s, set_hw (dev_outsl port (take (4 * cnt) addr) (hw s)) s).

Fixpoint idewait_loop (fuel : nat) : M (ide D) Z :=
  match fuel with
  | O => hang
  | S fuel =>
      r ← inb 0x1f7;
      if negb (Z.land r (Z.lor IDE_BSY IDE_DRDY) =? IDE_DRDY) then idewait_loop fuel else mret r
  end.
Definition idewait (checkerr : Z) : M (ide D) Z :=
  r ← idewait_loop dev_polls;
  if negb (checkerr =? 0) && negb (Z.land r (Z.lor IDE_DF IDE_ERR) =? 0) then mret (-1)
  else mret 0.

(** The probe loop of [ideinit]; [fuel] probes are left. *)
Fixpoint ideinit_probe (fuel : nat) : M (ide D) unit :=
  match fuel with
  | O => mret tt
  | S fuel =>
      r ← inb 0x1f7;
      if negb (r =? 0) then modify (set_havedisk1 1) else ideinit_probe fuel
  end.
(** [ideinit] after its call of [ioapicenable]. *)
Definition ideinit_drives : M (ide D) unit :=
  idewait 0;;
  outb 0x1f6 (Z.lor 0xe0 (Z.shiftl 1 4));;
  ideinit_probe 1000;;
  outb 0x1f6 (Z.lor 0xe0 (Z.shiftl 0 4)).

Definition idestart (p : option nat) : M (ide D) unit :=
  match p with
  | None => panic "idestart"
  | Some i =>
      b ← get_buf i;
      if b_blockno b >=? FSSIZE then panic "incorrect blockno" else
      let sector_per_block := BSIZE / SECTOR_SIZE in
      let sector := s32 (b_blockno b * sector_per_block) in
      let read_cmd := if sector_per_block =? 1 then IDE_CMD_READ else IDE_CMD_RDMUL in
      let write_cmd := if sector_per_block =? 1 then IDE_CMD_WRITE else IDE_CMD_WRMUL in
      if sector_per_block >? 7 then panic "idestart" else
      idewait 0;;
      outb 0x3f6 0;;
      outb 0x1f2 sector_per_block;;
      outb 0x1f3 (Z.land sector 0xff);;
      outb 0x1f4 (Z.land (Z.shiftr sector 8) 0xff);;
      outb 0x1f5 (Z.land (Z.shiftr sector 16) 0xff);;
      outb 0x1f6 (Z.lor (Z.lor 0xe0 (Z.shiftl (Z.land (b_dev b) 1) 4))
                        (Z.land (Z.shiftr sector 24) 0x0f));;
      if negb (Z.land (b_flags b) B_DIRTY =? 0) then
        outb 0x1f7 write_cmd;;
        outsl 0x1f0 (b_data b) (Z.to_nat (BSIZE / 4));;
        modify (λ s, set_wrote (wrote s ++ [(Z.land (b_dev b) 1, sector, b_data b)]) s)
      else outb 0x1f7 read_cmd
  end.

Definition ideintr : M (ide D) unit :=
  q ← gets idequeue;
  match q with
  | None => mret tt
  | Some i =>
      b ← get_buf i;
      modify (set_idequeue (b_qnext b));;
      (if Z.land (b_flags b) B_DIRTY =? 0 then
         r ← idewait 1;
         if r >=? 0 then
           v ← insl 0x1f0 (Z.to_nat (BSIZE / 4));
           mod_buf i (λ b, set_b_data (splice 0 v (b_data b)) b)
         else mret tt
       else mret tt);;
      mod_buf i (λ b, set_b_flags (Z.lor (b_flags b) B_VALID) b);;
      mod_buf i (λ b, set_b_flags (Z.land (b_flags b) (Z.lnot B_DIRTY)) b);;
      q' ← gets idequeue;
      match q' with
      | None => mret tt
      | Some _ => idestart q'
      end
  end.

(** The append loop: the pointer-to-pointer [pp] starts at [idequeue] ([None])
    and moves to the [qnext] field of each buffer on the queue ([Some j]) until
    the cell it points at is null, which then receives [i]. *)
Fixpoint ide_append (fuel : nat) (pp : option nat) (i : nat) : M (ide D) unit :=
  match fuel with
  | O => hang
  | S fuel =>
      cur ← match pp with
            | None => gets idequeue
            | Some j => b ← get_buf j; mret (b_qnext b)
            end;
      match cur with
      | Some j => ide_append fuel (Some j) i
      | None =>
          match pp with
          | None => modify (set_idequeue (Some i))
          | Some j => mod_buf j (set_b_qnext (Some i))
          end
      end
  end.

(** Waiting for the request: the loop ends only through the disk interrupt,
    which reaches [ideintr] when the processor takes interrupts. *)
Fixpoint iderw_wait (fuel : nat) (i : nat) : M (ide D) unit :=
  match fuel with
  | O => hang
  | S fuel =>
      b ← get_buf i;
      if negb (Z.land (b_flags b) (Z.lor B_VALID B_DIRTY) =? B_VALID) then
        c ← gets icpu;
        if irq_on c then ideintr;; iderw_wait fuel i else hang
      else mret tt
  end.

Definition iderw (i : nat) : M (ide D) unit :=
  on_cpu pushcli;;
  b ← get_buf i;
  if Z.land (b_flags b) (Z.lor B_VALID B_DIRTY) =? B_VALID then panic "iderw: nothing to do" else
  h ← gets havedisk1;
  if negb (b_dev b =? 0) && (h =? 0) then panic "iderw: ide disk 1 not present" else
  mod_buf i (set_b_qnext None);;
  ide_append (S (S NBUF)) None i;;
  q ← gets idequeue;
  (if bool_decide (q = Some i) then idestart (Some i) else mret tt);;
  on_cpu popcli;;
  iderw_wait (S (S NBUF)) i.
End driver.

(** ** What the driver relies on: ATA behaviour of the drive

    [media d drive lba] is the sector on the platter, [task] the values last
    written to the task-file ports, and [dphase] the transfer the drive is in. *)
Inductive phase := Idle | DataIn (drive lba : Z) | DataOut (drive lba : Z).

Fixpoint dev_poll `{IdeDevice D} (fuel : nat) (d : D) : option (Z * D) :=
  match fuel with
  | O => None
  | S fuel =>
      let '(r, d') := dev_inb 0x1f7 d in
      if Z.land r (Z.lor IDE_BSY IDE_DRDY) =? IDE_DRDY then Some (r, d') else dev_poll fuel d'
  end.

Class IdeDeviceOk (D : Type) {dev : IdeDevice D} := {
  media : D → Z → Z → list Z;
  task : D → Z → Z;
  dphase : D → phase;
  media_length d v b : length (media d v b) = 512%nat;
  (** a status wait ends, without an error, and reading the status changes nothing *)
  poll_ok d : ∃ r d', dev_poll dev_polls d = Some (r, d') ∧
    Z.land r (Z.lor IDE_DF IDE_ERR) = 0 ∧
    (∀ v b, media d' v b = media d v b) ∧ (∀ p, task d' p = task d p) ∧ dphase d' = dphase d;
  (** the device control register *)
  outb_ctl d x : let d' := dev_outb 0x3f6 x d in
    (∀ v b, media d' v b = media d v b) ∧ (∀ p, task d' p = task d p) ∧ dphase d' = dphase d;
  (** sector count, LBA bytes and drive/head registers *)
  outb_task d p x : 0x1f2 ≤ p ≤ 0x1f6 → let d' := dev_outb p x d in
    (∀ v b, media d' v b = media d v b) ∧
    (∀ q, task d' q = if q =? p then x else task d q) ∧ dphase d' = dphase d;
  (** READ SECTORS and WRITE SECTORS for one sector *)
  outb_read d : dphase d = Idle → task d 0x1f2 = 1 → let d' := dev_outb 0x1f7 IDE_CMD_READ d in
    (∀ v b, media d' v b = media d v b) ∧
    dphase d' = DataIn (Z.land (Z.shiftr (task d 0x1f6) 4) 1)
      (task d 0x1f3 + 256 * task d 0x1f4 + 65536 * task d 0x1f5
       + 16777216 * Z.land (task d 0x1f6) 0x0f);
  outb_write d : dphase d = Idle → task d 0x1f2 = 1 → let d' := dev_outb 0x1f7 IDE_CMD_WRITE d in
    (∀ v b, media d' v b = media d v b) ∧
    dphase d' = DataOut (Z.land (Z.shiftr (task d 0x1f6) 4) 1)
      (task d 0x1f3 + 256 * task d 0x1f4 + 65536 * task d 0x1f5
       + 16777216 * Z.land (task d 0x1f6) 0x0f);
  (** the data register, one sector *)
  insl_data d v b : dphase d = DataIn v b →
    let '(x, d') := dev_insl 0x1f0 128 d in
    x = media d v b ∧ (∀ v b, media d' v b = media d v b) ∧ dphase d' = Idle;
  outsl_data d v b x : dphase d = DataOut v b → length x = 512%nat →
    let d' := dev_outsl 0x1f0 x d in
    (∀ v' b', media d' v' b' = if (v' =? v) && (b' =? b) then x else media d v' b') ∧
    dphase d' = Idle;
}.

(** ** Flag algebra *)
Definition is_valid (b : buf) : bool := Z.testbit (b_flags b) 1.
Definition is_dirty (b : buf) : bool := Z.testbit (b_flags b) 2.
Arguments is_valid : simpl never.
Arguments is_dirty : simpl never.

Lemma dirty_test b : (Z.land (b_flags b) B_DIRTY =? 0) = negb (is_dirty b).
Proof. change B_DIRTY with (Z.shiftl 1 2). by apply land_pow2_eq0. Qed.
Lemma valid_test b : (Z.land (b_flags b) B_VALID =? 0) = negb (is_valid b).
Proof. change B_VALID with (Z.shiftl 1 1). by apply land_pow2_eq0. Qed.

Lemma synced_test b :
  (Z.land (b_flags b) (Z.lor B_VALID B_DIRTY) =? B_VALID) = is_valid b && negb (is_dirty b).
Proof.
  unfold is_valid, is_dirty. set (f := b_flags b).
  assert (Z.land f (Z.lor B_VALID B_DIRTY) =
    Z.lor (if Z.testbit f 1 then 2 else 0) (if Z.testbit f 2 then 4 else 0)) as ->.
  { apply Z.bits_inj'. intros n Hn. rewrite Z.land_spec.
    change (Z.lor B_VALID B_DIRTY) with 6.
    destruct (decide (n = 1)) as [->|]; [by destruct (Z.testbit f 1), (Z.testbit f 2)|].
    destruct (decide (n = 2)) as [->|]; [by destruct (Z.testbit f 1), (Z.testbit f 2)|].
    change 6 with (Z.lor (2 ^ 1) (2 ^ 2)). rewrite Z.lor_spec, !Z.pow2_bits_false by lia.
    rewrite andb_false_r, Z.lor_spec.
    destruct (Z.testbit f 1), (Z.testbit f 2); change 2 with (2 ^ 1); change 4 with (2 ^ 2);
      rewrite ?Z.pow2_bits_false, ?Z.bits_0 by lia; done. }
  by destruct (Z.testbit f 1), (Z.testbit f 2).
Qed.

Lemma lor_valid f n : 0 ≤ n → Z.testbit (Z.lor f B_VALID) n = (1 =? n) || Z.testbit f n.
Proof. intros. change B_VALID with (Z.shiftl 1 1). by apply testbit_lor_pow2. Qed.
Lemma lor_dirty f n : 0 ≤ n → Z.testbit (Z.lor f B_DIRTY) n = (2 =? n) || Z.testbit f n.
Proof. intros. change B_DIRTY with (Z.shiftl 1 2). by apply testbit_lor_pow2. Qed.
Lemma andnot_dirty f n : 0 ≤ n →
  Z.testbit (Z.land f (Z.lnot B_DIRTY)) n = negb (2 =? n) && Z.testbit f n.
Proof. intros. change B_DIRTY with (Z.shiftl 1 2). by apply testbit_andnot_pow2. Qed.

Lemma land_1_cases x : Z.land x 1 = 0 ∨ Z.land x 1 = 1.
Proof.
  pose proof (Z.land_ones x 1 ltac:(lia)) as H. change (Z.ones 1) with 1 in H.
  change (2 ^ 1) with 2 in H. pose proof (Z.mod_pos_bound x 2 ltac:(lia)). lia.
Qed.

(** The five register values the driver sends name the sector again. *)
Lemma lba_recombine v sector : v = 0 ∨ v = 1 → 0 ≤ sector < FSSIZE →
  let r6 := u8 (Z.lor (Z.lor 0xe0 (Z.shiftl v 4)) (Z.land (Z.shiftr sector 24) 0x0f)) in
  Z.land (Z.shiftr r6 4) 1 = v ∧
  u8 (Z.land sector 0xff) + 256 * u8 (Z.land (Z.shiftr sector 8) 0xff)
  + 65536 * u8 (Z.land (Z.shiftr sector 16) 0xff) + 16777216 * Z.land r6 0x0f = sector.
Proof.
  intros Hv Hs r6. unfold FSSIZE in Hs.
  assert (Z.shiftr sector 24 = 0) as H24 by (rewrite Z.shiftr_div_pow2 by lia; apply Z.div_small; lia).
  assert (Z.shiftr sector 16 = 0) as H16 by (rewrite Z.shiftr_div_pow2 by lia; apply Z.div_small; lia).
  subst r6. rewrite H24, H16. split; [by destruct Hv as [->| ->]|].
  replace (Z.land (u8 (Z.lor (Z.lor 0xe0 (Z.shiftl v 4)) (Z.land 0 0x0f))) 0x0f) with 0
    by (by destruct Hv as [->| ->]).
  rewrite Z.shiftr_div_pow2 by lia. change 0xff with (Z.ones 8). rewrite !Z.land_ones by lia.
  unfold u8. change (2 ^ 8) with 256. rewrite !Z.mod_mod by lia. rewrite Z.mod_0_l by lia.
  pose proof (Z_div_mod_eq_full sector 256). rewrite (Z.mod_small (sector / 256)); [lia|].
  split; [apply Z.div_pos; lia|apply Z.div_lt_upper_bound; lia].
Qed.

(** ** Specifications *)
Definition upd_media (f : Z → Z → list Z) (v b : Z) (x : list Z) : Z → Z → list Z :=
  λ v' b', if (v' =? v) && (b' =? b) then x else f v' b'.

Section driver_specs.
Context {D : Type} {dev : IdeDevice D} {dok : IdeDeviceOk D}.
Implicit Types s : ide D.
Implicit Types d : D.

Definition drive_same d d' : Prop :=
  (∀ v b, media d' v b = media d v b) ∧ (∀ p, task d' p = task d p) ∧ dphase d' = dphase d.

Lemma wp_get_buf E i b (Q : buf → ide D → Prop) s :
  bufs s !! i = Some b → Q b s → wp E (get_buf i) Q s.
Proof. intros. by eapply wp_getopt. Qed.

Lemma wp_mod_buf E i b f (Q : unit → ide D → Prop) s :
  bufs s !! i = Some b → Q tt (set_bufs (<[i:=f b]> (bufs s)) s) → wp E (mod_buf i f) Q s.
Proof. intros. apply wp_bind. eapply wp_get_buf; [done|]. by apply wp_modify. Qed.

Lemma wp_on_pushcli E (Q : unit → ide D → Prop) s :
  cpu_idle (icpu s) → (∀ c', cpu_held c' → Q tt (set_icpu c' s)) → wp E (on_cpu pushcli) Q s.
Proof. intros. apply wp_zoom, wp_pushcli_idle; auto. Qed.

Lemma wp_on_popcli E (Q : unit → ide D → Prop) s :
  cpu_held (icpu s) → (∀ c', cpu_idle c' → Q tt (set_icpu c' s)) → wp E (on_cpu popcli) Q s.
Proof. intros. apply wp_zoom, wp_popcli_held; auto. Qed.

Lemma idewait_loop_run n s :
  idewait_loop n s =
  match dev_poll n (hw s) with Some (r, d') => Ok (r, set_hw d' s) | None => Hang end.
Proof.
  revert s. induction n as [|n IH]; intros s; [done|].
  cbn [idewait_loop dev_poll]. unfold inb. munfold.
  destruct (dev_inb 0x1f7 (hw s)) as [r d'] eqn:Hin.
  destruct (_ =? IDE_DRDY); cbn [negb]; [done|]. by rewrite IH.
Qed.

Lemma wp_idewait E c (Q : Z → ide D → Prop) s :
  (∀ d', drive_same (hw s) d' → Q 0 (set_hw d' s)) → wp E (idewait c) Q s.
Proof.
  intros HQ. destruct (poll_ok (hw s)) as (r & d' & Hp & Herr & Hsame).
  unfold idewait. apply wp_bind. eapply wp_of_ok.
  { rewrite idewait_loop_run, Hp. done. }
  rewrite Herr. cbn [Z.eqb negb]. rewrite andb_false_r. apply wp_ret. by apply HQ.
Qed.

Lemma wp_outb_task E p x (Q : unit → ide D → Prop) s :
  0x1f2 ≤ p ≤ 0x1f6 →
  (∀ d', (∀ v b, media d' v b = media (hw s) v b) →
     (∀ q, task d' q = if q =? p then u8 x else task (hw s) q) →
     dphase d' = dphase (hw s) → Q tt (set_hw d' s)) →
  wp E (outb p x) Q s.
Proof.
  intros Hp HQ. apply wp_modify.
  destruct (outb_task (hw s) p (u8 x) Hp) as (? & ? & ?). by apply HQ.
Qed.

(** [idestart] programs one sector: a dirty buffer's data reaches the platter,
    a clean buffer's sector is ready in the drive. *)
Lemma wp_idestart E i b (Q : unit → ide D → Prop) s :
  bufs s !! i = Some b → 0 ≤ b_blockno b < FSSIZE → length (b_data b) = 512%nat →
  dphase (hw s) = Idle →
  (is_dirty b = true → ∀ d',
     (∀ v' b', media d' v' b' =
        upd_media (media (hw s)) (Z.land (b_dev b) 1) (b_blockno b) (b_data b) v' b') →
     dphase d' = Idle →
     Q tt (set_wrote (wrote s ++ [(Z.land (b_dev b) 1, b_blockno b, b_data b)]) (set_hw d' s))) →
  (is_dirty b = false → ∀ d', (∀ v' b', media d' v' b' = media (hw s) v' b') →
     dphase d' = DataIn (Z.land (b_dev b) 1) (b_blockno b) → Q tt (set_hw d' s)) →
  wp E (idestart (Some i)) Q s.
Proof.
  intros Hb Hbn Hlen Hph HQw HQr. unfold idestart. apply wp_bind. eapply wp_get_buf; [done|].
  rewrite Z.geb_leb, (proj2 (Z.leb_gt _ _)) by (unfold FSSIZE in *; lia).
  change (BSIZE / SECTOR_SIZE) with 1. cbn [Z.eqb Pos.eqb Z.gtb Z.compare Pos.compare Pos.compare_cont].
  rewrite Z.mul_1_r, s32_small by (unfold FSSIZE in *; lia).
  apply wp_bind, wp_idewait. intros d0 (Hm0 & Ht0 & Hp0).
  apply wp_bind, wp_modify. destruct (outb_ctl d0 (u8 0)) as (Hm1 & Ht1 & Hp1).
  cbn [hw set_hw]. set (d1 := dev_outb 0x3f6 (u8 0) d0) in *.
  apply wp_bind, wp_outb_task; [lia|]. intros d2 Hm2 Ht2 Hp2. cbn [hw set_hw] in *.
  apply wp_bind, wp_outb_task; [lia|]. intros d3 Hm3 Ht3 Hp3. cbn [hw set_hw] in *.
  apply wp_bind, wp_outb_task; [lia|]. intros d4 Hm4 Ht4 Hp4. cbn [hw set_hw] in *.
  apply wp_bind, wp_outb_task; [lia|]. intros d5 Hm5 Ht5 Hp5. cbn [hw set_hw] in *.
  apply wp_bind, wp_outb_task; [lia|]. intros d6 Hm6 Ht6 Hp6. cbn [hw set_hw] in *.
  destruct (lba_recombine (Z.land (b_dev b) 1) (b_blockno b) (land_1_cases _) Hbn) as [Hdrv Hlba].
  assert (task d6 0x1f2 = 1) as Hcnt by by rewrite Ht6, Ht5, Ht4, Ht3, Ht2.
  assert (dphase d6 = Idle) as Hidle by congruence.
  assert (∀ v b, media d6 v b = media (hw s) v b) as Hm.
  { intros. by rewrite Hm6, Hm5, Hm4, Hm3, Hm2, Hm1, Hm0. }
  assert (task d6 0x1f3 = u8 (Z.land (b_blockno b) 0xff)) as H3 by by rewrite Ht6, Ht5, Ht4, Ht3.
  assert (task d6 0x1f4 = u8 (Z.land (Z.shiftr (b_blockno b) 8) 0xff)) as H4 by by rewrite Ht6, Ht5, Ht4.
  assert (task d6 0x1f5 = u8 (Z.land (Z.shiftr (b_blockno b) 16) 0xff)) as H5 by by rewrite Ht6, Ht5.
  assert (task d6 0x1f6 = _) as H6 by (rewrite Ht6; simpl; reflexivity).
  rewrite dirty_test, negb_involutive. destruct (is_dirty b).
  - apply wp_bind, wp_modify. cbn [hw set_hw].
    destruct (outb_write d6 Hidle Hcnt) as [Hm7 Hp7].
    rewrite H3, H4, H5, H6, Hdrv, Hlba in Hp7.
    change (u8 IDE_CMD_WRITE) with IDE_CMD_WRITE.
    apply wp_bind, wp_modify. cbn [hw set_hw].
    change (4 * Z.to_nat (BSIZE / 4))%nat with 512%nat. rewrite take_ge by lia.
    destruct (outsl_data _ _ _ (b_data b) Hp7 Hlen) as [Hm8 Hp8].
    apply wp_modify. apply HQw; [done| |done].
    intros v' b'. rewrite Hm8. unfold upd_media. case_match; [done|]. by rewrite Hm7, Hm.
  - apply wp_modify. cbn [hw set_hw]. change (u8 IDE_CMD_READ) with IDE_CMD_READ.
    destruct (outb_read d6 Hidle Hcnt) as [Hm7 Hp7].
    rewrite H3, H4, H5, H6, Hdrv, Hlba in Hp7. apply HQr; [done| |done].
    intros. by rewrite Hm7, Hm.
Qed.

(** What one serviced request leaves in its buffer. *)
Definition done_flags (f : Z) : Z := Z.land (Z.lor f B_VALID) (Z.lnot B_DIRTY).
Definition serviced (m : Z → Z → list Z) (b : buf) : buf :=
  set_b_flags (done_flags (b_flags b))
    (if is_dirty b then b else set_b_data (m (Z.land (b_dev b) 1) (b_blockno b)) b).

Lemma done_flags_valid f : Z.testbit (done_flags f) 1 = true.
Proof. unfold done_flags. by rewrite andnot_dirty, lor_valid. Qed.
Lemma done_flags_dirty f : Z.testbit (done_flags f) 2 = false.
Proof. unfold done_flags. by rewrite andnot_dirty. Qed.

(** The phase the drive is in while the request of [b] is outstanding. *)
Definition in_flight (b : buf) : phase :=
  if is_dirty b then Idle else DataIn (Z.land (b_dev b) 1) (b_blockno b).

(** The interrupt for the buffer at the head of the queue: it is dequeued and
    completed, and the request of the next buffer, if any, is started. *)
Lemma wp_ideintr E i b (Q : unit → ide D → Prop) s :
  idequeue s = Some i → bufs s !! i = Some b → length (b_data b) = 512%nat →
  dphase (hw s) = in_flight b →
  (∀ d', (∀ v' b', media d' v' b' = media (hw s) v' b') → dphase d' = Idle →
     let s' := mk_ide (icpu s) (<[i:=serviced (media (hw s)) b]> (bufs s)) (b_qnext b)
                 (havedisk1 s) d' (wrote s) in
     wp E (match b_qnext b with None => mret tt | Some _ => idestart (b_qnext b) end) Q s') →
  wp E ideintr Q s.
Proof.
  intros Hq Hb Hlen Hph HQ. unfold ideintr. apply wp_bind, wp_gets. rewrite Hq.
  assert (i < length (bufs s))%nat as Hi by (by eapply lookup_lt_Some).
  apply wp_bind. eapply wp_get_buf; [done|]. apply wp_bind, wp_modify.
  set (s1 := set_idequeue (b_qnext b) s). rewrite dirty_test.
  apply wp_bind. unfold in_flight in Hph. unfold serviced in HQ.
  assert (∀ d' b1, (∀ v' b', media d' v' b' = media (hw s) v' b') → dphase d' = Idle →
    b1 = (if is_dirty b then b
          else set_b_data (media (hw s) (Z.land (b_dev b) 1) (b_blockno b)) b) →
    wp E (mod_buf i (λ b, set_b_flags (Z.lor (b_flags b) B_VALID) b);;
      mod_buf i (λ b, set_b_flags (Z.land (b_flags b) (Z.lnot B_DIRTY)) b);;
      q' ← gets idequeue;
      match q' with None => mret tt | Some _ => idestart q' end) Q
      (mk_ide (icpu s) (<[i:=b1]> (bufs s)) (b_qnext b) (havedisk1 s) d' (wrote s))) as Hrest.
  { intros d' b1 Hm Hp ->. apply wp_bind. eapply wp_mod_buf; [by apply list_lookup_insert_eq|].
    apply wp_bind. eapply wp_mod_buf; [cbn [bufs set_bufs]; apply list_lookup_insert_eq; by rewrite length_insert|].
    apply wp_bind, wp_gets. unfold set_bufs. cbn [idequeue bufs icpu havedisk1 hw wrote].
    rewrite !list_insert_insert_eq. specialize (HQ d' Hm Hp). cbn zeta in HQ.
    destruct (is_dirty b); exact HQ. }
  destruct (is_dirty b) eqn:Hd; cbn [negb].
  - apply wp_ret. specialize (Hrest (hw s) b).
    replace s1 with (mk_ide (icpu s) (<[i:=b]> (bufs s)) (b_qnext b) (havedisk1 s) (hw s) (wrote s));
      [by apply Hrest|]. rewrite list_insert_id by done. by destruct s.
  - apply wp_bind, wp_idewait. intros d1 (Hm1 & Ht1 & Hp1). cbn [Z.geb Z.compare].
    cbn [hw set_idequeue s1] in *. apply wp_bind. unfold insl.
    pose proof (insl_data d1 _ _ (eq_trans Hp1 Hph)) as Hin.
    destruct (dev_insl 0x1f0 128 d1) as [x d2] eqn:He. destruct Hin as (-> & Hm2 & Hp2).
    eapply wp_of_ok; [cbn [hw set_hw]; change (Z.to_nat (BSIZE / 4)) with 128%nat; by rewrite He|].
    eapply wp_mod_buf; [done|]. apply (Hrest d2); [|done|].
    + intros. by rewrite Hm2, Hm1.
    + rewrite Hm1. f_equal. unfold splice.
      rewrite media_length, take_0, Nat.add_0_l, drop_ge by lia. by rewrite app_nil_r.
Qed.

Lemma serviced_synced m b :
  (Z.land (b_flags (serviced m b)) (Z.lor B_VALID B_DIRTY) =? B_VALID) = true.
Proof.
  rewrite synced_test. unfold is_valid, is_dirty, serviced. cbn [b_flags set_b_flags].
  by rewrite done_flags_valid, done_flags_dirty.
Qed.

(** The state [iderw] leaves behind when the queue was empty. *)
Definition iderw_post s i b c' d' : ide D :=
  mk_ide c' (<[i:=serviced (media (hw s)) (set_b_qnext None b)]> (bufs s)) None (havedisk1 s) d'
    (wrote s ++ if is_dirty b then [(Z.land (b_dev b) 1, b_blockno b, b_data b)] else []).

Definition media_after s b d' : Prop :=
  ∀ v' b', media d' v' b' =
    if is_dirty b then upd_media (media (hw s)) (Z.land (b_dev b) 1) (b_blockno b) (b_data b) v' b'
    else media (hw s) v' b'.

Lemma wp_iderw E i b (Q : unit → ide D → Prop) s :
  cpu_idle (icpu s) → idequeue s = None → dphase (hw s) = Idle →
  bufs s !! i = Some b → 0 ≤ b_blockno b < FSSIZE → length (b_data b) = 512%nat →
  is_valid b && negb (is_dirty b) = false → havedisk1 s ≠ 0 →
  (∀ c' d', cpu_idle c' → dphase d' = Idle → media_after s b d' → Q tt (iderw_post s i b c' d')) →
  wp E (iderw i) Q s.
Proof.
  intros Hcpu Hq Hph Hb Hbn Hlen Hsync Hdisk HQ. unfold iderw.
  assert (i < length (bufs s))%nat as Hi by (by eapply lookup_lt_Some).
  apply wp_bind, wp_on_pushcli; [done|]. intros c1 Hc1.
  apply wp_bind. eapply wp_get_buf; [done|]. rewrite synced_test, Hsync.
  apply wp_bind, wp_gets. cbn [havedisk1 set_icpu].
  rewrite (proj2 (Z.eqb_neq _ _) Hdisk), andb_false_r.
  apply wp_bind. eapply wp_mod_buf; [done|].
  apply wp_bind. cbn [ide_append]. apply wp_bind, wp_gets.
  cbn [idequeue set_bufs set_icpu]. rewrite Hq. apply wp_modify.
  apply wp_bind, wp_gets. cbn [idequeue set_idequeue]. rewrite bool_decide_eq_true_2 by done.
  set (b1 := set_b_qnext None b) in *.
  assert (∀ d' w', dphase d' = in_flight b → media_after s b d' →
    w' = wrote s ++ (if is_dirty b then [(Z.land (b_dev b) 1, b_blockno b, b_data b)] else []) →
    wp E (on_cpu popcli;; iderw_wait (S (S NBUF)) i) Q
      (mk_ide c1 (<[i:=b1]> (bufs s)) (Some i) (havedisk1 s) d' w')) as Hrest.
  { intros d' w' Hp Hm ->. apply wp_bind, wp_on_popcli; [done|]. intros c2 Hc2.
    unfold set_icpu. cbn [icpu bufs idequeue havedisk1 hw wrote].
    assert (serviced (media d') b1 = serviced (media (hw s)) b1) as Hserv.
    { unfold serviced. change (is_dirty b1) with (is_dirty b). specialize (Hm (Z.land (b_dev b) 1)).
      destruct (is_dirty b); [done|]. cbn [b_dev b_blockno set_b_qnext b1]. by rewrite Hm. }
    cbn [iderw_wait]. apply wp_bind. eapply wp_get_buf; [cbn [bufs set_bufs set_icpu set_idequeue]; by apply list_lookup_insert_eq|].
    rewrite synced_test. change (is_valid b1) with (is_valid b). change (is_dirty b1) with (is_dirty b).
    rewrite Hsync. cbn [negb]. apply wp_bind, wp_gets. cbn [icpu]. destruct Hc2 as [Hn2 Hon2].
    rewrite Hon2. apply wp_bind.
    eapply (wp_ideintr _ i b1); [done|cbn [bufs set_bufs set_icpu set_idequeue]; by apply list_lookup_insert_eq|done|exact Hp|].
    intros d2 Hm2 Hp2. cbn [b_qnext set_b_qnext b1 icpu bufs havedisk1 wrote hw]. apply wp_ret.
    apply wp_bind. eapply wp_get_buf.
    { cbn [bufs]. rewrite list_insert_insert_eq. by apply list_lookup_insert_eq. }
    rewrite serviced_synced. cbn [negb]. apply wp_ret. rewrite list_insert_insert_eq.
    cbn [hw] in *. fold b1. rewrite Hserv.
    apply HQ; [done|done|]. intros v' b'. rewrite Hm2. apply Hm. }
  apply wp_bind. eapply (wp_idestart _ i b1); [cbn [bufs set_bufs set_icpu set_idequeue]; by apply list_lookup_insert_eq|done..| |].
  - intros Hd d' Hm Hp. change (is_dirty b1) with (is_dirty b) in Hd.
    apply Hrest; unfold in_flight, media_after; rewrite Hd; done.
  - intros Hd d' Hm Hp. change (is_dirty b1) with (is_dirty b) in Hd.
    apply Hrest; unfold in_flight, media_after; rewrite Hd; [done..|]. by rewrite app_nil_r.
Qed.
End driver_specs.
