(* ===== verification/Drive.v ===== *)
(** * A concrete drive

    An error-free drive that answers every status read at once: an instance
    of the drive interface of Ide.v. It shows that the laws of [IdeDeviceOk]
    can hold, and the development runs the kernel code against it. *)

From S2P Require Import Prelude Ide.

Record drive := mk_drive {
  dr_task : gmap Z Z;
  dr_phase : phase;
  dr_media : gmap (Z * Z) (list Z);
}.

Definition dr_reg (d : drive) (p : Z) : Z := default 0 (dr_task d !! p).
Definition dr_sector (d : drive) (v b : Z) : list Z :=
  resize 512 0 (default [] (dr_media d !! (v, b))).
Definition dr_addr (d : drive) : Z * Z :=
  (Z.land (Z.shiftr (dr_reg d 0x1f6) 4) 1,
   dr_reg d 0x1f3 + 256 * dr_reg d 0x1f4 + 65536 * dr_reg d 0x1f5
   + 16777216 * Z.land (dr_reg d 0x1f6) 0x0f).

Definition dr_outb (p x : Z) (d : drive) : drive :=
  if p =? 0x1f7 then
    if x =? IDE_CMD_READ then mk_drive (dr_task d) (DataIn (dr_addr d).1 (dr_addr d).2) (dr_media d)
    else if x =? IDE_CMD_WRITE then
      mk_drive (dr_task d) (DataOut (dr_addr d).1 (dr_addr d).2) (dr_media d)
    else d
  else if (0x1f2 <=? p) && (p <=? 0x1f6) then
    mk_drive (<[p:=x]> (dr_task d)) (dr_phase d) (dr_media d)
  else d.
Definition dr_insl (p : Z) (cnt : nat) (d : drive) : list Z * drive :=
  match dr_phase d with
  | DataIn v b => (dr_sector d v b, mk_drive (dr_task d) Idle (dr_media d))
  | _ => (replicate (4 * cnt) 0, d)
  end.
Definition dr_outsl (p : Z) (x : list Z) (d : drive) : drive :=
  match dr_phase d with
  | DataOut v b => mk_drive (dr_task d) Idle (<[(v, b):=x]> (dr_media d))
  | _ => d
  end.

#[global] Instance drive_device : IdeDevice drive := {
  dev_inb p d := (if p =? 0x1f7 then IDE_DRDY else dr_reg d p, d);
  dev_outb := dr_outb;
  dev_insl := dr_insl;
  dev_outsl := dr_outsl;
  dev_polls := 1%nat;
}.

Lemma dr_reg_insert p x d q :
  dr_reg (mk_drive (<[p:=x]> (dr_task d)) (dr_phase d) (dr_media d)) q = if q =? p then x else dr_reg d q.
Proof.
  unfold dr_reg; cbn. destruct (Z.eqb_spec q p) as [->|].
  - by rewrite lookup_insert_eq.
  - by rewrite lookup_insert_ne by done.
Qed.

#[global] Instance drive_device_ok : IdeDeviceOk drive.
Proof.
  refine {| media := dr_sector; task := dr_reg; dphase := dr_phase |}.
  - intros. unfold dr_sector. apply length_resize.
  - intros d. eexists _, _. split; [vm_compute; reflexivity|]. done.
  - intros d x. done.
  - intros d p x Hp. cbn [dev_outb drive_device]. unfold dr_outb.
    rewrite (proj2 (Z.eqb_neq p 0x1f7)), (proj2 (Z.leb_le 0x1f2 p)), (proj2 (Z.leb_le p 0x1f6)) by lia.
    split_and!; [done| |done]. intros q. apply dr_reg_insert.
  - intros d Hi Hc. done.
  - intros d Hi Hc. done.
  - intros d v b Hp. cbn [dev_insl drive_device]. unfold dr_insl. rewrite Hp. done.
  - intros d v b x Hp Hx. cbn [dev_outsl drive_device]. unfold dr_outsl. rewrite Hp.
    split; [|done]. intros v' b'. unfold dr_sector; cbn [dr_media].
    destruct (Z.eqb_spec v' v) as [->|]; [destruct (Z.eqb_spec b' b) as [->|]|]; cbn [andb].
    + rewrite lookup_insert_eq. cbn. rewrite <- Hx. by rewrite resize_all.
    + by rewrite lookup_insert_ne by congruence.
    + by rewrite lookup_insert_ne by congruence.
Defined.
