(* ===== verification/Bio.v ===== *)
(** * bio.c: the buffer cache

    [bcache.buf] is the first [NBUF] entries of the buffer array and
    [bcache.head] the entry [HEAD] after them. The most-recently-used order is
    the doubly linked list the code keeps in the [prev]/[next] fields. *)

From S2P Require Import Prelude Spinlock Ide.

Definition HEAD : nat := NBUF.
Definition ROOTDEV : Z := 1.

Section cache.
Context {D : Type} {dev : IdeDevice D}.

(** Following a pointer that must not be null. *)
Definition deref (p : option nat) : M (ide D) nat :=
  match p with Some i => mret i | None => undef end.

(** [b->next = bcache.head.next; b->prev = &bcache.head;
     bcache.head.next->prev = b; bcache.head.next = b;] *)
Definition link_front (i : nat) : M (ide D) unit :=
  h ← get_buf HEAD;
  mod_buf i (set_b_next (b_next h));;
  mod_buf i (set_b_prev (Some HEAD));;
  h ← get_buf HEAD;
  n ← deref (b_next h);
  mod_buf n (set_b_prev (Some i));;
  mod_buf HEAD (set_b_next (Some i)).

(** Assignments through [b->data], and [memmove(d->data, b->data, BSIZE)]. *)
Definition mod_data (i : nat) (f : list Z → list Z) : M (ide D) unit :=
  mod_buf i (λ b, set_b_data (f (b_data b)) b).
Definition copy_data (d i : nat) : M (ide D) unit :=
  b ← get_buf i; mod_data d (splice 0 (take (Z.to_nat BSIZE) (b_data b))).

Fixpoint binit_loop (k i : nat) : M (ide D) unit :=
  match k with
  | O => mret tt
  | S k => link_front i;; binit_loop k (S i)
  end.
Definition binit : M (ide D) unit :=
  mod_buf HEAD (set_b_prev (Some HEAD));;
  mod_buf HEAD (set_b_next (Some HEAD));;
  binit_loop NBUF 0.

(** First loop of [bget]: is the block already cached? *)
Fixpoint bget_hit (fuel : nat) (p : option nat) (dv blockno : Z) : M (ide D) (option nat) :=
  match fuel with
  | O => hang
  | S fuel =>
      i ← deref p;
      if bool_decide (i = HEAD) then mret None else
      b ← get_buf i;
      if (b_dev b =? dv) && (b_blockno b =? blockno) then
        mod_buf i (λ b, set_b_refcnt (u32 (b_refcnt b + 1)) b);;
        mret (Some i)
      else bget_hit fuel (b_next b) dv blockno
  end.

(** Second loop of [bget]: recycle an unused buffer, from the tail. *)
Fixpoint bget_recycle (fuel : nat) (p : option nat) (dv blockno : Z) : M (ide D) (option nat) :=
  match fuel with
  | O => hang
  | S fuel =>
      i ← deref p;
      if bool_decide (i = HEAD) then mret None else
      b ← get_buf i;
      if (b_refcnt b =? 0) && (Z.land (b_flags b) B_DIRTY =? 0) then
        mod_buf i (λ b, mk_buf 0 dv blockno 1 (b_prev b) (b_next b) (b_qnext b) (b_data b));;
        mret (Some i)
      else bget_recycle fuel (b_prev b) dv blockno
  end.

Definition bget (dv blockno : Z) : M (ide D) nat :=
  on_cpu pushcli;;
  h ← get_buf HEAD;
  r ← bget_hit (S (S NBUF)) (b_next h) dv blockno;
  match r with
  | Some i => on_cpu popcli;; mret i
  | None =>
      h ← get_buf HEAD;
      r ← bget_recycle (S (S NBUF)) (b_prev h) dv blockno;
      match r with
      | Some i => on_cpu popcli;; mret i
      | None => panic "bget: no buffers"
      end
  end.

Definition bread (dv blockno : Z) : M (ide D) nat :=
  i ← bget dv blockno;
  b ← get_buf i;
  (if Z.land (b_flags b) B_VALID =? 0 then iderw i else mret tt);;
  mret i.

Definition bwrite (i : nat) : M (ide D) unit :=
  mod_buf i (λ b, set_b_flags (Z.lor (b_flags b) B_DIRTY) b);;
  iderw i.

(** [b->next->prev = b->prev; b->prev->next = b->next;] *)
Definition unlink_node (i : nat) : M (ide D) unit :=
  b ← get_buf i; n ← deref (b_next b); mod_buf n (set_b_prev (b_prev b));;
  b ← get_buf i; p ← deref (b_prev b); mod_buf p (set_b_next (b_next b)).

Definition brelse (i : nat) : M (ide D) unit :=
  on_cpu pushcli;;
  mod_buf i (λ b, set_b_refcnt (u32 (b_refcnt b - 1)) b);;
  b ← get_buf i;
  (if b_refcnt b =? 0 then unlink_node i;; link_front i else mret tt);;
  on_cpu popcli.
End cache.

(** ** Linked lists as paths

    [path f x l y]: from [x], following [f] visits the nodes [l] and then
    arrives at [y]. *)
Fixpoint path (f : nat → option nat) (x : nat) (l : list nat) (y : nat) : Prop :=
  match l with
  | [] => f x = Some y
  | z :: l => f x = Some z ∧ path f z l y
  end.

Definition fupd (f : nat → option nat) (u : nat) (v : option nat) : nat → option nat :=
  λ x, if decide (x = u) then v else f x.

Lemma path_ext f g x l y :
  (∀ u, u ∈ x :: l → g u = f u) → path f x l y → path g x l y.
Proof.
  revert x. induction l as [|z l IH]; intros x Hfg; simpl.
  - by rewrite Hfg by set_solver.
  - intros [Hz Hp]. split; [rewrite Hfg by set_solver; done|]. apply IH; [set_solver|done].
Qed.

Lemma path_app f x l1 z l2 y :
  path f x (l1 ++ z :: l2) y ↔ path f x l1 z ∧ path f z l2 y.
Proof.
  revert x. induction l1 as [|w l1 IH]; intros x; simpl; [done|]. rewrite IH. tauto.
Qed.

Definition hd_or (l : list nat) (y : nat) : nat := default y (head l).
Definition last_or (x : nat) (l : list nat) : nat := default x (last l).

Lemma path_head f x l y : path f x l y → f x = Some (hd_or l y).
Proof. destruct l; simpl; tauto. Qed.

Lemma last_or_elem x l : last_or x l ∈ x :: l.
Proof.
  unfold last_or. destruct (last l) as [z|] eqn:Hl; simpl; [|set_solver].
  apply last_Some in Hl as [l' ->]. set_solver.
Qed.

Lemma last_or_reverse x l : last_or x (reverse l) = hd_or l x.
Proof. unfold last_or, hd_or. by rewrite last_reverse. Qed.

Lemma path_redirect f x l y z :
  NoDup (x :: l) → path f x l y → path (fupd f (last_or x l) (Some z)) x l z.
Proof.
  revert x. induction l as [|w l IH]; intros x Hnd Hp.
  - unfold last_or, fupd. simpl. by rewrite decide_True.
  - destruct Hp as [Hw Hp]. apply NoDup_cons in Hnd as [Hx Hnd].
    assert (last_or x (w :: l) = last_or w l) as ->.
    { unfold last_or. rewrite last_cons. by destruct (last l). }
    split; [|by apply IH]. unfold fupd. rewrite decide_False; [done|].
    intros ->. apply Hx. apply last_or_elem.
Qed.

(** Bypassing a node. *)
Lemma path_unlink f x l1 i l2 y :
  NoDup (x :: l1 ++ i :: l2) → path f x (l1 ++ i :: l2) y →
  path (fupd f (last_or x l1) (Some (hd_or l2 y))) x (l1 ++ l2) y.
Proof.
  intros Hnd [Hp1 Hp2]%path_app.
  assert (NoDup (x :: l1)) as Hnd1.
  { apply NoDup_cons in Hnd as [? Hnd]. apply NoDup_app in Hnd as (? & ? & ?).
    apply NoDup_cons; set_solver. }
  destruct l2 as [|n l2]; cbn [hd_or head default].
  - rewrite app_nil_r. by eapply path_redirect.
  - destruct Hp2 as [_ Hp2]. apply path_app. split; [by eapply path_redirect|].
    eapply path_ext; [|exact Hp2]. intros u Hu. unfold fupd. rewrite decide_False; [done|].
    intros ->. pose proof (last_or_elem x l1) as He.
    apply NoDup_cons in Hnd as [Hx Hnd]. apply NoDup_app in Hnd as (_ & Hd & _).
    apply elem_of_cons in He as [He|He]; [|apply (Hd _ He); set_solver].
    apply Hx. rewrite <- He. set_solver.
Qed.

(** Entering the path from another node. *)
Lemma path_enter f x l y i :
  x ∉ l → i ∉ l → path f x l y → path (fupd f i (f x)) i l y.
Proof.
  intros Hx Hi. destruct l as [|z l]; simpl; unfold fupd at 1.
  - by rewrite decide_True.
  - rewrite decide_True by done. intros [Hz Hp]. split; [done|].
    eapply path_ext; [|exact Hp]. intros u Hu. unfold fupd. by rewrite decide_False by set_solver.
Qed.

(** ** The MRU list in the buffer array *)
Definition nxt (bs : list buf) (i : nat) : option nat := b ← bs !! i; b_next b.
Definition prv (bs : list buf) (i : nat) : option nat := b ← bs !! i; b_prev b.

(** The list, most recently used first. *)
Definition mru (bs : list buf) (l : list nat) : Prop :=
  path (nxt bs) HEAD l HEAD ∧ path (prv bs) HEAD (reverse l) HEAD.

Lemma nxt_insert_at bs i b u :
  (i < length bs)%nat → nxt (<[i:=b]> bs) u = fupd (nxt bs) i (b_next b) u.
Proof.
  intros. unfold nxt, fupd. case_decide as Hd.
  - subst. by rewrite list_lookup_insert_eq.
  - by rewrite list_lookup_insert_ne.
Qed.
Lemma prv_insert_at bs i b u :
  (i < length bs)%nat → prv (<[i:=b]> bs) u = fupd (prv bs) i (b_prev b) u.
Proof.
  intros. unfold prv, fupd. case_decide as Hd.
  - subst. by rewrite list_lookup_insert_eq.
  - by rewrite list_lookup_insert_ne.
Qed.

(** Buffers that differ in their links only. *)
Definition same_body (b b' : buf) : Prop :=
  b_flags b' = b_flags b ∧ b_dev b' = b_dev b ∧ b_blockno b' = b_blockno b ∧
  b_refcnt b' = b_refcnt b ∧ b_data b' = b_data b.
Definition same_bodies : relation (list buf) := Forall2 same_body.

#[global] Instance same_body_preorder : PreOrder same_body.
Proof.
  split; [done|]. intros b1 b2 b3 (?&?&?&?&?) (?&?&?&?&?). repeat split; congruence.
Qed.
#[global] Instance same_bodies_preorder : PreOrder same_bodies.
Proof. unfold same_bodies. split; apply _. Qed.

Lemma same_bodies_insert bs j b b' :
  bs !! j = Some b → same_body b b' → same_bodies bs (<[j:=b']> bs).
Proof.
  intros Hj Hb. rewrite <- (list_insert_id bs j b Hj) at 1.
  apply Forall2_insert; [reflexivity|done].
Qed.

Lemma same_bodies_lookup bs bs' j b :
  same_bodies bs bs' → bs !! j = Some b → ∃ b', bs' !! j = Some b' ∧ same_body b b'.
Proof. intros HF Hj. by eapply Forall2_lookup_l in HF. Qed.

Section links.
Context {D : Type} {dev : IdeDevice D}.
Implicit Types s : ide D.

Lemma wp_set_next E j v (Q : unit → ide D → Prop) s :
  (j < length (bufs s))%nat →
  (∀ bs', same_bodies (bufs s) bs' → (∀ u, nxt bs' u = fupd (nxt (bufs s)) j v u) →
     (∀ u, prv bs' u = prv (bufs s) u) → Q tt (set_bufs bs' s)) →
  wp E (mod_buf j (set_b_next v)) Q s.
Proof.
  intros Hj HQ. destruct (lookup_lt_is_Some_2 _ _ Hj) as [b Hb].
  eapply wp_bind, wp_getopt; [done|]. apply wp_modify, HQ.
  - eapply same_bodies_insert; [done|]. by destruct b.
  - intros u. by apply nxt_insert_at.
  - intros u. rewrite prv_insert_at by done. unfold fupd. case_decide; [|done].
    subst. unfold prv. by rewrite Hb.
Qed.

Lemma wp_set_prev E j v (Q : unit → ide D → Prop) s :
  (j < length (bufs s))%nat →
  (∀ bs', same_bodies (bufs s) bs' → (∀ u, prv bs' u = fupd (prv (bufs s)) j v u) →
     (∀ u, nxt bs' u = nxt (bufs s) u) → Q tt (set_bufs bs' s)) →
  wp E (mod_buf j (set_b_prev v)) Q s.
Proof.
  intros Hj HQ. destruct (lookup_lt_is_Some_2 _ _ Hj) as [b Hb].
  eapply wp_bind, wp_getopt; [done|]. apply wp_modify, HQ.
  - eapply same_bodies_insert; [done|]. by destruct b.
  - intros u. by apply prv_insert_at.
  - intros u. rewrite nxt_insert_at by done. unfold fupd. case_decide; [|done].
    subst. unfold nxt. by rewrite Hb.
Qed.

(** Reading the links of a buffer. *)
Lemma wp_get_links E j (Q : buf → ide D → Prop) s :
  (j < length (bufs s))%nat →
  (∀ b, bufs s !! j = Some b → b_next b = nxt (bufs s) j → b_prev b = prv (bufs s) j → Q b s) →
  wp E (get_buf j) Q s.
Proof.
  intros Hj HQ. destruct (lookup_lt_is_Some_2 _ _ Hj) as [b Hb].
  eapply wp_getopt; [done|]. apply HQ; [done|unfold nxt|unfold prv]; by rewrite Hb.
Qed.

Lemma wp_deref E i (Q : nat → ide D → Prop) s p : p = Some i → Q i s → wp E (deref p) Q s.
Proof. by intros ->. Qed.

Lemma same_bodies_length bs bs' : same_bodies bs bs' → length bs' = length bs.
Proof. intros. symmetry. by eapply Forall2_length. Qed.

(** Pushing a node that is not on the list to its front. *)
Lemma wp_link_front E i l (Q : unit → ide D → Prop) s :
  mru (bufs s) l → NoDup (i :: HEAD :: l) → Forall (λ j, j < length (bufs s))%nat (i :: HEAD :: l) →
  (∀ bs', same_bodies (bufs s) bs' → mru bs' (i :: l) → Q tt (set_bufs bs' s)) →
  wp E (link_front i) Q s.
Proof.
  intros [Hn Hp] Hnd Hin HQ.
  apply Forall_cons in Hin as [Hi Hin]. apply Forall_cons in Hin as [Hh Hl].
  apply NoDup_cons in Hnd as [Hni Hnd]. apply NoDup_cons in Hnd as [Hnh Hnd].
  assert (i ≠ HEAD) as Hih by set_solver.
  assert (hd_or l HEAD < length (bufs s))%nat as Hn0.
  { destruct l; [done|]. by apply Forall_cons in Hl as [? _]. }
  assert (hd_or l HEAD ≠ i) as Hne by (destruct l; set_solver).
  unfold link_front. apply wp_bind, wp_get_links; [done|]. intros h _ Hhn _.
  apply wp_bind, wp_set_next; [done|]. intros bs1 Hb1 Hn1 Hp1.
  pose proof (same_bodies_length _ _ Hb1) as HL1.
  apply wp_bind, wp_set_prev; [cbn; lia|]. cbn [bufs set_bufs]. intros bs2 Hb2 Hp2 Hn2.
  pose proof (same_bodies_length _ _ Hb2) as HL2.
  apply wp_bind, wp_get_links; [cbn; lia|]. cbn [bufs set_bufs]. intros h' _ Hhn' _.
  assert (nxt bs2 HEAD = Some (hd_or l HEAD)) as Hhd.
  { rewrite Hn2, Hn1. unfold fupd. rewrite decide_False by done. by apply path_head. }
  apply wp_bind. eapply wp_deref; [by rewrite Hhn'|].
  apply wp_bind, wp_set_prev; [cbn; lia|]. cbn [bufs set_bufs]. intros bs3 Hb3 Hp3 Hn3.
  pose proof (same_bodies_length _ _ Hb3) as HL3.
  apply wp_set_next; [cbn; lia|]. cbn [bufs set_bufs]. intros bs4 Hb4 Hn4 Hp4.
  apply (HQ bs4); [by do 3 (etrans; [eassumption|])|]. split.
  - split.
    { rewrite Hn4. unfold fupd. by rewrite decide_True. }
    eapply path_ext; [|apply (path_enter (nxt (bufs s)) HEAD _ _ i); [done|set_solver|exact Hn]].
    intros u Hu. rewrite Hn4. unfold fupd at 1. rewrite decide_False by set_solver.
    rewrite Hn3, Hn2, Hn1, Hhn. done.
  - rewrite reverse_cons. apply path_app. split.
    + eapply path_ext; [|apply (path_redirect (prv (bufs s)) HEAD (reverse l) HEAD i); [|exact Hp]].
      * intros u Hu. rewrite last_or_reverse, Hp4, Hp3. unfold fupd. case_decide; [done|].
        rewrite Hp2. unfold fupd. rewrite decide_False by set_solver. apply Hp1.
      * apply NoDup_cons. rewrite !reverse_Permutation. by split.
    + cbn [path]. rewrite Hp4, Hp3. unfold fupd at 1. rewrite decide_False by done.
      rewrite Hp2. unfold fupd. by rewrite decide_True.
Qed.

Lemma wp_unlink_node E i l1 l2 (Q : unit → ide D → Prop) s :
  mru (bufs s) (l1 ++ i :: l2) → NoDup (HEAD :: l1 ++ i :: l2) →
  Forall (λ j, j < length (bufs s))%nat (HEAD :: l1 ++ i :: l2) →
  (∀ bs', same_bodies (bufs s) bs' → mru bs' (l1 ++ l2) → Q tt (set_bufs bs' s)) →
  wp E (unlink_node i) Q s.
Proof.
  intros [Hn Hp] Hnd Hin HQ. rewrite Forall_forall in Hin.
  assert (i < length (bufs s))%nat as Hi by (apply Hin; set_solver).
  pose proof Hn as [_ Hni]%path_app. apply path_head in Hni.
  pose proof Hp as Hpi. rewrite reverse_app, reverse_cons, <- app_assoc in Hpi.
  cbn [app] in Hpi. pose proof Hpi as [_ Hpi']%path_app. apply path_head in Hpi'.
  assert (hd_or (reverse l1) HEAD = last_or HEAD l1) as Hlast.
  { by rewrite <- last_or_reverse, reverse_involutive. }
  rewrite Hlast in Hpi'.
  assert (last_or HEAD l1 < length (bufs s))%nat as Hpl.
  { apply Hin. pose proof (last_or_elem HEAD l1). set_solver. }
  assert (hd_or l2 HEAD < length (bufs s))%nat as Hnl.
  { apply Hin. destruct l2; set_solver. }
  assert (hd_or l2 HEAD ≠ i) as Hne.
  { apply NoDup_cons in Hnd as [Hh Hnd]. apply NoDup_app in Hnd as (_ & _ & Hnd).
    apply NoDup_cons in Hnd as [Hx _]. destruct l2; simpl; set_solver. }
  unfold unlink_node. apply wp_bind, wp_get_links; [done|]. intros b _ Hbn Hbp.
  apply wp_bind. eapply wp_deref; [by rewrite Hbn|].
  apply wp_bind, wp_set_prev; [done|]. intros bs1 Hb1 Hp1 Hn1.
  pose proof (same_bodies_length _ _ Hb1) as HL1.
  apply wp_bind, wp_get_links; [cbn; lia|]. cbn [bufs set_bufs]. intros b' _ Hbn' Hbp'.
  assert (prv bs1 i = Some (last_or HEAD l1)) as Hpi1.
  { rewrite Hp1. unfold fupd. by rewrite decide_False by done. }
  apply wp_bind. eapply wp_deref; [by rewrite Hbp', Hpi1|].
  apply wp_set_next; [cbn; lia|]. cbn [bufs set_bufs]. intros bs2 Hb2 Hn2 Hp2.
  apply HQ; [by etrans|]. split.
  - eapply path_ext; [|by apply (path_unlink (nxt (bufs s)) HEAD l1 i l2 HEAD)]. intros u _. rewrite Hn2. unfold fupd.
    case_decide; [by rewrite Hbn', Hn1, Hni|]. apply Hn1.
  - rewrite reverse_app. eapply path_ext; [|apply (path_unlink (prv (bufs s)) HEAD (reverse l2) i (reverse l1) HEAD)].
    + intros u _. rewrite Hp2, Hp1, last_or_reverse, Hlast, Hbp, Hpi'. done.
    + rewrite <- (reverse_Permutation (HEAD :: l1 ++ i :: l2)) in Hnd.
      rewrite reverse_cons, reverse_app, reverse_cons in Hnd.
      eapply NoDup_Permutation_proper; [|exact Hnd]. solve_Permutation.
    + exact Hpi.
Qed.

(** The two scans of [bget] visit the list in order and stop at the first
    buffer that passes their test. *)
Lemma wp_bget_hit E dv bn fuel x l (Q : option nat → ide D → Prop) s :
  path (nxt (bufs s)) x l HEAD → (length l < fuel)%nat →
  Forall (λ j, j < length (bufs s) ∧ j ≠ HEAD)%nat l →
  (∀ l1 i l2 b, l = l1 ++ i :: l2 → bufs s !! i = Some b → b_dev b = dv → b_blockno b = bn →
     Q (Some i) (set_bufs (<[i:=set_b_refcnt (u32 (b_refcnt b + 1)) b]> (bufs s)) s)) →
  ((∀ i b, i ∈ l → bufs s !! i = Some b → b_dev b = dv → b_blockno b = bn → False) → Q None s) →
  wp E (bget_hit fuel (nxt (bufs s) x) dv bn) Q s.
Proof.
  revert fuel x. induction l as [|i l IH]; intros [|fuel] x Hp Hf Hin HQ1 HQ2; try (simpl in Hf; lia).
  - cbn [path] in Hp. cbn [bget_hit]. apply wp_bind. eapply wp_deref; [done|].
    rewrite bool_decide_eq_true_2 by done. apply wp_ret, HQ2. set_solver.
  - destruct Hp as [Hx Hp]. apply Forall_cons in Hin as [[Hi Hih] Hin].
    cbn [bget_hit]. apply wp_bind. eapply wp_deref; [done|].
    rewrite bool_decide_eq_false_2 by done.
    apply wp_bind, wp_get_links; [done|]. intros b Hb Hbn _.
    destruct (_ && _) eqn:Hm.
    + apply andb_true_iff in Hm as [Hd%Z.eqb_eq Hk%Z.eqb_eq].
      apply wp_bind. eapply wp_bind, wp_getopt; [done|]. apply wp_modify, wp_ret.
      by apply (HQ1 [] i l b).
    + rewrite Hbn. apply IH; [done|simpl in Hf; lia|done| |].
      * intros l1 j l2 b' -> ???. by eapply (HQ1 (i :: l1)).
      * intros Hno. apply HQ2. intros j b' [->|Hj]%elem_of_cons Hb' Hd Hk; [|by eapply Hno].
        rewrite Hb in Hb'. simplify_eq. by rewrite !Z.eqb_refl in Hm.
Qed.

Lemma wp_bget_recycle E dv bn fuel x l (Q : option nat → ide D → Prop) s :
  path (prv (bufs s)) x l HEAD → (length l < fuel)%nat →
  Forall (λ j, j < length (bufs s) ∧ j ≠ HEAD)%nat l →
  (∀ l1 i l2 b, l = l1 ++ i :: l2 → bufs s !! i = Some b → b_refcnt b = 0 → is_dirty b = false →
     (∀ j bj, j ∈ l1 → bufs s !! j = Some bj → b_refcnt bj ≠ 0 ∨ is_dirty bj = true) →
     Q (Some i) (set_bufs (<[i:=mk_buf 0 dv bn 1 (b_prev b) (b_next b) (b_qnext b) (b_data b)]>
                   (bufs s)) s)) →
  ((∀ i b, i ∈ l → bufs s !! i = Some b → b_refcnt b ≠ 0 ∨ is_dirty b = true) → Q None s) →
  wp E (bget_recycle fuel (prv (bufs s) x) dv bn) Q s.
Proof.
  revert fuel x. induction l as [|i l IH]; intros [|fuel] x Hp Hf Hin HQ1 HQ2; try (simpl in Hf; lia).
  - cbn [path] in Hp. cbn [bget_recycle]. apply wp_bind. eapply wp_deref; [done|].
    rewrite bool_decide_eq_true_2 by done. apply wp_ret, HQ2. set_solver.
  - destruct Hp as [Hx Hp]. apply Forall_cons in Hin as [[Hi Hih] Hin].
    cbn [bget_recycle]. apply wp_bind. eapply wp_deref; [done|].
    rewrite bool_decide_eq_false_2 by done.
    apply wp_bind, wp_get_links; [done|]. intros b Hb _ Hbp. rewrite dirty_test.
    destruct (_ && _) eqn:Hm.
    + apply andb_true_iff in Hm as [Hd%Z.eqb_eq Hk%negb_true_iff].
      apply wp_bind. eapply wp_bind, wp_getopt; [done|]. apply wp_modify, wp_ret.
      apply (HQ1 [] i l b); [done..|]. set_solver.
    + assert (b_refcnt b ≠ 0 ∨ is_dirty b = true) as Hbusy.
      { apply andb_false_iff in Hm as [?%Z.eqb_neq|?%negb_false_iff]; auto. }
      rewrite Hbp. apply IH; [done|simpl in Hf; lia|done| |].
      * intros l1 j l2 b' -> ??? Hl1. eapply (HQ1 (i :: l1)); [done..|].
        intros j' bj [->|Hj']%elem_of_cons Hbj; [|by eapply Hl1]. by simplify_eq.
      * intros Hno. apply HQ2. intros j b' [->|Hj]%elem_of_cons Hb'; [by simplify_eq|by eapply Hno].
Qed.
End links.

(** ** The cache invariant

    [H] lists the buffers handed out by [bread] and not yet given back, once
    per reference; [L] the blocks whose cached copy is dirty. *)
Definition refs (H : list nat) (i : nat) : Z := Z.of_nat (count_occ Nat.eq_dec H i).

Record buf_ok (m : Z → Z → list Z) (H : list nat) (L : list Z) (i : nat) (b : buf) : Prop := {
  bo_len : length (b_data b) = 512%nat;
  bo_refs : b_refcnt b = refs H i;
  bo_dirty : is_dirty b = true → is_valid b = true ∧ b_blockno b ∈ L;
  bo_key : is_valid b = true → b_dev b = ROOTDEV ∧ 0 ≤ b_blockno b < FSSIZE;
  bo_used : b_dev b = ROOTDEV → is_valid b = true;
  bo_clean : is_valid b = true → is_dirty b = false → b_data b = m ROOTDEV (b_blockno b);
  bo_held : i ∈ H → is_valid b = true;
}.

Section invariant.
Context {D : Type} {dev : IdeDevice D} {dok : IdeDeviceOk D}.
Implicit Types s : ide D.

Record bio_inv s (H : list nat) (L : list Z) : Prop := {
  bi_cpu : cpu_idle (icpu s);
  bi_queue : idequeue s = None;
  bi_disk1 : havedisk1 s ≠ 0;
  bi_phase : dphase (hw s) = Idle;
  bi_len : length (bufs s) = S NBUF;
  bi_order : ∃ l, l ≡ₚ seq 0 NBUF ∧ mru (bufs s) l;
  bi_buf i b : (i < NBUF)%nat → bufs s !! i = Some b → buf_ok (media (hw s)) H L i b;
  bi_uniq i j bi bj : (i < NBUF)%nat → (j < NBUF)%nat → bufs s !! i = Some bi → bufs s !! j = Some bj →
    b_dev bi = ROOTDEV → b_dev bj = ROOTDEV → b_blockno bi = b_blockno bj → i = j;
  bi_held i : i ∈ H → (i < NBUF)%nat;
  bi_dirty bn : bn ∈ L → ∃ i b, (i < NBUF)%nat ∧ bufs s !! i = Some b ∧ is_dirty b = true ∧ b_blockno b = bn;
  bi_nodup : NoDup L;
}.

Lemma inv_dev s H L i b :
  bio_inv s H L → (i < NBUF)%nat → bufs s !! i = Some b → is_valid b = true → b_dev b = ROOTDEV.
Proof. intros Hinv Hi Hb Hv. by destruct (bo_key _ _ _ _ _ (bi_buf _ _ _ Hinv i b Hi Hb) Hv). Qed.
Lemma inv_range s H L i b :
  bio_inv s H L → (i < NBUF)%nat → bufs s !! i = Some b → is_valid b = true →
  0 ≤ b_blockno b < FSSIZE.
Proof. intros Hinv Hi Hb Hv. by destruct (bo_key _ _ _ _ _ (bi_buf _ _ _ Hinv i b Hi Hb) Hv). Qed.

(** The contents of a block as the file system sees it: the cached copy if
    there is one, the platter otherwise. *)
Definition view s (bn : Z) : list Z :=
  match list_find (λ b, is_valid b = true ∧ b_dev b = ROOTDEV ∧ b_blockno b = bn) (take NBUF (bufs s)) with
  | Some (_, b) => b_data b
  | None => media (hw s) ROOTDEV bn
  end.

Lemma view_intro s H L bn v :
  bio_inv s H L →
  (∀ i b, (i < NBUF)%nat → bufs s !! i = Some b → is_valid b = true → b_blockno b = bn → b_data b = v) →
  ((∀ i b, (i < NBUF)%nat → bufs s !! i = Some b → is_valid b = true → b_blockno b ≠ bn) →
     media (hw s) ROOTDEV bn = v) →
  view s bn = v.
Proof.
  intros Hinv Hc Hu. unfold view.
  destruct (list_find _ _) as [[i b]|] eqn:Hf.
  - apply list_find_Some in Hf as (Hb & (Hv & _ & Hk) & _).
    apply lookup_take_Some in Hb as [Hb Hi]. by eapply Hc.
  - apply Hu. intros i b Hi Hb Hv Hk. apply list_find_None in Hf.
    rewrite Forall_forall in Hf. apply (Hf b).
    + apply list_elem_of_lookup. exists i. apply lookup_take_Some. done.
    + split_and!; [done| |done]. by apply (inv_dev s H L i).
Qed.

Lemma view_cached s H L i b :
  bio_inv s H L → (i < NBUF)%nat → bufs s !! i = Some b → is_valid b = true →
  view s (b_blockno b) = b_data b.
Proof.
  intros Hinv Hi Hb Hv. eapply view_intro; [done| |].
  - intros j bj Hj Hbj Hvj Hk.
    assert (i = j) as <-; [|by simplify_eq].
    eapply (bi_uniq _ _ _ Hinv); [done..| | |done].
    + by apply (inv_dev s H L i).
    + by apply (inv_dev s H L j).
  - intros Hno. exfalso. by eapply Hno.
Qed.

Lemma view_uncached s H L bn :
  bio_inv s H L →
  (∀ i b, (i < NBUF)%nat → bufs s !! i = Some b → is_valid b = true → b_blockno b ≠ bn) →
  view s bn = media (hw s) ROOTDEV bn.
Proof. intros Hinv Hno. eapply view_intro; [done| |done]. intros i b Hi Hb Hv Hk. by edestruct Hno. Qed.

Lemma length_view s H L bn : bio_inv s H L → length (view s bn) = 512%nat.
Proof.
  intros Hinv. unfold view. destruct (list_find _ _) as [[i b]|] eqn:Hf; [|apply media_length].
  apply list_find_Some in Hf as (Hb & _ & _). apply lookup_take_Some in Hb as [Hb Hi].
  by eapply bo_len, bi_buf.
Qed.

(** A handle: buffer [i] caches block [bn]. *)
Definition holds s (i : nat) (bn : Z) : Prop :=
  (i < NBUF)%nat ∧ ∃ b, bufs s !! i = Some b ∧ is_valid b = true ∧ b_blockno b = bn.

Lemma holds_view s H L i bn b :
  bio_inv s H L → holds s i bn → bufs s !! i = Some b → b_data b = view s bn.
Proof.
  intros Hinv (Hi & b' & Hb' & Hv & <-) Hb. simplify_eq. symmetry. by eapply view_cached.
Qed.

Lemma mru_ext bs bs' l :
  (∀ u, nxt bs' u = nxt bs u) → (∀ u, prv bs' u = prv bs u) → mru bs l → mru bs' l.
Proof. intros Hn Hp [H1 H2]. split; eapply path_ext; eauto. Qed.

Lemma mru_insert bs i b b' l :
  bs !! i = Some b → b_next b' = b_next b → b_prev b' = b_prev b → mru bs l → mru (<[i:=b']> bs) l.
Proof.
  intros Hb Hn Hp. assert (i < length bs)%nat by (by eapply lookup_lt_Some). apply mru_ext; intros u.
  - rewrite nxt_insert_at by done. unfold fupd. case_decide; [|done]. subst. unfold nxt. by rewrite Hb.
  - rewrite prv_insert_at by done. unfold fupd. case_decide; [|done]. subst. unfold prv. by rewrite Hb.
Qed.

#[global] Instance bio_inv_proper s : Proper ((≡ₚ) ==> eq ==> iff) (bio_inv s).
Proof.
  assert (∀ H H' L, H ≡ₚ H' → bio_inv s H L → bio_inv s H' L) as Hmain.
  { intros H H' L HH []. constructor; try done.
    - intros i b Hi Hb. destruct (bi_buf0 i b Hi Hb). constructor; try done.
      + rewrite bo_refs0. unfold refs. f_equal. by apply Permutation_count_occ.
      + rewrite <- HH. done.
    - intros i. rewrite <- HH. apply bi_held0. }
  intros H H' HH L ? <-. split; apply Hmain; [done|by symmetry].
Qed.

(** There is a buffer to recycle while fewer than [NBUF] are pinned. *)
Lemma free_buffer s H L :
  bio_inv s H L → (length H + length L < NBUF)%nat →
  ∃ i b, (i < NBUF)%nat ∧ bufs s !! i = Some b ∧ b_refcnt b = 0 ∧ is_dirty b = false.
Proof.
  intros Hinv Hlt.
  assert (∃ K, length K = length L ∧
    ∀ i b, (i < NBUF)%nat → bufs s !! i = Some b → is_dirty b = true → i ∈ K) as (K & HK & HKin).
  { assert (Forall (λ bn, ∃ i, ∀ j b, (j < NBUF)%nat → bufs s !! j = Some b →
      is_dirty b = true → b_blockno b = bn → j = i) L) as HF.
    { apply Forall_forall. intros bn Hbn. destruct (bi_dirty _ _ _ Hinv bn Hbn) as (i & b & Hi & Hb & Hd & Hk).
      exists i. intros j bj Hj Hbj Hdj Hkj.
      destruct (bi_buf _ _ _ Hinv i b Hi Hb), (bi_buf _ _ _ Hinv j bj Hj Hbj).
      eapply (bi_uniq _ _ _ Hinv); [done..| | |congruence]; naive_solver. }
    apply Forall_exists_Forall2_l in HF as [K HF]. exists K. split; [symmetry; by eapply Forall2_length|].
    intros i b Hi Hb Hd. destruct (bo_dirty _ _ _ _ _ (bi_buf _ _ _ Hinv i b Hi Hb) Hd) as [_ Hin].
    apply list_elem_of_lookup in Hin as [k Hk].
    destruct (Forall2_lookup_l _ _ _ _ _ HF Hk) as (i' & Hk' & Heq).
    apply list_elem_of_lookup. exists k. by rewrite (Heq i b). }
  destruct (decide (Exists (λ i, i ∉ H ++ K) (seq 0 NBUF))) as [He|Hne].
  - apply Exists_exists in He as (i & Hi & Hni). apply elem_of_seq in Hi.
    destruct (lookup_lt_is_Some_2 (bufs s) i) as [b Hb]; [rewrite (bi_len _ _ _ Hinv); lia|].
    exists i, b. assert (i < NBUF)%nat as Hi' by lia. split_and!; [done..| |].
    + rewrite (bo_refs _ _ _ _ _ (bi_buf _ _ _ Hinv i b Hi' Hb)). unfold refs.
      rewrite (proj1 (count_occ_not_In Nat.eq_dec H i)); [done|].
      rewrite <- list_elem_of_In. set_solver.
    + destruct (is_dirty b) eqn:Hd; [|done]. exfalso. apply Hni, elem_of_app. right. by eapply HKin.
  - exfalso. apply not_Exists_Forall in Hne; [|apply _].
    assert (seq 0 NBUF ⊆+ H ++ K) as Hsub.
    { apply NoDup_submseteq; [apply NoDup_seq|]. intros i Hi. rewrite Forall_forall in Hne.
      specialize (Hne i Hi). destruct (decide (i ∈ H ++ K)); [done|]. exfalso. by apply Hne. }
    apply submseteq_length in Hsub. rewrite length_seq, length_app in Hsub. lia.
Qed.
End invariant.
