(* ===== verification/BioFacts.v ===== *)
(** * bio.c: what the buffer cache promises

    Specifications of [bread], [brelse], [bwrite] and [binit] over the
    invariant of Bio.v: what block a handle stands for, that the view of the
    disk changes only by writes, and how many buffers are needed. *)

From S2P Require Import Prelude Spinlock Ide Bio.

Lemma refs_cons i H j : refs (i :: H) j = refs H j + (if decide (i = j) then 1 else 0).
Proof.
  unfold refs. simpl. destruct (Nat.eq_dec i j) as [->|]; case_decide; try done; lia.
Qed.

Lemma refs_bound H j : 0 ≤ refs H j ≤ Z.of_nat (length H).
Proof. unfold refs. pose proof (count_occ_bound Nat.eq_dec j H). lia. Qed.

Section facts.
Context {D : Type} {dev : IdeDevice D} {dok : IdeDeviceOk D}.
Implicit Types s : ide D.

Lemma bio_inv_insert s H L i b b' H' L' c' d' w' :
  bio_inv s H L → (i < NBUF)%nat → bufs s !! i = Some b →
  b_next b' = b_next b → b_prev b' = b_prev b →
  cpu_idle c' → dphase d' = Idle →
  buf_ok (media d') H' L' i b' →
  (∀ j bj, (j < NBUF)%nat → j ≠ i → bufs s !! j = Some bj → buf_ok (media d') H' L' j bj) →
  (b_dev b' = ROOTDEV → ∀ j bj, (j < NBUF)%nat → j ≠ i → bufs s !! j = Some bj →
     b_dev bj = ROOTDEV → b_blockno bj ≠ b_blockno b') →
  (∀ j, j ∈ H' → (j < NBUF)%nat) →
  (∀ bn, bn ∈ L' → (is_dirty b' = true ∧ b_blockno b' = bn) ∨
     ∃ j bj, (j < NBUF)%nat ∧ j ≠ i ∧ bufs s !! j = Some bj ∧ is_dirty bj = true ∧ b_blockno bj = bn) →
  NoDup L' →
  bio_inv (mk_ide c' (<[i:=b']> (bufs s)) None (havedisk1 s) d' w') H' L'.
Proof.
  intros Hinv Hi Hb Hn Hp Hc Hph Hok Hoks Hu Hheld HL Hnd.
  pose proof (bi_len _ _ _ Hinv) as Hlen.
  assert (<[i:=b']> (bufs s) !! i = Some b') as Hib by (apply list_lookup_insert_eq; lia).
  constructor; cbn [icpu bufs idequeue havedisk1 hw]; try done.
  - apply Hinv.
  - by rewrite length_insert.
  - destruct (bi_order _ _ _ Hinv) as (l & Hl & Hm). exists l. split; [done|]. by eapply mru_insert.
  - intros j bj Hj Hbj. destruct (decide (j = i)) as [->|]; [by simplify_eq|].
    rewrite list_lookup_insert_ne in Hbj by done. by apply Hoks.
  - intros j k bj bk Hj Hk Hbj Hbk Hdj Hdk Heq.
    destruct (decide (j = i)) as [->|Hji], (decide (k = i)) as [->|Hki]; [done|..].
    + simplify_eq. rewrite list_lookup_insert_ne in Hbk by done.
      exfalso. by eapply (Hu Hdj k bk).
    + simplify_eq. rewrite list_lookup_insert_ne in Hbj by done.
      exfalso. by eapply (Hu Hdk j bj).
    + rewrite list_lookup_insert_ne in Hbj, Hbk by done. by eapply (bi_uniq _ _ _ Hinv).
  - intros bn [[Hd Hk]|(j & bj & Hj & Hji & Hbj & Hd & Hk)]%HL.
    + exists i, b'. done.
    + exists j, bj. by rewrite list_lookup_insert_ne by done.
Qed.

(** What an operation that writes nothing leaves alone. *)
Record same_io s s' (H : list nat) : Prop := {
  si_view bn : view s' bn = view s bn;
  si_media v b : media (hw s') v b = media (hw s) v b;
  si_wrote : wrote s' = wrote s;
  si_holds j bn : j ∈ H → holds s j bn → holds s' j bn;
}.

Lemma same_io_refl s H : same_io s s H.
Proof. by constructor. Qed.
Lemma same_io_trans s1 s2 s3 H : same_io s1 s2 H → same_io s2 s3 H → same_io s1 s3 H.
Proof.
  intros [V1 M1 W1 H1] [V2 M2 W2 H2]. constructor.
  - intros bn. by rewrite V2.
  - intros v b. by rewrite M2.
  - congruence.
  - eauto.
Qed.

Definition cached s bn : Prop :=
  ∃ i b, (i < NBUF)%nat ∧ bufs s !! i = Some b ∧ b_dev b = ROOTDEV ∧ b_blockno b = bn.

Lemma bread_hit_inv s H L i b c' :
  bio_inv s H L → (i < NBUF)%nat → bufs s !! i = Some b → b_dev b = ROOTDEV →
  (length H < 1000)%nat → cpu_idle c' →
  let s' := mk_ide c' (<[i:=set_b_refcnt (u32 (b_refcnt b + 1)) b]> (bufs s)) None
              (havedisk1 s) (hw s) (wrote s) in
  bio_inv s' (i :: H) L ∧ holds s' i (b_blockno b) ∧ same_io s s' H.
Proof.
  intros Hinv Hi Hb Hd HH Hc s'.
  pose proof (bi_buf _ _ _ Hinv i b Hi Hb) as Hok.
  pose proof (bo_used _ _ _ _ _ Hok Hd) as Hv. pose proof (bi_len _ _ _ Hinv) as Hlen.
  assert (bufs s' !! i = Some (set_b_refcnt (u32 (b_refcnt b + 1)) b)) as Hib.
  { apply list_lookup_insert_eq. lia. }
  assert (bio_inv s' (i :: H) L) as Hinv'.
  { eapply bio_inv_insert; try done.
    - apply Hinv.
    - destruct Hok as [? Hr]. constructor; try done.
      cbn [b_refcnt set_b_refcnt]. rewrite Hr, refs_cons, decide_True by done.
      pose proof (refs_bound H i). apply u32_small. lia.
    - intros j bj Hj Hne Hbj. destruct (bi_buf _ _ _ Hinv j bj Hj Hbj). constructor; try done.
      + rewrite refs_cons, decide_False by done. lia.
      + intros [?|?]%elem_of_cons; [congruence|auto].
    - intros _ j bj Hj Hne Hbj Hdj Hk. apply Hne. by eapply (bi_uniq _ _ _ Hinv).
    - intros j [->|?]%elem_of_cons; [done|]. by eapply bi_held.
    - intros bn Hbn. destruct (bi_dirty _ _ _ Hinv bn Hbn) as (j & bj & Hj & Hbj & Hdj & Hk).
      destruct (decide (j = i)) as [->|]; [left|right; by eauto 10]. by simplify_eq.
    - apply Hinv. }
  split_and!; [done| |].
  - split; [done|]. by eexists.
  - constructor; [|done|done|].
    + intros bn. eapply view_intro; [done| |].
      * intros j bj Hj Hbj Hvj <-. destruct (decide (j = i)) as [->|Hne].
        { simplify_eq. symmetry. by apply (view_cached s H L i b). }
        cbn [bufs s'] in Hbj. rewrite list_lookup_insert_ne in Hbj by done.
        symmetry. by apply (view_cached s H L j bj).
      * intros Hno. change (hw s') with (hw s). symmetry. eapply view_uncached; [done|].
        intros j bj Hj Hbj Hvj Hk. destruct (decide (j = i)) as [->|Hne].
        { simplify_eq. by eapply (Hno i). }
        eapply (Hno j bj); [done| |done..]. cbn [bufs s']. by rewrite list_lookup_insert_ne.
    + intros j bn _ (Hj & bj & Hbj & Hvj & Hk). split; [done|].
      destruct (decide (j = i)) as [->|Hne]; [simplify_eq; by eexists|].
      exists bj. cbn [bufs s']. by rewrite list_lookup_insert_ne.
Qed.

Lemma bread_miss_inv s H L i b0 b' bn c' d' w' :
  bio_inv s H L → (i < NBUF)%nat → bufs s !! i = Some b0 → b_refcnt b0 = 0 → is_dirty b0 = false →
  (∀ j bj, (j < NBUF)%nat → bufs s !! j = Some bj → b_dev bj = ROOTDEV → b_blockno bj ≠ bn) →
  0 ≤ bn < FSSIZE → cpu_idle c' → dphase d' = Idle → (∀ v b, media d' v b = media (hw s) v b) →
  w' = wrote s →
  b_next b' = b_next b0 → b_prev b' = b_prev b0 → is_valid b' = true → is_dirty b' = false →
  b_dev b' = ROOTDEV → b_blockno b' = bn → b_refcnt b' = 1 → b_data b' = media (hw s) ROOTDEV bn →
  let s' := mk_ide c' (<[i:=b']> (bufs s)) None (havedisk1 s) d' w' in
  bio_inv s' (i :: H) L ∧ holds s' i bn ∧ same_io s s' H.
Proof.
  intros Hinv Hi Hb Hr Hdt Hmiss Hbn Hc Hph Hmd -> Hn Hp Hv' Hd' Hdev' Hk' Hr' Hdata s'.
  pose proof (bi_buf _ _ _ Hinv i b0 Hi Hb) as Hok. pose proof (bi_len _ _ _ Hinv) as Hlen.
  assert (bufs s' !! i = Some b') as Hib by (apply list_lookup_insert_eq; lia).
  assert (i ∉ H) as HiH.
  { intros Hin. pose proof (bo_refs _ _ _ _ _ Hok) as Hrr. unfold refs in Hrr.
    rewrite list_elem_of_In in Hin. apply (count_occ_In Nat.eq_dec) in Hin. lia. }
  assert (bio_inv s' (i :: H) L) as Hinv'.
  { eapply bio_inv_insert; try done.
    - constructor; try done; [by rewrite Hdata, media_length| |by rewrite Hd'|by rewrite Hk'|by rewrite Hdata, Hmd, Hk'].
      rewrite Hr', refs_cons, decide_True by done. rewrite <- (bo_refs _ _ _ _ _ Hok). lia.
    - intros j bj Hj Hne Hbj. destruct (bi_buf _ _ _ Hinv j bj Hj Hbj) as [? Hrj ? ? ? Hcl ?].
      constructor; try done.
      + rewrite refs_cons, decide_False by done. lia.
      + intros. rewrite Hmd. by apply Hcl.
      + intros [?|?]%elem_of_cons; [congruence|auto].
    - intros _ j bj Hj Hne Hbj Hdj. rewrite Hk'. by eapply Hmiss.
    - intros j [->|?]%elem_of_cons; [done|]. by eapply bi_held.
    - intros k Hk. destruct (bi_dirty _ _ _ Hinv k Hk) as (j & bj & Hj & Hbj & Hdj & Hkj).
      destruct (decide (j = i)) as [->|]; [simplify_eq; congruence|right; by eauto 10].
    - apply Hinv. }
  split_and!; [done| |].
  - split; [done|]. exists b'. by rewrite Hk'.
  - constructor; [|done|done|].
    + intros k. eapply view_intro; [done| |].
      * intros j bj Hj Hbj Hvj <-. destruct (decide (j = i)) as [->|Hne].
        { simplify_eq. rewrite Hdata. symmetry. eapply view_uncached; [done|].
          intros j bj Hj' Hbj' Hvj'. eapply Hmiss; [done..|]. by apply (inv_dev s H L j). }
        cbn [bufs s'] in Hbj. rewrite list_lookup_insert_ne in Hbj by done.
        symmetry. by apply (view_cached s H L j bj).
      * intros Hno. cbn [hw s']. rewrite Hmd. symmetry. eapply view_intro; [done| |done].
        intros j bj Hj Hbj Hvj <-. destruct (decide (j = i)) as [->|Hne].
        { simplify_eq. by apply (bo_clean _ _ _ _ _ Hok). }
        exfalso. apply (Hno j bj); [done| |done..]. cbn [bufs s']. by rewrite list_lookup_insert_ne.
    + intros j k Hj (Hjn & bj & Hbj & Hvj & Hkj). split; [done|]. exists bj. cbn [bufs s'].
      rewrite list_lookup_insert_ne; [done|]. by intros ->.
Qed.

(** Reading a block: the handle stands for it, its data is the current view,
    and nothing else changes. A buffer is found whenever the block is cached
    or fewer than [NBUF] buffers are pinned by handles and by dirty data. *)
Lemma wp_bread E bn H L (Q : nat → ide D → Prop) s :
  bio_inv s H L → 0 ≤ bn < FSSIZE → (length H < 1000)%nat →
  (cached s bn ∨ (length H + length L < NBUF)%nat ∨ E "bget: no buffers") →
  (∀ i s', bio_inv s' (i :: H) L → holds s' i bn → same_io s s' H → Q i s') →
  wp E (bread ROOTDEV bn) Q s.
Proof.
  intros Hinv Hbn HH Hfree HQ. pose proof (bi_len _ _ _ Hinv) as Hlen.
  destruct (bi_order _ _ _ Hinv) as (l & Hl & Hmn & Hmp).
  assert (∀ j, j ∈ l ↔ (j < NBUF)%nat) as Hel.
  { intros j. rewrite Hl, elem_of_seq. lia. }
  assert (length l = NBUF) as Hll by (by rewrite Hl, length_seq).
  assert (∀ bs : list buf, length bs = S NBUF → Forall (λ j, j < length bs ∧ j ≠ HEAD)%nat l) as HF.
  { intros bs Hbs. apply Forall_forall. intros j Hj%Hel. unfold HEAD. lia. }
  unfold bread, bget. apply wp_bind, wp_bind, wp_on_pushcli; [apply Hinv|]. intros c1 Hc1.
  set (s1 := set_icpu c1 s). change (nxt (bufs s)) with (nxt (bufs s1)) in Hmn.
  change (prv (bufs s)) with (prv (bufs s1)) in Hmp.
  apply wp_bind, wp_get_links; [cbn; unfold HEAD; lia|]. intros h _ Hhn Hhp. rewrite Hhn.
  apply wp_bind, (wp_bget_hit _ _ _ _ _ l); [done|lia|by apply HF| |].
  - intros l1 i l2 b -> Hb Hd Hk. assert (i < NBUF)%nat as Hi by (apply Hel; set_solver).
    apply wp_bind, wp_on_popcli; [done|]. intros c2 Hc2. apply wp_ret.
    destruct (bread_hit_inv s H L i b c2 Hinv Hi Hb Hd HH Hc2) as (HI & Hh & Hs).
    rewrite Hk in Hh.
    apply wp_bind. eapply wp_get_buf; [apply list_lookup_insert_eq; cbn; lia|].
    rewrite valid_test. change (is_valid _) with (is_valid b).
    rewrite (bo_used _ _ _ _ _ (bi_buf _ _ _ Hinv i b Hi Hb) Hd). cbn [negb].
    apply wp_bind, wp_ret, wp_ret.
    replace (set_icpu _ _) with (mk_ide c2 (<[i:=set_b_refcnt (u32 (b_refcnt b + 1)) b]> (bufs s)) None
              (havedisk1 s) (hw s) (wrote s)); [by apply HQ|].
    unfold set_icpu; cbn. by rewrite (bi_queue _ _ _ Hinv).
  - intros Hmiss. apply wp_bind, wp_get_links; [cbn; unfold HEAD; lia|].
    intros h' _ _ Hhp'. rewrite Hhp'.
    apply wp_bind, (wp_bget_recycle _ _ _ _ _ (reverse l));
      [done|rewrite length_reverse; lia|rewrite reverse_Permutation; by apply HF| |].
    + intros l1 i l2 b Hrev Hb Hr Hd _.
      assert (i < NBUF)%nat as Hi.
      { apply Hel. rewrite <- (reverse_involutive l), Hrev. rewrite elem_of_reverse. set_solver. }
      apply wp_bind, wp_on_popcli; [done|]. intros c2 Hc2. apply wp_ret.
      set (bn0 := mk_buf 0 ROOTDEV bn 1 _ _ _ _).
      pose proof (bi_buf _ _ _ Hinv i b Hi Hb) as Hok.
      apply wp_bind. eapply wp_get_buf; [apply list_lookup_insert_eq; cbn; lia|].
      cbn [b_flags bn0 Z.land Z.eqb].
      apply wp_bind. eapply (wp_iderw _ i bn0); try done.
      * cbn. apply (bi_queue _ _ _ Hinv).
      * apply (bi_phase _ _ _ Hinv).
      * apply list_lookup_insert_eq; cbn; lia.
      * apply Hok.
      * apply (bi_disk1 _ _ _ Hinv).
      * intros c3 d3 Hc3 Hp3 Hm3. apply wp_ret. unfold iderw_post.
        cbn [bufs set_icpu set_bufs hw wrote havedisk1]. rewrite list_insert_insert_eq.
        destruct (bread_miss_inv s H L i b (serviced (media (hw s)) (set_b_qnext None bn0)) bn c3 d3
          (wrote s ++ [])) as (HI & Hh & Hs); try done; [|by rewrite app_nil_r|by apply HQ].
        intros j bj Hj Hbj Hdj Hkj. eapply (Hmiss j bj); [by apply Hel|done..].
    + intros Hbusy. apply wp_panic.
      destruct Hfree as [(i & b & Hi & Hb & Hd & Hk)|[Hfree|HE]]; [| |done]; exfalso.
      * eapply (Hmiss i b); [by apply Hel|done..].
      * destruct (free_buffer s H L Hinv Hfree) as (i & b & Hi & Hb & Hr & Hd).
        destruct (Hbusy i b) as [?|?]; [rewrite elem_of_reverse; by apply Hel|done|done|congruence].
Qed.

(** With every buffer referenced or dirty there is nothing to recycle. *)
Lemma wp_bread_full E bn H L (Q : nat → ide D → Prop) s :
  bio_inv s H L → ¬ cached s bn →
  (∀ i b, (i < NBUF)%nat → bufs s !! i = Some b → b_refcnt b ≠ 0 ∨ is_dirty b = true) →
  E "bget: no buffers" → wp E (bread ROOTDEV bn) Q s.
Proof.
  intros Hinv Hnc Hall HE. pose proof (bi_len _ _ _ Hinv) as Hlen.
  destruct (bi_order _ _ _ Hinv) as (l & Hl & Hmn & Hmp).
  assert (∀ j, j ∈ l ↔ (j < NBUF)%nat) as Hel by (intros j; rewrite Hl, elem_of_seq; lia).
  assert (length l = NBUF) as Hll by (by rewrite Hl, length_seq).
  assert (∀ bs : list buf, length bs = S NBUF → Forall (λ j, j < length bs ∧ j ≠ HEAD)%nat l) as HF.
  { intros bs Hbs. apply Forall_forall. intros j Hj%Hel. unfold HEAD. lia. }
  unfold bread, bget. apply wp_bind, wp_bind, wp_on_pushcli; [apply Hinv|]. intros c1 Hc1.
  set (s1 := set_icpu c1 s). change (nxt (bufs s)) with (nxt (bufs s1)) in Hmn.
  change (prv (bufs s)) with (prv (bufs s1)) in Hmp.
  apply wp_bind, wp_get_links; [cbn; unfold HEAD; lia|]. intros h _ Hhn _. rewrite Hhn.
  apply wp_bind, (wp_bget_hit _ _ _ _ _ l); [done|lia|by apply HF| |].
  - intros l1 i l2 b -> Hb Hd Hk. exfalso. apply Hnc. exists i, b. split_and!; [|done..].
    apply Hel. set_solver.
  - intros _. apply wp_bind, wp_get_links; [cbn; unfold HEAD; lia|]. intros h' _ _ Hhp'. rewrite Hhp'.
    apply wp_bind, (wp_bget_recycle _ _ _ _ _ (reverse l));
      [done|rewrite length_reverse; lia|rewrite reverse_Permutation; by apply HF| |].
    + intros l1 i l2 b Hrev Hb Hr Hd _. exfalso.
      assert (i < NBUF)%nat as Hi.
      { apply Hel. rewrite <- (reverse_involutive l), Hrev. rewrite elem_of_reverse. set_solver. }
      destruct (Hall i b Hi Hb) as [?|?]; congruence.
    + intros _. by apply wp_panic.
Qed.

Lemma same_body_ok m H L i b b' : same_body b b' → buf_ok m H L i b → buf_ok m H L i b'.
Proof.
  intros (Hf & Hd & Hk & Hr & Hx) [? ? ? ? ? ? ?].
  assert (is_valid b' = is_valid b) as Hv by (unfold is_valid; by rewrite Hf).
  assert (is_dirty b' = is_dirty b) as Hdt by (unfold is_dirty; by rewrite Hf).
  constructor; rewrite ?Hv, ?Hdt, ?Hd, ?Hk, ?Hr, ?Hx; done.
Qed.

(** Relinking the MRU list changes nothing a client can see. *)
Lemma relink_inv s H L bs' c' l :
  bio_inv s H L → same_bodies (bufs s) bs' → l ≡ₚ seq 0 NBUF → mru bs' l → cpu_idle c' →
  let s' := mk_ide c' bs' None (havedisk1 s) (hw s) (wrote s) in
  bio_inv s' H L ∧ same_io s s' H.
Proof.
  intros Hinv Hsb Hl Hm Hc s'.
  assert (∀ j b', bs' !! j = Some b' → ∃ b, bufs s !! j = Some b ∧ same_body b b') as Hback.
  { intros j b' Hb'. by destruct (Forall2_lookup_r _ _ _ _ _ Hsb Hb') as (b & ? & ?); eauto. }
  assert (∀ b b', same_body b b' → is_valid b' = is_valid b ∧ is_dirty b' = is_dirty b) as Hfl.
  { intros b b' (Hf & _). unfold is_valid, is_dirty. by rewrite Hf. }
  assert (bio_inv s' H L) as Hinv'.
  { constructor; cbn [icpu bufs idequeue havedisk1 hw s']; try done; try apply Hinv.
    - rewrite (same_bodies_length _ _ Hsb). apply Hinv.
    - eauto.
    - intros i b' Hi Hb'. destruct (Hback i b' Hb') as (b & Hb & Hs).
      eapply same_body_ok; [done|]. by apply Hinv.
    - intros i j bi bj Hi Hj Hbi Hbj. destruct (Hback i bi Hbi) as (b1 & Hb1 & _ & Hd1 & Hk1 & _).
      destruct (Hback j bj Hbj) as (b2 & Hb2 & _ & Hd2 & Hk2 & _). rewrite Hd1, Hd2, Hk1, Hk2.
      by eapply (bi_uniq _ _ _ Hinv).
    - intros bn Hbn. destruct (bi_dirty _ _ _ Hinv bn Hbn) as (i & b & Hi & Hb & Hd & Hk).
      destruct (same_bodies_lookup _ _ _ _ Hsb Hb) as (b' & Hb' & Hs). exists i, b'.
      destruct (Hfl _ _ Hs) as [_ ->]. destruct Hs as (_ & _ & -> & _). done. }
  split; [done|]. constructor; [|done|done|].
  - intros bn. eapply view_intro; [done| |].
    + intros i b' Hi Hb' Hv <-. destruct (Hback i b' Hb') as (b & Hb & Hs).
      destruct (Hfl _ _ Hs) as [Hvb _]. destruct Hs as (_ & _ & -> & _ & ->).
      symmetry. eapply (view_cached s H L i); [done..|congruence].
    + intros Hno. change (hw s') with (hw s). symmetry. eapply view_uncached; [done|].
      intros i b Hi Hb Hv Hk. destruct (same_bodies_lookup _ _ _ _ Hsb Hb) as (b' & Hb' & Hs).
      destruct (Hfl _ _ Hs) as [Hvb _]. destruct Hs as (_ & _ & Hk' & _).
      eapply (Hno i b'); [done..| |]; congruence.
  - intros j bn _ (Hj & b & Hb & Hv & Hk). split; [done|].
    destruct (same_bodies_lookup _ _ _ _ Hsb Hb) as (b' & Hb' & Hs). exists b'.
    destruct (Hfl _ _ Hs) as [-> _]. destruct Hs as (_ & _ & -> & _). done.
Qed.

Lemma unref_inv s H L i b c' :
  bio_inv s (i :: H) L → bufs s !! i = Some b → (length H < 1000)%nat → cpu_idle c' →
  let s' := mk_ide c' (<[i:=set_b_refcnt (u32 (b_refcnt b - 1)) b]> (bufs s)) None
              (havedisk1 s) (hw s) (wrote s) in
  u32 (b_refcnt b - 1) = refs H i ∧ bio_inv s' H L ∧ same_io s s' H.
Proof.
  intros Hinv Hb HH Hc s'. assert (i < NBUF)%nat as Hi by (eapply bi_held; [done|set_solver]).
  pose proof (bi_buf _ _ _ Hinv i b Hi Hb) as Hok. pose proof (bi_len _ _ _ Hinv) as Hlen.
  assert (u32 (b_refcnt b - 1) = refs H i) as Hr.
  { rewrite (bo_refs _ _ _ _ _ Hok), refs_cons, decide_True by done.
    pose proof (refs_bound H i). rewrite u32_small; lia. }
  assert (bufs s' !! i = Some (set_b_refcnt (u32 (b_refcnt b - 1)) b)) as Hib.
  { apply list_lookup_insert_eq. lia. }
  assert (bio_inv s' H L) as Hinv'.
  { eapply bio_inv_insert; try done.
    - apply Hinv.
    - destruct Hok. constructor; try done. set_solver.
    - intros j bj Hj Hne Hbj. destruct (bi_buf _ _ _ Hinv j bj Hj Hbj) as [? Hrj ? ? ? ? Hhj].
      constructor; try done; [|set_solver]. rewrite refs_cons, decide_False in Hrj by done. lia.
    - intros Hd j bj Hj Hne Hbj Hdj Hk. apply Hne. by eapply (bi_uniq _ _ _ Hinv).
    - intros j Hj. eapply bi_held; [done|set_solver].
    - intros bn Hbn. destruct (bi_dirty _ _ _ Hinv bn Hbn) as (j & bj & Hj & Hbj & Hdj & Hk).
      destruct (decide (j = i)) as [->|]; [left|right; by eauto 10]. by simplify_eq.
    - apply Hinv. }
  split_and!; [done..|]. constructor; [|done|done|].
  - intros bn. eapply view_intro; [done| |].
    + intros j bj Hj Hbj Hvj <-. destruct (decide (j = i)) as [->|Hne].
      { simplify_eq. symmetry. by eapply (view_cached s (i :: H) L i b). }
      cbn [bufs s'] in Hbj. rewrite list_lookup_insert_ne in Hbj by done.
      symmetry. by eapply (view_cached s _ L j bj).
    + intros Hno. change (hw s') with (hw s). symmetry. eapply view_uncached; [done|].
      intros j bj Hj Hbj Hvj Hk. destruct (decide (j = i)) as [->|Hne].
      { simplify_eq. by eapply (Hno i). }
      eapply (Hno j bj); [done| |done..]. cbn [bufs s']. by rewrite list_lookup_insert_ne.
  - intros j bn _ (Hj & bj & Hbj & Hvj & Hk). split; [done|].
    destruct (decide (j = i)) as [->|Hne]; [simplify_eq; by eexists|].
    exists bj. cbn [bufs s']. by rewrite list_lookup_insert_ne.
Qed.

Lemma path_det f x l l' y : path f x l y → path f x l' y → y ∉ l → y ∉ l' → l = l'.
Proof.
  revert x l'. induction l as [|z l IH]; intros x [|z' l']; cbn [path].
  - done.
  - intros H1 [H2 _]. simplify_eq. set_solver.
  - intros [H1 _] H2. simplify_eq. set_solver.
  - intros [H1 P1] [H2 P2] ??. simplify_eq. f_equal. eapply IH; [done..|set_solver|set_solver].
Qed.

Lemma mru_det bs l l' : mru bs l → mru bs l' → l ≡ₚ seq 0 NBUF → l' ≡ₚ seq 0 NBUF → l = l'.
Proof.
  intros [H1 _] [H2 _] Hl Hl'. eapply path_det; [done..| |]; rewrite ?Hl, ?Hl', elem_of_seq;
    unfold HEAD; lia.
Qed.

(** Giving a handle back. When it was the last one, the buffer becomes the
    most recently used. *)
Lemma wp_brelse E i H L (Q : unit → ide D → Prop) s :
  bio_inv s (i :: H) L → (length H < 1000)%nat →
  (∀ s', bio_inv s' H L → same_io s s' H →
     (i ∉ H → ∀ l1 l2, l1 ++ i :: l2 ≡ₚ seq 0 NBUF → mru (bufs s) (l1 ++ i :: l2) →
        mru (bufs s') (i :: l1 ++ l2)) → Q tt s') →
  wp E (brelse i) Q s.
Proof.
  intros Hinv HH HQ. assert (i < NBUF)%nat as Hi by (eapply bi_held; [done|set_solver]).
  pose proof (bi_len _ _ _ Hinv) as Hlen.
  destruct (lookup_lt_is_Some_2 (bufs s) i) as [b Hb]; [lia|].
  unfold brelse. apply wp_bind, wp_on_pushcli; [apply Hinv|]. intros c1 Hc1.
  apply wp_bind. eapply wp_mod_buf; [done|].
  apply wp_bind. eapply wp_get_buf; [apply list_lookup_insert_eq; cbn; lia|].
  cbn [b_refcnt set_b_refcnt bufs set_icpu].
  assert (∀ c, mk_ide c (<[i:=set_b_refcnt (u32 (b_refcnt b - 1)) b]> (bufs s)) None
              (havedisk1 s) (hw s) (wrote s) =
    set_icpu c (set_bufs (<[i:=set_b_refcnt (u32 (b_refcnt b - 1)) b]> (bufs s)) (set_icpu c1 s))) as Heq.
  { intros c. unfold set_icpu; cbn. by rewrite (bi_queue _ _ _ Hinv). }
  destruct (unref_inv s H L i b (icpu s) Hinv Hb HH (bi_cpu _ _ _ Hinv)) as (Hr & Hinv1 & Hio1).
  apply wp_bind. destruct (Z.eqb_spec (u32 (b_refcnt b - 1)) 0) as [H0|H0].
  - destruct (bi_order _ _ _ Hinv1) as (l & Hl & Hm). cbn [bufs] in Hm.
    assert (i ∈ l) as Hil by (rewrite Hl, elem_of_seq; lia).
    apply list_elem_of_split in Hil as (l1 & l2 & ->).
    assert (NoDup (HEAD :: l1 ++ i :: l2)) as Hnd.
    { apply NoDup_cons. rewrite Hl, elem_of_seq. split; [unfold HEAD; lia|apply NoDup_seq]. }
    assert (∀ bs : list buf, length bs = S NBUF →
      Forall (λ j, j < length bs)%nat (HEAD :: l1 ++ i :: l2)) as HF.
    { intros bs Hbs. rewrite Hl, Hbs. apply Forall_cons. split; [unfold HEAD; lia|].
      apply Forall_forall. intros j ?%elem_of_seq. lia. }
    apply wp_bind, (wp_unlink_node _ i l1 l2); [done|done|apply HF; cbn; by rewrite length_insert|].
    cbn [bufs set_bufs]. intros bs2 Hb2 Hm2. pose proof (same_bodies_length _ _ Hb2) as HL2.
    rewrite length_insert in HL2.
    assert (i :: HEAD :: l1 ++ l2 ≡ₚ HEAD :: l1 ++ i :: l2) as HP by solve_Permutation.
    apply (wp_link_front _ i (l1 ++ l2)); [done|by rewrite HP|rewrite HP; apply HF; cbn; lia|].
    cbn [bufs set_bufs]. intros bs3 Hb3 Hm3.
    apply wp_on_popcli; [done|]. intros c2 Hc2.
    destruct (relink_inv _ H L bs3 c2 (i :: l1 ++ l2) Hinv1) as [Hinv3 Hio3];
      [by etrans|rewrite <- Hl; solve_Permutation|done|done|]. cbn [havedisk1 hw wrote] in *.
    replace (set_icpu c2 _) with (mk_ide c2 bs3 None (havedisk1 s) (hw s) (wrote s)).
    2: { unfold set_icpu; cbn. by rewrite (bi_queue _ _ _ Hinv). }
    apply HQ; [done|by eapply same_io_trans|]. intros _ k1 k2 Hk Hmk. cbn [bufs].
    assert (k1 ++ i :: k2 = l1 ++ i :: l2) as Hkl.
    { apply (mru_det (<[i:=set_b_refcnt (u32 (b_refcnt b - 1)) b]> (bufs s))); [|done..].
      by eapply mru_insert. }
    assert (k1 ++ k2 = l1 ++ l2) as ->; [|done].
    apply NoDup_cons in Hnd as [_ Hnd]. apply NoDup_app in Hnd as (_ & Hd1 & _).
    assert (NoDup (k1 ++ i :: k2)) as Hndk by (rewrite Hk; apply NoDup_seq).
    apply NoDup_app in Hndk as (_ & Hd2 & _).
    apply split_unique in Hkl as [-> ->]; [done|set_solver|set_solver].
  - apply wp_ret, wp_on_popcli; [done|]. intros c2 Hc2. rewrite <- Heq.
    destruct (unref_inv s H L i b c2 Hinv Hb HH Hc2) as (_ & Hinv2 & Hio2).
    apply HQ; [done..|]. intros Hni. exfalso. apply H0. rewrite Hr. unfold refs.
    rewrite (proj1 (count_occ_not_In Nat.eq_dec H i)); [done|]. by rewrite <- list_elem_of_In.
Qed.

(** ** Writing

    [with_data s i x]: the state after the holder of buffer [i] has put [x] in
    it and before it has said so to the disk or to the log. *)
Definition with_data s (i : nat) (x : list Z) : ide D :=
  match bufs s !! i with
  | Some b => set_bufs (<[i:=set_b_data x b]> (bufs s)) s
  | None => s
  end.

Lemma with_data_lookup s i b x :
  bufs s !! i = Some b → bufs (with_data s i x) !! i = Some (set_b_data x b).
Proof.
  intros Hb. unfold with_data. rewrite Hb. apply list_lookup_insert_eq. by eapply lookup_lt_Some.
Qed.

Lemma with_data_twice s i x y : with_data (with_data s i x) i y = with_data s i y.
Proof.
  unfold with_data. destruct (bufs s !! i) as [b|] eqn:Hb; [|by rewrite Hb].
  cbn [bufs set_bufs]. rewrite list_lookup_insert_eq by (by eapply lookup_lt_Some).
  unfold set_bufs; cbn [bufs icpu idequeue havedisk1 hw wrote].
  by rewrite list_insert_insert_eq.
Qed.

Lemma with_data_id s i b : bufs s !! i = Some b → with_data s i (b_data b) = s.
Proof.
  intros Hb. unfold with_data. rewrite Hb. unfold set_bufs.
  rewrite list_insert_id; [by destruct s|]. rewrite Hb. by destruct b.
Qed.

Lemma wp_mod_data E f i bn H L (Q : unit → ide D → Prop) s :
  bio_inv s H L → holds s i bn → Q tt (with_data s i (f (view s bn))) → wp E (mod_data i f) Q s.
Proof.
  intros Hinv Hh HQ. pose proof Hh as (Hi & b & Hb & Hv & Hk).
  eapply wp_mod_buf; [done|]. rewrite (holds_view s H L i bn b) by done.
  unfold with_data in HQ. by rewrite Hb in HQ.
Qed.

Lemma wp_mod_data_again E f i b x (Q : unit → ide D → Prop) s :
  bufs s !! i = Some b → Q tt (with_data s i (f x)) → wp E (mod_data i f) Q (with_data s i x).
Proof.
  intros Hb HQ. eapply wp_mod_buf; [by apply with_data_lookup|].
  rewrite <- (with_data_twice s i x (f x)) in HQ. unfold with_data at 1 in HQ.
  by rewrite (with_data_lookup s i b x Hb) in HQ.
Qed.

(** [wrote_block s s' H bn x]: block [bn] now reads [x]; the rest is as before. *)
Record wrote_block s s' (H : list nat) (bn : Z) (x : list Z) : Prop := {
  wb_view bn' : view s' bn' = if decide (bn' = bn) then x else view s bn';
  wb_holds j bn' : j ∈ H → holds s j bn' → holds s' j bn';
}.

Lemma buf_update_inv s H L i b b' x fl bn c' d' w' L' :
  b' = set_b_flags fl (set_b_data x (set_b_qnext (b_qnext b') b)) →
  bio_inv s H L → holds s i bn → bufs s !! i = Some b → i ∈ H → length x = 512%nat →
  cpu_idle c' → dphase d' = Idle →
  Z.testbit fl 1 = true →
  (∀ k, k ≠ bn → media d' ROOTDEV k = media (hw s) ROOTDEV k) →
  (Z.testbit fl 2 = false → media d' ROOTDEV bn = x) →
  (∀ k, k ∈ L' ↔ (k = bn ∧ Z.testbit fl 2 = true) ∨ (k ≠ bn ∧ k ∈ L)) → NoDup L' →
  let s' := mk_ide c' (<[i:=b']> (bufs s)) None (havedisk1 s) d' w' in
  bio_inv s' H L' ∧ wrote_block s s' H bn x.
Proof.
  intros Hb' Hinv Hh Hb HiH Hx Hc Hph Hv Hmd Hmb HL' Hnd s'.
  destruct Hh as (Hi & b0 & Hb0 & Hv0 & <-). assert (b0 = b) as -> by congruence.
  pose proof (bi_buf _ _ _ Hinv i b Hi Hb) as Hok. pose proof (bi_len _ _ _ Hinv) as Hlen.
  assert (b_dev b = ROOTDEV) as Hdev by (by apply (inv_dev s H L i)).
  assert (is_valid b' = true ∧ is_dirty b' = Z.testbit fl 2 ∧ b_dev b' = ROOTDEV ∧
    b_blockno b' = b_blockno b ∧ b_refcnt b' = b_refcnt b ∧ b_data b' = x ∧
    b_next b' = b_next b ∧ b_prev b' = b_prev b) as (Hv' & Hd' & Hdv & Hk & Hr & Hdat & Hn & Hp).
  { rewrite Hb'. done. }
  clear Hb'. assert (bufs s' !! i = Some b') as Hib by (apply list_lookup_insert_eq; lia).
  assert (∀ j bj, (j < NBUF)%nat → j ≠ i → bufs s !! j = Some bj → is_valid bj = true →
    b_blockno bj ≠ b_blockno b) as Hothers.
  { intros j bj Hj Hne Hbj Hvj Hkj. apply Hne. eapply (bi_uniq _ _ _ Hinv); [done..| |done|done].
    by apply (inv_dev s H L j). }
  assert (bio_inv s' H L') as Hinv'.
  { eapply bio_inv_insert; try done.
    - constructor; rewrite ?Hdat, ?Hdv, ?Hk, ?Hr, ?Hd'; try done.
      + apply Hok.
      + intros. split; [done|]. apply HL'. by left.
      + intros _. split; [done|]. by apply (inv_range s H L i).
      + intros _ ?. by rewrite Hmb.
    - intros j bj Hj Hne Hbj. specialize (Hothers j bj Hj Hne Hbj).
      destruct (bi_buf _ _ _ Hinv j bj Hj Hbj) as [? ? Hdj ? ? Hcl ?]. constructor; try done.
      + intros Hd. destruct (Hdj Hd). split; [done|]. apply HL'. right. auto.
      + intros ? ?. rewrite Hmd by auto. by apply Hcl.
    - intros _ j bj Hj Hne Hbj Hdj. rewrite Hk. apply (Hothers j bj Hj Hne Hbj).
      by eapply bo_used; [apply Hinv|].
    - apply Hinv.
    - intros k [[-> Ht]|[Hne Hin]]%HL'; [left; by rewrite Hd'|].
      destruct (bi_dirty _ _ _ Hinv k Hin) as (j & bj & Hj & Hbj & Hdj & Hkj).
      right. exists j, bj. split_and!; try done. intros ->. by simplify_eq. }
  split; [done|]. constructor.
  - intros k. case_decide as Hkb.
    + rewrite Hkb. rewrite <- Hk. rewrite <- Hdat. by apply (view_cached s' H L' i b').
    + eapply view_intro; [done| |].
      * intros j bj Hj Hbj Hvj <-. destruct (decide (j = i)) as [->|Hne]; [by simplify_eq|].
        cbn [bufs s'] in Hbj. rewrite list_lookup_insert_ne in Hbj by done.
        symmetry. by apply (view_cached s H L j bj).
      * intros Hno. cbn [hw s']. rewrite Hmd by done. symmetry. eapply view_uncached; [done|].
        intros j bj Hj Hbj Hvj Hkj. destruct (decide (j = i)) as [->|Hne]; [by simplify_eq|].
        eapply (Hno j bj); [done| |done..]. cbn [bufs s']. by rewrite list_lookup_insert_ne.
  - intros j k _ (Hj & bj & Hbj & Hvj & Hkj). split; [done|].
    destruct (decide (j = i)) as [->|Hne]; [simplify_eq; by exists b'|].
    exists bj. cbn [bufs s']. by rewrite list_lookup_insert_ne.
Qed.

(** [bwrite] puts the holder's data on the platter and unpins the block. *)
Lemma wp_bwrite E i bn x H L (Q : unit → ide D → Prop) s :
  bio_inv s H L → holds s i bn → i ∈ H → length x = 512%nat →
  (∀ s', bio_inv s' H (filter (λ k, k ≠ bn) L) → wrote_block s s' H bn x →
     (∀ v k, media (hw s') v k = upd_media (media (hw s)) ROOTDEV bn x v k) →
     wrote s' = wrote s ++ [(ROOTDEV, bn, x)] → Q tt s') →
  wp E (bwrite i) Q (with_data s i x).
Proof.
  intros Hinv Hh HiH Hx HQ. pose proof Hh as (Hi & b & Hb & Hv & Hk).
  pose proof (inv_dev s H L i b Hinv Hi Hb Hv) as Hdev.
  pose proof (inv_range s H L i b Hinv Hi Hb Hv) as Hrng.
  pose proof (bi_len _ _ _ Hinv) as Hlen.
  unfold bwrite. apply wp_bind. eapply wp_mod_buf; [by apply with_data_lookup|].
  unfold with_data. rewrite Hb. cbn [bufs set_bufs].
  set (b1 := set_b_flags _ _).
  assert (is_dirty b1 = true) as Hd1 by (unfold is_dirty; cbn [b1 b_flags set_b_flags]; by rewrite lor_dirty).
  assert (is_valid b1 = true) as Hv1.
  { unfold is_valid in *. cbn [b1 b_flags set_b_flags]. rewrite lor_dirty by lia. cbn [b_flags set_b_data]. by rewrite Hv. }
  eapply (wp_iderw _ i b1).
  - apply Hinv.
  - apply Hinv.
  - apply Hinv.
  - cbn [bufs set_bufs]. rewrite list_insert_insert_eq. apply list_lookup_insert_eq. lia.
  - done.
  - done.
  - by rewrite Hd1, andb_false_r.
  - apply Hinv.
  - intros c' d' Hc' Hp' Hm'. unfold iderw_post. cbn [bufs set_bufs hw wrote havedisk1].
    rewrite !list_insert_insert_eq, Hd1. cbn [b_dev b_blockno b_data b1 set_b_flags set_b_data].
    unfold media_after in Hm'. rewrite Hd1 in Hm'. cbn [b_dev b_blockno b_data b1 set_b_flags set_b_data hw set_bufs] in Hm'.
    rewrite Hdev, Hk in Hm' |- *. change (Z.land ROOTDEV 1) with ROOTDEV in *.
    unfold serviced. change (is_dirty (set_b_qnext None b1)) with (is_dirty b1). rewrite Hd1.
    destruct (buf_update_inv s H L i b (set_b_flags (done_flags (b_flags b1)) (set_b_qnext None b1))
      x (done_flags (b_flags b1)) bn c' d'
      (wrote s ++ [(ROOTDEV, bn, x)]) (filter (λ k, k ≠ bn) L)) as [HI HW]; try done.
    + apply done_flags_valid.
    + intros k Hne. rewrite Hm'. unfold upd_media. by rewrite (proj2 (Z.eqb_neq k bn)) by done.
    + intros _. rewrite Hm'. unfold upd_media. by rewrite !Z.eqb_refl.
    + intros k. rewrite list_elem_of_filter, done_flags_dirty. naive_solver.
    + apply NoDup_filter, Hinv.
    + by apply HQ.
Qed.

Lemma with_data_set_icpu s c i x : set_icpu c (with_data s i x) = with_data (set_icpu c s) i x.
Proof. unfold with_data. cbn [bufs set_icpu]. by destruct (bufs s !! i). Qed.

Lemma icpu_with_data s i x : icpu (with_data s i x) = icpu s.
Proof. unfold with_data. by destruct (bufs s !! i). Qed.

Lemma set_icpu_inv s H L c : bio_inv s H L → cpu_idle c → bio_inv (set_icpu c s) H L.
Proof. intros [] Hc. by constructor. Qed.

Lemma set_icpu_io s H c : same_io s (set_icpu c s) H.
Proof. by constructor. Qed.

(** Marking the holder's data dirty: the block is pinned, the platter keeps
    its old contents. *)
Lemma wp_set_dirty E i bn x H L (Q : unit → ide D → Prop) s :
  bio_inv s H L → holds s i bn → i ∈ H → length x = 512%nat →
  (∀ s', bio_inv s' H (if decide (bn ∈ L) then L else L ++ [bn]) → wrote_block s s' H bn x →
     (∀ v k, media (hw s') v k = media (hw s) v k) → wrote s' = wrote s → Q tt s') →
  wp E (mod_buf i (λ b, set_b_flags (Z.lor (b_flags b) B_DIRTY) b)) Q (with_data s i x).
Proof.
  intros Hinv Hh HiH Hx HQ. pose proof Hh as (Hi & b & Hb & Hv & Hk).
  eapply wp_mod_buf; [by apply with_data_lookup|]. unfold with_data. rewrite Hb.
  unfold set_bufs. cbn [bufs icpu idequeue havedisk1 hw wrote]. rewrite list_insert_insert_eq.
  rewrite (bi_queue _ _ _ Hinv). set (b1 := set_b_flags _ _).
  destruct (buf_update_inv s H L i b b1 x (b_flags b1) bn (icpu s) (hw s) (wrote s)
    (if decide (bn ∈ L) then L else L ++ [bn])) as [HI HW]; try done.
  - apply Hinv.
  - apply Hinv.
  - cbn [b1 b_flags set_b_flags]. rewrite lor_dirty by lia. exact Hv.
  - cbn [b1 b_flags set_b_flags]. by rewrite lor_dirty by lia.
  - intros k. cbn [b1 b_flags set_b_flags]. rewrite lor_dirty by lia. cbn [Z.eqb Pos.eqb orb].
    case_decide; rewrite ?elem_of_app, ?list_elem_of_singleton;
      destruct (decide (k = bn)) as [->|]; naive_solver.
  - case_decide; [apply Hinv|]. apply NoDup_app. split_and!; [apply Hinv|set_solver|apply NoDup_singleton].
  - by apply HQ.
Qed.

(** ** Boot *)
Definition zero_buf : buf := mk_buf 0 0 0 0 None None None (replicate 512 0).

Lemma wp_binit_loop E k i l (Q : unit → ide D → Prop) s :
  mru (bufs s) l → NoDup (HEAD :: l) → (∀ j, j ∈ l → (j < i)%nat) → (i + k = NBUF)%nat →
  length (bufs s) = S NBUF →
  (∀ bs', same_bodies (bufs s) bs' → mru bs' (reverse (seq i k) ++ l) → Q tt (set_bufs bs' s)) →
  wp E (binit_loop k i) Q s.
Proof.
  revert i l s. induction k as [|k IH]; intros i l s Hm Hnd Hlt Hk Hlen HQ; cbn [binit_loop].
  - apply wp_ret. specialize (HQ (bufs s)). destruct s. by apply HQ.
  - assert (NoDup (i :: HEAD :: l)) as Hnd'.
    { apply NoDup_cons. split; [|done]. intros [Heq|Hin]%elem_of_cons.
      - unfold HEAD in Heq. lia.
      - apply Hlt in Hin. lia. }
    assert (Forall (λ j, j < length (bufs s))%nat (i :: HEAD :: l)) as HF.
    { rewrite Hlen. repeat (apply Forall_cons; split); [lia|unfold HEAD; lia|].
      apply Forall_forall. intros j Hj%Hlt. lia. }
    apply wp_bind, (wp_link_front _ i l); [done..|]. intros bs1 Hb1 Hm1.
    apply (IH (S i) (i :: l)); cbn [bufs set_bufs]; [done| | |lia| |].
    + apply NoDup_cons in Hnd' as [Hni Hnd']. apply NoDup_cons in Hnd' as [Hnh Hnd'].
      repeat (apply NoDup_cons; split); [set_solver|set_solver|done].
    + intros j [->|Hj]%elem_of_cons; [lia|]. apply Hlt in Hj. lia.
    + by rewrite (same_bodies_length _ _ Hb1).
    + intros bs2 Hb2 Hm2. apply HQ; [by etrans|]. cbn [seq]. rewrite reverse_cons, <- app_assoc. done.
Qed.

(** [binit] runs before interrupts are enabled and does not use the processor:
    the cache is in order once they are. *)
Lemma wp_binit_boot E (Q : unit → ide D → Prop) s :
  idequeue s = None → havedisk1 s ≠ 0 → dphase (hw s) = Idle →
  bufs s = replicate (S NBUF) zero_buf →
  (∀ s', icpu s' = icpu s → (∀ c, cpu_idle c → bio_inv (set_icpu c s') [] []) → (∀ bn, view s' bn = media (hw s) ROOTDEV bn) →
     hw s' = hw s → wrote s' = wrote s → mru (bufs s') (reverse (seq 0 NBUF)) → Q tt s') →
  wp E binit Q s.
Proof.
  intros Hq Hd Hp Hbs HQ. unfold binit.
  apply wp_bind, wp_set_prev; [rewrite Hbs, length_replicate; unfold HEAD; lia|].
  intros bs1 Hb1 Hp1 Hn1. pose proof (same_bodies_length _ _ Hb1) as HL1.
  rewrite Hbs, length_replicate in HL1.
  apply wp_bind, wp_set_next; [cbn; rewrite HL1; unfold HEAD; lia|]. cbn [bufs set_bufs].
  intros bs2 Hb2 Hn2 Hp2. pose proof (same_bodies_length _ _ Hb2) as HL2.
  assert (mru bs2 []) as Hm2.
  { split; [|rewrite reverse_nil]; cbn [path]; [rewrite Hn2|rewrite Hp2, Hp1]; unfold fupd;
      by rewrite decide_True. }
  apply (wp_binit_loop _ _ _ []); [done|apply NoDup_singleton|set_solver|done|cbn; lia|].
  cbn [bufs set_bufs]. intros bs3 Hb3 Hm3. rewrite app_nil_r in Hm3.
  assert (same_bodies (bufs s) bs3) as Hsb by (etrans; [exact Hb1|]; by etrans).
  assert (∀ i b', bs3 !! i = Some b' → same_body zero_buf b') as Hz.
  { intros i b' Hb'. destruct (Forall2_lookup_r _ _ _ _ _ Hsb Hb') as (b & Hb & Hs).
    rewrite Hbs in Hb. apply lookup_replicate in Hb as [-> _]. done. }
  set (s' := set_bufs bs3 _). assert (∀ c, cpu_idle c → bio_inv (set_icpu c s') [] []) as Hinv.
  { intros c Hc. constructor; cbn [icpu bufs idequeue havedisk1 hw set_bufs set_icpu s']; try done.
    - rewrite (same_bodies_length _ _ Hsb), Hbs. by rewrite length_replicate.
    - exists (reverse (seq 0 NBUF)). split; [by rewrite reverse_Permutation|done].
    - intros i b' _ Hb'. destruct (Hz i b' Hb') as (Hf & Hdv & _ & Hr & Hx).
      constructor; rewrite ?Hr, ?Hx, ?Hdv; unfold is_valid, is_dirty; rewrite ?Hf; try done; set_solver.
    - intros i j bi bj _ _ Hbi Hbj Hdi. destruct (Hz i bi Hbi) as (_ & Hdv & _). rewrite Hdv in Hdi. done.
    - set_solver.
    - set_solver.
    - apply NoDup_nil_2. }
  set (c := mk_cpu 0 0 FL_IF).
  apply HQ; try done. intros bn. change (view s' bn) with (view (set_icpu c s') bn). change (hw s) with (hw (set_icpu c s')).
  eapply view_uncached; [by apply Hinv|]. intros i b' _ Hb' Hv. destruct (Hz i b' Hb') as (Hf & _). unfold is_valid in Hv.
  rewrite Hf in Hv. done.
Qed.
Lemma wp_binit E (Q : unit → ide D → Prop) s :
  cpu_idle (icpu s) → idequeue s = None → havedisk1 s ≠ 0 → dphase (hw s) = Idle →
  bufs s = replicate (S NBUF) zero_buf →
  (∀ s', bio_inv s' [] [] → (∀ bn, view s' bn = media (hw s) ROOTDEV bn) →
     hw s' = hw s → wrote s' = wrote s → mru (bufs s') (reverse (seq 0 NBUF)) → Q tt s') →
  wp E binit Q s.
Proof.
  intros Hc ?? ?? HQ. apply wp_binit_boot; try done. intros s' Hc' Hinv. apply HQ.
  rewrite <- Hc' in Hc. specialize (Hinv _ Hc). by destruct s'.
Qed.
End facts.
