(* ===== verification/Layout.v ===== *)
(** * fs.h: the on-disk format

    The superblock and the block arithmetic of the file system image. Fields
    are little-endian 32-bit words of a block, as the i386 compiler lays out
    the C structs. *)

From S2P Require Import Prelude.

Definition ROOTINO : Z := 1.
Definition NDIRECT : Z := 12.
Definition NINDIRECT : Z := 512 / 4.
Definition MAXFILE : Z := NDIRECT + NINDIRECT.
Definition LOGSIZE : Z := 30.
Definition DIRSIZ : nat := 14.

Record superblock := mk_superblock {
  sb_size : Z;
  sb_nblocks : Z;
  sb_ninodes : Z;
  sb_nlog : Z;
  sb_logstart : Z;
  sb_inodestart : Z;
  sb_bmapstart : Z;
}.
#[global] Instance superblock_eq_dec : EqDecision superblock.
Proof. solve_decision. Defined.

(** The struct at the start of a block. *)
Definition dec_superblock (x : list Z) : superblock :=
  mk_superblock (get_u32 0 x) (get_u32 4 x) (get_u32 8 x) (get_u32 12 x)
    (get_u32 16 x) (get_u32 20 x) (get_u32 24 x).
Definition enc_superblock (sb : superblock) (x : list Z) : list Z :=
  put_u32 24 (sb_bmapstart sb) (put_u32 20 (sb_inodestart sb) (put_u32 16 (sb_logstart sb)
    (put_u32 12 (sb_nlog sb) (put_u32 8 (sb_ninodes sb) (put_u32 4 (sb_nblocks sb)
      (put_u32 0 (sb_size sb) x)))))).

Definition superblock_ok (sb : superblock) : Prop :=
  Forall (λ v, 0 ≤ v < 4294967296)
    [sb_size sb; sb_nblocks sb; sb_ninodes sb; sb_nlog sb; sb_logstart sb; sb_inodestart sb;
     sb_bmapstart sb].

Lemma superblock_roundtrip sb x :
  superblock_ok sb → (28 ≤ length x)%nat → dec_superblock (enc_superblock sb x) = sb.
Proof.
  intros Hok Hx. unfold superblock_ok in Hok. rewrite !Forall_cons in Hok.
  destruct Hok as (H0 & H1 & H2 & H3 & H4 & H5 & H6 & _).
  unfold dec_superblock, enc_superblock.
  repeat rewrite ?get_put_u32, ?get_put_u32_ne by put_len.
  rewrite !u32_small by done. by destruct sb.
Qed.

(** ** Inodes on disk: 64 bytes each, eight to a block *)
Definition IPB : Z := 8.
Definition BPB : Z := 512 * 8.
Definition IBLOCK (i : Z) (sb : superblock) : Z := u32 (i / IPB + sb_inodestart sb).
Definition BBLOCK (b : Z) (sb : superblock) : Z := u32 (b / BPB + sb_bmapstart sb).

Record dinode := mk_dinode {
  di_type : Z;
  di_major : Z;
  di_minor : Z;
  di_nlink : Z;
  di_size : Z;
  di_addrs : list Z;
}.
#[global] Instance dinode_eq_dec : EqDecision dinode.
Proof. solve_decision. Defined.

(** Byte offset of inode [inum] in its block. *)
Definition dip_off (inum : Z) : nat := 64 * Z.to_nat (inum mod IPB).

(** An array of words at an offset. *)
Definition get_words (off n : nat) (x : list Z) : list Z := (λ i, get_u32 (off + 4 * i) x) <$> seq 0 n.
Fixpoint enc_words (ws : list Z) : list Z :=
  match ws with
  | [] => []
  | w :: ws => le_enc 4 w ++ enc_words ws
  end.

Definition dec_dinode (off : nat) (x : list Z) : dinode :=
  mk_dinode (s16 (get_u16 off x)) (s16 (get_u16 (off + 2) x)) (s16 (get_u16 (off + 4) x))
    (s16 (get_u16 (off + 6) x)) (get_u32 (off + 8) x) (get_words (off + 12) 13 x).
(** The assignments to the fields of [*dip], in the order of the code. *)
Definition enc_dinode (off : nat) (d : dinode) (x : list Z) : list Z :=
  splice (off + 12) (enc_words (di_addrs d))
    (put_u32 (off + 8) (di_size d) (put_u16 (off + 6) (di_nlink d)
      (put_u16 (off + 4) (di_minor d) (put_u16 (off + 2) (di_major d)
        (put_u16 off (di_type d) x))))).

(** ** Directory entries: a 16-bit inode number and a name *)
Record dirent := mk_dirent { de_inum : Z; de_name : list Z }.
Definition dec_dirent (x : list Z) : dirent := mk_dirent (get_u16 0 x) (slice 2 DIRSIZ x).
Definition enc_dirent (de : dirent) : list Z := le_enc 2 (de_inum de) ++ de_name de.

(** ** Round trips *)
Lemma length_enc_words ws : length (enc_words ws) = (4 * length ws)%nat.
Proof.
  induction ws as [|w ws IH]; [done|]. cbn [enc_words length]. rewrite length_app, IH, length_le_enc. lia.
Qed.

Lemma slice_enc_words ws i w :
  ws !! i = Some w → slice (4 * i) 4 (enc_words ws) = le_enc 4 w.
Proof.
  revert i. induction ws as [|v ws IH]; intros [|i] Hi; cbn in Hi; simplify_eq.
  - done.
  - cbn [enc_words]. rewrite <- (IH i Hi). unfold slice.
    replace (4 * S i)%nat with (length (le_enc 4 v) + 4 * i)%nat by (rewrite length_le_enc; lia).
    by rewrite drop_app_add.
Qed.

Lemma get_words_enc off ws x :
  (off + 4 * length ws ≤ length x)%nat →
  get_words off (length ws) (splice off (enc_words ws) x) = u32 <$> ws.
Proof.
  intros Hx. apply list_eq. intros i. unfold get_words. rewrite !list_lookup_fmap.
  destruct (decide (i < length ws)%nat) as [Hi|Hi].
  - rewrite lookup_seq_lt by done. destruct (lookup_lt_is_Some_2 ws i Hi) as [w Hw]. rewrite Hw.
    cbn [fmap option_fmap option_map]. f_equal. unfold get_u32. rewrite Nat.add_0_l.
    rewrite slice_splice_in by (rewrite length_enc_words; lia).
    rewrite (slice_enc_words _ _ _ Hw). by rewrite le_dec_enc.
  - rewrite lookup_seq_ge, (lookup_ge_None_2 ws) by lia. done.
Qed.

Definition dinode_ok (d : dinode) : Prop :=
  Forall (λ v, -32768 ≤ v < 32768) [di_type d; di_major d; di_minor d; di_nlink d] ∧
  0 ≤ di_size d < 4294967296 ∧
  length (di_addrs d) = 13%nat ∧ Forall (λ a, 0 ≤ a < 4294967296) (di_addrs d).

Lemma u32_map l : Forall (λ a, 0 ≤ a < 4294967296) l → u32 <$> l = l.
Proof. induction 1; cbn; [done|]. by rewrite u32_small, IHForall by done. Qed.

Lemma length_enc_dinode off d x :
  length (di_addrs d) = 13%nat → (off + 64 ≤ length x)%nat → length (enc_dinode off d x) = length x.
Proof.
  intros Ha Hx. unfold enc_dinode. rewrite length_splice; [put_len|]. rewrite length_enc_words, Ha. put_len.
Qed.

Lemma get_u16_splice_ne off off' src x :
  (off + length src ≤ length x)%nat → (off' + 2 ≤ off ∨ off + length src ≤ off')%nat →
  get_u16 off' (splice off src x) = get_u16 off' x.
Proof. intros. unfold get_u16. by rewrite slice_splice_ne. Qed.
Lemma get_u32_splice_ne off off' src x :
  (off + length src ≤ length x)%nat → (off' + 4 ≤ off ∨ off + length src ≤ off')%nat →
  get_u32 off' (splice off src x) = get_u32 off' x.
Proof. intros. unfold get_u32. by rewrite slice_splice_ne. Qed.

Lemma get_u16_put_u32_ne off off' v x :
  (off + 4 ≤ length x)%nat → (off' + 2 ≤ off ∨ off + 4 ≤ off')%nat →
  get_u16 off' (put_u32 off v x) = get_u16 off' x.
Proof. intros. unfold put_u32. apply get_u16_splice_ne; rewrite length_le_enc; lia. Qed.
Lemma get_u16_put_u16_ne off off' v x :
  (off + 2 ≤ length x)%nat → (off' + 2 ≤ off ∨ off + 2 ≤ off')%nat →
  get_u16 off' (put_u16 off v x) = get_u16 off' x.
Proof. intros. unfold put_u16. apply get_u16_splice_ne; rewrite length_le_enc; lia. Qed.

(** What [iupdate] stores is what [iread] loads. *)
Lemma dinode_roundtrip off d x :
  dinode_ok d → (off + 64 ≤ length x)%nat → dec_dinode off (enc_dinode off d x) = d.
Proof.
  intros (Hs & Hz & Ha & Haa) Hx. rewrite !Forall_cons in Hs. destruct Hs as (Ht & Hmj & Hmn & Hl & _).
  unfold dec_dinode, enc_dinode.
  rewrite !get_u16_splice_ne, get_u32_splice_ne by (rewrite ?length_enc_words, ?Ha; put_len).
  rewrite <- Ha, get_words_enc, u32_map by (rewrite ?Ha; put_len || done).
  repeat rewrite ?get_put_u32, ?get_put_u16, ?get_u16_put_u32_ne, ?get_u16_put_u16_ne by put_len.
  rewrite !s16_u16, !s16_small, u32_small by done. by destruct d.
Qed.

Lemma slice_put_u32_ne off v x o n :
  (off + 4 ≤ length x)%nat → (o + n ≤ off ∨ off + 4 ≤ o)%nat → slice o n (put_u32 off v x) = slice o n x.
Proof. intros. unfold put_u32. apply slice_splice_ne; rewrite length_le_enc; lia. Qed.
Lemma slice_put_u16_ne off v x o n :
  (off + 2 ≤ length x)%nat → (o + n ≤ off ∨ off + 2 ≤ o)%nat → slice o n (put_u16 off v x) = slice o n x.
Proof. intros. unfold put_u16. apply slice_splice_ne; rewrite length_le_enc; lia. Qed.

(** The other bytes of the block are left alone. *)
Lemma dinode_frame off d x o n :
  length (di_addrs d) = 13%nat → (off + 64 ≤ length x)%nat → (o + n ≤ off ∨ off + 64 ≤ o)%nat →
  slice o n (enc_dinode off d x) = slice o n x.
Proof.
  intros Ha Hx Ho. unfold enc_dinode.
  rewrite slice_splice_ne by (rewrite length_enc_words, Ha; put_len).
  by rewrite slice_put_u32_ne, !slice_put_u16_ne by put_len.
Qed.

Lemma dirent_roundtrip de :
  0 ≤ de_inum de < 65536 → length (de_name de) = DIRSIZ → dec_dirent (enc_dirent de) = de.
Proof.
  intros Hi Hn. destruct de as [i n]. cbn [de_inum de_name] in *.
  unfold dec_dirent, enc_dirent. cbn [de_inum de_name]. f_equal.
  - unfold get_u16, slice. rewrite drop_0, take_app_le by (rewrite length_le_enc; lia).
    rewrite take_ge by (rewrite length_le_enc; lia). rewrite le_dec_enc. apply Z.mod_small. lia.
  - unfold slice. rewrite drop_app_ge by (rewrite length_le_enc; lia). rewrite length_le_enc, drop_0.
    apply take_ge. lia.
Qed.
