(* ===== verification/Log.v ===== *)
(** * log.c: the write-ahead log

    The state is the disk stack below (lio) and the in-memory [struct log].
    [lh_block] is the array [log.lh.block] of [LOGSIZE] entries. *)

From S2P Require Import Prelude Spinlock Ide Bio BioFacts Layout.

Record log := mk_log {
  log_start : Z;
  log_size : Z;
  log_committing : Z;
  log_dev : Z;
  lh_n : Z;
  lh_block : list Z;
}.
Definition set_log_start v (l : log) : log :=
  mk_log v (log_size l) (log_committing l) (log_dev l) (lh_n l) (lh_block l).
Definition set_log_size v (l : log) : log :=
  mk_log (log_start l) v (log_committing l) (log_dev l) (lh_n l) (lh_block l).
Definition set_log_dev v (l : log) : log :=
  mk_log (log_start l) (log_size l) (log_committing l) v (lh_n l) (lh_block l).
Definition set_lh_n v (l : log) : log :=
  mk_log (log_start l) (log_size l) (log_committing l) (log_dev l) v (lh_block l).
Definition set_lh_block v (l : log) : log :=
  mk_log (log_start l) (log_size l) (log_committing l) (log_dev l) (lh_n l) v.

Record lst (D : Type) := mk_lst { lio : ide D; lg : log }.
Arguments mk_lst {D}.
Arguments lio {D}.
Arguments lg {D}.

(** Byte offset of [lh->block[i]] in the header block. *)
Definition slot (i : nat) : nat := 4 + 4 * i.

Section log.
Context {D : Type} {dev : IdeDevice D}.

Definition set_lio v (s : lst D) : lst D := mk_lst v (lg s).
Definition set_lg v (s : lst D) : lst D := mk_lst (lio s) v.
Definition io {A} (m : M (ide D) A) : M (lst D) A := zoom lio set_lio m.
Definition upd_log (f : log → log) : M (lst D) unit := modify (λ s, set_lg (f (lg s)) s).

(** [log.lh.block[i]], read and written; an index past the array is undefined. *)
Definition get_block (i : nat) : M (lst D) Z := getopt (λ s, lh_block (lg s) !! i).
Definition put_block (i : nat) (v : Z) : M (lst D) unit :=
  getopt (λ s, lh_block (lg s) !! i);;
  upd_log (λ l, set_lh_block (<[i:=v]> (lh_block l)) l).

(** fs.c's [readsb]. *)
Definition readsb (dv : Z) : M (ide D) superblock :=
  bp ← bread dv 1;
  b ← get_buf bp;
  brelse bp;;
  mret (dec_superblock (b_data b)).

(** The body of [install_trans] for [tail], [k] iterations to go. *)
Fixpoint install_loop (k tail : nat) : M (lst D) unit :=
  match k with
  | O => mret tt
  | S k =>
      l ← gets lg;
      lbuf ← io (bread (log_dev l) (u32 (log_start l + Z.of_nat tail + 1)));
      bn ← get_block tail;
      dbuf ← io (bread (log_dev l) (u32 bn));
      io (copy_data dbuf lbuf);;
      io (bwrite dbuf);;
      io (brelse lbuf);;
      io (brelse dbuf);;
      install_loop k (S tail)
  end.
Definition install_trans : M (lst D) unit :=
  l ← gets lg; install_loop (Z.to_nat (lh_n l)) 0.

Fixpoint read_head_loop (k i : nat) (buf : nat) : M (lst D) unit :=
  match k with
  | O => mret tt
  | S k =>
      b ← io (get_buf buf);
      put_block i (s32 (get_u32 (slot i) (b_data b)));;
      read_head_loop k (S i) buf
  end.
Definition read_head : M (lst D) unit :=
  l ← gets lg;
  buf ← io (bread (log_dev l) (u32 (log_start l)));
  b ← io (get_buf buf);
  upd_log (set_lh_n (s32 (get_u32 0 (b_data b))));;
  l ← gets lg;
  read_head_loop (Z.to_nat (lh_n l)) 0 buf;;
  io (brelse buf).

Fixpoint write_head_loop (k i : nat) (buf : nat) : M (lst D) unit :=
  match k with
  | O => mret tt
  | S k =>
      bn ← get_block i;
      io (mod_data buf (put_u32 (slot i) bn));;
      write_head_loop k (S i) buf
  end.
Definition write_head : M (lst D) unit :=
  l ← gets lg;
  buf ← io (bread (log_dev l) (u32 (log_start l)));
  io (mod_data buf (put_u32 0 (lh_n l)));;
  write_head_loop (Z.to_nat (lh_n l)) 0 buf;;
  io (bwrite buf);;
  io (brelse buf).

Definition recover_from_log : M (lst D) unit :=
  read_head;;
  install_trans;;
  upd_log (set_lh_n 0);;
  write_head.

(** [sizeof(struct logheader)] is [4 + 4 * LOGSIZE]. *)
Definition initlog (dv : Z) : M (lst D) unit :=
  if 4 + 4 * LOGSIZE >=? BSIZE then panic "initlog: too big logheader" else
  sb ← io (readsb dv);
  upd_log (set_log_start (s32 (sb_logstart sb)));;
  upd_log (set_log_size (s32 (sb_nlog sb)));;
  upd_log (set_log_dev dv);;
  recover_from_log.

Definition begin_op : M (lst D) unit := mret tt.

Fixpoint write_log_loop (k tail : nat) : M (lst D) unit :=
  match k with
  | O => mret tt
  | S k =>
      l ← gets lg;
      to ← io (bread (log_dev l) (u32 (log_start l + Z.of_nat tail + 1)));
      bn ← get_block tail;
      from ← io (bread (log_dev l) (u32 bn));
      io (copy_data to from);;
      io (bwrite to);;
      io (brelse from);;
      io (brelse to);;
      write_log_loop k (S tail)
  end.
Definition write_log : M (lst D) unit :=
  l ← gets lg; write_log_loop (Z.to_nat (lh_n l)) 0.

Definition commit : M (lst D) unit :=
  l ← gets lg;
  if lh_n l >? 0 then
    write_log;;
    write_head;;
    install_trans;;
    upd_log (set_lh_n 0);;
    write_head
  else mret tt.

Definition end_op : M (lst D) unit := commit.

(** The absorption search: the first [i < n] with [block[i] == blockno], or [n]. *)
Fixpoint log_search (k i : nat) (blockno : Z) : M (lst D) nat :=
  match k with
  | O => mret i
  | S k =>
      bn ← get_block i;
      if u32 bn =? blockno then mret i else log_search k (S i) blockno
  end.
Definition log_write (b : nat) : M (lst D) unit :=
  io (on_cpu pushcli);;
  l ← gets lg;
  if (lh_n l >=? LOGSIZE) || (lh_n l >=? log_size l - 1) then panic "too big a transaction" else
  bb ← io (get_buf b);
  i ← log_search (Z.to_nat (lh_n l)) 0 (b_blockno bb);
  put_block i (s32 (b_blockno bb));;
  (if Z.of_nat i =? lh_n l then upd_log (λ l, set_lh_n (s32 (lh_n l + 1)) l) else mret tt);;
  io (on_cpu popcli);;
  io (mod_buf b (λ b, set_b_flags (Z.lor (b_flags b) B_DIRTY) b)).
End log.
