(* ===== verification/LogDisk.v ===== *)
(** * The log on disk: recovery as a function of the platter

    What recovery makes of a disk, as a pure function, and why a transaction
    is atomic: whatever prefix of the commit's writes reaches the platter,
    and however often recovery itself is cut short, the blocks outside the
    log end up all old or all new. *)

From S2P Require Import Prelude Spinlock Ide Bio BioFacts Layout Log.

(** Contents of a disk by block number. *)
Definition disk : Type := Z → list Z.
Definition wr (d : disk) (b : Z) (x : list Z) : disk := λ k, if decide (k = b) then x else d k.

Lemma wr_eq d b x : wr d b x b = x.
Proof. unfold wr. by rewrite decide_True. Qed.
Lemma wr_ne d b x k : k ≠ b → wr d b x k = d k.
Proof. intros. unfold wr. by rewrite decide_False. Qed.

(** Sector writes in order. *)
Definition writes : Type := list (Z * list Z).
Definition replay (d : disk) (ws : writes) : disk := foldl (λ d w, wr d w.1 w.2) d ws.

Lemma replay_cons d w ws : replay d (w :: ws) = replay (wr d w.1 w.2) ws.
Proof. done. Qed.
Lemma replay_app d ws1 ws2 : replay d (ws1 ++ ws2) = replay (replay d ws1) ws2.
Proof. apply foldl_app. Qed.

Lemma wr_ext d d' b x k : (∀ k, d k = d' k) → wr d b x k = wr d' b x k.
Proof. intros H. unfold wr. by case_decide. Qed.
Lemma replay_ext ws d d' k : (∀ k, d k = d' k) → replay d ws k = replay d' ws k.
Proof.
  revert d d'. induction ws as [|w ws IH]; intros d d' H; [done|].
  rewrite !replay_cons. apply IH. intros k'. by apply wr_ext.
Qed.
Lemma replay_other ws d k : k ∉ ws.*1 → replay d ws k = d k.
Proof.
  revert d. induction ws as [|w ws IH]; intros d Hk; [done|]. rewrite replay_cons, IH by set_solver.
  apply wr_ne. set_solver.
Qed.

(** ** Copying blocks one after the other: pairs of destination and source *)
Definition copy_writes (V : disk) (ps : list (Z * Z)) : writes := (λ p, (p.1, V p.2)) <$> ps.

Lemma copy_writes_fst V ps : (copy_writes V ps).*1 = ps.*1.
Proof. unfold copy_writes. rewrite <- list_fmap_compose. done. Qed.

(** A block no copy writes is left alone; a destination gets its source. *)
Lemma replay_copy V ps d k b :
  NoDup ps.*1 → (k, b) ∈ ps → replay d (copy_writes V ps) k = V b.
Proof.
  revert d. induction ps as [|[k' b'] ps IH]; intros d Hnd Hin; [set_solver|].
  cbn [copy_writes fmap list_fmap fst snd] in *. rewrite replay_cons. cbn [fst snd].
  apply NoDup_cons in Hnd as [Hk Hnd]. apply elem_of_cons in Hin as [[= -> ->]|Hin].
  - fold (copy_writes V ps). rewrite replay_other by (by rewrite copy_writes_fst). apply wr_eq.
  - by apply IH.
Qed.

(** Replaying a full set of copies hides whatever the destinations held. *)
Lemma replay_copy_agree V ps d d' k :
  (∀ k, k ∉ ps.*1 → d k = d' k) → replay d (copy_writes V ps) k = replay d' (copy_writes V ps) k.
Proof.
  revert d d'. induction ps as [|[k' b'] ps IH]; intros d d' Heq; cbn [copy_writes fmap list_fmap fst snd].
  - apply Heq. set_solver.
  - rewrite !replay_cons. apply IH. intros j Hj. unfold wr. cbn [fst snd]. case_decide; [done|].
    apply Heq. cbn. set_solver.
Qed.

Lemma copy_writes_ext V V' ps : (∀ b, b ∈ ps.*2 → V b = V' b) → copy_writes V ps = copy_writes V' ps.
Proof.
  induction ps as [|[k b] ps IH]; intros H; [done|]. cbn [copy_writes fmap list_fmap fst snd].
  f_equal; [by rewrite H by (cbn; set_solver)|]. apply IH. intros. apply H. cbn. set_solver.
Qed.

(** ** The header block *)
Definition hdr_n (x : list Z) : Z := s32 (get_u32 0 x).
Definition hdr_blocks (x : list Z) : list Z :=
  (λ i, s32 (get_u32 (slot i) x)) <$> seq 0 (Z.to_nat (hdr_n x)).
Fixpoint enc_slots (i : nat) (bs : list Z) (x : list Z) : list Z :=
  match bs with
  | [] => x
  | b :: bs => enc_slots (S i) bs (put_u32 (slot i) b x)
  end.
Definition enc_head (bs : list Z) (x : list Z) : list Z :=
  enc_slots 0 bs (put_u32 0 (Z.of_nat (length bs)) x).

Lemma enc_slots_length i bs x :
  length x = 512%nat → (i + length bs ≤ 30)%nat → length (enc_slots i bs x) = 512%nat.
Proof.
  revert i x. induction bs as [|b bs IH]; intros i x Hx Hn; cbn [enc_slots length] in *; [done|].
  apply IH; [|lia]. unfold slot. put_len.
Qed.

Lemma enc_slots_other i bs x off :
  length x = 512%nat → (i + length bs ≤ 30)%nat → (off + 4 ≤ slot i)%nat →
  get_u32 off (enc_slots i bs x) = get_u32 off x.
Proof.
  revert i x. induction bs as [|b bs IH]; intros i x Hx Hn Ho; cbn [enc_slots length] in *; [done|].
  unfold slot in *. rewrite IH by put_len. apply get_put_u32_ne; lia.
Qed.

Lemma enc_slots_get i bs x j b :
  length x = 512%nat → (i + length bs ≤ 30)%nat → bs !! j = Some b →
  get_u32 (slot (i + j)) (enc_slots i bs x) = u32 b.
Proof.
  revert i x j. induction bs as [|b' bs IH]; intros i x j Hx Hn Hj; cbn [enc_slots length] in *; [done|].
  destruct j as [|j]; cbn in Hj; simplify_eq.
  - rewrite Nat.add_0_r, enc_slots_other by (unfold slot; put_len).
    apply get_put_u32. unfold slot. lia.
  - replace (i + S j)%nat with (S i + j)%nat by lia. apply IH; [unfold slot; put_len|lia|done].
Qed.

(** What [write_head] encodes is what [read_head] decodes. *)
Lemma hdr_roundtrip bs x :
  length x = 512%nat → (length bs ≤ 30)%nat → Forall (λ b, 0 ≤ b < FSSIZE) bs →
  hdr_n (enc_head bs x) = Z.of_nat (length bs) ∧ hdr_blocks (enc_head bs x) = bs ∧
  length (enc_head bs x) = 512%nat.
Proof.
  intros Hx Hn Hbs. unfold enc_head.
  assert (length (put_u32 0 (Z.of_nat (length bs)) x) = 512%nat) as Hl by put_len.
  assert (hdr_n (enc_slots 0 bs (put_u32 0 (Z.of_nat (length bs)) x)) = Z.of_nat (length bs)) as Hhn.
  { unfold hdr_n. rewrite enc_slots_other by (done || unfold slot; lia). rewrite get_put_u32 by lia.
    by rewrite s32_u32, s32_small by lia. }
  split_and!; [done| |by apply enc_slots_length].
  unfold hdr_blocks. rewrite Hhn, Nat2Z.id. apply list_eq. intros j. rewrite list_lookup_fmap.
  destruct (decide (j < length bs)%nat) as [Hj|Hj].
  - rewrite lookup_seq_lt by lia. destruct (lookup_lt_is_Some_2 bs j Hj) as [b Hb].
    cbn [fmap option_fmap option_map]. rewrite (enc_slots_get 0 bs _ j b), Hb, s32_u32 by done.
    rewrite Forall_lookup in Hbs. specialize (Hbs j b Hb). unfold FSSIZE in Hbs.
    by rewrite s32_small by lia.
  - rewrite lookup_seq_ge, (lookup_ge_None_2 bs) by lia. done.
Qed.
Lemma hdr_cleared x : length x = 512%nat →
  hdr_n (enc_head [] x) = 0 ∧ hdr_blocks (enc_head [] x) = [] ∧ length (enc_head [] x) = 512%nat.
Proof. intros Hx. by destruct (hdr_roundtrip [] x) as (? & ? & ?); [done|cbn; lia|done|]. Qed.

(** ** Recovery *)
Section recovery.
Context (LS : Z) (size : Z).

(** [log_block t]: where the [t]-th logged block is kept. *)
Definition log_block (t : nat) : Z := LS + Z.of_nat t + 1.
Definition installs (bs : list Z) : list (Z * Z) := zip bs (log_block <$> seq 0 (length bs)).
Definition logs (bs : list Z) : list (Z * Z) := zip (log_block <$> seq 0 (length bs)) bs.

(** The sector writes of recovery, and the disk it leaves. *)
Definition recovery_writes (d : disk) : writes :=
  copy_writes d (installs (hdr_blocks (d LS))) ++ [(LS, enc_head [] (d LS))].
Definition recover (d : disk) : disk := replay d (recovery_writes d).

(** The sector writes of a commit of [bs] when blocks read as [V]. *)
Definition commit_writes (V : disk) (bs : list Z) : writes :=
  copy_writes V (logs bs) ++ [(LS, enc_head bs (V LS))] ++
  copy_writes V (zip bs bs) ++ [(LS, enc_head [] (enc_head bs (V LS)))].

Definition home (b : Z) : Prop := b < LS ∨ LS + size ≤ b.
Definition blocks_ok (bs : list Z) : Prop :=
  NoDup bs ∧ Forall (λ b, 1 < b < FSSIZE ∧ home b) bs ∧ Z.of_nat (length bs) < size ∧
  (length bs ≤ 30)%nat.
Definition disk_ok (d : disk) : Prop := length (d LS) = 512%nat ∧ blocks_ok (hdr_blocks (d LS)).

Lemma installs_fst bs : (installs bs).*1 = bs.
Proof. unfold installs. apply fst_zip. by rewrite length_fmap, length_seq. Qed.
Lemma installs_snd bs : (installs bs).*2 = log_block <$> seq 0 (length bs).
Proof. unfold installs. apply snd_zip. by rewrite length_fmap, length_seq. Qed.
Lemma logs_fst bs : (logs bs).*1 = log_block <$> seq 0 (length bs).
Proof. unfold logs. apply fst_zip. by rewrite length_fmap, length_seq. Qed.
Lemma log_block_nodup n : NoDup (log_block <$> seq 0 n).
Proof.
  apply NoDup_fmap_2; [|apply NoDup_seq]. intros t t'. unfold log_block. lia.
Qed.
Lemma log_block_range (bs : list Z) b :
  b ∈ log_block <$> seq 0 (length bs) → LS < b ≤ LS + Z.of_nat (length bs).
Proof.
  intros (t & -> & Ht)%list_elem_of_fmap. apply elem_of_seq in Ht. unfold log_block. lia.
Qed.
Lemma log_block_home bs b :
  blocks_ok bs → b ∈ log_block <$> seq 0 (length bs) → ¬ home b ∧ b ≠ LS.
Proof. intros (_ & _ & Hs & _) Hb%log_block_range. unfold home. lia. Qed.
Lemma blocks_home bs b : blocks_ok bs → b ∈ bs → home b.
Proof. intros (_ & Hb & _) Hin. rewrite Forall_forall in Hb. by apply Hb. Qed.
Lemma home_ne_LS b : 0 < size → home b → b ≠ LS.
Proof. unfold home. lia. Qed.

Lemma recover_home d b : 0 < size → disk_ok d → home b →
  recover d b = replay d (copy_writes d (installs (hdr_blocks (d LS)))) b.
Proof.
  intros Hs Hok Hb. unfold recover, recovery_writes. rewrite replay_app. cbn [replay foldl fst snd].
  apply wr_ne. by apply home_ne_LS.
Qed.

(** A recovery cut short after [k] writes leaves the same recovered contents. *)
Lemma recover_crash d k b : 0 < size → disk_ok d → home b →
  let d' := replay d (take k (recovery_writes d)) in
  disk_ok d' ∧ recover d' b = recover d b.
Proof.
  intros Hs Hok Hb d'. set (bs := hdr_blocks (d LS)) in *. pose proof Hok as [Hlen Hbs]. fold bs in Hbs.
  assert (LS ∉ bs) as HLS by (intros Hin; apply (home_ne_LS LS Hs); [by eapply blocks_home|done]).
  unfold d', recovery_writes. fold bs.
  destruct (decide (k ≤ length bs)%nat) as [Hk|Hk].
  - set (n := length (copy_writes d (installs bs))).
    assert (n = length bs) as Hn.
    { unfold n, copy_writes. rewrite length_fmap, <- (length_fmap fst), installs_fst. done. }
    rewrite take_app_le by (fold n; lia).
    assert (take k (copy_writes d (installs bs)) = copy_writes d (take k (installs bs))) as ->.
    { unfold copy_writes. by rewrite fmap_take. }
    set (d1 := replay d _).
    assert (∀ j, j ∉ bs → d1 j = d j) as Hout.
    { intros j Hj. apply replay_other. rewrite copy_writes_fst. intros Hin. apply Hj.
      rewrite <- (installs_fst bs). rewrite fmap_take in Hin. by eapply elem_of_take in Hin as (?&?%list_elem_of_lookup_2&_). }
    assert (d1 LS = d LS) as HdLS by by apply Hout.
    assert (disk_ok d1) as Hok1 by (unfold disk_ok; by rewrite HdLS).
    split; [done|]. rewrite !recover_home by done. rewrite HdLS. fold bs.
    rewrite (copy_writes_ext d1 d).
    + apply replay_copy_agree. rewrite installs_fst. done.
    + rewrite installs_snd. intros j Hj. apply Hout. intros Hin.
      destruct (log_block_home bs j Hbs Hj) as [Hnh _]. apply Hnh. by eapply blocks_home.
  - rewrite take_ge.
    2: { rewrite length_app. unfold copy_writes. rewrite length_fmap, <- (length_fmap fst), installs_fst.
         cbn. lia. }
    fold bs. change (replay d (copy_writes d (installs bs) ++ [(LS, enc_head [] (d LS))])) with (recover d).
    assert (recover d LS = enc_head [] (d LS)) as HLS'.
    { unfold recover, recovery_writes. rewrite replay_app. cbn. apply wr_eq. }
    destruct (hdr_cleared (d LS) Hlen) as (_ & Hnil & Hl).
    assert (disk_ok (recover d)) as Hok'.
    { unfold disk_ok. rewrite HLS', Hnil. split; [done|]. split_and!; [apply NoDup_nil_2|done|cbn; lia|cbn; lia]. }
    split; [done|]. rewrite recover_home by done. by rewrite HLS', Hnil.
Qed.

(** ** The superblock

    It is outside the log and no logged block is written to it, so a power
    failure leaves it as it was and the next boot finds the same log. *)
Lemma blocks_not_sb bs : blocks_ok bs → 1 ∉ bs.
Proof. intros (_ & HF & _) Hin. rewrite Forall_forall in HF. destruct (HF 1 Hin). lia. Qed.
Lemma superblock_kept d ws k : 1 ∉ ws.*1 → replay d (take k ws) 1 = d 1.
Proof. intros Hw. apply replay_other. rewrite fmap_take. by intros ?%subseteq_take. Qed.

Lemma superblock_recovery d k : 1 < LS → disk_ok d → replay d (take k (recovery_writes d)) 1 = d 1.
Proof.
  intros HLS [_ Hbs]. apply superblock_kept. unfold recovery_writes. rewrite fmap_app, copy_writes_fst, installs_fst. cbn.
  intros [Hin|?%list_elem_of_singleton]%elem_of_app; [by eapply blocks_not_sb|lia].
Qed.

(** Disks with the same blocks are recovered alike. *)
Lemma recover_ext d d' b : (∀ k, d k = d' k) → recover d b = recover d' b.
Proof.
  intros H. unfold recover, recovery_writes. rewrite (copy_writes_ext d d') by done.
  rewrite H. by apply replay_ext.
Qed.

(** ** Atomicity of a commit

    [d] is the platter and [V] the blocks as the file system sees them; they
    differ on the logged blocks [bs] only, and the on-disk log is clear. *)
Section commit_crash.
Context (d V : disk) (bs : list Z).
Hypothesis Hs : 0 < size.
Hypothesis Hbs : blocks_ok bs.
Hypothesis Hlen : length (d LS) = 512%nat.
Hypothesis Hclear : hdr_n (d LS) = 0.
Hypothesis Hsame : ∀ b, b ∉ bs → V b = d b.

Lemma LS_not_logged : LS ∉ bs.
Proof. intros Hin. apply (home_ne_LS LS Hs); [by eapply blocks_home|done]. Qed.

Lemma length_logs : length (copy_writes V (logs bs)) = length bs.
Proof.
  unfold copy_writes. rewrite length_fmap, <- (length_fmap fst), logs_fst.
  by rewrite length_fmap, length_seq.
Qed.

(** Before the header is written nothing has happened. *)
Lemma crash_before k b : home b → (k ≤ length bs)%nat →
  let d' := replay d (take k (commit_writes V bs)) in
  disk_ok d' ∧ recover d' b = d b.
Proof.
  intros Hb Hk d'. unfold d', commit_writes. rewrite take_app_le by (rewrite length_logs; lia).
  replace (take k (copy_writes V (logs bs))) with (copy_writes V (take k (logs bs)))
    by (unfold copy_writes; by rewrite fmap_take).
  set (d1 := replay d _).
  assert (∀ j, home j ∨ j = LS → d1 j = d j) as Hout.
  { intros j Hj. apply replay_other. rewrite copy_writes_fst, fmap_take, logs_fst. intros Hin.
    apply elem_of_take in Hin as (i & Hin%list_elem_of_lookup_2 & _).
    destruct (log_block_home bs j Hbs Hin). naive_solver. }
  assert (hdr_blocks (d1 LS) = []) as Hnil.
  { unfold hdr_blocks. by rewrite Hout, Hclear by auto. }
  assert (disk_ok d1) as Hok.
  { unfold disk_ok. rewrite Hnil, Hout by auto. split; [done|].
    split_and!; [apply NoDup_nil_2|done|cbn; lia|cbn; lia]. }
  split; [done|]. rewrite recover_home, Hnil by done. cbn. by apply Hout; left.
Qed.

(** Once the header is on disk, recovery completes the transaction. *)
Lemma crash_after k b : home b → (length bs < k)%nat →
  let d' := replay d (take k (commit_writes V bs)) in
  disk_ok d' ∧ recover d' b = V b.
Proof.
  intros Hb Hk d'. unfold d', commit_writes. pose proof LS_not_logged as HLS.
  assert (length (V LS) = 512%nat) as HVlen by by rewrite Hsame.
  assert (Forall (λ b, 0 ≤ b < FSSIZE) bs) as Hrng.
  { destruct Hbs as (_ & HF & _). eapply Forall_impl; [exact HF|]. cbn. lia. }
  destruct (hdr_roundtrip bs (V LS) HVlen ltac:(apply Hbs) Hrng) as (_ & Hdec & Hl1).
  destruct (hdr_cleared (enc_head bs (V LS)) Hl1) as (_ & Hdec0 & Hl2).
  rewrite take_app_ge by (rewrite length_logs; lia). rewrite length_logs, replay_app.
  set (dl := replay d (copy_writes V (logs bs))).
  assert (∀ j, home j → dl j = d j) as Hdl.
  { intros j Hj. apply replay_other. rewrite copy_writes_fst, logs_fst. intros Hin.
    by destruct (log_block_home bs j Hbs Hin). }
  destruct (k - length bs)%nat as [|k'] eqn:Hk'; [lia|]. cbn [app take]. rewrite replay_cons. cbn [fst snd].
  set (dh := wr dl LS (enc_head bs (V LS))).
  assert (length (copy_writes V (zip bs bs)) = length bs) as Hzl.
  { unfold copy_writes. rewrite length_fmap, length_zip_with. lia. }
  assert ((copy_writes V (zip bs bs)).*1 = bs) as Hzf.
  { by rewrite copy_writes_fst, fst_zip by lia. }
  assert (∀ j, home j → j ∉ bs → dh j = V j) as Hdh.
  { intros j Hj Hn. unfold dh. rewrite wr_ne by (by apply home_ne_LS). by rewrite Hdl, Hsame. }
  destruct (decide (k' ≤ length bs)%nat) as [Hle|Hgt].
  - rewrite take_app_le by lia.
    replace (take k' (copy_writes V (zip bs bs))) with (copy_writes V (take k' (zip bs bs)))
      by (unfold copy_writes; by rewrite fmap_take).
    set (d1 := replay dh _).
    assert (∀ j, j ∉ bs → d1 j = dh j) as Hout.
    { intros j Hj. apply replay_other. rewrite copy_writes_fst, fmap_take, fst_zip by lia. intros Hin.
      apply elem_of_take in Hin as (i & Hin%list_elem_of_lookup_2 & _). done. }
    assert (d1 LS = enc_head bs (V LS)) as HdLS by (rewrite Hout by done; apply wr_eq).
    assert (disk_ok d1) as Hok by (unfold disk_ok; by rewrite HdLS, Hdec).
    split; [done|]. rewrite recover_home by done. rewrite HdLS, Hdec.
    destruct (decide (b ∈ bs)) as [Hin|Hin].
    + apply list_elem_of_lookup in Hin as [t Ht].
      assert (t < length bs)%nat as Htl by (by eapply lookup_lt_Some).
      assert ((b, log_block t) ∈ installs bs) as Hi.
      { apply list_elem_of_lookup. exists t. unfold installs. rewrite lookup_zip_with, Ht. cbn.
        rewrite list_lookup_fmap, lookup_seq_lt by done. done. }
      rewrite (replay_copy _ _ _ _ (log_block t)); [|rewrite installs_fst; apply Hbs|done].
      assert (log_block t ∈ log_block <$> seq 0 (length bs)) as Hlb.
      { apply list_elem_of_fmap. exists t. split; [done|]. apply elem_of_seq. lia. }
      destruct (log_block_home bs _ Hbs Hlb) as [Hnh Hne].
      rewrite Hout by (intros ?; apply Hnh; by eapply blocks_home).
      unfold dh. rewrite wr_ne by done. unfold dl.
      apply replay_copy; [rewrite logs_fst; apply log_block_nodup|].
      apply list_elem_of_lookup. exists t. unfold logs. rewrite lookup_zip_with, Ht.
      rewrite list_lookup_fmap, lookup_seq_lt by done. done.
    + rewrite replay_other by (by rewrite copy_writes_fst, installs_fst).
      rewrite Hout by done. by apply Hdh.
  - rewrite take_ge by (rewrite length_app, Hzl; cbn; lia). rewrite replay_app.
    set (d1 := replay dh _). cbn [replay foldl fst snd].
    assert (disk_ok (wr d1 LS (enc_head [] (enc_head bs (V LS))))) as Hok.
    { unfold disk_ok. rewrite wr_eq, Hdec0. split; [done|].
      split_and!; [apply NoDup_nil_2|done|cbn; lia|cbn; lia]. }
    split; [done|]. rewrite recover_home by done. rewrite wr_eq, Hdec0. cbn.
    rewrite wr_ne by (by apply home_ne_LS). unfold d1.
    destruct (decide (b ∈ bs)) as [Hin|Hin].
    + apply replay_copy; [rewrite fst_zip by lia; apply Hbs|].
      apply list_elem_of_lookup in Hin as [t Ht]. apply list_elem_of_lookup. exists t.
      by rewrite lookup_zip_with, Ht.
    + rewrite replay_other by (by rewrite Hzf). by apply Hdh.
Qed.

Lemma superblock_commit k : 1 < LS → replay d (take k (commit_writes V bs)) 1 = d 1.
Proof.
  intros HLS. pose proof (blocks_not_sb bs Hbs) as H1. apply superblock_kept. unfold commit_writes.
  rewrite !fmap_app, !copy_writes_fst, logs_fst, fst_zip by lia. cbn.
  rewrite elem_of_app, elem_of_cons, elem_of_app, list_elem_of_singleton.
  intros [Hin%log_block_range|[Hin|[Hin|Hin]]]; [clear -HLS Hin; lia|clear -HLS Hin; lia|done|clear -HLS Hin; lia].
Qed.

(** The whole commit: the platter agrees with the view on every block. *)
Lemma commit_done b : home b → replay d (commit_writes V bs) b = V b.
Proof.
  intros Hb. unfold commit_writes. rewrite !replay_app. cbn [replay foldl fst snd].
  rewrite wr_ne by (by apply home_ne_LS). fold (replay (replay d (copy_writes V (logs bs))) [(LS, enc_head bs (V LS))]).
  destruct (decide (b ∈ bs)) as [Hin|Hin].
  - apply replay_copy; [rewrite fst_zip by lia; apply Hbs|].
    apply list_elem_of_lookup in Hin as [t Ht]. apply list_elem_of_lookup. exists t.
    by rewrite lookup_zip_with, Ht.
  - rewrite replay_other by (by rewrite copy_writes_fst, fst_zip by lia). cbn.
    rewrite wr_ne by (by apply home_ne_LS). rewrite replay_other; [by rewrite Hsame|].
    rewrite copy_writes_fst, logs_fst. intros Hin'. by destruct (log_block_home bs b Hbs Hin').
Qed.
End commit_crash.
End recovery.
