(* ===== verification/LogFacts.v ===== *)
(** * log.c: transactions over the buffer cache

    The log invariant, the specification of every routine of log.c, and the
    refinement of commit and recovery to the pure disk functions of
    LogDisk.v. *)

From S2P Require Import Prelude Spinlock Ide Bio BioFacts Layout Log LogDisk.

Definition on_root (ws : writes) : list (Z * Z * list Z) := (λ w, (ROOTDEV, w.1, w.2)) <$> ws.

Lemma on_root_app ws ws' : on_root (ws ++ ws') = on_root ws ++ on_root ws'.
Proof. apply fmap_app. Qed.

Section facts.
Context {D : Type} {dev : IdeDevice D} {dok : IdeDeviceOk D}.
Implicit Types s : lst D.
Implicit Types c : ide D.

Definition platter c : disk := media (hw c) ROOTDEV.

(** [io_step c c' H ws V]: the sectors [ws] were written, in this order; the
    blocks now read as [V]; the handles [H] stand for the same blocks. *)
Record io_step c c' (H : list nat) (ws : writes) (V : disk) : Prop := {
  is_view k : view c' k = V k;
  is_media k : platter c' k = replay (platter c) ws k;
  is_wrote : wrote c' = wrote c ++ on_root ws;
  is_holds j k : j ∈ H → holds c j k → holds c' j k;
}.

Lemma same_io_step c c' H : same_io c c' H → io_step c c' H [] (view c).
Proof.
  intros []. constructor; [done| |by rewrite app_nil_r|done]. intros k. apply si_media.
Qed.

Lemma io_step_refl c H : io_step c c H [] (view c).
Proof. apply same_io_step, same_io_refl. Qed.

Lemma io_step_trans c1 c2 c3 H ws1 ws2 V1 V2 :
  io_step c1 c2 H ws1 V1 → io_step c2 c3 H ws2 V2 → io_step c1 c3 H (ws1 ++ ws2) V2.
Proof.
  intros [_ M1 W1 H1] [V2' M2 W2 H2]. constructor; [done| | |eauto].
  - intros k. rewrite M2, replay_app. by apply replay_ext.
  - by rewrite W2, W1, on_root_app, app_assoc.
Qed.

(** An [io_step] that reads the same up to pointwise equality. *)
Lemma io_step_view c c' H ws V V' :
  io_step c c' H ws V → (∀ k, V k = V' k) → io_step c c' H ws V'.
Proof. intros [Hv ? ? ?] HV. constructor; try done. intros k. by rewrite Hv, HV. Qed.

Lemma io_step_holds_sub c c' H H' ws V : H' ⊆ H → io_step c c' H ws V → io_step c c' H' ws V.
Proof. intros Hsub []. constructor; eauto. Qed.

Lemma wp_io {A} E (m : M (ide D) A) (Q : A → lst D → Prop) s :
  wp E m (λ a c, Q a (set_lio c s)) (lio s) → wp E (io m) Q s.
Proof. apply wp_zoom. Qed.

(** A block that is not dirty reads as on the platter. *)
Lemma view_clean c H L k : bio_inv c H L → k ∉ L → view c k = platter c k.
Proof.
  intros Hinv Hk. eapply view_intro; [done| |done]. intros i b Hi Hb Hv <-.
  destruct (bi_buf _ _ _ Hinv i b Hi Hb) as [_ _ Hd _ _ Hcl _].
  apply Hcl; [done|]. destruct (is_dirty b) eqn:Hdb; [|done]. exfalso. by apply Hk, Hd.
Qed.

(** The common tail of [write_log] and [install_trans]. *)
Lemma wp_copy_release E i j bd bs H L (k : M (lst D) unit) Q s :
  bio_inv (lio s) (i :: j :: H) L → holds (lio s) i bd → holds (lio s) j bs → (length H < 900)%nat →
  (∀ c, bio_inv c H (filter (λ k, k ≠ bd) L) →
     io_step (lio s) c H [(bd, view (lio s) bs)] (wr (view (lio s)) bd (view (lio s) bs)) →
     wp E k Q (set_lio c s)) →
  wp E (io (copy_data i j);; io (bwrite i);; io (brelse j);; io (brelse i);; k) Q s.
Proof.
  intros Hinv Hi Hj HH HQ. pose proof (length_view _ _ _ bs Hinv) as Hlb.
  pose proof (length_view _ _ _ bd Hinv) as Hld. pose proof Hj as (_ & b & Hb & _).
  apply wp_bind, wp_io. unfold copy_data. apply wp_bind. eapply wp_get_buf; [done|].
  rewrite (holds_view _ _ _ _ _ _ Hinv Hj Hb).
  eapply wp_mod_data; [done..|].
  replace (splice 0 _ _) with (view (lio s) bs).
  2: { unfold splice. change (Z.to_nat BSIZE) with 512%nat. rewrite take_0, take_ge, drop_ge by lia.
       by rewrite app_nil_r. }
  apply wp_bind, wp_io. eapply wp_bwrite; [done|done|set_solver|done|].
  intros c1 Hinv1 [Hv1 Hh1] Hm1 Hw1. cbn [lio set_lio].
  apply wp_bind, wp_io. eapply wp_brelse; [cbn [lio set_lio]; by rewrite Permutation_swap in Hinv1|cbn; lia|].
  intros c2 Hinv2 Hio2 _. cbn [lio set_lio] in *.
  apply wp_bind, wp_io. eapply wp_brelse; [cbn [lio set_lio]; done|lia|].
  intros c3 Hinv3 Hio3 _. cbn [lio set_lio] in *.
  apply HQ; [done|]. destruct Hio2 as [V2 M2 W2 H2], Hio3 as [V3 M3 W3 H3]. constructor.
  - intros k'. rewrite V3, V2, Hv1. done.
  - intros k'. unfold platter. rewrite M3, M2, Hm1. cbn. unfold upd_media, wr. cbn.
    destruct (Z.eqb_spec k' bd), (decide (k' = bd)); done.
  - by rewrite W3, W2, Hw1.
  - intros j' k' Hj' Hh'. apply H3; [done|]. apply H2; [set_solver|]. apply Hh1; [set_solver|done].
Qed.

(** The geometry of the log and its in-memory header. *)
Record log_geom (l : log) : Prop := {
  lgm_dev : log_dev l = ROOTDEV;
  lgm_start : 1 < log_start l;
  lgm_end : log_start l + log_size l ≤ FSSIZE;
  lgm_size : 0 < log_size l ≤ LOGSIZE;
  lgm_len : length (lh_block l) = 30%nat;
}.

(** [lh_holds l bs]: the header lists [bs]. *)
Definition lh_holds (l : log) (bs : list Z) : Prop :=
  lh_n l = Z.of_nat (length bs) ∧ take (length bs) (lh_block l) = bs.

Lemma lh_holds_lookup l bs t b : lh_holds l bs → bs !! t = Some b → lh_block l !! t = Some b.
Proof.
  intros [_ Ht] Hb. rewrite <- Ht in Hb. apply lookup_take_Some in Hb. naive_solver.
Qed.

Record log_inv s (H : list nat) (L : list Z) : Prop := {
  li_bio : bio_inv (lio s) H L;
  li_geom : log_geom (lg s);
  li_head : lh_holds (lg s) L;
  li_blocks : blocks_ok (log_start (lg s)) (log_size (lg s)) L;
  li_clear : hdr_n (platter (lio s) (log_start (lg s))) = 0;
}.

(** ** The two copying loops *)
Lemma dirty_cached c H L b : bio_inv c H L → b ∈ L → cached c b.
Proof.
  intros Hinv Hb. destruct (bi_dirty _ _ _ Hinv b Hb) as (i & x & Hi & Hx & Hd & Hk).
  exists i, x. split_and!; try done. eapply inv_dev; [done..|].
  by destruct (bo_dirty _ _ _ _ _ (bi_buf _ _ _ Hinv i x Hi Hx) Hd).
Qed.

(** The copies still to do from position [t] on. *)
Definition logs_from LS (t : nat) (bs : list Z) := zip (log_block LS <$> seq t (length bs)) bs.
Definition installs_from LS (t : nat) (bs : list Z) := zip bs (log_block LS <$> seq t (length bs)).

Lemma log_block_u32 l t : log_geom l → (Z.of_nat t + 1 < log_size l) →
  u32 (log_start l + Z.of_nat t + 1) = log_block (log_start l) t ∧
  0 ≤ log_block (log_start l) t < FSSIZE ∧ ¬ home (log_start l) (log_size l) (log_block (log_start l) t).
Proof.
  intros [] Ht. unfold log_block, home, FSSIZE in *. rewrite u32_small by lia. lia.
Qed.

Lemma filter_away (P : Z → Prop) `{∀ x, Decision (P x)} (l : list Z) :
  (∀ x, x ∈ l → P x) → filter P l = l.
Proof.
  induction l as [|x l IH]; intros HP; [done|]. rewrite filter_cons, decide_True by (apply HP; set_solver).
  f_equal. apply IH. set_solver.
Qed.

Lemma logs_from_src LS t bs k :
  k ∈ (logs_from LS t bs).*2 → k ∈ bs.
Proof. unfold logs_from. rewrite snd_zip by (rewrite length_fmap, length_seq; lia). done. Qed.
Lemma installs_from_src LS t bs k :
  k ∈ (installs_from LS t bs).*2 → ∃ t', (t ≤ t' < t + length bs)%nat ∧ k = log_block LS t'.
Proof.
  unfold installs_from. rewrite snd_zip by (rewrite length_fmap, length_seq; lia).
  intros (t' & -> & Ht')%list_elem_of_fmap. apply elem_of_seq in Ht'. eauto.
Qed.

(** One copy, then the others. *)
Lemma io_step_copies c1 c2 c3 H V d b ps :
  (∀ k, view c1 k = V k) → d ∉ ps.*2 →
  io_step c1 c2 H [(d, V b)] (wr (view c1) d (view c1 b)) →
  io_step c2 c3 H (copy_writes (view c2) ps) (replay (view c2) (copy_writes (view c2) ps)) →
  io_step c1 c3 H (copy_writes V ((d, b) :: ps)) (replay V (copy_writes V ((d, b) :: ps))).
Proof.
  intros HV Hd H1 H2.
  assert (∀ k, view c2 k = wr V d (V b) k) as HV2.
  { intros k. rewrite (is_view _ _ _ _ _ H1), HV. by apply wr_ext. }
  assert (copy_writes (view c2) ps = copy_writes V ps) as Heq.
  { apply copy_writes_ext. intros k Hk. rewrite HV2. apply wr_ne. congruence. }
  rewrite Heq in H2. cbn [copy_writes fmap list_fmap fst snd]. rewrite replay_cons. cbn [fst snd].
  eapply io_step_view; [exact (io_step_trans _ _ _ _ _ _ _ _ H1 H2)|].
  intros k. by apply replay_ext.
Qed.

Lemma wp_write_log_loop E todo t H L (Q : unit → lst D → Prop) s :
  bio_inv (lio s) H L → log_geom (lg s) →
  (∀ j b, todo !! j = Some b → lh_block (lg s) !! (t + j)%nat = Some b) →
  Z.of_nat (t + length todo) < log_size (lg s) →
  (∀ b, b ∈ todo → b ∈ L ∧ 0 ≤ b < FSSIZE) →
  (∀ b, b ∈ L → home (log_start (lg s)) (log_size (lg s)) b) →
  (length H + length L < NBUF)%nat →
  (∀ c, bio_inv c H L →
     (let ws := copy_writes (view (lio s)) (logs_from (log_start (lg s)) t todo) in
      io_step (lio s) c H ws (replay (view (lio s)) ws)) →
     Q tt (set_lio c s)) →
  wp E (write_log_loop (length todo) t) Q s.
Proof.
  revert t s. induction todo as [|b todo IH]; intros t s Hinv Hg Hlk Ht Hin Hhome Hfree HQ;
    cbn [length write_log_loop].
  - apply wp_ret. specialize (HQ (lio s) Hinv (io_step_refl _ _)). by destruct s.
  - cbn [length] in Ht. destruct (log_block_u32 (lg s) t Hg) as (Hu & Hr & Hnh); [lia|].
    destruct (Hin b) as [HbL Hbr]; [set_solver|].
    apply wp_bind, wp_gets. rewrite (lgm_dev _ Hg), Hu.
    apply wp_bind, wp_io. eapply wp_bread; [done|done|unfold NBUF in *; lia|by auto|].
    intros i c1 Hinv1 Hh1 Hio1. apply wp_bind. eapply wp_getopt.
    { cbn [lg set_lio]. rewrite <- (Nat.add_0_r t). by apply Hlk. }
    rewrite u32_small by (unfold FSSIZE in *; lia).
    apply wp_bind, wp_io. cbn [lio set_lio].
    eapply wp_bread; [done|done|cbn [length]; unfold NBUF in *; lia|left; by eapply dirty_cached|].
    intros j c2 Hinv2 Hh2 Hio2. rewrite (Permutation_swap i j) in Hinv2.
    eapply (wp_copy_release _ i j (log_block (log_start (lg s)) t) b H L); cbn [lio set_lio]; [done| |done|unfold NBUF in *; lia|].
    { apply (si_holds _ _ _ Hio2); [set_solver|done]. }
    intros c3 Hinv3 Hstep. rewrite filter_away in Hinv3.
    2: { intros k Hk ->. by apply Hnh, Hhome. }
    assert (∀ k, view c2 k = view (lio s) k) as HV.
    { intros k. by rewrite (si_view _ _ _ Hio2), (si_view _ _ _ Hio1). }
    assert (io_step (lio s) c2 H [] (view (lio s))) as Hpre.
    { apply same_io_step. eapply same_io_trans; [done|].
      destruct Hio2. constructor; try done. set_solver. }
    apply (IH (S t) (set_lio c3 s)); cbn [lio lg set_lio]; [done..| | | | | |].
    + intros j' b' Hj'. replace (S t + j')%nat with (t + S j')%nat by lia. by apply Hlk.
    + lia.
    + set_solver.
    + done.
    + done.
    + intros c4 Hinv4 Hstep4. apply HQ; [done|]. cbn zeta in *.
      change (set_lio c4 (set_lio c3 s)) with (set_lio c4 s).
      assert (io_step c2 c4 H (copy_writes (view (lio s)) (logs_from (log_start (lg s)) t (b :: todo)))
        (replay (view (lio s)) (copy_writes (view (lio s)) (logs_from (log_start (lg s)) t (b :: todo))))) as Hall.
      { unfold logs_from. cbn [length seq fmap list_fmap zip_with].
        eapply io_step_copies; [done| | |exact Hstep4].
        - intros Hin'%logs_from_src. apply Hnh, Hhome. by apply Hin; set_solver.
        - by rewrite <- HV. }
      exact (io_step_trans _ _ _ _ _ _ _ _ Hpre Hall).
Qed.

Lemma length_filter_ne (b : Z) (L : list Z) :
  (length (filter (λ k, k ≠ b) L) ≤ length L)%nat ∧
  (b ∈ L → (length (filter (λ k, k ≠ b) L) < length L)%nat).
Proof.
  induction L as [|x L [IH1 IH2]]; [split; [done|set_solver]|]. rewrite filter_cons.
  case_decide; cbn [length]; [|split; [lia|intros; lia]].
  split; [lia|]. intros [->|Hb]%elem_of_cons; [done|]. specialize (IH2 Hb). lia.
Qed.

Lemma filter_filter_ne (b : Z) (bs L : list Z) :
  filter (λ k, k ∉ bs) (filter (λ k, k ≠ b) L) = filter (λ k, k ∉ b :: bs) L.
Proof.
  induction L as [|x L IH]; [done|]. rewrite !filter_cons. rewrite <- IH.
  destruct (decide (x ≠ b)) as [Hx|Hx].
  - rewrite filter_cons. destruct (decide (x ∉ bs)), (decide (x ∉ b :: bs)); set_solver.
  - rewrite decide_False by set_solver. done.
Qed.

Lemma wp_install_loop E todo t H L (Q : unit → lst D → Prop) s :
  bio_inv (lio s) H L → log_geom (lg s) →
  (∀ j b, todo !! j = Some b → lh_block (lg s) !! (t + j)%nat = Some b) →
  Z.of_nat (t + length todo) < log_size (lg s) →
  (∀ b, b ∈ todo → 0 ≤ b < FSSIZE ∧ home (log_start (lg s)) (log_size (lg s)) b) →
  (length H + length L < NBUF)%nat →
  ((∀ b, head todo = Some b → b ∈ L) ∨ (length H + length L + 1 < NBUF)%nat) →
  (∀ c, bio_inv c H (filter (λ k, k ∉ todo) L) →
     (let ws := copy_writes (view (lio s)) (installs_from (log_start (lg s)) t todo) in
      io_step (lio s) c H ws (replay (view (lio s)) ws)) →
     Q tt (set_lio c s)) →
  wp E (install_loop (length todo) t) Q s.
Proof.
  revert t s L. induction todo as [|b todo IH]; intros t s L Hinv Hg Hlk Ht Hin Hfree Hfree2 HQ;
    cbn [length install_loop].
  - apply wp_ret. specialize (HQ (lio s)). rewrite filter_away in HQ by set_solver.
    specialize (HQ Hinv (io_step_refl _ _)). by destruct s.
  - cbn [length] in Ht. destruct (log_block_u32 (lg s) t Hg) as (Hu & Hr & Hnh); [lia|].
    destruct (Hin b) as [Hbr Hbh]; [set_solver|].
    apply wp_bind, wp_gets. rewrite (lgm_dev _ Hg), Hu.
    apply wp_bind, wp_io. eapply wp_bread; [done|done|unfold NBUF in *; lia|by auto|].
    intros j c1 Hinv1 Hh1 Hio1. apply wp_bind. eapply wp_getopt.
    { cbn [lg set_lio]. rewrite <- (Nat.add_0_r t). by apply Hlk. }
    rewrite u32_small by (unfold FSSIZE in *; lia).
    apply wp_bind, wp_io. cbn [lio set_lio].
    eapply wp_bread; [done|done|cbn [length]; unfold NBUF in *; lia| |].
    { destruct Hfree2 as [HbL|?]; [left; eapply dirty_cached; [done|by apply HbL]|].
      right; left. cbn [length]. lia. }
    intros i c2 Hinv2 Hh2 Hio2.
    eapply (wp_copy_release _ i j b (log_block (log_start (lg s)) t) H L); cbn [lio set_lio]; [done|done| |unfold NBUF in *; lia|].
    { apply (si_holds _ _ _ Hio2); [set_solver|done]. }
    intros c3 Hinv3 Hstep.
    assert (∀ k, view c2 k = view (lio s) k) as HV.
    { intros k. by rewrite (si_view _ _ _ Hio2), (si_view _ _ _ Hio1). }
    assert (io_step (lio s) c2 H [] (view (lio s))) as Hpre.
    { apply same_io_step. eapply same_io_trans; [done|].
      destruct Hio2. constructor; try done. set_solver. }
    destruct (length_filter_ne b L) as [Hl1 Hl2].
    apply (IH (S t) (set_lio c3 s) (filter (λ k, k ≠ b) L)); cbn [lio lg set_lio]; [done..| | | | | |].
    + intros j' b' Hj'. replace (S t + j')%nat with (t + S j')%nat by lia. by apply Hlk.
    + lia.
    + set_solver.
    + lia.
    + right. destruct Hfree2 as [HbL|?]; [|lia]. specialize (Hl2 (HbL b eq_refl)). lia.
    + intros c4 Hinv4 Hstep4. rewrite filter_filter_ne in Hinv4. apply HQ; [done|]. cbn zeta in *.
      change (set_lio c4 (set_lio c3 s)) with (set_lio c4 s).
      assert (io_step c2 c4 H (copy_writes (view (lio s)) (installs_from (log_start (lg s)) t (b :: todo)))
        (replay (view (lio s)) (copy_writes (view (lio s)) (installs_from (log_start (lg s)) t (b :: todo))))) as Hall.
      { unfold installs_from. cbn [length seq fmap list_fmap zip_with].
        eapply io_step_copies; [done| | |exact Hstep4].
        - intros (t' & Ht' & ->)%installs_from_src. destruct (log_block_u32 (lg s) t' Hg) as (_ & _ & Hn); [lia|].
          done.
        - by rewrite <- HV. }
      exact (io_step_trans _ _ _ _ _ _ _ _ Hpre Hall).
Qed.

(** ** The header block *)
Lemma wp_write_head_loop E todo t c i b x (Q : unit → lst D → Prop) s :
  bufs c !! i = Some b → lio s = with_data c i x →
  (∀ j b, todo !! j = Some b → lh_block (lg s) !! (t + j)%nat = Some b) →
  Q tt (set_lio (with_data c i (enc_slots t todo x)) s) →
  wp E (write_head_loop (length todo) t i) Q s.
Proof.
  revert t x s. induction todo as [|bn todo IH]; intros t x s Hb Hs Hlk HQ;
    cbn [length write_head_loop enc_slots] in *.
  - apply wp_ret. rewrite <- Hs in HQ. by destruct s.
  - apply wp_bind. eapply wp_getopt; [rewrite <- (Nat.add_0_r t); by apply Hlk|].
    apply wp_bind, wp_io. rewrite Hs. eapply wp_mod_data_again; [done|].
    eapply (IH (S t)); [done|done| |done].
    intros j b' Hj. replace (S t + j)%nat with (t + S j)%nat by lia. by apply Hlk.
Qed.

Lemma wp_write_head E bs H L (Q : unit → lst D → Prop) s :
  bio_inv (lio s) H L → log_geom (lg s) → lh_holds (lg s) bs → (length bs ≤ 30)%nat →
  log_start (lg s) ∉ L → (length H + length L < NBUF)%nat →
  (∀ c, bio_inv c H L →
     (let x := enc_head bs (view (lio s) (log_start (lg s))) in
      io_step (lio s) c H [(log_start (lg s), x)] (wr (view (lio s)) (log_start (lg s)) x)) →
     Q tt (set_lio c s)) →
  wp E write_head Q s.
Proof.
  intros Hinv Hg Hbs Hn HLS Hfree HQ. unfold write_head. apply wp_bind, wp_gets.
  destruct Hg as [Hdev H0 Hend Hsz Hblk]. destruct Hbs as [Hln Htk].
  rewrite Hdev, u32_small by (unfold FSSIZE in *; lia).
  apply wp_bind, wp_io. eapply wp_bread; [done|lia|unfold NBUF in *; lia|by auto|].
  intros i c1 Hinv1 Hh1 Hio1. pose proof Hh1 as (_ & b & Hb & _).
  apply wp_bind, wp_io. cbn [lio set_lio]. eapply wp_mod_data; [done..|].
  apply wp_bind. rewrite Hln, Nat2Z.id.
  eapply wp_write_head_loop; [done|done| |].
  { cbn [lg set_lio]. intros j b' Hj. eapply (lh_holds_lookup _ bs); [by split|done]. }
  change (enc_slots 0 bs (put_u32 0 (Z.of_nat (length bs)) (view c1 (log_start (lg s)))))
    with (enc_head bs (view c1 (log_start (lg s)))).
  rewrite (si_view _ _ _ Hio1).
  assert (length (enc_head bs (view (lio s) (log_start (lg s)))) = 512%nat) as Hx.
  { unfold enc_head. pose proof (length_view _ _ _ (log_start (lg s)) Hinv).
    apply enc_slots_length; [put_len|lia]. }
  apply wp_bind, wp_io. cbn [lio set_lio]. eapply wp_bwrite; [done|done|set_solver|done|].
  intros c2 Hinv2 [Hv2 Hh2] Hm2 Hw2. rewrite filter_away in Hinv2 by congruence.
  apply wp_io. cbn [lio set_lio]. eapply wp_brelse; [done|unfold NBUF in *; lia|].
  intros c3 Hinv3 [V3 M3 W3 H3] _. apply HQ; [done|]. destruct Hio1 as [V1 M1 W1 H1]. constructor.
  - intros k. rewrite V3, Hv2, V1. done.
  - intros k. unfold platter. rewrite M3, Hm2. cbn. unfold upd_media, wr. cbn.
    rewrite M1. destruct (Z.eqb_spec k (log_start (lg s))), (decide (k = log_start (lg s))); done.
  - by rewrite W3, Hw2, W1.
  - intros j k Hj Hk. apply H3; [done|]. apply Hh2; [set_solver|]. by apply H1.
Qed.

Lemma wp_read_head_loop E k t i b (Q : unit → lst D → Prop) s :
  bufs (lio s) !! i = Some b → length (lh_block (lg s)) = 30%nat → (t + k ≤ 30)%nat →
  (∀ bl, length bl = 30%nat → (∀ j, (j < t)%nat → bl !! j = lh_block (lg s) !! j) →
     (∀ j, (t ≤ j < t + k)%nat → bl !! j = Some (s32 (get_u32 (slot j) (b_data b)))) →
     Q tt (set_lg (set_lh_block bl (lg s)) s)) →
  wp E (read_head_loop k t i) Q s.
Proof.
  revert t s. induction k as [|k IH]; intros t s Hb Hl Htk HQ; cbn [read_head_loop].
  - apply wp_ret. specialize (HQ (lh_block (lg s)) Hl). destruct s as [c []]. apply HQ; [done|lia].
  - apply wp_bind, wp_io. eapply wp_get_buf; [done|]. apply wp_bind. unfold put_block.
    destruct (lookup_lt_is_Some_2 (lh_block (lg s)) t) as [y Hy]; [lia|].
    apply wp_bind. eapply wp_getopt; [done|]. apply wp_modify.
    apply IH; cbn [lio lg set_lg set_lio lh_block set_lh_block]; [done|by rewrite length_insert|lia|].
    intros bl Hbl Hlt Hge. apply (HQ bl); [done| |].
    + intros j Hj. rewrite Hlt by lia. by rewrite list_lookup_insert_ne by lia.
    + intros j Hj. destruct (decide (j = t)) as [->|]; [|apply Hge; lia].
      rewrite Hlt by lia. apply list_lookup_insert_eq. lia.
Qed.

Lemma wp_read_head E H L (Q : unit → lst D → Prop) s :
  bio_inv (lio s) H L → log_geom (lg s) → (length H + length L < NBUF)%nat →
  let x := view (lio s) (log_start (lg s)) in
  hdr_n x ≤ 30 →
  (∀ c bl, bio_inv c H L → io_step (lio s) c H [] (view (lio s)) → length bl = 30%nat →
     take (length (hdr_blocks x)) bl = hdr_blocks x →
     Q tt (mk_lst c (set_lh_block bl (set_lh_n (hdr_n x) (lg s))))) →
  wp E read_head Q s.
Proof.
  intros Hinv Hg Hfree x Hx HQ. unfold read_head. apply wp_bind, wp_gets.
  pose proof Hg as [Hdev H0 Hend Hsz Hblk]. rewrite Hdev, u32_small by (unfold FSSIZE in *; lia).
  apply wp_bind, wp_io. eapply wp_bread; [done|lia|unfold NBUF in *; lia|by auto|].
  intros i c1 Hinv1 Hh1 Hio1. pose proof Hh1 as (_ & b & Hb & _).
  assert (b_data b = x) as Hbx.
  { rewrite (holds_view _ _ _ _ _ _ Hinv1 Hh1 Hb). apply Hio1. }
  apply wp_bind, wp_io. cbn [lio set_lio]. eapply wp_get_buf; [done|].
  apply wp_bind, wp_modify, wp_bind, wp_gets. rewrite Hbx. change (s32 (get_u32 0 x)) with (hdr_n x).
  cbn [lg set_lg lh_n set_lh_n set_lio].
  apply wp_bind. eapply wp_read_head_loop; [done|done|lia|]. intros bl Hbl _ Hge.
  apply wp_io. eapply wp_brelse; [cbn [lio set_lg set_lio]; done|unfold NBUF in *; lia|].
  intros c2 Hinv2 Hio2 _. cbn [lio lg set_lg set_lio] in *. apply (HQ c2 bl).
  - done.
  - apply same_io_step. by eapply same_io_trans.
  - done.
  - apply list_eq. intros j. unfold hdr_blocks. rewrite length_fmap, length_seq, list_lookup_fmap.
    destruct (decide (j < Z.to_nat (hdr_n x))%nat) as [Hj|Hj].
    + rewrite lookup_take_lt, lookup_seq_lt, Hge, Hbx by lia. done.
    + rewrite lookup_take_ge, lookup_seq_ge by lia. done.
Qed.
End facts.
