(* ===== verification/LogSpecs.v ===== *)
(** * log.c: commit, recovery and log_write

    The specifications of the log's entry points over [log_inv]. *)

From S2P Require Import Prelude Spinlock Ide Bio BioFacts Layout Log LogDisk LogFacts.

Section specs.
Context {D : Type} {dev : IdeDevice D} {dok : IdeDeviceOk D}.
Implicit Types s : lst D.
Implicit Types c : ide D.

Lemma log_inv_home s H L b :
  log_inv s H L → b ∈ L → home (log_start (lg s)) (log_size (lg s)) b ∧ 0 ≤ b < FSSIZE.
Proof.
  intros [] Hb. destruct li_blocks as (_ & HF & _). rewrite Forall_forall in HF.
  destruct (HF b Hb). split; [done|lia].
Qed.
Lemma log_inv_start s H L : log_inv s H L → log_start (lg s) ∉ L.
Proof.
  intros Hinv Hin. destruct (log_inv_home s H L _ Hinv Hin) as [Hh _].
  by apply (home_ne_LS _ _ _ (proj1 (lgm_size _ (li_geom _ _ _ Hinv))) Hh).
Qed.

(** Reading the log back gives what was logged. *)
Lemma install_writes LS size V bs x :
  blocks_ok LS size bs →
  copy_writes (wr (replay V (copy_writes V (logs LS bs))) LS x) (installs LS bs) =
  copy_writes V (zip bs bs).
Proof.
  intros Hok. apply list_eq. intros t. unfold copy_writes. rewrite !list_lookup_fmap.
  unfold installs. rewrite !lookup_zip_with, list_lookup_fmap.
  destruct (bs !! t) as [b|] eqn:Hb; [|done].
  assert (t < length bs)%nat as Ht by (by eapply lookup_lt_Some).
  rewrite lookup_seq_lt by done. cbn. do 2 f_equal.
  assert (log_block LS t ∈ log_block LS <$> seq 0 (length bs)) as Hlb.
  { apply list_elem_of_fmap. exists t. split; [done|]. apply elem_of_seq. lia. }
  destruct (log_block_home LS size bs _ Hok Hlb) as [_ Hne]. rewrite wr_ne by done.
  apply replay_copy; [rewrite logs_fst; apply log_block_nodup|].
  apply list_elem_of_lookup. exists t. unfold logs. rewrite lookup_zip_with, Hb.
  rewrite list_lookup_fmap, lookup_seq_lt by done. done.
Qed.

Lemma filter_self (L : list Z) : filter (λ k, k ∉ L) L = [].
Proof.
  assert (∀ l : list Z, l ⊆ L → filter (λ k, k ∉ L) l = []) as Hgen; [|by apply Hgen].
  induction l as [|x l IH]; intros Hsub; [done|]. rewrite filter_cons, decide_False by set_solver.
  apply IH. set_solver.
Qed.

(** The sectors a commit writes. *)
Definition commit_trace s (L : list Z) : writes :=
  match L with [] => [] | _ => commit_writes (log_start (lg s)) (view (lio s)) L end.

Lemma wp_commit E H L (Q : unit → lst D → Prop) s :
  log_inv s H L → (length H + length L < NBUF)%nat →
  (∀ s' V, log_inv s' H [] → io_step (lio s) (lio s') H (commit_trace s L) V →
     lg s' = set_lh_n 0 (lg s) → Q tt s') →
  wp E commit Q s.
Proof.
  intros Hinv Hfree HQ. unfold commit. apply wp_bind, wp_gets.
  pose proof Hinv as [Hbio Hg Hhd Hok Hclr]. pose proof Hhd as [Hn Htk].
  pose proof (log_inv_start s H L Hinv) as HLS. rewrite Hn.
  destruct (decide (L = [])) as [->|HL].
  { cbn. apply wp_ret. apply (HQ s (view (lio s))); [done|apply io_step_refl|]. cbn in Hn.
    destruct s as [c []]. cbn in *. by subst. }
  assert (commit_trace s L = commit_writes (log_start (lg s)) (view (lio s)) L) as Htr by (by destruct L).
  rewrite Htr in HQ. clear Htr.
  assert (0 < length L)%nat by (destruct L; [done|cbn; lia]).
  rewrite Z.gtb_ltb, (proj2 (Z.ltb_lt _ _)) by lia.
  assert (∀ j b, L !! j = Some b → lh_block (lg s) !! (0 + j)%nat = Some b) as Hlk.
  { intros j b. by apply lh_holds_lookup. }
  assert (Z.of_nat (length L) < log_size (lg s)) as Hsz by apply Hok.
  apply wp_bind. unfold write_log. apply wp_bind, wp_gets. rewrite Hn, Nat2Z.id.
  eapply wp_write_log_loop; [done|done|done|lia| | |done|].
  { intros b Hb. split; [done|]. by apply (log_inv_home s H L). }
  { intros b Hb. by apply (log_inv_home s H L). }
  intros c1 Hb1 Hs1. cbn zeta in Hs1. change (logs_from (log_start (lg s)) 0 L) with (logs (log_start (lg s)) L) in Hs1.
  set (ws1 := copy_writes (view (lio s)) (logs (log_start (lg s)) L)) in *.
  assert (view c1 (log_start (lg s)) = view (lio s) (log_start (lg s))) as HV1.
  { rewrite (is_view _ _ _ _ _ Hs1). apply replay_other. unfold ws1. rewrite copy_writes_fst, logs_fst.
    intros Hin. by destruct (log_block_home _ _ L _ Hok Hin). }
  apply wp_bind. eapply (wp_write_head _ L); cbn [lio lg set_lio]; [done|done|done|apply Hok|done|done|].
  intros c2 Hb2 Hs2. cbn zeta in Hs2. rewrite HV1 in Hs2.
  apply wp_bind. unfold install_trans. apply wp_bind, wp_gets. cbn [lg set_lio]. rewrite Hn, Nat2Z.id.
  eapply wp_install_loop; cbn [lio lg set_lio]; [done|done|done|lia| |done| |].
  { intros b Hb. destruct (log_inv_home s H L b Hinv Hb). done. }
  { left. intros b Hb. destruct L; [done|]. cbn in Hb. simplify_eq. set_solver. }
  intros c3 Hb3 Hs3. cbn zeta in Hs3. rewrite filter_self in Hb3.
  change (installs_from (log_start (lg s)) 0 L) with (installs (log_start (lg s)) L) in Hs3.
  set (hd := enc_head L (view (lio s) (log_start (lg s)))) in *.
  assert (copy_writes (view c2) (installs (log_start (lg s)) L) = copy_writes (view (lio s)) (zip L L)) as Hws.
  { rewrite <- (install_writes (log_start (lg s)) (log_size (lg s)) _ _ hd Hok).
    apply copy_writes_ext. intros b _. rewrite (is_view _ _ _ _ _ Hs2). apply wr_ext.
    intros k. apply (is_view _ _ _ _ _ Hs1). }
  rewrite Hws in Hs3.
  assert (view c3 (log_start (lg s)) = hd) as HV3.
  { rewrite (is_view _ _ _ _ _ Hs3), replay_other.
    - rewrite (is_view _ _ _ _ _ Hs2). apply wr_eq.
    - rewrite copy_writes_fst, fst_zip by lia. done. }
  apply wp_bind, wp_modify. eapply (wp_write_head _ []); cbn [lio lg set_lio set_lg];
    [done| |done|cbn; lia|set_solver|cbn [length]; lia|].
  { destruct Hg; by constructor. }
  intros c4 Hb4 Hs4. cbn zeta in Hs4. cbn [log_start set_lh_n] in *. rewrite HV3 in Hs4.
  pose proof (io_step_trans _ _ _ _ _ _ _ _ Hs1 (io_step_trans _ _ _ _ _ _ _ _ Hs2
    (io_step_trans _ _ _ _ _ _ _ _ Hs3 Hs4))) as Hall.
  eapply HQ; [|exact Hall|done]. constructor; cbn [lio lg set_lio set_lg].
  - done.
  - destruct Hg; by constructor.
  - done.
  - split_and!; [apply NoDup_nil_2|done|cbn; lia|cbn; lia].
  - change (log_start (set_lh_n 0 (lg s))) with (log_start (lg s)).
    rewrite <- (view_clean c4 H []) by (done || set_solver).
    rewrite (is_view _ _ _ _ _ Hs4), wr_eq. apply hdr_cleared. rewrite <- HV3. by eapply length_view.
Qed.

(** After the commit the platter has, outside the log, what was read before. *)
Lemma commit_result s s' H L V :
  log_inv s H L → log_inv s' H [] → io_step (lio s) (lio s') H (commit_trace s L) V →
  ∀ b, home (log_start (lg s)) (log_size (lg s)) b →
    platter (lio s') b = view (lio s) b ∧ view (lio s') b = view (lio s) b.
Proof.
  intros Hinv Hinv' Hs b Hb. assert (platter (lio s') b = view (lio s) b) as Hp.
  { rewrite (is_media _ _ _ _ _ Hs). unfold commit_trace. pose proof Hinv as [Hbio [_ _ _ [Hsz _] _] _ Hok Hclr].
    assert (∀ b, b ∉ L → view (lio s) b = platter (lio s) b) as Hsame by (intros; by eapply view_clean).
    destruct L as [|b0 L']; [symmetry; apply Hsame; set_solver|].
    eapply (commit_done _ (log_size (lg s))); try done. apply media_length. }
  split; [done|]. rewrite <- Hp. eapply view_clean; [apply Hinv'|set_solver].
Qed.

(** ** Recovery at boot *)
Lemma wp_recover_from_log E H (Q : unit → lst D → Prop) s :
  bio_inv (lio s) H [] → log_geom (lg s) → (length H + 1 < NBUF)%nat →
  disk_ok (log_start (lg s)) (log_size (lg s)) (view (lio s)) →
  (∀ s' V, log_inv s' H [] →
     io_step (lio s) (lio s') H (recovery_writes (log_start (lg s)) (view (lio s))) V →
     log_start (lg s') = log_start (lg s) → log_size (lg s') = log_size (lg s) → Q tt s') →
  wp E recover_from_log Q s.
Proof.
  intros Hbio Hg Hfree [Hlen Hok] HQ. set (LS := log_start (lg s)) in *.
  set (d := view (lio s)) in *. set (bs := hdr_blocks (d LS)) in *.
  assert (Z.to_nat (hdr_n (d LS)) = length bs) as Hnb by (unfold bs, hdr_blocks; by rewrite length_fmap, length_seq).
  pose proof Hok as (_ & HF & Hsz & H30). rewrite Forall_forall in HF.
  assert (LS ∉ bs) as HLS.
  { intros Hin. destruct (HF LS Hin) as [_ Hh].
    by apply (home_ne_LS _ _ _ (proj1 (lgm_size _ Hg)) Hh). }
  unfold recover_from_log. apply wp_bind. eapply wp_read_head; [done|done|cbn [length]; lia|fold d LS; lia|].
  fold d LS. fold bs. intros c1 bl Hb1 Hs1 Hbl Htk.
  apply wp_bind. unfold install_trans. apply wp_bind, wp_gets. cbn [lh_n lg set_lh_block set_lh_n].
  rewrite Hnb. assert (∀ k, view c1 k = d k) as HV1 by apply Hs1.
  eapply (wp_install_loop _ bs 0 H []); cbn [lio lg set_lh_block set_lh_n log_start log_size].
  - done.
  - destruct Hg; by constructor.
  - intros j b Hj. cbn [lh_block set_lh_block]. rewrite <- Htk in Hj. apply lookup_take_Some in Hj. naive_solver.
  - done.
  - intros b Hb. destruct (HF b Hb). split; [lia|done].
  - cbn [length]; lia.
  - right. cbn [length]; lia.
  - fold LS. intros c2 Hb2 Hs2. cbn zeta in Hs2. rewrite filter_nil in Hb2. change (installs_from LS 0 bs) with (installs LS bs) in Hs2.
    rewrite (copy_writes_ext (view c1) d) in Hs2 by (intros; apply HV1).
    assert (view c2 LS = d LS) as HV2.
    { rewrite (is_view _ _ _ _ _ Hs2), replay_other; [done|]. by rewrite copy_writes_fst, installs_fst. }
    apply wp_bind, wp_modify.
    eapply (wp_write_head _ []); cbn [lio lg set_lio set_lg log_start set_lh_n set_lh_block]; [done| |done|cbn; lia|set_solver|cbn [length]; lia|].
    { destruct Hg; by constructor. }
    fold LS. intros c3 Hb3 Hs3. cbn zeta in Hs3. rewrite HV2 in Hs3.
    pose proof (io_step_trans _ _ _ _ _ _ _ _ Hs1 (io_step_trans _ _ _ _ _ _ _ _ Hs2 Hs3)) as Hall.
    eapply HQ; [|exact Hall|done|done]. constructor; cbn [lio lg set_lio set_lg].
    + done.
    + destruct Hg; by constructor.
    + done.
    + split_and!; [apply NoDup_nil_2|done|cbn; destruct Hg; lia|cbn; lia].
    + cbn [log_start set_lh_n set_lh_block]. fold LS. rewrite <- (view_clean c3 H []) by (done || set_solver).
      rewrite (is_view _ _ _ _ _ Hs3), wr_eq. by apply hdr_cleared.
Qed.

Lemma wp_readsb E H L (Q : superblock → ide D → Prop) c :
  bio_inv c H L → (length H + length L < NBUF)%nat →
  (∀ c', bio_inv c' H L → same_io c c' H → Q (dec_superblock (view c 1)) c') →
  wp E (readsb ROOTDEV) Q c.
Proof.
  intros Hinv Hfree HQ. unfold readsb.
  apply wp_bind. eapply wp_bread; [done|unfold FSSIZE; lia|unfold NBUF in *; lia|by auto|].
  intros i c1 Hinv1 Hh1 Hio1. pose proof Hh1 as (_ & b & Hb & _).
  apply wp_bind. eapply wp_get_buf; [done|].
  rewrite (holds_view _ _ _ _ _ _ Hinv1 Hh1 Hb), (si_view _ _ _ Hio1).
  apply wp_bind. eapply wp_brelse; [done|unfold NBUF in *; lia|]. intros c2 Hinv2 Hio2 _.
  apply wp_ret, HQ; [done|]. by eapply same_io_trans.
Qed.

(** The log the superblock describes. *)
Definition boot_log (sb : superblock) (l : log) : log :=
  set_log_dev ROOTDEV (set_log_size (s32 (sb_nlog sb)) (set_log_start (s32 (sb_logstart sb)) l)).

Lemma wp_initlog E H (Q : unit → lst D → Prop) s :
  bio_inv (lio s) H [] → (length H + 1 < NBUF)%nat →
  let l := boot_log (dec_superblock (view (lio s) 1)) (lg s) in
  log_geom l → disk_ok (log_start l) (log_size l) (view (lio s)) →
  (∀ s' V, log_inv s' H [] →
     io_step (lio s) (lio s') H (recovery_writes (log_start l) (view (lio s))) V →
     log_start (lg s') = log_start l → log_size (lg s') = log_size l → Q tt s') →
  wp E (initlog ROOTDEV) Q s.
Proof.
  intros Hbio Hfree l Hg Hok HQ. unfold initlog. cbn [LOGSIZE BSIZE].
  change (4 + 4 * LOGSIZE >=? BSIZE) with false. cbn iota.
  apply wp_bind, wp_io. eapply wp_readsb; [done|cbn [length]; lia|]. intros c1 Hb1 Hio1.
  apply wp_bind, wp_modify, wp_bind, wp_modify, wp_bind, wp_modify.
  set (s1 := set_lg _ _). assert (lg s1 = l) as Hl by done.
  assert (lio s1 = c1) as Hc by done. assert (∀ k, view (lio s1) k = view (lio s) k) as HV by apply Hio1.
  eapply wp_recover_from_log; [by rewrite Hc|by rewrite Hl|done| |].
  { rewrite Hl. unfold disk_ok. by rewrite HV. }
  rewrite Hl. intros s' V Hinv Hs Hst Hsz.
  apply (HQ s' V); [done| |done|done].
  assert (recovery_writes (log_start l) (view (lio s1)) = recovery_writes (log_start l) (view (lio s))) as Heq.
  { unfold recovery_writes. rewrite HV. f_equal. apply copy_writes_ext. intros; apply HV. }
  rewrite Heq in Hs. exact (io_step_trans _ _ _ _ _ _ _ _ (same_io_step _ _ _ Hio1) Hs).
Qed.

(** ** log_write *)
Lemma wp_log_search E bs t bn (Q : nat → lst D → Prop) s :
  (∀ j b, bs !! j = Some b → lh_block (lg s) !! (t + j)%nat = Some b ∧ 0 ≤ b < FSSIZE) →
  (∀ j, (j < length bs)%nat → bs !! j = Some bn → Q (t + j)%nat s) →
  (bn ∉ bs → Q (t + length bs)%nat s) →
  wp E (log_search (length bs) t bn) Q s.
Proof.
  revert t. induction bs as [|b bs IH]; intros t Hlk H1 H2; cbn [length log_search].
  - apply wp_ret. rewrite <- (Nat.add_0_r t). apply H2. set_solver.
  - destruct (Hlk 0%nat b eq_refl) as [Hb Hr]. rewrite Nat.add_0_r in Hb.
    apply wp_bind. eapply wp_getopt; [done|]. rewrite u32_small by (unfold FSSIZE in *; lia).
    destruct (Z.eqb_spec b bn) as [->|Hne].
    + apply wp_ret. rewrite <- (Nat.add_0_r t). apply H1; [cbn; lia|done].
    + apply IH.
      * intros j b' Hj. replace (S t + j)%nat with (t + S j)%nat by lia. by apply Hlk.
      * intros j Hj Hb'. replace (S t + j)%nat with (t + S j)%nat by lia. apply H1; [cbn; lia|done].
      * intros Hn. replace (S t + length bs)%nat with (t + length (b :: bs))%nat by (cbn; lia).
        apply H2. set_solver.
Qed.

Definition logged (L : list Z) (bn : Z) : list Z := if decide (bn ∈ L) then L else L ++ [bn].

Lemma lh_holds_absorb l L bn t :
  lh_holds l L → length (lh_block l) = 30%nat → L !! t = Some bn →
  lh_holds (set_lh_block (<[t:=bn]> (lh_block l)) l) L.
Proof.
  intros Hh Hlen Ht. pose proof (lh_holds_lookup l L t bn Hh Ht) as Hb.
  rewrite list_insert_id by done. destruct l; exact Hh.
Qed.

Lemma lh_holds_append l L bn :
  lh_holds l L → length (lh_block l) = 30%nat → (length L < 30)%nat →
  lh_holds (set_lh_n (s32 (lh_n l + 1)) (set_lh_block (<[length L:=bn]> (lh_block l)) l)) (L ++ [bn]).
Proof.
  intros [Hn Ht] Hlen Hlt. split; cbn [lh_n lh_block set_lh_n set_lh_block].
  - rewrite Hn, length_app. cbn [length]. rewrite s32_small; lia.
  - rewrite length_app. cbn [length]. rewrite Nat.add_1_r.
    erewrite take_S_r by (apply list_lookup_insert_eq; lia).
    rewrite take_insert_ge by lia. by rewrite Ht.
Qed.

Lemma wp_log_write E i bn x H L (Q : unit → lst D → Prop) s c :
  log_inv (set_lio c s) H L → lio s = with_data c i x → holds c i bn → i ∈ H → length x = 512%nat →
  home (log_start (lg s)) (log_size (lg s)) bn → 1 < bn →
  (Z.of_nat (length L) < log_size (lg s) - 1 ∨ E "too big a transaction") →
  (∀ s', log_inv s' H (logged L bn) → wrote_block c (lio s') H bn x →
     (∀ k, platter (lio s') k = platter c k) → wrote (lio s') = wrote c →
     log_start (lg s') = log_start (lg s) → log_size (lg s') = log_size (lg s) → Q tt s') →
  wp E (log_write i) Q s.
Proof.
  intros Hinv Hlio Hh HiH Hx Hhome H1 Hroom HQ.
  pose proof Hinv as [Hbio Hg Hhd Hok Hclr]. cbn [lg lio set_lio] in *. pose proof Hhd as [Hn Htk].
  pose proof Hh as (Hi & b & Hb & Hv & Hk).
  pose proof (inv_range c H L i b Hbio Hi Hb Hv) as Hrng.
  unfold log_write. apply wp_bind, wp_io, wp_on_pushcli.
  { rewrite Hlio, icpu_with_data. apply Hbio. }
  intros c1 Hc1. rewrite Hlio, with_data_set_icpu.
  apply wp_bind, wp_gets. cbn [lg set_lio]. rewrite Hn.
  destruct ((_ >=? LOGSIZE) || _) eqn:Hfull.
  { apply wp_panic. destruct Hroom as [Hroom|?]; [|done]. exfalso. destruct Hg.
    apply orb_true_iff in Hfull as [Hf|Hf]; apply Z.geb_le in Hf; lia. }
  apply orb_false_iff in Hfull as [Hf1 Hf2]. rewrite Z.geb_leb, Z.leb_gt in Hf1, Hf2. unfold LOGSIZE in Hf1.
  apply wp_bind, wp_io. cbn [lio set_lio]. eapply wp_get_buf; [by apply with_data_lookup|].
  cbn [b_blockno set_b_data]. rewrite Hk, Nat2Z.id. rewrite Hk in Hrng.
  assert (∀ l', log_geom l' → lh_holds l' (logged L bn) → log_start l' = log_start (lg s) →
    log_size l' = log_size (lg s) →
    wp E (io (on_cpu popcli);; io (mod_buf i (λ b, set_b_flags (Z.lor (b_flags b) B_DIRTY) b))) Q
      (mk_lst (with_data (set_icpu c1 c) i x) l')) as Hrest.
  { intros l' Hg' Hh' Hst Hsz. apply wp_bind, wp_io, wp_on_popcli; [cbn [lio]; by rewrite icpu_with_data|].
    intros c2 Hc2. cbn [lio]. rewrite with_data_set_icpu.
    apply wp_io. cbn [lio set_lio]. change (set_icpu c2 (set_icpu c1 c)) with (set_icpu c2 c).
    eapply (wp_set_dirty _ i bn x H L); [by apply set_icpu_inv|done|done|done|].
    intros c3 Hb3 [Hv3 Hh3] Hm3 Hw3. fold (logged L bn) in Hb3. apply HQ; cbn [lio lg set_lio]; try done; [|intros k; apply Hm3].
    constructor; cbn [lio lg set_lio]; try done.
    - rewrite Hst, Hsz. unfold logged. case_decide as Hd; [done|]. destruct Hok as (Hnd & HF & Hs & H30).
      split_and!.
      + apply NoDup_app. split_and!; [done|set_solver|apply NoDup_singleton].
      + apply Forall_app. split; [done|]. apply Forall_singleton. split; [lia|done].
      + rewrite length_app. cbn. lia.
      + rewrite length_app. cbn. lia.
    - rewrite Hst. unfold platter. by rewrite Hm3. }
  apply wp_bind, wp_log_search.
  - intros j b' Hj. split; [by eapply lh_holds_lookup|]. apply (log_inv_home (set_lio c s) H L); [done|].
    by eapply list_elem_of_lookup_2.
  - intros j Hj Hjb. cbn [Nat.add]. pose proof (lh_holds_lookup _ _ _ _ Hhd Hjb) as Hlk.
    apply wp_bind. unfold put_block. apply wp_bind. eapply wp_getopt; [done|]. apply wp_modify.
    rewrite (proj2 (Z.eqb_neq _ _)) by lia. apply wp_bind, wp_ret.
    cbn [lg lio set_lg set_lio]. rewrite s32_small by (unfold FSSIZE in *; lia). apply Hrest; try done.
    + destruct Hg. constructor; try done. cbn [lh_block set_lh_block]. by rewrite length_insert.
    + unfold logged. rewrite decide_True by (by eapply list_elem_of_lookup_2).
      apply lh_holds_absorb; [done|apply Hg|done].
  - intros Hni. cbn [Nat.add]. apply wp_bind. unfold put_block. apply wp_bind.
    destruct (lookup_lt_is_Some_2 (lh_block (lg s)) (length L)) as [y Hy].
    { rewrite (lgm_len _ Hg). lia. }
    eapply wp_getopt; [done|]. apply wp_modify. rewrite Z.eqb_refl. apply wp_bind, wp_modify.
    cbn [lg lio set_lg set_lio]. rewrite (s32_small bn) by (unfold FSSIZE in *; lia). apply Hrest; try done.
    + destruct Hg. constructor; try done. cbn [lh_block set_lh_block set_lh_n]. by rewrite length_insert.
    + unfold logged. rewrite decide_False by done.
      apply (lh_holds_append (lg s)); [done|apply Hg|lia].
Qed.
End specs.
