(* ===== verification/LogCrash.v ===== *)
(** * Power failures and reboots

    A machine that loses power keeps a prefix of the sector writes it was
    about to make and starts again with an empty buffer cache. [initlog] run
    on any chain of such starts, itself cut off each time, ends with the same
    blocks. *)

From S2P Require Import Prelude Spinlock CString Ide Bio BioFacts Layout Log LogDisk LogFacts LogSpecs.

Section crash.
Context {D : Type} {dev : IdeDevice D} {dok : IdeDeviceOk D}.
Implicit Types s : lst D.

(** The state in which [initlog] is called: nothing cached is dirty or held,
    and the log structure has its declared size. *)
Definition booted s : Prop := bio_inv (lio s) [] [] ∧ length (lh_block (lg s)) = 30%nat.

(** [s2] is a start after power was lost on the way from [c] to [c']: a
    prefix of the sectors written in between has reached the platter. *)
Definition lost (c c' : ide D) s2 : Prop :=
  booted s2 ∧ ∃ k ws, wrote c' = wrote c ++ on_root ws ∧ ∀ b, platter (lio s2) b = replay (platter c) (take k ws) b.
(** The same during the run of [m] from [s]. *)
Definition power_lost (m : M (lst D) unit) s s2 : Prop := ∃ s', m s = Ok (tt, s') ∧ lost (lio s) (lio s') s2.

(** The log lies at [LS], with [size] blocks, where the superblock says. *)
Record bootable (LS size : Z) s : Prop := {
  bt_booted : booted s;
  bt_geom : log_geom (boot_log (dec_superblock (platter (lio s) 1)) (lg s));
  bt_start : s32 (sb_logstart (dec_superblock (platter (lio s) 1))) = LS;
  bt_size : s32 (sb_nlog (dec_superblock (platter (lio s) 1))) = size;
  bt_disk : disk_ok LS size (platter (lio s));
}.

Lemma booted_view s b : booted s → view (lio s) b = platter (lio s) b.
Proof. intros [Hbio _]. eapply view_clean; [done|set_solver]. Qed.

Lemma on_root_inj ws ws' : on_root ws = on_root ws' → ws = ws'.
Proof. apply list_fmap_eq_inj. intros [] [] [= -> ->]. done. Qed.

(** [initlog] as a change of the platter. *)
Lemma initlog_booted s :
  bio_inv (lio s) [] [] →
  let l := boot_log (dec_superblock (view (lio s) 1)) (lg s) in
  log_geom l → disk_ok (log_start l) (log_size l) (platter (lio s)) →
  ∃ s', initlog ROOTDEV s = Ok (tt, s') ∧ log_inv s' [] [] ∧ log_start (lg s') = log_start l ∧ log_size (lg s') = log_size l ∧
    wrote (lio s') = wrote (lio s) ++ on_root (recovery_writes (log_start l) (platter (lio s))) ∧
    ∀ b, platter (lio s') b = recover (log_start l) (platter (lio s)) b ∧ view (lio s') b = platter (lio s') b.
Proof.
  intros Hbio l Hg Hok. assert (∀ b, view (lio s) b = platter (lio s) b) as HV.
  { intros b. eapply view_clean; [done|set_solver]. }
  apply wp_run. eapply wp_initlog; [done|cbn; unfold NBUF; lia|done| |].
  { fold l. unfold disk_ok. by rewrite HV. }
  fold l. intros s' V Hinv' Hs Hst Hsz.
  assert (recovery_writes (log_start l) (view (lio s)) = recovery_writes (log_start l) (platter (lio s))) as Hw.
  { unfold recovery_writes. rewrite HV. f_equal. apply copy_writes_ext. intros; apply HV. }
  split_and!; [done|done|done|by rewrite (is_wrote _ _ _ _ _ Hs), Hw|]. intros b. split.
  - by rewrite (is_media _ _ _ _ _ Hs), Hw.
  - eapply view_clean; [apply Hinv'|set_solver].
Qed.
Lemma initlog_run s :
  bio_inv (lio s) [] [] →
  let l := boot_log (dec_superblock (view (lio s) 1)) (lg s) in
  log_geom l → disk_ok (log_start l) (log_size l) (platter (lio s)) →
  ∃ s', initlog ROOTDEV s = Ok (tt, s') ∧ log_inv s' [] [] ∧
    wrote (lio s') = wrote (lio s) ++ on_root (recovery_writes (log_start l) (platter (lio s))) ∧
    ∀ b, platter (lio s') b = recover (log_start l) (platter (lio s)) b ∧ view (lio s') b = platter (lio s') b.
Proof. intros H1 l H2 H3. destruct (initlog_booted s H1 H2 H3) as (s' & ? & ? & _ & _ & ? & ?). eauto. Qed.

Lemma bootable_run LS size s : bootable LS size s →
  ∃ s', initlog ROOTDEV s = Ok (tt, s') ∧ log_inv s' [] [] ∧
    wrote (lio s') = wrote (lio s) ++ on_root (recovery_writes LS (platter (lio s))) ∧
    ∀ b, view (lio s') b = recover LS (platter (lio s)) b.
Proof.
  intros [Hb Hg <- <- Hok]. pose proof (initlog_run s (proj1 Hb)) as Hrun. cbn zeta in Hrun.
  rewrite booted_view in Hrun by done. destruct Hrun as (s' & Hr & Hi & Hw & Hp); [done..|].
  exists s'. split_and!; [done..|]. intros b. destruct (Hp b) as [Hpb ->]. exact Hpb.
Qed.

(** A start on a platter whose superblock is that of [d]. *)
Lemma bootable_from LS size s (d : disk) l : booted s →
  log_geom l → log_start l = LS → log_size l = size →
  s32 (sb_logstart (dec_superblock (d 1))) = LS → s32 (sb_nlog (dec_superblock (d 1))) = size →
  disk_ok LS size d → (∀ b, platter (lio s) b = d b) → bootable LS size s.
Proof.
  intros Hb [] <- <- Hst Hn Hok Hp. constructor; rewrite ?Hp; try done.
  - destruct Hb as [_ ?]. cbn in Hst, Hn. constructor; cbn; rewrite ?Hst, ?Hn; done.
  - unfold disk_ok. by rewrite Hp.
Qed.

(** Power lost in [initlog]: the next start recovers the same blocks. *)
Lemma power_lost_initlog LS size s s2 : bootable LS size s → power_lost (initlog ROOTDEV) s s2 →
  bootable LS size s2 ∧ ∀ b, home LS size b → recover LS (platter (lio s2)) b = recover LS (platter (lio s)) b.
Proof.
  intros Hb (s' & Hrun & Hb2 & k & ws & Hw & Hp).
  destruct (bootable_run _ _ _ Hb) as (s1 & Hrun1 & _ & Hw1 & _).
  rewrite Hrun1 in Hrun. injection Hrun as <-. rewrite Hw1 in Hw. apply app_inv_head, on_root_inj in Hw as <-.
  pose proof Hb as [_ Hg Hst Hn Hok].
  assert (0 < size) as Hsz by (rewrite <- Hn; apply (lgm_size _ Hg)).
  assert (1 < LS) as HLS by (rewrite <- Hst; apply (lgm_start _ Hg)).
  pose proof (superblock_recovery LS size (platter (lio s)) k HLS Hok) as H1. split.
  - eapply bootable_from; [done|exact Hg|done|done| | | |exact Hp]; rewrite ?H1; [done..|].
    by apply (recover_crash LS size _ k (LS + size)); [| |right].
  - intros b Hh. rewrite (recover_ext _ _ _ _ Hp). by apply (recover_crash LS size).
Qed.

Lemma power_lost_again LS size s s2 : bootable LS size s → rtc (power_lost (initlog ROOTDEV)) s s2 →
  bootable LS size s2 ∧ ∀ b, home LS size b → recover LS (platter (lio s2)) b = recover LS (platter (lio s)) b.
Proof.
  intros Hb Hc. induction Hc as [|s s1 s2 H1 _ IH]; [done|].
  destruct (power_lost_initlog _ _ _ _ Hb H1) as [Hb1 Heq1]. destruct (IH Hb1) as [Hb2 Heq2].
  split; [done|]. intros b Hh. by rewrite Heq2, Heq1.
Qed.

(** The superblock on the platter describes the log in use. *)
Definition sb_current (c : ide D) (l : log) : Prop :=
  s32 (sb_logstart (dec_superblock (platter c 1))) = log_start l ∧
  s32 (sb_nlog (dec_superblock (platter c 1))) = log_size l.

(** Power lost after [k] of the writes of [commit]: the next start recovers
    the old blocks or the new ones. *)
Lemma commit_lost s H L s2 k :
  log_inv s H L → sb_current (lio s) (lg s) → booted s2 →
  (∀ b, platter (lio s2) b = replay (platter (lio s)) (take k (commit_trace s L)) b) →
  let LS := log_start (lg s) in let size := log_size (lg s) in
  bootable LS size s2 ∧
  ((∀ b, home LS size b → recover LS (platter (lio s2)) b = platter (lio s) b) ∨
   (∀ b, home LS size b → recover LS (platter (lio s2)) b = view (lio s) b)).
Proof.
  intros Hinv [Hst Hn] Hb2 Hp LS size.
  pose proof Hinv as [Hbio Hg _ Hok Hclr]. pose proof (lgm_size _ Hg) as [Hsz _]. pose proof (lgm_start _ Hg) as H1.
  fold LS size in Hst, Hn, Hok, Hclr, H1, Hsz.
  assert (length (platter (lio s) LS) = 512%nat) as Hlen by apply media_length.
  assert (∀ b, b ∉ L → view (lio s) b = platter (lio s) b) as Hsame by (intros; by eapply view_clean).
  assert (∃ k', ∀ b, platter (lio s2) b = replay (platter (lio s)) (take k' (commit_writes LS (view (lio s)) L)) b)
    as [k' Hp'].
  { unfold commit_trace in Hp. destruct L; [exists 0%nat; by rewrite take_nil in Hp|by exists k]. }
  clear Hp. assert (replay (platter (lio s)) (take k' (commit_writes LS (view (lio s)) L)) 1 = platter (lio s) 1) as Heq1.
  { by eapply superblock_commit. }
  assert (disk_ok LS size (replay (platter (lio s)) (take k' (commit_writes LS (view (lio s)) L))) → bootable LS size s2)
    as Hboot.
  { intros Hdk. eapply bootable_from; [done|exact Hg|done|done| | |exact Hdk|exact Hp']; by rewrite Heq1. }
  destruct (decide (k' ≤ length L)%nat) as [Hk|Hk%Nat.nle_gt].
  - pose proof (λ b Hb, crash_before LS size _ (view (lio s)) L Hsz Hok Hlen Hclr k' b Hb Hk) as Hc. split.
    + by apply Hboot, (Hc (LS + size)); right.
    + left. intros b Hh. rewrite (recover_ext _ _ _ _ Hp'). by apply Hc.
  - pose proof (λ b Hb, crash_after LS size _ (view (lio s)) L Hsz Hok Hlen Hsame k' b Hb Hk) as Hc. split.
    + by apply Hboot, (Hc (LS + size)); right.
    + right. intros b Hh. rewrite (recover_ext _ _ _ _ Hp'). by apply Hc.
Qed.

(** What the start after such a failure ends with. *)
Lemma commit_recovers s H L s1 s2 k :
  log_inv s H L → sb_current (lio s) (lg s) → booted s1 →
  (∀ b, platter (lio s1) b = replay (platter (lio s)) (take k (commit_trace s L)) b) →
  rtc (power_lost (initlog ROOTDEV)) s1 s2 →
  ∃ s3, initlog ROOTDEV s2 = Ok (tt, s3) ∧ log_inv s3 [] [] ∧
    ((∀ b, home (log_start (lg s)) (log_size (lg s)) b → view (lio s3) b = platter (lio s) b) ∨
     (∀ b, home (log_start (lg s)) (log_size (lg s)) b → view (lio s3) b = view (lio s) b)).
Proof.
  intros Hinv Hsb Hb1 Hp H2. destruct (commit_lost s H L s1 k Hinv Hsb Hb1 Hp) as [Hbt Hold].
  destruct (power_lost_again _ _ _ _ Hbt H2) as [Hb2 Hsame].
  destruct (bootable_run _ _ _ Hb2) as (s3 & Hrun & Hinv3 & _ & Hv). exists s3. split_and!; [done..|].
  destruct Hold as [Hold|Hnew]; [left|right]; intros b Hb; rewrite Hv, Hsame by done; auto.
Qed.
End crash.
