(* ===== verification/Fs.v ===== *)
(** * fs.c: blocks, inodes, directories and paths

    The state is the log stack below, the superblock [sb] and the inode cache;
    an inode pointer is an index into the cache. [frest] stands for the state
    of the rest of the kernel, which only the device routines of [devsw] see.
    A [char*] is the list of bytes from the pointer on, as in CString.v. *)

From S2P Require Import Prelude Spinlock CString Ide Bio BioFacts Layout Log.

Definition NINODE : nat := 50.
Definition NDEV : Z := 10.
Definition T_DIR : Z := 1.
Definition T_FILE : Z := 2.
Definition T_DEV : Z := 3.

Record inode := mk_inode {
  i_dev : Z;
  i_inum : Z;
  i_ref : Z;
  i_valid : Z;
  i_type : Z;
  i_major : Z;
  i_minor : Z;
  i_nlink : Z;
  i_size : Z;
  i_addrs : list Z;
}.
Definition set_i_ref v (p : inode) : inode :=
  mk_inode (i_dev p) (i_inum p) v (i_valid p) (i_type p) (i_major p) (i_minor p) (i_nlink p) (i_size p) (i_addrs p).
Definition set_i_valid v (p : inode) : inode :=
  mk_inode (i_dev p) (i_inum p) (i_ref p) v (i_type p) (i_major p) (i_minor p) (i_nlink p) (i_size p) (i_addrs p).
Definition set_i_type v (p : inode) : inode :=
  mk_inode (i_dev p) (i_inum p) (i_ref p) (i_valid p) v (i_major p) (i_minor p) (i_nlink p) (i_size p) (i_addrs p).
Definition set_i_size v (p : inode) : inode :=
  mk_inode (i_dev p) (i_inum p) (i_ref p) (i_valid p) (i_type p) (i_major p) (i_minor p) (i_nlink p) v (i_addrs p).
Definition set_i_addrs v (p : inode) : inode :=
  mk_inode (i_dev p) (i_inum p) (i_ref p) (i_valid p) (i_type p) (i_major p) (i_minor p) (i_nlink p) (i_size p) v.
(** The fields shared with the disk. *)
Definition set_i_disk (d : dinode) (p : inode) : inode :=
  mk_inode (i_dev p) (i_inum p) (i_ref p) (i_valid p) (di_type d) (di_major d) (di_minor d) (di_nlink d)
    (di_size d) (di_addrs d).
Definition i_disk (p : inode) : dinode :=
  mk_dinode (i_type p) (i_major p) (i_minor p) (i_nlink p) (i_size p) (i_addrs p).

Record stat := mk_stat { st_type : Z; st_dev : Z; st_ino : Z; st_nlink : Z; st_size : Z }.

Record fss (D X : Type) := mk_fss {
  flog : lst D;
  fsb : superblock;
  icache : list inode;
  frest : X;
}.
Arguments mk_fss {D X}.
Arguments flog {D X}.
Arguments fsb {D X}.
Arguments icache {D X}.
Arguments frest {D X}.

(** ** Path elements *)
Definition SLASH : Z := 47.

Fixpoint skip_slashes (path : list Z) : option (list Z) :=
  match path with
  | [] => None
  | x :: t => if x =? SLASH then skip_slashes t else Some path
  end.
(** The bytes up to the next slash or NUL, and the path from there. *)
Fixpoint take_elem (path : list Z) : option (list Z * list Z) :=
  match path with
  | [] => None
  | x :: t =>
      if negb (x =? SLASH) && negb (x =? 0) then
        r ← take_elem t; Some (x :: r.1, r.2)
      else Some ([], path)
  end.
(** [None]: a read out of range; [Some None]: the null pointer. *)
Definition skipelem (path name : list Z) : option (option (list Z * list Z)) :=
  p ← skip_slashes path;
  match p with
  | [] => None
  | x :: _ =>
      if x =? 0 then Some None else
      r ← take_elem p;
      let name := if bool_decide (DIRSIZ ≤ length r.1)%nat then splice 0 (take DIRSIZ r.1) name
                  else splice 0 (r.1 ++ [0]) name in
      p' ← skip_slashes r.2;
      Some (Some (p', name))
  end.

Definition namecmp (s t : list Z) : option Z := strncmp s t DIRSIZ.

Section fs.
Context {D X : Type} {dev : IdeDevice D}.

Definition set_flog v (s : fss D X) : fss D X := mk_fss v (fsb s) (icache s) (frest s).
Definition set_fsb v (s : fss D X) : fss D X := mk_fss (flog s) v (icache s) (frest s).
Definition set_icache v (s : fss D X) : fss D X := mk_fss (flog s) (fsb s) v (frest s).

Definition lo {A} (m : M (lst D) A) : M (fss D X) A := zoom flog set_flog m.
Definition dio {A} (m : M (ide D) A) : M (fss D X) A := lo (io m).
(** A value that a C expression may fail to have. *)
Definition ofopt {A} (o : option A) : M (fss D X) A := getopt (λ _, o).

Definition get_inode (i : nat) : M (fss D X) inode := getopt (λ s, icache s !! i).
Definition mod_inode (i : nat) (f : inode → inode) : M (fss D X) unit :=
  p ← get_inode i; modify (λ s, set_icache (<[i:=f p]> (icache s)) s).

(** ** Blocks *)
Definition bzero (dv bno : Z) : M (fss D X) unit :=
  bp ← dio (bread dv (u32 bno));
  dio (mod_data bp (splice 0 (replicate (Z.to_nat BSIZE) 0)));;
  lo (log_write bp);;
  dio (brelse bp).

(** The inner loop of [balloc], [k] bits of the bitmap block to go. *)
Fixpoint balloc_scan (k : nat) (bi dv b : Z) (bp : nat) : M (fss D X) (option Z) :=
  match k with
  | O => mret None
  | S k =>
      sb ← gets fsb;
      if b + bi <? sb_size sb then
        x ← dio (get_buf bp);
        byte ← ofopt (b_data x !! Z.to_nat (bi / 8));
        let m := Z.shiftl 1 (bi mod 8) in
        if Z.land byte m =? 0 then
          dio (mod_data bp (λ d, <[Z.to_nat (bi / 8) := u8 (Z.lor byte m)]> d));;
          lo (log_write bp);;
          dio (brelse bp);;
          bzero dv (b + bi);;
          mret (Some (b + bi))
        else balloc_scan k (bi + 1) dv b bp
      else mret None
  end.
Fixpoint balloc_loop (fuel : nat) (b dv : Z) : M (fss D X) Z :=
  match fuel with
  | O => hang
  | S fuel =>
      sb ← gets fsb;
      if b <? sb_size sb then
        bp ← dio (bread dv (BBLOCK b sb));
        r ← balloc_scan (Z.to_nat BPB) 0 dv b bp;
        match r with
        | Some a => mret a
        | None => dio (brelse bp);; balloc_loop fuel (b + BPB) dv
        end
      else panic "balloc: out of blocks"
  end.
Definition balloc (dv : Z) : M (fss D X) Z :=
  sb ← gets fsb; balloc_loop (Z.to_nat (sb_size sb / BPB + 2)) 0 dv.

Definition bfree (dv b : Z) : M (fss D X) unit :=
  sb ← gets fsb;
  bp ← dio (bread dv (BBLOCK b sb));
  let bi := b mod BPB in
  let m := Z.shiftl 1 (bi mod 8) in
  x ← dio (get_buf bp);
  byte ← ofopt (b_data x !! Z.to_nat (bi / 8));
  if Z.land byte m =? 0 then panic "freeing free block" else
  dio (mod_data bp (λ d, <[Z.to_nat (bi / 8) := u8 (Z.land byte (Z.lnot m))]> d));;
  lo (log_write bp);;
  dio (brelse bp).

(** ** Inodes *)
(** [iinit] before its message. *)
Definition iinit_sb (dv : Z) : M (fss D X) unit :=
  sb ← dio (readsb dv); modify (set_fsb sb).

(** The scan of the cache: the hit, or else the first empty slot. *)
Fixpoint iget_scan (k i : nat) (dv inum : Z) (empty : option nat) : M (fss D X) (nat + option nat) :=
  match k with
  | O => mret (inr empty)
  | S k =>
      p ← get_inode i;
      if (i_ref p >? 0) && (i_dev p =? dv) && (i_inum p =? inum) then
        mod_inode i (λ p, set_i_ref (s32 (i_ref p + 1)) p);;
        mret (inl i)
      else
        iget_scan k (S i) dv inum
          (if bool_decide (empty = None) && (i_ref p =? 0) then Some i else empty)
  end.
Definition iget (dv inum : Z) : M (fss D X) nat :=
  dio (on_cpu pushcli);;
  r ← iget_scan NINODE 0 dv inum None;
  match r with
  | inl i => dio (on_cpu popcli);; mret i
  | inr None => panic "iget: no inodes"
  | inr (Some i) =>
      mod_inode i (λ p, mk_inode dv inum 1 0 (i_type p) (i_major p) (i_minor p) (i_nlink p)
                          (i_size p) (i_addrs p));;
      dio (on_cpu popcli);;
      mret i
  end.

Fixpoint ialloc_loop (fuel : nat) (inum dv type : Z) : M (fss D X) nat :=
  match fuel with
  | O => hang
  | S fuel =>
      sb ← gets fsb;
      if inum <? sb_ninodes sb then
        bp ← dio (bread dv (IBLOCK inum sb));
        x ← dio (get_buf bp);
        if s16 (get_u16 (dip_off inum) (b_data x)) =? 0 then
          dio (mod_data bp (splice (dip_off inum) (replicate 64 0)));;
          dio (mod_data bp (put_u16 (dip_off inum) type));;
          lo (log_write bp);;
          dio (brelse bp);;
          iget dv inum
        else
          dio (brelse bp);;
          ialloc_loop fuel (inum + 1) dv type
      else panic "ialloc: no inodes"
  end.
Definition ialloc (dv type : Z) : M (fss D X) nat :=
  sb ← gets fsb; ialloc_loop (Z.to_nat (sb_ninodes sb + 1)) 1 dv type.

Definition iupdate (i : nat) : M (fss D X) unit :=
  p ← get_inode i;
  sb ← gets fsb;
  bp ← dio (bread (i_dev p) (IBLOCK (i_inum p) sb));
  dio (mod_data bp (enc_dinode (dip_off (i_inum p)) (i_disk p)));;
  lo (log_write bp);;
  dio (brelse bp).

(** The loops of [itrunc] over the direct and the indirect addresses. *)
Fixpoint itrunc_direct (k j : nat) (i : nat) : M (fss D X) unit :=
  match k with
  | O => mret tt
  | S k =>
      p ← get_inode i;
      a ← ofopt (i_addrs p !! j);
      (if negb (a =? 0) then
         bfree (i_dev p) a;;
         mod_inode i (λ p, set_i_addrs (<[j:=0]> (i_addrs p)) p)
       else mret tt);;
      itrunc_direct k (S j) i
  end.
Fixpoint itrunc_indirect (k j : nat) (bp i : nat) : M (fss D X) unit :=
  match k with
  | O => mret tt
  | S k =>
      x ← dio (get_buf bp);
      p ← get_inode i;
      (if negb (get_u32 (4 * j) (b_data x) =? 0) then bfree (i_dev p) (get_u32 (4 * j) (b_data x))
       else mret tt);;
      itrunc_indirect k (S j) bp i
  end.
Definition itrunc (i : nat) : M (fss D X) unit :=
  itrunc_direct (Z.to_nat NDIRECT) 0 i;;
  p ← get_inode i;
  a ← ofopt (i_addrs p !! Z.to_nat NDIRECT);
  (if negb (a =? 0) then
     bp ← dio (bread (i_dev p) a);
     itrunc_indirect (Z.to_nat NINDIRECT) 0 bp i;;
     dio (brelse bp);;
     bfree (i_dev p) a;;
     mod_inode i (λ p, set_i_addrs (<[Z.to_nat NDIRECT:=0]> (i_addrs p)) p)
   else mret tt);;
  mod_inode i (set_i_size 0);;
  iupdate i.

Definition iput (i : nat) : M (fss D X) unit :=
  dio (on_cpu pushcli);;
  p ← get_inode i;
  (if negb (i_valid p =? 0) && (i_nlink p =? 0) then
     let r := i_ref p in
     if r =? 1 then
       dio (on_cpu popcli);;
       itrunc i;;
       mod_inode i (set_i_type 0);;
       iupdate i;;
       mod_inode i (set_i_valid 0);;
       dio (on_cpu pushcli)
     else mret tt
   else mret tt);;
  mod_inode i (λ p, set_i_ref (s32 (i_ref p - 1)) p);;
  dio (on_cpu popcli).

(** [ip] may be null. *)
Definition iread (ip : option nat) : M (fss D X) unit :=
  match ip with
  | None => panic "iread"
  | Some i =>
      p ← get_inode i;
      if i_ref p <? 1 then panic "iread" else
      if i_valid p =? 0 then
        sb ← gets fsb;
        bp ← dio (bread (i_dev p) (IBLOCK (i_inum p) sb));
        x ← dio (get_buf bp);
        mod_inode i (set_i_disk (dec_dinode (dip_off (i_inum p)) (b_data x)));;
        dio (brelse bp);;
        mod_inode i (set_i_valid 1);;
        p ← get_inode i;
        if i_type p =? 0 then panic "iread: no type" else mret tt
      else mret tt
  end.

Definition bmap (i : nat) (bn : Z) : M (fss D X) Z :=
  p ← get_inode i;
  if bn <? NDIRECT then
    addr ← ofopt (i_addrs p !! Z.to_nat bn);
    if addr =? 0 then
      addr ← balloc (i_dev p);
      mod_inode i (λ p, set_i_addrs (<[Z.to_nat bn:=addr]> (i_addrs p)) p);;
      mret addr
    else mret addr
  else
  let bn := bn - NDIRECT in
  if bn <? NINDIRECT then
    addr ← ofopt (i_addrs p !! Z.to_nat NDIRECT);
    addr ← (if addr =? 0 then
              addr ← balloc (i_dev p);
              mod_inode i (λ p, set_i_addrs (<[Z.to_nat NDIRECT:=addr]> (i_addrs p)) p);;
              mret addr
            else mret addr);
    bp ← dio (bread (i_dev p) addr);
    x ← dio (get_buf bp);
    let addr := get_u32 (4 * Z.to_nat bn) (b_data x) in
    addr ← (if addr =? 0 then
              addr ← balloc (i_dev p);
              dio (mod_data bp (put_u32 (4 * Z.to_nat bn) addr));;
              lo (log_write bp);;
              mret addr
            else mret addr);
    dio (brelse bp);;
    mret addr
  else panic "bmap: out of range".

Definition stati (i : nat) : M (fss D X) stat :=
  p ← get_inode i; mret (mk_stat (i_type p) (s32 (i_dev p)) (i_inum p) (i_nlink p) (i_size p)).

(** The table of device routines, indexed by major number. *)
Record devsw := mk_devsw {
  dev_read : option (nat → Z → M (fss D X) (Z * list Z));
  dev_write : option (nat → list Z → Z → M (fss D X) Z);
}.
Context (devtab : list devsw).

(** The copying loop: [acc] is what has been stored through [dst]. *)
Fixpoint readi_loop (fuel : nat) (i : nat) (off n tot : Z) (acc : list Z) : M (fss D X) (list Z) :=
  match fuel with
  | O => hang
  | S fuel =>
      if tot <? n then
        p ← get_inode i;
        a ← bmap i (off / BSIZE);
        bp ← dio (bread (i_dev p) a);
        let m := Z.min (n - tot) (BSIZE - off mod BSIZE) in
        x ← dio (get_buf bp);
        dio (brelse bp);;
        readi_loop fuel i (u32 (off + m)) n (tot + m)
          (acc ++ slice (Z.to_nat (off mod BSIZE)) (Z.to_nat m) (b_data x))
      else mret acc
  end.
(** The result and the bytes stored through [dst]. *)
Definition readi (i : nat) (off n : Z) : M (fss D X) (Z * list Z) :=
  p ← get_inode i;
  if i_type p =? T_DEV then
    if (i_major p <? 0) || (i_major p >=? NDEV) then mret (-1, []) else
    d ← ofopt (devtab !! Z.to_nat (i_major p));
    match dev_read d with
    | None => mret (-1, [])
    | Some f => f i (s32 n)
    end
  else
  if (off >? i_size p) || (u32 (off + n) <? off) || (i_nlink p <? 1) then mret (-1, []) else
  let n := if u32 (off + n) >? i_size p then u32 (i_size p - off) else n in
  bs ← readi_loop (Z.to_nat (n / BSIZE + 3)) i off n 0 [];
  mret (s32 n, bs).

Fixpoint writei_loop (fuel : nat) (i : nat) (src : list Z) (off n tot : Z) : M (fss D X) Z :=
  match fuel with
  | O => hang
  | S fuel =>
      if tot <? n then
        p ← get_inode i;
        a ← bmap i (off / BSIZE);
        bp ← dio (bread (i_dev p) a);
        let m := Z.min (n - tot) (BSIZE - off mod BSIZE) in
        (if tot + m >? Z.of_nat (length src) then undef else mret tt);;
        dio (mod_data bp (splice (Z.to_nat (off mod BSIZE)) (slice (Z.to_nat tot) (Z.to_nat m) src)));;
        lo (log_write bp);;
        dio (brelse bp);;
        writei_loop fuel i src (u32 (off + m)) n (tot + m)
      else mret off
  end.
Definition writei (i : nat) (src : list Z) (off n : Z) : M (fss D X) Z :=
  p ← get_inode i;
  if i_type p =? T_DEV then
    if (i_major p <? 0) || (i_major p >=? NDEV) then mret (-1) else
    d ← ofopt (devtab !! Z.to_nat (i_major p));
    match dev_write d with
    | None => mret (-1)
    | Some f => f i src (s32 n)
    end
  else
  if (off >? i_size p) || (u32 (off + n) <? off) then mret (-1) else
  if u32 (off + n) >? MAXFILE * BSIZE then mret (-1) else
  off' ← writei_loop (Z.to_nat (n / BSIZE + 3)) i src off n 0;
  p ← get_inode i;
  (if (n >? 0) && (off' >? i_size p) then mod_inode i (set_i_size off');; iupdate i else mret tt);;
  mret (s32 n).

(** ** Directories *)
Fixpoint dirlookup_loop (fuel : nat) (i : nat) (name : list Z) (off : Z) : M (fss D X) (option (nat * Z)) :=
  match fuel with
  | O => hang
  | S fuel =>
      p ← get_inode i;
      if off <? i_size p then
        r ← readi i off 16;
        if negb (r.1 =? 16) then panic "dirlookup read" else
        let de := dec_dirent r.2 in
        if de_inum de =? 0 then dirlookup_loop fuel i name (u32 (off + 16)) else
        c ← ofopt (namecmp name (de_name de));
        if c =? 0 then
          j ← iget (i_dev p) (de_inum de);
          mret (Some (j, off))
        else dirlookup_loop fuel i name (u32 (off + 16))
      else mret None
  end.
(** The inode found and the offset of its entry ([*poff]). *)
Definition dirlookup (i : nat) (name : list Z) : M (fss D X) (option (nat * Z)) :=
  p ← get_inode i;
  if negb (i_type p =? T_DIR) then panic "dirlookup not DIR" else
  dirlookup_loop (Z.to_nat (i_size p / 16 + 2)) i name 0.

(** The search for an empty entry: the offset where it stops. *)
Fixpoint dirlink_loop (fuel : nat) (i : nat) (off : Z) : M (fss D X) Z :=
  match fuel with
  | O => hang
  | S fuel =>
      p ← get_inode i;
      if off <? i_size p then
        r ← readi i off 16;
        if negb (r.1 =? 16) then panic "dirlink read" else
        if de_inum (dec_dirent r.2) =? 0 then mret off else dirlink_loop fuel i (off + 16)
      else mret off
  end.
Definition dirlink (i : nat) (name : list Z) (inum : Z) : M (fss D X) Z :=
  r ← dirlookup i name;
  match r with
  | Some (j, _) => iput j;; mret (-1)
  | None =>
      p ← get_inode i;
      off ← dirlink_loop (Z.to_nat (i_size p / 16 + 2)) i 0;
      nm ← ofopt (strncpy name DIRSIZ);
      w ← writei i (enc_dirent (mk_dirent (u16 inum) nm)) off 16;
      if negb (w =? 16) then panic "dirlink" else mret 0
  end.

(** ** Paths *)
Fixpoint namex_loop (fuel : nat) (i : nat) (path : list Z) (parent : bool) (name : list Z) :
    M (fss D X) (option nat * list Z) :=
  match fuel with
  | O => hang
  | S fuel =>
      e ← ofopt (skipelem path name);
      match e with
      | Some (path, name) =>
          iread (Some i);;
          p ← get_inode i;
          if negb (i_type p =? T_DIR) then iput i;; mret (None, name) else
          if parent && bool_decide (head path = Some 0) then mret (Some i, name) else
          next ← dirlookup i name;
          match next with
          | None => iput i;; mret (None, name)
          | Some (j, _) => iput i;; namex_loop fuel j path parent name
          end
      | None => if parent then iput i;; mret (None, name) else mret (Some i, name)
      end
  end.
(** The inode and the contents of [name] on return. *)
Definition namex (path : list Z) (parent : bool) (name : list Z) : M (fss D X) (option nat * list Z) :=
  i ← iget ROOTDEV ROOTINO;
  namex_loop (S (length path)) i path parent name.
(** [name] is the uninitialised local array of [namei]. *)
Definition namei (path name : list Z) : M (fss D X) (option nat) :=
  r ← namex path false name; mret r.1.
Definition nameiparent (path name : list Z) : M (fss D X) (option nat * list Z) :=
  namex path true name.
End fs.
