(* ===== verification/FsFacts.v ===== *)
(** * fs.c: the file system invariant and its block layer

    [fs_inv] collects the invariants of the layers below, the geometry the
    superblock promises and the reference counts of the inode cache. The
    second half specifies the bitmap allocator. *)

From S2P Require Import Prelude Spinlock CString Ide Bio BioFacts Layout Log LogDisk LogFacts LogSpecs Fs.

(** The regions of the image, in order: log, inodes, bitmap, data. *)
Record geom_ok (sb : superblock) (l : log) : Prop := {
  gm_log : log_start l + log_size l ≤ sb_inodestart sb;
  gm_ninodes : 0 < sb_ninodes sb;
  gm_inodes : sb_inodestart sb + sb_ninodes sb / IPB + 1 ≤ sb_bmapstart sb;
  gm_bmap : sb_bmapstart sb < sb_size sb;
  gm_size : sb_size sb ≤ FSSIZE;
}.

(** [R] lists the inode references handed out, once per reference. *)
Record icache_ok (ic : list inode) (R : list nat) : Prop := {
  ic_len : length ic = NINODE;
  ic_addrs i p : ic !! i = Some p → length (i_addrs p) = 13%nat;
  ic_ref i p : ic !! i = Some p → i_ref p = refs R i;
  ic_held i : i ∈ R → (i < NINODE)%nat;
  ic_uniq i j p q : ic !! i = Some p → ic !! j = Some q → 0 < i_ref p → 0 < i_ref q →
    i_dev p = i_dev q → i_inum p = i_inum q → i = j;
}.

Section facts.
Context {D X : Type} {dev : IdeDevice D} {dok : IdeDeviceOk D}.
Implicit Types s : fss D X.

Definition fio s : ide D := lio (flog s).
Definition fview s : disk := view (fio s).

Record fs_inv s (H : list nat) (L : list Z) (R : list nat) : Prop := {
  fi_log : log_inv (flog s) H L;
  fi_geom : geom_ok (fsb s) (lg (flog s));
  fi_icache : icache_ok (icache s) R;
}.

(** What an operation leaves alone: the disk itself (nothing is written
    before the commit), the superblock and log geometry, the handles [H] and
    the rest of the kernel. Blocks now read as [V]. *)
Record fs_step s s' (H : list nat) (V : disk) : Prop := {
  fst_view k : fview s' k = V k;
  fst_platter k : platter (fio s') k = platter (fio s) k;
  fst_wrote : wrote (fio s') = wrote (fio s);
  fst_holds j k : j ∈ H → holds (fio s) j k → holds (fio s') j k;
  fst_sb : fsb s' = fsb s;
  fst_start : log_start (lg (flog s')) = log_start (lg (flog s));
  fst_lsize : log_size (lg (flog s')) = log_size (lg (flog s));
  fst_rest : frest s' = frest s;
}.

Lemma fs_step_refl s H : fs_step s s H (fview s).
Proof. by constructor. Qed.
Lemma fs_step_trans s1 s2 s3 H V1 V2 :
  fs_step s1 s2 H V1 → fs_step s2 s3 H V2 → fs_step s1 s3 H V2.
Proof. intros [] []. constructor; eauto; congruence. Qed.
Lemma fs_step_ext s s' H V V' : fs_step s s' H V → (∀ k, V k = V' k) → fs_step s s' H V'.
Proof. intros [] HV. constructor; try done. intros k. by rewrite <- HV. Qed.
Lemma fs_step_sub s s' H H' V : H' ⊆ H → fs_step s s' H V → fs_step s s' H' V.
Proof. intros Hsub []. constructor; eauto. Qed.

(** [room s L k]: the log takes [k] more blocks. *)
Definition room s (L : list Z) (k : nat) : Prop := Z.of_nat (length L + k) < log_size (lg (flog s)).

Lemma room_buffers s H L R k :
  fs_inv s H L R → room s L k → (length H ≤ k)%nat → (length H + length L < NBUF)%nat.
Proof.
  intros [Hlog _ _] Hr Hk. pose proof (lgm_size _ (li_geom _ _ _ Hlog)). unfold room, NBUF, LOGSIZE in *. lia.
Qed.

Lemma logged_length L bn : (length (logged L bn) ≤ S (length L))%nat.
Proof. unfold logged. case_decide; rewrite ?length_app; cbn; lia. Qed.

Lemma room_logged s L bn k : room s L (S k) → room s (logged L bn) k.
Proof. unfold room. pose proof (logged_length L bn). lia. Qed.
Lemma room_le s L k k' : room s L k → (k' ≤ k)%nat → room s L k'.
Proof. unfold room. lia. Qed.
Lemma room_step s s' H V L k : fs_step s s' H V → room s L k → room s' L k.
Proof. intros Hs. unfold room. by rewrite (fst_lsize _ _ _ _ Hs). Qed.

Lemma wp_lo {A} E (m : M (lst D) A) (Q : A → fss D X → Prop) s :
  wp E m (λ a l, Q a (set_flog l s)) (flog s) → wp E (lo m) Q s.
Proof. apply wp_zoom. Qed.
Lemma wp_dio {A} E (m : M (ide D) A) (Q : A → fss D X → Prop) s :
  wp E m (λ a c, Q a (set_flog (set_lio c (flog s)) s)) (fio s) → wp E (dio m) Q s.
Proof. intros. by apply wp_lo, wp_io. Qed.

(** A state that differs in the cache only. *)
Lemma fs_inv_io s c H H' L R :
  fs_inv s H L R → bio_inv c H' L → (∀ k, platter c k = platter (fio s) k) →
  fs_inv (set_flog (set_lio c (flog s)) s) H' L R.
Proof.
  intros [Hlog Hg Hic] Hc Hp. constructor; [|done|done]. destruct Hlog. constructor; cbn [lio lg set_lio]; try done.
  by rewrite Hp.
Qed.

Lemma fs_step_io s c H : same_io (fio s) c H →
  fs_step s (set_flog (set_lio c (flog s)) s) H (fview s).
Proof. intros []. constructor; try done. intros k. apply si_media. Qed.

Lemma wp_dio_bread E bn H L R (Q : nat → fss D X → Prop) s :
  fs_inv s H L R → 0 ≤ bn < FSSIZE → (length H + length L < NBUF)%nat →
  (∀ i s', fs_inv s' (i :: H) L R → holds (fio s') i bn → fs_step s s' H (fview s) →
     icache s' = icache s → Q i s') →
  wp E (dio (bread ROOTDEV bn)) Q s.
Proof.
  intros Hinv Hbn Hfree HQ. apply wp_dio.
  eapply wp_bread; [apply Hinv|done|unfold NBUF in *; lia|auto|]. intros i c Hc Hh Hio.
  apply HQ; [|done|by apply fs_step_io|done]. eapply fs_inv_io; [done..|]. intros k. apply Hio.
Qed.

Lemma wp_dio_brelse E i H L R (Q : unit → fss D X → Prop) s :
  fs_inv s (i :: H) L R → (length H < 900)%nat →
  (∀ s', fs_inv s' H L R → fs_step s s' H (fview s) → icache s' = icache s → Q tt s') →
  wp E (dio (brelse i)) Q s.
Proof.
  intros Hinv HH HQ. apply wp_dio. eapply wp_brelse; [apply Hinv|lia|]. intros c Hc Hio _.
  apply HQ; [|by apply fs_step_io|done]. eapply fs_inv_io; [done..|]. intros k. apply Hio.
Qed.

Lemma wp_dio_get_buf E i bn H L R (Q : buf → fss D X → Prop) s :
  fs_inv s H L R → holds (fio s) i bn →
  (∀ b, b_data b = fview s bn → Q b s) → wp E (dio (get_buf i)) Q s.
Proof.
  intros Hinv Hh HQ. pose proof Hh as (_ & b & Hb & _). apply wp_dio. eapply wp_get_buf; [done|].
  specialize (HQ b). destruct s as [[] ? ? ?]. apply HQ. by eapply holds_view; [apply Hinv|..].
Qed.

(** Data stored in a buffer and not yet logged. *)
Definition fwith s (i : nat) (x : list Z) : fss D X := set_flog (set_lio (with_data (fio s) i x) (flog s)) s.

Lemma wp_dio_mod_data E f i bn H L R (Q : unit → fss D X → Prop) s :
  fs_inv s H L R → holds (fio s) i bn → Q tt (fwith s i (f (fview s bn))) →
  wp E (dio (mod_data i f)) Q s.
Proof. intros Hinv Hh HQ. apply wp_dio. eapply wp_mod_data; [apply Hinv|done|done]. Qed.

Lemma wp_dio_mod_data_again E f i bn x (Q : unit → fss D X → Prop) s :
  holds (fio s) i bn → Q tt (fwith s i (f x)) → wp E (dio (mod_data i f)) Q (fwith s i x).
Proof. intros (_ & b & Hb & _) HQ. apply wp_dio. by eapply wp_mod_data_again. Qed.

Lemma wp_lo_log_write E i bn x H L R (Q : unit → fss D X → Prop) s :
  fs_inv s H L R → holds (fio s) i bn → i ∈ H → length x = 512%nat →
  log_start (lg (flog s)) + log_size (lg (flog s)) ≤ bn → room s L 1 →
  (∀ s', fs_inv s' H (logged L bn) R → fs_step s s' H (wr (fview s) bn x) →
     icache s' = icache s → Q tt s') →
  wp E (lo (log_write i)) Q (fwith s i x).
Proof.
  intros [Hlog Hg Hic] Hh HiH Hx Hhome Hroom HQ. apply wp_lo.
  eapply (wp_log_write _ i bn x H L _ _ (fio s)); try done.
  - cbn [flog fwith set_flog]. unfold fio. destruct s as [[] ? ? ?]. done.
  - by right.
  - destruct (li_geom _ _ _ Hlog). lia.
  - left. unfold room in Hroom. cbn [flog fwith set_flog lg set_lio]. lia.
  - intros l' Hl' [Hv Hhs] Hp Hw Hst Hsz. cbn [flog fwith set_flog lg set_lio] in *. apply HQ; [|by constructor|done].
    constructor; [done| |done]. destruct Hg. constructor; cbn [flog set_flog fsb]; rewrite ?Hst, ?Hsz; done.
Qed.

Lemma holds_step s s' H V i bn : fs_step s s' H V → i ∈ H → holds (fio s) i bn → holds (fio s') i bn.
Proof. intros Hs. apply (fst_holds _ _ _ _ Hs). Qed.

(** ** The bitmap *)
Definition bit_at (x : list Z) (bi : Z) : bool :=
  Z.testbit (default 0 (x !! Z.to_nat (bi / 8))) (bi mod 8).
Definition used (V : disk) (sb : superblock) (b : Z) : bool := bit_at (V (BBLOCK b sb)) (b mod BPB).
Definition mark (x : list Z) (bi : Z) : list Z :=
  <[Z.to_nat (bi / 8) := u8 (Z.lor (default 0 (x !! Z.to_nat (bi / 8))) (Z.shiftl 1 (bi mod 8)))]> x.
Definition unmark (x : list Z) (bi : Z) : list Z :=
  <[Z.to_nat (bi / 8) := u8 (Z.land (default 0 (x !! Z.to_nat (bi / 8))) (Z.lnot (Z.shiftl 1 (bi mod 8))))]> x.

Lemma testbit_u8 z n : 0 ≤ n < 8 → Z.testbit (u8 z) n = Z.testbit z n.
Proof.
  intros. unfold u8. change 256 with (2 ^ 8). by rewrite Z.mod_pow2_bits_low by lia.
Qed.

Lemma bit_index bi bi' : 0 ≤ bi → 0 ≤ bi' → bi / 8 = bi' / 8 → bi mod 8 = bi' mod 8 → bi = bi'.
Proof. intros. rewrite (Z_div_mod_eq_full bi 8), (Z_div_mod_eq_full bi' 8). lia. Qed.

(** A one-bit change to one byte of the bitmap. *)
Lemma bit_at_insert x bi bi' v :
  0 ≤ bi → 0 ≤ bi' → (Z.to_nat (bi / 8) < length x)%nat →
  bit_at (<[Z.to_nat (bi / 8) := v]> x) bi' =
    if decide (bi / 8 = bi' / 8) then Z.testbit v (bi' mod 8) else bit_at x bi'.
Proof.
  intros H0 H0' Hl. assert (0 ≤ bi / 8) by (by apply Z.div_pos). assert (0 ≤ bi' / 8) by (by apply Z.div_pos).
  unfold bit_at. case_decide as Hd.
  - rewrite Hd. by rewrite list_lookup_insert_eq by (by rewrite <- Hd).
  - by rewrite list_lookup_insert_ne by lia.
Qed.

Lemma bit_at_mark x bi bi' :
  0 ≤ bi → 0 ≤ bi' → (Z.to_nat (bi / 8) < length x)%nat →
  bit_at (mark x bi) bi' = if decide (bi' = bi) then true else bit_at x bi'.
Proof.
  intros H0 H0' Hl. pose proof (Z.mod_pos_bound bi 8 ltac:(lia)). pose proof (Z.mod_pos_bound bi' 8 ltac:(lia)).
  unfold mark. rewrite bit_at_insert by done. case_decide as Hd.
  - rewrite testbit_u8, testbit_lor_pow2 by lia. destruct (Z.eqb_spec (bi mod 8) (bi' mod 8)) as [He|He].
    + by rewrite decide_True by (symmetry; by apply bit_index).
    + rewrite decide_False by congruence. unfold bit_at. by rewrite Hd.
  - by rewrite decide_False by congruence.
Qed.

Lemma bit_at_unmark x bi bi' :
  0 ≤ bi → 0 ≤ bi' → (Z.to_nat (bi / 8) < length x)%nat →
  bit_at (unmark x bi) bi' = if decide (bi' = bi) then false else bit_at x bi'.
Proof.
  intros H0 H0' Hl. pose proof (Z.mod_pos_bound bi 8 ltac:(lia)). pose proof (Z.mod_pos_bound bi' 8 ltac:(lia)).
  unfold unmark. rewrite bit_at_insert by done. case_decide as Hd.
  - rewrite testbit_u8, testbit_andnot_pow2 by lia. destruct (Z.eqb_spec (bi mod 8) (bi' mod 8)) as [He|He].
    + by rewrite decide_True by (symmetry; by apply bit_index).
    + rewrite decide_False by congruence. unfold bit_at. by rewrite Hd.
  - by rewrite decide_False by congruence.
Qed.

(** The image is smaller than one bitmap block covers. *)
Lemma bitmap_block s H L R b :
  fs_inv s H L R → 0 ≤ b < sb_size (fsb s) →
  BBLOCK b (fsb s) = sb_bmapstart (fsb s) ∧ b mod BPB = b ∧
  0 ≤ sb_bmapstart (fsb s) < FSSIZE ∧
  log_start (lg (flog s)) + log_size (lg (flog s)) ≤ sb_bmapstart (fsb s).
Proof.
  intros [Hlog [] _] Hb. pose proof (li_geom _ _ _ Hlog) as []. unfold BBLOCK, BPB, FSSIZE in *.
  assert (0 ≤ sb_ninodes (fsb s) / IPB) by (apply Z.div_pos; unfold IPB; lia).
  rewrite Z.div_small, Z.mod_small, Z.add_0_l, u32_small by lia. lia.
Qed.

(** Every block up to the bitmap belongs to the format and is in use. *)
Definition meta_used s : Prop := ∀ b, 0 ≤ b ≤ sb_bmapstart (fsb s) → used (fview s) (fsb s) b = true.

Lemma meta_data s H L R b :
  fs_inv s H L R → meta_used s → 0 ≤ b → used (fview s) (fsb s) b = false →
  log_start (lg (flog s)) + log_size (lg (flog s)) ≤ b ∧ sb_bmapstart (fsb s) < b.
Proof.
  intros Hinv Hm Hb Hu. assert (sb_bmapstart (fsb s) < b) as Hlt.
  { destruct (Z_lt_le_dec (sb_bmapstart (fsb s)) b); [done|]. by rewrite Hm in Hu by lia. }
  destruct (bitmap_block s H L R (sb_bmapstart (fsb s)) Hinv) as (_ & _ & ? & ?); [|lia].
  pose proof (gm_bmap _ _ (fi_geom _ _ _ _ Hinv)). pose proof (li_geom _ _ _ (fi_log _ _ _ _ Hinv)) as [].
  pose proof (gm_log _ _ (fi_geom _ _ _ _ Hinv)). pose proof (gm_inodes _ _ (fi_geom _ _ _ _ Hinv)).
  assert (0 ≤ sb_ninodes (fsb s) / IPB); [|lia].
  pose proof (gm_ninodes _ _ (fi_geom _ _ _ _ Hinv)). apply Z.div_pos; unfold IPB; lia.
Qed.

Definition zeros : list Z := replicate 512 0.

Lemma wp_bzero E bn H L R (Q : unit → fss D X → Prop) s :
  fs_inv s H L R → 0 ≤ bn < FSSIZE → log_start (lg (flog s)) + log_size (lg (flog s)) ≤ bn →
  room s L 1 → (length H + length L < NBUF)%nat →
  (∀ s', fs_inv s' H (logged L bn) R → fs_step s s' H (wr (fview s) bn zeros) →
     icache s' = icache s → Q tt s') →
  wp E (bzero ROOTDEV bn) Q s.
Proof.
  intros Hinv Hbn Hhome Hroom Hfree HQ. unfold bzero. rewrite u32_small by (unfold FSSIZE in *; lia).
  apply wp_bind. eapply wp_dio_bread; [done..|]. intros i s1 Hinv1 Hh1 Hs1 Hi1.
  apply wp_bind. eapply wp_dio_mod_data; [done..|].
  assert (length (fview s1 bn) = 512%nat) as Hl by (eapply length_view, Hinv1).
  replace (splice 0 _ _) with zeros.
  2: { unfold splice, zeros. change (Z.to_nat BSIZE) with 512%nat.
       rewrite take_0, length_replicate, drop_ge by lia. by rewrite app_nil_r. }
  apply wp_bind. eapply wp_lo_log_write; [done|done|set_solver|done| | |].
  { by rewrite (fst_start _ _ _ _ Hs1), (fst_lsize _ _ _ _ Hs1). }
  { by eapply room_step. }
  intros s2 Hinv2 Hs2 Hi2. eapply wp_dio_brelse; [done|unfold NBUF in *; lia|].
  intros s3 Hinv3 Hs3 Hi3. apply HQ; [done| |congruence].
  eapply fs_step_trans; [done|]. eapply fs_step_trans; [eapply fs_step_sub; [|done]; set_solver|].
  eapply fs_step_ext; [done|]. intros k. rewrite (fst_view _ _ _ _ Hs2). apply wr_ext. apply Hs1.
Qed.

Lemma byte_lookup (x : list Z) n : (n < length x)%nat → x !! n = Some (default 0 (x !! n)).
Proof. intros [y Hy]%lookup_lt_is_Some_2. by rewrite Hy. Qed.

(** The blocks and the disk after [balloc] has handed out [b]. *)
Definition balloc_view s (b : Z) : disk :=
  let bm := sb_bmapstart (fsb s) in wr (wr (fview s) bm (mark (fview s bm) b)) b zeros.
Definition balloc_log s (L : list Z) (b : Z) : list Z := logged (logged L (sb_bmapstart (fsb s))) b.

Lemma wp_balloc_take E bi bp H L R (k : M (fss D X) (option Z)) (Q : option Z → fss D X → Prop) s :
  fs_inv s (bp :: H) L R → meta_used s → holds (fio s) bp (sb_bmapstart (fsb s)) →
  0 ≤ bi < sb_size (fsb s) → used (fview s) (fsb s) bi = false → room s L 2 →
  (S (length H) + length L < NBUF)%nat →
  (∀ s', fs_inv s' H (balloc_log s L bi) R → fs_step s s' H (balloc_view s bi) → icache s' = icache s →
     wp E k Q s') →
  wp E (dio (mod_data bp (λ d, <[Z.to_nat (bi / 8) :=
          u8 (Z.lor (default 0 (fview s (sb_bmapstart (fsb s)) !! Z.to_nat (bi / 8))) (Z.shiftl 1 (bi mod 8)))]> d));;
        lo (log_write bp);; dio (brelse bp);; bzero ROOTDEV (0 + bi);; k) Q s.
Proof.
  intros Hinv Hmeta Hh Hbi Hu Hroom Hfree HQ.
  destruct (bitmap_block s _ L R bi Hinv Hbi) as (Hbb & Hmod & Hr & Hhome).
  destruct (meta_data s _ L R bi Hinv Hmeta ltac:(lia) Hu) as [Hdata _].
  pose proof (gm_size _ _ (fi_geom _ _ _ _ Hinv)).
  apply wp_bind. eapply wp_dio_mod_data; [done..|]. cbn beta.
  change (<[Z.to_nat (bi / 8):=_]> _) with (mark (fview s (sb_bmapstart (fsb s))) bi).
  apply wp_bind. eapply wp_lo_log_write; [done|done|set_solver| |done|by eapply room_le, Nat.le_succ_diag_r|].
  { unfold mark. rewrite length_insert. eapply length_view, Hinv. }
  intros s2 Hinv2 Hs2 Hi2.
  apply wp_bind. eapply wp_dio_brelse; [done|unfold NBUF in *; lia|]. intros s3 Hinv3 Hs3 Hi3.
  apply (fs_step_sub _ _ _ H) in Hs2; [|set_solver].
  pose proof (fs_step_trans _ _ _ _ _ _ Hs2 Hs3) as Hs13.
  pose proof (logged_length L (sb_bmapstart (fsb s))).
  apply wp_bind. rewrite Z.add_0_l. eapply wp_bzero; [done|lia| | |lia|].
  { rewrite (fst_start _ _ _ _ Hs13), (fst_lsize _ _ _ _ Hs13). done. }
  { eapply room_step; [exact Hs13|]. by apply room_logged. }
  intros s4 Hinv4 Hs4 Hi4. apply HQ; [done| |congruence].
  eapply fs_step_ext; [by eapply fs_step_trans|]. intros j. unfold balloc_view. apply wr_ext. intros j'.
  by rewrite (fst_view _ _ _ _ Hs13), (fst_view _ _ _ _ Hs2).
Qed.

Lemma wp_balloc_scan E k bi bp H L R (Q : option Z → fss D X → Prop) s :
  fs_inv s (bp :: H) L R → meta_used s → holds (fio s) bp (sb_bmapstart (fsb s)) →
  0 ≤ bi → bi + Z.of_nat k = BPB → room s L 2 → (S (length H) + length L < NBUF)%nat →
  (∀ b, 0 ≤ b < bi → b < sb_size (fsb s) → used (fview s) (fsb s) b = true) →
  (∀ b s', 0 ≤ b < sb_size (fsb s) → used (fview s) (fsb s) b = false →
     (∀ b', 0 ≤ b' < b → used (fview s) (fsb s) b' = true) →
     fs_inv s' H (balloc_log s L b) R → fs_step s s' H (balloc_view s b) → icache s' = icache s →
     Q (Some b) s') →
  ((∀ b, 0 ≤ b < sb_size (fsb s) → used (fview s) (fsb s) b = true) → Q None s) →
  wp E (balloc_scan k bi ROOTDEV 0 bp) Q s.
Proof.
  intros Hinv Hmeta Hh. revert bi.
  induction k as [|k IH]; intros bi H0 Hk Hroom Hfree Hlow HQ1 HQ2; cbn [balloc_scan].
  - apply wp_ret, HQ2. intros b Hb. apply Hlow; [|lia].
    pose proof (gm_size _ _ (fi_geom _ _ _ _ Hinv)). unfold FSSIZE, BPB in *. lia.
  - apply wp_bind, wp_gets. destruct (Z.ltb_spec (0 + bi) (sb_size (fsb s))) as [Hlt|Hge].
    2: { apply wp_ret, HQ2. intros b Hb. apply Hlow; lia. }
    destruct (bitmap_block s _ L R bi Hinv) as (Hbb & Hmod & Hr & Hhome); [lia|].
    assert (used (fview s) (fsb s) bi = bit_at (fview s (sb_bmapstart (fsb s))) bi) as Hused.
    { unfold used. by rewrite Hbb, Hmod. }
    apply wp_bind. eapply wp_dio_get_buf; [done..|]. intros x ->.
    assert (Z.to_nat (bi / 8) < length (fview s (sb_bmapstart (fsb s))))%nat as Hl.
    { unfold fview. rewrite (length_view _ _ _ _ (li_bio _ _ _ (fi_log _ _ _ _ Hinv))).
      unfold BPB in *. assert (bi / 8 < 512); [apply Z.div_lt_upper_bound; lia|lia]. }
    apply wp_bind. eapply wp_getopt; [by apply byte_lookup|].
    rewrite land_pow2_eq0 by (apply Z.mod_pos_bound; lia).
    fold (bit_at (fview s (sb_bmapstart (fsb s))) bi). rewrite <- Hused.
    destruct (used (fview s) (fsb s) bi) eqn:Hu; cbn [negb].
    + apply IH; [lia|lia|done|done| |done|done]. intros b Hb Hbs.
      destruct (decide (b = bi)) as [->|]; [done|]. apply Hlow; lia.
    + eapply wp_balloc_take; [done|done|done|lia|done|done|done|]. intros s' Hinv' Hs' Hi'.
      apply wp_ret. rewrite Z.add_0_l in Hlt |- *. apply HQ1; try done. intros b' Hb'. apply Hlow; lia.
Qed.

(** [balloc]: the lowest free block, marked and zeroed, or a panic when
    every block is in use. *)
Lemma wp_balloc E H L R (Q : Z → fss D X → Prop) s :
  fs_inv s H L R → meta_used s → room s L 2 → (S (length H) + length L < NBUF)%nat →
  (∀ b s', 0 ≤ b < sb_size (fsb s) → used (fview s) (fsb s) b = false →
     (∀ b', 0 ≤ b' < b → used (fview s) (fsb s) b' = true) →
     fs_inv s' H (balloc_log s L b) R → fs_step s s' H (balloc_view s b) → icache s' = icache s →
     Q b s') →
  ((∀ b, 0 ≤ b < sb_size (fsb s) → used (fview s) (fsb s) b = true) → E "balloc: out of blocks") →
  wp E (balloc ROOTDEV) Q s.
Proof.
  intros Hinv Hmeta Hroom Hfree HQ1 HQ2. unfold balloc. apply wp_bind, wp_gets.
  pose proof (fi_geom _ _ _ _ Hinv) as [_ _ _ Hbm Hsz].
  assert (0 ≤ sb_bmapstart (fsb s)) as Hbm0.
  { pose proof (fi_geom _ _ _ _ Hinv) as [? ? ?]. pose proof (li_geom _ _ _ (fi_log _ _ _ _ Hinv)) as [].
    assert (0 ≤ sb_ninodes (fsb s) / IPB) by (apply Z.div_pos; unfold IPB; lia). lia. }
  assert (sb_size (fsb s) / BPB = 0) as -> by (apply Z.div_small; unfold FSSIZE, BPB in *; lia).
  change (Z.to_nat (0 + 2)) with 2%nat. cbn [balloc_loop]. apply wp_bind, wp_gets.
  rewrite (proj2 (Z.ltb_lt 0 (sb_size (fsb s)))) by lia.
  destruct (bitmap_block s _ L R 0 Hinv) as (Hbb & Hmod & Hr & Hhome); [lia|]. rewrite Hbb.
  apply wp_bind. eapply wp_dio_bread; [done|done|lia|]. intros bp s1 Hinv1 Hh1 Hs1 Hi1.
  pose proof (fst_sb _ _ _ _ Hs1) as Hsb.
  assert (∀ b, used (fview s1) (fsb s1) b = used (fview s) (fsb s) b) as Hus.
  { intros b. unfold used. by rewrite (fst_view _ _ _ _ Hs1), Hsb. }
  apply wp_bind. eapply (wp_balloc_scan _ _ 0 bp H L R).
  - done.
  - intros b Hb. rewrite Hus. apply Hmeta. by rewrite <- Hsb.
  - by rewrite Hsb.
  - done.
  - unfold BPB. lia.
  - by eapply room_step.
  - done.
  - lia.
  - intros b s2 Hb Hf Hlow Hinv2 Hs2 Hi2. apply wp_ret. rewrite Hsb in Hb. rewrite Hus in Hf.
    unfold balloc_log in Hinv2. rewrite Hsb in Hinv2. apply HQ1; try done; [| |congruence].
    + intros b' Hb'. rewrite <- Hus. by apply Hlow.
    + eapply fs_step_ext; [by eapply fs_step_trans|]. intros j. unfold balloc_view. rewrite Hsb.
      apply wr_ext. intros j'. rewrite (fst_view _ _ _ _ Hs1). apply wr_ext, Hs1.
  - intros Hall. apply wp_bind. eapply wp_dio_brelse; [done|unfold NBUF in *; lia|].
    intros s2 Hinv2 Hs2 _. apply wp_bind, wp_gets. rewrite (fst_sb _ _ _ _ Hs2), Hsb.
    rewrite (proj2 (Z.ltb_ge (0 + BPB) (sb_size (fsb s)))) by (unfold FSSIZE, BPB in *; lia).
    apply wp_panic, HQ2. intros b Hb. rewrite <- Hus. apply Hall. by rewrite Hsb.
Qed.
End facts.
