(* ===== verification/FsInodes.v ===== *)
(** * fs.c: freeing blocks and the inode layer

    Specifications of [bfree], [iget], [iput], [iupdate], [iread] and
    [ialloc] over [fs_inv]. *)

From S2P Require Import Prelude Spinlock CString Ide Bio BioFacts Layout Log LogDisk LogFacts LogSpecs Fs FsFacts.

Section facts.
Context {D X : Type} {dev : IdeDevice D} {dok : IdeDeviceOk D}.
Implicit Types s : fss D X.

(** The shape every routine that rewrites one block has: the block is held,
    gets new contents, is logged and released. *)
Lemma wp_log_release {A} E i bn x H L R (k : M (fss D X) A) (Q : A → fss D X → Prop) s :
  fs_inv s (i :: H) L R → holds (fio s) i bn → length x = 512%nat →
  log_start (lg (flog s)) + log_size (lg (flog s)) ≤ bn → room s L 1 → (length H < 900)%nat →
  (∀ s', fs_inv s' H (logged L bn) R → fs_step s s' H (wr (fview s) bn x) → icache s' = icache s →
     wp E k Q s') →
  wp E (lo (log_write i);; dio (brelse i);; k) Q (fwith s i x).
Proof.
  intros Hinv Hh Hx Hhome Hroom HH HQ.
  apply wp_bind. eapply wp_lo_log_write; [done|done|set_solver|done..|].
  intros s2 Hinv2 Hs2 Hi2. apply wp_bind. eapply wp_dio_brelse; [done|done|].
  intros s3 Hinv3 Hs3 Hi3. apply HQ; [done| |congruence].
  eapply fs_step_trans; [eapply fs_step_sub; [|done]; set_solver|].
  eapply fs_step_ext; [done|]. apply Hs2.
Qed.

Lemma wp_log_release_end E i bn x H L R (Q : unit → fss D X → Prop) s :
  fs_inv s (i :: H) L R → holds (fio s) i bn → length x = 512%nat →
  log_start (lg (flog s)) + log_size (lg (flog s)) ≤ bn → room s L 1 → (length H < 900)%nat →
  (∀ s', fs_inv s' H (logged L bn) R → fs_step s s' H (wr (fview s) bn x) → icache s' = icache s → Q tt s') →
  wp E (lo (log_write i);; dio (brelse i)) Q (fwith s i x).
Proof.
  intros Hinv Hh Hx Hhome Hroom HH HQ.
  apply wp_bind. eapply wp_lo_log_write; [done|done|set_solver|done..|].
  intros s2 Hinv2 Hs2 Hi2. eapply wp_dio_brelse; [done|done|].
  intros s3 Hinv3 Hs3 Hi3. apply HQ; [done| |congruence].
  eapply fs_step_trans; [eapply fs_step_sub; [|done]; set_solver|].
  eapply fs_step_ext; [done|]. apply Hs2.
Qed.

(** ** bfree *)
Definition bfree_view s (b : Z) : disk :=
  let bm := sb_bmapstart (fsb s) in wr (fview s) bm (unmark (fview s bm) b).

Lemma wp_bfree E b H L R (Q : unit → fss D X → Prop) s :
  fs_inv s H L R → 0 ≤ b < sb_size (fsb s) → room s L 1 → (length H + length L < NBUF)%nat →
  (used (fview s) (fsb s) b = true → ∀ s', fs_inv s' H (logged L (sb_bmapstart (fsb s))) R →
     fs_step s s' H (bfree_view s b) → icache s' = icache s → Q tt s') →
  (used (fview s) (fsb s) b = false → E "freeing free block") →
  wp E (bfree ROOTDEV b) Q s.
Proof.
  intros Hinv Hb Hroom Hfree HQ1 HQ2. unfold bfree. apply wp_bind, wp_gets.
  destruct (bitmap_block s _ L R b Hinv Hb) as (Hbb & Hmod & Hr & Hhome). rewrite Hbb, Hmod.
  assert (used (fview s) (fsb s) b = bit_at (fview s (sb_bmapstart (fsb s))) b) as Hused.
  { unfold used. by rewrite Hbb, Hmod. }
  apply wp_bind. eapply wp_dio_bread; [done..|]. intros i s1 Hinv1 Hh1 Hs1 Hi1.
  pose proof (fst_view _ _ _ _ Hs1 (sb_bmapstart (fsb s))) as HV.
  apply wp_bind. eapply wp_dio_get_buf; [done..|]. intros x ->. rewrite HV.
  assert (length (fview s (sb_bmapstart (fsb s))) = 512%nat) as Hlen by (eapply length_view, Hinv).
  assert (Z.to_nat (b / 8) < length (fview s (sb_bmapstart (fsb s))))%nat as Hl.
  { rewrite Hlen. pose proof (gm_size _ _ (fi_geom _ _ _ _ Hinv)). unfold FSSIZE in *.
    assert (b / 8 < 512); [apply Z.div_lt_upper_bound; lia|lia]. }
  apply wp_bind. eapply wp_getopt; [by apply byte_lookup|].
  rewrite land_pow2_eq0 by (apply Z.mod_pos_bound; lia).
  fold (bit_at (fview s (sb_bmapstart (fsb s))) b). rewrite <- Hused.
  destruct (used (fview s) (fsb s) b) eqn:Hu; cbn [negb]; [|apply wp_panic; auto].
  apply wp_bind. eapply wp_dio_mod_data; [done..|]. rewrite HV.
  change (<[Z.to_nat (b / 8):=_]> _) with (unmark (fview s (sb_bmapstart (fsb s))) b).
  eapply wp_log_release_end; [done|done| | | |unfold NBUF in *; lia|].
  - unfold unmark. by rewrite length_insert.
  - by rewrite (fst_start _ _ _ _ Hs1), (fst_lsize _ _ _ _ Hs1).
  - by eapply room_step.
  - intros s2 Hinv2 Hs2 Hi2. apply HQ1; [done|done| |congruence].
    eapply fs_step_ext; [by eapply fs_step_trans|]. intros k. apply wr_ext, Hs1.
Qed.

(** ** Inode blocks *)
Lemma inode_block s H L R inum :
  fs_inv s H L R → 0 ≤ inum < sb_ninodes (fsb s) →
  let ib := IBLOCK inum (fsb s) in
  0 ≤ ib < FSSIZE ∧ log_start (lg (flog s)) + log_size (lg (flog s)) ≤ ib ∧
  ib < sb_bmapstart (fsb s) ∧ (dip_off inum + 64 ≤ 512)%nat.
Proof.
  intros [Hlog [] _] Hi. pose proof (li_geom _ _ _ Hlog) as []. unfold IBLOCK, dip_off, FSSIZE, IPB in *.
  assert (0 ≤ inum / 8 ≤ sb_ninodes (fsb s) / 8).
  { split; [apply Z.div_pos; lia|apply Z.div_le_mono; lia]. }
  rewrite u32_small by lia. pose proof (Z.mod_pos_bound inum 8 ltac:(lia)). lia.
Qed.

(** The inode with number [inum] as the disk has it. *)
Definition disk_inode s (inum : Z) : dinode := dec_dinode (dip_off inum) (fview s (IBLOCK inum (fsb s))).

Definition iupdate_view s (p : inode) : disk :=
  let ib := IBLOCK (i_inum p) (fsb s) in
  wr (fview s) ib (enc_dinode (dip_off (i_inum p)) (i_disk p) (fview s ib)).

Lemma wp_iupdate E i p H L R (Q : unit → fss D X → Prop) s :
  fs_inv s H L R → icache s !! i = Some p → i_dev p = ROOTDEV → 0 ≤ i_inum p < sb_ninodes (fsb s) →
  room s L 1 → (length H + length L < NBUF)%nat →
  (∀ s', fs_inv s' H (logged L (IBLOCK (i_inum p) (fsb s))) R →
     fs_step s s' H (iupdate_view s p) → icache s' = icache s → Q tt s') →
  wp E (iupdate i) Q s.
Proof.
  intros Hinv Hp Hdev Hi Hroom Hfree HQ. unfold iupdate.
  destruct (inode_block s H L R _ Hinv Hi) as (Hr & Hhome & _ & Hoff).
  apply wp_bind. eapply wp_getopt; [done|]. apply wp_bind, wp_gets. rewrite Hdev.
  apply wp_bind. eapply wp_dio_bread; [done..|]. intros j s1 Hinv1 Hh1 Hs1 Hi1.
  apply wp_bind. eapply wp_dio_mod_data; [done..|]. rewrite (fst_view _ _ _ _ Hs1).
  assert (length (fview s (IBLOCK (i_inum p) (fsb s))) = 512%nat) as Hlen by (eapply length_view, Hinv).
  eapply wp_log_release_end; [done|done| | | |unfold NBUF in *; lia|].
  - rewrite length_enc_dinode; [done| |lia]. by eapply (ic_addrs _ _ (fi_icache _ _ _ _ Hinv)).
  - by rewrite (fst_start _ _ _ _ Hs1), (fst_lsize _ _ _ _ Hs1).
  - by eapply room_step.
  - intros s2 Hinv2 Hs2 Hi2. apply HQ; [done| |congruence].
    eapply fs_step_ext; [by eapply fs_step_trans|]. intros k. apply wr_ext, Hs1.
Qed.

(** Changing a cache entry without touching its identity or count. *)
Lemma icache_ok_update ic R i p p' :
  icache_ok ic R → ic !! i = Some p → i_dev p' = i_dev p → i_inum p' = i_inum p → i_ref p' = i_ref p →
  length (i_addrs p') = 13%nat → icache_ok (<[i:=p']> ic) R.
Proof.
  intros [Hl Ha Hr Hh Hu] Hp Hd Hn Hrf Hl'. assert (i < length ic)%nat as Hi by (by eapply lookup_lt_Some).
  constructor.
  - by rewrite length_insert.
  - intros j q. destruct (decide (j = i)) as [->|]; [rewrite list_lookup_insert_eq by done; congruence|].
    rewrite list_lookup_insert_ne by done. eauto.
  - intros j q. destruct (decide (j = i)) as [->|].
    + rewrite list_lookup_insert_eq by done. intros [= <-]. rewrite Hrf. eauto.
    + rewrite list_lookup_insert_ne by done. eauto.
  - done.
  - assert (∀ j q, <[i:=p']> ic !! j = Some q → ∃ q0, ic !! j = Some q0 ∧ i_dev q = i_dev q0 ∧
      i_inum q = i_inum q0 ∧ i_ref q = i_ref q0) as Hback.
    { intros j q. destruct (decide (j = i)) as [->|].
      - rewrite list_lookup_insert_eq by done. intros [= <-]. eauto.
      - rewrite list_lookup_insert_ne by done. eauto. }
    intros j k q r Hq Hr' H1 H2 H3 H4. destruct (Hback j q Hq) as (q0 & ? & ? & ? & ?).
    destruct (Hback k r Hr') as (r0 & ? & ? & ? & ?). eapply (Hu j k q0 r0); congruence.
Qed.

Lemma fs_inv_icache s ic H L R R' :
  fs_inv s H L R → icache_ok ic R' → fs_inv (set_icache ic s) H L R'.
Proof. intros [] Hic. by constructor. Qed.
Lemma fs_step_icache s s' ic H V : fs_step s s' H V → fs_step s (set_icache ic s') H V.
Proof. intros []. by constructor. Qed.

Lemma fs_step_icache_l s s' ic H V : fs_step (set_icache ic s) s' H V → fs_step s s' H V.
Proof. intros []. by constructor. Qed.

Lemma wp_mod_inode E i p f (Q : unit → fss D X → Prop) s :
  icache s !! i = Some p → Q tt (set_icache (<[i:=f p]> (icache s)) s) → wp E (mod_inode i f) Q s.
Proof. intros Hp HQ. unfold mod_inode. apply wp_bind. eapply wp_getopt; [done|]. by apply wp_modify. Qed.

(** The cache entry [iread] fills in. *)
Definition iread_inode s (p : inode) : inode := set_i_valid 1 (set_i_disk (disk_inode s (i_inum p)) p).

Lemma length_get_words off n x : length (get_words off n x) = n.
Proof. unfold get_words. by rewrite length_fmap, length_seq. Qed.

Lemma wp_iread E i p H L R (Q : unit → fss D X → Prop) s :
  fs_inv s H L R → icache s !! i = Some p → i ∈ R → i_dev p = ROOTDEV →
  0 ≤ i_inum p < sb_ninodes (fsb s) → (length H + length L < NBUF)%nat →
  (i_valid p ≠ 0 → Q tt s) →
  (i_valid p = 0 → di_type (disk_inode s (i_inum p)) ≠ 0 →
     ∀ s', fs_inv s' H L R → fs_step s s' H (fview s) →
       icache s' = <[i:=iread_inode s p]> (icache s) → Q tt s') →
  (i_valid p = 0 → di_type (disk_inode s (i_inum p)) = 0 → E "iread: no type") →
  wp E (iread (Some i)) Q s.
Proof.
  intros Hinv Hp HiR Hdev Hi Hfree HQ1 HQ2 HQ3. cbn [iread].
  pose proof (fi_icache _ _ _ _ Hinv) as Hic.
  destruct (inode_block s H L R _ Hinv Hi) as (Hr & _ & _ & _).
  apply wp_bind. eapply wp_getopt; [done|].
  assert (0 < i_ref p) as Href.
  { rewrite (ic_ref _ _ Hic _ _ Hp). unfold refs. rewrite list_elem_of_In in HiR.
    apply (count_occ_In Nat.eq_dec) in HiR. lia. }
  rewrite (proj2 (Z.ltb_ge (i_ref p) 1)) by lia.
  destruct (Z.eqb_spec (i_valid p) 0) as [Hv|Hv]; [|apply wp_ret; auto].
  apply wp_bind, wp_gets. rewrite Hdev.
  apply wp_bind. eapply wp_dio_bread; [done..|]. intros j s1 Hinv1 Hh1 Hs1 Hi1.
  apply wp_bind. eapply wp_dio_get_buf; [done..|]. intros x ->. rewrite (fst_view _ _ _ _ Hs1).
  fold (disk_inode s (i_inum p)). apply wp_bind. eapply wp_mod_inode; [by rewrite Hi1|].
  set (p1 := set_i_disk _ p). set (s2 := set_icache _ s1).
  assert (i < length (icache s1))%nat as Hil by (rewrite Hi1; by eapply lookup_lt_Some).
  assert (fs_inv s2 (j :: H) L R) as Hinv2.
  { apply fs_inv_icache with R; [done|]. eapply icache_ok_update; [apply Hinv1|by rewrite Hi1|done..|].
    apply length_get_words. }
  apply wp_bind. eapply wp_dio_brelse; [done|unfold NBUF in *; lia|]. intros s3 Hinv3 Hs3 Hi3.
  assert (icache s3 !! i = Some p1) as Hp3 by (rewrite Hi3; by apply list_lookup_insert_eq).
  apply wp_bind. eapply wp_mod_inode; [done|].
  assert (icache s3 = <[i:=p1]> (icache s)) as Hic3 by (rewrite Hi3; cbn [icache s2 set_icache]; by rewrite Hi1).
  apply wp_bind. eapply wp_getopt; [apply list_lookup_insert_eq; rewrite Hic3, length_insert; by eapply lookup_lt_Some|].
  change (i_type (set_i_valid 1 p1)) with (di_type (disk_inode s (i_inum p))).
  destruct (Z.eqb_spec (di_type (disk_inode s (i_inum p))) 0) as [Ht|Ht]; [apply wp_panic; auto|].
  apply wp_ret, HQ2; [done..| | |].
  - apply fs_inv_icache with R; [done|]. eapply icache_ok_update; [apply Hinv3|done..|].
    apply length_get_words.
  - apply fs_step_icache. apply fs_step_icache_l in Hs3. eapply fs_step_trans; [exact Hs1|].
    eapply fs_step_ext; [exact Hs3|]. apply Hs1.
  - cbn [icache set_icache]. by rewrite Hic3, list_insert_insert_eq.
Qed.

(** ** iget *)
Definition imatch (dv inum : Z) (p : inode) : Prop := 0 < i_ref p ∧ i_dev p = dv ∧ i_inum p = inum.
Definition fresh_inode (dv inum : Z) (p : inode) : inode :=
  mk_inode dv inum 1 0 (i_type p) (i_major p) (i_minor p) (i_nlink p) (i_size p) (i_addrs p).

(** The slot [iget] returns and the cache it leaves. *)
Definition iget_result (dv inum : Z) (ic : list inode) (i : nat) (ic' : list inode) : Prop :=
  (∃ p, ic !! i = Some p ∧ imatch dv inum p ∧ ic' = <[i:=set_i_ref (i_ref p + 1) p]> ic) ∨
  ((∀ j q, ic !! j = Some q → ¬ imatch dv inum q) ∧
   ∃ p, ic !! i = Some p ∧ i_ref p = 0 ∧ ic' = <[i:=fresh_inode dv inum p]> ic).

Lemma wp_iget_scan E k i dv inum empty (Q : nat + option nat → fss D X → Prop) s :
  length (icache s) = NINODE → (i + k = NINODE)%nat →
  (∀ j p, icache s !! j = Some p → imatch dv inum p →
     Q (inl j) (set_icache (<[j:=set_i_ref (s32 (i_ref p + 1)) p]> (icache s)) s)) →
  (∀ e, (∀ j p, (i ≤ j)%nat → icache s !! j = Some p → ¬ imatch dv inum p) →
     (∀ j, e = Some j → empty = Some j ∨ ∃ p, icache s !! j = Some p ∧ i_ref p = 0) →
     (e = None → empty = None ∧ ∀ j p, (i ≤ j)%nat → icache s !! j = Some p → i_ref p ≠ 0) →
     Q (inr e) s) →
  wp E (iget_scan k i dv inum empty) Q s.
Proof.
  intros Hl. revert i empty. induction k as [|k IH]; intros i empty Hk HQ1 HQ2; cbn [iget_scan].
  - apply wp_ret, HQ2; [|by left|].
    + intros j p Hj Hp%lookup_lt_Some. lia.
    + split; [done|]. intros j p Hj Hp%lookup_lt_Some. lia.
  - destruct (lookup_lt_is_Some_2 (icache s) i) as [p Hp]; [lia|].
    apply wp_bind. eapply wp_getopt; [done|].
    destruct ((i_ref p >? 0) && _ && _) eqn:Hm.
    + apply andb_true_iff in Hm as [Hm Hn%Z.eqb_eq]. apply andb_true_iff in Hm as [Hr%Z.gtb_lt Hd%Z.eqb_eq].
      apply wp_bind. eapply wp_mod_inode; [done|]. apply wp_ret. apply HQ1; [done|by split_and!].
    + assert (¬ imatch dv inum p) as Hno.
      { intros (Hr & Hd & Hn). by rewrite Z.gtb_ltb, (proj2 (Z.ltb_lt _ _) Hr), Hd, Hn, !Z.eqb_refl in Hm. }
      apply IH; [lia|done|]. intros e Hnone Hsome Hnil. apply HQ2.
      * intros j q Hj Hq. destruct (decide (j = i)) as [->|]; [by simplify_eq|]. apply (Hnone j); [lia|done].
      * intros j Hj. destruct (Hsome j Hj) as [He|He]; [|by right].
        destruct (bool_decide (empty = None) && (i_ref p =? 0)) eqn:Hb; [|by left].
        apply andb_true_iff in Hb as [_ Hr%Z.eqb_eq]. right. exists p. by simplify_eq.
      * intros ->. destruct (Hnil eq_refl) as [He Hall].
        destruct (bool_decide (empty = None) && (i_ref p =? 0)) eqn:Hb; [done|].
        split; [done|]. intros j q Hj Hq. destruct (decide (j = i)) as [->|]; [|apply (Hall j); [lia|done]].
        simplify_eq. rewrite bool_decide_eq_true_2 in Hb by done. cbn in Hb. by apply Z.eqb_neq in Hb.
Qed.

Lemma icache_ok_iget ic R i dv inum ic' :
  icache_ok ic R → iget_result dv inum ic i ic' → icache_ok ic' (i :: R).
Proof.
  intros [Hl Ha Hr Hh Hu] Hres.
  assert (∃ p p', ic !! i = Some p ∧ ic' = <[i:=p']> ic ∧ i_addrs p' = i_addrs p ∧ i_ref p' = i_ref p + 1 ∧
    (i_dev p' = i_dev p ∧ i_inum p' = i_inum p ∧ 0 < i_ref p ∨
     i_ref p = 0 ∧ ∀ j q, ic !! j = Some q → ¬ imatch (i_dev p') (i_inum p') q))
    as (p & p' & Hp & -> & Hpa & Hpr & Hcase).
  { destruct Hres as [(p & Hp & (Hr0 & Hd & Hn) & ->)|(Hno & p & Hp & Hr0 & ->)].
    - exists p, (set_i_ref (i_ref p + 1) p). split_and!; try done. left. done.
    - exists p, (fresh_inode dv inum p). split_and!; try done; [by rewrite Hr0|]. right. done. }
  assert (i < length ic)%nat as Hi by (by eapply lookup_lt_Some).
  constructor.
  - by rewrite length_insert.
  - intros j q. destruct (decide (j = i)) as [->|].
    + rewrite list_lookup_insert_eq by done. intros [= <-]. rewrite Hpa. eauto.
    + rewrite list_lookup_insert_ne by done. eauto.
  - intros j q. rewrite refs_cons. destruct (decide (j = i)) as [->|].
    + rewrite list_lookup_insert_eq by done. intros [= <-]. rewrite decide_True by done. rewrite Hpr. f_equal. eauto.
    + rewrite list_lookup_insert_ne by done. rewrite decide_False by done. rewrite Z.add_0_r. eauto.
  - intros j [->|?]%elem_of_cons; [lia|eauto].
  - assert (∀ k q, k ≠ i → ic !! k = Some q → 0 < i_ref q → i_dev q = i_dev p' → i_inum q = i_inum p' → False) as Hne.
    { intros k q Hk Hq H1 H2 H3. destruct Hcase as [(Hd & Hn & H0)|(H0 & Hno)].
      - apply Hk. eapply (Hu k i q p); congruence.
      - by apply (Hno k q Hq). }
    intros j k q r. destruct (decide (j = i)) as [->|], (decide (k = i)) as [->|]; [done|..].
    + rewrite list_lookup_insert_eq, list_lookup_insert_ne by done. intros [= <-] Hr' H1 H2 H3 H4.
      exfalso. by eapply (Hne k r).
    + rewrite list_lookup_insert_eq, list_lookup_insert_ne by done. intros Hq [= <-] H1 H2 H3 H4.
      exfalso. by eapply (Hne j q).
    + rewrite !list_lookup_insert_ne by done. apply Hu.
Qed.

Lemma wp_dio_pushcli E H L R (Q : unit → fss D X → Prop) s :
  fs_inv s H L R → (∀ c, cpu_held c → Q tt (set_flog (set_lio (set_icpu c (fio s)) (flog s)) s)) →
  wp E (dio (on_cpu pushcli)) Q s.
Proof. intros Hinv HQ. apply wp_dio, wp_on_pushcli; [apply Hinv|done]. Qed.
Lemma wp_dio_popcli E (Q : unit → fss D X → Prop) s :
  cpu_held (icpu (fio s)) → (∀ c, cpu_idle c → Q tt (set_flog (set_lio (set_icpu c (fio s)) (flog s)) s)) →
  wp E (dio (on_cpu popcli)) Q s.
Proof. intros Hc HQ. by apply wp_dio, wp_on_popcli. Qed.

Lemma fs_inv_cpu s c H L R :
  fs_inv s H L R → cpu_idle c → fs_inv (set_flog (set_lio (set_icpu c (fio s)) (flog s)) s) H L R.
Proof. intros Hinv Hc. eapply fs_inv_io; [done|apply set_icpu_inv; [apply Hinv|done]|done]. Qed.
Lemma fs_step_cpu s c H : fs_step s (set_flog (set_lio (set_icpu c (fio s)) (flog s)) s) H (fview s).
Proof. apply fs_step_io, set_icpu_io. Qed.

(** The two critical sections around a change of the cache. *)
Lemma cpu_icache_post s ic c1 c2 H L R R' :
  fs_inv s H L R → cpu_idle c2 → icache_ok ic R' →
  let s1 := set_icache ic (set_flog (set_lio (set_icpu c1 (fio s)) (flog s)) s) in
  let s' := set_flog (set_lio (set_icpu c2 (fio s1)) (flog s1)) s1 in
  fs_inv s' H L R' ∧ fs_step s s' H (fview s) ∧ icache s' = ic.
Proof.
  intros Hinv Hc Hic s1 s'. split_and!; [|by constructor|done].
  pose proof (fs_inv_icache _ ic _ _ _ _ (fs_inv_cpu s c2 H L R Hinv Hc) Hic) as Hinv'. exact Hinv'.
Qed.

Lemma wp_iget E dv inum H L R (Q : nat → fss D X → Prop) s :
  fs_inv s H L R → (length R < 1000)%nat →
  (∀ i s', fs_inv s' H L (i :: R) → fs_step s s' H (fview s) →
     iget_result dv inum (icache s) i (icache s') → Q i s') →
  ((∀ j p, icache s !! j = Some p → 0 < i_ref p ∧ ¬ imatch dv inum p) → E "iget: no inodes") →
  wp E (iget dv inum) Q s.
Proof.
  intros Hinv HR HQ HE. pose proof (fi_icache _ _ _ _ Hinv) as Hic. unfold iget.
  apply wp_bind. eapply wp_dio_pushcli; [done|]. intros c1 Hc1.
  set (s1 := set_flog _ s). apply wp_bind, wp_iget_scan; [apply Hic|done| |].
  - intros j p Hp Hm. change (icache s1) with (icache s) in Hp.
    apply wp_bind, wp_dio_popcli; [done|]. intros c2 Hc2. apply wp_ret.
    assert (s32 (i_ref p + 1) = i_ref p + 1) as ->.
    { rewrite (ic_ref _ _ Hic _ _ Hp). pose proof (refs_bound R j). apply s32_small. lia. }
    assert (iget_result dv inum (icache s) j (<[j:=set_i_ref (i_ref p + 1) p]> (icache s))) as Hres by (left; eauto).
    destruct (cpu_icache_post s _ c1 c2 H L R _ Hinv Hc2 (icache_ok_iget _ _ _ _ _ _ Hic Hres)) as (Hi & Hs & Heq).
    by apply HQ.
  - intros e Hnone Hsome Hnil. destruct e as [i|].
    + destruct (Hsome i eq_refl) as [?|(p & Hp & Hr)]; [done|]. change (icache s1) with (icache s) in *.
      apply wp_bind. eapply wp_mod_inode; [done|].
      apply wp_bind, wp_dio_popcli; [done|]. intros c2 Hc2. apply wp_ret.
      assert (iget_result dv inum (icache s) i (<[i:=fresh_inode dv inum p]> (icache s))) as Hres.
      { right. split; [|eauto]. intros j q Hq. apply (Hnone j); [lia|done]. }
      destruct (cpu_icache_post s _ c1 c2 H L R _ Hinv Hc2 (icache_ok_iget _ _ _ _ _ _ Hic Hres)) as (Hi & Hs & Heq).
      by apply HQ.
    + apply wp_panic, HE. intros j p Hp. destruct (Hnil eq_refl) as [_ Hall]. split; [|apply (Hnone j); [lia|done]].
      specialize (Hall j p ltac:(lia) Hp). rewrite (ic_ref _ _ Hic _ _ Hp) in *.
      pose proof (refs_bound R j). lia.
Qed.

(** ** iput, when the inode stays *)
Lemma icache_ok_iput ic R i p :
  icache_ok ic (i :: R) → ic !! i = Some p → icache_ok (<[i:=set_i_ref (i_ref p - 1) p]> ic) R.
Proof.
  intros [Hl Ha Hr Hh Hu] Hp. assert (i < length ic)%nat as Hi by (by eapply lookup_lt_Some).
  constructor.
  - by rewrite length_insert.
  - intros j q. destruct (decide (j = i)) as [->|].
    + rewrite list_lookup_insert_eq by done. intros [= <-]. by apply (Ha i p).
    + rewrite list_lookup_insert_ne by done. eauto.
  - intros j q Hq. destruct (decide (j = i)) as [->|].
    + rewrite list_lookup_insert_eq in Hq by done. injection Hq as <-. cbn [i_ref set_i_ref].
      rewrite (Hr _ _ Hp), refs_cons, decide_True by done. lia.
    + rewrite list_lookup_insert_ne in Hq by done. rewrite (Hr _ _ Hq), refs_cons, decide_False by done. lia.
  - set_solver.
  - assert (∀ j q, <[i:=set_i_ref (i_ref p - 1) p]> ic !! j = Some q → ∃ q0, ic !! j = Some q0 ∧ i_dev q = i_dev q0 ∧
      i_inum q = i_inum q0 ∧ i_ref q ≤ i_ref q0) as Hback.
    { intros j q. destruct (decide (j = i)) as [->|].
      - rewrite list_lookup_insert_eq by done. intros [= <-]. exists p. split_and!; try done. cbn. lia.
      - rewrite list_lookup_insert_ne by done. intros ?. by exists q. }
    intros j k q r Hq Hr' H1 H2 H3 H4. destruct (Hback j q Hq) as (q0 & ? & ? & ? & ?).
    destruct (Hback k r Hr') as (r0 & ? & ? & ? & ?). eapply (Hu j k q0 r0); try congruence; lia.
Qed.

Lemma wp_iput_keep E i p H L R (Q : unit → fss D X → Prop) s :
  fs_inv s H L (i :: R) → (length R < 1000)%nat → icache s !! i = Some p →
  (i_valid p = 0 ∨ i_nlink p ≠ 0 ∨ i_ref p ≠ 1) →
  (∀ s', fs_inv s' H L R → fs_step s s' H (fview s) →
     icache s' = <[i:=set_i_ref (i_ref p - 1) p]> (icache s) → Q tt s') →
  wp E (iput i) Q s.
Proof.
  intros Hinv HR Hp Hkeep HQ. pose proof (fi_icache _ _ _ _ Hinv) as Hic. unfold iput.
  apply wp_bind. eapply wp_dio_pushcli; [done|]. intros c1 Hc1. set (s1 := set_flog _ s).
  apply wp_bind. eapply wp_getopt; [done|]. apply wp_bind.
  assert (wp E (mod_inode i (λ p, set_i_ref (s32 (i_ref p - 1)) p);; dio (on_cpu popcli)) Q s1) as Hrest.
  { apply wp_bind. eapply wp_mod_inode; [done|]. apply wp_dio_popcli; [done|]. intros c2 Hc2.
    assert (s32 (i_ref p - 1) = i_ref p - 1) as ->.
    { rewrite (ic_ref _ _ Hic _ _ Hp), refs_cons, decide_True by done. pose proof (refs_bound R i).
      apply s32_small. lia. }
    destruct (cpu_icache_post s _ c1 c2 H L _ _ Hinv Hc2 (icache_ok_iput _ _ _ _ Hic Hp)) as (Hi & Hs & Heq).
    by apply HQ. }
  destruct (negb (i_valid p =? 0) && (i_nlink p =? 0)) eqn:Hc.
  - apply andb_true_iff in Hc as [Hv%negb_true_iff Hn%Z.eqb_eq]. apply Z.eqb_neq in Hv.
    rewrite (proj2 (Z.eqb_neq (i_ref p) 1)) by tauto. by apply wp_ret.
  - by apply wp_ret.
Qed.

(** ** ialloc *)
Definition free_inode s (inum : Z) : Prop := di_type (disk_inode s inum) = 0.
Definition ialloc_block s (inum type : Z) : list Z :=
  put_u16 (dip_off inum) type (splice (dip_off inum) (replicate 64 0) (fview s (IBLOCK inum (fsb s)))).
Definition ialloc_view s (inum type : Z) : disk :=
  wr (fview s) (IBLOCK inum (fsb s)) (ialloc_block s inum type).

Lemma disk_inode_step s s' H inum : fs_step s s' H (fview s) → disk_inode s' inum = disk_inode s inum.
Proof. intros Hs. unfold disk_inode. by rewrite (fst_sb _ _ _ _ Hs), (fst_view _ _ _ _ Hs). Qed.

Lemma wp_ialloc_loop E fuel inum type H L R (Q : nat → fss D X → Prop) s :
  fs_inv s H L R → (length R < 1000)%nat → room s L 1 → (length H + length L < NBUF)%nat →
  0 ≤ inum ≤ sb_ninodes (fsb s) → sb_ninodes (fsb s) + 1 - inum ≤ Z.of_nat fuel →
  (∀ n i s1 s', inum ≤ n < sb_ninodes (fsb s) → free_inode s n → (∀ m, inum ≤ m < n → ¬ free_inode s m) →
     fs_step s s1 H (ialloc_view s n type) → icache s1 = icache s →
     fs_inv s' H (logged L (IBLOCK n (fsb s))) (i :: R) → fs_step s1 s' H (fview s1) →
     iget_result ROOTDEV n (icache s) i (icache s') → Q i s') →
  ((∀ n, inum ≤ n < sb_ninodes (fsb s) → ¬ free_inode s n) → E "ialloc: no inodes") →
  ((∀ j p, icache s !! j = Some p → 0 < i_ref p) → E "iget: no inodes") →
  wp E (ialloc_loop fuel inum ROOTDEV type) Q s.
Proof.
  revert inum s. induction fuel as [|fuel IH]; intros inum s Hinv HR Hroom Hfree Hn Hfuel HQ HE1 HE2;
    cbn [ialloc_loop]; [lia|].
  apply wp_bind, wp_gets. destruct (Z.ltb_spec inum (sb_ninodes (fsb s))) as [Hlt|Hge].
  2: { apply wp_panic, HE1. lia. }
  destruct (inode_block s H L R inum Hinv) as (Hr & Hhome & _ & Hoff); [lia|].
  apply wp_bind. eapply wp_dio_bread; [done..|]. intros bp s1 Hinv1 Hh1 Hs1 Hi1.
  apply wp_bind. eapply wp_dio_get_buf; [done..|]. intros x ->.
  rewrite (fst_view _ _ _ _ Hs1). change (s16 _) with (di_type (disk_inode s inum)).
  destruct (Z.eqb_spec (di_type (disk_inode s inum)) 0) as [Ht|Ht].
  - apply wp_bind. eapply wp_dio_mod_data; [done..|]. apply wp_bind. eapply wp_dio_mod_data_again; [done|].
    rewrite (fst_view _ _ _ _ Hs1). fold (ialloc_block s inum type).
    assert (length (fview s (IBLOCK inum (fsb s))) = 512%nat) as Hlen by (eapply length_view, Hinv).
    eapply wp_log_release; [done|done| | | |unfold NBUF in *; lia|].
    + unfold ialloc_block. rewrite length_put_u16; rewrite length_splice; rewrite ?length_replicate; lia.
    + by rewrite (fst_start _ _ _ _ Hs1), (fst_lsize _ _ _ _ Hs1).
    + by eapply room_step.
    + intros s2 Hinv2 Hs2 Hi2. assert (icache s2 = icache s) as Hi02 by congruence.
      eapply wp_iget; [done|done| |].
      * intros i s3 Hinv3 Hs3 Hres. rewrite Hi02 in Hres.
        apply (HQ inum i s2 s3); try done; [lia|].
        eapply fs_step_ext; [by eapply fs_step_trans|]. intros k. apply wr_ext, Hs1.
      * rewrite Hi02. intros Hall. apply HE2. intros j p Hp. by apply (Hall j p).
  - apply wp_bind. eapply wp_dio_brelse; [done|unfold NBUF in *; lia|]. intros s2 Hinv2 Hs2 Hi2.
    assert (fs_step s s2 H (fview s)) as Hs02.
    { eapply fs_step_trans; [done|]. eapply fs_step_ext; [done|]. apply Hs1. }
    assert (fsb s2 = fsb s) as Hsb by apply Hs02. assert (icache s2 = icache s) as Hi02 by congruence.
    assert (∀ n, free_inode s2 n ↔ free_inode s n) as Hfr.
    { intros n. unfold free_inode. by rewrite (disk_inode_step _ _ _ _ Hs02). }
    apply (IH (inum + 1) s2); rewrite ?Hsb, ?Hi02; try done; try lia.
    + by eapply room_step.
    + intros n i s3 s4 Hn' Hf Hlow Hst Hi3. rewrite Hfr in Hf.
      apply (HQ n i s3 s4); try done; [lia| |].
      * intros m Hm. destruct (decide (m = inum)) as [->|]; [done|]. rewrite <- Hfr. apply Hlow. lia.
      * eapply fs_step_ext; [by eapply fs_step_trans|]. intros k. unfold ialloc_view, ialloc_block.
        rewrite Hsb, (fst_view _ _ _ _ Hs02). apply wr_ext, Hs02.
    + intros Hall. apply HE1. intros n Hn'. destruct (decide (n = inum)) as [->|]; [done|].
      rewrite <- Hfr. apply Hall. lia.
Qed.

(** The inode [ialloc] creates: the type asked for and nothing else. *)
Lemma ialloc_inode s H L R inum type :
  fs_inv s H L R → 0 ≤ inum < sb_ninodes (fsb s) → -32768 ≤ type < 32768 →
  dec_dinode (dip_off inum) (ialloc_block s inum type) = mk_dinode type 0 0 0 0 (replicate 13 0).
Proof.
  intros Hinv Hi Ht. destruct (inode_block s H L R inum Hinv Hi) as (_ & _ & _ & Hoff).
  assert (length (fview s (IBLOCK inum (fsb s))) = 512%nat) as Hlen by (eapply length_view, Hinv).
  unfold ialloc_block. set (off := dip_off inum) in *. set (x := fview s _) in *.
  set (y := splice off (replicate 64 0) x).
  assert (length y = 512%nat) as Hy by (unfold y; rewrite length_splice; rewrite ?length_replicate; lia).
  assert (∀ o n, (o + n ≤ 64)%nat → slice (off + o) n y = replicate n 0) as Hz.
  { intros o n Ho. unfold y. rewrite slice_splice_in by (rewrite length_replicate; lia).
    unfold slice. rewrite drop_replicate, take_replicate. f_equal. lia. }
  assert (∀ o, (o + 2 ≤ 64)%nat → get_u16 (off + o) y = 0) as H16 by (intros; unfold get_u16; by rewrite Hz).
  assert (∀ o, (o + 4 ≤ 64)%nat → get_u32 (off + o) y = 0) as H32 by (intros; unfold get_u32; by rewrite Hz).
  unfold dec_dinode. rewrite get_put_u16, s16_u16, s16_small by lia.
  rewrite !get_u16_put_u16_ne by lia. rewrite !H16 by lia. f_equal.
  - unfold get_u32. rewrite slice_put_u16_ne by lia. apply H32. lia.
  - unfold get_words. apply list_eq. intros i. rewrite list_lookup_fmap.
    destruct (decide (i < 13)%nat) as [Hlt|Hge].
    + rewrite lookup_seq_lt, lookup_replicate_2 by lia. cbn [fmap option_fmap option_map]. f_equal.
      unfold get_u32. rewrite slice_put_u16_ne by lia. rewrite <- Nat.add_assoc. apply H32. lia.
    + rewrite lookup_seq_ge by lia. symmetry. apply lookup_replicate_None. lia.
Qed.

(** An inode depends on its own 64 bytes only. *)
Lemma slice_slice {A} off m o n (x : list A) : (o + n ≤ m)%nat → slice o n (slice off m x) = slice (off + o) n x.
Proof.
  intros Hn. unfold slice. replace m with (o + (m - o))%nat by lia.
  rewrite <- take_drop_commute, take_take, drop_drop, Nat.min_l by lia. done.
Qed.
Lemma dec_dinode_local off x y : slice off 64 x = slice off 64 y → dec_dinode off x = dec_dinode off y.
Proof.
  intros He.
  assert (∀ o n, (o + n ≤ 64)%nat → slice (off + o) n x = slice (off + o) n y) as Hs.
  { intros o n Ho. by rewrite <- (slice_slice off 64), He, slice_slice by lia. }
  assert (∀ o, (o + 2 ≤ 64)%nat → get_u16 (off + o) x = get_u16 (off + o) y) as H16.
  { intros. unfold get_u16. by rewrite Hs by lia. }
  assert (∀ o, (o + 4 ≤ 64)%nat → get_u32 (off + o) x = get_u32 (off + o) y) as H32.
  { intros. unfold get_u32. by rewrite Hs by lia. }
  unfold dec_dinode. rewrite !H16, H32 by lia. pose proof (H16 0%nat ltac:(lia)) as H0.
  rewrite Nat.add_0_r in H0. rewrite H0. f_equal.
  unfold get_words. apply list_eq. intros i. rewrite !list_lookup_fmap. destruct (decide (i < 13)%nat) as [Hi|Hi].
  - rewrite lookup_seq_lt by done. cbn [fmap option_fmap option_map]. f_equal.
    rewrite Nat.add_0_l, <- Nat.add_assoc. apply H32. lia.
  - by rewrite lookup_seq_ge by lia.
Qed.

(** Two inodes in the same block occupy different slots. *)
Lemma dip_off_ne s H L R m n :
  fs_inv s H L R → 0 ≤ m < sb_ninodes (fsb s) → 0 ≤ n < sb_ninodes (fsb s) → m ≠ n →
  IBLOCK m (fsb s) = IBLOCK n (fsb s) → (dip_off m + 64 ≤ dip_off n ∨ dip_off n + 64 ≤ dip_off m)%nat.
Proof.
  intros [Hlog [] _] Hm Hn Hne. pose proof (li_geom _ _ _ Hlog) as []. unfold IBLOCK, dip_off, FSSIZE, IPB in *.
  assert (0 ≤ m / 8 ≤ sb_ninodes (fsb s) / 8) by (split; [apply Z.div_pos|apply Z.div_le_mono]; lia).
  assert (0 ≤ n / 8 ≤ sb_ninodes (fsb s) / 8) by (split; [apply Z.div_pos|apply Z.div_le_mono]; lia).
  rewrite !u32_small by lia. intros He.
  pose proof (Z.div_mod m 8 ltac:(lia)). pose proof (Z.div_mod n 8 ltac:(lia)).
  pose proof (Z.mod_pos_bound m 8 ltac:(lia)). pose proof (Z.mod_pos_bound n 8 ltac:(lia)). lia.
Qed.

(** Rewriting inode [n] in its block leaves the other inodes alone. *)
Lemma other_inode s H L R m n (x : list Z) :
  fs_inv s H L R → 0 ≤ m < sb_ninodes (fsb s) → 0 ≤ n < sb_ninodes (fsb s) → m ≠ n →
  (∀ o k, (o + k ≤ dip_off n ∨ dip_off n + 64 ≤ o)%nat → slice o k x = slice o k (fview s (IBLOCK n (fsb s)))) →
  dec_dinode (dip_off m) (wr (fview s) (IBLOCK n (fsb s)) x (IBLOCK m (fsb s))) = disk_inode s m.
Proof.
  intros Hinv Hm Hn Hne Hx. unfold disk_inode. destruct (decide (IBLOCK m (fsb s) = IBLOCK n (fsb s))) as [He|He].
  - rewrite He, wr_eq. apply dec_dinode_local, Hx. eapply dip_off_ne; eauto.
  - by rewrite wr_ne.
Qed.

Lemma iupdate_other s H L R p m :
  fs_inv s H L R → 0 ≤ m < sb_ninodes (fsb s) → 0 ≤ i_inum p < sb_ninodes (fsb s) → m ≠ i_inum p →
  length (i_addrs p) = 13%nat →
  dec_dinode (dip_off m) (iupdate_view s p (IBLOCK m (fsb s))) = disk_inode s m.
Proof.
  intros Hinv Hm Hn Hne Ha. eapply other_inode; [done..|]. intros o k Ho.
  destruct (inode_block s H L R _ Hinv Hn) as (_ & _ & _ & Hoff).
  assert (length (fview s (IBLOCK (i_inum p) (fsb s))) = 512%nat) as Hl by (eapply length_view, Hinv).
  apply dinode_frame; [done|lia|lia].
Qed.
Lemma ialloc_other s H L R n m type :
  fs_inv s H L R → 0 ≤ m < sb_ninodes (fsb s) → 0 ≤ n < sb_ninodes (fsb s) → m ≠ n →
  dec_dinode (dip_off m) (ialloc_view s n type (IBLOCK m (fsb s))) = disk_inode s m.
Proof.
  intros Hinv Hm Hn Hne. eapply other_inode; [done..|]. intros o k Ho.
  destruct (inode_block s H L R _ Hinv Hn) as (_ & _ & _ & Hoff).
  assert (length (fview s (IBLOCK n (fsb s))) = 512%nat) as Hl by (eapply length_view, Hinv).
  assert (length (splice (dip_off n) (replicate 64 0) (fview s (IBLOCK n (fsb s)))) = 512%nat) as Hl2.
  { rewrite length_splice; rewrite ?length_replicate; lia. }
  unfold ialloc_block. rewrite slice_put_u16_ne by lia. apply slice_splice_ne; rewrite length_replicate; lia.
Qed.
(** ** The bitmap after an allocation and after a free *)
Lemma bitmap_byte s H L R b k :
  fs_inv s H L R → 0 ≤ b < sb_size (fsb s) → (Z.to_nat (b / 8) < length (fview s k))%nat.
Proof.
  intros Hinv Hb. assert (length (fview s k) = 512%nat) as -> by (eapply length_view, Hinv).
  pose proof (gm_size _ _ (fi_geom _ _ _ _ Hinv)). unfold FSSIZE in *.
  assert (b / 8 < 512) by (apply Z.div_lt_upper_bound; lia). assert (0 ≤ b / 8) by (apply Z.div_pos; lia). lia.
Qed.

(** The bitmap and the other blocks after [balloc]. *)
Lemma used_balloc s H L R b b' :
  fs_inv s H L R → meta_used s → 0 ≤ b < sb_size (fsb s) → used (fview s) (fsb s) b = false →
  0 ≤ b' < sb_size (fsb s) →
  used (balloc_view s b) (fsb s) b' = if decide (b' = b) then true else used (fview s) (fsb s) b'.
Proof.
  intros Hinv Hm Hb Hu Hb'. destruct (meta_data s H L R b Hinv Hm ltac:(lia) Hu) as [_ Hlt].
  destruct (bitmap_block s H L R b' Hinv Hb') as (Hbb & Hmod & _).
  unfold used. rewrite Hbb, Hmod. unfold balloc_view.
  rewrite wr_ne, wr_eq by lia. apply bit_at_mark; [lia..|].
  by eapply bitmap_byte.
Qed.

(** The bitmap after [bfree]. *)
Lemma used_bfree s H L R b b' :
  fs_inv s H L R → 0 ≤ b < sb_size (fsb s) → 0 ≤ b' < sb_size (fsb s) →
  used (bfree_view s b) (fsb s) b' = if decide (b' = b) then false else used (fview s) (fsb s) b'.
Proof.
  intros Hinv Hb Hb'. destruct (bitmap_block s H L R b' Hinv Hb') as (Hbb & Hmod & _).
  unfold used. rewrite Hbb, Hmod. unfold bfree_view. rewrite wr_eq. apply bit_at_unmark; [lia..|].
  by eapply bitmap_byte.
Qed.
End facts.
