(* ===== verification/FsFiles.v ===== *)
(** * fs.c: the contents of a file

    The block map of an inode, the bytes it stands for, and [bmap] and
    [readi] on a file whose blocks are all allocated. *)

From S2P Require Import Prelude Spinlock CString Ide Bio BioFacts Layout Log LogDisk LogFacts LogSpecs Fs FsFacts FsInodes.

(** The disk block of block [bn] of a file, 0 where none is allocated. *)
Definition baddr (V : disk) (addrs : list Z) (bn : nat) : Z :=
  if bool_decide (bn < 12)%nat then default 0 (addrs !! bn)
  else if default 0 (addrs !! 12%nat) =? 0 then 0
  else get_u32 (4 * (bn - 12)) (V (default 0 (addrs !! 12%nat))).

(** The first [k] blocks are allocated, inside the image. *)
Definition mapped (V : disk) (addrs : list Z) (k : nat) : Prop :=
  (k ≤ 140)%nat ∧ length addrs = 13%nat ∧ 0 ≤ default 0 (addrs !! 12%nat) < FSSIZE ∧
  ∀ bn, (bn < k)%nat → baddr V addrs bn ≠ 0 ∧ 0 ≤ baddr V addrs bn < FSSIZE.

Definition file_blocks (V : disk) (addrs : list Z) (k : nat) : list (list Z) :=
  (λ bn, V (baddr V addrs bn)) <$> seq 0 k.

(** Blocks a file of [size] bytes occupies, and its bytes. *)
Definition nblocks_of (size : Z) : nat := Z.to_nat ((size + 511) / 512).
Definition contents (V : disk) (d : dinode) : list Z :=
  take (Z.to_nat (di_size d)) (concat (file_blocks V (di_addrs d) (nblocks_of (di_size d)))).

(** ** Lists made of blocks *)
Lemma length_join_blocks (bs : list (list Z)) :
  Forall (λ x, length x = 512%nat) bs → length (concat bs) = (512 * length bs)%nat.
Proof. induction 1 as [|x bs Hx _ IH]; [done|]. cbn [concat length]. rewrite length_app, IH, Hx. lia. Qed.

Lemma slice_join_block (bs : list (list Z)) k x o n :
  Forall (λ x, length x = 512%nat) bs → bs !! k = Some x → (o + n ≤ 512)%nat →
  slice (512 * k + o) n (concat bs) = slice o n x.
Proof.
  intros HF. revert k. induction HF as [|y bs Hy HF IH]; intros k Hk Ho; [done|]. cbn [concat].
  destruct k as [|k]; cbn in Hk.
  - injection Hk as ->. unfold slice. rewrite Nat.mul_0_r, Nat.add_0_l, drop_app_le by lia.
    apply take_app_le. rewrite length_drop. lia.
  - rewrite <- (IH k Hk Ho). unfold slice. replace (512 * S k + o)%nat with (length y + (512 * k + o))%nat by lia.
    by rewrite drop_app_add.
Qed.

Lemma length_file_blocks V addrs k : length (file_blocks V addrs k) = k.
Proof. unfold file_blocks. by rewrite length_fmap, length_seq. Qed.
Lemma file_blocks_lookup V addrs k bn :
  (bn < k)%nat → file_blocks V addrs k !! bn = Some (V (baddr V addrs bn)).
Proof. intros. unfold file_blocks. by rewrite list_lookup_fmap, lookup_seq_lt. Qed.
Lemma file_blocks_512 V addrs k :
  (∀ b, length (V b) = 512%nat) → Forall (λ x, length x = 512%nat) (file_blocks V addrs k).
Proof. intros HV. apply Forall_fmap, Forall_forall. intros bn _. apply HV. Qed.

Lemma nblocks_bound size off : 0 ≤ off < size → (Z.to_nat (off / 512) < nblocks_of size)%nat.
Proof.
  intros Ho. unfold nblocks_of. assert (off / 512 < (size + 511) / 512); [|assert (0 ≤ off / 512) by (apply Z.div_pos; lia); lia].
  apply Z.lt_le_trans with ((off + 512) / 512); [|apply Z.div_le_mono; lia].
  replace (off + 512) with (off + 1 * 512) by lia. rewrite Z.div_add by lia. lia.
Qed.
Lemma nblocks_cover size : 0 ≤ size → (Z.to_nat size ≤ 512 * nblocks_of size)%nat.
Proof.
  intros Hs. unfold nblocks_of. pose proof (Z_div_mod_eq_full (size + 511) 512).
  pose proof (Z.mod_pos_bound (size + 511) 512 ltac:(lia)). lia.
Qed.

Lemma length_contents V d :
  (∀ b, length (V b) = 512%nat) → 0 ≤ di_size d → length (contents V d) = Z.to_nat (di_size d).
Proof.
  intros HV Hs. unfold contents. rewrite length_take, length_join_blocks by (by apply file_blocks_512).
  rewrite length_file_blocks. pose proof (nblocks_cover _ Hs). lia.
Qed.

(** A piece of the contents that lies inside one block. *)
Lemma slice_contents V d off m :
  (∀ b, length (V b) = 512%nat) → 0 ≤ off < di_size d → off mod 512 + m ≤ 512 → 0 ≤ m → off + m ≤ di_size d →
  slice (Z.to_nat off) (Z.to_nat m) (contents V d) =
  slice (Z.to_nat (off mod 512)) (Z.to_nat m) (V (baddr V (di_addrs d) (Z.to_nat (off / 512)))).
Proof.
  intros HV Ho Hm Hm0 Hle. pose proof (Z.mod_pos_bound off 512 ltac:(lia)).
  assert (0 ≤ off / 512) by (apply Z.div_pos; lia). pose proof (Z_div_mod_eq_full off 512) as Hdm.
  rewrite <- (slice_join_block (file_blocks V (di_addrs d) (nblocks_of (di_size d)))
    (Z.to_nat (off / 512)) _ (Z.to_nat (off mod 512)) (Z.to_nat m));
    [|by apply file_blocks_512|by apply file_blocks_lookup, nblocks_bound|lia].
  replace (512 * Z.to_nat (off / 512) + Z.to_nat (off mod 512))%nat with (Z.to_nat off) by lia.
  unfold contents, slice. rewrite skipn_firstn_comm, take_take. f_equal. lia.
Qed.

Section files.
Context {D X : Type} {dev : IdeDevice D} {dok : IdeDeviceOk D}.
Implicit Types s : fss D X.

(** A cached inode whose blocks are all allocated. *)
Definition file_ok (V : disk) (p : inode) : Prop :=
  i_dev p = ROOTDEV ∧ 0 ≤ i_size p ≤ 71680 ∧ mapped V (i_addrs p) (nblocks_of (i_size p)).

Lemma baddr_ext V V' addrs bn : (∀ k, V k = V' k) → baddr V addrs bn = baddr V' addrs bn.
Proof. intros HV. unfold baddr. by rewrite HV. Qed.
Lemma mapped_ext V V' addrs k : (∀ b, V b = V' b) → mapped V addrs k → mapped V' addrs k.
Proof.
  intros HV (Hk & Hl & Hi & Hm). split_and!; [done..|lia|lia|]. intros bn Hbn.
  rewrite <- (baddr_ext V V') by done. by apply Hm.
Qed.
Lemma contents_ext V V' d : (∀ b, V b = V' b) → contents V d = contents V' d.
Proof.
  intros HV. unfold contents, file_blocks. f_equal. f_equal. apply list_fmap_ext. intros k bn _.
  by rewrite (baddr_ext V V') by done.
Qed.
Lemma file_ok_ext V V' p : (∀ b, V b = V' b) → file_ok V p → file_ok V' p.
Proof. intros HV (Hd & Hs & Hm). split_and!; [done|lia|lia|]. by eapply mapped_ext. Qed.

Lemma wp_bmap_mapped E i p bn H L R k (Q : Z → fss D X → Prop) s :
  fs_inv s H L R → icache s !! i = Some p → i_dev p = ROOTDEV → mapped (fview s) (i_addrs p) k →
  0 ≤ bn → (Z.to_nat bn < k)%nat → (length H + length L < NBUF)%nat →
  (∀ s', fs_inv s' H L R → fs_step s s' H (fview s) → icache s' = icache s →
     Q (baddr (fview s) (i_addrs p) (Z.to_nat bn)) s') →
  wp E (bmap i bn) Q s.
Proof.
  intros Hinv Hp Hdev (Hk & Hl & Hind & Hm) H0 Hbn Hfree HQ. destruct (Hm _ Hbn) as [Hnz Hr]. unfold bmap.
  apply wp_bind. eapply wp_getopt; [done|]. destruct (Z.ltb_spec bn NDIRECT) as [Hd|Hd]; unfold NDIRECT in Hd.
  - destruct (lookup_lt_is_Some_2 (i_addrs p) (Z.to_nat bn)) as [a Ha]; [lia|].
    assert (baddr (fview s) (i_addrs p) (Z.to_nat bn) = a) as Hba.
    { unfold baddr. by rewrite bool_decide_eq_true_2, Ha by lia. }
    rewrite Ha. cbn [ofopt]. apply wp_bind, wp_ret. rewrite (proj2 (Z.eqb_neq a 0)) by congruence.
    apply wp_ret. rewrite <- Hba. apply HQ; [done|apply fs_step_refl|done].
  - change NDIRECT with 12 in *. destruct (Z.ltb_spec (bn - 12) NINDIRECT) as [Hn|Hn]; change NINDIRECT with 128 in Hn; [|lia].
    destruct (lookup_lt_is_Some_2 (i_addrs p) 12) as [a Ha]; [lia|].
    assert (baddr (fview s) (i_addrs p) (Z.to_nat bn) = if a =? 0 then 0 else get_u32 (4 * Z.to_nat (bn - 12)) (fview s a)) as Hba.
    { unfold baddr. rewrite bool_decide_eq_false_2, Ha by lia. cbn [default].
      by replace (Z.to_nat bn - 12)%nat with (Z.to_nat (bn - 12)) by lia. }
    change (Z.to_nat 12) with 12%nat. rewrite Ha in Hind |- *. cbn [ofopt default] in *. apply wp_bind, wp_ret.
    destruct (a =? 0); [done|]. apply wp_bind, wp_ret. rewrite Hdev.
    apply wp_bind. eapply wp_dio_bread; [done..|]. intros b s1 Hinv1 Hh1 Hs1 Hi1.
    apply wp_bind. eapply wp_dio_get_buf; [done..|]. intros x ->. rewrite (fst_view _ _ _ _ Hs1), <- Hba.
    rewrite (proj2 (Z.eqb_neq _ 0)) by done. apply wp_bind, wp_ret.
    apply wp_bind. eapply wp_dio_brelse; [done|unfold NBUF in *; lia|]. intros s2 Hinv2 Hs2 Hi2.
    apply wp_ret, HQ; [done| |congruence].
    eapply fs_step_trans; [done|]. eapply fs_step_ext; [done|]. apply Hs1.
Qed.

Context (devtab : list (@devsw D X)).

Lemma fview_512 s H L R b : fs_inv s H L R → length (fview s b) = 512%nat.
Proof. intros Hinv. eapply length_view, Hinv. Qed.

Lemma wp_readi_loop E fuel i p off n tot acc H L R (Q : list Z → fss D X → Prop) s :
  fs_inv s H L R → icache s !! i = Some p → file_ok (fview s) p →
  0 ≤ off → 0 ≤ tot ≤ n → off + (n - tot) ≤ i_size p → (length H + length L < NBUF)%nat →
  n - tot + off mod 512 ≤ 512 * (Z.of_nat fuel - 1) ∨ tot = n ∧ (1 ≤ fuel)%nat →
  (∀ s', fs_inv s' H L R → fs_step s s' H (fview s) → icache s' = icache s →
     Q (acc ++ slice (Z.to_nat off) (Z.to_nat (n - tot)) (contents (fview s) (i_disk p))) s') →
  wp E (readi_loop fuel i off n tot acc) Q s.
Proof.
  revert off tot acc s. induction fuel as [|fuel IH]; intros off tot acc s Hinv Hp Hok H0 Ht Hle Hfree Hfuel HQ;
    pose proof (Z.mod_pos_bound off 512 ltac:(lia)) as Hmb; [lia|]. cbn [readi_loop].
  destruct (Z.ltb_spec tot n) as [Hlt|Hge].
  2: { apply wp_ret. replace (n - tot) with 0 in HQ by lia. cbn [slice Z.to_nat] in HQ.
       specialize (HQ s). unfold slice in HQ. rewrite take_0, app_nil_r in HQ. apply HQ; [done|apply fs_step_refl|done]. }
  pose proof Hok as (Hdev & Hsz & Hmap). change BSIZE with 512.
  assert (0 ≤ off / 512) as Hdiv by (apply Z.div_pos; lia).
  pose proof (nblocks_bound (i_size p) off ltac:(lia)) as Hnb. pose proof Hmap as (_ & _ & _ & Hm).
  destruct (Hm _ Hnb) as [_ Hbr].
  apply wp_bind. eapply wp_getopt; [done|]. apply wp_bind. eapply wp_bmap_mapped; [done..|].
  intros s1 Hinv1 Hs1 Hi1. rewrite Hdev. apply wp_bind. eapply wp_dio_bread; [done|done|done|].
  intros b s2 Hinv2 Hh2 Hs2 Hi2. apply wp_bind. eapply wp_dio_get_buf; [done..|]. intros x ->.
  apply wp_bind. eapply wp_dio_brelse; [done|unfold NBUF in *; lia|]. intros s3 Hinv3 Hs3 Hi3.
  set (m := Z.min (n - tot) (512 - off mod 512)). assert (0 < m ≤ 512) as Hmr by lia.
  assert (∀ k, fview s2 k = fview s k) as HV2.
  { intros k. rewrite (fst_view _ _ _ _ Hs2). apply Hs1. }
  assert (fs_step s s3 H (fview s)) as Hs03.
  { eapply fs_step_trans; [done|]. eapply fs_step_trans; [done|]. eapply fs_step_ext; [done|]. done. }
  assert (∀ k, fview s3 k = fview s k) as HV3 by apply Hs03.
  rewrite HV2. rewrite u32_small by lia.
  apply (IH (off + m) (tot + m)); [done|congruence| |lia|lia|lia|done| |].
  - eapply file_ok_ext; [|done]. done.
  - destruct Hfuel as [Hfuel|[? _]]; [|lia]. destruct (Z_lt_le_dec (n - tot) (512 - off mod 512)) as [Hs|Hs]; [right; lia|left].
    assert (m = 512 - off mod 512) as -> by lia.
    assert ((off + (512 - off mod 512)) mod 512 = 0) as ->; [|lia].
    rewrite (Z_div_mod_eq_full off 512) at 1.
    replace (512 * (off / 512) + off mod 512 + (512 - off mod 512)) with ((off / 512 + 1) * 512) by lia.
    apply Z.mod_mul. lia.
  - intros s' Hinv' Hs' Hi'. replace (contents (fview s3) (i_disk p)) with (contents (fview s) (i_disk p))
      by (by apply contents_ext).
    rewrite <- app_assoc. erewrite <- (slice_contents (fview s) (i_disk p) off m) by (try done; cbn [i_disk di_size]; try lia; intros; by eapply fview_512).
    replace (Z.to_nat (off + m)) with (Z.to_nat off + Z.to_nat m)%nat by lia. rewrite slice_app_split.
    replace (Z.to_nat m + Z.to_nat (n - (tot + m)))%nat with (Z.to_nat (n - tot)) by lia.
    apply HQ; [done| |congruence]. eapply fs_step_trans; [done|]. by eapply fs_step_ext.
Qed.

(** [readi] on a regular file or directory. *)
Lemma wp_readi E i p off n H L R (Q : Z * list Z → fss D X → Prop) s :
  fs_inv s H L R → icache s !! i = Some p → file_ok (fview s) p → i_type p ≠ T_DEV → 1 ≤ i_nlink p →
  0 ≤ off ≤ i_size p → 0 ≤ n → off + n < 4294967296 → (length H + length L < NBUF)%nat →
  (∀ s', fs_inv s' H L R → fs_step s s' H (fview s) → icache s' = icache s →
     let n' := Z.min n (i_size p - off) in
     Q (n', slice (Z.to_nat off) (Z.to_nat n') (contents (fview s) (i_disk p))) s') →
  wp E (readi devtab i off n) Q s.
Proof.
  intros Hinv Hp Hok Hty Hnl Ho Hn Hov Hfree HQ. pose proof Hok as (_ & Hsz & _). unfold readi.
  apply wp_bind. eapply wp_getopt; [done|]. rewrite (proj2 (Z.eqb_neq _ _) Hty).
  rewrite !u32_small, Z.gtb_ltb by lia.
  rewrite (proj2 (Z.ltb_ge (i_size p) off)), (proj2 (Z.ltb_ge (off + n) off)), (proj2 (Z.ltb_ge (i_nlink p) 1)) by lia.
  cbn [orb]. cbn zeta in HQ. rewrite Z.gtb_ltb.
  assert ((if i_size p <? off + n then i_size p - off else n) = Z.min n (i_size p - off)) as ->.
  { destruct (Z.ltb_spec (i_size p) (off + n)); lia. }
  set (n' := Z.min n (i_size p - off)) in *. change BSIZE with 512.
  assert (0 ≤ n' / 512) by (apply Z.div_pos; lia).
  pose proof (Z_div_mod_eq_full n' 512). pose proof (Z.mod_pos_bound n' 512 ltac:(lia)).
  pose proof (Z.mod_pos_bound off 512 ltac:(lia)).
  apply wp_bind. eapply wp_readi_loop; [done|done|done|lia|lia|lia|done|left; lia|].
  intros s' Hinv' Hs' Hi'. apply wp_ret. rewrite s32_small by lia. cbn [app]. rewrite Z.sub_0_r. by apply HQ.
Qed.
End files.
