(* ===== verification/FsTable.v ===== *)
(** * fs.c: the block table of a file under allocation

    The addresses an inode stands for, as one table; what it means that a file
    owns its blocks, and how allocating a block for the file changes table,
    bitmap and data. *)

From S2P Require Import Prelude Spinlock CString Ide Bio BioFacts Layout Log LogDisk LogFacts LogSpecs Fs FsFacts FsInodes FsFiles.

(** The indirect block, then the blocks 0 to 139 of the file. *)
Definition indirect (addrs : list Z) : Z := default 0 (addrs !! 12%nat).
Definition ftab (V : disk) (addrs : list Z) : list Z := indirect addrs :: (baddr V addrs <$> seq 0 140).
Definition nz (l : list Z) : list Z := filter (λ x, x ≠ 0) l.

(** The data of block [bn]; a block not allocated reads as zeroes. *)
Definition fblock (V : disk) (addrs : list Z) (bn : nat) : list Z :=
  if baddr V addrs bn =? 0 then zeros else V (baddr V addrs bn).
Definition fdata (V : disk) (addrs : list Z) : list Z := concat (fblock V addrs <$> seq 0 140).

Definition nfree (V : disk) (sb : superblock) : nat :=
  length (filter (λ b, used V sb b = false) (seqZ 0 (sb_size sb))).

(** The file owns its blocks: they are distinct data blocks in use. *)
Record wfile (V : disk) (sb : superblock) (addrs : list Z) : Prop := {
  wf_len : length addrs = 13%nat;
  wf_nodup : NoDup (nz (ftab V addrs));
  wf_data a : a ∈ nz (ftab V addrs) → sb_bmapstart sb < a < sb_size sb ∧ used V sb a = true;
}.

(** [grown n]: at most [n] blocks were allocated for the file, and nothing
    else of the disk changed but the bitmap and the file's own blocks. *)
Record grown (sb : superblock) (n : nat) (V : disk) (addrs : list Z) (V' : disk) (addrs' : list Z) : Prop := {
  gr_wf : wfile V' sb addrs';
  gr_owned a : a ∈ nz (ftab V' addrs') → a ∈ nz (ftab V addrs) ∨ used V sb a = false;
  gr_keep k a : ftab V addrs !! k = Some a → a ≠ 0 → ftab V' addrs' !! k = Some a;
  gr_used a : 0 ≤ a < sb_size sb → used V sb a = true → used V' sb a = true;
  gr_frame a : a ≠ sb_bmapstart sb → a ∉ nz (ftab V' addrs') → V' a = V a;
  gr_free : (nfree V sb ≤ nfree V' sb + n)%nat;
}.

Lemma elem_of_nz a l : a ∈ nz l ↔ a ≠ 0 ∧ a ∈ l.
Proof. unfold nz. by rewrite list_elem_of_filter. Qed.

Lemma nz_insert l k a : l !! k = Some 0 → a ≠ 0 → nz (<[k:=a]> l) ≡ₚ a :: nz l.
Proof.
  intros Hk Ha. pose proof (lookup_lt_Some _ _ _ Hk). unfold nz.
  rewrite insert_take_drop by done. rewrite <- (take_drop_middle l k 0 Hk) at 3.
  rewrite !filter_app, !filter_cons_True by done. rewrite filter_cons_False by auto.
  by rewrite Permutation_middle.
Qed.

Lemma grown_keep_owned sb n V addrs V' addrs' a :
  grown sb n V addrs V' addrs' → a ∈ nz (ftab V addrs) → a ∈ nz (ftab V' addrs').
Proof.
  intros Hg [Ha (k & Hk)%list_elem_of_lookup]%elem_of_nz. apply elem_of_nz. split; [done|].
  eapply list_elem_of_lookup_2, gr_keep; done.
Qed.

Lemma grown_refl sb V addrs : wfile V sb addrs → grown sb 0 V addrs V addrs.
Proof. intros Hw. constructor; auto. lia. Qed.

Lemma grown_trans sb n1 n2 V1 a1 V2 a2 V3 a3 :
  grown sb n1 V1 a1 V2 a2 → grown sb n2 V2 a2 V3 a3 → 0 ≤ sb_bmapstart sb → grown sb (n1 + n2) V1 a1 V3 a3.
Proof.
  intros H1 H2 Hbm. constructor.
  - apply H2.
  - intros a Ha. pose proof (wf_data _ _ _ (gr_wf _ _ _ _ _ _ H2) a Ha) as [Hr _].
    destruct (gr_owned _ _ _ _ _ _ H2 a Ha) as [Ha2|Hu]; [by eapply gr_owned|]. right.
    destruct (used V1 sb a) eqn:Hu1; [|done]. apply (gr_used _ _ _ _ _ _ H1) in Hu1; [congruence|lia].
  - intros k a Hk Ha. eapply gr_keep; [done| |done]. by eapply gr_keep.
  - intros a Hr Hu. eapply gr_used; [done..|]. by eapply gr_used.
  - intros a Hb Ha. rewrite (gr_frame _ _ _ _ _ _ H2) by done. apply (gr_frame _ _ _ _ _ _ H1); [done|].
    intros Ha2. apply Ha. by eapply grown_keep_owned.
  - pose proof (gr_free _ _ _ _ _ _ H1). pose proof (gr_free _ _ _ _ _ _ H2). lia.
Qed.

(** Marking one free block. *)
Lemma filter_mark (l : list Z) (f g : Z → bool) b :
  NoDup l → (∀ x, x ∈ l → g x = if decide (x = b) then true else f x) →
  (length (filter (λ x, f x = false) l) ≤
   length (filter (λ x, g x = false) l) + (if decide (b ∈ l) then 1 else 0))%nat.
Proof.
  induction 1 as [|x l Hx Hnd IH]; intros Hg; [cbn; lia|].
  assert (∀ y, y ∈ l → g y = if decide (y = b) then true else f y) as Hg' by (intros; apply Hg; set_solver).
  specialize (IH Hg'). pose proof (Hg x ltac:(set_solver)) as Hgx. rewrite !filter_cons.
  destruct (decide (x = b)) as [->|Hne].
  - rewrite (decide_True (P := b ∈ b :: l)) by set_solver. rewrite decide_False in IH by done.
    rewrite (decide_False (P := g b = false)) by congruence. case_decide; cbn [length]; lia.
  - rewrite Hgx.
    assert ((if decide (b ∈ x :: l) then 1 else 0) = (if decide (b ∈ l) then 1 else 0))%nat as ->.
    { repeat case_decide; set_solver. }
    destruct (decide (f x = false)); cbn [length]; lia.
Qed.

(** One block allocated for table slot [k], of which [T] are the blocks of the
    file rewritten to record it. *)
Lemma grown_alloc sb V addrs V' addrs' k b :
  wfile V sb addrs → ftab V addrs !! k = Some 0 → b ≠ 0 →
  sb_bmapstart sb < b < sb_size sb → used V sb b = false →
  (∀ x, 0 ≤ x < sb_size sb → used V' sb x = if decide (x = b) then true else used V sb x) →
  length addrs' = 13%nat → ftab V' addrs' = <[k:=b]> (ftab V addrs) →
  (∀ x, x ≠ sb_bmapstart sb → x ∉ nz (ftab V' addrs') → V' x = V x) → 0 ≤ sb_bmapstart sb →
  grown sb 1 V addrs V' addrs'.
Proof.
  intros [Hl Hnd Hd] Hk Hb0 Hb Hu Hu' Hl' Htab Hfr Hbm.
  assert (∀ a, a ∈ nz (ftab V' addrs') ↔ a = b ∨ a ∈ nz (ftab V addrs)) as Hel.
  { intros a. rewrite Htab, (nz_insert _ _ _ Hk Hb0). set_solver. }
  assert (b ∉ nz (ftab V addrs)) as Hbn.
  { intros Hin%Hd. destruct Hin as [_ Hin]. congruence. }
  constructor; [| | | |done|].
  - constructor; [done| |].
    + rewrite Htab, (nz_insert _ _ _ Hk Hb0). by apply NoDup_cons.
    + intros a [->|Ha]%Hel; [split; [done|]; rewrite Hu', decide_True by lia; done|].
      destruct (Hd a Ha) as [Hr Hua]. split; [done|]. rewrite Hu' by lia. by case_decide.
  - intros a Ha. apply Hel in Ha as [->|Ha]; [by right|by left].
  - intros j a Hj Ha. rewrite Htab. destruct (decide (j = k)) as [->|Hne]; [congruence|].
    by rewrite list_lookup_insert_ne.
  - intros a Ha Hua. rewrite Hu' by done. by case_decide.
  - unfold nfree. eapply Nat.le_trans; [apply (filter_mark _ _ (used V' sb) b)|case_decide; lia].
    + apply NoDup_seqZ.
    + intros x Hx%elem_of_seqZ. apply Hu'. lia.
Qed.

(** ** Reading the table *)
Lemma ftab_ind V addrs : ftab V addrs !! 0%nat = Some (indirect addrs).
Proof. done. Qed.
Lemma ftab_bn V addrs bn : (bn < 140)%nat → ftab V addrs !! S bn = Some (baddr V addrs bn).
Proof.
  intros. change ((baddr V addrs <$> seq 0 140) !! bn = Some (baddr V addrs bn)).
  by rewrite list_lookup_fmap, lookup_seq_lt.
Qed.
Lemma length_ftab V addrs : length (ftab V addrs) = 141%nat.
Proof. done. Qed.

Lemma nz_inj l i j a : NoDup (nz l) → a ≠ 0 → l !! i = Some a → l !! j = Some a → i = j.
Proof.
  intros Hnd Ha. revert i j. induction l as [|x l IH]; intros i j Hi Hj; [done|].
  unfold nz in Hnd. rewrite filter_cons in Hnd. fold (nz l) in Hnd.
  assert (∀ k, l !! k = Some a → a ∈ nz l) as Hin.
  { intros k Hk. apply elem_of_nz. split; [done|]. by eapply list_elem_of_lookup_2. }
  destruct i as [|i], j as [|j]; cbn in Hi, Hj; [done| | |].
  - exfalso. simplify_eq. rewrite decide_True in Hnd by done. apply NoDup_cons in Hnd as [Hn _]. by eapply Hn, Hin.
  - exfalso. simplify_eq. rewrite decide_True in Hnd by done. apply NoDup_cons in Hnd as [Hn _]. by eapply Hn, Hin.
  - f_equal. apply IH; [|done|done]. case_decide; [by apply NoDup_cons in Hnd as [_ ?]|done].
Qed.
Lemma owned_bn V addrs bn : (bn < 140)%nat → baddr V addrs bn ≠ 0 → baddr V addrs bn ∈ nz (ftab V addrs).
Proof. intros Hb H0. apply elem_of_nz. split; [done|]. eapply list_elem_of_lookup_2. by apply ftab_bn. Qed.
Lemma owned_ind V addrs : indirect addrs ≠ 0 → indirect addrs ∈ nz (ftab V addrs).
Proof. intros H0. apply elem_of_nz. split; [done|]. by apply (list_elem_of_lookup_2 _ 0). Qed.
Lemma baddr_ne_ind V sb addrs bn :
  wfile V sb addrs → (bn < 140)%nat → baddr V addrs bn ≠ 0 → baddr V addrs bn ≠ indirect addrs.
Proof.
  intros Hw Hb H0 He. pose proof (nz_inj (ftab V addrs) (S bn) 0 (baddr V addrs bn) (wf_nodup _ _ _ Hw) H0) as Hi.
  specialize (Hi (ftab_bn _ _ _ Hb)). rewrite ftab_ind, He in Hi. by specialize (Hi eq_refl).
Qed.
Lemma baddr_inj V sb addrs i j :
  wfile V sb addrs → (i < 140)%nat → (j < 140)%nat → baddr V addrs i ≠ 0 → baddr V addrs i = baddr V addrs j → i = j.
Proof.
  intros Hw Hi Hj H0 He. assert (S i = S j); [|lia].
  eapply (nz_inj (ftab V addrs)); [apply Hw|exact H0|by apply ftab_bn|rewrite He; by apply ftab_bn].
Qed.

(** ** Updating the table *)
Lemma ftab_insert V addrs V' addrs' bn a :
  (bn < 140)%nat → indirect addrs' = indirect addrs →
  (∀ k, (k < 140)%nat → baddr V' addrs' k = if decide (k = bn) then a else baddr V addrs k) →
  ftab V' addrs' = <[S bn:=a]> (ftab V addrs).
Proof.
  intros Hbn Hi Hb. apply list_eq. intros [|k]; [by rewrite list_lookup_insert_ne, !ftab_ind, Hi by lia|].
  destruct (decide (k < 140)%nat) as [Hk|Hk].
  - rewrite ftab_bn, Hb by done. case_decide as Hd.
    + subst k. symmetry. apply list_lookup_insert_eq. rewrite length_ftab. lia.
    + rewrite list_lookup_insert_ne by lia. by rewrite ftab_bn.
  - rewrite !lookup_ge_None_2; [done|rewrite length_insert, length_ftab; lia|rewrite length_ftab; lia].
Qed.

Lemma indirect_insert addrs bn a : (bn < 12)%nat → indirect (<[bn:=a]> addrs) = indirect addrs.
Proof. intros. unfold indirect. by rewrite list_lookup_insert_ne by lia. Qed.

Lemma baddr_direct V V' addrs bn a k :
  (bn < 12)%nat → length addrs = 13%nat → (indirect addrs ≠ 0 → V' (indirect addrs) = V (indirect addrs)) →
  baddr V' (<[bn:=a]> addrs) k = if decide (k = bn) then a else baddr V addrs k.
Proof.
  intros Hbn Hl HV. unfold baddr. fold (indirect (<[bn:=a]> addrs)) (indirect addrs).
  rewrite indirect_insert by done. case_bool_decide as Hk.
  - case_decide as Hd; [subst; by rewrite list_lookup_insert_eq by lia|by rewrite list_lookup_insert_ne].
  - rewrite decide_False by lia. destruct (Z.eqb_spec (indirect addrs) 0) as [|H0]; [done|]. by rewrite HV.
Qed.

Lemma get_u32_zeros o : (o + 4 ≤ 512)%nat → get_u32 o zeros = 0.
Proof.
  intros Ho. unfold get_u32, slice, zeros. rewrite drop_replicate, take_replicate, Nat.min_l by lia. done.
Qed.
Lemma baddr_new_indirect V V' addrs b k :
  indirect addrs = 0 → length addrs = 13%nat → V' b = zeros → (k < 140)%nat →
  baddr V' (<[12%nat:=b]> addrs) k = baddr V addrs k.
Proof.
  intros H0 Hl HV Hk. unfold baddr. fold (indirect addrs). rewrite H0, Z.eqb_refl.
  case_bool_decide as Hd; [by rewrite list_lookup_insert_ne by lia|].
  rewrite list_lookup_insert_eq by lia. change (default 0 (Some b)) with b. destruct (b =? 0); [done|].
  rewrite HV. apply get_u32_zeros. lia.
Qed.
Lemma baddr_indirect V V' addrs bn a k :
  (12 ≤ bn < 140)%nat → (k < 140)%nat → indirect addrs ≠ 0 → 0 ≤ a < 4294967296 → length (V (indirect addrs)) = 512%nat →
  V' (indirect addrs) = put_u32 (4 * (bn - 12)) a (V (indirect addrs)) →
  baddr V' addrs k = if decide (k = bn) then a else baddr V addrs k.
Proof.
  intros Hbn Hk H0 Ha Hl HV. unfold baddr. fold (indirect addrs).
  case_bool_decide as Hd; [by rewrite decide_False by lia|]. rewrite (proj2 (Z.eqb_neq _ _) H0), HV.
  case_decide as He.
  - subst k. rewrite get_put_u32 by lia. by rewrite u32_small.
  - rewrite get_put_u32_ne by lia. done.
Qed.

(** ** Data under allocation *)
Lemma fblock_alloc V addrs V' addrs' j :
  (baddr V' addrs' j = baddr V addrs j ∨ baddr V addrs j = 0 ∧ V' (baddr V' addrs' j) = zeros) →
  (baddr V addrs j ≠ 0 → V' (baddr V addrs j) = V (baddr V addrs j)) →
  fblock V' addrs' j = fblock V addrs j.
Proof.
  intros [He|[H0 Hz]] Hk; unfold fblock.
  - rewrite He. destruct (Z.eqb_spec (baddr V addrs j) 0) as [|H0]; [done|]. by apply Hk.
  - rewrite H0, Z.eqb_refl. by destruct (_ =? 0).
Qed.

(** ** Disks that agree *)
Lemma used_ext V V' sb b : (∀ x, V x = V' x) → used V sb b = used V' sb b.
Proof. intros HV. unfold used. by rewrite HV. Qed.
Lemma ftab_ext V V' addrs : (∀ x, V x = V' x) → ftab V addrs = ftab V' addrs.
Proof. intros HV. unfold ftab. f_equal. apply list_fmap_ext. intros k bn _. by apply baddr_ext. Qed.
Lemma fblock_ext V V' addrs bn : (∀ x, V x = V' x) → fblock V addrs bn = fblock V' addrs bn.
Proof. intros HV. unfold fblock. by rewrite (baddr_ext V V'), HV. Qed.
Lemma nfree_ext V V' sb : (∀ x, V x = V' x) → nfree V sb = nfree V' sb.
Proof. intros HV. unfold nfree. f_equal. apply list_filter_iff. intros b. by rewrite (used_ext V V'). Qed.
Lemma wfile_ext V V' sb addrs : (∀ x, V x = V' x) → wfile V sb addrs → wfile V' sb addrs.
Proof.
  intros HV [Hl Hn Hd]. constructor; rewrite <- ?(ftab_ext V V') by done; [done..|].
  intros a Ha. rewrite <- (used_ext V V') by done. by apply Hd.
Qed.
Lemma grown_ext sb n V W V' W' a a' :
  (∀ x, V x = W x) → (∀ x, V' x = W' x) → grown sb n V a V' a' → grown sb n W a W' a'.
Proof.
  intros HV HV' [Hw Ho Hk Hu Hf Hn]. constructor; rewrite <- ?(ftab_ext V W), <- ?(ftab_ext V' W') by done.
  - by apply (wfile_ext V').
  - intros x. rewrite <- (used_ext V W) by done. apply Ho.
  - done.
  - intros x. rewrite <- (used_ext V W), <- (used_ext V' W') by done. apply Hu.
  - intros x. rewrite <- HV, <- HV'. apply Hf.
  - by rewrite <- (nfree_ext V W), <- (nfree_ext V' W') by done.
Qed.
