(* ===== verification/FsWrite.v ===== *)
(** * fs.c: allocating and writing file blocks

    [bmap] with allocation; FsWritei.v has [writei]. *)

From S2P Require Import Prelude Spinlock CString Ide Bio BioFacts Layout Log LogDisk LogFacts LogSpecs Fs FsFacts FsInodes FsFiles FsTable.

(** The disk after [balloc] has handed out [b]. *)
Record balloced (sb : superblock) (V V' : disk) (b : Z) : Prop := {
  bl_new : sb_bmapstart sb < b < sb_size sb;
  bl_free : used V sb b = false;
  bl_used x : 0 ≤ x < sb_size sb → used V' sb x = if decide (x = b) then true else used V sb x;
  bl_zero : V' b = zeros;
  bl_frame x : x ≠ sb_bmapstart sb → x ≠ b → V' x = V x;
}.

Section pure.
Context (sb : superblock) (Hbm : 0 ≤ sb_bmapstart sb).

Lemma balloced_keeps V V' b addrs a :
  wfile V sb addrs → balloced sb V V' b → a ∈ nz (ftab V addrs) → a ≠ b ∧ V' a = V a.
Proof.
  intros Hw Hb Ha. destruct (wf_data _ _ _ Hw a Ha) as [Hr Hu].
  assert (a ≠ b) as Hne by (intros ->; rewrite (bl_free _ _ _ _ Hb) in Hu; done).
  split; [done|]. apply (bl_frame _ _ _ _ Hb); [lia|done].
Qed.

Lemma balloced_kept V V' b addrs bn :
  wfile V sb addrs → balloced sb V V' b → (bn < 140)%nat → baddr V addrs bn ≠ 0 →
  V' (baddr V addrs bn) = V (baddr V addrs bn).
Proof. intros Hw Hb Hbn H0. eapply balloced_keeps; [done..|]. by apply owned_bn. Qed.

(** A direct block. *)
Lemma grown_direct V V' addrs bn b :
  wfile V sb addrs → balloced sb V V' b → (bn < 12)%nat → baddr V addrs bn = 0 →
  grown sb 1 V addrs V' (<[bn:=b]> addrs) ∧ baddr V' (<[bn:=b]> addrs) bn = b ∧
  ∀ j, (j < 140)%nat → fblock V' (<[bn:=b]> addrs) j = fblock V addrs j.
Proof.
  intros Hw Hb Hbn H0. pose proof (bl_new _ _ _ _ Hb) as Hr.
  assert (∀ k, baddr V' (<[bn:=b]> addrs) k = if decide (k = bn) then b else baddr V addrs k) as Hba.
  { intros k. apply baddr_direct; [done|apply Hw|]. intros Hi. eapply balloced_keeps; [done..|]. by apply owned_ind. }
  assert (ftab V' (<[bn:=b]> addrs) = <[S bn:=b]> (ftab V addrs)) as Htab.
  { apply ftab_insert; [lia|by apply indirect_insert|]. intros k _. apply Hba. }
  split_and!.
  - eapply (grown_alloc sb V addrs V' _ (S bn) b); try done; [rewrite ftab_bn, H0 by lia; done|lia|apply Hb|apply Hb| |].
    + rewrite length_insert. apply Hw.
    + intros x Hx Hn. apply (bl_frame _ _ _ _ Hb); [done|]. intros ->. apply Hn, elem_of_nz. split; [lia|].
      rewrite Htab. eapply list_elem_of_lookup_2, list_lookup_insert_eq. rewrite length_ftab. lia.
  - by rewrite Hba, decide_True.
  - intros j Hj. apply fblock_alloc; [|intros; by eapply balloced_kept].
    rewrite Hba. case_decide as Hd; [subst; right; split; [done|apply Hb]|by left].
Qed.

(** The indirect block itself. *)
Lemma grown_new_indirect V V' addrs b :
  wfile V sb addrs → balloced sb V V' b → indirect addrs = 0 →
  grown sb 1 V addrs V' (<[12%nat:=b]> addrs) ∧ indirect (<[12%nat:=b]> addrs) = b ∧
  ∀ j, (j < 140)%nat → baddr V' (<[12%nat:=b]> addrs) j = baddr V addrs j ∧
    fblock V' (<[12%nat:=b]> addrs) j = fblock V addrs j.
Proof.
  intros Hw Hb H0. pose proof (bl_new _ _ _ _ Hb) as Hr. pose proof (wf_len _ _ _ Hw) as Hl.
  assert (indirect (<[12%nat:=b]> addrs) = b) as Hib by (unfold indirect; by rewrite list_lookup_insert_eq by lia).
  assert (∀ j, (j < 140)%nat → baddr V' (<[12%nat:=b]> addrs) j = baddr V addrs j) as Hba.
  { intros j Hj. apply baddr_new_indirect; [done|done|apply Hb|done]. }
  assert (ftab V' (<[12%nat:=b]> addrs) = <[0%nat:=b]> (ftab V addrs)) as Htab.
  { unfold ftab. rewrite Hib. change (<[0%nat:=b]> (?x :: ?l)) with (b :: l).
    f_equal. apply list_fmap_ext. intros k x [-> Hk]%lookup_seq. apply Hba. lia. }
  split_and!; [|done|].
  - eapply (grown_alloc sb V addrs V' _ 0 b); try done; [rewrite ftab_ind, H0; done|lia|apply Hb|apply Hb| |].
    + by rewrite length_insert.
    + intros x Hx Hn. apply (bl_frame _ _ _ _ Hb); [done|]. intros ->. apply Hn, elem_of_nz. split; [lia|].
      rewrite Htab. by apply (list_elem_of_lookup_2 _ 0).
  - intros j Hj. split; [by apply Hba|]. apply fblock_alloc; [left; by apply Hba|intros; by eapply balloced_kept].
Qed.

(** An entry of the indirect block. *)
Lemma grown_entry V V' addrs bn b :
  let ind := indirect addrs in
  let V'' := wr V' ind (put_u32 (4 * (bn - 12)) b (V' ind)) in
  wfile V sb addrs → balloced sb V V' b → (12 ≤ bn < 140)%nat → baddr V addrs bn = 0 → ind ≠ 0 →
  sb_size sb ≤ 1000 → (∀ x, length (V x) = 512%nat) →
  grown sb 1 V addrs V'' addrs ∧ baddr V'' addrs bn = b ∧
  ∀ j, (j < 140)%nat → fblock V'' addrs j = fblock V addrs j.
Proof.
  intros ind V'' Hw Hb Hbn H0 Hi Hsz Hlen. pose proof (bl_new _ _ _ _ Hb) as Hr.
  destruct (balloced_keeps V V' b addrs ind Hw Hb) as [Hib HVi]; [by apply owned_ind|].
  destruct (wf_data _ _ _ Hw ind) as [Hir _]; [by apply owned_ind|].
  assert (∀ k, (k < 140)%nat → baddr V'' addrs k = if decide (k = bn) then b else baddr V addrs k) as Hba.
  { intros k Hk. apply baddr_indirect; [done|done|done|lia|done|]. unfold V''. fold ind. by rewrite wr_eq, HVi. }
  assert (ftab V'' addrs = <[S bn:=b]> (ftab V addrs)) as Htab by (apply ftab_insert; [lia|done|done]).
  assert (∀ x, 0 ≤ x < sb_size sb → used V'' sb x = used V' sb x) as Hus.
  { intros x Hx. unfold used, V''. rewrite wr_ne; [done|]. unfold BBLOCK, BPB.
    rewrite Z.div_small, Z.add_0_l, u32_small by lia. lia. }
  split_and!.
  - eapply (grown_alloc sb V addrs V'' _ (S bn) b); try done; [rewrite ftab_bn, H0 by lia; done|lia|apply Hb| |apply Hw|].
    + intros x Hx. rewrite Hus by done. by apply Hb.
    + intros x Hx Hn. unfold V''. assert (x ≠ ind) as Hxi.
      { intros ->. apply Hn. by apply owned_ind. }
      rewrite wr_ne by done. apply (bl_frame _ _ _ _ Hb); [done|]. intros ->. apply Hn, elem_of_nz. split; [lia|].
      rewrite Htab. eapply list_elem_of_lookup_2, list_lookup_insert_eq. rewrite length_ftab. lia.
  - rewrite Hba, decide_True by (done || lia). done.
  - intros j Hj. apply fblock_alloc.
    + rewrite Hba by done. case_decide as Hd; [subst; right; split; [done|]|by left].
      unfold V''. rewrite wr_ne by done. apply Hb.
    + intros Hj0. unfold V''. rewrite wr_ne by (by eapply baddr_ne_ind). by eapply balloced_kept.
Qed.
End pure.

Lemma nfree_free V sb : (1 ≤ nfree V sb)%nat → ∃ b, 0 ≤ b < sb_size sb ∧ used V sb b = false.
Proof.
  unfold nfree. intros Hn. destruct (filter _ _) as [|b l] eqn:Hf; [cbn in Hn; lia|].
  assert (b ∈ filter (λ b, used V sb b = false) (seqZ 0 (sb_size sb))) as Hb by (rewrite Hf; set_solver).
  apply list_elem_of_filter in Hb as [Hu Hb%elem_of_seqZ]. exists b. split; [lia|done].
Qed.
Lemma grown_weaken sb n m V a V' a' : grown sb n V a V' a' → (n ≤ m)%nat → grown sb m V a V' a'.
Proof. intros [] Hn. constructor; try done. lia. Qed.

Section bmap.
Context {D X : Type} {dev : IdeDevice D} {dok : IdeDeviceOk D}.
Implicit Types s : fss D X.

Lemma bmapstart_pos s H L R : fs_inv s H L R → 0 ≤ sb_bmapstart (fsb s) ∧ sb_size (fsb s) ≤ 1000.
Proof.
  intros [Hlog [? ? ? ? Hs] _]. pose proof (li_geom _ _ _ Hlog) as []. unfold FSSIZE in Hs.
  assert (0 ≤ sb_ninodes (fsb s) / IPB) by (apply Z.div_pos; unfold IPB; lia). lia.
Qed.

(** [balloc] where a block is free. *)
Lemma wp_balloc_free E H L R (Q : Z → fss D X → Prop) s :
  fs_inv s H L R → meta_used s → room s L 2 → (S (length H) + length L < NBUF)%nat →
  (1 ≤ nfree (fview s) (fsb s))%nat →
  (∀ b s', balloced (fsb s) (fview s) (fview s') b → fs_inv s' H (balloc_log s L b) R →
     fs_step s s' H (fview s') → meta_used s' → icache s' = icache s → Q b s') →
  wp E (balloc ROOTDEV) Q s.
Proof.
  intros Hinv Hm Hroom Hfree Hn HQ. destruct (nfree_free _ _ Hn) as (b0 & Hb0 & Hu0).
  eapply wp_balloc; [done..| |intros Hall; by rewrite Hall in Hu0].
  intros b s' Hb Hu Hlow Hinv' Hs' Hi'. destruct (meta_data s H L R b Hinv Hm ltac:(lia) Hu) as [_ Hlt].
  pose proof (fst_view _ _ _ _ Hs') as HV.
  assert (∀ x, 0 ≤ x < sb_size (fsb s) → used (fview s') (fsb s) x = if decide (x = b) then true else used (fview s) (fsb s) x) as Hus.
  { intros x Hx. rewrite <- (used_balloc s H L R b x) by done. unfold used. by rewrite HV. }
  apply HQ; [|done| | |done].
  - constructor; [lia|done|done| |].
    + rewrite HV. apply wr_eq.
    + intros x Hx Hxb. rewrite HV. unfold balloc_view. by rewrite !wr_ne.
  - destruct Hs'. by constructor.
  - intros x Hx. rewrite (fst_sb _ _ _ _ Hs') in *. pose proof (gm_bmap _ _ (fi_geom _ _ _ _ Hinv)).
    rewrite Hus by lia. case_decide; [done|]. by apply Hm.
Qed.

(** What [bmap] leaves: the file holds the same data, block [bn] is
    allocated, and only the file grew. *)
Record bmap_post s s' (i : nat) (p : inode) (addrs' : list Z) (bn : nat) (a : Z) (n : nat) : Prop := {
  bp_grown : grown (fsb s) n (fview s) (i_addrs p) (fview s') addrs';
  bp_addr : baddr (fview s') addrs' bn = a;
  bp_nz : a ≠ 0;
  bp_data j : (j < 140)%nat → fblock (fview s') addrs' j = fblock (fview s) (i_addrs p) j;
  bp_icache : icache s' = <[i:=set_i_addrs addrs' p]> (icache s);
  bp_meta : meta_used s';
  bp_same : baddr (fview s) (i_addrs p) bn ≠ 0 → addrs' = i_addrs p;
}.

Lemma set_i_addrs_id p : set_i_addrs (i_addrs p) p = p.
Proof. by destruct p. Qed.
Lemma meta_used_step s s' H : fs_step s s' H (fview s) → meta_used s → meta_used s'.
Proof.
  intros Hs Hm b Hb. rewrite (fst_sb _ _ _ _ Hs) in *. rewrite (used_ext _ (fview s)) by apply Hs. by apply Hm.
Qed.
Lemma icache_ok_addrs ic R i p addrs' :
  icache_ok ic R → ic !! i = Some p → length addrs' = 13%nat → icache_ok (<[i:=set_i_addrs addrs' p]> ic) R.
Proof. intros Hic Hp Hl. by eapply icache_ok_update. Qed.

(** The part of [bmap] that finds or allocates the indirect block. *)
Lemma wp_bmap_ind E i p H L R (Q : Z → fss D X → Prop) s :
  fs_inv s H L R → meta_used s → icache s !! i = Some p → i_dev p = ROOTDEV →
  wfile (fview s) (fsb s) (i_addrs p) → room s L 2 → (S (length H) + length L < NBUF)%nat →
  (1 ≤ nfree (fview s) (fsb s))%nat →
  (∀ s' L' addrs', fs_inv s' H L' R → (length L' ≤ length L + 2)%nat → fs_step s s' H (fview s') →
     grown (fsb s) 1 (fview s) (i_addrs p) (fview s') addrs' → indirect addrs' ≠ 0 →
     (∀ j, (j < 140)%nat → baddr (fview s') addrs' j = baddr (fview s) (i_addrs p) j ∧
        fblock (fview s') addrs' j = fblock (fview s) (i_addrs p) j) →
     icache s' = <[i:=set_i_addrs addrs' p]> (icache s) → meta_used s' →
     (indirect (i_addrs p) ≠ 0 → addrs' = i_addrs p) → Q (indirect addrs') s') →
  wp E (if indirect (i_addrs p) =? 0 then
          addr ← balloc (i_dev p);
          mod_inode i (λ p, set_i_addrs (<[Z.to_nat NDIRECT:=addr]> (i_addrs p)) p);;
          mret addr
        else mret (indirect (i_addrs p))) Q s.
Proof.
  intros Hinv Hm Hp Hdev Hw Hroom Hfree Hn HQ. destruct (bmapstart_pos s H L R Hinv) as [Hbm _].
  destruct (Z.eqb_spec (indirect (i_addrs p)) 0) as [H0|H0].
  - rewrite Hdev. apply wp_bind. eapply wp_balloc_free; [done..|]. intros b s1 Hb Hinv1 Hs1 Hm1 Hi1.
    destruct (grown_new_indirect (fsb s) Hbm _ _ _ _ Hw Hb H0) as (Hg & Hib & Hda).
    apply wp_bind. eapply wp_mod_inode; [by rewrite Hi1|]. change (Z.to_nat NDIRECT) with 12%nat. apply wp_ret.
    rewrite <- Hib at 1. apply (HQ _ (balloc_log s L b)).
    + eapply fs_inv_icache; [done|]. rewrite Hi1.
      apply icache_ok_addrs; [apply Hinv|done|]. rewrite length_insert. apply Hw.
    + unfold balloc_log. pose proof (logged_length L (sb_bmapstart (fsb s))).
      pose proof (logged_length (logged L (sb_bmapstart (fsb s))) b). lia.
    + by apply fs_step_icache.
    + exact Hg.
    + rewrite Hib. pose proof (bl_new _ _ _ _ Hb). lia.
    + exact Hda.
    + cbn [icache set_icache]. by rewrite Hi1.
    + exact Hm1.
    + done.
  - apply wp_ret. apply (HQ s L (i_addrs p)); [done|lia|apply fs_step_refl| |done|done| |done|done].
    + eapply grown_weaken; [by apply grown_refl|lia].
    + rewrite set_i_addrs_id. by rewrite list_insert_id.
Qed.

Lemma balloced_ext sb V W V' b : (∀ x, V x = W x) → balloced sb V V' b → balloced sb W V' b.
Proof.
  intros HV [Hn Hf Hu Hz Hfr]. constructor; try done.
  - by rewrite <- (used_ext V W).
  - intros x Hx. rewrite <- (used_ext V W) by done. by apply Hu.
  - intros x Hx Hxb. rewrite <- HV. by apply Hfr.
Qed.

(** A block that a file owns, in reach of the log. *)
Lemma owned_range s H L R addrs a :
  fs_inv s H L R → wfile (fview s) (fsb s) addrs → a ∈ nz (ftab (fview s) addrs) →
  0 ≤ a < FSSIZE ∧ log_start (lg (flog s)) + log_size (lg (flog s)) ≤ a.
Proof.
  intros Hinv Hw Ha. destruct (wf_data _ _ _ Hw a Ha) as [Hr _]. pose proof (bmapstart_pos s H L R Hinv) as [? ?].
  pose proof (bitmap_block s H L R 0 Hinv) as (_ & _ & ? & ?); unfold FSSIZE in *; lia.
Qed.

(** The part of [bmap] that finds or allocates the entry in the indirect
    block. *)
Lemma wp_bmap_entry E i p bn H L R (Q : Z → fss D X → Prop) s :
  fs_inv s H L R → meta_used s → icache s !! i = Some p →
  wfile (fview s) (fsb s) (i_addrs p) → indirect (i_addrs p) ≠ 0 → (12 ≤ bn < 140)%nat →
  room s L 3 → (S (length H) + length L + 3 < NBUF)%nat → (1 ≤ nfree (fview s) (fsb s))%nat →
  (∀ a s' L', fs_inv s' H L' R → (length L' ≤ length L + 3)%nat → fs_step s s' H (fview s') →
     bmap_post s s' i p (i_addrs p) bn a 1 → Q a s') →
  wp E (bp ← dio (bread ROOTDEV (indirect (i_addrs p)));
        x ← dio (get_buf bp);
        let addr := get_u32 (4 * (bn - 12)) (b_data x) in
        addr ← (if addr =? 0 then
                  addr ← balloc ROOTDEV;
                  dio (mod_data bp (put_u32 (4 * (bn - 12)) addr));;
                  lo (log_write bp);;
                  mret addr
                else mret addr);
        dio (brelse bp);;
        mret addr) Q s.
Proof.
  intros Hinv Hm Hp Hw Hi Hbn Hroom Hfree Hn HQ. destruct (bmapstart_pos s H L R Hinv) as [Hbm Hsz].
  destruct (owned_range s H L R (i_addrs p) (indirect (i_addrs p)) Hinv Hw) as [Hr Hhome]; [by apply owned_ind|].
  set (ind := indirect (i_addrs p)) in *.
  assert (icache s = <[i:=set_i_addrs (i_addrs p) p]> (icache s)) as Hid.
  { rewrite set_i_addrs_id. symmetry. by apply list_insert_id. }
  apply wp_bind. eapply wp_dio_bread; [done|done|lia|]. intros bp s1 Hinv1 Hh1 Hs1 Hi1.
  apply wp_bind. eapply wp_dio_get_buf; [done..|]. intros x Hx. rewrite Hx, (fst_view _ _ _ _ Hs1). clear x Hx.
  assert (∀ k, fview s1 k = fview s k) as HV1 by apply Hs1. pose proof (fst_sb _ _ _ _ Hs1) as Hsb1.
  assert (get_u32 (4 * (bn - 12)) (fview s ind) = baddr (fview s) (i_addrs p) bn) as ->.
  { unfold baddr. fold (indirect (i_addrs p)). fold ind. rewrite bool_decide_eq_false_2 by lia.
    by rewrite (proj2 (Z.eqb_neq ind 0)). }
  cbn zeta. destruct (Z.eqb_spec (baddr (fview s) (i_addrs p) bn) 0) as [H0|H0].
  - apply wp_bind, wp_bind. eapply wp_balloc_free; [done|by eapply meta_used_step| |cbn; lia| |].
    { apply (room_step s s1 H (fview s)); [done|]. by apply (room_le s L 3); [|lia]. }
    { by rewrite Hsb1, (nfree_ext _ (fview s)). }
    intros b s2 Hb Hinv2 Hs2 Hm2 Hi2. rewrite Hsb1 in Hb. apply (balloced_ext _ _ (fview s)) in Hb; [|done].
    destruct (grown_entry (fsb s) Hbm (fview s) (fview s2) (i_addrs p) bn b Hw Hb Hbn H0 Hi Hsz) as (Hg & Hba & Hda).
    { intros k. by eapply fview_512. }
    fold ind in Hg, Hba, Hda. set (V'' := wr (fview s2) ind _) in *.
    assert (holds (fio s2) bp ind) as Hh2 by (eapply holds_step; [done|set_solver|done]).
    apply wp_bind. eapply wp_dio_mod_data; [done..|].
    assert (fs_step s s2 H (fview s2)) as Hs02.
    { eapply fs_step_trans; [done|]. eapply fs_step_sub; [|done]. set_solver. }
    pose proof (logged_length L (sb_bmapstart (fsb s1))). pose proof (logged_length (logged L (sb_bmapstart (fsb s1))) b).
    apply wp_bind. eapply (wp_lo_log_write _ bp ind); [done|done|set_solver| | | |].
    { rewrite length_put_u32; rewrite (fview_512 _ _ _ _ _ Hinv2); [done|lia]. }
    { by rewrite (fst_start _ _ _ _ Hs02), (fst_lsize _ _ _ _ Hs02). }
    { eapply room_step; [exact Hs02|]. unfold room, balloc_log in *. lia. }
    intros s3 Hinv3 Hs3 Hi3. apply wp_ret. apply wp_bind. eapply wp_dio_brelse; [done|unfold NBUF in *; lia|].
    intros s4 Hinv4 Hs4 Hi4. apply wp_ret.
    assert (∀ k, fview s4 k = V'' k) as HV4.
    { intros k. rewrite (fst_view _ _ _ _ Hs4), (fst_view _ _ _ _ Hs3). done. }
    assert (fs_step s s4 H (fview s4)) as Hs04.
    { eapply fs_step_trans; [exact Hs02|]. eapply fs_step_trans; [eapply fs_step_sub; [|exact Hs3]; set_solver|].
      eapply fs_step_ext; [exact Hs4|]. intros k. symmetry. apply Hs4. }
    eapply HQ; [done| |done|].
    + pose proof (logged_length (balloc_log s1 L b) ind). unfold balloc_log in *. lia.
    + pose proof (bl_new _ _ _ _ Hb). constructor.
      * apply (grown_ext _ _ (fview s) _ V''); [done|intros k; by rewrite HV4|exact Hg].
      * by rewrite (baddr_ext _ V'').
      * lia.
      * intros j Hj. rewrite (fblock_ext _ V'') by done. by apply Hda.
      * rewrite Hi4, Hi3, Hi2, Hi1. done.
      * intros k Hk. assert (fsb s4 = fsb s) as Hsb4 by apply Hs04. rewrite Hsb4 in *.
        rewrite (used_ext _ V'') by done. eapply gr_used; [exact Hg| |].
        -- pose proof (gm_bmap _ _ (fi_geom _ _ _ _ Hinv)). lia.
        -- by apply Hm.
      * done.
  - apply wp_bind, wp_ret. apply wp_bind. eapply wp_dio_brelse; [done|unfold NBUF in *; lia|].
    intros s2 Hinv2 Hs2 Hi2. apply wp_ret.
    assert (∀ k, fview s2 k = fview s k) as HV2.
    { intros k. rewrite (fst_view _ _ _ _ Hs2). done. }
    assert (fs_step s s2 H (fview s)) as Hs02.
    { eapply fs_step_trans; [done|]. eapply fs_step_ext; done. }
    eapply (HQ _ s2 L); [done|lia| |].
    + eapply fs_step_ext; [done|]. done.
    + constructor.
      * apply (grown_ext _ _ (fview s) _ (fview s)); [done|intros k; by rewrite HV2|].
        eapply grown_weaken; [by apply grown_refl|lia].
      * by rewrite (baddr_ext _ (fview s)).
      * done.
      * intros j Hj. by rewrite (fblock_ext _ (fview s)).
      * rewrite Hi2, Hi1. done.
      * by eapply meta_used_step.
      * done.
Qed.

Lemma wp_bmap_direct E i p bn H L R (Q : Z → fss D X → Prop) s :
  fs_inv s H L R → meta_used s → icache s !! i = Some p → i_dev p = ROOTDEV →
  wfile (fview s) (fsb s) (i_addrs p) → 0 ≤ bn < 12 → room s L 2 → (S (length H) + length L < NBUF)%nat →
  (1 ≤ nfree (fview s) (fsb s))%nat →
  (∀ a addrs' s' L', fs_inv s' H L' R → (length L' ≤ length L + 2)%nat → fs_step s s' H (fview s') →
     bmap_post s s' i p addrs' (Z.to_nat bn) a 1 → Q a s') →
  wp E (bmap i bn) Q s.
Proof.
  intros Hinv Hm Hp Hdev Hw Hbn Hroom Hfree Hn HQ. destruct (bmapstart_pos s H L R Hinv) as [Hbm _].
  unfold bmap. apply wp_bind. eapply wp_getopt; [done|]. rewrite (proj2 (Z.ltb_lt bn NDIRECT)) by (unfold NDIRECT; lia).
  destruct (lookup_lt_is_Some_2 (i_addrs p) (Z.to_nat bn)) as [a Ha]; [rewrite (wf_len _ _ _ Hw); lia|].
  assert (baddr (fview s) (i_addrs p) (Z.to_nat bn) = a) as Hba.
  { unfold baddr. by rewrite bool_decide_eq_true_2, Ha by lia. }
  apply wp_bind. eapply wp_getopt; [done|]. destruct (Z.eqb_spec a 0) as [->|H0].
  - rewrite Hdev. apply wp_bind. eapply wp_balloc_free; [done..|]. intros b s1 Hb Hinv1 Hs1 Hm1 Hi1.
    destruct (grown_direct (fsb s) Hbm _ _ _ (Z.to_nat bn) _ Hw Hb ltac:(lia) Hba) as (Hg & Hbb & Hda).
    apply wp_bind. eapply wp_mod_inode; [by rewrite Hi1|]. apply wp_ret.
    apply (HQ _ (<[Z.to_nat bn:=b]> (i_addrs p)) _ (balloc_log s L b)).
    + eapply fs_inv_icache; [done|]. rewrite Hi1.
      apply icache_ok_addrs; [apply Hinv|done|]. rewrite length_insert. apply Hw.
    + unfold balloc_log. pose proof (logged_length L (sb_bmapstart (fsb s))).
      pose proof (logged_length (logged L (sb_bmapstart (fsb s))) b). lia.
    + by apply fs_step_icache.
    + constructor; [exact Hg|exact Hbb|pose proof (bl_new _ _ _ _ Hb); lia|exact Hda| |exact Hm1|done].
      cbn [icache set_icache]. by rewrite Hi1.
  - apply wp_ret. apply (HQ a (i_addrs p) s L); [done|lia|apply fs_step_refl|]. constructor; try done.
    + eapply grown_weaken; [by apply grown_refl|lia].
    + rewrite set_i_addrs_id. by rewrite list_insert_id.
Qed.

Lemma wp_bmap E i p bn H L R (Q : Z → fss D X → Prop) s :
  fs_inv s H L R → meta_used s → icache s !! i = Some p → i_dev p = ROOTDEV →
  wfile (fview s) (fsb s) (i_addrs p) → 0 ≤ bn < 140 → room s L 5 → (S (length H) + length L + 5 < NBUF)%nat →
  (2 ≤ nfree (fview s) (fsb s))%nat →
  (∀ a addrs' s' L', fs_inv s' H L' R → (length L' ≤ length L + 5)%nat → fs_step s s' H (fview s') →
     bmap_post s s' i p addrs' (Z.to_nat bn) a 2 → Q a s') →
  wp E (bmap i bn) Q s.
Proof.
  intros Hinv Hm Hp Hdev Hw Hbn Hroom Hfree Hn HQ. destruct (bmapstart_pos s H L R Hinv) as [Hbm _].
  destruct (Z_lt_le_dec bn 12) as [Hlt|Hge].
  { eapply wp_bmap_direct; [done..|lia|by apply (room_le s L 5); [|lia]|lia|lia|].
    intros a addrs' s' L' Hinv' HL' Hs' []. eapply HQ; [done|lia|done|]. constructor; try done. eapply (grown_weaken _ 1 2); [done|lia]. }
  unfold bmap. apply wp_bind. eapply wp_getopt; [done|]. rewrite (proj2 (Z.ltb_ge bn NDIRECT)) by (unfold NDIRECT; lia).
  rewrite (proj2 (Z.ltb_lt (bn - NDIRECT) NINDIRECT)) by (change NINDIRECT with 128; unfold NDIRECT; lia).
  change (Z.to_nat NDIRECT) with 12%nat.
  assert (i_addrs p !! 12%nat = Some (indirect (i_addrs p))) as Hind.
  { unfold indirect. destruct (lookup_lt_is_Some_2 (i_addrs p) 12) as [a Ha]; [rewrite (wf_len _ _ _ Hw); lia|]. by rewrite Ha. }
  apply wp_bind. eapply wp_getopt; [done|]. apply wp_bind. change 12%nat with (Z.to_nat NDIRECT).
  eapply (wp_bmap_ind E i p H L R); [done..|by apply (room_le s L 5); [|lia]|lia|lia|].
  intros s1 L1 addrs1 Hinv1 HL1 Hs1 Hg1 Hi1 Hda1 Hic1 Hm1 Hsame1. pose proof (fst_sb _ _ _ _ Hs1) as Hsb1.
  rewrite Hdev. replace (4 * Z.to_nat (bn - NDIRECT))%nat with (4 * (Z.to_nat bn - 12))%nat by (unfold NDIRECT; lia).
  eapply (wp_bmap_entry E i (set_i_addrs addrs1 p) (Z.to_nat bn) H L1 R).
  - done.
  - done.
  - rewrite Hic1. apply list_lookup_insert_eq. by eapply lookup_lt_Some.
  - rewrite Hsb1. apply Hg1.
  - done.
  - lia.
  - apply (room_step s s1 H (fview s1)); [done|]. unfold room in *. lia.
  - lia.
  - rewrite Hsb1. pose proof (gr_free _ _ _ _ _ _ Hg1). lia.
  - intros a s2 L2 Hinv2 HL2 Hs2 [Hg2 Ha2 Hnz2 Hda2 Hic2 Hm2 _]. rewrite Hsb1 in Hg2.
    apply (HQ a addrs1 s2 L2); [done|lia| |].
    + eapply fs_step_trans; [exact Hs1|exact Hs2].
    + constructor; try done.
      * exact (grown_trans _ 1 1 _ _ _ _ _ _ Hg1 Hg2 Hbm).
      * intros j Hj. rewrite Hda2 by done. by apply Hda1.
      * rewrite Hic2, Hic1, list_insert_insert_eq. done.
      * intros Hb0. apply Hsame1. intros Hi0. apply Hb0. unfold baddr. rewrite bool_decide_eq_false_2 by lia.
        fold (indirect (i_addrs p)). by rewrite Hi0.
Qed.
End bmap.
