(* ===== verification/FsWritei.v ===== *)
(** * fs.c: [writei]

    Writing through the block map is a splice into the data of the file. *)

From S2P Require Import Prelude Spinlock CString Ide Bio BioFacts Layout Log LogDisk LogFacts LogSpecs Fs FsFacts FsInodes FsFiles FsTable FsWrite.

(** ** Data as one list *)
Lemma length_fblock V addrs bn : (∀ x, length (V x) = 512%nat) → length (fblock V addrs bn) = 512%nat.
Proof. intros HV. unfold fblock. by destruct (_ =? 0). Qed.
Lemma fblocks_512 V addrs k : (∀ x, length (V x) = 512%nat) → Forall (λ x, length x = 512%nat) (fblock V addrs <$> seq 0 k).
Proof. intros HV. apply Forall_fmap, Forall_forall. intros bn _. by apply length_fblock. Qed.
Lemma length_fdata V addrs : (∀ x, length (V x) = 512%nat) → length (fdata V addrs) = (512 * 140)%nat.
Proof. intros HV. unfold fdata. rewrite length_join_blocks by (by apply fblocks_512). by rewrite length_fmap, length_seq. Qed.

Lemma splice_join (bs : list (list Z)) k x o p :
  Forall (λ x, length x = 512%nat) bs → bs !! k = Some x → (o + length p ≤ 512)%nat →
  splice (512 * k + o) p (concat bs) = concat (<[k:=splice o p x]> bs).
Proof.
  intros HF. revert k. induction HF as [|y bs Hy HF IH]; intros k Hk Ho; [done|]. destruct k as [|k]; cbn in Hk.
  - injection Hk as ->. cbn [concat insert list_insert]. unfold splice. rewrite Nat.mul_0_r, Nat.add_0_l.
    rewrite take_app_le, drop_app_le by lia. by rewrite <- !app_assoc.
  - change (<[S k:=?z]> (y :: bs)) with (y :: <[k:=z]> bs). cbn [concat]. rewrite <- (IH k Hk Ho). unfold splice.
    replace (512 * S k + o)%nat with (length y + (512 * k + o))%nat by lia.
    rewrite take_app_add, <- Nat.add_assoc, drop_app_add. by rewrite <- app_assoc.
Qed.

Lemma fdata_ext V addrs V' addrs' :
  (∀ j, (j < 140)%nat → fblock V addrs j = fblock V' addrs' j) → fdata V addrs = fdata V' addrs'.
Proof. intros He. unfold fdata. f_equal. apply list_fmap_ext. intros k j [-> Hj]%lookup_seq. apply He. lia. Qed.

(** Two pieces written one after the other. *)
Lemma splice_splice_next {A} (o : nat) (p q l : list A) :
  (o ≤ length l)%nat → splice (o + length p) q (splice o p l) = splice o (p ++ q) l.
Proof.
  intros Hl. unfold splice. rewrite (app_assoc (take o l) p (drop _ l)).
  assert (length (take o l ++ p) = (o + length p)%nat) as Hlen by (rewrite length_app, length_take; lia).
  rewrite take_app_le by lia. rewrite take_ge by lia. rewrite drop_app_ge by lia. rewrite Hlen, drop_drop.
  rewrite length_app, <- !app_assoc. do 3 f_equal. f_equal. lia.
Qed.

Lemma filter_agree (f g : Z → bool) (l : list Z) :
  (∀ x, x ∈ l → f x = g x) → filter (λ x, f x = false) l = filter (λ x, g x = false) l.
Proof.
  induction l as [|x l IH]; intros He; [done|]. rewrite !filter_cons, (He x) by set_solver.
  rewrite IH by set_solver. done.
Qed.

(** ** Overwriting an allocated block *)
Section over.
Context (sb : superblock) (V : disk) (addrs : list Z) (bn : nat) (x : list Z).
Context (Hw : wfile V sb addrs) (Hbn : (bn < 140)%nat) (Hnz : baddr V addrs bn ≠ 0).
Context (Hbm : 0 ≤ sb_bmapstart sb) (Hsz : sb_size sb ≤ 1000).
Let a := baddr V addrs bn.
Let V' := wr V a x.

Lemma over_range : sb_bmapstart sb < a < sb_size sb.
Proof. apply (wf_data _ _ _ Hw). by apply owned_bn. Qed.
Lemma over_baddr j : baddr V' addrs j = baddr V addrs j.
Proof.
  unfold baddr. fold (indirect addrs). destruct (bool_decide _); [done|].
  destruct (Z.eqb_spec (indirect addrs) 0) as [|H0]; [done|]. unfold V'. rewrite wr_ne; [done|].
  apply not_eq_sym. by eapply baddr_ne_ind.
Qed.
Lemma over_ftab : ftab V' addrs = ftab V addrs.
Proof. unfold ftab. f_equal. apply list_fmap_ext. intros k j _. apply over_baddr. Qed.
Lemma over_used b : 0 ≤ b < sb_size sb → used V' sb b = used V sb b.
Proof.
  intros Hb. unfold used, V'. pose proof over_range. rewrite wr_ne; [done|]. unfold BBLOCK, BPB.
  rewrite Z.div_small, Z.add_0_l, u32_small by lia. lia.
Qed.
Lemma over_fblock j : (j < 140)%nat → fblock V' addrs j = if decide (j = bn) then x else fblock V addrs j.
Proof.
  intros Hj. unfold fblock. rewrite over_baddr. case_decide as Hd.
  - subst j. rewrite (proj2 (Z.eqb_neq _ _) Hnz). unfold V'. apply wr_eq.
  - destruct (Z.eqb_spec (baddr V addrs j) 0) as [|H0]; [done|]. unfold V'. rewrite wr_ne; [done|].
    intros He. apply Hd. by eapply baddr_inj.
Qed.
Lemma over_grown : grown sb 0 V addrs V' addrs.
Proof.
  constructor; rewrite ?over_ftab.
  - destruct Hw as [Hl Hn Hd]. constructor; rewrite ?over_ftab; [done..|]. intros b Hb.
    destruct (Hd b Hb) as [Hr Hu]. split; [done|]. rewrite over_used by lia. done.
  - by left.
  - done.
  - intros b Hb. by rewrite over_used.
  - intros b _ Hb. unfold V'. apply wr_ne. intros ->. apply Hb. by apply owned_bn.
  - unfold nfree. rewrite Nat.add_0_r. apply Nat.eq_le_incl. f_equal.
    apply filter_agree. intros b Hb%elem_of_seqZ. symmetry. apply over_used. lia.
Qed.
Lemma over_fdata o p :
  (∀ y, length (V y) = 512%nat) → (o + length p ≤ 512)%nat → x = splice o p (V a) →
  fdata V' addrs = splice (512 * bn + o) p (fdata V addrs).
Proof.
  intros HV Ho Hx. unfold fdata at 2. erewrite splice_join; [|by apply fblocks_512| |done].
  2: by rewrite list_lookup_fmap, lookup_seq_lt.
  unfold fdata. f_equal. apply list_eq. intros j. destruct (decide (j < 140)%nat) as [Hj|Hj].
  - rewrite list_lookup_fmap, lookup_seq_lt by done. cbn [fmap option_fmap option_map]. rewrite over_fblock by done.
    cbn [Nat.add]. case_decide as Hd.
    + subst j. rewrite list_lookup_insert_eq by (by rewrite length_fmap, length_seq).
      unfold fblock. by rewrite (proj2 (Z.eqb_neq _ _) Hnz), Hx.
    + rewrite list_lookup_insert_ne by done. by rewrite list_lookup_fmap, lookup_seq_lt.
  - rewrite !lookup_ge_None_2; [done|rewrite length_insert, length_fmap, length_seq; lia|rewrite length_fmap, length_seq; lia].
Qed.
End over.

(** ** Disks that agree on the bitmap and the data blocks *)
Definition agree (sb : superblock) (V V' : disk) : Prop := ∀ b, sb_bmapstart sb ≤ b → V' b = V b.
Section agree.
Context (sb : superblock) (V V' : disk) (addrs : list Z).
Context (Hw : wfile V sb addrs) (Hag : agree sb V V') (Hbm : 0 ≤ sb_bmapstart sb) (Hsz : sb_size sb ≤ 1000).
Context (Hlt : sb_bmapstart sb < sb_size sb).

Lemma agree_baddr j : baddr V' addrs j = baddr V addrs j.
Proof.
  unfold baddr. fold (indirect addrs). destruct (bool_decide _); [done|].
  destruct (Z.eqb_spec (indirect addrs) 0) as [|H0]; [done|]. rewrite Hag; [done|].
  destruct (wf_data _ _ _ Hw (indirect addrs)); [by apply owned_ind|lia].
Qed.
Lemma agree_ftab : ftab V' addrs = ftab V addrs.
Proof. unfold ftab. f_equal. apply list_fmap_ext. intros k j _. apply agree_baddr. Qed.
Lemma agree_used b : 0 ≤ b < sb_size sb → used V' sb b = used V sb b.
Proof.
  intros Hb. unfold used. rewrite Hag; [done|]. unfold BBLOCK, BPB.
  rewrite Z.div_small, Z.add_0_l, u32_small by lia. lia.
Qed.
Lemma agree_wfile : wfile V' sb addrs.
Proof.
  destruct Hw as [Hl Hn Hd]. constructor; rewrite ?agree_ftab; [done..|]. intros b Hb.
  destruct (Hd b Hb) as [Hr Hu]. split; [done|]. rewrite agree_used by lia. done.
Qed.
Lemma agree_fdata : fdata V' addrs = fdata V addrs.
Proof.
  apply fdata_ext. intros j Hj. unfold fblock. rewrite agree_baddr.
  destruct (Z.eqb_spec (baddr V addrs j) 0) as [|H0]; [done|]. rewrite Hag; [done|].
  destruct (wf_data _ _ _ Hw (baddr V addrs j)); [by apply owned_bn|lia].
Qed.
Lemma agree_mapped k : mapped V addrs k → mapped V' addrs k.
Proof. intros (Hk & Hl & Hi & Hm). do 3 (split; [done|]). intros bn Hbn. rewrite agree_baddr. by apply Hm. Qed.
Lemma agree_nfree : nfree V' sb = nfree V sb.
Proof. unfold nfree. f_equal. apply filter_agree. intros b Hb%elem_of_seqZ. apply agree_used. lia. Qed.
End agree.

(** The contents of a file whose blocks are allocated. *)
Lemma contents_fdata V d :
  (∀ x, length (V x) = 512%nat) → 0 ≤ di_size d ≤ 71680 → mapped V (di_addrs d) (nblocks_of (di_size d)) →
  contents V d = take (Z.to_nat (di_size d)) (fdata V (di_addrs d)).
Proof.
  intros HV Hs (Hk & _ & _ & Hm). set (nb := nblocks_of (di_size d)) in *. unfold contents, fdata. fold nb.
  assert (file_blocks V (di_addrs d) nb = fblock V (di_addrs d) <$> seq 0 nb) as ->.
  { unfold file_blocks. apply list_fmap_ext. intros k j [-> Hj]%lookup_seq. destruct (Hm k Hj) as [H0 _]. cbn [Nat.add].
    unfold fblock. by rewrite (proj2 (Z.eqb_neq _ _) H0). }
  replace (seq 0 140) with (seq 0 nb ++ seq nb (140 - nb)) by (rewrite <- seq_app; f_equal; lia).
  rewrite fmap_app, concat_app, take_app_le; [done|].
  rewrite length_join_blocks by (by apply fblocks_512). rewrite length_fmap, length_seq.
  pose proof (nblocks_cover (di_size d) ltac:(lia)). lia.
Qed.

(** Growing by a write at an offset inside the file. *)
Lemma take_splice_grow (F src : list Z) (size off n : nat) :
  (off ≤ size)%nat → (size ≤ length F)%nat → length src = n → (off + n ≤ length F)%nat →
  take (Nat.max size (off + n)) (splice off src F) = splice off src (take size F).
Proof.
  intros Ho Hs <- Hn. unfold splice. rewrite take_take, Nat.min_l by lia.
  rewrite take_app_ge by (rewrite length_take; lia). f_equal. rewrite length_take, Nat.min_l by lia.
  rewrite take_app_ge by lia. f_equal. rewrite skipn_firstn_comm. f_equal. lia.
Qed.

(** The blocks that [n] bytes at [off] meet. *)
Definition span (off n : Z) : nat := Z.to_nat ((n + off mod 512 + 511) / 512).
Lemma span_spec off n : 0 ≤ off → 0 ≤ n →
  n + off mod 512 ≤ 512 * Z.of_nat (span off n) ∧ Z.of_nat (span off n) ≤ n / 512 + 2.
Proof.
  intros Ho Hn. unfold span. pose proof (Z.mod_pos_bound off 512 ltac:(lia)) as Hm.
  pose proof (Z_div_mod_eq_full (n + off mod 512 + 511) 512). pose proof (Z.mod_pos_bound (n + off mod 512 + 511) 512 ltac:(lia)).
  pose proof (Z_div_mod_eq_full n 512). pose proof (Z.mod_pos_bound n 512 ltac:(lia)).
  assert (0 ≤ (n + off mod 512 + 511) / 512) by (apply Z.div_pos; lia). lia.
Qed.

Section writei.
Context {D X : Type} {dev : IdeDevice D} {dok : IdeDeviceOk D}.
Context (devtab : list (@devsw D X)).
Implicit Types s : fss D X.

(** Block [bn] meets the [n] bytes at [off]. *)
Definition touched (off n bn : nat) : Prop := (0 < n ∧ off < 512 * S bn ∧ 512 * bn < off + n)%nat.

(** The file after [data] was written at [off] through at most [k] blocks. *)
Record written s s' (i : nat) (p : inode) (addrs' : list Z) (off : nat) (data : list Z) (k : nat) : Prop := {
  wr_grown : grown (fsb s) (2 * k) (fview s) (i_addrs p) (fview s') addrs';
  wr_data : fdata (fview s') addrs' = splice off data (fdata (fview s) (i_addrs p));
  wr_icache : icache s' = <[i:=set_i_addrs addrs' p]> (icache s);
  wr_meta : meta_used s';
  wr_mapped bn : touched off (length data) bn → baddr (fview s') addrs' bn ≠ 0;
  wr_same : (∀ bn, touched off (length data) bn → baddr (fview s) (i_addrs p) bn ≠ 0) → addrs' = i_addrs p;
}.

(** One block: [bmap], and the piece of the data that falls into it. *)
Lemma wp_write_block {A} E i p off piece (short : bool) H L R (c : M (fss D X) A) (Q : A → fss D X → Prop) s :
  short = false →
  fs_inv s H L R → meta_used s → icache s !! i = Some p → i_dev p = ROOTDEV →
  wfile (fview s) (fsb s) (i_addrs p) → 0 ≤ off → off + Z.of_nat (length piece) ≤ 71680 → (0 < length piece)%nat →
  off mod 512 + Z.of_nat (length piece) ≤ 512 →
  room s L 6 → (S (length H) + length L + 6 < NBUF)%nat → (2 ≤ nfree (fview s) (fsb s))%nat →
  (∀ addrs' s' L', fs_inv s' H L' R → (length L' ≤ length L + 6)%nat → fs_step s s' H (fview s') →
     written s s' i p addrs' (Z.to_nat off) piece 1 → wp E c Q s') →
  wp E (a ← bmap i (off / 512);
        bp ← dio (bread (i_dev p) a);
        (if short then undef else mret tt);;
        dio (mod_data bp (splice (Z.to_nat (off mod 512)) piece));;
        lo (log_write bp);;
        dio (brelse bp);;
        c) Q s.
Proof.
  intros -> Hinv Hm Hp Hdev Hw H0 Hhi Hpos Hin Hroom Hfree Hn HQ. destruct (bmapstart_pos s H L R Hinv) as [Hbm Hsz].
  pose proof (Z.mod_pos_bound off 512 ltac:(lia)) as Hmb. pose proof (Z_div_mod_eq_full off 512) as Hdm.
  assert (0 ≤ off / 512) as Hd0 by (apply Z.div_pos; lia).
  assert (off / 512 < 140) as Hd1 by (apply Z.div_lt_upper_bound; lia).
  set (bn := Z.to_nat (off / 512)) in *.
  apply wp_bind. eapply wp_bmap; [done..|by apply (room_le s L 6); [|lia]|lia|done|].
  intros a addrs1 s1 L1 Hinv1 HL1 Hs1 [Hg1 Ha1 Hnz1 Hda1 Hic1 Hm1 Hsame1]. fold bn in Ha1, Hsame1.
  pose proof (fst_sb _ _ _ _ Hs1) as Hsb1. pose proof (gr_wf _ _ _ _ _ _ Hg1) as Hw1.
  assert (a ∈ nz (ftab (fview s1) addrs1)) as Hao by (rewrite <- Ha1; apply owned_bn; [lia|congruence]).
  destruct (owned_range s1 H L1 R addrs1 a Hinv1) as [Har Hah]; [by rewrite Hsb1|done|].
  rewrite Hdev. apply wp_bind. eapply wp_dio_bread; [done|done|lia|]. intros bp s2 Hinv2 Hh2 Hs2 Hi2.
  assert (∀ x, fview s2 x = fview s1 x) as HV2 by apply Hs2.
  apply wp_bind, wp_ret. apply wp_bind. eapply wp_dio_mod_data; [done..|]. rewrite HV2.
  set (x := splice (Z.to_nat (off mod 512)) piece (fview s1 a)).
  assert (length (fview s1 a) = 512%nat) as Hla by (by eapply fview_512).
  eapply wp_log_release; [done|done| | | |unfold NBUF in *; lia|].
  { unfold x. rewrite length_splice; lia. }
  { by rewrite (fst_start _ _ _ _ Hs2), (fst_lsize _ _ _ _ Hs2). }
  { apply (room_step s1 s2 H (fview s1)); [done|]. apply (room_step s s1 H (fview s1)); [done|]. unfold room in *. lia. }
  intros s3 Hinv3 Hs3 Hi3. set (V3 := wr (fview s1) a x).
  assert (∀ y, fview s3 y = V3 y) as HV3.
  { intros y. rewrite (fst_view _ _ _ _ Hs3). by apply wr_ext. }
  assert (baddr (fview s1) addrs1 bn ≠ 0) as Hnz1' by congruence.
  pose proof (over_grown (fsb s) (fview s1) addrs1 bn x Hw1 ltac:(lia) Hnz1' Hbm Hsz) as Hg3.
  rewrite Ha1 in Hg3. fold V3 in Hg3.
  apply (HQ addrs1 s3 (logged L1 a)); [done|pose proof (logged_length L1 a); lia| |].
  { eapply fs_step_trans; [exact Hs1|]. eapply fs_step_trans; [exact Hs2|]. eapply fs_step_ext; [exact Hs3|].
    intros y. symmetry. apply Hs3. }
  constructor.
  - apply (grown_ext _ _ (fview s) _ V3); [done|by intros y|]. exact (grown_trans _ 2 0 _ _ _ _ _ _ Hg1 Hg3 Hbm).
  - rewrite (fdata_ext (fview s3) addrs1 V3 addrs1) by (intros j _; by apply fblock_ext).
    rewrite (fdata_ext (fview s) (i_addrs p) (fview s1) addrs1) by (intros j Hj; symmetry; by apply Hda1).
    unfold V3. rewrite <- Ha1 at 1.
    rewrite (over_fdata (fsb s) (fview s1) addrs1 bn x Hw1 ltac:(lia) Hnz1' (Z.to_nat (off mod 512)) piece);
      [|intros; by eapply fview_512|lia|by rewrite Ha1]. f_equal. lia.
  - rewrite Hi3, Hi2. exact Hic1.
  - intros b Hb. assert (fsb s3 = fsb s) as Hsb3.
    { by rewrite (fst_sb _ _ _ _ Hs3), (fst_sb _ _ _ _ Hs2). }
    rewrite Hsb3 in *. rewrite (used_ext _ V3) by done. pose proof (gm_bmap _ _ (fi_geom _ _ _ _ Hinv)).
    eapply gr_used; [exact Hg3|lia|]. rewrite <- Hsb1. apply Hm1. by rewrite Hsb1.
  - intros bn' (_ & Hlo & Hhi'). assert (bn' = bn) as -> by lia.
    rewrite (baddr_ext _ V3) by done. unfold V3. rewrite <- Ha1.
    rewrite (over_baddr (fsb s)) by (done || lia). done.
  - intros Hall. apply Hsame1, Hall. split_and!; lia.
Qed.

Lemma written_trans s s1 s2 i p addrs1 addrs2 off d1 d2 k1 k2 H L R :
  fs_inv s H L R → fsb s1 = fsb s → (off + length d1 + length d2 ≤ 512 * 140)%nat →
  written s s1 i p addrs1 off d1 k1 → written s1 s2 i (set_i_addrs addrs1 p) addrs2 (off + length d1) d2 k2 →
  written s s2 i p addrs2 off (d1 ++ d2) (k1 + k2).
Proof.
  intros Hinv Hsb Hle [Hg1 Hd1 Hi1 Hm1 Hmp1 Hsm1] [Hg2 Hd2 Hi2 Hm2 Hmp2 Hsm2]. cbn [i_addrs set_i_addrs] in *.
  destruct (bmapstart_pos s H L R Hinv) as [Hbm Hsz]. rewrite Hsb in Hg2.
  assert (∀ W a W' a' n bn, grown (fsb s) n W a W' a' → (bn < 140)%nat → baddr W a bn ≠ 0 → baddr W' a' bn ≠ 0) as Hkeep.
  { intros W a W' a' n bn Hg Hbn H0. pose proof (gr_keep _ _ _ _ _ _ Hg (S bn) _ (ftab_bn _ _ _ Hbn) H0) as Hk.
    rewrite ftab_bn in Hk by done. injection Hk as ->. done. }
  assert (∀ bn, touched off (length (d1 ++ d2)) bn ↔ touched off (length d1) bn ∨ touched (off + length d1) (length d2) bn) as Hsplit.
  { intros bn. rewrite length_app. unfold touched. lia. }
  assert (∀ bn, touched off (length (d1 ++ d2)) bn → (bn < 140)%nat) as Hlim.
  { intros bn. rewrite length_app. unfold touched. lia. }
  constructor.
  - replace (2 * (k1 + k2))%nat with (2 * k1 + 2 * k2)%nat by lia. eapply grown_trans; [exact Hg1|exact Hg2|done].
  - rewrite Hd2, Hd1. apply splice_splice_next. rewrite length_fdata; [lia|]. intros x. by eapply fview_512.
  - by rewrite Hi2, Hi1, list_insert_insert_eq.
  - done.
  - intros bn Ht. destruct (proj1 (Hsplit bn) Ht) as [Hl|Hl]; [|by apply Hmp2].
    eapply Hkeep; [exact Hg2|by apply Hlim|]. by apply Hmp1.
  - intros Hall. assert (addrs1 = i_addrs p) as ->.
    { apply Hsm1. intros bn Ht. apply Hall, Hsplit. by left. }
    apply Hsm2. intros bn Ht. assert (touched off (length (d1 ++ d2)) bn) as Ht' by (apply Hsplit; by right).
    eapply Hkeep; [exact Hg1|by apply Hlim|]. by apply Hall.
Qed.

Lemma written_nil s i p off : meta_used s → icache s !! i = Some p →
  wfile (fview s) (fsb s) (i_addrs p) → written s s i p (i_addrs p) off [] 0.
Proof.
  intros Hm Hp Hw. constructor; try done.
  - by apply grown_refl.
  - unfold splice. cbn [length app]. by rewrite Nat.add_0_r, take_drop.
  - rewrite set_i_addrs_id. symmetry. by apply list_insert_id.
  - intros bn [? _]. cbn in *. lia.
Qed.

Lemma wp_writei_loop E fuel i p src off n tot k H L R (Q : Z → fss D X → Prop) s :
  fs_inv s H L R → meta_used s → icache s !! i = Some p → i_dev p = ROOTDEV →
  wfile (fview s) (fsb s) (i_addrs p) → 0 ≤ off → 0 ≤ tot ≤ n → n ≤ Z.of_nat (length src) → off + (n - tot) ≤ 71680 →
  n - tot + off mod 512 ≤ 512 * Z.of_nat k ∨ tot = n → (k < fuel)%nat →
  room s L (6 * k) → (S (length H) + length L + 6 * k < NBUF)%nat → (2 * k ≤ nfree (fview s) (fsb s))%nat →
  (∀ addrs' s' L', fs_inv s' H L' R → (length L' ≤ length L + 6 * k)%nat → fs_step s s' H (fview s') →
     written s s' i p addrs' (Z.to_nat off) (slice (Z.to_nat tot) (Z.to_nat (n - tot)) src) k → Q (off + (n - tot)) s') →
  wp E (writei_loop fuel i src off n tot) Q s.
Proof.
  revert off tot k L s p. induction fuel as [|fuel IH];
    intros off tot k L s p Hinv Hm Hp Hdev Hw H0 Ht Hn Hhi Hk Hf Hroom Hfree Hnf HQ; [lia|]. cbn [writei_loop].
  pose proof (Z.mod_pos_bound off 512 ltac:(lia)) as Hmb.
  destruct (Z.ltb_spec tot n) as [Hlt|Hge].
  2: { apply wp_ret. replace off with (off + (n - tot)) at 1 by lia. apply (HQ (i_addrs p) s L); [done|lia|apply fs_step_refl|].
       replace (n - tot) with 0 by lia. unfold slice. rewrite take_0.
       destruct (written_nil s i p (Z.to_nat off) Hm Hp Hw). constructor; try done. eapply grown_weaken; [done|lia]. }
  destruct Hk as [Hk|?]; [|lia]. destruct k as [|k]; [lia|]. change BSIZE with 512.
  apply wp_bind. eapply wp_getopt; [done|]. cbn zeta. set (m := Z.min (n - tot) (512 - off mod 512)).
  assert (0 < m ≤ 512) as Hmr by lia. set (piece := slice (Z.to_nat tot) (Z.to_nat m) src).
  assert (length piece = Z.to_nat m) as Hlp by (unfold piece; rewrite length_slice; lia).
  eapply (wp_write_block E i p off piece _ H L R); [|done|done|done|done|done|done|lia|lia|lia| |lia|lia|].
  { rewrite Z.gtb_ltb. apply Z.ltb_ge. lia. }
  { apply (room_le s L (6 * S k)); [done|lia]. }
  intros addrs1 s1 L1 Hinv1 HL1 Hs1 Hwr1. pose proof (fst_sb _ _ _ _ Hs1) as Hsb1. pose proof Hwr1 as [Hg1 _ Hi1 Hm1 _ _].
  rewrite u32_small by lia.
  apply (IH (off + m) (tot + m) k L1 s1 (set_i_addrs addrs1 p)); try done; try lia.
  - rewrite Hi1. apply list_lookup_insert_eq. by eapply lookup_lt_Some.
  - rewrite Hsb1. apply Hg1.
  - destruct (Z_lt_le_dec (n - tot) (512 - off mod 512)) as [Hs|Hs]; [right; lia|left].
    assert (m = 512 - off mod 512) as -> by lia.
    assert ((off + (512 - off mod 512)) mod 512 = 0) as ->; [|lia].
    rewrite (Z_div_mod_eq_full off 512) at 1.
    replace (512 * (off / 512) + off mod 512 + (512 - off mod 512)) with ((off / 512 + 1) * 512) by lia.
    apply Z.mod_mul. lia.
  - apply (room_step s s1 H (fview s1)); [done|]. unfold room in *. lia.
  - rewrite Hsb1. pose proof (gr_free _ _ _ _ _ _ Hg1). lia.
  - intros addrs2 s2 L2 Hinv2 HL2 Hs2 Hwr2. replace (off + m + (n - (tot + m))) with (off + (n - tot)) by lia.
    apply (HQ addrs2 s2 L2); [done|lia|by eapply fs_step_trans|].
    assert (slice (Z.to_nat tot) (Z.to_nat (n - tot)) src =
      piece ++ slice (Z.to_nat (tot + m)) (Z.to_nat (n - (tot + m))) src) as ->.
    { unfold piece. replace (Z.to_nat (tot + m)) with (Z.to_nat tot + Z.to_nat m)%nat by lia.
      rewrite slice_app_split. f_equal. lia. }
    change (S k) with (1 + k)%nat. eapply written_trans; [done|done| |exact Hwr1|].
    + rewrite Hlp, length_slice; lia.
    + rewrite Hlp. replace (Z.to_nat off + Z.to_nat m)%nat with (Z.to_nat (off + m)) by lia. done.
Qed.

(** The inode after the write. *)
Definition after_write (p : inode) (addrs' : list Z) (off n : Z) : inode :=
  set_i_size (Z.max (i_size p) (off + n)) (set_i_addrs addrs' p).

(** All blocks of the file are allocated again after a write inside it or at
    its end. *)
Lemma written_mapped s s' i p addrs' off data k H L R :
  fs_inv s H L R → written s s' i p addrs' (Z.to_nat off) data k →
  file_ok (fview s) p → 0 ≤ off ≤ i_size p → off + Z.of_nat (length data) ≤ 71680 →
  mapped (fview s') addrs' (nblocks_of (Z.max (i_size p) (off + Z.of_nat (length data)))).
Proof.
  intros Hinv [Hg _ _ _ Hmp _] (_ & Hsz & (_ & _ & _ & Hm)) Ho Hhi.
  destruct (bmapstart_pos s H L R Hinv) as [Hbm Hs1000]. pose proof (gr_wf _ _ _ _ _ _ Hg) as Hw.
  set (size' := Z.max (i_size p) (off + Z.of_nat (length data))).
  assert (nblocks_of size' ≤ 140)%nat as Hnb.
  { unfold nblocks_of. assert ((size' + 511) / 512 < 141); [|lia]. apply Z.div_lt_upper_bound; lia. }
  assert (∀ a, a ∈ nz (ftab (fview s') addrs') → 0 ≤ a < FSSIZE) as Hr.
  { intros a Ha. destruct (wf_data _ _ _ Hw a Ha) as [? _]. unfold FSSIZE. lia. }
  split; [done|]. split; [apply Hw|]. split.
  { fold (indirect addrs'). destruct (decide (indirect addrs' = 0)) as [->|H0]; [unfold FSSIZE; lia|]. by apply Hr, owned_ind. }
  intros bn Hbn. assert (baddr (fview s') addrs' bn ≠ 0) as H0.
  { destruct (decide (bn < nblocks_of (i_size p))%nat) as [Hin|Hout].
    - pose proof (gr_keep _ _ _ _ _ _ Hg (S bn) _ (ftab_bn _ _ bn ltac:(lia)) (proj1 (Hm bn Hin))) as Hk.
      rewrite ftab_bn in Hk by lia. injection Hk as ->. by apply Hm.
    - apply Hmp. unfold nblocks_of in *. pose proof (Z_div_mod_eq_full (size' + 511) 512).
      pose proof (Z.mod_pos_bound (size' + 511) 512 ltac:(lia)).
      pose proof (Z_div_mod_eq_full (i_size p + 511) 512).
      pose proof (Z.mod_pos_bound (i_size p + 511) 512 ltac:(lia)).
      assert (0 ≤ (i_size p + 511) / 512) by (apply Z.div_pos; lia).
      unfold touched, size' in *. lia. }
  split; [done|]. apply Hr, owned_bn; [lia|done].
Qed.

(** What [writei] achieves: the bytes [data] at [off] of the file in slot [i],
    whose inode was [p] and is [p'], with at most [n] blocks allocated. *)
Record file_written s s' (i : nat) (p p' : inode) (off : Z) (data : list Z) (n : nat) : Prop := {
  fw_icache : icache s' = <[i:=p']> (icache s);
  fw_inode : p' = after_write p (i_addrs p') off (Z.of_nat (length data));
  fw_contents : contents (fview s') (i_disk p') = splice (Z.to_nat off) data (contents (fview s) (i_disk p));
  fw_ok : file_ok (fview s') p';
  fw_wfile : wfile (fview s') (fsb s') (i_addrs p');
  fw_sb : fsb s' = fsb s;
  fw_meta : meta_used s';
  fw_disk : disk_inode s (i_inum p) = i_disk p → disk_inode s' (i_inum p) = i_disk p';
  fw_inodes m : 0 ≤ m < sb_ninodes (fsb s) → m ≠ i_inum p → disk_inode s' m = disk_inode s m;
  fw_frame a : sb_bmapstart (fsb s) < a < sb_size (fsb s) → used (fview s) (fsb s) a = true →
    a ∉ nz (ftab (fview s) (i_addrs p)) → fview s' a = fview s a;
  fw_used a : 0 ≤ a < sb_size (fsb s) → used (fview s) (fsb s) a = true → used (fview s') (fsb s) a = true;
  fw_free : (nfree (fview s) (fsb s) ≤ nfree (fview s') (fsb s) + n)%nat;
  fw_fresh a : a ∈ nz (ftab (fview s') (i_addrs p')) → a ∈ nz (ftab (fview s) (i_addrs p)) ∨ used (fview s) (fsb s) a = false;
}.

Lemma dinode_ok_after V sb p addrs' off n :
  dinode_ok (i_disk p) → wfile V sb addrs' → 0 ≤ sb_bmapstart sb → sb_size sb ≤ 1000 →
  0 ≤ off → 0 ≤ n → off + n ≤ 71680 → i_size p ≤ 71680 →
  dinode_ok (i_disk (after_write p addrs' off n)).
Proof.
  intros (Hf & Hs & _ & _) Hw Hbm Hsz Ho Hn Hhi Hp. split; [exact Hf|]. cbn [di_size di_addrs i_disk after_write] in *.
  split; [cbn; lia|]. split; [apply Hw|]. apply Forall_lookup. intros k a Hk.
  destruct (decide (a = 0)) as [->|H0]; [lia|]. assert (a ∈ nz (ftab V addrs')) as Ha; [|destruct (wf_data _ _ _ Hw a Ha); lia].
  cbn in Hk. pose proof (lookup_lt_Some _ _ _ Hk) as Hlt. rewrite (wf_len _ _ _ Hw) in Hlt.
  destruct (decide (k = 12%nat)) as [->|Hne].
  - assert (a = indirect addrs') as -> by (unfold indirect; by rewrite Hk). by apply owned_ind.
  - assert (a = baddr V addrs' k) as -> by (unfold baddr; rewrite bool_decide_eq_true_2 by lia; by rewrite Hk).
    apply owned_bn; [lia|done].
Qed.

(** The block of the inode is written last, if at all. *)
Lemma written_done s s1 s' i p addrs' off data k H L L' R :
  fs_inv s H L R → fs_inv s' H L' R → written s s1 i p addrs' (Z.to_nat off) data k → file_ok (fview s) p →
  0 ≤ off ≤ i_size p → off + Z.of_nat (length data) ≤ 71680 →
  fsb s1 = fsb s → fsb s' = fsb s → agree (fsb s) (fview s1) (fview s') →
  let p' := after_write p addrs' off (Z.of_nat (length data)) in
  icache s' = <[i:=p']> (icache s) →
  (disk_inode s (i_inum p) = i_disk p → disk_inode s' (i_inum p) = i_disk p') →
  (∀ m, 0 ≤ m < sb_ninodes (fsb s) → m ≠ i_inum p → disk_inode s' m = disk_inode s m) →
  file_written s s' i p p' off data (2 * k).
Proof.
  intros Hinv Hinv' Hw Hok Ho Hhi Hsb1 Hsb' HV p' Hic Hd Hm.
  pose proof (written_mapped _ _ _ _ _ _ _ _ _ _ _ Hinv Hw Hok Ho Hhi) as Hmp.
  pose proof Hok as (Hdev & Hsz & Hmp0). destruct Hw as [Hg Hdata _ Hmeta _ _].
  destruct (bmapstart_pos s H L R Hinv) as [Hbm H1000]. pose proof (gm_bmap _ _ (fi_geom _ _ _ _ Hinv)) as Hlt.
  pose proof (gr_wf _ _ _ _ _ _ Hg) as Hwf.
  assert (∀ b, 0 ≤ b < sb_size (fsb s) → used (fview s') (fsb s) b = used (fview s1) (fsb s) b) as Hused.
  { intros b Hb. by apply agree_used. }
  assert (mapped (fview s') addrs' (nblocks_of (i_size p'))) as Hmp' by (by eapply agree_mapped).
  constructor; try done.
  - rewrite !contents_fdata; try done; try (cbn; lia); try (intros; by eapply fview_512). cbn [i_disk di_addrs di_size].
    change (i_addrs p') with addrs'. rewrite (agree_fdata (fsb s) (fview s1)) by done. rewrite Hdata.
    assert (length (fdata (fview s) (i_addrs p)) = (512 * 140)%nat) as Hl by (apply length_fdata; intros; by eapply fview_512).
    rewrite <- (take_splice_grow _ data (Z.to_nat (i_size p)) (Z.to_nat off) (length data)) by lia. f_equal. cbn. lia.
  - split; [done|]. split; [cbn; lia|done].
  - rewrite Hsb'. by eapply agree_wfile.
  - intros b Hb. rewrite Hsb' in *. rewrite Hused by lia. rewrite <- Hsb1. apply Hmeta. by rewrite Hsb1.
  - intros a Ha Hu Hnot. rewrite HV by lia. apply (gr_frame _ _ _ _ _ _ Hg); [lia|].
    intros Hin. destruct (gr_owned _ _ _ _ _ _ Hg a Hin); congruence.
  - intros a Ha Hu. rewrite Hused by done. by eapply gr_used.
  - rewrite (agree_nfree (fsb s) (fview s1) (fview s')) by done. apply Hg.
  - intros a. change (i_addrs p') with addrs'. rewrite (agree_ftab (fsb s) (fview s1) (fview s')) by done. apply Hg.
Qed.

Lemma after_write_inside p addrs' off n : off + n ≤ i_size p → after_write p addrs' off n = set_i_addrs addrs' p.
Proof. intros Hle. unfold after_write. rewrite Z.max_l by done. by destruct p. Qed.

(** No inode block is touched before [iupdate]. *)
Lemma written_inodes s s1 i p addrs' off data k m H L R :
  fs_inv s H L R → written s s1 i p addrs' off data k → fsb s1 = fsb s → 0 ≤ m < sb_ninodes (fsb s) →
  disk_inode s1 m = disk_inode s m.
Proof.
  intros Hinv [Hg _ _ _ _ _] Hsb Hm. unfold disk_inode. rewrite Hsb. f_equal.
  destruct (inode_block s H L R m Hinv Hm) as (_ & _ & Hib & _).
  apply (gr_frame _ _ _ _ _ _ Hg); [lia|]. intros Hin. destruct (wf_data _ _ _ (gr_wf _ _ _ _ _ _ Hg) _ Hin). lia.
Qed.

(** The end of a write that makes the file longer. *)
Lemma wp_grow_inode E i p addrs' off data k H L L1 R (Q : unit → fss D X → Prop) s s1 :
  fs_inv s H L R → fs_inv s1 H L1 R → fsb s1 = fsb s → icache s !! i = Some p →
  written s s1 i p addrs' (Z.to_nat off) data k → file_ok (fview s) p → dinode_ok (i_disk p) →
  0 ≤ i_inum p < sb_ninodes (fsb s) → 0 ≤ off ≤ i_size p → i_size p < off + Z.of_nat (length data) ≤ 71680 →
  room s1 L1 1 → (length H + length L1 < NBUF)%nat →
  (∀ s' L', fs_inv s' H L' R → (length L' ≤ S (length L1))%nat → fs_step s1 s' H (fview s') →
     file_written s s' i p (after_write p addrs' off (Z.of_nat (length data))) off data (2 * k) → Q tt s') →
  wp E (mod_inode i (set_i_size (off + Z.of_nat (length data)));; iupdate i) Q s1.
Proof.
  intros Hinv Hinv1 Hsb1 Hp Hwr Hok Hdi Hi Ho Hgr Hroom Hfree HQ. pose proof Hok as (Hdev & Hsz & _).
  pose proof (wr_icache _ _ _ _ _ _ _ _ Hwr) as Hic1. assert (i < length (icache s))%nat as Hil by (by eapply lookup_lt_Some).
  pose proof (gr_wf _ _ _ _ _ _ (wr_grown _ _ _ _ _ _ _ _ Hwr)) as Hwf. destruct (bmapstart_pos s H L R Hinv) as [Hbm H1000].
  destruct (inode_block s H L R (i_inum p) Hinv Hi) as (_ & _ & Hib & Hoff).
  set (p' := after_write p addrs' off (Z.of_nat (length data))) in *.
  assert (icache s1 !! i = Some (set_i_addrs addrs' p)) as Hp1 by (rewrite Hic1; by apply list_lookup_insert_eq).
  apply wp_bind. eapply wp_mod_inode; [done|].
  replace (set_i_size _ (set_i_addrs addrs' p)) with p' by (unfold p', after_write; f_equal; lia).
  set (s2 := set_icache _ s1). assert (icache s2 = <[i:=p']> (icache s)) as Hic2 by (cbn; by rewrite Hic1, list_insert_insert_eq).
  assert (fs_inv s2 H L1 R) as Hinv2.
  { apply (fs_inv_icache s1 _ H L1 R); [done|]. eapply icache_ok_update; [apply Hinv1|done|done|done|done|apply Hwf]. }
  eapply (wp_iupdate E i p' H L1 R); [done|rewrite Hic2; by apply list_lookup_insert_eq|done|change (fsb s2) with (fsb s1); by rewrite Hsb1|done|done|].
  intros s3 Hinv3 Hs3 Hi3. change (fsb s2) with (fsb s1) in *.
  assert (∀ m, disk_inode s3 m = dec_dinode (dip_off m) (iupdate_view s2 p' (IBLOCK m (fsb s2)))) as Hdm.
  { intros m. unfold disk_inode. by rewrite (fst_sb _ _ _ _ Hs3), (fst_view _ _ _ _ Hs3). }
  eapply HQ; [exact Hinv3|apply logged_length| |].
  { eapply fs_step_icache_l. eapply fs_step_ext; [exact Hs3|]. intros x. symmetry. apply Hs3. }
  eapply (written_done s s1 s3); try done; try lia.
  - by rewrite (fst_sb _ _ _ _ Hs3).
  - intros x Hx. rewrite (fst_view _ _ _ _ Hs3). unfold iupdate_view. change (fsb s2) with (fsb s1). rewrite Hsb1.
    change (i_inum p') with (i_inum p). by rewrite wr_ne by lia.
  - by rewrite Hi3, Hic2.
  - intros _. rewrite Hdm. unfold iupdate_view. change (i_inum p') with (i_inum p). rewrite wr_eq.
    apply dinode_roundtrip; [eapply dinode_ok_after; [done|exact Hwf|lia..]|]. erewrite fview_512 by done. lia.
  - intros m Hmr Hne. rewrite Hdm. change (fsb s2) with (fsb s1) in *. rewrite (iupdate_other s2 H L1 R); [|done| | |done|apply Hwf].
    + change (disk_inode s2 m) with (disk_inode s1 m). by eapply written_inodes.
    + change (fsb s2) with (fsb s1). by rewrite Hsb1.
    + change (fsb s2) with (fsb s1). by rewrite Hsb1.
Qed.

Lemma wp_writei E i p src off n k H L R (Q : Z → fss D X → Prop) s :
  fs_inv s H L R → meta_used s → icache s !! i = Some p → file_ok (fview s) p → wfile (fview s) (fsb s) (i_addrs p) →
  dinode_ok (i_disk p) → i_type p ≠ T_DEV → 0 ≤ i_inum p < sb_ninodes (fsb s) →
  0 ≤ off ≤ i_size p → 0 ≤ n ≤ Z.of_nat (length src) → off + n ≤ 71680 →
  n + off mod 512 ≤ 512 * Z.of_nat k → Z.of_nat k ≤ n / 512 + 2 →
  room s L (6 * k + 1) → (S (length H) + length L + 6 * k < NBUF)%nat → (2 * k ≤ nfree (fview s) (fsb s))%nat →
  (∀ p' s' L', fs_inv s' H L' R → (length L' ≤ length L + (6 * k + 1))%nat → fs_step s s' H (fview s') →
     file_written s s' i p p' off (take (Z.to_nat n) src) (2 * k) → Q n s') →
  wp E (writei devtab i src off n) Q s.
Proof.
  intros Hinv Hm Hp Hok Hw Hdi Hty Hi Ho Hn Hhi Hk Hk2 Hroom Hfree Hnf HQ. pose proof Hok as (Hdev & Hsz & Hmp).
  set (data := take (Z.to_nat n) src) in *.
  assert (Z.of_nat (length data) = n) as Hld by (unfold data; rewrite length_take; lia).
  destruct (inode_block s H L R (i_inum p) Hinv Hi) as (_ & _ & Hib & Hoff).
  unfold writei. apply wp_bind. eapply wp_getopt; [done|]. rewrite (proj2 (Z.eqb_neq _ _) Hty).
  rewrite u32_small, s32_small by lia. change (MAXFILE * BSIZE) with 71680. rewrite !Z.gtb_ltb.
  rewrite (proj2 (Z.ltb_ge (i_size p) off)), (proj2 (Z.ltb_ge (off + n) off)), (proj2 (Z.ltb_ge 71680 (off + n))) by lia.
  cbn [orb]. apply wp_bind. change BSIZE with 512. assert (0 ≤ n / 512) by (apply Z.div_pos; lia).
  eapply (wp_writei_loop E _ i p src off n 0 k H L R); try done; try lia; try (apply (room_le s L (6 * k + 1)); [done|lia]).
  intros addrs' s1 L1 Hinv1 HL1 Hs1 Hwr. rewrite !Z.sub_0_r in *. change (slice _ _ src) with data in Hwr.
  pose proof (fst_sb _ _ _ _ Hs1) as Hsb1. assert (i < length (icache s))%nat as Hil by (by eapply lookup_lt_Some).
  pose proof (wr_icache _ _ _ _ _ _ _ _ Hwr) as Hic1.
  apply wp_bind. eapply wp_getopt; [rewrite Hic1; by apply list_lookup_insert_eq|]. cbn [i_size set_i_addrs].
  apply wp_bind. rewrite !Z.gtb_ltb. destruct (decide (i_size p < off + n)) as [Hgr|Hgr].
  - rewrite (proj2 (Z.ltb_lt 0 n)), (proj2 (Z.ltb_lt _ _) Hgr) by lia. cbn [andb]. rewrite <- Hld at 1.
    eapply (wp_grow_inode E i p addrs' off data k H L L1 R); try done; try lia.
    { apply (room_step s s1 H (fview s1)) in Hroom; [|done]. unfold room in *. lia. }
    intros s' L' Hinv' HL' Hs' Hfw. apply wp_ret. eapply HQ; [exact Hinv'|lia|by eapply fs_step_trans|exact Hfw].
  - rewrite (proj2 (Z.ltb_ge (i_size p) (off + n))), andb_false_r by lia. apply wp_ret, wp_ret.
    apply (HQ (after_write p addrs' off (Z.of_nat (length data))) s1 L1 Hinv1); [lia|done|].
    assert (addrs' = i_addrs p) as Haddrs.
    { apply (wr_same _ _ _ _ _ _ _ _ Hwr). intros bn (Hb0 & Hb1 & Hb2). apply Hmp. unfold nblocks_of.
      pose proof (Z_div_mod_eq_full (i_size p + 511) 512). pose proof (Z.mod_pos_bound (i_size p + 511) 512 ltac:(lia)). lia. }
    eapply (written_done s s1 s1); try done; try lia.
    + rewrite Hic1, after_write_inside by lia. done.
    + intros Hd. rewrite after_write_inside by lia. rewrite (written_inodes _ _ _ _ _ _ _ _ _ _ _ _ Hinv Hwr Hsb1 Hi), Hd, Haddrs. by destruct p.
    + intros m Hmr _. by eapply written_inodes.
Qed.

(** ** Files in the inode cache *)

(** Slot [i] holds the inode [p] of a file or directory that owns its blocks. *)
Record file_in s (i : nat) (p : inode) : Prop := {
  fin_slot : icache s !! i = Some p;
  fin_ok : file_ok (fview s) p;
  fin_own : wfile (fview s) (fsb s) (i_addrs p);
  fin_fields : dinode_ok (i_disk p);
  fin_type : i_type p ≠ T_DEV;
  fin_inum : 0 ≤ i_inum p < sb_ninodes (fsb s);
}.

(** [writei] keeps a file a file. *)
Lemma file_in_written s s' i p p' off data n H L R :
  fs_inv s H L R → file_in s i p → file_written s s' i p p' off data n → 0 ≤ off → off + Z.of_nat (length data) ≤ 71680 →
  file_in s' i p'.
Proof.
  intros Hinv [Hp Hok Hw Hdi Hty Hi] [Hic Hin _ Hok' Hw' Hsb _ _ _ _ _ _ _] Ho Hhi. constructor; try done.
  - rewrite Hic. apply list_lookup_insert_eq. by eapply lookup_lt_Some.
  - rewrite Hin. rewrite Hin, Hsb in Hw'. destruct (bmapstart_pos s H L R Hinv) as [Hbm H1000].
    destruct Hok as (_ & Hsz & _). eapply dinode_ok_after; try done; lia.
  - by rewrite Hin.
  - by rewrite Hin, Hsb.
Qed.

Lemma wp_writei_file E i p src off n H L R (Q : Z → fss D X → Prop) s :
  let k := span off n in
  fs_inv s H L R → meta_used s → file_in s i p → 0 ≤ off ≤ i_size p → 0 ≤ n ≤ Z.of_nat (length src) → off + n ≤ 71680 →
  room s L (6 * k + 1) → (S (length H) + length L + 6 * k < NBUF)%nat → (2 * k ≤ nfree (fview s) (fsb s))%nat →
  (∀ p' s' L', fs_inv s' H L' R → (length L' ≤ length L + (6 * k + 1))%nat → fs_step s s' H (fview s') → file_in s' i p' →
     file_written s s' i p p' off (take (Z.to_nat n) src) (2 * k) → Q n s') →
  wp E (writei devtab i src off n) Q s.
Proof.
  intros k Hinv Hm Hf Ho Hn Hhi Hroom Hfree Hnf HQ. pose proof Hf as [Hp Hok Hw Hdi Hty Hi].
  destruct (span_spec off n) as [Hk1 Hk2]; [lia..|].
  eapply (wp_writei E i p src off n k); try done; try lia. intros p' s' L' Hinv' HL' Hs' Hfw.
  eapply HQ; try done. eapply file_in_written; [exact Hinv|exact Hf|exact Hfw|lia|rewrite length_take; lia].
Qed.
End writei.
