(* ===== verification/FsTrunc.v ===== *)
(** * fs.c: freeing a file

    [itrunc], and [iput] when it drops the last reference to an inode without
    links: the blocks of the file become free, and no others. *)

From S2P Require Import Prelude Spinlock CString Ide Bio BioFacts Layout Log LogDisk LogFacts LogSpecs Fs FsFacts FsInodes FsFiles FsTable FsWrite.

(** ** Sets of blocks in use, and the disk after they were freed *)
Definition in_use (sb : superblock) (V : disk) (T : list Z) : Prop :=
  NoDup T ∧ ∀ a, a ∈ T → sb_bmapstart sb < a < sb_size sb ∧ used V sb a = true.
Record freed (sb : superblock) (T : list Z) (V V' : disk) : Prop := {
  fr_used b : 0 ≤ b < sb_size sb → used V' sb b = if decide (b ∈ T) then false else used V sb b;
  fr_frame b : b ≠ sb_bmapstart sb → V' b = V b;
}.

Lemma freed_nil sb V : freed sb [] V V.
Proof. constructor; [|done]. intros b _. by rewrite decide_False by set_solver. Qed.
Lemma freed_trans sb T1 T2 V1 V2 V3 : freed sb T1 V1 V2 → freed sb T2 V2 V3 → freed sb (T1 ++ T2) V1 V3.
Proof.
  intros [Hu1 Hf1] [Hu2 Hf2]. constructor; [|intros; by rewrite Hf2, Hf1].
  intros b Hb. rewrite Hu2, Hu1 by done. repeat case_decide; set_solver.
Qed.
Lemma freed_perm sb T T' V V' : T ≡ₚ T' → freed sb T V V' → freed sb T' V V'.
Proof.
  intros HT [Hu Hf]. constructor; [|done]. intros b Hb. rewrite Hu by done.
  repeat case_decide; [done| | |done]; exfalso; revert select (b ∉ _); by rewrite HT || by rewrite <- HT.
Qed.
Lemma freed_ext sb T V V' W W' :
  (∀ x, V x = W x) → (∀ x, V' x = W' x) → freed sb T V V' → freed sb T W W'.
Proof.
  intros HV HV' [Hu Hf]. constructor; intros b; rewrite <- ?HV, <- ?HV'; [|apply Hf].
  rewrite <- (used_ext V W), <- (used_ext V' W') by done. apply Hu.
Qed.
Lemma in_use_freed sb T1 T2 V V' : 0 ≤ sb_bmapstart sb →
  in_use sb V (T1 ++ T2) → freed sb T1 V V' → in_use sb V' T2.
Proof.
  intros H0 [(Hn1 & Hne & Hn2)%NoDup_app Hu] Hf. split; [done|]. intros a Ha.
  destruct (Hu a) as [Hr Hua]; [set_solver|]. split; [done|].
  rewrite (fr_used _ _ _ _ Hf), decide_False by (lia || set_solver). done.
Qed.
Lemma in_use_l sb T1 T2 V : in_use sb V (T1 ++ T2) → in_use sb V T1.
Proof. intros [(? & _)%NoDup_app Hu]. split; [done|]. intros a Ha. apply Hu. set_solver. Qed.
Lemma in_use_ext sb T V V' : (∀ x, V x = V' x) → in_use sb V T → in_use sb V' T.
Proof. intros HV [? Hu]. split; [done|]. intros a Ha. rewrite <- (used_ext V V') by done. by apply Hu. Qed.
Lemma in_use_head sb a T V : in_use sb V (a :: T) → sb_bmapstart sb < a < sb_size sb ∧ used V sb a = true.
Proof. intros [_ Hu]. apply Hu. set_solver. Qed.

(** The addresses set to zero from [j] on. *)
Definition zero_from (j k : nat) (addrs : list Z) : list Z := take j addrs ++ replicate k 0 ++ drop (j + k) addrs.
Lemma zero_from_0 j addrs : zero_from j 0 addrs = addrs.
Proof. unfold zero_from. rewrite Nat.add_0_r. apply take_drop. Qed.
Lemma zero_from_S j k addrs : (j < length addrs)%nat →
  zero_from (S j) k (<[j:=0]> addrs) = zero_from j (S k) addrs.
Proof.
  intros Hj. unfold zero_from. erewrite take_S_r by (by apply list_lookup_insert_eq).
  rewrite take_insert_ge, drop_insert_lt by lia. cbn [replicate]. rewrite <- app_assoc. cbn [app].
  by replace (S j + k)%nat with (j + S k)%nat by lia.
Qed.
Lemma zero_from_all addrs : length addrs = 13%nat → <[12%nat:=0]> (zero_from 0 12 addrs) = replicate 13 0.
Proof. intros Hl. do 14 (destruct addrs as [|? addrs]; [done|]). done. Qed.

Lemma logged_idem L b : logged (logged L b) b = logged L b.
Proof. unfold logged. repeat case_decide; set_solver. Qed.

(** The bitmap block is logged once however many blocks are freed. *)
Definition bm_logged (bm : Z) (L0 L : list Z) : Prop := L = L0 ∨ L = logged L0 bm.
Lemma bm_logged_again bm L0 L : bm_logged bm L0 L → logged L bm = logged L0 bm.
Proof. intros [->| ->]; [done|apply logged_idem]. Qed.
Lemma bm_logged_length bm L0 L : bm_logged bm L0 L → (length L ≤ S (length L0))%nat.
Proof. intros [->| ->]; [lia|apply logged_length]. Qed.

(** The indirect block [a] and the blocks it lists. *)
Definition indirect_blocks (V : disk) (a : Z) : list Z :=
  if decide (a = 0) then [] else nz ((λ m, get_u32 (4 * m) (V a)) <$> seq 0 128) ++ [a].

Lemma nz_zeros (l : list nat) : nz ((λ _, 0) <$> l) = [].
Proof. induction l; [done|]. exact IHl. Qed.
Lemma ftab_blocks V addrs : length addrs = 13%nat →
  nz (ftab V addrs) ≡ₚ nz (take 12 addrs) ++ indirect_blocks V (indirect addrs).
Proof.
  intros Hl. unfold ftab. change (seq 0 140) with (seq 0 12 ++ seq 12 128). rewrite fmap_app.
  assert (baddr V addrs <$> seq 0 12 = take 12 addrs) as ->.
  { do 14 (destruct addrs as [|? addrs]; [done|]). done. }
  unfold indirect_blocks. fold (indirect addrs). destruct (decide (indirect addrs = 0)) as [Hi|Hi].
  - assert (baddr V addrs <$> seq 12 128 = (λ _, 0) <$> seq 12 128) as ->.
    { apply list_fmap_ext. intros k bn [-> _]%lookup_seq. unfold baddr. fold (indirect addrs). by rewrite Hi. }
    unfold nz at 1. rewrite filter_cons_False, filter_app by tauto. fold (nz ((λ _, 0) <$> seq 12 128)).
    by rewrite nz_zeros.
  - assert (baddr V addrs <$> seq 12 128 = (λ m, get_u32 (4 * m) (V (indirect addrs))) <$> seq 0 128) as ->.
    { change (seq 12 128) with (seq (12 + 0) 128). rewrite <- fmap_add_seq, <- list_fmap_compose. apply list_fmap_ext. intros k bn _. cbn [compose].
      unfold baddr. fold (indirect addrs). rewrite bool_decide_false by lia. rewrite (proj2 (Z.eqb_neq _ _)) by done.
      do 2 f_equal. lia. }
    unfold nz at 1. rewrite filter_cons_True, filter_app by done. rewrite app_assoc. apply Permutation_cons_append.
Qed.

Section trunc.
Context {D X : Type} {dev : IdeDevice D} {dok : IdeDeviceOk D}.
Implicit Types s : fss D X.

Lemma room_bm s bm L0 L k : room s L0 (S k) → bm_logged bm L0 L → room s L k.
Proof. intros Hr Hl%bm_logged_length. unfold room in *. lia. Qed.

(** [bfree] of a block in use, in a transaction that has room for the bitmap. *)
Lemma wp_bfree_used E a H L0 L R (Q : unit → fss D X → Prop) s :
  fs_inv s H L R → bm_logged (sb_bmapstart (fsb s)) L0 L → room s L0 2 → (length H + S (length L0) < NBUF)%nat →
  sb_bmapstart (fsb s) < a < sb_size (fsb s) → used (fview s) (fsb s) a = true →
  (∀ s' L', fs_inv s' H L' R → bm_logged (sb_bmapstart (fsb s)) L0 L' → freed (fsb s) [a] (fview s) (fview s') →
     fs_step s s' H (fview s') → icache s' = icache s → Q tt s') →
  wp E (bfree ROOTDEV a) Q s.
Proof.
  intros Hinv HL Hroom Hbuf Ha Hu HQ. pose proof (bm_logged_length _ _ _ HL).
  assert (0 ≤ sb_bmapstart (fsb s)) by (by eapply bmapstart_pos).
  eapply wp_bfree; [done|lia|by eapply room_bm|lia| |congruence]. intros _ s' Hinv' Hs' Hic.
  pose proof (fst_view _ _ _ _ Hs') as HV. eapply HQ; [done|right; by apply bm_logged_again| | |done].
  - constructor.
    + intros b Hb. rewrite (used_ext _ (bfree_view s a)) by done. erewrite used_bfree by (done || lia).
      repeat case_decide; set_solver.
    + intros b Hb. rewrite HV. unfold bfree_view. by rewrite wr_ne.
  - by eapply fs_step_ext.
Qed.

(** ** The two loops of [itrunc] *)
Lemma wp_itrunc_direct E k j i p H L0 L R (Q : unit → fss D X → Prop) s :
  let sb := fsb s in let T := nz (take k (drop j (i_addrs p))) in
  fs_inv s H L R → bm_logged (sb_bmapstart sb) L0 L → room s L0 2 → (length H + S (length L0) < NBUF)%nat →
  icache s !! i = Some p → i_dev p = ROOTDEV → (j + k ≤ length (i_addrs p))%nat → in_use sb (fview s) T →
  (∀ s' L', fs_inv s' H L' R → bm_logged (sb_bmapstart sb) L0 L' → freed sb T (fview s) (fview s') →
     fs_step s s' H (fview s') → icache s' = <[i:=set_i_addrs (zero_from j k (i_addrs p)) p]> (icache s) → Q tt s') →
  wp E (itrunc_direct k j i) Q s.
Proof.
  revert j p L s. induction k as [|k IH]; intros j p L s sb T Hinv HL Hroom Hbuf Hp Hdev Hj Hin HQ; cbn [itrunc_direct].
  { apply wp_ret. eapply HQ; [done|done|apply freed_nil|apply fs_step_refl|].
    rewrite zero_from_0, set_i_addrs_id. symmetry. by apply list_insert_id. }
  assert (j < length (i_addrs p))%nat as Hlt by lia. pose proof (ic_addrs _ _ (fi_icache _ _ _ _ Hinv) _ _ Hp) as H13.
  assert (i < length (icache s))%nat as Hil by (by eapply lookup_lt_Some).
  destruct (lookup_lt_is_Some_2 (i_addrs p) j Hlt) as [a Ha].
  apply wp_bind. eapply wp_getopt; [done|]. apply wp_bind. eapply wp_getopt; [done|]. apply wp_bind.
  assert (T = nz [a] ++ nz (take k (drop (S j) (i_addrs p)))) as HT.
  { unfold T, nz. rewrite (drop_S _ _ _ Ha). cbn [take]. by rewrite <- filter_app. }
  destruct (Z.eqb_spec a 0) as [->|Ha0]; cbn [negb].
  - apply wp_ret. eapply IH; [done..|lia|by rewrite HT in Hin|]. intros s' L' Hinv' HL' Hf Hs Hic.
    eapply HQ; [done|done|by rewrite HT|done|]. rewrite <- zero_from_S, (list_insert_id (i_addrs p) j 0) by done. done.
  - rewrite Hdev. unfold nz at 1 in HT. rewrite filter_cons_True in HT by done. cbn [app] in HT. rewrite HT in Hin.
    destruct (in_use_head _ _ _ _ Hin) as [Har Hau].
    apply wp_bind. eapply wp_bfree_used; [done..|]. intros s1 L1 Hinv1 HL1 Hf1 Hs1 Hic1.
    eapply wp_mod_inode; [by rewrite Hic1|]. set (p1 := set_i_addrs (<[j:=0]> (i_addrs p)) p). set (s2 := set_icache _ s1).
    assert (i_addrs p1 = <[j:=0]> (i_addrs p)) as Hp1 by done.
    assert (fs_inv s2 H L1 R) as Hinv2.
    { eapply fs_inv_icache; [done|]. eapply icache_ok_update; [apply Hinv1|by rewrite Hic1|done..|].
      rewrite Hp1. by rewrite length_insert. }
    assert (fs_step s s2 H (fview s2)) as Hs2 by (by apply fs_step_icache).
    eapply (IH (S j) p1); rewrite ?(fst_sb _ _ _ _ Hs2), ?Hp1, ?drop_insert_lt, ?length_insert by lia;
      [done|done|by eapply room_step|done| |done|lia| |].
    + cbn [icache s2 set_icache]. rewrite Hic1. by apply list_lookup_insert_eq.
    + eapply (in_use_freed sb [a]); [by eapply bmapstart_pos|exact Hin|exact Hf1].
    + intros s' L' Hinv' HL' Hf Hs Hic. eapply HQ; [done|done| |by eapply fs_step_trans|].
      * rewrite HT. by eapply (freed_trans _ [a]).
      * rewrite Hic, zero_from_S by done. cbn [icache s2 set_icache]. rewrite Hic1. apply list_insert_insert_eq.
Qed.
Lemma wp_itrunc_indirect E k j bp a i p H L0 L R (Q : unit → fss D X → Prop) s :
  let sb := fsb s in let T := nz ((λ m, get_u32 (4 * m) (fview s a)) <$> seq j k) in
  fs_inv s (bp :: H) L R → bm_logged (sb_bmapstart sb) L0 L → room s L0 2 →
  (length (bp :: H) + S (length L0) < NBUF)%nat → holds (fio s) bp a → a ≠ sb_bmapstart sb →
  icache s !! i = Some p → i_dev p = ROOTDEV → in_use sb (fview s) T →
  (∀ s' L', fs_inv s' (bp :: H) L' R → bm_logged (sb_bmapstart sb) L0 L' → freed sb T (fview s) (fview s') →
     fs_step s s' (bp :: H) (fview s') → icache s' = icache s → Q tt s') →
  wp E (itrunc_indirect k j bp i) Q s.
Proof.
  revert j L s. induction k as [|k IH]; intros j L s sb T Hinv HL Hroom Hbuf Hh Hab Hp Hdev Hin HQ; cbn [itrunc_indirect].
  { apply wp_ret. eapply HQ; [done|done|apply freed_nil|apply fs_step_refl|done]. }
  apply wp_bind. eapply wp_dio_get_buf; [done..|]. intros x ->. apply wp_bind. eapply wp_getopt; [done|]. apply wp_bind.
  set (e := get_u32 (4 * j) (fview s a)) in *.
  assert (T = nz [e] ++ nz ((λ m, get_u32 (4 * m) (fview s a)) <$> seq (S j) k)) as HT.
  { unfold T, nz. cbn [seq]. rewrite fmap_cons. by rewrite <- filter_app. }
  destruct (Z.eqb_spec e 0) as [He|He]; cbn [negb].
  - rewrite He in HT. apply wp_ret. eapply IH; [done..|by rewrite HT in Hin|]. intros s' L' Hinv' HL' Hf Hs Hic.
    eapply HQ; [done|done|by rewrite HT|done|done].
  - rewrite Hdev. unfold nz at 1 in HT. rewrite filter_cons_True in HT by done. cbn [app] in HT. rewrite HT in Hin.
    destruct (in_use_head _ _ _ _ Hin) as [Har Hau].
    eapply wp_bfree_used; [done..|]. intros s1 L1 Hinv1 HL1 Hf1 Hs1 Hic1.
    assert (fview s1 a = fview s a) as Hva by (by apply (fr_frame _ _ _ _ Hf1)).
    eapply IH; rewrite ?(fst_sb _ _ _ _ Hs1), ?Hic1, ?Hva; [done|done|by eapply room_step|done| |done|done|done| |].
    + eapply fst_holds; [done|set_solver|done].
    + eapply (in_use_freed sb [e]); [by eapply bmapstart_pos|exact Hin|exact Hf1].
    + intros s' L' Hinv' HL' Hf Hs Hic. eapply HQ; [done|done| |by eapply fs_step_trans|congruence].
      rewrite HT. by eapply (freed_trans _ [e]).
Qed.

(** ** [itrunc] *)

(** The disk after the blocks of the inode [p] were freed and the inode was
    written, perhaps several times. *)
Record trunc_disk s s' (p : inode) : Prop := {
  td_used b : 0 ≤ b < sb_size (fsb s) → used (fview s') (fsb s) b =
    if decide (b ∈ nz (ftab (fview s) (i_addrs p))) then false else used (fview s) (fsb s) b;
  td_others m : 0 ≤ m < sb_ninodes (fsb s) → m ≠ i_inum p → disk_inode s' m = disk_inode s m;
  td_frame b : b ≠ sb_bmapstart (fsb s) → b ≠ IBLOCK (i_inum p) (fsb s) → fview s' b = fview s b;
}.

Lemma trunc_disk_freed s s' p H L R :
  fs_inv s H L R → 0 ≤ i_inum p < sb_ninodes (fsb s) → fsb s' = fsb s →
  freed (fsb s) (nz (ftab (fview s) (i_addrs p))) (fview s) (fview s') → trunc_disk s s' p.
Proof.
  intros Hinv Hp Hsb [Hu Hf]. constructor; [done| |auto]. intros m Hm _. unfold disk_inode. rewrite Hsb, Hf; [done|].
  destruct (inode_block s H L R m Hinv Hm) as (_ & _ & Hlt & _). lia.
Qed.

Lemma trunc_disk_iupdate s s1 s2 p p1 H L R :
  fs_inv s1 H L R → fsb s1 = fsb s → fsb s2 = fsb s → 0 ≤ i_inum p < sb_ninodes (fsb s) → i_inum p1 = i_inum p →
  length (i_addrs p1) = 13%nat → (∀ k, fview s2 k = iupdate_view s1 p1 k) → trunc_disk s s1 p →
  trunc_disk s s2 p ∧ (dinode_ok (i_disk p1) → disk_inode s2 (i_inum p) = i_disk p1).
Proof.
  intros Hinv Hsb1 Hsb2 Hn Hn1 H13 HV [Hu Ho Hf].
  destruct (inode_block s1 H L R (i_inum p1) Hinv) as (_ & _ & Hlt & Hoff); [by rewrite Hsb1, Hn1|].
  assert (∀ b, b ≠ IBLOCK (i_inum p) (fsb s) → fview s2 b = fview s1 b) as Hfr.
  { intros b Hb. rewrite HV. unfold iupdate_view. rewrite wr_ne; [done|]. by rewrite Hsb1, Hn1. }
  rewrite Hsb1, Hn1 in Hlt. split; [constructor|].
  - intros b Hb. rewrite <- Hu by done. unfold used.
    destruct (bitmap_block s1 H L R b Hinv) as (Hbb & _); [by rewrite Hsb1|]. rewrite Hsb1 in Hbb. rewrite Hbb, Hfr by lia. done.
  - intros m Hm Hne. rewrite <- Ho by done. unfold disk_inode at 1. rewrite Hsb2, <- Hsb1, HV.
    eapply iupdate_other; [done|by rewrite Hsb1|by rewrite Hn1, Hsb1|by rewrite Hn1|done].
  - intros b Hb1 Hb2. rewrite Hfr by done. by apply Hf.
  - intros Hok. unfold disk_inode. rewrite Hsb2, <- Hsb1, <- Hn1, HV. unfold iupdate_view. rewrite wr_eq.
    apply dinode_roundtrip; [done|].
    assert (length (fview s1 (IBLOCK (i_inum p1) (fsb s1))) = 512%nat) as -> by (eapply length_view, Hinv). lia.
Qed.

Lemma wp_itrunc_tail E a i p H L0 L R (Q : unit → fss D X → Prop) s :
  let sb := fsb s in
  fs_inv s H L R → bm_logged (sb_bmapstart sb) L0 L → room s L0 2 → (S (length H) + S (length L0) < NBUF)%nat →
  icache s !! i = Some p → i_dev p = ROOTDEV → i_addrs p !! 12%nat = Some a →
  in_use sb (fview s) (indirect_blocks (fview s) a) →
  (∀ s' L', fs_inv s' H L' R → bm_logged (sb_bmapstart sb) L0 L' →
     freed sb (indirect_blocks (fview s) a) (fview s) (fview s') → fs_step s s' H (fview s') →
     icache s' = <[i:=set_i_addrs (<[12%nat:=0]> (i_addrs p)) p]> (icache s) → Q tt s') →
  wp E (if negb (a =? 0) then
     bp ← dio (bread (i_dev p) a);
     itrunc_indirect (Z.to_nat NINDIRECT) 0 bp i;;
     dio (brelse bp);;
     bfree (i_dev p) a;;
     mod_inode i (λ p, set_i_addrs (<[Z.to_nat NDIRECT:=0]> (i_addrs p)) p)
   else mret tt) Q s.
Proof.
  intros sb Hinv HL Hroom Hbuf Hp Hdev Ha Hin HQ. unfold indirect_blocks in *.
  pose proof (bm_logged_length _ _ _ HL) as HLl.
  destruct (Z.eqb_spec a 0) as [->|Ha0]; cbn [negb].
  { apply wp_ret. eapply HQ; [done|done|apply freed_nil|apply fs_step_refl|].
    rewrite (list_insert_id (i_addrs p)), set_i_addrs_id by done. symmetry. by apply list_insert_id. }
  rewrite decide_False in * by done. rewrite Hdev.
  destruct (proj2 Hin a) as [Har _]; [apply elem_of_app; right; by apply list_elem_of_singleton|].
  destruct (bmapstart_pos s H L R Hinv) as [Hbm H1000]. fold sb in Hbm, H1000. assert (a ≠ sb_bmapstart (fsb s)) by (fold sb; lia).
  apply wp_bind. eapply wp_dio_bread; [done|unfold FSSIZE; lia|lia|]. intros bp s1 Hinv1 Hh1 Hs1 Hic1.
  pose proof (fst_view _ _ _ _ Hs1) as HV1. pose proof (fst_sb _ _ _ _ Hs1) as Hsb1.
  change (Z.to_nat NINDIRECT) with 128%nat. apply wp_bind. eapply (wp_itrunc_indirect _ _ _ _ a); rewrite ?Hsb1, ?Hic1, ?HV1;
    [done|done|by eapply room_step|cbn; lia|done|done|done|done| |].
  { apply (in_use_ext _ _ (fview s)); [intros; by rewrite HV1|by eapply in_use_l]. }
  intros s2 L2 Hinv2 HL2 Hf2 Hs2 Hic2. apply wp_bind. eapply wp_dio_brelse; [done|unfold NBUF in *; lia|].
  intros s3 Hinv3 Hs3 Hic3. pose proof (fst_view _ _ _ _ Hs3) as HV3.
  assert (fsb s3 = sb) as Hsb3 by (rewrite (fst_sb _ _ _ _ Hs3), (fst_sb _ _ _ _ Hs2); done).
  assert (fs_step s s3 H (fview s3)) as Hs03.
  { apply (fs_step_ext _ _ _ (fview s2)); [|intros; by rewrite HV3]. eapply fs_step_trans; [exact Hs1|].
    eapply fs_step_trans; [|exact Hs3]. eapply fs_step_sub; [|exact Hs2]. intros x Hx. by right. }
  assert (freed sb (nz ((λ m, get_u32 (4 * m) (fview s a)) <$> seq 0 128)) (fview s) (fview s3)) as Hf3.
  { eapply freed_ext; [exact HV1| |exact Hf2]. intros. by rewrite HV3. }
  destruct (in_use_head sb a [] (fview s3)) as [_ Hua]; [by eapply in_use_freed|].
  apply wp_bind. eapply wp_bfree_used; rewrite ?Hsb3; [done|done|by eapply room_step|lia|done|done|].
  intros s4 L4 Hinv4 HL4 Hf4 Hs4 Hic4. assert (icache s4 = icache s) as Hic by congruence.
  eapply wp_mod_inode; [by rewrite Hic|]. eapply HQ; [|done|by eapply freed_trans| |by rewrite <- Hic].
  - eapply fs_inv_icache; [done|]. eapply icache_ok_update; [apply Hinv4|by rewrite Hic|done..|].
    cbn [i_addrs set_i_addrs]. rewrite length_insert. by eapply (ic_addrs _ _ (fi_icache _ _ _ _ Hinv)).
  - apply fs_step_icache. by eapply fs_step_trans.
Qed.

(** The cached inode [itrunc] leaves. *)
Definition cleared (p : inode) : inode := set_i_size 0 (set_i_addrs (replicate 13 0) p).

Lemma cleared_ok p : dinode_ok (i_disk p) → dinode_ok (i_disk (cleared p)).
Proof.
  intros (Hf & _). split_and!; [exact Hf|done|done|done|]. apply Forall_replicate. done.
Qed.

Lemma wp_itrunc E i p H L R (Q : unit → fss D X → Prop) s :
  fs_inv s H L R → icache s !! i = Some p → i_dev p = ROOTDEV → 0 ≤ i_inum p < sb_ninodes (fsb s) →
  wfile (fview s) (fsb s) (i_addrs p) → room s L 2 → (S (length H) + S (length L) < NBUF)%nat →
  (∀ s' L1, bm_logged (sb_bmapstart (fsb s)) L L1 → fs_inv s' H (logged L1 (IBLOCK (i_inum p) (fsb s))) R →
     trunc_disk s s' p → (dinode_ok (i_disk p) → disk_inode s' (i_inum p) = i_disk (cleared p)) →
     fs_step s s' H (fview s') → icache s' = <[i:=cleared p]> (icache s) → Q tt s') →
  wp E (itrunc i) Q s.
Proof.
  intros Hinv Hp Hdev Hn [H13 Hnd Hdat] Hroom Hbuf HQ. unfold itrunc.
  assert (i < length (icache s))%nat as Hil by (by eapply lookup_lt_Some).
  destruct (bmapstart_pos s H L R Hinv) as [Hbm _]. set (a := indirect (i_addrs p)).
  pose proof (ftab_blocks (fview s) (i_addrs p) H13) as Htab. fold a in Htab.
  assert (in_use (fsb s) (fview s) (nz (take 12 (i_addrs p)) ++ indirect_blocks (fview s) a)) as Hin.
  { split; [by rewrite <- Htab|]. intros b. rewrite <- Htab. apply Hdat. }
  apply wp_bind. change (Z.to_nat NDIRECT) with 12%nat.
  eapply wp_itrunc_direct; [done|by left|done|lia|done|done|lia|by eapply in_use_l|].
  intros s1 L1 Hinv1 HL1 Hf1 Hs1 Hic1. set (p1 := set_i_addrs _ p) in Hic1.
  assert (i_addrs p1 !! 12%nat = Some a) as Ha1.
  { destruct (lookup_lt_is_Some_2 (i_addrs p) 12) as [x Hx]; [lia|]. unfold a, indirect. rewrite Hx.
    change (i_addrs p1) with (replicate 12 0 ++ drop 12 (i_addrs p)).
    rewrite lookup_app_r by (rewrite length_replicate; lia). by rewrite length_replicate, lookup_drop. }
  assert (icache s1 !! i = Some p1) as Hp1 by (rewrite Hic1; by apply list_lookup_insert_eq).
  assert (indirect_blocks (fview s1) a = indirect_blocks (fview s) a) as Hib.
  { unfold indirect_blocks. case_decide; [done|]. rewrite (fr_frame _ _ _ _ Hf1); [done|].
    destruct (Hdat a) as [? _]; [by apply owned_ind|lia]. }
  apply wp_bind. eapply wp_getopt; [done|]. apply wp_bind. eapply wp_getopt; [done|]. apply wp_bind.
  pose proof (fst_sb _ _ _ _ Hs1) as Hsb1.
  eapply wp_itrunc_tail; rewrite ?Hsb1, ?Hib; [done|done|by eapply room_step|lia|done|done|done|by eapply in_use_freed|].
  intros s2 L2 Hinv2 HL2 Hf2 Hs2 Hic2. pose proof (fst_sb _ _ _ _ Hs2) as Hsb2.
  change (i_addrs p1) with (zero_from 0 12 (i_addrs p)) in Hic2. rewrite zero_from_all in Hic2 by done.
  rewrite Hic1, list_insert_insert_eq in Hic2.
  assert (icache s2 !! i = Some (set_i_addrs (replicate 13 0) p1)) as Hp2 by (rewrite Hic2; by apply list_lookup_insert_eq).
  apply wp_bind. eapply wp_mod_inode; [done|]. set (s3 := set_icache _ s2).
  assert (icache s3 = <[i:=cleared p]> (icache s)) as Hic3.
  { cbn [icache s3 set_icache]. rewrite Hic2. apply list_insert_insert_eq. }
  assert (fs_inv s3 H L2 R) as Hinv3.
  { eapply fs_inv_icache; [done|]. by eapply icache_ok_update; [apply Hinv2|done..|]. }
  assert (fs_step s s3 H (fview s3)) as Hs3 by (apply fs_step_icache; by eapply fs_step_trans).
  pose proof (bm_logged_length _ _ _ HL2). assert (fsb s3 = fsb s) as Hsb3 by apply Hs3.
  eapply (wp_iupdate _ i (cleared p)); rewrite ?Hsb3, ?Hic3;
    [done|by apply list_lookup_insert_eq|done|done| |lia|].
  { eapply room_step; [done|]. by eapply room_bm. }
  intros s4 Hinv4 Hs4 Hic4. assert (fsb s4 = fsb s) as Hsb4 by (rewrite (fst_sb _ _ _ _ Hs4); done).
  destruct (trunc_disk_iupdate s s3 s4 p (cleared p) H L2 R) as [Htd Hdi]; [done..|apply Hs4| |].
  { eapply trunc_disk_freed; [done..|]. eapply freed_perm; [by symmetry|]. by eapply freed_trans. }
  eapply HQ; [done|done|done|intros Hok; by apply Hdi, cleared_ok| |congruence].
  eapply fs_step_ext; [by eapply fs_step_trans|]. intros k. by rewrite (fst_view _ _ _ _ Hs4).
Qed.

(** ** [iput], when the inode goes away *)
Definition unlinked (p : inode) : inode := set_i_type 0 (cleared p).
Definition dropped (p : inode) : inode := set_i_ref 0 (set_i_valid 0 (unlinked p)).

Lemma unlinked_ok p : dinode_ok (i_disk p) → dinode_ok (i_disk (unlinked p)).
Proof.
  intros (Hs & Hz & Ha & Haa)%cleared_ok. split_and!; [|done..]. rewrite !Forall_cons in *.
  split; [done|]. naive_solver.
Qed.

Lemma trunc_disk_ext s1 s2 s1' s2' p :
  (∀ k, fview s1 k = fview s2 k) → fsb s1 = fsb s2 → (∀ k, fview s1' k = fview s2' k) → fsb s1' = fsb s2' →
  trunc_disk s1 s1' p → trunc_disk s2 s2' p.
Proof.
  intros HV Hsb HV' Hsb' [Hu Ho Hf]. constructor; rewrite <- ?Hsb.
  - intros b Hb. rewrite <- (used_ext (fview s1) (fview s2)), <- (used_ext (fview s1') (fview s2')) by done.
    rewrite <- (ftab_ext (fview s1) (fview s2)) by done. by apply Hu.
  - intros m Hm Hne. specialize (Ho m Hm Hne). unfold disk_inode in *. rewrite HV, Hsb, HV', Hsb' in Ho. exact Ho.
  - intros b ??. rewrite <- HV, <- HV'. by apply Hf.
Qed.

(** The part of [iput] that erases the inode. *)
Lemma wp_iput_erase E i p H L R (k : M (fss D X) unit) (Q : unit → fss D X → Prop) s :
  fs_inv s H L R → icache s !! i = Some p → i_dev p = ROOTDEV → 0 ≤ i_inum p < sb_ninodes (fsb s) →
  wfile (fview s) (fsb s) (i_addrs p) → room s L 3 → (S (length H) + S (S (length L)) < NBUF)%nat →
  (∀ s' L1, bm_logged (sb_bmapstart (fsb s)) L L1 → fs_inv s' H (logged L1 (IBLOCK (i_inum p) (fsb s))) R →
     trunc_disk s s' p → (dinode_ok (i_disk p) → disk_inode s' (i_inum p) = i_disk (unlinked p)) →
     fs_step s s' H (fview s') → icache s' = <[i:=set_i_valid 0 (unlinked p)]> (icache s) → wp E k Q s') →
  wp E (itrunc i;; mod_inode i (set_i_type 0);; iupdate i;; mod_inode i (set_i_valid 0);; k) Q s.
Proof.
  intros Hinv Hp Hdev Hn Hw Hroom Hbuf HQ. assert (i < length (icache s))%nat as Hil by (by eapply lookup_lt_Some).
  apply wp_bind. eapply (wp_itrunc _ _ p); [done..|eapply room_le; [done|lia]|lia|].
  intros s3 L1 HL1 Hinv3 Htd3 _ Hs3 Hic3. pose proof (bm_logged_length _ _ _ HL1) as HL1l.
  assert (icache s3 !! i = Some (cleared p)) as Hp3 by (rewrite Hic3; by apply list_lookup_insert_eq).
  apply wp_bind. eapply wp_mod_inode; [done|]. fold (unlinked p). set (s4 := set_icache _ s3).
  assert (icache s4 = <[i:=unlinked p]> (icache s)) as Hic4.
  { cbn [icache s4 set_icache]. rewrite Hic3. apply list_insert_insert_eq. }
  assert (fsb s4 = fsb s) as Hsb4 by apply Hs3.
  pose proof (logged_length L1 (IBLOCK (i_inum p) (fsb s))) as HLl.
  assert (fs_inv s4 H (logged L1 (IBLOCK (i_inum p) (fsb s))) R) as Hinv4.
  { eapply fs_inv_icache; [done|]. by eapply icache_ok_update; [apply Hinv3|done..|]. }
  assert (fs_step s s4 H (fview s4)) as Hs4 by (by eapply fs_step_icache).
  apply wp_bind. eapply (wp_iupdate _ i (unlinked p)); rewrite ?Hsb4, ?Hic4;
    [exact Hinv4|by apply list_lookup_insert_eq|done|done| |lia|].
  { eapply room_step; [exact Hs4|]. unfold room in *. lia. }
  change (i_inum (unlinked p)) with (i_inum p). rewrite logged_idem.
  intros s5 Hinv5 Hs5 Hic5. assert (fsb s5 = fsb s) as Hsb5 by (rewrite (fst_sb _ _ _ _ Hs5); done).
  destruct (trunc_disk_iupdate s s4 s5 p (unlinked p) _ _ _ Hinv4) as [Htd5 Hdi5]; [done..|apply Hs5| |].
  { by eapply trunc_disk_ext; [| | | |exact Htd3]. }
  apply wp_bind. eapply wp_mod_inode; [rewrite Hic5; by apply list_lookup_insert_eq|].
  eapply HQ; [done| |by eapply trunc_disk_ext; [| | | |exact Htd5]|intros ?; by apply Hdi5, unlinked_ok| |].
  - eapply fs_inv_icache; [done|]. eapply icache_ok_update; [apply Hinv5|rewrite Hic5; by apply list_lookup_insert_eq|done..].
  - apply fs_step_icache. eapply fs_step_ext; [by eapply fs_step_trans|]. intros b. symmetry. apply Hs5.
  - cbn [icache set_icache]. rewrite Hic5. apply list_insert_insert_eq.
Qed.

Lemma wp_iput_free E i p H L R (Q : unit → fss D X → Prop) s :
  fs_inv s H L (i :: R) → icache s !! i = Some p → i_valid p ≠ 0 → i_nlink p = 0 → i_ref p = 1 →
  i_dev p = ROOTDEV → 0 ≤ i_inum p < sb_ninodes (fsb s) → wfile (fview s) (fsb s) (i_addrs p) →
  room s L 3 → (S (length H) + S (S (length L)) < NBUF)%nat →
  (∀ s' L1, bm_logged (sb_bmapstart (fsb s)) L L1 → fs_inv s' H (logged L1 (IBLOCK (i_inum p) (fsb s))) R →
     trunc_disk s s' p → (dinode_ok (i_disk p) → disk_inode s' (i_inum p) = i_disk (unlinked p)) →
     fs_step s s' H (fview s') → icache s' = <[i:=dropped p]> (icache s) → Q tt s') →
  wp E (iput i) Q s.
Proof.
  intros Hinv Hp Hv Hl Hr Hdev Hn Hw Hroom Hbuf HQ. unfold iput.
  assert (i < length (icache s))%nat as Hil by (by eapply lookup_lt_Some).
  apply wp_bind. eapply wp_dio_pushcli; [done|]. intros c1 Hc1. set (s1 := set_flog _ s).
  apply wp_bind. eapply wp_getopt; [done|]. apply wp_bind.
  rewrite (proj2 (Z.eqb_neq _ _) Hv), (proj2 (Z.eqb_eq _ _) Hl), (proj2 (Z.eqb_eq _ _) Hr). cbn [negb andb].
  apply wp_bind, wp_dio_popcli; [done|]. intros c2 Hc2. set (s2 := set_flog _ s1).
  assert (fs_inv s2 H L (i :: R)) as Hinv2 by exact (fs_inv_cpu s c2 H L _ Hinv Hc2).
  assert (fs_step s s2 H (fview s)) as Hs2 by exact (fs_step_cpu s c2 H).
  eapply (wp_iput_erase _ _ p); [exact Hinv2|done..| | |done|].
  { eapply (wfile_ext (fview s)); [intros; by rewrite (fst_view _ _ _ _ Hs2)|done]. }
  { by eapply room_step. }
  intros s6 L1 HL1 Hinv6 Htd Hdi Hs6 Hic6.
  change (fsb s2) with (fsb s) in *. change (icache s2) with (icache s) in *.
  assert (icache s6 !! i = Some (set_i_valid 0 (unlinked p))) as Hp6 by (rewrite Hic6; by apply list_lookup_insert_eq).
  eapply wp_dio_pushcli; [done|]. intros c3 Hc3.
  apply wp_bind. eapply wp_mod_inode; [done|]. apply wp_dio_popcli; [done|]. intros c4 Hc4.
  assert (s32 (i_ref (set_i_valid 0 (unlinked p)) - 1) = i_ref (set_i_valid 0 (unlinked p)) - 1) as ->.
  { change (i_ref (set_i_valid 0 (unlinked p))) with (i_ref p). by rewrite Hr. }
  destruct (cpu_icache_post s6 _ c3 c4 H _ _ _ Hinv6 Hc4 (icache_ok_iput _ _ _ _ (fi_icache _ _ _ _ Hinv6) Hp6))
    as (Hinv7 & Hs7 & Hic7). pose proof (fst_view _ _ _ _ Hs7) as HV7.
  eapply HQ; [done|exact Hinv7| | | |].
  - eapply trunc_disk_ext; [| | | |exact Htd]; [apply Hs2|done|intros; by rewrite HV7|done].
  - intros Hok. rewrite <- Hdi by done. unfold disk_inode. done.
  - eapply fs_step_ext; [eapply fs_step_trans; [exact Hs2|]; eapply fs_step_trans; [exact Hs6|exact Hs7]|].
    intros k. by rewrite HV7.
  - etrans; [exact Hic7|]. rewrite Hic6, list_insert_insert_eq. unfold dropped.
    change (i_ref (set_i_valid 0 (unlinked p))) with (i_ref p). by rewrite Hr.
Qed.
End trunc.
