(* ===== verification/FsDirs.v ===== *)
(** * fs.c: directories

    [dirlookup] against the directory as a list of entries. *)

From S2P Require Import Prelude Spinlock CString Ide Bio BioFacts Layout Log LogDisk LogFacts LogSpecs Fs FsFacts FsInodes FsFiles.

(** Entry [k] of a directory with contents [c]. *)
Definition dirent_at (c : list Z) (k : nat) : dirent := dec_dirent (slice (16 * k) 16 c).
Definition entry_is (name : list Z) (de : dirent) : bool :=
  negb (de_inum de =? 0) && bool_decide (cname DIRSIZ name = cname DIRSIZ (de_name de)).

(** The first of [n] entries from [k] on that is in use under [name]: its
    inode number and offset. *)
Fixpoint dir_find (name c : list Z) (n k : nat) : option (Z * Z) :=
  match n with
  | O => None
  | S n =>
      if entry_is name (dirent_at c k) then Some (de_inum (dirent_at c k), Z.of_nat (16 * k))
      else dir_find name c n (S k)
  end.
Definition dir_lookup (name c : list Z) : option (Z * Z) := dir_find name c (length c / 16) 0.

Definition bytes (l : list Z) : Prop := Forall (λ b, 0 ≤ b < 256) l.

(** A directory as the code expects it. *)
Record dir_ok (V : disk) (p : inode) : Prop := {
  do_file : file_ok V p;
  do_type : i_type p = T_DIR;
  do_link : 1 ≤ i_nlink p;
  do_size : i_size p mod 16 = 0;
  do_bytes : bytes (contents V (i_disk p));
}.

Lemma bytes_slice o n l : bytes l → bytes (slice o n l).
Proof. intros Hb. unfold slice. apply Forall_take, Forall_drop, Hb. Qed.
Lemma get_u16_nonneg o l : bytes l → 0 ≤ get_u16 o l.
Proof.
  intros Hb. unfold get_u16. pose proof (bytes_slice o 2 l Hb) as Hs. revert Hs. generalize (slice o 2 l).
  induction 1 as [|b l' Hb' _ IH]; cbn [le_dec]; lia.
Qed.

Lemma refs_zero R j : j ∉ R → refs R j = 0.
Proof.
  intros Hj. unfold refs. rewrite (proj1 (count_occ_not_In Nat.eq_dec R j)); [done|].
  intros Hin. apply Hj. by apply list_elem_of_In.
Qed.

(** A table with fewer references than slots has a free slot. *)
Lemma icache_free ic R : icache_ok ic R → (length R < NINODE)%nat → ∃ j p, ic !! j = Some p ∧ i_ref p = 0.
Proof.
  intros [Hl _ Hr _ _] HR. destruct (decide (Forall (λ p, i_ref p ≠ 0) ic)) as [HF|HF].
  - exfalso. assert (seq 0 NINODE ⊆+ R) as Hsub.
    { apply NoDup_submseteq; [apply NoDup_seq|]. intros j Hj%elem_of_seq.
      destruct (lookup_lt_is_Some_2 ic j) as [p Hp]; [lia|]. rewrite Forall_forall in HF.
      specialize (HF p (list_elem_of_lookup_2 _ _ _ Hp)). rewrite (Hr j p Hp) in HF.
      destruct (decide (j ∈ R)) as [|Hn]; [done|]. exfalso. apply HF. by apply refs_zero. }
    apply submseteq_length in Hsub. rewrite length_seq in Hsub. lia.
  - apply not_Forall_Exists in HF; [|apply _]. apply Exists_exists in HF as (p & (j & Hj)%list_elem_of_lookup & Hp).
    exists j, p. split; [done|]. destruct (decide (i_ref p = 0)); [done|]. exfalso. by apply Hp.
Qed.

Section dirs.
Context {D X : Type} {dev : IdeDevice D} {dok : IdeDeviceOk D}.
Context (devtab : list (@devsw D X)).
Implicit Types s : fss D X.

Lemma wp_namecmp E name nm (Q : Z → fss D X → Prop) s :
  bytes name → bytes nm → readable DIRSIZ name → readable DIRSIZ nm →
  (∀ c, (c =? 0) = bool_decide (cname DIRSIZ name = cname DIRSIZ nm) → Q c s) →
  wp E (ofopt (namecmp name nm)) Q s.
Proof.
  intros Hb Hb' Hr Hl HQ. unfold namecmp. destruct (strncmp_some name nm DIRSIZ Hr Hl) as [v Hv].
  rewrite Hv. cbn [ofopt]. apply wp_ret, HQ. pose proof (strncmp_zero name nm DIRSIZ v Hb Hb' Hv) as Hz.
  destruct (Z.eqb_spec v 0) as [->|Hne]; symmetry.
  - apply bool_decide_eq_true_2. by apply Hz.
  - apply bool_decide_eq_false_2. intros He. by apply Hne, Hz.
Qed.

Lemma wp_dirlookup_loop E fuel i p name n k H L R (Q : option (nat * Z) → fss D X → Prop) s :
  fs_inv s H L R → icache s !! i = Some p → dir_ok (fview s) p → bytes name → readable DIRSIZ name →
  (length H + length L < NBUF)%nat → (length R < NINODE)%nat →
  i_size p = Z.of_nat (16 * (n + k)) → (n < fuel)%nat →
  (dir_find name (contents (fview s) (i_disk p)) n k = None →
     ∀ s', fs_inv s' H L R → fs_step s s' H (fview s) → icache s' = icache s → Q None s') →
  (∀ inum off, dir_find name (contents (fview s) (i_disk p)) n k = Some (inum, off) →
     ∀ j s', fs_inv s' H L (j :: R) → fs_step s s' H (fview s) →
       iget_result ROOTDEV inum (icache s) j (icache s') → Q (Some (j, off)) s') →
  wp E (dirlookup_loop devtab fuel i name (Z.of_nat (16 * k))) Q s.
Proof.
  revert n k s. induction fuel as [|fuel IH]; intros n k s Hinv Hp Hd Hb Hr Hfree HR Hsz Hf HQ1 HQ2; [lia|].
  cbn [dirlookup_loop]. apply wp_bind. eapply wp_getopt; [done|].
  pose proof Hd as [(Hdev & Hs & Hmap) Hty Hnl Hmod Hbs].
  destruct n as [|n]; cbn [dir_find] in *.
  { rewrite (proj2 (Z.ltb_ge _ _)) by lia. apply wp_ret, HQ1; [done|done|apply fs_step_refl|done]. }
  rewrite (proj2 (Z.ltb_lt _ _)) by lia.
  apply wp_bind. eapply wp_readi; [done|done|done| |lia|lia|lia|lia|done|].
  { rewrite Hty. done. }
  intros s1 Hinv1 Hs1 Hi1. cbn zeta. replace (Z.min 16 (i_size p - Z.of_nat (16 * k))) with 16 by lia.
  rewrite Nat2Z.id. change (Z.to_nat 16) with 16%nat. cbn [fst snd Z.eqb Pos.eqb negb].
  set (c := contents (fview s) (i_disk p)) in *. fold (dirent_at c k). set (de := dirent_at c k) in *.
  assert (∀ b, fview s1 b = fview s b) as HV by apply Hs1.
  rewrite u32_small by lia.
  replace (Z.of_nat (16 * k) + 16) with (Z.of_nat (16 * S k)) by lia.
  assert (entry_is name de = false → wp E (dirlookup_loop devtab fuel i name (Z.of_nat (16 * S k))) Q s1) as Hnext.
  { intros He. rewrite He in HQ1, HQ2. apply (IH n (S k)); try done; [congruence| |lia|lia| |].
    - destruct Hd. constructor; [by apply (file_ok_ext (fview s))|done..|]. by rewrite (contents_ext (fview s1) (fview s)).
    - rewrite (contents_ext (fview s1) (fview s)) by done. intros Hfind s' Hinv' Hs' Hi'.
      apply HQ1; [done|done| |congruence]. eapply fs_step_trans; [done|]. by eapply fs_step_ext.
    - rewrite (contents_ext (fview s1) (fview s)) by done. rewrite Hi1. intros inum off Hfind j s' Hinv' Hs' Hres.
      apply (HQ2 inum off); [done|done| |done]. eapply fs_step_trans; [done|]. by eapply fs_step_ext. }
  assert (bytes (de_name de) ∧ length (de_name de) = DIRSIZ) as [Hbn Hln].
  { unfold de, dirent_at, dec_dirent. cbn [de_name]. split; [by apply bytes_slice, bytes_slice|].
    assert (length c = Z.to_nat (i_size p)) as Hlc.
    { apply length_contents; [intros; by eapply fview_512|cbn [di_size i_disk]; lia]. }
    assert (length (slice (16 * k) 16 c) = 16%nat) as Hl16 by (rewrite length_slice; lia).
    rewrite length_slice; rewrite ?Hl16; unfold DIRSIZ; lia. }
  destruct (de_inum de =? 0) eqn:He0; [apply Hnext; unfold entry_is; by rewrite He0|].
  apply wp_bind, wp_namecmp; [done..|left; lia|]. intros v ->. case_bool_decide as Hnm.
  2: { apply Hnext. unfold entry_is. by rewrite He0, bool_decide_eq_false_2. }
  assert (entry_is name de = true) as He by (unfold entry_is; by rewrite He0, bool_decide_eq_true_2).
  rewrite He in HQ1, HQ2. rewrite Hdev. apply wp_bind. eapply wp_iget; [done|unfold NINODE in *; lia| |].
  - intros j s2 Hinv2 Hs2 Hres. apply wp_ret, (HQ2 (de_inum de) (Z.of_nat (16 * k))); [done|done| |by rewrite <- Hi1].
    eapply fs_step_trans; [done|]. by eapply fs_step_ext.
  - intros Hall. destruct (icache_free (icache s1) R) as (j & q & Hq & Hq0); [apply Hinv1|done|].
    destruct (Hall j q Hq). lia.
Qed.

Lemma wp_dirlookup E i p name H L R (Q : option (nat * Z) → fss D X → Prop) s :
  fs_inv s H L R → icache s !! i = Some p → dir_ok (fview s) p → bytes name → readable DIRSIZ name →
  (length H + length L < NBUF)%nat → (length R < NINODE)%nat →
  (dir_lookup name (contents (fview s) (i_disk p)) = None →
     ∀ s', fs_inv s' H L R → fs_step s s' H (fview s) → icache s' = icache s → Q None s') →
  (∀ inum off, dir_lookup name (contents (fview s) (i_disk p)) = Some (inum, off) →
     ∀ j s', fs_inv s' H L (j :: R) → fs_step s s' H (fview s) →
       iget_result ROOTDEV inum (icache s) j (icache s') → Q (Some (j, off)) s') →
  wp E (dirlookup devtab i name) Q s.
Proof.
  intros Hinv Hp Hd Hb Hr Hfree HR HQ1 HQ2. pose proof Hd as [(Hdev & Hs & Hmap) Hty Hnl Hmod Hbs].
  unfold dirlookup. apply wp_bind. eapply wp_getopt; [done|]. rewrite Hty, Z.eqb_refl. cbn [negb].
  pose proof (Z_div_mod_eq_full (i_size p) 16). assert (0 ≤ i_size p / 16) by (apply Z.div_pos; lia).
  assert (length (contents (fview s) (i_disk p)) / 16 = Z.to_nat (i_size p / 16))%nat as Hn.
  { rewrite length_contents; [|intros; by eapply fview_512|cbn [di_size i_disk]; lia]. cbn [di_size i_disk].
    rewrite Z2Nat.inj_div by lia. done. }
  unfold dir_lookup in *. rewrite Hn in *.
  apply (wp_dirlookup_loop E _ i p name (Z.to_nat (i_size p / 16)) 0 H L R); try done; lia.
Qed.
End dirs.
