(* ===== verification/FsLink.v ===== *)
(** * fs.c: adding an entry to a directory

    [dirlink] writes the new entry into the first free one, or at the end;
    afterwards the name is found and no other name is affected. *)

From S2P Require Import Prelude Spinlock CString Ide Bio BioFacts Layout Log LogDisk LogFacts LogSpecs Fs FsFacts FsInodes FsFiles FsTable FsWrite FsWritei FsDirs.

(** The first free one of [n] entries from [k] on, or the place behind them. *)
Fixpoint dir_free (c : list Z) (n k : nat) : nat :=
  match n with
  | O => k
  | S n => if de_inum (dirent_at c k) =? 0 then k else dir_free c n (S k)
  end.

(** ** Directories as lists of entries *)
Section entries.
Context (c e : list Z) (n k : nat).
Hypothesis Hc : length c = (16 * n)%nat.
Hypothesis He : length e = 16%nat.
Hypothesis Hk : (k ≤ n)%nat.
Let c' := splice (16 * k) e c.

Lemma dirent_at_splice j : dirent_at c' j = if decide (j = k) then dec_dirent e else dirent_at c j.
Proof.
  unfold dirent_at, c', splice, slice. rewrite He. assert (length (take (16 * k) c) = (16 * k)%nat) as Hl by (rewrite length_take; lia).
  destruct (decide (j = k)) as [->|Hne].
  - f_equal. rewrite drop_app_ge, Hl, Nat.sub_diag, drop_0 by lia. by rewrite take_app_le, take_ge by lia.
  - f_equal. destruct (decide (j < k)%nat).
    + rewrite drop_app_le, take_app_le by (rewrite ?length_drop; lia). rewrite skipn_firstn_comm, take_take. f_equal. lia.
    + rewrite drop_app_ge, drop_app_ge, drop_drop by lia. do 2 f_equal. lia.
Qed.
Lemma length_linked : length c' = (16 * Nat.max n (S k))%nat.
Proof. unfold c', splice. rewrite !length_app, length_take, length_drop. lia. Qed.
End entries.

Lemma dir_find_ext nm c c' n k :
  (∀ j, (k ≤ j < k + n)%nat → dirent_at c' j = dirent_at c j) → dir_find nm c' n k = dir_find nm c n k.
Proof.
  revert k. induction n as [|n IH]; intros k Hj; cbn [dir_find]; [done|].
  rewrite Hj by lia. rewrite IH; [done|]. intros j Hj'. apply Hj. lia.
Qed.
Lemma dir_find_found name c n k m off : dir_find name c n k = Some (m, off) →
  ∃ j, (k ≤ j < k + n)%nat ∧ off = Z.of_nat (16 * j) ∧ m = de_inum (dirent_at c j) ∧ entry_is name (dirent_at c j) = true.
Proof.
  revert k. induction n as [|n IH]; intros k; cbn [dir_find]; [done|].
  destruct (entry_is name (dirent_at c k)) eqn:He.
  - intros [= <- <-]. exists k. split_and!; try done; lia.
  - intros (j & ? & ?)%IH. exists j. split; [lia|done].
Qed.
(** Different names have different entries. *)
Lemma dir_lookup_ne a b c n m o o' : cname DIRSIZ a ≠ cname DIRSIZ b →
  dir_lookup a c = Some (n, o) → dir_lookup b c = Some (m, o') → o ≠ o' ∧ o mod 16 = 0 ∧ o' mod 16 = 0.
Proof.
  intros Hne (j & _ & -> & _ & Ha)%dir_find_found (k & _ & -> & _ & Hb)%dir_find_found.
  rewrite !Nat2Z.inj_mul, !(Z.mul_comm (Z.of_nat 16)), !Z.mod_mul by done. split_and!; try done. intros He. apply Hne.
  assert (j = k) as -> by lia. unfold entry_is in Ha, Hb. rewrite andb_true_iff, bool_decide_eq_true in Ha, Hb. destruct Ha, Hb. congruence.
Qed.
Lemma dir_find_absent nm c n k j :
  dir_find nm c n k = None → (k ≤ j < k + n)%nat → entry_is nm (dirent_at c j) = false.
Proof.
  revert k. induction n as [|n IH]; intros k; cbn [dir_find]; [lia|]. destruct (entry_is nm (dirent_at c k)) eqn:He; [done|].
  intros Hn Hj. destruct (decide (j = k)) as [->|]; [done|]. apply (IH (S k)); [done|lia].
Qed.
Lemma dir_find_app nm c n m k : dir_find nm c (n + m) k =
  match dir_find nm c n k with Some r => Some r | None => dir_find nm c m (k + n) end.
Proof.
  revert k. induction n as [|n IH]; intros k; cbn [dir_find Nat.add]; [by rewrite Nat.add_0_r|].
  destruct (entry_is _ _); [done|]. rewrite IH. by replace (S k + n)%nat with (k + S n)%nat by lia.
Qed.
Lemma dir_free_spec c n k : let f := dir_free c n k in
  (k ≤ f ≤ k + n)%nat ∧ ((f < k + n)%nat → de_inum (dirent_at c f) = 0).
Proof.
  revert k. induction n as [|n IH]; intros k f; cbn [dir_free] in f; [unfold f; lia|].
  destruct (Z.eqb_spec (de_inum (dirent_at c k)) 0) as [H0|H0]; [unfold f; split; [lia|done]|].
  destruct (IH (S k)) as [Hr Hz]. split; [unfold f; lia|]. intros Hlt. apply Hz. unfold f in Hlt. lia.
Qed.

(** ** The effect of a new entry on lookups *)
Section link.
Context (c e : list Z) (n : nat).
Hypothesis Hc : length c = (16 * n)%nat.
Hypothesis He : length e = 16%nat.
Let f := dir_free c n 0.
Let c' := splice (16 * f) e c.

Lemma linked_find nm : dir_lookup nm c' =
  match dir_find nm c f 0 with
  | Some r => Some r
  | None => if entry_is nm (dec_dirent e) then Some (de_inum (dec_dirent e), Z.of_nat (16 * f))
            else dir_find nm c (n - S f) (S f)
  end.
Proof.
  pose proof (dir_free_spec c n 0) as [Hf _]. fold f in Hf. unfold dir_lookup.
  assert (length c' = (16 * Nat.max n (S f))%nat) as -> by (apply length_linked; done || lia). replace (16 * Nat.max n (S f) / 16)%nat with (f + S (n - S f))%nat.
  2: { rewrite Nat.mul_comm, Nat.div_mul by lia. lia. }
  pose proof (λ j, dirent_at_splice c e n f Hc He ltac:(lia) j) as Hat. fold c' in Hat.
  rewrite dir_find_app, (dir_find_ext nm c c') by (intros j Hj; rewrite Hat, decide_False by lia; done).
  destruct (dir_find nm c f 0); [done|]. cbn [dir_find Nat.add]. rewrite Hat, decide_True by done.
  destruct (entry_is _ _); [done|]. apply dir_find_ext. intros j Hj. by rewrite Hat, decide_False by lia.
Qed.
Lemma lookup_split nm : dir_lookup nm c =
  match dir_find nm c f 0 with Some r => Some r | None => dir_find nm c (n - S f) (S f) end.
Proof.
  pose proof (dir_free_spec c n 0) as [Hf Hz]. fold f in Hf, Hz. unfold dir_lookup. rewrite Hc, Nat.mul_comm, Nat.div_mul by lia.
  destruct (decide (f = n)) as [->|Hne].
  - replace (n - S n)%nat with 0%nat by lia. cbn [dir_find]. by destruct (dir_find nm c n 0).
  - replace n with (f + S (n - S f))%nat at 1 by lia. rewrite dir_find_app. destruct (dir_find nm c f 0); [done|].
    cbn [dir_find Nat.add]. unfold entry_is at 1. by rewrite Hz by lia.
Qed.

Lemma dir_link_same nm : de_inum (dec_dirent e) ≠ 0 → cname DIRSIZ nm = cname DIRSIZ (de_name (dec_dirent e)) →
  dir_lookup nm c = None → dir_lookup nm c' = Some (de_inum (dec_dirent e), Z.of_nat (16 * f)).
Proof.
  intros H0 Hnm. rewrite linked_find, lookup_split. destruct (dir_find nm c f 0); [done|]. intros _.
  unfold entry_is. by rewrite (proj2 (Z.eqb_neq _ _) H0), bool_decide_true.
Qed.
Lemma dir_link_other nm : cname DIRSIZ nm ≠ cname DIRSIZ (de_name (dec_dirent e)) → dir_lookup nm c' = dir_lookup nm c.
Proof.
  intros Hnm. rewrite linked_find, lookup_split. destruct (dir_find nm c f 0); [done|].
  unfold entry_is. by rewrite bool_decide_false, andb_false_r.
Qed.
End link.

(** No other entry than the one at [off] has the name. *)
Definition named_once (name c : list Z) (off : Z) : Prop :=
  ∀ j, (j < length c / 16)%nat → entry_is name (dirent_at c j) = true → off = Z.of_nat (16 * j).
Lemma dir_link_once c e n name : length c = (16 * n)%nat → length e = 16%nat → dir_lookup name c = None →
  let f := dir_free c n 0 in named_once name (splice (16 * f) e c) (Z.of_nat (16 * f)).
Proof.
  intros Hc He Hno f j. pose proof (dir_free_spec c n 0) as [Hf _]. fold f in Hf.
  rewrite (length_linked c e n f Hc He) by lia. replace (16 * Nat.max n (S f) / 16)%nat with (Nat.max n (S f)) by (rewrite Nat.mul_comm, Nat.div_mul; lia).
  intros Hj. rewrite (dirent_at_splice c e n f Hc He) by lia. case_decide as Hd; [by subst|]. intros Ht.
  unfold dir_lookup in Hno. rewrite Hc, Nat.mul_comm, Nat.div_mul in Hno by lia.
  rewrite (dir_find_absent _ _ _ _ j Hno) in Ht by lia. done.
Qed.

(** [off] is where the first free entry of the directory is, or its end when
    every entry is in use. *)
Definition first_free (c : list Z) (off : Z) : Prop :=
  ∃ k, off = Z.of_nat (16 * k) ∧ (∀ j, (j < k)%nat → de_inum (dirent_at c j) ≠ 0) ∧
    if decide (16 * k < length c)%nat then de_inum (dirent_at c k) = 0 else length c = (16 * k)%nat.
Lemma dir_free_before c n k j : (k ≤ j < dir_free c n k)%nat → de_inum (dirent_at c j) ≠ 0.
Proof.
  revert k. induction n as [|n IH]; intros k; cbn [dir_free]; [lia|].
  destruct (Z.eqb_spec (de_inum (dirent_at c k)) 0) as [H0|H0]; [lia|]. intros Hj.
  destruct (decide (j = k)) as [->|Hne]; [done|]. apply (IH (S k)). lia.
Qed.
Lemma dir_free_first c n : length c = (16 * n)%nat → first_free c (Z.of_nat (16 * dir_free c n 0)).
Proof.
  intros Hc. pose proof (dir_free_spec c n 0) as [Hf Hz]. exists (dir_free c n 0). split_and!; [done| |].
  - intros j Hj. apply (dir_free_before c n 0). lia.
  - case_decide; [apply Hz; lia|lia].
Qed.

Section dirlink.
Context {D X : Type} {dev : IdeDevice D} {dok : IdeDeviceOk D}.
Context (devtab : list (@devsw D X)).
Implicit Types s : fss D X.

Lemma dir_ok_ext (V V' : disk) p : (∀ b, V b = V' b) → dir_ok V p → dir_ok V' p.
Proof.
  intros HV [Hok Ht Hl Hs Hb]. constructor; [by eapply file_ok_ext|done..|]. by rewrite <- (contents_ext V V').
Qed.

Lemma wp_dirlink_loop E fuel i p n k H L R (Q : Z → fss D X → Prop) s :
  fs_inv s H L R → icache s !! i = Some p → dir_ok (fview s) p → (length H + length L < NBUF)%nat →
  i_size p = Z.of_nat (16 * (n + k)) → (n < fuel)%nat →
  (∀ s', fs_inv s' H L R → fs_step s s' H (fview s) → icache s' = icache s →
     Q (Z.of_nat (16 * dir_free (contents (fview s) (i_disk p)) n k)) s') →
  wp E (dirlink_loop devtab fuel i (Z.of_nat (16 * k))) Q s.
Proof.
  revert n k s. induction fuel as [|fuel IH]; intros n k s Hinv Hp Hd Hfree Hsz Hf HQ; [lia|].
  cbn [dirlink_loop]. apply wp_bind. eapply wp_getopt; [done|]. pose proof Hd as [(_ & Hs & _) Hty Hnl _ _].
  destruct n as [|n]; cbn [dir_free] in *.
  { rewrite (proj2 (Z.ltb_ge _ _)) by lia. apply wp_ret, HQ; [done|apply fs_step_refl|done]. }
  rewrite (proj2 (Z.ltb_lt _ _)) by lia.
  apply wp_bind. eapply wp_readi; [done|done|apply Hd| |lia|lia|lia|lia|done|]; [by rewrite Hty|].
  intros s1 Hinv1 Hs1 Hi1. cbn zeta. replace (Z.min 16 (i_size p - Z.of_nat (16 * k))) with 16 by lia.
  rewrite Nat2Z.id. change (Z.to_nat 16) with 16%nat. cbn [fst snd Z.eqb Pos.eqb negb].
  fold (dirent_at (contents (fview s) (i_disk p)) k). pose proof (fst_view _ _ _ _ Hs1) as HV.
  destruct (de_inum (dirent_at _ k) =? 0); [by apply wp_ret, HQ|].
  replace (Z.of_nat (16 * k) + 16) with (Z.of_nat (16 * S k)) by lia.
  apply (IH n (S k)); try done; [congruence|by eapply dir_ok_ext; [|done]|lia|lia|].
  rewrite (contents_ext (fview s1) (fview s)) by done. intros s' Hinv' Hs' Hi'.
  apply HQ; [done| |congruence]. eapply fs_step_trans; [done|]. by eapply fs_step_ext.
Qed.

(** Giving back a reference that was taken a moment ago. *)
Lemma iget_result_keeps dv inum s s' j H L R q :
  fs_inv s H L R → iget_result dv inum (icache s) j (icache s') → icache s' !! j = Some q →
  i_valid q = 0 ∨ i_nlink q ≠ 0 ∨ i_ref q ≠ 1.
Proof.
  intros Hinv [(p & Hp & (Hr & _) & Hic)|(_ & p & Hp & _ & Hic)] Hq; rewrite Hic in Hq;
    rewrite list_lookup_insert_eq in Hq by (by eapply lookup_lt_Some); injection Hq as <-; [|by left].
  right; right. cbn. lia.
Qed.

Lemma length_enc_dirent x nm : length nm = DIRSIZ → length (enc_dirent (mk_dirent x nm)) = 16%nat.
Proof. intros Hl. unfold enc_dirent. cbn [de_inum de_name]. rewrite length_app, length_le_enc, Hl. done. Qed.
Lemma bytes_enc_dirent x nm : bytes nm → bytes (enc_dirent (mk_dirent x nm)).
Proof.
  intros Hb. apply Forall_app. split; [apply le_enc_byte|done].
Qed.

(** The directory [p] became [p'] by linking [name] to [inum], at [off]. *)
Record dir_linked s s' (p p' : inode) (name : list Z) (inum off : Z) : Prop := {
  dl_off : 0 ≤ off ≤ i_size p;
  dl_found : dir_lookup name (contents (fview s') (i_disk p')) = Some (inum, off);
  dl_others nm : cname DIRSIZ nm ≠ cname DIRSIZ name →
    dir_lookup nm (contents (fview s') (i_disk p')) = dir_lookup nm (contents (fview s) (i_disk p));
  dl_once : named_once name (contents (fview s') (i_disk p')) off;
  dl_first : first_free (contents (fview s) (i_disk p)) off;
}.

(** The contents of a directory after an entry was written. *)
Lemma dir_linked_written s s' i p p' name nm inum n k H L L' R :
  let c := contents (fview s) (i_disk p) in let f := dir_free c n 0 in
  fs_inv s H L R → fs_inv s' H L' R → dir_ok (fview s) p → i_size p = Z.of_nat (16 * n) → length nm = DIRSIZ → bytes nm →
  cname DIRSIZ nm = cname DIRSIZ name → 0 < inum < 65536 → dir_lookup name c = None →
  file_written s s' i p p' (Z.of_nat (16 * f)) (enc_dirent (mk_dirent inum nm)) k →
  dir_linked s s' p p' name inum (Z.of_nat (16 * f)) ∧ dir_ok (fview s') p'.
Proof.
  intros c f Hinv Hinv' [(_ & Hs & _) Ht Hl Hmod Hb] Hsz Hnl Hnb Hcn Hin Hno Hfw.
  set (e := enc_dirent (mk_dirent inum nm)) in *.
  pose proof Hfw as [_ Hp' Hco Hok _ _ _ _ _ _ _ _ _]. rewrite Nat2Z.id in Hco. fold c in Hco.
  assert (length c = (16 * n)%nat) as Hlc.
  { unfold c. rewrite length_contents; [cbn [di_size i_disk]; lia|intros; by eapply fview_512|cbn [di_size i_disk]; lia]. }
  assert (length e = 16%nat) as Hle by (by apply length_enc_dirent).
  assert (dec_dirent e = mk_dirent inum nm) as Hde by (apply dirent_roundtrip; [cbn; lia|done]).
  pose proof (dir_link_same c e n Hlc Hle name) as Hsame. pose proof (dir_link_other c e n Hlc Hle) as Hother.
  fold f in Hsame, Hother. rewrite Hde in Hsame, Hother. cbn [de_inum de_name] in *. split.
  - pose proof (dir_free_spec c n 0) as [Hfr _]. fold f in Hfr.
    constructor; [lia|rewrite Hco; apply Hsame; [lia|done|done]|rewrite Hco|rewrite Hco; by apply dir_link_once|by apply dir_free_first].
    intros nm' Hne. fold c. apply Hother. by rewrite Hcn.
  - assert (i_size p' = Z.max (i_size p) (Z.of_nat (16 * f) + 16)) as Hsz'.
    { rewrite Hp', Hle. reflexivity. }
    constructor; [done|by rewrite Hp'|by rewrite Hp'| |].
    + rewrite Hsz', Hsz. destruct (Z.max_spec (Z.of_nat (16 * n)) (Z.of_nat (16 * f) + 16)) as [[_ ->]|[_ ->]].
      * replace (Z.of_nat (16 * f) + 16) with (Z.of_nat (S f) * 16) by lia. apply Z.mod_mul. lia.
      * replace (Z.of_nat (16 * n)) with (Z.of_nat n * 16) by lia. apply Z.mod_mul. lia.
    + rewrite Hco. unfold splice. apply Forall_app_2; [by apply Forall_take|].
      apply Forall_app_2; [by apply bytes_enc_dirent|by apply Forall_drop].
Qed.

(** Steps that leave the file system as it is. *)
Lemma file_in_step s s1 i p H :
  fs_step s s1 H (fview s) → icache s1 = icache s → file_in s i p → file_in s1 i p.
Proof.
  intros Hs Hi [Hp Hok Hw Hdi Hty Hin]. pose proof (fst_view _ _ _ _ Hs) as HV. rewrite <- (fst_sb _ _ _ _ Hs) in *.
  constructor; [congruence|by eapply file_ok_ext; [|exact Hok]|by eapply wfile_ext; [|exact Hw]|done..].
Qed.
Lemma file_written_step s s1 s' i p p' off data n H :
  fs_step s s1 H (fview s) → icache s1 = icache s → file_written s1 s' i p p' off data n → file_written s s' i p p' off data n.
Proof.
  intros Hs Hi [H1 H2 H3 H4 H5 H6 H7 H8 H9 H10 H11 H12 H13]. pose proof (fst_view _ _ _ _ Hs) as HV.
  assert (∀ m, disk_inode s1 m = disk_inode s m) as Hd by (intros m; unfold disk_inode; by rewrite (fst_sb _ _ _ _ Hs), HV).
  assert (∀ a, used (fview s1) (fsb s) a = used (fview s) (fsb s) a) as Hu by (intros a; by apply used_ext).
  rewrite (fst_sb _ _ _ _ Hs) in *. rewrite (ftab_ext (fview s1) (fview s)) in H10, H13 by done.
  rewrite (contents_ext (fview s1) (fview s)) in H3 by done. rewrite (nfree_ext _ (fview s)) in H12 by done.
  constructor; try done; [congruence|by rewrite <- Hd|by intros m ??; rewrite <- Hd; apply H9| | |].
  - intros a Ha Hua Hna. rewrite <- HV. apply H10; [done|by rewrite Hu|done].
  - intros a Ha Hua. apply H11; [done|by rewrite Hu].
  - intros a Ha. rewrite <- Hu. by apply H13.
Qed.

Lemma wp_dirlink E i p name inum H L R (Q : Z → fss D X → Prop) s :
  fs_inv s H L R → meta_used s → file_in s i p → dir_ok (fview s) p → bytes name → readable DIRSIZ name →
  0 < inum < 65536 → (length R < NINODE)%nat → i_size p + 16 ≤ 71680 →
  room s L 7 → (S (length H) + length L + 6 < NBUF)%nat → (2 ≤ nfree (fview s) (fsb s))%nat →
  (∀ r, dir_lookup name (contents (fview s) (i_disk p)) = Some r → ∀ s', fs_inv s' H L R → fs_step s s' H (fview s) → Q (-1) s') →
  (dir_lookup name (contents (fview s) (i_disk p)) = None → ∀ p' s' L' off data, fs_inv s' H L' R → (length L' ≤ length L + 7)%nat →
     fs_step s s' H (fview s') → file_in s' i p' → dir_ok (fview s') p' → file_written s s' i p p' off data 2 →
     dir_linked s s' p p' name inum off → length data = 16%nat → Q 0 s') →
  wp E (dirlink devtab i name inum) Q s.
Proof.
  intros Hinv Hm Hf Hd Hb Hr Hin HR Hhi Hroom Hbuf Hnf HQ1 HQ2. pose proof (fin_slot _ _ _ Hf) as Hp.
  unfold dirlink. apply wp_bind. eapply (wp_dirlookup devtab); [done..|lia|done| |].
  2: { intros m off Hl j s1 Hinv1 Hs1 Hres. apply wp_bind.
       destruct (lookup_lt_is_Some_2 (icache s1) j) as [q Hq].
       { rewrite (ic_len _ _ (fi_icache _ _ _ _ Hinv1)). apply (ic_held _ _ (fi_icache _ _ _ _ Hinv1)). set_solver. }
       eapply wp_iput_keep; [exact Hinv1|unfold NINODE in *; lia|exact Hq|eapply iget_result_keeps; [exact Hinv|exact Hres|exact Hq]|].
       intros s2 Hinv2 Hs2 _. apply wp_ret. eapply HQ1; [exact Hl|done|].
       eapply fs_step_trans; [exact Hs1|]. eapply fs_step_ext; [exact Hs2|]. apply Hs1. }
  intros Hno s1 Hinv1 Hs1 Hi1. pose proof (fst_view _ _ _ _ Hs1) as HV1.
  apply wp_bind. eapply wp_getopt; [by rewrite Hi1|]. apply wp_bind.
  pose proof Hd as [(_ & Hs & _) _ _ Hmod _]. pose proof (Z_div_mod_eq_full (i_size p) 16).
  assert (0 ≤ i_size p / 16) as Hdiv by (apply Z.div_pos; lia). set (n := Z.to_nat (i_size p / 16)).
  eapply (wp_dirlink_loop E _ i p n 0); [done|congruence|by eapply dir_ok_ext; [|exact Hd]|lia|lia|lia|].
  rewrite (contents_ext (fview s1) (fview s)) by done. intros s2 Hinv2 Hs2 Hi2.
  assert (fs_step s s2 H (fview s)) as Hs02.
  { eapply fs_step_trans; [exact Hs1|]. eapply fs_step_ext; [exact Hs2|done]. }
  assert (icache s2 = icache s) as Hi02 by congruence. set (c := contents (fview s) (i_disk p)) in *.
  pose proof (dir_free_spec c n 0) as [Hfr _]. set (f := dir_free c n 0) in *.
  destruct (strncpy_some name DIRSIZ Hr) as [nm Hnm]. pose proof (strncpy_name _ _ _ Hnm) as (Hln & Hcn & Hel).
  assert (bytes nm) as Hbn.
  { apply Forall_forall. intros x [->|Hx]%Hel; [lia|]. unfold bytes in Hb. rewrite Forall_forall in Hb. by apply Hb. }
  rewrite Hnm. apply wp_bind, wp_ret, wp_bind. rewrite u16_small by lia.
  pose proof (length_enc_dirent inum nm Hln) as Hle. set (e := enc_dirent (mk_dirent inum nm)) in *.
  assert (span (Z.of_nat (16 * f)) 16 = 1%nat) as Hk.
  { unfold span. assert (Z.of_nat (16 * f) mod 512 = 16 * (Z.of_nat f mod 32)) as ->
      by (rewrite Nat2Z.inj_mul, <- Z.mul_mod_distr_l by lia; done).
    pose proof (Z.mod_pos_bound (Z.of_nat f) 32). assert ((16 + 16 * (Z.of_nat f mod 32) + 511) / 512 = 1) as ->; [|done].
    symmetry. apply (Z.div_unique _ _ _ (16 * (Z.of_nat f mod 32) + 15)); lia. }
  eapply (wp_writei_file devtab E i p e (Z.of_nat (16 * f)) 16 H L R); rewrite ?Hk, ?Hle;
    [exact Hinv2|by eapply meta_used_step|by eapply file_in_step|lia|lia|lia|by eapply room_step|lia| |].
  { rewrite (fst_sb _ _ _ _ Hs02), (nfree_ext _ (fview s)) by apply Hs02. lia. }
  rewrite take_ge by (change (Z.to_nat 16) with 16%nat; lia). intros p' s' L' Hinv' HL' Hs' Hf' Hfw.
  pose proof (file_written_step _ _ _ _ _ _ _ _ _ _ Hs02 Hi02 Hfw) as Hfw'.
  destruct (dir_linked_written s s' i p p' name nm inum n (2 * 1) H L L' R) as [Hdl Hd']; try done; [lia|].
  apply wp_ret. eapply HQ2; [done|exact Hinv'|lia|by eapply fs_step_trans|done|done|exact Hfw'|done|done].
Qed.
End dirlink.
