(* ===== verification/FsPaths.v ===== *)
(** * fs.c: path elements

    [skipelem] against a reference definition: the components of a path are
    the non-empty runs of bytes between slashes. *)

From S2P Require Import Prelude CString Layout Fs.

(** Components of a path without its NUL; [cur] is the run being read. *)
Fixpoint comps (cur l : list Z) : list (list Z) :=
  match l with
  | [] => if bool_decide (cur = []) then [] else [cur]
  | x :: t =>
      if x =? SLASH then (if bool_decide (cur = []) then [] else [cur]) ++ comps [] t
      else comps (cur ++ [x]) t
  end.
Definition components (l : list Z) : list (list Z) := comps [] l.

Lemma skip_slashes_spec l tl :
  0 ∉ l → ∃ l', skip_slashes (l ++ 0 :: tl) = Some (l' ++ 0 :: tl) ∧ l' `suffix_of` l ∧
    head l' ≠ Some SLASH ∧ components l' = components l.
Proof.
  induction l as [|x l IH]; intros H0.
  - exists []. done.
  - cbn [app skip_slashes]. destruct (Z.eqb_spec x SLASH) as [->|Hx].
    + destruct IH as (l' & Hs & Hsuf & Hh & Hc); [set_solver|]. exists l'. split_and!; try done.
      by apply suffix_cons_r.
    + exists (x :: l). split_and!; try done. cbn. congruence.
Qed.

Lemma take_elem_spec l tl :
  0 ∉ l → ∃ e l', take_elem (l ++ 0 :: tl) = Some (e, l' ++ 0 :: tl) ∧ l = e ++ l' ∧
    (SLASH ∉ e) ∧ (l' = [] ∨ head l' = Some SLASH).
Proof.
  induction l as [|x l IH]; intros H0.
  - exists [], []. cbn. split_and!; try done; [set_solver|by left].
  - cbn [app take_elem]. destruct (Z.eqb_spec x SLASH) as [->|Hx]; cbn [negb andb].
    + exists [], (SLASH :: l). split_and!; try done; [set_solver|by right].
    + rewrite (proj2 (Z.eqb_neq x 0)) by set_solver. cbn [negb].
      destruct IH as (e & l' & Ht & -> & Hs & Hl); [set_solver|]. rewrite Ht. cbn.
      exists (x :: e), l'. split_and!; try done. set_solver.
Qed.

Lemma comps_elem cur e l :
  SLASH ∉ e → l = [] ∨ head l = Some SLASH →
  comps cur (e ++ l) = (if bool_decide (cur ++ e = []) then [] else [cur ++ e]) ++ components l.
Proof.
  revert cur. induction e as [|x e IH]; intros cur He Hl.
  - rewrite app_nil_r. cbn [app]. destruct Hl as [->|Hl].
    + cbn. by rewrite app_nil_r.
    + destruct l as [|y l]; [done|]. cbn in Hl. injection Hl as ->. cbn [comps components]. done.
  - cbn [app comps]. rewrite (proj2 (Z.eqb_neq x SLASH)) by set_solver.
    rewrite IH by (done || set_solver). by rewrite <- app_assoc.
Qed.

Lemma cname_take n l : 0 ∉ l → cname n l = take n l.
Proof.
  revert l. induction n as [|n IH]; intros [|x l] H0; try done. cbn [cname take].
  rewrite (proj2 (Z.eqb_neq x 0)) by set_solver. rewrite IH by set_solver. done.
Qed.
Lemma cname_stop n l r : 0 ∉ l → (length l < n)%nat → cname n (l ++ 0 :: r) = l.
Proof.
  revert l. induction n as [|n IH]; intros [|x l] H0 Hn; cbn [length] in *; try lia; [done|].
  cbn [app cname]. rewrite (proj2 (Z.eqb_neq x 0)) by set_solver. rewrite IH by (set_solver || lia). done.
Qed.

(** The name [skipelem] leaves: the element, cut at [DIRSIZ] bytes. *)
Lemma skipelem_name e name :
  0 ∉ e → length name = DIRSIZ →
  let name' := if bool_decide (DIRSIZ ≤ length e)%nat then splice 0 (take DIRSIZ e) name
               else splice 0 (e ++ [0]) name in
  length name' = DIRSIZ ∧ cname DIRSIZ name' = take DIRSIZ e.
Proof.
  intros He Hn name'. unfold name'. case_bool_decide as Hd; unfold splice; rewrite take_0; cbn [app].
  - rewrite length_take, Nat.min_l, Nat.add_0_l, drop_ge, app_nil_r by lia.
    split; [rewrite length_take; lia|]. rewrite cname_take, take_take, Nat.min_id; [done|].
    intros Hin. apply He. apply elem_of_take in Hin as (? & ?%list_elem_of_lookup_2 & _). done.
  - rewrite length_app, Nat.add_0_l. cbn [length].
    split; [rewrite !length_app, length_drop; cbn [length]; lia|].
    rewrite <- app_assoc. cbn [app]. rewrite cname_stop by (done || lia). by rewrite take_ge by lia.
Qed.

Lemma skipelem_run l tl name :
  0 ∉ l → length name = DIRSIZ →
  match components l with
  | [] => skipelem (l ++ 0 :: tl) name = Some None
  | e :: es => ∃ l' name',
      skipelem (l ++ 0 :: tl) name = Some (Some (l' ++ 0 :: tl, name')) ∧
      (0 ∉ l') ∧ (length l' < length l)%nat ∧ components l' = es ∧ (l' = [] ↔ es = []) ∧
      length name' = DIRSIZ ∧ cname DIRSIZ name' = take DIRSIZ e
  end.
Proof.
  intros H0 Hn. destruct (skip_slashes_spec l tl H0) as (l1 & Hs1 & Hsuf1 & Hh1 & Hc1).
  assert (0 ∉ l1) as H01 by (destruct Hsuf1 as [k ->]; set_solver).
  assert (length l1 ≤ length l)%nat as Hlen1 by (by apply suffix_length).
  unfold skipelem. rewrite Hs1. cbn [mbind option_bind].
  destruct (take_elem_spec l1 tl H01) as (e & l2 & Ht & Heq & Hse & Hl2).
  destruct l1 as [|x l1'].
  - rewrite <- Hc1. done.
  - cbn [app]. rewrite (proj2 (Z.eqb_neq x 0)) by set_solver. change (x :: l1' ++ 0 :: tl) with ((x :: l1') ++ 0 :: tl).
    rewrite Ht. cbn [mbind option_bind fst snd].
    assert (e ≠ []) as He.
    { intros ->. cbn in Heq. subst l2. destruct Hl2 as [?|Hl2]; [done|]. cbn in Hl2, Hh1. done. }
    assert ((0 ∉ e) ∧ (0 ∉ l2)) as [He0 Hl20] by (rewrite Heq in H01; set_solver).
    destruct (skip_slashes_spec l2 tl Hl20) as (l3 & Hs3 & Hsuf3 & Hh3 & Hc3). rewrite Hs3. cbn [mbind option_bind].
    assert (components l = e :: components l3) as ->.
    { rewrite <- Hc1, Heq. unfold components at 1. rewrite (comps_elem [] e l2) by done. cbn [app].
      rewrite bool_decide_eq_false_2 by done. by rewrite <- Hc3. }
    destruct (skipelem_name e name He0 Hn) as [Hnl Hnc].
    exists l3, (if bool_decide (DIRSIZ ≤ length e)%nat then splice 0 (take DIRSIZ e) name else splice 0 (e ++ [0]) name).
    split_and!; try done.
    + destruct Hsuf3 as [k Hk]. rewrite Hk in Hl20. set_solver.
    + apply suffix_length in Hsuf3. apply (f_equal length) in Heq. rewrite length_app in Heq.
      destruct e; [done|]. cbn [length] in *. lia.
    + split; [by intros ->|]. intros Hnil. destruct l3 as [|y l3]; [done|exfalso].
      destruct (take_elem_spec (y :: l3) []) as (e' & l4 & _ & Heq' & Hse' & Hl4).
      { destruct Hsuf3 as [k Hk]. rewrite Hk in Hl20. set_solver. }
      destruct e' as [|z e']; [cbn in Heq'; subst l4; destruct Hl4 as [?|Hl4]; [done|]; by cbn in Hl4, Hh3|].
      unfold components in Hnil. rewrite Heq', comps_elem in Hnil by done. done.
Qed.
