(* ===== verification/FsNames.v ===== *)
(** * fs.c: path names

    [namex] against a reference walk over the directory tree that the disk
    holds. *)

From S2P Require Import Prelude Spinlock CString Ide Bio BioFacts Layout Log LogDisk LogFacts LogSpecs Fs FsFacts FsInodes FsFiles FsDirs FsPaths.

Section spec.
Context (V : disk) (sb : superblock).

Definition inode_at (n : Z) : dinode := dec_dinode (dip_off n) (V (IBLOCK n sb)).

(** An allocated inode with a link. *)
Definition linked (n : Z) : Prop :=
  0 ≤ n < sb_ninodes sb ∧ di_type (inode_at n) ≠ 0 ∧ 1 ≤ di_nlink (inode_at n).

(** Every directory is whole and names linked inodes only. *)
Definition tree_ok : Prop := ∀ n, linked n → di_type (inode_at n) = T_DIR →
  let d := inode_at n in
  0 ≤ di_size d ≤ 71680 ∧ mapped V (di_addrs d) (nblocks_of (di_size d)) ∧ di_size d mod 16 = 0 ∧
  bytes (contents V d) ∧
  ∀ name m off, dir_lookup name (contents V d) = Some (m, off) → linked m.

(** The reference walk: the inode a path leads to from [n], or the directory
    that holds its last component when [parent] is set. *)
Fixpoint resolve (parent : bool) (es : list (list Z)) (n : Z) : option Z :=
  match es with
  | [] => if parent then None else Some n
  | e :: es =>
      if di_type (inode_at n) =? T_DIR then
        if parent && bool_decide (es = []) then Some n
        else m ← dir_lookup (take DIRSIZ e) (contents V (inode_at n)); resolve parent es m.1
      else None
  end.

(** A valid cached inode agrees with the disk and is in use. *)
Definition in_sync (p : inode) : Prop :=
  i_disk p = inode_at (i_inum p) ∧ i_dev p = ROOTDEV ∧ 0 ≤ i_inum p < sb_ninodes sb ∧ i_type p ≠ 0.
Definition icsync (ic : list inode) : Prop := ∀ i p, ic !! i = Some p → 0 < i_ref p → i_valid p ≠ 0 →
  in_sync p.

Lemma icsync_insert ic i p' :
  icsync ic → (0 < i_ref p' → i_valid p' ≠ 0 → in_sync p') → icsync (<[i:=p']> ic).
Proof.
  intros Hs Hp j p Hj. destruct (decide (j = i)) as [->|Hne].
  - apply list_lookup_insert_Some in Hj as [(_ & <- & _)|[? _]]; [done|done].
  - rewrite list_lookup_insert_ne in Hj by done. by apply Hs with j.
Qed.
Lemma icsync_iget ic i dv n ic' : icsync ic → iget_result dv n ic i ic' → icsync ic'.
Proof.
  intros Hs [(p & Hp & (H0 & _) & ->)|(_ & p & Hp & _ & ->)]; apply icsync_insert; try done.
  intros _ Hv. by apply (Hs i p).
Qed.
End spec.

Lemma cname_idem n x : cname n (cname n x) = cname n x.
Proof.
  revert x. induction n as [|n IH]; intros [|a x]; cbn [cname]; try done.
  destruct (Z.eqb_spec a 0) as [|Ha]; [done|]. rewrite (proj2 (Z.eqb_neq a 0)) by done. by rewrite IH.
Qed.
Lemma dir_find_cname a b c n k : cname DIRSIZ a = cname DIRSIZ b → dir_find a c n k = dir_find b c n k.
Proof.
  intros He. revert k. induction n as [|n IH]; intros k; [done|]. cbn [dir_find]. unfold entry_is. by rewrite He, IH.
Qed.

Lemma dir_find_entry name c n k m off :
  dir_find name c n k = Some (m, off) → ∃ j, (k ≤ j < k + n)%nat ∧ de_inum (dirent_at c j) = m ∧ m ≠ 0.
Proof.
  revert k. induction n as [|n IH]; intros k; cbn [dir_find]; [done|].
  destruct (entry_is name (dirent_at c k)) eqn:He.
  - intros [= <- <-]. exists k. split_and!; [lia|lia|done|].
    apply andb_true_iff in He as [He _]. by apply negb_true_iff, Z.eqb_neq in He.
  - intros (j & ? & ?)%IH. exists j. split; [lia|done].
Qed.
Lemma skip_slashes_bytes l r : bytes l → skip_slashes l = Some r → bytes r.
Proof.
  induction 1 as [|x l Hx Hl IH]; cbn [skip_slashes]; [done|]. destruct (x =? SLASH); [done|].
  intros [= <-]. by constructor.
Qed.
Lemma take_elem_bytes l e r : bytes l → take_elem l = Some (e, r) → bytes e ∧ bytes r.
Proof.
  intros Hl. revert e r. induction Hl as [|x l Hx Hl IH]; intros e r; cbn [take_elem]; [done|].
  destruct (_ && _).
  - destruct (take_elem l) as [[e' r']|]; cbn; [|done]. intros [= <- <-]. destruct (IH e' r'); [done|].
    split; [by constructor|done].
  - intros [= <- <-]. split; [constructor|by constructor].
Qed.
Lemma bytes_splice o a l : bytes a → bytes l → bytes (splice o a l).
Proof.
  intros Ha Hl. unfold splice. apply Forall_app. split; [by apply Forall_take|].
  apply Forall_app. split; [done|by apply Forall_drop].
Qed.
Lemma skipelem_bytes path name path' name' :
  bytes path → bytes name → skipelem path name = Some (Some (path', name')) → bytes path' ∧ bytes name'.
Proof.
  intros Hp Hn. unfold skipelem. destruct (skip_slashes path) as [p1|] eqn:H1; cbn [mbind option_bind]; [|done].
  apply skip_slashes_bytes in H1; [|done]. destruct p1 as [|x p1]; [done|].
  destruct (x =? 0); [done|]. destruct (take_elem (x :: p1)) as [[e p2]|] eqn:H2; cbn [mbind option_bind fst snd]; [|done].
  apply take_elem_bytes in H2 as [He Hp2]; [|done].
  destruct (skip_slashes p2) as [p3|] eqn:H3; cbn [mbind option_bind]; [|done]. apply skip_slashes_bytes in H3; [|done].
  intros [= <- <-]. split; [done|]. case_bool_decide; apply bytes_splice; try done.
  - by apply Forall_take.
  - apply Forall_app. split; [done|]. repeat constructor; lia.
Qed.

Section names.
Context {D X : Type} {dev : IdeDevice D} {dok : IdeDeviceOk D}.
Context (devtab : list (@devsw D X)).
Implicit Types s : fss D X.
Context (V : disk) (sb : superblock).

(** The state while a path is resolved: the disk reads as [V], and valid
    cached inodes agree with it. *)
Record reading s (H : list nat) (L : list Z) (R : list nat) : Prop := {
  rd_inv : fs_inv s H L R;
  rd_sb : fsb s = sb;
  rd_view k : fview s k = V k;
  rd_sync : icsync V sb (icache s);
}.

Lemma reading_step s s' H L R R' :
  reading s H L R → fs_inv s' H L R' → fs_step s s' H (fview s) → icsync V sb (icache s') → reading s' H L R'.
Proof.
  intros [Hinv Hsb HV Hsy] Hinv' Hs' Hsy'. constructor; [done| | |done].
  - rewrite (fst_sb _ _ _ _ Hs'). done.
  - intros k. by rewrite (fst_view _ _ _ _ Hs').
Qed.

Lemma refs_perm R R' j : R ≡ₚ R' → refs R j = refs R' j.
Proof. intros HP. unfold refs. by rewrite (proj1 (Permutation_count_occ Nat.eq_dec R R') HP). Qed.
Lemma reading_perm s H L R R' : R ≡ₚ R' → reading s H L R → reading s H L R'.
Proof.
  intros HP [[Hlog Hg [Hl Ha Hr Hh Hu]] Hsb HV Hsy]. constructor; [|done..]. constructor; [done..|]. constructor; try done.
  - intros j p Hp. rewrite <- (refs_perm R R') by done. by apply Hr.
  - intros j Hj. apply Hh. by rewrite HP.
Qed.

(** Slot [i] refers to inode [n]. *)
Definition slot_of s (i : nat) (n : Z) : Prop := ∃ p, icache s !! i = Some p ∧ i_dev p = ROOTDEV ∧ i_inum p = n.

Lemma slot_iget s s' i n : iget_result ROOTDEV n (icache s) i (icache s') → slot_of s' i n.
Proof.
  intros [(p & Hp & (_ & Hd & Hn) & Hi')|(_ & p & Hp & _ & Hi')]; eexists;
    rewrite Hi', list_lookup_insert_eq by (by eapply lookup_lt_Some); split; done.
Qed.

(** [iget] leaves a slot with references where it is. *)
Lemma slot_iget_kept s s' H L R i j n m :
  fs_inv s H L R → i ∈ R → iget_result ROOTDEV m (icache s) j (icache s') → slot_of s i n → slot_of s' i n.
Proof.
  intros Hinv HiR Hres (p & Hp & Hd & Hn).
  destruct Hres as [(p2 & Hp2 & _ & Hi2)|(Hno & p2 & Hp2 & Hr2 & Hi2)]; unfold slot_of; rewrite Hi2;
    (destruct (decide (i = j)) as [->|Hne]; [|exists p; by rewrite list_lookup_insert_ne]).
  - simplify_eq. eexists. rewrite list_lookup_insert_eq by (by eapply lookup_lt_Some). done.
  - exfalso. simplify_eq. erewrite (ic_ref _ _ (fi_icache _ _ _ _ Hinv) j) in Hr2 by done. unfold refs in Hr2.
    apply list_elem_of_In, (count_occ_In Nat.eq_dec) in HiR. lia.
Qed.

Lemma wp_iread_linked E i n H L R (Q : unit → fss D X → Prop) s :
  reading s H L (i :: R) → slot_of s i n → linked V sb n → (length H + length L < NBUF)%nat →
  (∀ s' p, reading s' H L (i :: R) → fs_step s s' H (fview s) → icache s' !! i = Some p → i_dev p = ROOTDEV →
     i_inum p = n → i_valid p ≠ 0 → i_disk p = inode_at V sb n → Q tt s') →
  wp E (iread (Some i)) Q s.
Proof.
  intros Hrd (p & Hp & Hd & Hn) (Hr & Ht & Hnl) Hfree HQ. pose proof Hrd as [Hinv Hsb HV Hsy].
  assert (0 < i_ref p) as Href.
  { rewrite (ic_ref _ _ (fi_icache _ _ _ _ Hinv) i p Hp), refs_cons, decide_True by done.
    pose proof (refs_bound R i). lia. }
  assert (disk_inode s (i_inum p) = inode_at V sb n) as Hdi.
  { unfold disk_inode, inode_at. by rewrite Hsb, HV, Hn. }
  eapply wp_iread; [done|done|set_solver|done|by rewrite Hn, Hsb|done| | |].
  - intros Hv. apply (HQ s p); [done|apply fs_step_refl|done..|]. rewrite <- Hn. by apply (Hsy i p).
  - intros _ _ s' Hinv' Hs' Hi'. assert (i_disk (iread_inode s p) = inode_at V sb n) as Hdi'.
    { rewrite <- Hdi. reflexivity. }
    apply (HQ s' (iread_inode s p)); try done.
    + eapply reading_step; [done..|]. rewrite Hi'. apply icsync_insert; [done|]. intros _ _. split_and!; [by rewrite Hdi', <- Hn|done|rewrite <- Hn in Hr; apply Hr..|].
      change (di_type (i_disk (iread_inode s p)) ≠ 0). by rewrite Hdi'.
    + rewrite Hi'. apply list_lookup_insert_eq. by eapply lookup_lt_Some.
  - intros _ Ht0. by rewrite Hdi in Ht0.
Qed.

Lemma wp_iput_linked E i p H L R (Q : unit → fss D X → Prop) s :
  reading s H L (i :: R) → icache s !! i = Some p → (length R < NINODE)%nat →
  i_valid p = 0 ∨ i_nlink p ≠ 0 →
  (∀ s', reading s' H L R → fs_step s s' H (fview s) → (∀ j n, j ∈ R → slot_of s j n → slot_of s' j n) → Q tt s') →
  wp E (iput i) Q s.
Proof.
  intros Hrd Hp HR Hkeep HQ. pose proof Hrd as [Hinv Hsb HV Hsy]. eapply wp_iput_keep; [done|unfold NINODE in *; lia|done|tauto|].
  intros s' Hinv' Hs' Hi'. apply HQ; [|done|].
  - eapply reading_step; [done..|]. rewrite Hi'. apply icsync_insert; [done|]. intros Hr Hv. cbn in Hr, Hv.
    apply (Hsy i p); [done|lia|done].
  - intros j n _ (q & Hq & Hd & Hn). destruct (decide (j = i)) as [->|Hne].
    + simplify_eq. exists (set_i_ref (i_ref p - 1) p). rewrite Hi', list_lookup_insert_eq by (by eapply lookup_lt_Some). done.
    + exists q. by rewrite Hi', list_lookup_insert_ne.
Qed.

(** Giving back a reference to a linked inode frees nothing. *)
Lemma linked_kept s H L R i p n :
  reading s H L (i :: R) → icache s !! i = Some p → i_inum p = n → linked V sb n → i_valid p = 0 ∨ i_nlink p ≠ 0.
Proof.
  intros [Hinv _ _ Hsy] Hp Hn (_ & _ & Hl1). destruct (decide (i_valid p = 0)) as [|Hv]; [by left|right].
  assert (i_disk p = inode_at V sb n) as Hd.
  { rewrite <- Hn. apply (Hsy i p); [done| |done].
    rewrite (ic_ref _ _ (fi_icache _ _ _ _ Hinv) i p Hp), refs_cons, decide_True by done.
    pose proof (refs_bound R i). lia. }
  apply (f_equal di_nlink) in Hd. change (di_nlink (i_disk p)) with (i_nlink p) in Hd. lia.
Qed.

(** A directory that the walk has read. *)
Lemma linked_dir s H L R p n :
  tree_ok V sb → reading s H L R → linked V sb n → i_dev p = ROOTDEV → i_disk p = inode_at V sb n → i_type p = T_DIR →
  dir_ok (fview s) p ∧ contents (fview s) (i_disk p) = contents V (inode_at V sb n).
Proof.
  intros Htree [Hinv Hsb HV Hsy] Hlk Hdev Hd Hty.
  assert (di_type (inode_at V sb n) = T_DIR) as Hty' by (by rewrite <- Hd).
  destruct (Htree n Hlk Hty') as (Hsz & Hmap & Hmod & Hb & _). rewrite <- Hd in *. cbn in Hsz, Hmap, Hmod.
  assert (contents (fview s) (i_disk p) = contents V (i_disk p)) as Hc by (by apply contents_ext). split; [|done].
  constructor; [|done| |done|by rewrite Hc].
  - split_and!; [done|lia|lia|]. by apply (mapped_ext V).
  - destruct Hlk as (_ & _ & Hl1). rewrite <- Hd in Hl1. done.
Qed.

(** What [namex] leaves in its [name] buffer. *)
Definition last_name (es : list (list Z)) (name : list Z) : Prop :=
  length name = DIRSIZ ∧ bytes name ∧ cname DIRSIZ name = take DIRSIZ (default [] (last es)).

Lemma wp_namex_loop E fuel i n l tl parent name H L R (Q : option nat * list Z → fss D X → Prop) s :
  tree_ok V sb → reading s H L (i :: R) → slot_of s i n → linked V sb n →
  (length H + length L < NBUF)%nat → (S (length R) < NINODE)%nat →
  0 ∉ l → bytes (l ++ 0 :: tl) → bytes name → length name = DIRSIZ → (length l < fuel)%nat →
  (∀ m, resolve V sb parent (components l) n = Some m → ∀ j name' s', reading s' H L (j :: R) →
     fs_step s s' H (fview s) → slot_of s' j m → linked V sb m →
     (parent = true → last_name (components l) name') → Q (Some j, name') s') →
  (resolve V sb parent (components l) n = None → ∀ name' s', reading s' H L R → fs_step s s' H (fview s) →
     Q (None, name') s') →
  wp E (namex_loop devtab fuel i (l ++ 0 :: tl) parent name) Q s.
Proof.
  intros Htree. revert i n l name s. induction fuel as [|fuel IH];
    intros i n l name s Hrd Hslot Hlk Hfree HR H0 Hbl Hbn Hln Hf HQ1 HQ2; [lia|]. cbn [namex_loop].
  pose proof (skipelem_run l tl name H0 Hln) as Hsk. destruct (components l) as [|e es] eqn:Hes.
  - rewrite Hsk. apply wp_bind. eapply wp_getopt; [done|]. cbn [resolve] in *. destruct parent.
    + pose proof Hslot as (p & Hp & _ & Hn). apply wp_bind.
      eapply wp_iput_linked; [done|done|lia|by eapply (linked_kept _ _ _ _ _ _ n)|].
      intros s' Hrd' Hs' _. apply wp_ret. by apply HQ2.
    + apply wp_ret. apply (HQ1 n); [done|done|apply fs_step_refl|done|done|done].
  - destruct Hsk as (l' & name' & Hsk & H0' & Hlt & Hes' & Hnil & Hln' & Hcn).
    assert (bytes (l' ++ 0 :: tl) ∧ bytes name') as [Hbl' Hbn'] by (by apply (skipelem_bytes (l ++ 0 :: tl) name)).
    rewrite Hsk. apply wp_bind. eapply wp_getopt; [done|].
    apply wp_bind. eapply wp_iread_linked; [done..|]. intros s1 p Hrd1 Hs1 Hp Hdev Hn Hv Hd.
    apply wp_bind. eapply wp_getopt; [done|].
    assert (i_type p = di_type (inode_at V sb n)) as Hty by (by rewrite <- Hd).
    cbn [resolve] in *. rewrite <- Hty in *. destruct (Z.eqb_spec (i_type p) T_DIR) as [HD|HD]; cbn [negb].
    2: { apply wp_bind. eapply wp_iput_linked; [done|done|lia|by eapply (linked_kept _ _ _ _ _ _ n)|].
         intros s2 Hrd2 Hs2 _. apply wp_ret. apply HQ2; [done|done|]. eapply fs_step_trans; [done|].
         eapply fs_step_ext; [done|]. apply Hs1. }
    assert (bool_decide (head (l' ++ 0 :: tl) = Some 0) = bool_decide (es = [])) as ->.
    { apply bool_decide_ext. rewrite <- Hnil. destruct l' as [|x l']; [done|]. cbn. split; [|done].
      intros [= ->]. set_solver. }
    destruct (parent && bool_decide (es = [])) eqn:Hpar.
    { apply andb_true_iff in Hpar as [-> ->%bool_decide_eq_true_1].
      apply wp_ret, (HQ1 n); [done|done|done| |done|]; [exists p; done|]. intros _. done. }
    destruct (linked_dir s1 H L (i :: R) p n) as [Hdir Hcont]; [done..|].
    assert (dir_lookup name' (contents V (inode_at V sb n)) = dir_lookup (take DIRSIZ e) (contents V (inode_at V sb n))) as Hlook.
    { apply dir_find_cname. by rewrite <- Hcn, cname_idem. }
    apply wp_bind. eapply wp_dirlookup; [apply Hrd1|done|done|done|left; lia|done|cbn; lia| |].
    + rewrite Hcont, Hlook. intros Hnone s2 Hinv2 Hs2 Hi2. rewrite Hnone in HQ2.
      assert (reading s2 H L (i :: R)) as Hrd2.
      { eapply reading_step; [exact Hrd1|done..|]. rewrite Hi2. apply Hrd1. }
      apply wp_bind. eapply wp_iput_linked; [done|by rewrite Hi2|lia|by eapply (linked_kept s1 _ _ _ _ _ n)|].
      intros s3 Hrd3 Hs3 _. apply wp_ret, HQ2; [done|done|].
      eapply fs_step_trans; [done|]. eapply fs_step_trans; [done|]. eapply fs_step_ext; [done|].
      intros k. rewrite (fst_view _ _ _ _ Hs2). apply Hs1.
    + rewrite Hcont, Hlook. intros m off Hsome j s2 Hinv2 Hs2 Hres. rewrite Hsome in HQ1, HQ2.
      cbn [mbind option_bind fst] in HQ1, HQ2.
      assert (linked V sb m) as Hlm.
      { destruct (Htree n Hlk) as (_ & _ & _ & _ & Hent); [by rewrite <- Hty|]. by eapply Hent. }
      assert (reading s2 H L (j :: i :: R)) as Hrd2.
      { eapply reading_step; [exact Hrd1|done..|]. eapply icsync_iget; [apply Hrd1|done]. }
      assert (slot_of s2 i n) as (q & Hq & _ & Hqn).
      { eapply (slot_iget_kept s1); [apply Hrd1|by left|done|]. by exists p. }
      assert (reading s2 H L (i :: j :: R)) as Hrd2' by (eapply reading_perm; [apply perm_swap|done]).
      apply wp_bind. eapply wp_iput_linked; [done|done|cbn; lia|by eapply (linked_kept _ _ _ _ _ _ n)|].
      intros s3 Hrd3 Hs3 Hslots.
      assert (fs_step s s3 H (fview s)) as Hs03.
      { eapply fs_step_trans; [done|]. eapply fs_step_trans; [done|]. eapply fs_step_ext; [done|].
        intros k. rewrite (fst_view _ _ _ _ Hs2). apply Hs1. }
      assert (∀ k, fview s3 k = fview s k) as HV3 by apply Hs03.
      apply (IH j m l' name' s3); try done; [|lia| |].
      * apply Hslots; [set_solver|by eapply slot_iget].
      * rewrite Hes'. intros m' Hm' j' nm' s4 Hrd4 Hs4 Hsl4 Hlm4 Hlast. apply (HQ1 m'); try done.
        -- eapply fs_step_trans; [done|]. by eapply fs_step_ext.
        -- intros Hp1. specialize (Hlast Hp1). subst parent. cbn [andb] in Hpar.
           apply bool_decide_eq_false_1 in Hpar. destruct es; [done|]. done.
      * rewrite Hes'. intros Hm' nm' s4 Hrd4 Hs4. apply HQ2; [done|done|].
        eapply fs_step_trans; [done|]. by eapply fs_step_ext.
Qed.

(** [namex] from the root. *)
Lemma wp_namex E l tl parent name H L R (Q : option nat * list Z → fss D X → Prop) s :
  tree_ok V sb → linked V sb ROOTINO → reading s H L R →
  (length H + length L < NBUF)%nat → (S (length R) < NINODE)%nat →
  0 ∉ l → bytes (l ++ 0 :: tl) → bytes name → length name = DIRSIZ →
  (∀ m, resolve V sb parent (components l) ROOTINO = Some m → ∀ j name' s', reading s' H L (j :: R) →
     fs_step s s' H (fview s) → slot_of s' j m → linked V sb m →
     (parent = true → last_name (components l) name') → Q (Some j, name') s') →
  (resolve V sb parent (components l) ROOTINO = None → ∀ name' s', reading s' H L R → fs_step s s' H (fview s) →
     Q (None, name') s') →
  wp E (namex devtab (l ++ 0 :: tl) parent name) Q s.
Proof.
  intros Htree Hroot Hrd Hfree HR H0 Hbl Hbn Hln HQ1 HQ2. unfold namex. apply wp_bind.
  eapply wp_iget; [apply Hrd|unfold NINODE in *; lia| |].
  - intros i s1 Hinv1 Hs1 Hres.
    assert (∀ s', fs_step s1 s' H (fview s1) → fs_step s s' H (fview s)) as Hst.
    { intros s' Hs'. eapply fs_step_trans; [exact Hs1|]. eapply fs_step_ext; [exact Hs'|]. apply Hs1. }
    eapply wp_namex_loop; [done| | |done|done|done|done|done|done|done| | |].
    + eapply reading_step; [done..|]. eapply icsync_iget; [apply Hrd|done].
    + by eapply slot_iget.
    + rewrite length_app. cbn. lia.
    + intros m Hm j name' s' Hrd' Hs' Hsl Hlk Hlast. eapply HQ1; try done. by apply Hst.
    + intros Hm name' s' Hrd' Hs'. apply HQ2; try done. by apply Hst.
  - intros Hall. destruct (icache_free (icache s) R) as (j & q & Hq & Hq0); [apply Hrd|lia|].
    destruct (Hall j q Hq). lia.
Qed.
End names.
