(* ===== verification/FsTree.v ===== *)
(** * fs.c: the file system as a whole

    The tree of inodes on the disk: every inode in use owns its blocks, no two
    share one, and directories name inodes with links. Operations that change
    one inode keep it, and paths that led somewhere still do. *)

From S2P Require Import Prelude Spinlock CString Ide Bio BioFacts Layout Log LogDisk LogFacts LogSpecs Fs FsFacts FsInodes FsFiles FsTable FsWrite FsWritei FsDirs FsLink FsPaths FsNames.

(** ** A file whose blocks did not change *)
Section kept.
Context (V V' : disk) (sb : superblock) (addrs : list Z).
Hypothesis Hk : ∀ a, a ∈ nz (ftab V addrs) → V' a = V a ∧ used V' sb a = true.

Lemma kept_baddr j : baddr V' addrs j = baddr V addrs j.
Proof.
  unfold baddr. fold (indirect addrs). destruct (bool_decide _); [done|].
  destruct (Z.eqb_spec (indirect addrs) 0); [done|]. by rewrite (proj1 (Hk _ (owned_ind V addrs ltac:(done)))).
Qed.
Lemma kept_ftab : ftab V' addrs = ftab V addrs.
Proof. unfold ftab. f_equal. apply list_fmap_ext. intros k j _. apply kept_baddr. Qed.
Lemma kept_wfile : wfile V sb addrs → wfile V' sb addrs.
Proof. intros [Hl Hn Hd]. constructor; rewrite ?kept_ftab; [done..|]. intros a Ha. split; [by apply Hd|by apply Hk]. Qed.
Lemma kept_mapped k : mapped V addrs k → mapped V' addrs k.
Proof. intros (? & ? & ? & Hm). do 3 (split; [done|]). intros bn Hbn. rewrite kept_baddr. by apply Hm. Qed.
Lemma kept_contents d : di_addrs d = addrs → mapped V addrs (nblocks_of (di_size d)) → contents V' d = contents V d.
Proof.
  intros Hd (Hb & _ & _ & Hm). unfold contents, file_blocks. rewrite Hd. do 2 f_equal. apply list_fmap_ext. intros k bn Hbn.
  apply lookup_seq in Hbn as [-> Hlt]. cbn. rewrite kept_baddr. apply Hk, owned_bn; [lia|]. by apply Hm.
Qed.
End kept.

Section tree.
Context (sb : superblock).
Implicit Types V : disk.

(** An inode in use, and its blocks. *)
Definition live V (n : Z) : Prop := 0 ≤ n < sb_ninodes sb ∧ di_type (inode_at V sb n) ≠ 0.
Definition owned V (n : Z) : list Z := nz (ftab V (di_addrs (inode_at V sb n))).

(** A file with size and blocks that fit. *)
Record whole V (d : dinode) : Prop := {
  wh_fields : dinode_ok d;
  wh_size : 0 ≤ di_size d ≤ 71680;
  wh_mapped : mapped V (di_addrs d) (nblocks_of (di_size d));
  wh_own : wfile V sb (di_addrs d);
}.
Record tree V : Prop := {
  tr_dirs : tree_ok V sb;
  tr_whole n : live V n → whole V (inode_at V sb n);
  tr_disj n m a : live V n → live V m → a ∈ owned V n → a ∈ owned V m → n = m;
}.

(** Only inode [n] and its blocks may have changed. *)
Record changed V V' (n : Z) : Prop := {
  ch_inode m : 0 ≤ m < sb_ninodes sb → m ≠ n → inode_at V' sb m = inode_at V sb m;
  ch_keep m a : live V m → m ≠ n → a ∈ owned V m → V' a = V a ∧ used V' sb a = true;
}.

Lemma linked_live V n : linked V sb n → live V n.
Proof. intros (? & ? & _). done. Qed.

Section change.
Context V V' (n : Z) (Ht : tree V) (Hc : changed V V' n).

Lemma changed_contents m : live V m → m ≠ n →
  inode_at V' sb m = inode_at V sb m ∧ contents V' (inode_at V sb m) = contents V (inode_at V sb m).
Proof.
  intros Hl Hne. split; [apply Hc; [apply Hl|done]|]. apply (kept_contents _ _ sb (di_addrs (inode_at V sb m))); [|done|].
  - intros a Ha. by eapply ch_keep.
  - apply (wh_mapped _ _ (tr_whole _ Ht m Hl)).
Qed.
Lemma changed_owned m : live V m → m ≠ n → owned V' m = owned V m.
Proof.
  intros Hl Hne. unfold owned. rewrite (ch_inode _ _ _ Hc) by (done || apply Hl). f_equal.
  apply (kept_ftab V V' sb). intros a Ha. by eapply ch_keep.
Qed.
Lemma changed_live m : m ≠ n → live V' m → live V m.
Proof. intros Hne [Hr Hl]. rewrite (ch_inode _ _ _ Hc) in Hl by done. done. Qed.
Lemma changed_linked m : m ≠ n → linked V sb m ↔ linked V' sb m.
Proof.
  intros Hne. unfold linked.
  split; (intros (Hr & ?); split; [done|]); rewrite (ch_inode _ _ _ Hc) in *; done.
Qed.

(** It is enough that [n] keeps a link while other directories name it. *)
Lemma tree_changed_named :
  (live V' n → whole V' (inode_at V' sb n)) →
  (∀ a, live V' n → a ∈ owned V' n → (live V n ∧ a ∈ owned V n) ∨ used V sb a = false) →
  (∀ m name off, linked V sb m → m ≠ n → di_type (inode_at V sb m) = T_DIR →
     dir_lookup name (contents V (inode_at V sb m)) = Some (n, off) → linked V' sb n) →
  (linked V' sb n → di_type (inode_at V' sb n) = T_DIR → di_size (inode_at V' sb n) mod 16 = 0 ∧
    bytes (contents V' (inode_at V' sb n)) ∧
    ∀ name m off, dir_lookup name (contents V' (inode_at V' sb n)) = Some (m, off) → linked V' sb m) →
  tree V'.
Proof.
  intros Hwh Hfresh Hln Hdir. destruct Ht as [Hd Hw Hdj].
  assert (∀ m, live V m → m ≠ n → whole V' (inode_at V sb m)) as Hwm.
  { intros m Hm Hne. destruct (Hw m Hm). constructor; [done..| |].
    - eapply (kept_mapped V V' sb); [|done]. intros a Ha. by eapply ch_keep.
    - eapply kept_wfile; [|done]. intros a Ha. by eapply ch_keep. }
  constructor.
  - intros m Hm Hty. destruct (decide (m = n)) as [->|Hne].
    + destruct (Hwh (linked_live _ _ Hm)), (Hdir Hm Hty) as (? & ? & ?). done.
    + apply changed_linked in Hm; [|done]. pose proof (linked_live _ _ Hm) as Hl.
      destruct (changed_contents m Hl Hne) as [Hi Hcm]. cbn zeta. rewrite Hi in *. rewrite Hcm.
      destruct (Hwm m Hl Hne), (Hd m Hm Hty) as (? & ? & ? & ? & He). split_and!; try done; try lia. intros name x off Hx.
      destruct (decide (x = n)) as [->|]; [by eapply (Hln m)|]. apply changed_linked; [done|]. by eapply He.
  - intros m Hm. destruct (decide (m = n)) as [->|Hne]; [by apply Hwh|]. pose proof (changed_live m Hne Hm) as Hl.
    rewrite (ch_inode _ _ _ Hc) by (done || apply Hl). by apply Hwm.
  - assert (∀ m a, live V' n → live V' m → m ≠ n → a ∈ owned V' n → a ∉ owned V' m) as Hn.
    { intros m a Hn Hm Hne Ha Ham. pose proof (changed_live m Hne Hm) as Hl. rewrite changed_owned in Ham by done.
      destruct (Hfresh a Hn Ha) as [[Hln' Ha']|Hu]; [by destruct (Hne (Hdj m n a Hl Hln' Ham Ha'))|].
      destruct (wf_data _ _ _ (wh_own _ _ (Hw m Hl)) a Ham). congruence. }
    intros m1 m2 a H1 H2 Ha1 Ha2. destruct (decide (m1 = m2)) as [|Hne]; [done|]. exfalso.
    destruct (decide (m1 = n)) as [->|Hn1]; [by eapply (Hn m2)|]. destruct (decide (m2 = n)) as [->|Hn2]; [by eapply (Hn m1)|].
    rewrite changed_owned in Ha1, Ha2 by (try done; by apply changed_live). apply Hne. eapply Hdj; try done; by apply changed_live.
Qed.
Lemma tree_changed :
  (live V' n → whole V' (inode_at V' sb n)) →
  (∀ a, live V' n → a ∈ owned V' n → (live V n ∧ a ∈ owned V n) ∨ used V sb a = false) →
  (linked V sb n → linked V' sb n) →
  (linked V' sb n → di_type (inode_at V' sb n) = T_DIR → di_size (inode_at V' sb n) mod 16 = 0 ∧
    bytes (contents V' (inode_at V' sb n)) ∧
    ∀ name m off, dir_lookup name (contents V' (inode_at V' sb n)) = Some (m, off) → linked V' sb m) →
  tree V'.
Proof.
  intros Hwh Hfresh Hln. apply tree_changed_named; [done..|]. intros m name off Hm _ HT Hl. apply Hln.
  destruct (tr_dirs _ Ht m Hm HT) as (_ & _ & _ & _ & He). by eapply He.
Qed.
End change.

Lemma changed_trans V1 V2 V3 n : tree V1 → changed V1 V2 n → changed V2 V3 n → changed V1 V3 n.
Proof.
  intros Ht H1 H2. constructor.
  - intros m Hm Hne. by rewrite (ch_inode _ _ _ H2), (ch_inode _ _ _ H1).
  - intros m a Hl Hne Ha. destruct (ch_keep _ _ _ H1 m a Hl Hne Ha) as [<- _]. apply (ch_keep _ _ _ H2 m); [|done|].
    + split; [apply Hl|]. rewrite (ch_inode _ _ _ H1) by (done || apply Hl). apply Hl.
    + by rewrite (changed_owned V1 V2 n).
Qed.

(** ** Paths *)

(** Every path of [V] is one of [V'], to the same inode. *)
Definition grows V V' : Prop := ∀ m, linked V sb m → linked V' sb m ∧
  di_type (inode_at V' sb m) = di_type (inode_at V sb m) ∧
  (di_type (inode_at V sb m) = T_DIR → ∀ name r, dir_lookup name (contents V (inode_at V sb m)) = Some r →
     dir_lookup name (contents V' (inode_at V' sb m)) = Some r).

Lemma grows_refl V : grows V V.
Proof. intros m Hm. done. Qed.
Lemma grows_trans V1 V2 V3 : grows V1 V2 → grows V2 V3 → grows V1 V3.
Proof.
  intros H1 H2 m Hm. destruct (H1 m Hm) as (Hl1 & Ht1 & Hk1), (H2 m Hl1) as (Hl2 & Ht2 & Hk2).
  split_and!; [done|congruence|]. intros Hd name r Hr. apply Hk2; [congruence|]. by apply Hk1.
Qed.
Lemma grows_changed V V' n : tree V → changed V V' n →
  (linked V sb n → linked V' sb n ∧ di_type (inode_at V' sb n) = di_type (inode_at V sb n) ∧
    ∀ name r, di_type (inode_at V sb n) = T_DIR → dir_lookup name (contents V (inode_at V sb n)) = Some r →
      dir_lookup name (contents V' (inode_at V' sb n)) = Some r) →
  grows V V'.
Proof.
  intros Ht Hc Hn m Hm. destruct (decide (m = n)) as [->|Hne].
  - destruct (Hn Hm) as (? & ? & Hk). split_and!; [done..|]. intros Hd name r. by apply Hk.
  - destruct (changed_contents _ _ _ Ht Hc m (linked_live _ _ Hm) Hne) as [Hi Hcm].
    split; [by apply (changed_linked _ _ _ Hc)|]. rewrite Hi, Hcm. done.
Qed.

Lemma resolve_grows V V' parent es n m :
  tree_ok V sb → grows V V' → linked V sb n → resolve V sb parent es n = Some m → resolve V' sb parent es n = Some m.
Proof.
  intros Ht Hg. revert n. induction es as [|e es IH]; intros n Hn; cbn [resolve]; [done|].
  destruct (Hg n Hn) as (_ & -> & Hk). destruct (Z.eqb_spec (di_type (inode_at V sb n)) T_DIR) as [Hd|]; [|done].
  destruct (parent && bool_decide (es = [])); [done|].
  destruct (dir_lookup (take DIRSIZ e) (contents V (inode_at V sb n))) as [[x off]|] eqn:Hl; [|done].
  rewrite (Hk Hd _ _ Hl). cbn [mbind option_bind fst]. apply IH. destruct (Ht n Hn Hd) as (_ & _ & _ & _ & He). by eapply He.
Qed.
Lemma resolve_linked V parent es n m : tree_ok V sb → linked V sb n → resolve V sb parent es n = Some m → linked V sb m.
Proof.
  intros Ht. revert n. induction es as [|e es IH]; intros n Hn; cbn [resolve]; [destruct parent; [done|by intros [= <-]]|].
  destruct (Z.eqb_spec (di_type (inode_at V sb n)) T_DIR) as [Hd|]; [|done].
  destruct (parent && bool_decide (es = [])); [by intros [= <-]|].
  destruct (dir_lookup (take DIRSIZ e) (contents V (inode_at V sb n))) as [[x off]|] eqn:Hl; [|done].
  cbn [mbind option_bind fst]. apply IH. destruct (Ht n Hn Hd) as (_ & _ & _ & _ & He). by eapply He.
Qed.
Lemma resolve_nonzero V parent es n m : n ≠ 0 → resolve V sb parent es n = Some m → m ≠ 0.
Proof.
  revert n. induction es as [|e es IH]; intros n Hn; cbn [resolve]; [destruct parent; [done|by intros [= <-]]|].
  destruct (di_type (inode_at V sb n) =? T_DIR); [|done]. destruct (parent && bool_decide (es = [])); [by intros [= <-]|].
  destruct (dir_lookup (take DIRSIZ e) (contents V (inode_at V sb n))) as [[x off]|] eqn:Hl; [|done].
  cbn [mbind option_bind fst]. apply IH. by apply dir_find_entry in Hl as (_ & _ & _ & ?).
Qed.
(** The last step of a path. *)
Lemma resolve_last V es n d : resolve V sb true es n = Some d →
  di_type (inode_at V sb d) = T_DIR ∧
  resolve V sb false es n = fst <$> dir_lookup (take DIRSIZ (default [] (last es))) (contents V (inode_at V sb d)).
Proof.
  revert n. induction es as [|e es IH]; intros n; cbn [resolve]; [done|].
  destruct (Z.eqb_spec (di_type (inode_at V sb n)) T_DIR) as [Hd|]; [|done]. cbn [andb]. case_bool_decide as Hes.
  - intros [= <-]. subst es. split; [done|]. cbn [resolve last default]. by destruct (dir_lookup _ _) as [[]|].
  - destruct (dir_lookup (take DIRSIZ e) (contents V (inode_at V sb n))) as [[x off]|]; [|done].
    cbn [mbind option_bind fst]. intros Hr. destruct (IH x Hr) as [? ->]. split; [done|]. by destruct es.
Qed.
End tree.

(** ** States whose disk is a tree *)
Lemma changed_agree sb V V' n :
  tree sb V → agree sb V V' → 0 ≤ sb_bmapstart sb → sb_size sb ≤ 1000 → sb_bmapstart sb < sb_size sb →
  (∀ m, 0 ≤ m < sb_ninodes sb → m ≠ n → inode_at V' sb m = inode_at V sb m) → changed sb V V' n.
Proof.
  intros Ht Hag Hbm Hsz Hlt Hi. constructor; [done|]. intros m a Hl _ Ha.
  destruct (wf_data _ _ _ (wh_own _ _ _ (tr_whole _ _ Ht m Hl)) a Ha) as [Hr Hu].
  split; [apply Hag; lia|]. by rewrite (agree_used sb V V') by (done || lia).
Qed.
Lemma resolve_ext V V' sb parent es n : (∀ b, V b = V' b) → resolve V sb parent es n = resolve V' sb parent es n.
Proof.
  intros HV. assert (∀ n, inode_at V sb n = inode_at V' sb n) as Hi by (intros m; unfold inode_at; by rewrite HV).
  revert n. induction es as [|e es IH]; intros n; cbn [resolve]; [done|].
  rewrite Hi, (contents_ext V V') by done. destruct (_ =? T_DIR); [|done]. destruct (parent && bool_decide (es = [])); [done|].
  destruct (dir_lookup _ _) as [[x off]|]; [|done]. cbn. apply IH.
Qed.
Lemma tree_ext sb V V' : (∀ b, V b = V' b) → tree sb V → tree sb V'.
Proof.
  intros HV Ht. assert (∀ m, inode_at V' sb m = inode_at V sb m) as Hi by (intros m; unfold inode_at; by rewrite HV).
  assert (¬ live sb V' (-1)) as Hno by (intros [? _]; lia).
  eapply (tree_changed sb V V' (-1)); [done| |by intros ?|by intros ??|by intros [? _]; lia|by intros [? _]; lia].
  constructor; [done|]. intros m a Hl _ Ha. split; [done|]. rewrite <- (used_ext V) by done.
  apply (wf_data _ _ _ (wh_own _ _ _ (tr_whole _ _ Ht m Hl)) a Ha).
Qed.
Lemma icsync_changed sb V V' ic i p' n :
  icsync V sb ic → changed sb V V' n →
  (∀ j p, ic !! j = Some p → 0 < i_ref p → i_valid p ≠ 0 → i_inum p = n → j = i) →
  (0 < i_ref p' → i_valid p' ≠ 0 → in_sync V' sb p') → icsync V' sb (<[i:=p']> ic).
Proof.
  intros Hs Hc Hn Hp j p Hj. destruct (decide (j = i)) as [->|Hne].
  - apply list_lookup_insert_Some in Hj as [(_ & <- & _)|[? _]]; done.
  - rewrite list_lookup_insert_ne in Hj by done. intros Hr Hv. destruct (Hs j p Hj Hr Hv) as (Hd & ? & Hi & ?).
    split_and!; try done; try lia. rewrite Hd. symmetry. apply Hc; [done|]. intros He. by apply Hne, (Hn j p).
Qed.

(** The inode [ialloc] leaves on the disk. *)
Definition new_dinode (type : Z) : dinode := mk_dinode type 0 0 0 0 (replicate 13 0).
Lemma nz_new V : nz (ftab V (replicate 13 0)) = [].
Proof.
  assert (∀ k, default 0 (replicate 13 0 !! k) = 0) as H0.
  { intros k. destruct (replicate 13 0 !! k) as [z|] eqn:Hz; [|done]. by apply lookup_replicate in Hz as [-> _]. }
  apply elem_of_nil_inv. intros x [Hn Hx]%elem_of_nz. apply Hn.
  apply elem_of_cons in Hx as [->|(bn & -> & Hbn)%list_elem_of_fmap]; [apply H0|].
  unfold baddr. rewrite !H0. by case_bool_decide.
Qed.
Lemma whole_empty sb V d : dinode_ok d → di_size d = 0 → di_addrs d = replicate 13 0 → whole sb V d.
Proof.
  intros Hok Hs Ha. constructor; rewrite ?Hs, ?Ha; [done|lia| |].
  - change (nblocks_of 0) with 0%nat. split_and!; [lia|done|done|done|]. intros bn Hbn. lia.
  - constructor; rewrite ?nz_new; [done|constructor|]. intros a Ha'. by apply elem_of_nil in Ha'.
Qed.
Lemma contents_empty V d : di_size d = 0 → contents V d = [].
Proof. intros Hs. unfold contents. by rewrite Hs. Qed.

Section good.
Context {D X : Type} {dev : IdeDevice D} {dok : IdeDeviceOk D}.
Context (devtab : list (@devsw D X)).
Implicit Types s : fss D X.

Record fs_good s (H : list nat) (L : list Z) (R : list nat) : Prop := {
  fg_reading : reading (fview s) (fsb s) s H L R;
  fg_tree : tree (fsb s) (fview s);
  fg_meta : meta_used s;
}.
Lemma fg_inv s H L R : fs_good s H L R → fs_inv s H L R.
Proof. intros Hg. apply (rd_inv _ _ _ _ _ _ (fg_reading _ _ _ _ Hg)). Qed.
Lemma fg_sync s H L R : fs_good s H L R → icsync (fview s) (fsb s) (icache s).
Proof. intros Hg. apply (rd_sync _ _ _ _ _ _ (fg_reading _ _ _ _ Hg)). Qed.

(** What only reads keeps it. *)
Lemma good_reading s s' H L R R' : fs_good s H L R → reading (fview s) (fsb s) s' H L R' → fs_good s' H L R'.
Proof.
  intros [_ Ht Hm] [Hinv Hsb HV Hsy]. constructor.
  - constructor; [done|done|done|]. rewrite Hsb. intros i p Hp Hr Hv. destruct (Hsy i p Hp Hr Hv) as (Hd & ?).
    split; [|done]. rewrite Hd. unfold inode_at. by rewrite HV.
  - rewrite Hsb. eapply tree_ext; [|exact Ht]. intros b. by rewrite HV.
  - intros b Hb. rewrite Hsb in *. rewrite (used_ext _ (fview s)) by done. by apply Hm.
Qed.

Lemma held_ref s H L R i p : fs_inv s H L R → icache s !! i = Some p → i ∈ R → 0 < i_ref p.
Proof.
  intros Hinv Hp Hi. rewrite (ic_ref _ _ (fi_icache _ _ _ _ Hinv) i p Hp). unfold refs.
  apply list_elem_of_In, (count_occ_In Nat.eq_dec) in Hi. lia.
Qed.

(** A slot with a reference and a valid inode. *)
Record held s (R : list nat) (i : nat) (p : inode) (n : Z) : Prop := {
  hd_slot : icache s !! i = Some p;
  hd_ref : i ∈ R;
  hd_valid : i_valid p ≠ 0;
  hd_inum : i_inum p = n;
}.
Lemma held_sync s H L R i p n : fs_good s H L R → held s R i p n → in_sync (fview s) (fsb s) p.
Proof.
  intros Hg [Hp Hi Hv _]. eapply (fg_sync _ _ _ _ Hg); [done| |done]. eapply held_ref; [by apply fg_inv|done|done].
Qed.
Lemma held_live s H L R i p n : fs_good s H L R → held s R i p n → live (fsb s) (fview s) n.
Proof.
  intros Hg Hh. destruct (held_sync _ _ _ _ _ _ _ Hg Hh) as (Hd & _ & Hr & Ht). rewrite (hd_inum _ _ _ _ _ Hh) in *.
  split; [done|]. by rewrite <- Hd.
Qed.
Lemma held_file s H L R i p n : fs_good s H L R → held s R i p n → i_type p ≠ T_DEV → file_in s i p.
Proof.
  intros Hg Hh Ht. destruct (held_sync _ _ _ _ _ _ _ Hg Hh) as (Hd & Hdev & Hr & _).
  destruct (tr_whole _ _ (fg_tree _ _ _ _ Hg) n) as [Hf Hs Hm Hw]; [by eapply held_live|].
  rewrite (hd_inum _ _ _ _ _ Hh) in *. rewrite <- Hd in *. constructor; try done; [apply Hh|].
  by rewrite (hd_inum _ _ _ _ _ Hh).
Qed.
Lemma held_unique s H L R i p n j q : fs_good s H L R → held s R i p n →
  icache s !! j = Some q → 0 < i_ref q → i_valid q ≠ 0 → i_inum q = n → j = i.
Proof.
  intros Hg Hh Hq Hr Hv Hn. pose proof (fg_inv _ _ _ _ Hg) as Hinv. destruct (held_sync _ _ _ _ _ _ _ Hg Hh) as (_ & Hdev & _).
  destruct (fg_sync _ _ _ _ Hg j q Hq Hr Hv) as (_ & Hdevq & _).
  eapply (ic_uniq _ _ (fi_icache _ _ _ _ Hinv) j i q p); [done|apply Hh|done| |congruence|].
  - eapply held_ref; [done|apply Hh..].
  - by rewrite (hd_inum _ _ _ _ _ Hh).
Qed.
End good.
