(* ===== verification/FsNodes.v ===== *)
(** * fs.c: operations on the tree

    [ialloc], [iupdate] and [dirlink] as steps of the file system as a whole:
    each changes one inode and keeps the tree. *)

From S2P Require Import Prelude Spinlock CString Ide Bio BioFacts Layout Log LogDisk LogFacts LogSpecs Fs FsFacts FsInodes FsFiles FsTable FsWrite FsWritei FsDirs FsLink FsPaths FsNames FsTree.

Section nodes.
Context {D X : Type} {dev : IdeDevice D} {dok : IdeDeviceOk D}.
Context (devtab : list (@devsw D X)).
Implicit Types s : fss D X.

(** One step on the tree: inode [n] changed, and nothing was written to the
    disk yet; [k] more blocks are in the log. *)
Record node_step s s' (H : list nat) (L L' : list Z) (R : list nat) (n : Z) (k : nat) : Prop := {
  ns_good : fs_good s' H L' R;
  ns_log : (length L' ≤ length L + k)%nat;
  ns_step : fs_step s s' H (fview s');
  ns_changed : changed (fsb s) (fview s) (fview s') n;
}.

Lemma geometry s H L R : fs_inv s H L R →
  0 ≤ sb_bmapstart (fsb s) ∧ sb_size (fsb s) ≤ 1000 ∧ sb_bmapstart (fsb s) < sb_size (fsb s) ∧ sb_ninodes (fsb s) < 65536.
Proof.
  intros Hinv. destruct (bmapstart_pos s H L R Hinv) as [Hbm H1000]. destruct (fi_geom _ _ _ _ Hinv).
  pose proof (li_geom _ _ _ (fi_log _ _ _ _ Hinv)) as []. unfold FSSIZE, IPB in *.
  pose proof (Z_div_mod_eq_full (sb_ninodes (fsb s)) 8). pose proof (Z.mod_pos_bound (sb_ninodes (fsb s)) 8 ltac:(lia)). lia.
Qed.

(** Writing to the block of one inode. *)
Lemma inode_written s H L R n x : fs_inv s H L R → 0 ≤ n < sb_ninodes (fsb s) →
  agree (fsb s) (fview s) (wr (fview s) (IBLOCK n (fsb s)) x).
Proof. intros Hinv Hn b Hb. destruct (inode_block s H L R n Hinv Hn) as (_ & _ & Hib & _). by rewrite wr_ne by lia. Qed.

Lemma meta_used_agree s s' H L R : fs_inv s H L R → meta_used s → agree (fsb s) (fview s) (fview s') → fsb s' = fsb s → meta_used s'.
Proof.
  intros Hinv Hm Hag Hsb b Hb. destruct (geometry _ _ _ _ Hinv) as (? & ? & ? & _). rewrite Hsb in *.
  rewrite (agree_used (fsb s) (fview s)) by (done || lia). by apply Hm.
Qed.
Lemma good_step s s' H L L' R R' n i q :
  fs_good s H L R → fs_inv s' H L' R' → fsb s' = fsb s → changed (fsb s) (fview s) (fview s') n →
  tree (fsb s) (fview s') → meta_used s' → icache s' = <[i:=q]> (icache s) →
  (∀ j p, icache s !! j = Some p → 0 < i_ref p → i_valid p ≠ 0 → i_inum p = n → j = i) →
  (0 < i_ref q → i_valid q ≠ 0 → in_sync (fview s') (fsb s) q) → fs_good s' H L' R'.
Proof.
  intros Hg Hinv' Hsb Hch Ht Hm Hi Hu Hq. constructor; rewrite ?Hsb; [|done|done].
  constructor; [done|done|done|]. rewrite Hi. by eapply icsync_changed; [apply (fg_sync _ _ _ _ Hg)|..].
Qed.

Lemma wp_ialloc_good E type n0 H L R (Q : nat → fss D X → Prop) s :
  fs_good s H L R → (length R < NINODE)%nat → room s L 1 → (length H + length L < NBUF)%nat →
  1 ≤ n0 < sb_ninodes (fsb s) → free_inode s n0 → 0 < type < 32768 →
  (∀ n i q s' L', node_step s s' H L L' (i :: R) n 1 → 1 ≤ n < sb_ninodes (fsb s) → ¬ live (fsb s) (fview s) n →
     agree (fsb s) (fview s) (fview s') → inode_at (fview s') (fsb s) n = new_dinode type →
     icache s' = <[i:=q]> (icache s) → icache s' !! i = Some q → i_dev q = ROOTDEV → i_inum q = n → i_valid q = 0 →
     (∀ p, i ∈ R → icache s !! i = Some p → i_inum p = n) → Q i s') →
  wp E (ialloc ROOTDEV type) Q s.
Proof.
  intros Hg HR Hroom Hfree Hn0 Hf0 Hty HQ. pose proof (fg_inv _ _ _ _ Hg) as Hinv. destruct (geometry _ _ _ _ Hinv) as (Hbm & Hsz & Hlt & _).
  unfold ialloc. apply wp_bind, wp_gets. eapply wp_ialloc_loop; [done|unfold NINODE in *; lia|done|done|lia|lia| | |].
  2: { intros Hall. by destruct (Hall n0). }
  2: { intros Hall. destruct (icache_free (icache s) R) as (j & p & Hp & Hr); [apply Hinv|done|]. specialize (Hall j p Hp). lia. }
  intros n i s1 s' Hn Hfn _ Hs1 Hi1 Hinv' Hs' Hres. pose proof (fst_sb _ _ _ _ Hs1) as Hsb1.
  assert (∀ b, fview s' b = ialloc_view s n type b) as HV by (intros b; rewrite (fst_view _ _ _ _ Hs'); apply Hs1).
  assert (fsb s' = fsb s) as Hsb by (by rewrite (fst_sb _ _ _ _ Hs')).
  assert (agree (fsb s) (fview s) (fview s')) as Hag.
  { intros b Hb. rewrite HV. apply (inode_written s H L R); [done|lia|done]. }
  assert (inode_at (fview s') (fsb s) n = new_dinode type) as Hnew.
  { unfold inode_at. rewrite HV. unfold ialloc_view. rewrite wr_eq. eapply ialloc_inode; [done|lia|lia]. }
  assert (changed (fsb s) (fview s) (fview s') n) as Hch.
  { apply changed_agree; try done; [apply Hg|]. intros m Hm Hne. unfold inode_at at 1. rewrite HV.
    eapply ialloc_other; [done|done|lia|done]. }
  assert (¬ live (fsb s) (fview s) n) as Hnl by (intros [_ Hl]; by apply Hl).
  assert (∃ q, icache s' = <[i:=q]> (icache s) ∧ icache s' !! i = Some q ∧ i_dev q = ROOTDEV ∧ i_inum q = n ∧ i_valid q = 0) as (q & Hiq & Hq & Hqd & Hqn & Hqv).
  { destruct Hres as [(p & Hp & (Hr & Hpd & Hpn) & ->)|(_ & p & Hp & _ & ->)]; eexists;
      (split; [done|split; [apply list_lookup_insert_eq; by eapply lookup_lt_Some|]]); [|done].
    cbn. split_and!; [done..|]. destruct (decide (i_valid p = 0)) as [|Hv]; [done|]. exfalso.
    destruct (fg_sync _ _ _ _ Hg i p Hp Hr Hv) as (Hd & _ & _ & Ht). apply Hnl. rewrite <- Hpn. split; [lia|]. by rewrite <- Hd. }
  assert (∀ p, i ∈ R → icache s !! i = Some p → i_inum p = n) as Hsame.
  { intros p Hi Hp. pose proof (held_ref _ _ _ _ _ _ Hinv Hp Hi).
    destruct Hres as [(p' & Hp' & (_ & _ & Hpn) & _)|(_ & p' & Hp' & Hr' & _)]; simplify_eq; [done|lia]. }
  apply (HQ n i q s' (logged L (IBLOCK n (fsb s)))); try done. constructor; [|pose proof (logged_length L (IBLOCK n (fsb s))); lia| |done].
  2: { eapply fs_step_trans; [exact Hs1|]. eapply fs_step_ext; [exact Hs'|]. intros b. symmetry. apply Hs'. }
  eapply (good_step s s' _ _ _ _ _ n i q); try done; [|by eapply (meta_used_agree s); [exact Hinv|apply Hg|..]|].
  - eapply (tree_changed _ _ _ n); [apply Hg|done|..].
    + intros _. rewrite Hnew. apply whole_empty; [|done..]. split_and!; try done; [|by repeat constructor].
      repeat constructor; cbn; lia.
    + intros a _. unfold owned. rewrite Hnew, nz_new. by intros ?%elem_of_nil.
    + intros Hl%linked_live. done.
    + intros (_ & _ & Hl). rewrite Hnew in Hl. by destruct Hl.
  - intros j p Hp Hr Hv Hpn. exfalso. apply Hnl. destruct (fg_sync _ _ _ _ Hg j p Hp Hr Hv) as (Hd & _ & Hrn & Ht).
    rewrite <- Hpn. split; [done|]. by rewrite <- Hd.
Qed.

Lemma wp_iread_good E i p n H L R (Q : unit → fss D X → Prop) s :
  fs_good s H L R → icache s !! i = Some p → i ∈ R → i_dev p = ROOTDEV → i_inum p = n → live (fsb s) (fview s) n →
  (length H + length L < NBUF)%nat →
  (∀ p' s', fs_good s' H L R → fs_step s s' H (fview s) → icache s' = <[i:=p']> (icache s) → held s' R i p' n →
     i_disk p' = inode_at (fview s) (fsb s) n → Q tt s') →
  wp E (iread (Some i)) Q s.
Proof.
  intros Hg Hp Hi Hdev Hn [Hr Hl] Hfree HQ. pose proof (fg_inv _ _ _ _ Hg) as Hinv. assert (i < length (icache s))%nat as Hil by (by eapply lookup_lt_Some).
  eapply wp_iread; [done|done|done|done|by rewrite Hn|done| | |].
  - intros Hv. apply (HQ p s); [done|apply fs_step_refl|by rewrite list_insert_id|done|].
    eapply (held_sync _ _ _ _ i p n) in Hg as (Hd & _); [|done]. by rewrite Hd, Hn.
  - intros _ _ s' Hinv' Hs' Hi'. assert (i_disk (iread_inode s p) = inode_at (fview s) (fsb s) n) as Hd by (by rewrite <- Hn).
    apply (HQ (iread_inode s p) s'); try done.
    + eapply good_reading; [exact Hg|]. eapply reading_step; [apply (fg_reading _ _ _ _ Hg)|done|done|]. rewrite Hi'.
      apply icsync_insert; [by eapply fg_sync|]. intros _ _. split_and!; [by rewrite Hd, <- Hn|done|change (0 ≤ i_inum p); lia|change (i_inum p < sb_ninodes (fsb s)); lia|].
      change (di_type (i_disk (iread_inode s p)) ≠ 0). by rewrite Hd.
    + constructor; [rewrite Hi'; by apply list_lookup_insert_eq|done|done|done].
  - intros _ Ht. rewrite Hn in Ht. done.
Qed.

Lemma agree_kept s H L R V' n : fs_good s H L R → live (fsb s) (fview s) n → agree (fsb s) (fview s) V' →
  ∀ a, a ∈ owned (fsb s) (fview s) n → V' a = fview s a ∧ used V' (fsb s) a = true.
Proof.
  intros Hg Hl Hag a Ha. destruct (geometry s H L R) as (? & ? & ? & _); [by apply fg_inv|].
  destruct (wf_data _ _ _ (wh_own _ _ _ (tr_whole _ _ (fg_tree _ _ _ _ Hg) n Hl)) a Ha) as [Hr Hu].
  split; [apply Hag; lia|]. by rewrite (agree_used (fsb s) (fview s)) by (done || lia).
Qed.

(** The tree when an inode keeps its type, size and blocks. *)
Lemma tree_rewritten s H L R V' n d :
  let d0 := inode_at (fview s) (fsb s) n in
  fs_good s H L R → live (fsb s) (fview s) n → agree (fsb s) (fview s) V' → changed (fsb s) (fview s) V' n →
  inode_at V' (fsb s) n = d → dinode_ok d → di_type d = di_type d0 → di_size d = di_size d0 → di_addrs d = di_addrs d0 →
  (1 ≤ di_nlink d0 → 1 ≤ di_nlink d) → (di_nlink d0 < 1 → di_size d0 = 0) →
  tree (fsb s) V' ∧ grows (fsb s) (fview s) V' ∧ contents V' d = contents (fview s) d0.
Proof.
  intros d0 Hg Hl Hag Hch Hnew Hok Hty Hsz Had Hnl Hn0. destruct Hl as [Hr Ht]. pose proof (fg_tree _ _ _ _ Hg) as Htr.
  destruct (tr_whole _ _ Htr n) as [_ Hs Hm Hw]; [done|]. fold d0 in Hs, Hm, Hw, Ht.
  pose proof (agree_kept _ _ _ _ V' n Hg (conj Hr Ht) Hag) as Hkept. unfold owned in Hkept. fold d0 in Hkept.
  assert (contents V' d = contents (fview s) d0) as Hco.
  { rewrite <- (kept_contents _ _ _ _ Hkept d0 eq_refl Hm). unfold contents. by rewrite Hsz, Had. }
  assert (grows (fsb s) (fview s) V') as Hgr.
  { eapply (grows_changed _ _ _ n); [done|done|]. fold d0. intros (_ & _ & Hlk). fold d0 in Hlk. rewrite Hnew.
    split_and!; [|done|by rewrite Hco]. split_and!; try lia; rewrite Hnew; [by rewrite Hty|by apply Hnl]. }
  split_and!; [|done|done]. eapply (tree_changed _ _ _ n); [done|done|..].
  - intros _. rewrite Hnew. constructor; rewrite ?Hsz, ?Had; [done..| |]; [by eapply kept_mapped|by eapply kept_wfile].
  - intros a _. unfold owned. rewrite Hnew, Had. fold d0. rewrite (kept_ftab _ _ _ _ Hkept). by left.
  - intros Hlk. by apply Hgr.
  - intros (_ & _ & Hlk) HT. rewrite Hnew, Hty in *. rewrite Hsz, Hco. destruct (decide (1 ≤ di_nlink d0)) as [H1|H1].
    + destruct (tr_dirs _ _ Htr n) as (_ & _ & Hmod & Hb & He); [split; [done|by split]|done|].
      split_and!; [done|done|]. intros name m off Hm'. by eapply Hgr, He.
    + rewrite contents_empty by (apply Hn0; lia). rewrite Hn0 by lia. split_and!; [done|constructor|done].
Qed.

(** Writing back an inode whose type and blocks are those on the disk, when
    the disk is a tree afterwards. *)
Lemma wp_iupdate_node E i p d n H L R (Q : unit → fss D X → Prop) s :
  fs_good s H L R → held s R i p n → dinode_ok d → di_type d = i_type p →
  (∀ V', agree (fsb s) (fview s) V' → changed (fsb s) (fview s) V' n → inode_at V' (fsb s) n = d → tree (fsb s) V') →
  room s L 1 → (length H + length L < NBUF)%nat →
  (∀ s' L', node_step s s' H L L' R n 1 → held s' R i (set_i_disk d p) n →
     icache s' = <[i:=set_i_disk d p]> (icache s) → inode_at (fview s') (fsb s) n = d →
     agree (fsb s) (fview s) (fview s') → Q tt s') →
  wp E (iupdate i) Q (set_icache (<[i:=set_i_disk d p]> (icache s)) s).
Proof.
  intros Hg Hh Hok Hty Htree Hroom Hfree HQ. pose proof (fg_inv _ _ _ _ Hg) as Hinv. pose proof Hh as [Hp Hi Hv Hn].
  destruct (held_sync _ _ _ _ _ _ _ Hg Hh) as (Hd & Hdev & Hr & Ht0). pose proof (held_live _ _ _ _ _ _ _ Hg Hh) as Hl.
  assert (i < length (icache s))%nat as Hil by (by eapply lookup_lt_Some). set (p' := set_i_disk d p). set (s0 := set_icache _ s).
  destruct (geometry _ _ _ _ Hinv) as (Hbm & H1000 & Hlt & _). destruct Hok as (Hok1 & Hok2 & Hla & Hok3).
  assert (fs_inv s0 H L R) as Hinv0.
  { apply (fs_inv_icache s _ H L R); [done|]. eapply icache_ok_update; [apply Hinv|done..]. }
  eapply (wp_iupdate E i p' H L R); [done|by apply list_lookup_insert_eq|done|done|done|done|].
  intros s' Hinv' Hs' Hi'. assert (fsb s' = fsb s) as Hsb by apply Hs'.
  assert (∀ b, fview s' b = iupdate_view s0 p' b) as HV by apply Hs'.
  assert (agree (fsb s) (fview s) (fview s')) as Hag.
  { intros b Hb. rewrite HV. unfold iupdate_view. change (i_inum p') with (i_inum p). by apply (inode_written s H L R). }
  assert (inode_at (fview s') (fsb s) n = d) as Hnew.
  { unfold inode_at. rewrite HV, <- Hn. unfold iupdate_view. change (i_inum p') with (i_inum p). change (fsb s0) with (fsb s).
    rewrite wr_eq. assert (i_disk p' = d) as -> by (by destruct d). apply dinode_roundtrip; [done|].
    change (fview s0) with (fview s). erewrite fview_512 by done. by apply (inode_block s H L R). }
  assert (changed (fsb s) (fview s) (fview s') n) as Hch.
  { apply changed_agree; try done; [apply Hg|]. intros m Hmr Hne. unfold inode_at at 1. rewrite HV.
    apply (iupdate_other s0 H L R); [done..|by rewrite <- Hn in Hne|done]. }
  subst n. eapply (HQ s' (logged L (IBLOCK (i_inum p) (fsb s)))); try done; [|constructor; [rewrite Hi'; by apply list_lookup_insert_eq|done..]].
  constructor; [|pose proof (logged_length L (IBLOCK (i_inum p) (fsb s))); lia| |done].
  2: { eapply fs_step_icache_l. eapply fs_step_ext; [exact Hs'|]. intros b. symmetry. apply Hs'. }
  eapply (good_step s s' _ _ _ _ _ (i_inum p) i p'); try done; [by apply Htree|by eapply (meta_used_agree s); [exact Hinv|apply Hg|..]| |].
  - intros j q Hq Hrq Hvq Hnq. by eapply (held_unique _ _ _ _ _ _ _ _ _ Hg Hh).
  - intros _ _. split_and!; [|done|change (0 ≤ i_inum p); lia|change (i_inum p < sb_ninodes (fsb s)); lia|].
    + change (i_inum p') with (i_inum p). rewrite Hnew. by destruct d.
    + change (di_type d ≠ 0). by rewrite Hty.
Qed.

(** Writing back an inode whose type, size and blocks are those on the disk. *)
Lemma wp_iupdate_good E i p d n H L R (Q : unit → fss D X → Prop) s :
  fs_good s H L R → held s R i p n → dinode_ok d → di_type d = i_type p → di_size d = i_size p → di_addrs d = i_addrs p →
  (1 ≤ i_nlink p → 1 ≤ di_nlink d) → (i_nlink p < 1 → i_size p = 0) →
  room s L 1 → (length H + length L < NBUF)%nat →
  (∀ s' L', node_step s s' H L L' R n 1 → held s' R i (set_i_disk d p) n →
     icache s' = <[i:=set_i_disk d p]> (icache s) → inode_at (fview s') (fsb s) n = d →
     agree (fsb s) (fview s) (fview s') → grows (fsb s) (fview s) (fview s') →
     contents (fview s') d = contents (fview s) (i_disk p) → Q tt s') →
  wp E (iupdate i) Q (set_icache (<[i:=set_i_disk d p]> (icache s)) s).
Proof.
  intros Hg Hh Hok Hty Hsz Had Hnl Hn0 Hroom Hfree HQ. destruct (held_sync _ _ _ _ _ _ _ Hg Hh) as (Hd & _).
  rewrite (hd_inum _ _ _ _ _ Hh) in Hd. pose proof (held_live _ _ _ _ _ _ _ Hg Hh) as Hl.
  assert (∀ V', agree (fsb s) (fview s) V' → changed (fsb s) (fview s) V' n → inode_at V' (fsb s) n = d →
    tree (fsb s) V' ∧ grows (fsb s) (fview s) V' ∧ contents V' d = contents (fview s) (i_disk p)) as Hre.
  { intros V' Hag Hch Hnew. rewrite Hd. eapply tree_rewritten; try done; by rewrite <- Hd. }
  eapply wp_iupdate_node; [exact Hg|exact Hh|done|done| |done|done|].
  - intros V' Hag Hch Hnew. by apply Hre.
  - intros s' L' Hns Hh' Hic Hnew Hag. destruct (Hre (fview s') Hag (ns_changed _ _ _ _ _ _ _ _ Hns) Hnew) as (_ & ? & ?). eauto.
Qed.

(** What [writei] does to a file of the tree that stays well formed. *)
Lemma written_changed s s' i p p' off data k H L R :
  fs_good s H L R → held s R i p (i_inum p) → file_written s s' i p p' off data k →
  changed (fsb s) (fview s) (fview s') (i_inum p) ∧ inode_at (fview s') (fsb s) (i_inum p) = i_disk p'.
Proof.
  intros Hg Hh Hfw. destruct (held_sync _ _ _ _ _ _ _ Hg Hh) as (Hd & Hdev & Hr & Ht0). pose proof (held_live _ _ _ _ _ _ _ Hg Hh) as Hl.
  destruct Hfw as [_ _ _ _ _ Hsb _ Hdisk Hoth Hfr Hus _ _]. unfold disk_inode in Hdisk, Hoth. rewrite Hsb in Hdisk, Hoth.
  split; [|by apply Hdisk]. constructor; [done|]. intros m a Hm Hne Ha.
  destruct (wf_data _ _ _ (wh_own _ _ _ (tr_whole _ _ (fg_tree _ _ _ _ Hg) m Hm)) a Ha) as [Hra Hua].
  destruct (geometry s H L R) as (? & ? & ? & _); [by apply fg_inv|]. split; [|apply Hus; [lia|done]].
  apply Hfr; [done|done|]. intros Hin. apply Hne. eapply (tr_disj _ _ (fg_tree _ _ _ _ Hg)); [done|done|exact Ha|].
  unfold owned. by rewrite <- Hd.
Qed.

(** A new entry in a directory of the tree. *)
Lemma link_tree s s' i p p' off data name m H L L' R :
  fs_good s H L R → held s R i p (i_inum p) → linked (fview s) (fsb s) (i_inum p) → linked (fview s) (fsb s) m →
  file_in s' i p' → dir_ok (fview s') p' → file_written s s' i p p' off data 2 → dir_linked s s' p p' name m off →
  dir_lookup name (contents (fview s) (i_disk p)) = None → fs_inv s' H L' R →
  fs_good s' H L' R ∧ grows (fsb s) (fview s) (fview s').
Proof.
  intros Hg Hh Hlk Hlm Hf' Hd' Hfw [_ Hfound Hoth _ _] Hno Hinv'. destruct (held_sync _ _ _ _ _ _ _ Hg Hh) as (Hd & Hdev & Hr & Ht0).
  destruct (written_changed _ _ _ _ _ _ _ _ _ _ _ Hg Hh Hfw) as [Hch Hnew]. pose proof Hfw as [Hic Hin _ _ _ Hsb Hm _ _ _ _ _ Hfresh].
  assert (linked (fview s') (fsb s) (i_inum p)) as Hlk'.
  { destruct Hlk as (_ & ? & Hnl). split_and!; try lia; rewrite Hnew, Hin; [done|]. by rewrite <- Hd in Hnl. }
  assert (grows (fsb s) (fview s) (fview s')) as Hgr.
  { eapply (grows_changed _ _ _ (i_inum p)); [apply Hg|done|]. intros _. rewrite <- Hd, Hnew. split_and!; [done|by rewrite Hin|].
    intros nm r _ Hl. destruct (decide (cname DIRSIZ nm = cname DIRSIZ name)) as [He|He]; [|by rewrite Hoth].
    assert (dir_lookup nm (contents (fview s) (i_disk p)) = dir_lookup name (contents (fview s) (i_disk p))) as Heq
      by (by apply dir_find_cname). congruence. }
  split; [|done]. assert (i_valid p' = i_valid p ∧ i_inum p' = i_inum p ∧ i_ref p' = i_ref p) as (Hv' & Hn' & Hr') by (by rewrite Hin).
  eapply (good_step s s' _ _ _ _ _ (i_inum p) i p'); try done.
  - destruct Hf' as [_ (_ & Hsz & Hmap) Hw Hdi _ _]. rewrite Hsb in Hw.
    eapply (tree_changed _ _ _ (i_inum p)); [apply Hg|done|by rewrite Hnew|..]; unfold owned; rewrite ?Hnew, <- ?Hd.
    + intros a _ [Ha|Ha]%Hfresh; [left; split; [by apply linked_live|done]|by right].
    + done.
    + intros _ _. split_and!; [apply Hd'..|]. intros nm x off' Hx.
      destruct (decide (cname DIRSIZ nm = cname DIRSIZ name)) as [He|He].
      * unfold dir_lookup in Hx, Hfound. rewrite (dir_find_cname nm name) in Hx by done. apply Hgr. congruence.
      * rewrite Hoth in Hx by done. apply Hgr. destruct (tr_dirs _ _ (fg_tree _ _ _ _ Hg) _ Hlk) as (_ & _ & _ & _ & Hent).
        { rewrite <- Hd. change (i_type p = T_DIR). pose proof (do_type _ _ Hd') as HT. by rewrite Hin in HT. }
        rewrite <- Hd in Hent. by eapply Hent.
  - intros j q Hq Hrq Hvq Hnq. by eapply (held_unique _ _ _ _ _ _ _ _ _ Hg Hh).
  - intros _ _. split_and!; [by rewrite Hn', Hnew|by rewrite Hin|rewrite Hn'; lia..|]. by rewrite Hin.
Qed.

Lemma wp_dirlink_good E i p n name m H L R (Q : Z → fss D X → Prop) s :
  fs_good s H L R → held s R i p n → linked (fview s) (fsb s) n → i_type p = T_DIR →
  dir_lookup name (contents (fview s) (i_disk p)) = None → linked (fview s) (fsb s) m → m ≠ 0 →
  bytes name → readable DIRSIZ name → (length R < NINODE)%nat → i_size p + 16 ≤ 71680 →
  room s L 7 → (S (length H) + length L + 6 < NBUF)%nat → (2 ≤ nfree (fview s) (fsb s))%nat →
  (∀ p' s' L' off, node_step s s' H L L' R n 7 → grows (fsb s) (fview s) (fview s') → held s' R i p' n →
     icache s' = <[i:=p']> (icache s) → p' = after_write p (i_addrs p') off 16 → inode_at (fview s') (fsb s) n = i_disk p' →
     (nfree (fview s) (fsb s) ≤ nfree (fview s') (fsb s) + 2)%nat → dir_linked s s' p p' name m off → Q 0 s') →
  wp E (dirlink devtab i name m) Q s.
Proof.
  intros Hg Hh Hlk HT Hno Hlm Hm0 Hb Hr HR Hsz Hroom Hbuf Hnf HQ. pose proof (fg_inv _ _ _ _ Hg) as Hinv.
  pose proof Hh as [Hp Hi Hv Hn]. destruct (held_sync _ _ _ _ _ _ _ Hg Hh) as (Hd & Hdev & Hrn & Ht0). rewrite Hn in Hd.
  destruct (geometry _ _ _ _ Hinv) as (_ & _ & _ & H65536). destruct Hlm as (Hmr & Hlm').
  destruct (linked_dir _ _ _ _ _ _ _ _ (tr_dirs _ _ (fg_tree _ _ _ _ Hg)) (fg_reading _ _ _ _ Hg) Hlk Hdev Hd HT) as [Hdir _].
  eapply (wp_dirlink devtab E i p name m H L R); try done; [apply Hg|eapply held_file; [done..|by rewrite HT]|lia|congruence|].
  intros _ p' s' L' off data Hinv' HL' Hs' Hf' Hd' Hfw Hdl Hlen. subst n.
  destruct (link_tree s s' i p p' off data name m H L L' R) as [Hg' Hgr]; try done.
  destruct (written_changed _ _ _ _ _ _ _ _ _ _ _ Hg Hh Hfw) as [Hch Hnew]. pose proof Hfw as [Hic Hin _ _ _ _ _ _ _ _ _ Hfree _].
  rewrite Hlen in Hin. eapply (HQ p' s' L' off); try done. constructor; [apply Hf'|done|by rewrite Hin|by rewrite Hin].
Qed.
End nodes.
