(* ===== verification/FsUnlink.v ===== *)
(** * fs.c: taking an entry out of a directory

    Overwriting one entry with zeros, giving back references to inodes, and
    the last reference to an inode without links, as steps of the tree. *)

From S2P Require Import Prelude Spinlock CString Ide Bio BioFacts Layout Log LogDisk LogFacts LogSpecs Fs FsFacts FsInodes FsFiles FsTable FsWrite FsWritei FsTrunc FsDirs FsLink FsPaths FsNames FsTree FsNodes.

(** ** Directories as lists of entries *)
Definition no_entry : list Z := replicate 16 0.

Lemma dir_find_none name c n k :
  (∀ j, (k ≤ j < k + n)%nat → entry_is name (dirent_at c j) = false) → dir_find name c n k = None.
Proof.
  revert k. induction n as [|n IH]; intros k Hj; cbn [dir_find]; [done|]. rewrite Hj by lia. apply IH. intros j ?. apply Hj. lia.
Qed.
Lemma dir_find_same name c c' n k :
  (∀ j, (k ≤ j < k + n)%nat → dirent_at c' j = dirent_at c j ∨
     entry_is name (dirent_at c' j) = false ∧ entry_is name (dirent_at c j) = false) →
  dir_find name c' n k = dir_find name c n k.
Proof.
  revert k. induction n as [|n IH]; intros k Hj; cbn [dir_find]; [done|]. rewrite IH by (intros j ?; apply Hj; lia).
  destruct (Hj k) as [->|[-> ->]]; [lia|done|done].
Qed.

Section clear.
Context (c : list Z) (n k : nat) (name : list Z).
Hypothesis Hc : length c = (16 * n)%nat.
Hypothesis Hk : (k < n)%nat.
Hypothesis Hname : entry_is name (dirent_at c k) = true.
Let c' := splice (16 * k) no_entry c.

Lemma length_clear : length c' = length c.
Proof. unfold c'. rewrite length_splice; [done|]. rewrite Hc. unfold no_entry. rewrite length_replicate. lia. Qed.
Lemma dirent_at_clear j : dirent_at c' j = if decide (j = k) then dec_dirent no_entry else dirent_at c j.
Proof. apply (dirent_at_splice c no_entry n k Hc); [done|lia]. Qed.
(** The other names are found where they were. *)
Lemma dir_clear_other nm : cname DIRSIZ nm ≠ cname DIRSIZ name → dir_lookup nm c' = dir_lookup nm c.
Proof.
  intros Hne. unfold dir_lookup. rewrite length_clear. apply dir_find_same. intros j _. rewrite dirent_at_clear.
  case_decide as Hj; [|by left]. right. subst j. split; [done|]. apply andb_true_iff in Hname as [_ He%bool_decide_eq_true_1].
  unfold entry_is. rewrite bool_decide_false; [by rewrite andb_false_r|congruence].
Qed.
(** A name that only this entry had is gone. *)
Lemma dir_clear_same nm : cname DIRSIZ nm = cname DIRSIZ name →
  (∀ j, (j < n)%nat → entry_is name (dirent_at c j) = true → j = k) → dir_lookup nm c' = None.
Proof.
  intros He Hu. unfold dir_lookup. rewrite length_clear, Hc. replace (16 * n / 16)%nat with n by (rewrite Nat.mul_comm, Nat.div_mul; lia).
  apply dir_find_none. intros j Hj. rewrite dirent_at_clear. case_decide as Hjk; [done|].
  apply not_true_is_false. intros Ht. apply Hjk, Hu; [lia|]. unfold entry_is in *. by rewrite <- He.
Qed.
End clear.
Lemma bytes_clear o c : bytes c → bytes (splice o no_entry c).
Proof. intros Hb. apply bytes_splice; [|done]. apply Forall_replicate. lia. Qed.

(** Does a directory hold nothing but its first two entries? *)
Definition dir_empty (c : list Z) : bool :=
  forallb (λ j, de_inum (dirent_at c j) =? 0) (seq 2 (length c / 16 - 2)).

Section unlink.
Context {D X : Type} {dev : IdeDevice D} {dok : IdeDeviceOk D}.
Context (devtab : list (@devsw D X)).
Implicit Types s : fss D X.

(** ** Overwriting an entry: no block is allocated *)
Lemma written_over s s1 i p off data bn a H L R :
  fs_inv s H L R → meta_used s → file_in s i p → 0 ≤ off → bn = Z.to_nat (off / 512) → a = baddr (fview s) (i_addrs p) bn →
  off + Z.of_nat (length data) ≤ i_size p → off mod 512 + Z.of_nat (length data) ≤ 512 → (bn < nblocks_of (i_size p))%nat →
  (∀ b, fview s1 b = wr (fview s) a (splice (Z.to_nat (off mod 512)) data (fview s a)) b) → fsb s1 = fsb s → icache s1 = icache s →
  written s s1 i p (i_addrs p) (Z.to_nat off) data 0.
Proof.
  intros Hinv Hm [Hp (_ & Hsz & (Hk140 & _ & _ & Hmp)) Hw _ _ _] H0 -> -> Hin Hblk Hbn HV Hsb Hic. destruct (Hmp _ Hbn) as [Hnz _].
  destruct (bmapstart_pos s H L R Hinv) as [Hbm H1000]. pose proof (Z.mod_pos_bound off 512 ltac:(lia)) as Hmb.
  pose proof (Z_div_mod_eq_full off 512) as Hdm. assert (0 ≤ off / 512) by (apply Z.div_pos; lia).
  set (bn := Z.to_nat (off / 512)) in *. set (a := baddr _ _ bn) in *. set (x := splice _ _ _) in HV.
  pose proof (over_grown (fsb s) (fview s) (i_addrs p) bn x Hw ltac:(lia) Hnz Hbm H1000) as Hg. fold a in Hg.
  constructor; [by apply (grown_ext _ _ (fview s) _ (wr (fview s) a x)); [done|intros; by rewrite HV|]| | | | |done].
  - rewrite (fdata_ext (fview s1) _ (wr (fview s) a x) (i_addrs p)) by (intros j _; by apply fblock_ext).
    pose proof (over_fdata (fsb s) (fview s) (i_addrs p) bn x Hw ltac:(lia) Hnz (Z.to_nat (off mod 512)) data) as Hov.
    fold a in Hov. rewrite Hov; [f_equal; lia|intros; by eapply fview_512|lia|done].
  - rewrite Hic, set_i_addrs_id. symmetry. by apply list_insert_id.
  - intros b Hb. pose proof (gm_bmap _ _ (fi_geom _ _ _ _ Hinv)). rewrite Hsb in *. rewrite (used_ext _ (wr (fview s) a x)) by done.
    eapply gr_used; [exact Hg|lia|by apply Hm].
  - intros bn' (_ & Hlo & Hhi). assert (bn' = bn) as -> by lia. rewrite (baddr_ext _ (wr (fview s) a x)) by done.
    unfold a. rewrite (over_baddr (fsb s)) by (done || lia). done.
Qed.

Lemma wp_writei_entry E i p data off H L R (Q : Z → fss D X → Prop) s :
  fs_inv s H L R → meta_used s → file_in s i p → length data = 16%nat → 0 ≤ off → off mod 16 = 0 → off + 16 ≤ i_size p →
  room s L 1 → (length H + length L < NBUF)%nat →
  (∀ s' L', fs_inv s' H L' R → (length L' ≤ S (length L))%nat → fs_step s s' H (fview s') → file_in s' i p → icache s' = icache s →
     file_written s s' i p p off data 0 → Q 16 s') →
  wp E (writei devtab i data off 16) Q s.
Proof.
  intros Hinv Hm Hf Hlen H0 Hmod Hin Hroom Hfree HQ. pose proof Hf as [Hp Hok Hw Hdi Hty Hi]. pose proof Hok as (Hdev & Hsz & Hmp).
  pose proof (Z.mod_pos_bound off 512 ltac:(lia)) as Hmb. pose proof (Z_div_mod_eq_full off 512) as Hdm.
  pose proof (Z_div_mod_eq_full off 16) as Hd16. assert (0 ≤ off / 512) as Hd0 by (apply Z.div_pos; lia).
  set (bn := Z.to_nat (off / 512)). assert (bn < nblocks_of (i_size p))%nat as Hbn by (apply nblocks_bound; lia).
  set (a := baddr (fview s) (i_addrs p) bn).
  unfold writei. apply wp_bind. eapply wp_getopt; [done|]. rewrite (proj2 (Z.eqb_neq _ _) Hty).
  rewrite u32_small, s32_small by lia. change (MAXFILE * BSIZE) with 71680. rewrite !Z.gtb_ltb.
  rewrite (proj2 (Z.ltb_ge (i_size p) off)), (proj2 (Z.ltb_ge (off + 16) off)), (proj2 (Z.ltb_ge 71680 (off + 16))) by lia.
  cbn [orb]. apply wp_bind. change (Z.to_nat (16 / BSIZE + 3)) with 3%nat. change BSIZE with 512. cbn [writei_loop].
  change (0 <? 16) with true. cbv iota. change BSIZE with 512.
  apply wp_bind. eapply wp_getopt; [done|]. apply wp_bind. eapply wp_bmap_mapped; [done..|].
  intros s1 Hinv1 Hs1 Hi1. fold bn. fold a. rewrite Hdev.
  destruct Hmp as (Hk140 & Hl13 & Hind & Hmp). destruct (Hmp bn Hbn) as [Hnz Har]. fold a in Hnz, Har.
  destruct (owned_range s H L R (i_addrs p) a Hinv Hw) as [_ Hah]; [by apply owned_bn; [lia|]|].
  pose proof (fst_view _ _ _ _ Hs1) as HV1. pose proof (fst_sb _ _ _ _ Hs1) as Hsb1.
  apply wp_bind. eapply wp_dio_bread; [done|done|lia|]. intros bp s2 Hinv2 Hh2 Hs2 Hi2.
  assert (∀ x, fview s2 x = fview s x) as HV2 by (intros x; by rewrite (fst_view _ _ _ _ Hs2)).
  cbn zeta. replace (Z.min (16 - 0) (512 - off mod 512)) with 16 by lia. rewrite Hlen. change (0 + 16 >? Z.of_nat 16) with false.
  apply wp_bind, wp_ret. apply wp_bind. eapply wp_dio_mod_data; [done..|]. rewrite HV2.
  change (slice (Z.to_nat 0) (Z.to_nat 16) data) with (take 16 data). rewrite take_ge by lia.
  set (x := splice (Z.to_nat (off mod 512)) data (fview s a)).
  assert (length (fview s a) = 512%nat) as Hla by (by eapply fview_512).
  eapply wp_log_release; [done|done| | | |unfold NBUF in *; lia|].
  { unfold x. rewrite length_splice; lia. }
  { by rewrite (fst_start _ _ _ _ Hs2), (fst_lsize _ _ _ _ Hs2), (fst_start _ _ _ _ Hs1), (fst_lsize _ _ _ _ Hs1). }
  { apply (room_step s1 s2 H (fview s1)); [done|]. by apply (room_step s s1 H (fview s)). }
  intros s3 Hinv3 Hs3 Hi3. assert (∀ y, fview s3 y = wr (fview s) a x y) as HV3.
  { intros y. rewrite (fst_view _ _ _ _ Hs3). by apply wr_ext. }
  assert (icache s3 = icache s) as Hi03 by congruence. assert (fsb s3 = fsb s) as Hsb3.
  { by rewrite (fst_sb _ _ _ _ Hs3), (fst_sb _ _ _ _ Hs2). }
  assert (fs_step s s3 H (fview s3)) as Hs03.
  { eapply fs_step_trans; [exact Hs1|]. eapply fs_step_trans; [exact Hs2|]. eapply fs_step_ext; [exact Hs3|]. intros y. symmetry. apply Hs3. }
  apply wp_ret. rewrite u32_small by lia.
  apply wp_bind. eapply wp_getopt; [by rewrite Hi03|]. rewrite Z.gtb_ltb, (proj2 (Z.ltb_ge (i_size p) (off + 16))), andb_false_r by lia.
  apply wp_bind, wp_ret, wp_ret. change (s32 16) with 16.
  assert (written s s3 i p (i_addrs p) (Z.to_nat off) data 0) as Hwr.
  { eapply (written_over s s3 i p off data bn a H L R); try done; lia. }
  assert (file_written s s3 i p p off data 0) as Hfw.
  { assert (after_write p (i_addrs p) off (Z.of_nat (length data)) = p) as Hsame by (rewrite after_write_inside by lia; apply set_i_addrs_id).
    change 0%nat with (2 * 0)%nat. rewrite <- Hsame at 2.
    eapply (written_done s s3 s3); try done; try lia; rewrite ?Hsame.
    - rewrite Hi03. symmetry. by apply list_insert_id.
    - intros Hd. by rewrite (written_inodes _ _ _ _ _ _ _ _ _ _ _ _ Hinv Hwr Hsb3 Hi).
    - intros m Hmr _. by eapply written_inodes. }
  eapply HQ; [exact Hinv3|apply logged_length|done| |done|done].
  eapply file_in_written; [exact Hinv|exact Hf|exact Hfw|lia|lia].
Qed.

(** ** Giving back references *)
Lemma good_perm s H L R R' : R ≡ₚ R' → fs_good s H L R → fs_good s H L R'.
Proof. intros HR Hg. eapply good_reading; [exact Hg|]. eapply reading_perm; [exact HR|apply Hg]. Qed.
Lemma held_perm s R R' i p n : R ≡ₚ R' → held s R i p n → held s R' i p n.
Proof. intros HR []. constructor; try done. by rewrite <- HR. Qed.

Lemma wp_iput_good E i p H L R (Q : unit → fss D X → Prop) s :
  fs_good s H L (i :: R) → icache s !! i = Some p → (length R < NINODE)%nat → i_valid p = 0 ∨ i_nlink p ≠ 0 ∨ i_ref p ≠ 1 →
  (∀ s', fs_good s' H L R → fs_step s s' H (fview s) → icache s' = <[i:=set_i_ref (i_ref p - 1) p]> (icache s) → Q tt s') →
  wp E (iput i) Q s.
Proof.
  intros Hg Hp HR Hkeep HQ. eapply wp_iput_keep; [by apply fg_inv|unfold NINODE in *; lia|done|done|].
  intros s' Hinv' Hs' Hi'. apply HQ; [|done|done]. eapply good_reading; [exact Hg|]. eapply reading_step; [apply Hg|done|done|].
  rewrite Hi'. apply icsync_insert; [by eapply fg_sync|]. intros Hr Hv. cbn in Hr, Hv. apply (fg_sync _ _ _ _ Hg i p); [done|lia|done].
Qed.

(** The disk [V'] has inode [n] and its blocks back among the free ones. *)
Definition reclaimed (sb : superblock) (V V' : disk) (n : Z) : Prop :=
  di_type (inode_at V' sb n) = 0 ∧ ∀ b, b ∈ owned sb V n → used V' sb b = false.

Lemma trunc_changed s s' p H L R : fs_good s H L R → live (fsb s) (fview s) (i_inum p) →
  i_disk p = inode_at (fview s) (fsb s) (i_inum p) → trunc_disk s s' p → fsb s' = fsb s →
  changed (fsb s) (fview s) (fview s') (i_inum p).
Proof.
  intros Hg Hl Hd [Hu Ho Hf] Hsb. pose proof (fg_inv _ _ _ _ Hg) as Hinv. destruct (geometry _ _ _ _ Hinv) as (Hbm & Hsz & Hlt & _).
  constructor.
  - intros m Hm Hne. specialize (Ho m Hm Hne). unfold disk_inode in Ho. by rewrite Hsb in Ho.
  - intros m a Hm Hne Ha. destruct (wf_data _ _ _ (wh_own _ _ _ (tr_whole _ _ (fg_tree _ _ _ _ Hg) m Hm)) a Ha) as [Hra Hua].
    destruct (inode_block s H L R (i_inum p) Hinv (proj1 Hl)) as (_ & _ & Hib & _). split; [apply Hf; lia|].
    rewrite Hu by lia. rewrite decide_False; [done|]. intros Hin. apply Hne. eapply (tr_disj _ _ (fg_tree _ _ _ _ Hg)); [done|done|exact Ha|].
    unfold owned. by rewrite <- Hd.
Qed.

(** The last reference to an inode without links. *)
Lemma wp_iput_last E i p n H L R (Q : unit → fss D X → Prop) s :
  fs_good s H L (i :: R) → held s (i :: R) i p n → i_nlink p = 0 → i ∉ R →
  room s L 3 → (S (length H) + S (S (length L)) < NBUF)%nat →
  (∀ s' L', node_step s s' H L L' R n 2 → reclaimed (fsb s) (fview s) (fview s') n → (∀ j, j ∈ R → ¬ slot_of s' j n) → Q tt s') →
  wp E (iput i) Q s.
Proof.
  intros Hg Hh Hnl Hi Hroom Hbuf HQ. pose proof (fg_inv _ _ _ _ Hg) as Hinv. pose proof Hh as [Hp _ Hv Hn]. subst n.
  destruct (held_sync _ _ _ _ _ _ _ Hg Hh) as (Hd & Hdev & Hrn & Ht). pose proof (held_live _ _ _ _ _ _ _ Hg Hh) as Hl.
  destruct (tr_whole _ _ (fg_tree _ _ _ _ Hg) _ Hl) as [Hok _ _ Hw]. rewrite <- Hd in Hok, Hw. destruct (geometry _ _ _ _ Hinv) as (Hbm & Hsz & Hlt & _).
  assert (i_ref p = 1) as Hr1 by (rewrite (ic_ref _ _ (fi_icache _ _ _ _ Hinv) i p Hp), refs_cons, decide_True, refs_zero by done; lia).
  eapply (wp_iput_free E i p H L R); try done. intros s' L1 HL1 Hinv' Htd Hdi Hs' Hic. pose proof (fst_sb _ _ _ _ Hs') as Hsb.
  assert (di_type (inode_at (fview s') (fsb s) (i_inum p)) = 0) as Hty.
  { specialize (Hdi Hok). unfold disk_inode in Hdi. rewrite Hsb in Hdi. unfold inode_at. by rewrite Hdi. }
  pose proof (trunc_changed _ _ _ _ _ _ Hg Hl Hd Htd Hsb) as Hch. pose proof (bm_logged_length _ _ _ HL1).
  pose proof (logged_length L1 (IBLOCK (i_inum p) (fsb s))).
  assert (∀ j q, j ∈ R → icache s' !! j = Some q → icache s !! j = Some q ∧ j ≠ i) as Hother.
  { intros j q Hj Hq. assert (j ≠ i) as Hne by (intros ->; done). rewrite Hic, list_lookup_insert_ne in Hq by done. done. }
  eapply (HQ s' (logged L1 (IBLOCK (i_inum p) (fsb s)))); [constructor; [|lia|done|done]|split; [done|]|].
  - eapply (good_step s s' _ _ _ _ _ (i_inum p) i (dropped p)); try done.
    + eapply (tree_changed_named _ _ _ (i_inum p)); [apply Hg|done|..].
      * by intros [_ ?].
      * by intros a [_ ?].
      * intros m name off Hm Hne HT He. exfalso. destruct (tr_dirs _ _ (fg_tree _ _ _ _ Hg) m Hm HT) as (_ & _ & _ & _ & Hent).
        destruct (Hent _ _ _ He) as (_ & _ & Hlk). rewrite <- Hd in Hlk. change (1 ≤ i_nlink p) in Hlk. lia.
      * by intros (_ & ? & _).
    + intros b Hb. rewrite Hsb in *. rewrite (td_used _ _ _ Htd) by lia. rewrite decide_False; [by apply Hg|].
      intros Hin. destruct (wf_data _ _ _ Hw b Hin). lia.
    + intros j q Hq Hrq Hvq Hnq. by eapply (held_unique _ _ _ _ _ _ _ _ _ Hg Hh).
  - intros b Hb. unfold owned in Hb. rewrite <- Hd in Hb. destruct (wf_data _ _ _ Hw b Hb). rewrite (td_used _ _ _ Htd) by lia.
    by rewrite decide_True.
  - intros j Hj (q & Hq & Hqd & Hqn). destruct (Hother j q Hj Hq) as [Hq' Hne]. apply Hne.
    eapply (ic_uniq _ _ (fi_icache _ _ _ _ Hinv) j i q p); try done; [|lia|congruence].
    eapply (held_ref s H L (i :: R)); [done|done|by right].
Qed.

(** ** Taking the entry out *)
Lemma wp_clear_entry E i p d name n off H L R (Q : Z → fss D X → Prop) s :
  let c := contents (fview s) (i_disk p) in
  fs_good s H L R → held s R i p d → linked (fview s) (fsb s) d → i_type p = T_DIR → dir_lookup name c = Some (n, off) →
  named_once name c off →
  room s L 1 → (length H + length L < NBUF)%nat →
  (∀ s' L', node_step s s' H L L' R d 1 → held s' R i p d → icache s' = icache s → inode_at (fview s') (fsb s) d = i_disk p →
     contents (fview s') (i_disk p) = splice (Z.to_nat off) no_entry c →
     (∀ nm, dir_lookup nm (contents (fview s') (i_disk p)) =
        if decide (cname DIRSIZ nm = cname DIRSIZ name) then None else dir_lookup nm c) → Q 16 s') →
  wp E (writei devtab i no_entry off 16) Q s.
Proof.
  intros c Hg Hh Hlk HT Hlook Huniq Hroom Hfree HQ. pose proof (fg_inv _ _ _ _ Hg) as Hinv. pose proof Hh as [Hp Hi Hv Hn]. subst d.
  destruct (held_sync _ _ _ _ _ _ _ Hg Hh) as (Hd & Hdev & Hrn & Ht0).
  destruct (linked_dir _ _ _ _ _ _ _ _ (tr_dirs _ _ (fg_tree _ _ _ _ Hg)) (fg_reading _ _ _ _ Hg) Hlk Hdev Hd HT) as [Hdir _].
  pose proof Hdir as [(_ & Hsz & _) _ _ Hmod Hb]. fold c in Hb.
  assert (length c = Z.to_nat (i_size p)) as Hlc by (apply length_contents; [intros; by eapply fview_512|cbn [di_size i_disk]; lia]).
  pose proof (Z_div_mod_eq_full (i_size p) 16) as Hdm. assert (0 ≤ i_size p / 16) by (apply Z.div_pos; lia).
  set (n16 := Z.to_nat (i_size p / 16)). assert (length c = (16 * n16)%nat) as Hl16 by lia.
  assert (length c / 16 = n16)%nat as Hdiv by (rewrite Hl16, Nat.mul_comm, Nat.div_mul; lia).
  unfold dir_lookup in Hlook. unfold named_once in Huniq. rewrite Hdiv in Hlook, Huniq.
  destruct (dir_find_found _ _ _ _ _ _ Hlook) as (k & Hk & -> & _ & Hent).
  eapply (wp_writei_entry E i p no_entry); [done|apply Hg|eapply held_file; [done..|by rewrite HT]|done|lia| |lia|done|done|].
  { replace (Z.of_nat (16 * k)) with (Z.of_nat k * 16) by lia. apply Z.mod_mul. lia. }
  intros s' L' Hinv' HL' Hs' Hf' Hic Hfw. destruct (written_changed _ _ _ _ _ _ _ _ _ _ _ Hg Hh Hfw) as [Hch Hnew].
  pose proof Hfw as [_ _ Hco _ _ Hsb Hm _ _ _ _ _ Hfresh]. fold c in Hco. rewrite Nat2Z.id in Hco.
  assert (∀ nm, dir_lookup nm (contents (fview s') (i_disk p)) =
    if decide (cname DIRSIZ nm = cname DIRSIZ name) then None else dir_lookup nm c) as Hnames.
  { intros nm. rewrite Hco. case_decide; [|by eapply (dir_clear_other c n16 k name); [done|lia|done|done]].
    eapply (dir_clear_same c n16 k name); try done; [lia|]. intros j Hj Hej. specialize (Huniq j Hj Hej). lia. }
  assert (∀ m, linked (fview s) (fsb s) m → linked (fview s') (fsb s) m) as Hmono.
  { intros m Hm'. destruct (decide (m = i_inum p)) as [->|]; [|by apply (changed_linked _ _ _ _ Hch)].
    unfold linked in *. by rewrite Hnew, Hd. }
  assert (tree (fsb s) (fview s')) as Htree.
  { destruct Hf' as [_ (_ & _ & Hmap) Hw Hdi _ _]. rewrite Hsb in Hw.
    eapply (tree_changed _ _ _ (i_inum p)); [apply Hg|done|by rewrite Hnew|..]; unfold owned; rewrite ?Hnew, <- ?Hd.
    - intros a _ [Ha|Ha]%Hfresh; [left; split; [by apply linked_live|done]|by right].
    - by apply Hmono.
    - intros _ _. split_and!; [done|rewrite Hco; by apply bytes_clear|]. intros nm x o. rewrite Hnames. case_decide; [done|].
      intros Hx. apply Hmono. destruct (tr_dirs _ _ (fg_tree _ _ _ _ Hg) _ Hlk) as (_ & _ & _ & _ & He); [by rewrite <- Hd|].
      rewrite <- Hd in He. by eapply He. }
  eapply (HQ s' L'); try done; [|constructor; [by rewrite Hic|done..]|by rewrite Nat2Z.id].
  constructor; [|lia|done|done]. eapply (good_step s s' _ _ _ _ _ (i_inum p) i p); try done.
  - rewrite Hic. symmetry. by apply list_insert_id.
  - intros j q Hq Hrq Hvq Hnq. by eapply (held_unique _ _ _ _ _ _ _ _ _ Hg Hh).
Qed.

(** The tree when an inode that no directory names loses its last link. *)
Lemma tree_orphan s H L R V' n d :
  let d0 := inode_at (fview s) (fsb s) n in
  fs_good s H L R → live (fsb s) (fview s) n → agree (fsb s) (fview s) V' → changed (fsb s) (fview s) V' n →
  inode_at V' (fsb s) n = d → dinode_ok d → di_type d = di_type d0 → di_size d = di_size d0 → di_addrs d = di_addrs d0 →
  di_nlink d = 0 →
  (∀ m name off, linked (fview s) (fsb s) m → m ≠ n → di_type (inode_at (fview s) (fsb s) m) = T_DIR →
     dir_lookup name (contents (fview s) (inode_at (fview s) (fsb s) m)) ≠ Some (n, off)) →
  tree (fsb s) V' ∧ contents V' d = contents (fview s) d0.
Proof.
  intros d0 Hg Hl Hag Hch Hnew Hok Hty Hsz Had Hnl Hno. pose proof (fg_tree _ _ _ _ Hg) as Htr.
  destruct (tr_whole _ _ Htr n Hl) as [_ Hs Hm Hw]. fold d0 in Hs, Hm, Hw.
  pose proof (agree_kept _ _ _ _ V' n Hg Hl Hag) as Hkept. unfold owned in Hkept. fold d0 in Hkept. split.
  - eapply (tree_changed_named _ _ _ n); [done|done|..].
    + intros _. rewrite Hnew. constructor; rewrite ?Hsz, ?Had; [done..| |]; [by eapply kept_mapped|by eapply kept_wfile].
    + intros a _. unfold owned. rewrite Hnew, Had. fold d0. rewrite (kept_ftab _ _ _ _ Hkept). by left.
    + intros m name off Hm' Hne HT He. by destruct (Hno m name off Hm' Hne HT).
    + intros (_ & _ & Hlk). rewrite Hnew in Hlk. lia.
  - rewrite <- (kept_contents _ _ _ _ Hkept d0 eq_refl Hm). unfold contents. by rewrite Hsz, Had.
Qed.
End unlink.
