(* ===== verification/File.v ===== *)
(** * file.c: open files and operations on paths

    The state is the file system below and the table of open files; a
    [struct file*] is an index into the table. Every routine that changes the
    disk runs between [begin_op] and [end_op], as in the code. *)

From S2P Require Import Prelude Spinlock CString Ide Bio BioFacts Layout Log Fs.

Definition NFILE : nat := 100.
Definition MAXOPBLOCKS : Z := 10.
Definition O_RDONLY : Z := 0.
Definition O_WRONLY : Z := 1.
Definition O_RDWR : Z := 2.
Definition O_CREATE : Z := 0x200.

Inductive ftype := FD_NONE | FD_INODE.
#[global] Instance ftype_eq_dec : EqDecision ftype.
Proof. solve_decision. Defined.

Record file := mk_file {
  f_type : ftype;
  f_ref : Z;
  f_readable : Z;
  f_writable : Z;
  f_ip : option nat;
  f_off : Z;
}.
Definition set_f_type v (f : file) : file := mk_file v (f_ref f) (f_readable f) (f_writable f) (f_ip f) (f_off f).
Definition set_f_ref v (f : file) : file := mk_file (f_type f) v (f_readable f) (f_writable f) (f_ip f) (f_off f).
Definition set_f_off v (f : file) : file := mk_file (f_type f) (f_ref f) (f_readable f) (f_writable f) (f_ip f) v.

Definition set_i_major v (p : inode) : inode :=
  mk_inode (i_dev p) (i_inum p) (i_ref p) (i_valid p) (i_type p) v (i_minor p) (i_nlink p) (i_size p) (i_addrs p).
Definition set_i_minor v (p : inode) : inode :=
  mk_inode (i_dev p) (i_inum p) (i_ref p) (i_valid p) (i_type p) (i_major p) v (i_nlink p) (i_size p) (i_addrs p).
Definition set_i_nlink v (p : inode) : inode :=
  mk_inode (i_dev p) (i_inum p) (i_ref p) (i_valid p) (i_type p) (i_major p) (i_minor p) v (i_size p) (i_addrs p).

Record fls (D X : Type) := mk_fls { ffs : fss D X; ftable : list file }.
Arguments mk_fls {D X}.
Arguments ffs {D X}.
Arguments ftable {D X}.

(** [(c) ? 1 : 0] of a C truth value. *)
Definition cbool (b : bool) : Z := if b then 1 else 0.
Definition DOT : list Z := [46; 0].
Definition DOTDOT : list Z := [46; 46; 0].

Section file.
Context {D X : Type} {dev : IdeDevice D}.
Context (devtab : list (@devsw D X)).

Definition set_ffs v (s : fls D X) : fls D X := mk_fls v (ftable s).
Definition set_ftable v (s : fls D X) : fls D X := mk_fls (ffs s) v.
Definition fs_do {A} (m : M (fss D X) A) : M (fls D X) A := zoom ffs set_ffs m.
Definition get_file (f : nat) : M (fls D X) file := getopt (λ s, ftable s !! f).
Definition mod_file (f : nat) (g : file → file) : M (fls D X) unit :=
  x ← get_file f; modify (λ s, set_ftable (<[f:=g x]> (ftable s)) s).
Definition f_pushcli : M (fls D X) unit := fs_do (dio (on_cpu pushcli)).
Definition f_popcli : M (fls D X) unit := fs_do (dio (on_cpu popcli)).
Definition f_begin_op : M (fls D X) unit := fs_do (lo begin_op).
Definition f_end_op : M (fls D X) unit := fs_do (lo end_op).
(** Following an inode pointer that must not be null. *)
Definition ideref (ip : option nat) : M (fls D X) nat :=
  match ip with Some i => mret i | None => undef end.

Definition fileinit : M (fls D X) unit := mret tt.

Fixpoint filealloc_scan (k f : nat) : M (fls D X) (option nat) :=
  match k with
  | O => mret None
  | S k =>
      x ← get_file f;
      if f_ref x =? 0 then mod_file f (set_f_ref 1);; mret (Some f) else filealloc_scan k (S f)
  end.
Definition filealloc : M (fls D X) (option nat) :=
  f_pushcli;;
  r ← filealloc_scan NFILE 0;
  f_popcli;;
  mret r.

Definition filedup (f : nat) : M (fls D X) nat :=
  f_pushcli;;
  x ← get_file f;
  if f_ref x <? 1 then panic "filedup" else
  mod_file f (λ x, set_f_ref (s32 (f_ref x + 1)) x);;
  f_popcli;;
  mret f.

Definition fileclose (f : nat) : M (fls D X) unit :=
  f_pushcli;;
  x ← get_file f;
  if f_ref x <? 1 then panic "fileclose" else
  mod_file f (λ x, set_f_ref (s32 (f_ref x - 1)) x);;
  x ← get_file f;
  if f_ref x >? 0 then f_popcli else
  let ff := x in
  mod_file f (set_f_ref 0);;
  mod_file f (set_f_type FD_NONE);;
  f_popcli;;
  if bool_decide (f_type ff = FD_INODE) then
    f_begin_op;;
    ip ← ideref (f_ip ff);
    fs_do (iput ip);;
    f_end_op
  else mret tt.

(** The result and, on success, what is stored through [st]. *)
Definition filestat (f : nat) : M (fls D X) (Z * option stat) :=
  x ← get_file f;
  if bool_decide (f_type x = FD_INODE) then
    fs_do (iread (f_ip x));;
    ip ← ideref (f_ip x);
    st ← fs_do (stati ip);
    mret (0, Some st)
  else mret (-1, None).

(** The result and the bytes stored through [addr]. *)
Definition fileread (f : nat) (n : Z) : M (fls D X) (Z * list Z) :=
  x ← get_file f;
  if f_readable x =? 0 then mret (-1, []) else
  if bool_decide (f_type x = FD_INODE) then
    fs_do (iread (f_ip x));;
    ip ← ideref (f_ip x);
    r ← fs_do (readi devtab ip (f_off x) (u32 n));
    (if r.1 >? 0 then mod_file f (λ x, set_f_off (u32 (f_off x + r.1)) x) else mret tt);;
    mret r
  else panic "fileread".

(** The write loop: [addr] is the data from [addr + i] on. *)
Fixpoint filewrite_loop (fuel : nat) (f : nat) (addr : list Z) (n i : Z) : M (fls D X) Z :=
  match fuel with
  | O => hang
  | S fuel =>
      if i <? n then
        let max := ((MAXOPBLOCKS - 1 - 1 - 2) / 2) * 512 in
        let n1 := if n - i >? max then max else n - i in
        f_begin_op;;
        x ← get_file f;
        fs_do (iread (f_ip x));;
        ip ← ideref (f_ip x);
        r ← fs_do (writei devtab ip addr (f_off x) (u32 n1));
        (if r >? 0 then mod_file f (λ x, set_f_off (u32 (f_off x + r)) x) else mret tt);;
        f_end_op;;
        if r <? 0 then mret i else
        if negb (r =? n1) then panic "short filewrite" else
        filewrite_loop fuel f (drop (Z.to_nat r) addr) n (i + r)
      else mret i
  end.
Definition filewrite (f : nat) (addr : list Z) (n : Z) : M (fls D X) Z :=
  x ← get_file f;
  if f_writable x =? 0 then mret (-1) else
  if bool_decide (f_type x = FD_INODE) then
    i ← filewrite_loop (S (Z.to_nat n)) f addr n 0;
    mret (if i =? n then n else -1)
  else panic "filewrite".

Fixpoint isdirempty_loop (fuel : nat) (dp : nat) (off : Z) : M (fls D X) Z :=
  match fuel with
  | O => hang
  | S fuel =>
      p ← fs_do (get_inode dp);
      if off <? i_size p then
        r ← fs_do (readi devtab dp off 16);
        if negb (r.1 =? 16) then panic "isdirempty: readi" else
        if negb (de_inum (dec_dirent r.2) =? 0) then mret 0
        else isdirempty_loop fuel dp (off + 16)
      else mret 1
  end.
Definition isdirempty (dp : nat) : M (fls D X) Z :=
  p ← fs_do (get_inode dp);
  isdirempty_loop (Z.to_nat (i_size p / 16 + 2)) dp 32.

Definition unlink (path name : list Z) : M (fls D X) Z :=
  f_begin_op;;
  r ← fs_do (nameiparent devtab path name);
  match r.1 with
  | None => f_end_op;; mret (-1)
  | Some dp =>
      let name := r.2 in
      let bad := fs_do (iput dp);; f_end_op;; mret (-1) in
      fs_do (iread (Some dp));;
      c1 ← fs_do (ofopt (namecmp name DOT));
      c2 ← fs_do (if c1 =? 0 then mret 0 else ofopt (namecmp name DOTDOT));
      if (c1 =? 0) || (c2 =? 0) then bad else
      e ← fs_do (dirlookup devtab dp name);
      match e with
      | None => bad
      | Some (ip, off) =>
          fs_do (iread (Some ip));;
          p ← fs_do (get_inode ip);
          if i_nlink p <? 1 then panic "unlink: nlink < 1" else
          empty ← (if i_type p =? T_DIR then isdirempty ip else mret 1);
          if empty =? 0 then fs_do (iput ip);; bad else
          w ← fs_do (writei devtab dp (replicate 16 0) off 16);
          if negb (w =? 16) then panic "unlink: writei" else
          (if i_type p =? T_DIR then
             fs_do (mod_inode dp (λ p, set_i_nlink (s16 (i_nlink p - 1)) p));;
             fs_do (iupdate dp)
           else mret tt);;
          fs_do (iput dp);;
          fs_do (mod_inode ip (λ p, set_i_nlink (s16 (i_nlink p - 1)) p));;
          fs_do (iupdate ip);;
          fs_do (iput ip);;
          f_end_op;;
          mret 0
      end
  end.

(** [name] is the uninitialised local array; [ialloc] never returns null. *)
Definition create (path : list Z) (type major minor : Z) (name : list Z) : M (fls D X) (option nat) :=
  r ← fs_do (nameiparent devtab path name);
  match r.1 with
  | None => mret None
  | Some dp =>
      let name := r.2 in
      fs_do (iread (Some dp));;
      e ← fs_do (dirlookup devtab dp name);
      match e with
      | Some (ip, _) =>
          fs_do (iput dp);;
          fs_do (iread (Some ip));;
          p ← fs_do (get_inode ip);
          if (type =? T_FILE) && (i_type p =? T_FILE) then mret (Some ip) else
          fs_do (iput ip);;
          mret None
      | None =>
          d ← fs_do (get_inode dp);
          ip ← fs_do (ialloc (i_dev d) type);
          fs_do (iread (Some ip));;
          fs_do (mod_inode ip (set_i_major (s16 major)));;
          fs_do (mod_inode ip (set_i_minor (s16 minor)));;
          fs_do (mod_inode ip (set_i_nlink 1));;
          fs_do (iupdate ip);;
          p ← fs_do (get_inode ip);
          (if type =? T_DIR then
             fs_do (mod_inode dp (λ p, set_i_nlink (s16 (i_nlink p + 1)) p));;
             fs_do (iupdate dp);;
             l1 ← fs_do (dirlink devtab ip DOT (i_inum p));
             if l1 <? 0 then panic "create dots" else
             l2 ← fs_do (dirlink devtab ip DOTDOT (i_inum d));
             if l2 <? 0 then panic "create dots" else mret tt
           else mret tt);;
          l ← fs_do (dirlink devtab dp name (i_inum p));
          if l <? 0 then panic "create: dirlink" else
          fs_do (iput dp);;
          mret (Some ip)
      end
  end.

(** The inode [open] works on, before a file structure is allocated. *)
Definition open_inode (path : list Z) (omode : Z) (name : list Z) : M (fls D X) (option nat) :=
  if negb (Z.land omode O_CREATE =? 0) then create path T_FILE 0 0 name
  else
    r ← fs_do (namei devtab path name);
    match r with
    | None => mret None
    | Some ip =>
        fs_do (iread (Some ip));;
        p ← fs_do (get_inode ip);
        if (i_type p =? T_DIR) && negb (omode =? O_RDONLY) then fs_do (iput ip);; mret None
        else mret (Some ip)
    end.
Definition opened (ip : nat) (omode : Z) (f : file) : file :=
  mk_file FD_INODE (f_ref f) (cbool (Z.land omode O_WRONLY =? 0))
    (cbool (negb (Z.land omode O_WRONLY =? 0) || negb (Z.land omode O_RDWR =? 0))) (Some ip) 0.
Definition open (path : list Z) (omode : Z) (name : list Z) : M (fls D X) (option nat) :=
  f_begin_op;;
  r ← open_inode path omode name;
  match r with
  | None => f_end_op;; mret None
  | Some ip =>
      fa ← filealloc;
      match fa with
      | None => fs_do (iput ip);; f_end_op;; mret None
      | Some f =>
          mod_file f (opened ip omode);;
          f_end_op;;
          mret (Some f)
      end
  end.

Definition mknod (path : list Z) (major minor : Z) (name : list Z) : M (fls D X) Z :=
  f_begin_op;;
  r ← create path T_DEV major minor name;
  match r with
  | None => f_end_op;; mret (-1)
  | Some ip => fs_do (iput ip);; f_end_op;; mret 0
  end.

Definition mkdir (path : list Z) (name : list Z) : M (fls D X) Z :=
  f_begin_op;;
  r ← create path T_DIR 0 0 name;
  match r with
  | None => f_end_op;; mret (-1)
  | Some ip => fs_do (iput ip);; f_end_op;; mret 0
  end.
End file.
