(* ===== verification/FileFacts.v ===== *)
(** * file.c: transactions and writing to open files

    [end_op] over the invariant of the file system, and [filewrite]: every
    chunk is a transaction of its own, so that after a power failure the file
    holds the data up to a chunk boundary. *)

From S2P Require Import Prelude Spinlock CString Ide Bio BioFacts Layout Log LogDisk LogFacts LogSpecs LogCrash Fs FsFacts FsInodes FsFiles FsTable FsWrite FsWritei FsNames File.

Section txn.
Context {D X : Type} {dev : IdeDevice D} {dok : IdeDeviceOk D}.
Implicit Types s : fss D X.

(** What [end_op] does to the file system: blocks outside the log read as
    before, and the platter has them. *)
Record committed s s' (L : list Z) : Prop := {
  cm_view b : home (log_start (lg (flog s))) (log_size (lg (flog s))) b → fview s' b = fview s b;
  cm_platter b : home (log_start (lg (flog s))) (log_size (lg (flog s))) b → platter (fio s') b = fview s b;
  cm_media b : platter (fio s') b = replay (platter (fio s)) (commit_trace (flog s) L) b;
  cm_wrote : wrote (fio s') = wrote (fio s) ++ on_root (commit_trace (flog s) L);
  cm_sb : fsb s' = fsb s;
  cm_icache : icache s' = icache s;
  cm_start : log_start (lg (flog s')) = log_start (lg (flog s));
  cm_lsize : log_size (lg (flog s')) = log_size (lg (flog s));
  cm_rest : frest s' = frest s;
}.

Lemma wp_end_op E H L R (Q : unit → fss D X → Prop) s :
  fs_inv s H L R → (length H + length L < NBUF)%nat →
  (∀ s', fs_inv s' H [] R → committed s s' L → Q tt s') → wp E (lo end_op) Q s.
Proof.
  intros [Hlog Hg Hic] Hbuf HQ. apply wp_lo. eapply wp_commit; [done..|]. intros l' V Hlog' Hs Hlg.
  pose proof (commit_result _ _ _ _ _ Hlog Hlog' Hs) as Hres. apply HQ.
  - constructor; [done| |done]. destruct Hg. constructor; cbn [flog set_flog fsb]; rewrite ?Hlg; done.
  - constructor; cbn [flog set_flog fsb icache]; try (by rewrite Hlg); try done; try apply Hs; intros b Hb; by apply Hres.
Qed.

(** ** What files depend on *)
Lemma above_home s H L R b : fs_inv s H L R → sb_inodestart (fsb s) ≤ b →
  home (log_start (lg (flog s))) (log_size (lg (flog s))) b.
Proof. intros [_ [] _] Hb. right. lia. Qed.
Lemma committed_agree s s' H L L' R : fs_inv s H L' R → committed s s' L → agree (fsb s) (fview s) (fview s').
Proof.
  intros Hinv Hc b Hb. apply (cm_view _ _ _ Hc). eapply above_home; [done|].
  destruct (fi_geom _ _ _ _ Hinv). assert (0 ≤ sb_ninodes (fsb s) / IPB) by (apply Z.div_pos; unfold IPB; lia). lia.
Qed.
Lemma committed_inode s s' H L L' R m : fs_inv s H L' R → committed s s' L → 0 ≤ m < sb_ninodes (fsb s) →
  disk_inode s' m = disk_inode s m.
Proof.
  intros Hinv Hc Hm. unfold disk_inode. rewrite (cm_sb _ _ _ Hc), (cm_view _ _ _ Hc); [done|].
  right. apply (inode_block s H L' R m Hinv Hm).
Qed.

Lemma file_in_agree s s' i p H L R :
  fs_inv s H L R → file_in s i p → agree (fsb s) (fview s) (fview s') → fsb s' = fsb s → icache s' !! i = Some p →
  file_in s' i p.
Proof.
  intros Hinv [Hp (Hd & Hs & Hm) Hw Hdi Hty Hi] Hag Hsb Hp'. destruct (bmapstart_pos s H L R Hinv) as [Hbm H1000].
  constructor; rewrite ?Hsb; try done.
  - split_and!; [done|lia|lia|]. by eapply agree_mapped.
  - by eapply agree_wfile; try done; apply (gm_bmap _ _ (fi_geom _ _ _ _ Hinv)).
Qed.
Lemma contents_agree sb V V' d :
  agree sb V V' → wfile V sb (di_addrs d) → 0 ≤ sb_bmapstart sb → sb_size sb ≤ 1000 → sb_bmapstart sb < sb_size sb →
  (∀ b, length (V b) = 512%nat) → (∀ b, length (V' b) = 512%nat) →
  0 ≤ di_size d ≤ 71680 → mapped V (di_addrs d) (nblocks_of (di_size d)) → contents V' d = contents V d.
Proof.
  intros Hag Hw Hbm H1000 Hlt HV HV' Hs Hm. rewrite !contents_fdata; try done; [|by eapply agree_mapped].
  by rewrite (agree_fdata sb V V').
Qed.

(** The bytes of the file with inode number [n] on the disk [V]. *)
Definition file_data (V : disk) (sb : superblock) (n : Z) : list Z := contents V (inode_at V sb n).

(** A disk that has the blocks of [s] outside the log has its files. *)
Lemma file_data_home s i p H L R (V : disk) :
  fs_inv s H L R → file_in s i p → disk_inode s (i_inum p) = i_disk p →
  (∀ b, home (log_start (lg (flog s))) (log_size (lg (flog s))) b → V b = fview s b) →
  (∀ b, length (V b) = 512%nat) → file_data V (fsb s) (i_inum p) = contents (fview s) (i_disk p).
Proof.
  intros Hinv [Hp (Hd & Hs & Hm) Hw Hdi Hty Hi] Hdisk HV H512. destruct (bmapstart_pos s H L R Hinv) as [Hbm H1000].
  unfold file_data. assert (inode_at V (fsb s) (i_inum p) = i_disk p) as ->.
  { rewrite <- Hdisk. unfold inode_at, disk_inode. rewrite HV; [done|]. right. by apply (inode_block s H L R). }
  apply (contents_agree (fsb s)); try done.
  - intros b Hb. apply HV. eapply above_home; [done|].
    destruct (fi_geom _ _ _ _ Hinv). assert (0 ≤ sb_ninodes (fsb s) / IPB) by (apply Z.div_pos; unfold IPB; lia). lia.
  - apply (gm_bmap _ _ (fi_geom _ _ _ _ Hinv)).
  - intros b. by eapply fview_512.
Qed.

(** What a write leaves is still there after the commit. *)
Lemma file_in_committed s s' i p H L R : fs_inv s H L R → file_in s i p → committed s s' L → file_in s' i p.
Proof.
  intros Hinv Hf Hc. eapply file_in_agree; [done..|by eapply committed_agree|apply Hc|].
  rewrite (cm_icache _ _ _ Hc). apply Hf.
Qed.
Lemma meta_used_committed s s' H L R : fs_inv s H L R → meta_used s → committed s s' L → meta_used s'.
Proof.
  intros Hinv Hm Hc b Hb. destruct (bmapstart_pos s H L R Hinv) as [Hbm H1000]. pose proof (gm_bmap _ _ (fi_geom _ _ _ _ Hinv)).
  rewrite (cm_sb _ _ _ Hc) in *. rewrite (agree_used (fsb s) (fview s)); [by apply Hm|by eapply committed_agree|lia..].
Qed.
Lemma contents_committed s s' i p H L R :
  fs_inv s H L R → file_in s i p → committed s s' L → fs_inv s' H [] R →
  contents (fview s') (i_disk p) = contents (fview s) (i_disk p).
Proof.
  intros Hinv [_ (Hd & Hs & Hm) Hw _ _ _] Hc Hinv'. destruct (bmapstart_pos s H L R Hinv) as [Hbm H1000].
  apply (contents_agree (fsb s)); try done; [by eapply committed_agree|apply (gm_bmap _ _ (fi_geom _ _ _ _ Hinv))| |];
    intros b; by eapply fview_512.
Qed.

(** ** Transactions *)

(** Whatever was written on the way from [s] to [s'] when power was lost,
    recovery ends, with blocks that satisfy [P]. *)
Definition crash_outcome s s' (P : disk → Prop) : Prop :=
  ∀ r1 r2, lost (fio s) (fio s') r1 → rtc (power_lost (initlog ROOTDEV)) r1 r2 →
    ∃ r3, initlog ROOTDEV r2 = Ok (tt, r3) ∧ log_inv r3 [] [] ∧ P (view (lio r3)).
Definition all_or_nothing s s' (V : disk) : Prop :=
  (∀ b, home (log_start (lg (flog s))) (log_size (lg (flog s))) b → V b = fview s b) ∨
  (∀ b, home (log_start (lg (flog s))) (log_size (lg (flog s))) b → V b = fview s' b).
Definition wrote_by s s' : Prop :=
  ∃ ws, wrote (fio s') = wrote (fio s) ++ on_root ws ∧ ∀ b, platter (fio s') b = replay (platter (fio s)) ws b.

(** One transaction, from a state with an empty log to the next. *)
Record transacted s s' : Prop := {
  tx_wrote : wrote_by s s';
  tx_sb : fsb s' = fsb s;
  tx_start : log_start (lg (flog s')) = log_start (lg (flog s));
  tx_lsize : log_size (lg (flog s')) = log_size (lg (flog s));
  tx_current : sb_current (fio s') (lg (flog s'));
  tx_crash : crash_outcome s s' (all_or_nothing s s');
}.

Lemma transaction s s1 s' L R :
  fs_inv s [] [] R → sb_current (fio s) (lg (flog s)) → fs_inv s1 [] L R → fs_step s s1 [] (fview s1) →
  committed s1 s' L → transacted s s'.
Proof.
  intros Hinv Hcur Hinv1 Hs Hc. pose proof (fst_start _ _ _ _ Hs) as Hst. pose proof (fst_lsize _ _ _ _ Hs) as Hlsz.
  assert (sb_current (fio s1) (lg (flog s1))) as Hcur1.
  { unfold sb_current in *. by rewrite Hst, Hlsz, (fst_platter _ _ _ _ Hs). }
  assert (wrote (fio s') = wrote (fio s) ++ on_root (commit_trace (flog s1) L)) as Hw.
  { rewrite (cm_wrote _ _ _ Hc). f_equal. apply Hs. }
  assert (platter (fio s') 1 = platter (fio s) 1) as H1.
  { pose proof (lgm_start _ (li_geom _ _ _ (fi_log _ _ _ _ Hinv1))) as HLS.
    rewrite (cm_platter _ _ _ Hc) by (left; lia). unfold fview, fio.
    rewrite (view_clean _ [] L); [apply Hs|apply Hinv1|]. eapply blocks_not_sb, Hinv1. }
  constructor.
  - exists (commit_trace (flog s1) L). split; [done|]. intros b. rewrite (cm_media _ _ _ Hc). apply replay_ext, Hs.
  - rewrite (cm_sb _ _ _ Hc). apply Hs.
  - by rewrite (cm_start _ _ _ Hc).
  - by rewrite (cm_lsize _ _ _ Hc).
  - unfold sb_current in *. rewrite H1, (cm_start _ _ _ Hc), (cm_lsize _ _ _ Hc), Hst, Hlsz. done.
  - intros r1 r2 (Hb & k & ws & Hw' & Hp) Hr. rewrite Hw in Hw'. apply app_inv_head, on_root_inj in Hw' as <-.
    destruct (commit_recovers (flog s1) [] L r1 r2 k) as (r3 & Hrun & Hlog & Hv); [apply Hinv1|done|done| |done|].
    { intros b. rewrite Hp. apply replay_ext. intros j. symmetry. apply Hs. }
    exists r3. split_and!; [done..|]. rewrite Hst, Hlsz in Hv. destruct Hv as [Hv|Hv]; [left|right]; intros b Hb'; rewrite Hv by done.
    + change (platter (fio s1) b = fview s b). rewrite (fst_platter _ _ _ _ Hs). symmetry.
      eapply (view_clean _ [] []); [apply Hinv|set_solver].
    + symmetry. apply (cm_view _ _ _ Hc). by rewrite Hst, Hlsz.
Qed.

(** Power lost in one of two runs. *)
Lemma crash_outcome_trans s s1 s' P P' :
  wrote_by s s1 → wrote_by s1 s' → crash_outcome s s1 P → crash_outcome s1 s' P' → crash_outcome s s' (λ V, P V ∨ P' V).
Proof.
  intros (ws1 & Hw1 & Hp1) (ws2 & Hw2 & _) H1 H2 r1 r2 (Hb & k & ws & Hw & Hp) Hr.
  rewrite Hw2, Hw1, <- app_assoc, <- on_root_app in Hw. apply app_inv_head, on_root_inj in Hw as <-.
  destruct (decide (k ≤ length ws1)%nat) as [Hk|Hk].
  - rewrite take_app_le in Hp by done. destruct (H1 r1 r2) as (r3 & ? & ? & ?); [|done|by eauto].
    split; [done|]. eauto.
  - rewrite take_app_ge in Hp by lia. destruct (H2 r1 r2) as (r3 & ? & ? & ?); [|done|by eauto].
    split; [done|]. exists (k - length ws1)%nat, ws2. split; [done|]. intros b. rewrite Hp, replay_app.
    apply replay_ext. intros j. by rewrite Hp1.
Qed.
Lemma wrote_by_trans s s1 s' : wrote_by s s1 → wrote_by s1 s' → wrote_by s s'.
Proof.
  intros (ws1 & Hw1 & Hp1) (ws2 & Hw2 & Hp2). exists (ws1 ++ ws2). split.
  - by rewrite Hw2, Hw1, on_root_app, app_assoc.
  - intros b. rewrite Hp2, replay_app. by apply replay_ext.
Qed.
Lemma crash_outcome_weaken s s' (P P' : disk → Prop) :
  (∀ V, (∀ b, length (V b) = 512%nat) → P V → P' V) → crash_outcome s s' P → crash_outcome s s' P'.
Proof.
  intros HP Hc r1 r2 Hl Hr. destruct (Hc r1 r2 Hl Hr) as (r3 & ? & Hlog & ?). exists r3. split_and!; [done..|].
  apply HP; [|done]. intros b. eapply length_view, Hlog.
Qed.
End txn.

(** ** filewrite *)

(** The number of chunks of [n] bytes. *)
Definition chunks (n : Z) : nat := Z.to_nat ((n + 1535) / 1536).

Section filewrite.
Context {D X : Type} {dev : IdeDevice D} {dok : IdeDeviceOk D}.
Context (devtab : list (@devsw D X)).
Implicit Types s : fls D X.

Lemma wp_fs_do {A} E (m : M (fss D X) A) (Q : A → fls D X → Prop) s :
  wp E m (λ a t, Q a (set_ffs t s)) (ffs s) → wp E (fs_do m) Q s.
Proof. apply wp_zoom. Qed.
Lemma wp_begin_op E (Q : unit → fls D X → Prop) s : Q tt s → wp E f_begin_op Q s.
Proof. intros HQ. apply wp_fs_do, wp_lo, wp_ret. by destruct s as [[] ?]. Qed.
Lemma wp_mod_file E f x g (Q : unit → fls D X → Prop) s :
  ftable s !! f = Some x → Q tt (set_ftable (<[f:=g x]> (ftable s)) s) → wp E (mod_file f g) Q s.
Proof. intros Hx HQ. unfold mod_file. apply wp_bind. eapply wp_getopt; [done|]. by apply wp_modify. Qed.

(** Between transactions: [f] is open on the file in slot [i], at an offset
    inside it; the inode is read in and the disk has it. *)
Record writing s (f : nat) (x : file) (i : nat) (p : inode) (R : list nat) : Prop := {
  wg_inv : fs_inv (ffs s) [] [] R;
  wg_meta : meta_used (ffs s);
  wg_current : sb_current (fio (ffs s)) (lg (flog (ffs s)));
  wg_log : 26 ≤ log_size (lg (flog (ffs s)));
  wg_slot : ftable s !! f = Some x;
  wg_ip : f_ip x = Some i;
  wg_file : file_in (ffs s) i p;
  wg_valid : i_valid p ≠ 0;
  wg_ref : i ∈ R;
  wg_disk : disk_inode (ffs s) (i_inum p) = i_disk p;
  wg_off : 0 ≤ f_off x ≤ i_size p;
}.

(** Between transactions the file on the platter is the one in memory. *)
Lemma platter_file_data s f x i p R : writing s f x i p R →
  file_data (platter (fio (ffs s))) (fsb (ffs s)) (i_inum p) = contents (fview (ffs s)) (i_disk p).
Proof.
  intros [Hinv _ _ _ _ _ Hf _ _ Hd _]. eapply file_data_home; try done; [|intros b; apply media_length].
  intros b _. symmetry. eapply (view_clean _ [] []); [apply Hinv|set_solver].
Qed.

(** After [data] was written through [f], with at most [n] blocks allocated. *)
Record appended s s' (f : nat) (x : file) (i : nat) (p p' : inode) (R : list nat) (data : list Z) (n : nat) : Prop := {
  ap_writing : writing s' f (set_f_off (f_off x + Z.of_nat (length data)) x) i p' R;
  ap_inode : p' = after_write p (i_addrs p') (f_off x) (Z.of_nat (length data));
  ap_contents : contents (fview (ffs s')) (i_disk p') =
    splice (Z.to_nat (f_off x)) data (contents (fview (ffs s)) (i_disk p));
  ap_ftable : ftable s' = <[f:=set_f_off (f_off x + Z.of_nat (length data)) x]> (ftable s);
  ap_wrote : wrote_by (ffs s) (ffs s');
  ap_sb : fsb (ffs s') = fsb (ffs s);
  ap_free : (nfree (fview (ffs s)) (fsb (ffs s)) ≤ nfree (fview (ffs s')) (fsb (ffs s)) + n)%nat;
  ap_crash : crash_outcome (ffs s) (ffs s') (λ V, ∃ m, (m ≤ length data)%nat ∧
    (m = length data ∨ (1536 | Z.of_nat m)) ∧
    file_data V (fsb (ffs s)) (i_inum p) = splice (Z.to_nat (f_off x)) (take m data) (contents (fview (ffs s)) (i_disk p)));
}.

(** One transaction that writes [data]. *)
Lemma txn_appended s f x i p p' R data k (s1 s2 : fss D X) L :
  writing s f x i p R → fs_inv s1 [] L R → fs_step (ffs s) s1 [] (fview s1) → file_in s1 i p' →
  file_written (ffs s) s1 i p p' (f_off x) data k → committed s1 s2 L → fs_inv s2 [] [] R →
  appended s (mk_fls s2 (<[f:=set_f_off (f_off x + Z.of_nat (length data)) x]> (ftable s))) f x i p p' R data k.
Proof.
  intros [Hinv Hm Hcur Hlog Hx Hip Hf Hv Hr Hd Ho] Hinv1 Hs1 Hf1 Hfw Hc Hinv2.
  pose proof (transaction _ _ _ _ _ Hinv Hcur Hinv1 Hs1 Hc) as Htx. pose proof Hfw as [_ Hin Hco _ _ Hsb Hm1 Hd1 _ _ _ Hnf _].
  assert (i_inum p' = i_inum p) as Hnum by (by rewrite Hin).
  pose proof Hf as [Hp (_ & Hsz & _) _ _ _ Hi]. destruct (bmapstart_pos _ _ _ _ Hinv1) as [Hbm H1000].
  assert (contents (fview s2) (i_disk p') = splice (Z.to_nat (f_off x)) data (contents (fview (ffs s)) (i_disk p))) as Hco2.
  { rewrite <- Hco. by eapply contents_committed. }
  assert (disk_inode s2 (i_inum p') = i_disk p') as Hd2.
  { rewrite Hnum, (committed_inode s1 s2 [] L L R); [by apply Hd1|done|done|by rewrite Hsb]. }
  pose proof (file_in_committed _ _ _ _ _ _ _ Hinv1 Hf1 Hc) as Hf2.
  constructor; cbn [ffs ftable]; [|done|done|done|apply Htx|apply Htx| |].
  - constructor; cbn [ffs ftable]; [done|exact (meta_used_committed s1 s2 [] L R Hinv1 Hm1 Hc)|apply Htx| | |done|done| |done|done|].
    + by rewrite (tx_lsize _ _ Htx).
    + apply list_lookup_insert_eq. by eapply lookup_lt_Some.
    + by rewrite Hin.
    + rewrite Hin. cbn. lia.
  - rewrite <- Hsb. rewrite (agree_nfree (fsb s1) (fview s1) (fview s2)); [by rewrite Hsb|by eapply committed_agree|done..|].
    apply (gm_bmap _ _ (fi_geom _ _ _ _ Hinv1)).
  - eapply crash_outcome_weaken; [|apply Htx]. intros V H512 [Hold|Hnew].
    + exists 0%nat. split_and!; [lia|right; apply Z.divide_0_r|]. rewrite (file_data_home (ffs s) i p [] [] R V) by done.
      rewrite take_0. unfold splice. cbn [length app]. by rewrite Nat.add_0_r, take_drop.
    + exists (length data). split_and!; [lia|by left|]. rewrite firstn_all, <- Hco2, <- Hnum, <- (tx_sb _ _ Htx).
      eapply file_data_home; try done. by rewrite (tx_start _ _ Htx), (tx_lsize _ _ Htx).
Qed.

(** One chunk, as far as the end of its transaction. *)
Lemma wp_chunk E f x i p addr n R (c : Z → M (fls D X) Z) (Q : Z → fls D X → Prop) s :
  writing s f x i p R → 0 < n ≤ 1536 → n ≤ Z.of_nat (length addr) → f_off x + n ≤ 71680 →
  (8 ≤ nfree (fview (ffs s)) (fsb (ffs s)))%nat →
  (∀ p' s', appended s s' f x i p p' R (take (Z.to_nat n) addr) 8 → wp E (c n) Q s') →
  wp E (f_begin_op;;
        x ← get_file f;
        fs_do (iread (f_ip x));;
        ip ← ideref (f_ip x);
        r ← fs_do (writei devtab ip addr (f_off x) (u32 n));
        (if r >? 0 then mod_file f (λ x, set_f_off (u32 (f_off x + r)) x) else mret tt);;
        f_end_op;;
        c r) Q s.
Proof.
  intros Hw Hn Ha Hhi Hnf HQ. pose proof Hw as [Hinv Hm Hcur Hlog Hx Hip Hf Hv Hr Hd Ho]. pose proof Hf as [Hp Hok _ _ _ Hi].
  apply wp_bind, wp_begin_op. apply wp_bind. eapply wp_getopt; [done|]. rewrite Hip. apply wp_bind, wp_fs_do.
  eapply wp_iread; [done|done|done|apply Hok|done|cbn; unfold NBUF; lia| |done|done]. intros _.
  assert (set_ffs (ffs s) s = s) as -> by (by destruct s).
  apply wp_bind, wp_ret. apply wp_bind, wp_fs_do. rewrite u32_small by lia.
  assert (span (f_off x) n ≤ 4)%nat as Hk.
  { unfold span. pose proof (Z.mod_pos_bound (f_off x) 512 ltac:(lia)).
    assert ((n + f_off x mod 512 + 511) / 512 < 5) by (apply Z.div_lt_upper_bound; lia). lia. }
  eapply (wp_writei_file devtab); [done..|lia|lia|lia| | |lia|].
  { unfold room. cbn. lia. }
  { cbn. unfold NBUF. lia. }
  intros p' s1 L' Hinv1 HL1 Hs1 Hf1 Hfw. cbn [length] in HL1. set (data := take (Z.to_nat n) addr) in *.
  assert (Z.of_nat (length data) = n) as Hdl by (unfold data; rewrite length_take; lia).
  apply wp_bind. rewrite Z.gtb_ltb, (proj2 (Z.ltb_lt 0 n)) by lia. eapply wp_mod_file; [done|].
  rewrite u32_small by lia. apply wp_bind, wp_fs_do.
  eapply wp_end_op; [done|cbn; unfold NBUF; lia|]. intros s2 Hinv2 Hc. apply (HQ p').
  change (appended s (mk_fls s2 (<[f:=set_f_off (f_off x + n) x]> (ftable s))) f x i p p' R data 8). rewrite <- Hdl.
  eapply (txn_appended s f x i p p' R data 8 s1 s2 L'); [done..| |done|done].
  destruct Hfw. constructor; try done. lia.
Qed.

Lemma appended_nil s f x i p R : writing s f x i p R → appended s s f x i p p R [] 0.
Proof.
  intros Hw. pose proof Hw as [Hinv Hm Hcur Hlog Hx Hip Hf Hv Hr Hd Ho]. pose proof Hf as [Hp (_ & Hsz & _) _ _ _ Hi].
  assert (set_f_off (f_off x + Z.of_nat (length (A:=Z) [])) x = x) as Hid.
  { cbn [length]. rewrite Z.add_0_r. by destruct x. }
  assert (∀ l : list Z, splice (Z.to_nat (f_off x)) [] l = l) as Hnil.
  { intros l. unfold splice. cbn [length app]. by rewrite Nat.add_0_r, take_drop. }
  constructor; try rewrite Hid; [done| |by rewrite Hnil|by rewrite list_insert_id| |done|lia|].
  - unfold after_write. cbn [length]. rewrite Z.max_l by lia. by destruct p.
  - exists []. by rewrite app_nil_r.
  - intros r1 r2 (Hb & k & ws & Hw' & Hp1) Hr'.
    assert (ws = []) as ->.
    { rewrite <- (app_nil_r (wrote _)) in Hw' at 1. apply app_inv_head in Hw'. by destruct ws. }
    destruct (commit_recovers (flog (ffs s)) [] [] r1 r2 0) as (r3 & Hrun & Hl3 & Hv3); [apply Hinv|done|done| |done|].
    { intros b. rewrite Hp1. by rewrite take_nil. }
    exists r3. split_and!; [done..|]. exists 0%nat. split_and!; [done|by left|]. rewrite take_0, Hnil.
    eapply file_data_home; try done; [|intros b; eapply length_view, Hl3].
    assert (∀ b, platter (fio (ffs s)) b = fview (ffs s) b) as Hclean.
    { intros b. symmetry. eapply (view_clean _ [] []); [apply Hinv|set_solver]. }
    destruct Hv3 as [Hv3|Hv3]; intros b Hh; rewrite Hv3 by done; [apply Hclean|done].
Qed.

Lemma appended_trans s s1 s2 f x i p p1 p2 R d1 d2 k1 k2 :
  writing s f x i p R → d2 = [] ∨ length d1 = 1536%nat →
  appended s s1 f x i p p1 R d1 k1 →
  appended s1 s2 f (set_f_off (f_off x + Z.of_nat (length d1)) x) i p1 p2 R d2 k2 →
  appended s s2 f x i p p2 R (d1 ++ d2) (k1 + k2).
Proof.
  intros Hw Hlen [Hw1 Hi1 Hc1 Ht1 Hwr1 Hsb1 Hn1 Hcr1] [Hw2 Hi2 Hc2 Ht2 Hwr2 Hsb2 Hn2 Hcr2].
  pose proof (wg_off _ _ _ _ _ _ Hw) as Ho.
  assert (i_inum p1 = i_inum p) as Hnum by (by rewrite Hi1).
  set (C := contents (fview (ffs s)) (i_disk p)) in *.
  assert (length C = Z.to_nat (i_size p)) as HlC.
  { unfold C. rewrite length_contents; [done| |cbn; lia]. intros b. eapply fview_512, Hw. }
  assert (∀ d, splice (Z.to_nat (f_off x + Z.of_nat (length d1))) d (splice (Z.to_nat (f_off x)) d1 C) =
    splice (Z.to_nat (f_off x)) (d1 ++ d) C) as Hsp.
  { intros d. replace (Z.to_nat (f_off x + Z.of_nat (length d1))) with (Z.to_nat (f_off x) + length d1)%nat by lia.
    apply splice_splice_next. lia. }
  assert (set_f_off (f_off (set_f_off (f_off x + Z.of_nat (length d1)) x) + Z.of_nat (length d2)) (set_f_off (f_off x + Z.of_nat (length d1)) x) =
    set_f_off (f_off x + Z.of_nat (length (d1 ++ d2))) x) as Hx2.
  { unfold set_f_off. cbn. rewrite length_app. f_equal. lia. }
  rewrite Hx2 in *. cbn [f_off set_f_off] in *.
  constructor; [done| | | |by eapply wrote_by_trans|by rewrite Hsb2|rewrite Hsb1 in *; lia|].
  - etrans; [exact Hi2|]. generalize (i_addrs p2). intros a2. rewrite Hi1. generalize (i_addrs p1). intros a1.
    unfold after_write, set_i_size, set_i_addrs. cbn. rewrite length_app. f_equal. lia.
  - by rewrite Hc2, Hc1, Hsp.
  - by rewrite Ht2, Ht1, list_insert_insert_eq.
  - eapply crash_outcome_weaken; [|eapply crash_outcome_trans; [exact Hwr1|exact Hwr2|exact Hcr1|exact Hcr2]].
    intros V _ [(m & Hm & Hd & HV)|(m & Hm & Hd & HV)].
    + exists m. rewrite take_app_le, length_app by done. split_and!; [lia| |done].
      destruct Hd as [->|Hd]; [|by right]. destruct Hlen as [->|Hlen]; [left; cbn; lia|right; by rewrite Hlen].
    + exists (length d1 + m)%nat. rewrite length_app, take_app_add. rewrite Hsb1, Hnum, Hc1, Hsp in HV.
      split_and!; [lia| |done]. destruct Hd as [->|Hd]; [by left|]. destruct Hlen as [->|Hlen]; [left; cbn in *; lia|].
      right. rewrite Nat2Z.inj_add, Hlen. apply Z.divide_add_r; [done|done].
Qed.

Lemma chunks_step n : 0 < n → chunks n = S (chunks (Z.max 0 (n - 1536))).
Proof.
  intros Hn. unfold chunks. destruct (Z.le_gt_cases n 1536).
  - rewrite Z.max_l by lia. assert ((n + 1535) / 1536 = 1) as -> by (symmetry; apply (Z.div_unique _ _ _ (n - 1)); lia). done.
  - rewrite Z.max_r by lia. replace (n + 1535) with (n - 1536 + 1535 + 1 * 1536) by lia. rewrite Z.div_add by lia.
    assert (0 ≤ (n - 1536 + 1535) / 1536) by (apply Z.div_pos; lia). lia.
Qed.

Lemma wp_filewrite_loop E fuel f x i p addr n j R (Q : Z → fls D X → Prop) s :
  writing s f x i p R → 0 ≤ j ≤ n → n - j ≤ Z.of_nat (length addr) → f_off x + (n - j) ≤ 71680 →
  (8 * chunks (n - j) ≤ nfree (fview (ffs s)) (fsb (ffs s)))%nat → (chunks (n - j) < fuel)%nat →
  (∀ p' s', appended s s' f x i p p' R (take (Z.to_nat (n - j)) addr) (8 * chunks (n - j)) → Q n s') →
  wp E (filewrite_loop devtab fuel f addr n j) Q s.
Proof.
  revert x p addr j s. induction fuel as [|fuel IH]; intros x p addr j s Hw Hj Ha Hhi Hnf Hf HQ; [lia|]. cbn [filewrite_loop].
  destruct (Z.ltb_spec j n) as [Hlt|Hge].
  2: { apply wp_ret. replace j with n in * by lia. apply (HQ p). rewrite Z.sub_diag, take_0. by apply appended_nil. }
  change ((MAXOPBLOCKS - 1 - 1 - 2) / 2 * 512) with 1536. cbn zeta. rewrite Z.gtb_ltb.
  set (n1 := if 1536 <? n - j then 1536 else n - j).
  assert (n1 = Z.min 1536 (n - j)) as Hn1 by (unfold n1; destruct (Z.ltb_spec 1536 (n - j)); lia).
  pose proof (chunks_step (n - j) ltac:(lia)) as Hch. replace (Z.max 0 (n - j - 1536)) with (n - (j + n1)) in Hch by lia.
  eapply wp_chunk; [done|lia|lia|lia|lia|]. intros p1 s1 Hap.
  rewrite (proj2 (Z.ltb_ge n1 0)), Z.eqb_refl by lia. cbn [negb].
  set (d1 := take (Z.to_nat n1) addr) in *. assert (Z.of_nat (length d1) = n1) as Hd1 by (unfold d1; rewrite length_take; lia).
  pose proof (ap_writing _ _ _ _ _ _ _ _ _ _ Hap) as Hw1. pose proof (ap_free _ _ _ _ _ _ _ _ _ _ Hap) as Hnf1.
  eapply IH; [exact Hw1|lia| | | |lia|].
  - rewrite length_drop. lia.
  - cbn [f_off set_f_off]. lia.
  - rewrite (ap_sb _ _ _ _ _ _ _ _ _ _ Hap). lia.
  - intros p2 s2 Hap2. apply (HQ p2).
    replace (take (Z.to_nat (n - j)) addr) with (d1 ++ take (Z.to_nat (n - (j + n1))) (drop (Z.to_nat n1) addr)).
    2: { unfold d1. rewrite take_take_drop. f_equal. lia. }
    rewrite Hch. replace (8 * S (chunks (n - (j + n1))))%nat with (8 + 8 * chunks (n - (j + n1)))%nat by lia.
    eapply appended_trans; [exact Hw| |exact Hap|exact Hap2].
    destruct (Z.le_gt_cases (n - j) 1536); [left; replace (n - (j + n1)) with 0 by lia; apply take_0|right; lia].
Qed.
End filewrite.
