(* ===== verification/FileCreate.v ===== *)
(** * file.c: creating files, devices and directories

    [create] as a step of the tree: the path leads to the new inode, every
    other path leads where it did, and no other file changes. *)

From S2P Require Import Prelude Spinlock CString Ide Bio BioFacts Layout Log LogDisk LogFacts LogSpecs LogCrash Fs FsFacts FsInodes FsFiles FsTable FsWrite FsWritei FsDirs FsLink FsPaths FsNames FsTree FsNodes File FileFacts.

(** ** Changes to two inodes *)

(** Inodes other than [n] and [d], and the contents of those in use, are as before. *)
Definition others (sb : superblock) (V V' : disk) (n d : Z) : Prop := ∀ m, 0 ≤ m < sb_ninodes sb → m ≠ n → m ≠ d →
  inode_at V' sb m = inode_at V sb m ∧ (live sb V m → contents V' (inode_at V sb m) = contents V (inode_at V sb m)).

Lemma others_refl sb V n d : others sb V V n d.
Proof. by intros m. Qed.
Lemma others_trans sb V1 V2 V3 n d : others sb V1 V2 n d → others sb V2 V3 n d → others sb V1 V3 n d.
Proof.
  intros H1 H2 m Hr Hn Hd. destruct (H1 m Hr Hn Hd) as [Hi Hc], (H2 m Hr Hn Hd) as [Hi' Hc']. rewrite Hi', Hi in *.
  split; [done|]. intros Hl. rewrite Hc'; [by apply Hc|]. split; [done|]. rewrite Hi. apply Hl.
Qed.
Lemma others_changed sb V V' n d m : tree sb V → changed sb V V' m → m = n ∨ m = d → others sb V V' n d.
Proof.
  intros Ht Hc Hm k Hr Hn Hd. assert (k ≠ m) by (by destruct Hm as [-> | ->]). split; [by apply (ch_inode _ _ _ _ Hc)|].
  intros Hl. by eapply changed_contents.
Qed.
Lemma others_ext sb V V' n d : (∀ b, V' b = V b) → others sb V V' n d.
Proof.
  intros HV m Hr _ _. split; [unfold inode_at; by rewrite HV|]. intros _. by apply contents_ext.
Qed.
Lemma grows_ext sb V V' : (∀ b, V' b = V b) → grows sb V V'.
Proof.
  intros HV m Hl. assert (inode_at V' sb m = inode_at V sb m) as Hi by (unfold inode_at; by rewrite HV).
  unfold linked. rewrite Hi, (contents_ext V' V) by done. done.
Qed.

Lemma linked_ext sb V V' m : (∀ b, V' b = V b) → linked V sb m → linked V' sb m.
Proof. intros HV Hm. by apply (grows_ext sb V V' HV). Qed.

Section progress.
Context {D X : Type} {dev : IdeDevice D} {dok : IdeDeviceOk D}.
Implicit Types s : fss D X.

(** The state of a transaction that works on the inodes [n] and [d], with at
    most [k] blocks logged and [f] allocated on the way. *)
Record progress s s' (H : list nat) (L L' : list Z) (R' : list nat) (n d : Z) (k f : nat) : Prop := {
  pg_good : fs_good s' H L' R';
  pg_log : (length L' ≤ length L + k)%nat;
  pg_step : fs_step s s' H (fview s');
  pg_grows : grows (fsb s) (fview s) (fview s');
  pg_others : others (fsb s) (fview s) (fview s') n d;
  pg_free : (nfree (fview s) (fsb s) ≤ nfree (fview s') (fsb s) + f)%nat;
}.
Lemma progress_trans s1 s2 s3 H L1 L2 L3 R2 R3 n d k k' f f' :
  progress s1 s2 H L1 L2 R2 n d k f → progress s2 s3 H L2 L3 R3 n d k' f' →
  progress s1 s3 H L1 L3 R3 n d (k + k') (f + f').
Proof.
  intros [_ Hl1 Hs1 Hg1 Ho1 Hf1] [Hg Hl2 Hs2 Hg2 Ho2 Hf2]. rewrite (fst_sb _ _ _ _ Hs1) in *. constructor; [done|lia| | | |lia].
  - by eapply fs_step_trans.
  - by eapply grows_trans.
  - by eapply others_trans.
Qed.
(** Reading, and taking and giving back references. *)
Lemma progress_read s s' H L R' n d :
  fs_good s' H L R' → fs_step s s' H (fview s) → progress s s' H L L R' n d 0 0.
Proof.
  intros Hg Hs. pose proof (fst_view _ _ _ _ Hs) as HV. constructor; [done|lia| | | |].
  - eapply fs_step_ext; [done|]. done.
  - by apply grows_ext.
  - by apply others_ext.
  - rewrite (nfree_ext (fview s') (fview s)) by done. lia.
Qed.
Lemma progress_le s s' H L L' R' n d k k' f f' :
  progress s s' H L L' R' n d k f → (k ≤ k')%nat → (f ≤ f')%nat → progress s s' H L L' R' n d k' f'.
Proof. intros [] ??. constructor; try done; lia. Qed.
Lemma progress_node s s' H L L' R R' n d m k f :
  fs_good s H L R → node_step s s' H L L' R' m k → m = n ∨ m = d → grows (fsb s) (fview s) (fview s') →
  (nfree (fview s) (fsb s) ≤ nfree (fview s') (fsb s) + f)%nat → progress s s' H L L' R' n d k f.
Proof. intros Hg [] Hm Hgr Hf. constructor; try done. eapply others_changed; [apply Hg|done..]. Qed.
Lemma nfree_agree s H L R V' : fs_inv s H L R → agree (fsb s) (fview s) V' → nfree V' (fsb s) = nfree (fview s) (fsb s).
Proof. intros Hinv Hag. destruct (geometry _ _ _ _ Hinv) as (? & ? & ? & _). by apply agree_nfree. Qed.
End progress.

Section create.
Context {D X : Type} {dev : IdeDevice D} {dok : IdeDeviceOk D}.
Context (devtab : list (@devsw D X)).
Implicit Types s : fls D X.

Lemma wp_fs_do_set {A} E (m : M (fss D X) A) (Q : A → fls D X → Prop) t s :
  wp E m (λ a t', Q a (set_ffs t' s)) t → wp E (fs_do m) Q (set_ffs t s).
Proof. intros Hm. by apply wp_fs_do. Qed.

(** The inode [create] writes. *)
Definition node (type major minor : Z) : dinode := mk_dinode type major minor 1 0 (replicate 13 0).

Lemma wp_make_node {A} E type major minor i p d n0 H L R (k : nat → M (fls D X) A) Q s :
  fs_good (ffs s) H L R → held (ffs s) R i p d → (length R < NINODE)%nat → room (ffs s) L 2 → (length H + length L + 1 < NBUF)%nat →
  1 ≤ n0 < sb_ninodes (fsb (ffs s)) → free_inode (ffs s) n0 → 0 < type < 32768 →
  (∀ ip q n t L', progress (ffs s) t H L L' (ip :: R) n d 2 0 → held t (ip :: R) ip q n → held t (ip :: R) i p d →
     1 ≤ n < sb_ninodes (fsb (ffs s)) → ¬ live (fsb (ffs s)) (fview (ffs s)) n → d ≠ n →
     i_disk q = node type (s16 major) (s16 minor) → inode_at (fview t) (fsb (ffs s)) n = i_disk q →
     inode_at (fview t) (fsb (ffs s)) d = i_disk p → contents (fview t) (i_disk p) = contents (fview (ffs s)) (i_disk p) →
     wp E (k ip) Q (set_ffs t s)) →
  wp E (ip ← fs_do (ialloc ROOTDEV type);
        fs_do (iread (Some ip));;
        fs_do (mod_inode ip (set_i_major (s16 major)));;
        fs_do (mod_inode ip (set_i_minor (s16 minor)));;
        fs_do (mod_inode ip (set_i_nlink 1));;
        fs_do (iupdate ip);;
        k ip) Q s.
Proof.
  intros Hg Hh HR Hroom Hfree Hn0 Hf0 Hty HQ. pose proof (fg_inv _ _ _ _ Hg) as Hinv.
  pose proof (held_live _ _ _ _ _ _ _ Hg Hh) as Hld. destruct (held_sync _ _ _ _ _ _ _ Hg Hh) as (Hd & _).
  rewrite (hd_inum _ _ _ _ _ Hh) in Hd.
  apply wp_bind, wp_fs_do. eapply (wp_ialloc_good E type n0 H L R); try done; [eapply room_le; [done|lia]|lia|].
  intros n ip q t1 L1 Hns1 Hn Hnl Hag1 Hnew Hic1 Hq Hqd Hqn Hqv Hsame. pose proof Hns1 as [Hg1 HL1 Hs1 Hch1].
  assert (d ≠ n) as Hdn by (intros ->; done). pose proof (fst_sb _ _ _ _ Hs1) as Hsb1.
  assert (grows (fsb (ffs s)) (fview (ffs s)) (fview t1)) as Hgr1.
  { eapply grows_changed; [apply Hg|done|]. by intros Hl%linked_live. }
  pose proof (progress_node _ _ _ _ _ _ _ n d n 1 0 Hg Hns1 (or_introl eq_refl) Hgr1) as Hp1.
  rewrite (nfree_agree _ _ _ _ _ Hinv Hag1) in Hp1. specialize (Hp1 ltac:(lia)).
  apply wp_bind, wp_fs_do_set.
  eapply (wp_iread_good E ip q n); [done|done|set_solver|done|done| |lia|].
  { rewrite Hsb1. split; [lia|]. rewrite Hnew. cbn. lia. }
  intros q2 t2 Hg2 Hs2 Hic2 Hh2 Hq2. rewrite Hsb1, Hnew in Hq2. pose proof (fst_sb _ _ _ _ Hs2) as Hsb2.
  assert (ip < length (icache t2))%nat as Hil by (eapply lookup_lt_Some, Hh2).
  assert (ip ≠ i) as Hne.
  { intros ->. apply Hdn. rewrite <- (hd_inum _ _ _ _ _ Hh). apply Hsame; apply Hh. }
  set (nd := node type (s16 major) (s16 minor)).
  do 3 (apply wp_bind, wp_fs_do_set; eapply wp_mod_inode;
    [cbn; (apply Hh2 || (apply list_lookup_insert_eq; by rewrite ?length_insert))|]; cbn [icache set_icache]).
  rewrite !list_insert_insert_eq. assert (set_i_nlink 1 (set_i_minor (s16 minor) (set_i_major (s16 major) q2)) = set_i_disk nd q2) as ->.
  { destruct q2. cbn in Hq2. by injection Hq2 as -> _ _ _ -> ->. }
  apply wp_bind, wp_fs_do_set.
  match goal with |- wp _ _ ?K _ => change (wp E (iupdate ip) K (set_icache (<[ip:=set_i_disk nd q2]> (icache t2)) t2)) end.
  assert (i_type q2 = type ∧ i_nlink q2 = 0 ∧ i_size q2 = 0 ∧ i_addrs q2 = replicate 13 0) as (Hq2t & Hq2l & Hq2s & Hq2a).
  { destruct q2. cbn in Hq2. by injection Hq2 as -> _ _ -> -> ->. }
  pose proof (progress_read _ _ _ _ _ n d Hg2 Hs2) as Hp2. pose proof (progress_trans _ _ _ _ _ _ _ _ _ _ _ _ _ _ _ Hp1 Hp2) as Hp12.
  eapply (wp_iupdate_good E ip q2 nd n H L1); [done|done| |by rewrite Hq2t|by rewrite Hq2s|by rewrite Hq2a|lia|done| |lia|].
  { pose proof (s16_range major). pose proof (s16_range minor). split_and!; try done; [|by repeat constructor]. repeat constructor; cbn; lia. }
  { eapply room_step; [exact Hs2|]. eapply room_step; [exact Hs1|]. unfold room in *. lia. }
  intros t3 L3 Hns3 Hh3 Hic3 Hnew3 Hag3 Hgr3 Hco3.
  assert (progress t2 t3 H L1 L3 (ip :: R) n d 1 0) as Hp3.
  { eapply (progress_node _ _ _ _ _ _ _ n d n 1 0 Hg2 Hns3); [by left|done|].
    rewrite (nfree_agree t2 H L1 (ip :: R) (fview t3)); [lia|by apply fg_inv|done]. }
  pose proof (progress_trans _ _ _ _ _ _ _ _ _ _ _ _ _ _ _ Hp12 Hp3) as Hp.
  destruct (changed_contents _ _ _ _ (fg_tree _ _ _ _ Hg) Hch1 d Hld Hdn) as [Hi1 Hc1]. rewrite <- Hd in Hi1, Hc1.
  assert (inode_at (fview t2) (fsb t2) d = i_disk p) as Hi2 by (unfold inode_at; by rewrite Hsb2, Hsb1, (fst_view _ _ _ _ Hs2)).
  destruct (changed_contents _ _ _ _ (fg_tree _ _ _ _ Hg2) (ns_changed _ _ _ _ _ _ _ _ Hns3) d) as [Hi3 Hc3]; [|done|].
  { rewrite Hsb2, Hsb1 in *. split; [apply Hld|]. rewrite Hi2, Hd. apply Hld. }
  rewrite Hi2 in Hi3, Hc3. rewrite Hsb2, Hsb1 in *.
  eapply (HQ ip (set_i_disk nd q2) n t3 L3); try done.
  - constructor; [|apply list_elem_of_further, Hh|apply Hh..]. rewrite Hic3, list_lookup_insert_ne, Hic2, list_lookup_insert_ne, Hic1, list_lookup_insert_ne by done. apply Hh.
  - rewrite Hc3. rewrite (contents_ext (fview t2) (fview t1)) by apply Hs2. done.
Qed.

(** A slot that an operation on another one leaves alone. *)
Lemma held_other (t t' : fss D X) R i j p q n : icache t' = <[i:=q]> (icache t) → i ≠ j → held t R j p n → held t' R j p n.
Proof. intros Hi Hne []. constructor; try done. by rewrite Hi, list_lookup_insert_ne. Qed.

(** The new directory has two entries, for itself and its parent. *)
Definition dots (V : disk) (e : dinode) (n d : Z) : Prop :=
  di_size e = 32 ∧ ∃ o1 o2, dir_lookup DOT (contents V e) = Some (n, o1) ∧ dir_lookup DOTDOT (contents V e) = Some (d, o2).

Lemma wp_two_dots E ip q n d H L R (Q : unit → fls D X → Prop) t s :
  fs_good t H L R → held t R ip q n → d ≠ n → linked (fview t) (fsb t) n → linked (fview t) (fsb t) d → i_type q = T_DIR →
  i_size q = 0 → d ≠ 0 → n ≠ 0 → (length R < NINODE)%nat → room t L 14 → (S (length H) + length L + 13 < NBUF)%nat →
  (4 ≤ nfree (fview t) (fsb t))%nat →
  (∀ q' t' L', progress t t' H L L' R n d 14 4 → held t' R ip q' n → icache t' = <[ip:=q']> (icache t) →
     changed (fsb t) (fview t) (fview t') n →
     i_disk q' = mk_dinode (i_type q) (i_major q) (i_minor q) (i_nlink q) (i_size q') (i_addrs q') →
     dots (fview t') (i_disk q') n d → Q tt (set_ffs t' s)) →
  wp E (l1 ← fs_do (dirlink devtab ip DOT n);
        if l1 <? 0 then panic "create dots" else
        l2 ← fs_do (dirlink devtab ip DOTDOT d);
        if l2 <? 0 then panic "create dots" else mret tt) Q (set_ffs t s).
Proof.
  intros Hg Hh Hdn Hln Hld HT Hsz Hd0 Hn0 HR Hroom Hbuf Hnf HQ.
  apply wp_bind, wp_fs_do_set.
  eapply (wp_dirlink_good devtab E ip q n DOT n H L R); try done; try lia; [|by apply (bool_decide_unpack _)|right; by apply (bool_decide_unpack _)|eapply room_le; [done|lia]|].
  { by rewrite contents_empty. }
  intros q1 t1 L1 o1 Hns1 Hgr1 Hh1 Hic1 Hin1 Hnew1 Hnf1 [Hb1 Hf1 Ho1 _]. pose proof Hns1 as [Hg1 HL1 Hs1 Hch1]. pose proof (fst_sb _ _ _ _ Hs1) as Hsb1.
  cbn [Z.ltb Z.compare]. apply wp_bind, wp_fs_do_set.
  assert (i_size q1 = 16 ∧ i_type q1 = T_DIR) as [Hsz1 HT1] by (rewrite Hin1; cbn; split; [lia|done]).
  pose proof (progress_node _ _ _ _ _ _ _ n d n 7 2 Hg Hns1 (or_introl eq_refl) Hgr1 Hnf1) as Hp1.
  eapply (wp_dirlink_good devtab E ip q1 n DOTDOT d H L1 R); try done; try lia; rewrite ?Hsb1;
    [by apply Hgr1| |by apply Hgr1|by apply (bool_decide_unpack _)|right; by apply (bool_decide_unpack _)| |lia|].
  { rewrite Ho1 by done. by rewrite contents_empty. }
  { eapply room_step; [exact Hs1|]. unfold room in *. lia. }
  intros q2 t2 L2 o2 Hns2 Hgr2 Hh2 Hic2 Hin2 Hnew2 Hnf2 [Hb2 Hf2 Ho2 _]. pose proof Hns2 as [Hg2 HL2 Hs2 Hch2]. rewrite <- Hsb1 in Hgr2, Hnf2.
  pose proof (progress_node _ _ _ _ _ _ _ n d n 7 2 Hg1 Hns2 (or_introl eq_refl) Hgr2 Hnf2) as Hp2.
  cbn [Z.ltb Z.compare]. apply wp_ret. eapply (HQ q2 t2 L2); [by eapply (progress_trans _ _ _ _ _ _ _ _ _ _ _ 7 7 2 2)|done|by rewrite Hic2, Hic1, list_insert_insert_eq| | |].
  - eapply changed_trans; [|exact Hch1|]; [apply Hg|]. by rewrite <- Hsb1.
  - by rewrite Hin2, Hin1.
  - assert (dir_lookup DOT (contents (fview t2) (i_disk q2)) = Some (n, o1)) as Hdot by (by rewrite Ho2).
    split; [|by exists o1, o2]. rewrite Hin2. change (Z.max (i_size q1) (o2 + 16) = 32). rewrite Hsz1 in *.
    destruct (dir_lookup_ne DOT DOTDOT _ _ _ _ _ ltac:(done) Hdot Hf2) as (Hne & _ & Hm2).
    pose proof (Z_div_mod_eq_full o2 16). lia.
Qed.

(** The inode [e] that [create] leaves, with number [n] in the directory [d]. *)
Definition made (type major minor : Z) (V : disk) (e : dinode) (n d : Z) : Prop :=
  di_type e = type ∧ di_major e = major ∧ di_minor e = minor ∧ di_nlink e = 1 ∧
  if type =? T_DIR then dots V e n d else di_size e = 0.

Lemma wp_dots E type major minor i p d ip q n H L R (Q : unit → fls D X → Prop) t s :
  fs_good t H L R → held t R i p d → held t R ip q n → d ≠ n → linked (fview t) (fsb t) d → linked (fview t) (fsb t) n →
  i_type p = T_DIR → i_disk q = node type major minor → i_nlink p < 32767 → d ≠ 0 → n ≠ 0 → (length R < NINODE)%nat →
  room t L 15 → (S (length H) + length L + 14 < NBUF)%nat → (4 ≤ nfree (fview t) (fsb t))%nat →
  (∀ p' q' t' L', progress t t' H L L' R n d 15 4 → held t' R i p' d → held t' R ip q' n → i_type p' = T_DIR →
     i_size p' = i_size p → i_nlink p' = i_nlink p + (if type =? T_DIR then 1 else 0) →
     contents (fview t') (i_disk p') = contents (fview t) (i_disk p) →
     made type major minor (fview t') (i_disk q') n d → Q tt (set_ffs t' s)) →
  wp E (if type =? T_DIR then
          fs_do (mod_inode i (λ p, set_i_nlink (s16 (i_nlink p + 1)) p));;
          fs_do (iupdate i);;
          l1 ← fs_do (dirlink devtab ip DOT n);
          if l1 <? 0 then panic "create dots" else
          l2 ← fs_do (dirlink devtab ip DOTDOT d);
          if l2 <? 0 then panic "create dots" else mret tt
        else mret tt) Q (set_ffs t s).
Proof.
  intros Hg Hi Hip Hdn Hld Hln HT Hq Hnl Hd0 Hn0 HR Hroom Hbuf Hnf HQ.
  assert (i_type q = type ∧ i_major q = major ∧ i_minor q = minor ∧ i_nlink q = 1 ∧ i_size q = 0) as (Hqt & Hqj & Hqm & Hql & Hqs).
  { destruct q. cbn in Hq. by injection Hq as -> -> -> -> -> ->. }
  destruct (held_sync _ _ _ _ _ _ _ Hg Hi) as (Hd & _ & _ & _). rewrite (hd_inum _ _ _ _ _ Hi) in Hd.
  destruct (Z.eqb_spec type T_DIR) as [HD|HD].
  2: { apply wp_ret. eapply (HQ p q t L); try done.
       - eapply progress_le; [apply progress_read; [done|apply fs_step_refl]|lia..].
       - lia.
       - unfold made. by rewrite (proj2 (Z.eqb_neq _ _) HD). }
  assert (1 ≤ i_nlink p) as Hnl1 by (destruct Hld as (_ & _ & Hl); by rewrite <- Hd in Hl).
  set (d' := mk_dinode (i_type p) (i_major p) (i_minor p) (i_nlink p + 1) (i_size p) (i_addrs p)).
  apply wp_bind, wp_fs_do_set. eapply wp_mod_inode; [apply Hi|]. rewrite s16_small by lia.
  change (set_i_nlink (i_nlink p + 1) p) with (set_i_disk d' p).
  apply wp_bind, wp_fs_do_set.
  eapply (wp_iupdate_good E i p d' d H L R); try done; try (cbn; lia); [|eapply room_le; [done|lia]|].
  { destruct (wh_fields _ _ _ (tr_whole _ _ (fg_tree _ _ _ _ Hg) d (linked_live _ _ _ Hld))) as (Hf & Hrest). rewrite <- Hd in *.
    split; [|done]. rewrite !Forall_cons in *. cbn in *. split_and!; try lia. constructor. }
  intros t1 L1 Hns1 Hh1 Hic1 Hnew1 Hag1 Hgr1 Hco1. pose proof Hns1 as [Hg1 HL1 Hs1 Hch1]. pose proof (fst_sb _ _ _ _ Hs1) as Hsb1.
  assert (i ≠ ip) as Hne.
  { intros ->. pose proof (hd_slot _ _ _ _ _ Hi) as H1. pose proof (hd_slot _ _ _ _ _ Hip) as H2. simplify_eq.
    apply Hdn. rewrite <- (hd_inum _ _ _ _ _ Hi). apply (hd_inum _ _ _ _ _ Hip). }
  assert (progress t t1 H L L1 R n d 1 0) as Hp1.
  { eapply (progress_node _ _ _ _ _ _ _ n d d 1 0 Hg Hns1); [by right|done|].
    rewrite (nfree_agree t H L R (fview t1)); [lia|by apply fg_inv|done]. }
  eapply (wp_two_dots E ip q n d H L1 R); try done; rewrite ?Hsb1; [by eapply held_other|by apply Hgr1|by apply Hgr1|congruence| |lia| |].
  { eapply room_step; [exact Hs1|]. unfold room in *. lia. }
  { rewrite (nfree_agree t H L R); [done|by apply fg_inv|done]. }
  intros q2 t2 L2 Hp2 Hh2 Hic2 Hch2 Hq2 Hdots. pose proof (progress_trans _ _ _ _ _ _ _ _ _ _ _ _ _ _ _ Hp1 Hp2) as Hp.
  pose proof (fg_tree _ _ _ _ Hg1) as Ht1. pose proof (held_live _ _ _ _ _ _ _ Hg1 Hh1) as Hl1. rewrite Hsb1 in Ht1, Hl1.
  destruct (changed_contents _ _ _ _ Ht1 Hch2 d Hl1 Hdn) as [_ Hc2]. rewrite Hnew1 in Hc2.
  eapply (HQ (set_i_disk d' p) q2 t2 L2); try done.
  - eapply held_other; [exact Hic2|done|done].
  - change (i_disk (set_i_disk d' p)) with d'. by rewrite Hc2.
  - unfold made. rewrite HD, Z.eqb_refl, Hq2. cbn [di_type di_major di_minor di_nlink]. rewrite <- Hq2. split_and!; congruence || done.
Qed.

(** What [create] achieves: the new inode [n], in slot [ip], under the last
    component of the path in the directory [d]. *)
Record created (t t' : fss D X) (H : list nat) (L L' : list Z) (R : list nat) (nm : list Z) (type major minor : Z)
    (ip : nat) (n d : Z) : Prop := {
  cr_progress : progress t t' H L L' (ip :: R) n d 24 6;
  cr_slot : slot_of t' ip n;
  cr_range : 1 ≤ n < sb_ninodes (fsb t);
  cr_fresh : ¬ live (fsb t) (fview t) n;
  cr_made : made type (s16 major) (s16 minor) (fview t') (inode_at (fview t') (fsb t) n) n d;
  cr_entry : ∃ off, dir_lookup nm (contents (fview t') (inode_at (fview t') (fsb t) d)) = Some (n, off) ∧
    named_once nm (contents (fview t') (inode_at (fview t') (fsb t) d)) off;
  cr_links : di_nlink (inode_at (fview t') (fsb t) d) =
    di_nlink (inode_at (fview t) (fsb t) d) + (if type =? T_DIR then 1 else 0);
  cr_names x : cname DIRSIZ x ≠ cname DIRSIZ nm →
    dir_lookup x (contents (fview t') (inode_at (fview t') (fsb t) d)) = dir_lookup x (contents (fview t) (inode_at (fview t) (fsb t) d));
}.

(** Its last part: the entry in the directory. *)
Lemma wp_enter E type major minor i p d ip q n nm H L R (Q : option nat → fls D X → Prop) t s :
  fs_good t H L (ip :: i :: R) → held t (ip :: i :: R) i p d → held t (ip :: i :: R) ip q n → d ≠ n →
  linked (fview t) (fsb t) d → linked (fview t) (fsb t) n → n ≠ 0 → i_type p = T_DIR → i_size p + 16 ≤ 71680 →
  dir_lookup nm (contents (fview t) (i_disk p)) = None → bytes nm → readable DIRSIZ nm → (S (S (length R)) < NINODE)%nat →
  room t L 7 → (S (length H) + length L + 6 < NBUF)%nat → (2 ≤ nfree (fview t) (fsb t))%nat →
  made type major minor (fview t) (i_disk q) n d →
  (∀ t' L', progress t t' H L L' (ip :: R) n d 7 2 → slot_of t' ip n →
     made type major minor (fview t') (inode_at (fview t') (fsb t) n) n d →
     (∃ off, dir_lookup nm (contents (fview t') (inode_at (fview t') (fsb t) d)) = Some (n, off) ∧
        named_once nm (contents (fview t') (inode_at (fview t') (fsb t) d)) off) →
     di_nlink (inode_at (fview t') (fsb t) d) = i_nlink p →
     (∀ x, cname DIRSIZ x ≠ cname DIRSIZ nm →
       dir_lookup x (contents (fview t') (inode_at (fview t') (fsb t) d)) = dir_lookup x (contents (fview t) (i_disk p))) →
     Q (Some ip) (set_ffs t' s)) →
  wp E (l ← fs_do (dirlink devtab i nm n);
        if l <? 0 then panic "create: dirlink" else
        fs_do (iput i);;
        mret (Some ip)) Q (set_ffs t s).
Proof.
  intros Hg Hi Hip Hdn Hld Hln Hn0 HT Hsz Hno Hb Hr HR Hroom Hbuf Hnf Hmade HQ.
  apply wp_bind, wp_fs_do_set. eapply (wp_dirlink_good devtab E i p d nm n); try done.
  intros p1 t1 L1 off Hns1 Hgr1 Hh1 Hic1 Hin1 Hnew1 Hnf1 [_ Hf1 Ho1 Hon1]. pose proof Hns1 as [Hg1 HL1 Hs1 Hch1]. pose proof (fst_sb _ _ _ _ Hs1) as Hsb1.
  pose proof (progress_node _ _ _ _ _ _ _ n d d 7 2 Hg Hns1 (or_intror eq_refl) Hgr1 Hnf1) as Hp1.
  cbn [Z.ltb Z.compare]. apply wp_bind, wp_fs_do_set.
  destruct (held_sync _ _ _ _ _ _ _ Hg Hip) as (Hq & _ & _ & _). rewrite (hd_inum _ _ _ _ _ Hip) in Hq.
  destruct (changed_contents _ _ _ _ (fg_tree _ _ _ _ Hg) Hch1 n) as [Hi1 Hc1]; [by apply linked_live|done|].
  assert (slot_of t1 ip n) as Hsl1.
  { exists q. assert (i ≠ ip) as Hne.
    { intros ->. apply Hdn. rewrite <- (hd_inum _ _ _ _ _ Hi), <- (hd_inum _ _ _ _ _ Hip).
      pose proof (hd_slot _ _ _ _ _ Hi). pose proof (hd_slot _ _ _ _ _ Hip). congruence. }
    pose proof (held_other _ _ _ _ _ _ _ _ Hic1 Hne Hip) as Hip1. split_and!; [apply Hip1|by eapply (held_sync _ _ _ _ _ _ _ Hg Hip)|apply Hip]. }
  assert (reading (fview t1) (fsb t1) t1 H L1 (i :: ip :: R)) as Hrd1.
  { eapply reading_perm; [apply perm_swap|]. apply Hg1. }
  eapply (wp_iput_linked _ _ E i p1); [exact Hrd1|apply Hh1|cbn; lia| |].
  { eapply (linked_kept _ _ t1 H L1 (ip :: R) i p1 d); [exact Hrd1|apply Hh1|apply Hh1|]. rewrite Hsb1. by apply Hgr1. }
  intros t2 Hrd2 Hs2 Hsl2. apply wp_ret.
  assert (fs_good t2 H L1 (ip :: R)) as Hg2 by (eapply good_reading; [exact Hg1|done]).
  pose proof (fst_view _ _ _ _ Hs2) as HV2. assert (∀ m, inode_at (fview t2) (fsb t) m = inode_at (fview t1) (fsb t) m) as Hi2.
  { intros m. unfold inode_at. by rewrite HV2. }
  eapply (HQ t2 L1).
  - eapply progress_le; [eapply progress_trans; [exact Hp1|by apply progress_read]|lia|lia].
  - apply Hsl2; [set_solver|done].
  - rewrite Hi2, Hi1, <- Hq. destruct Hmade as (? & ? & ? & ? & Hm). split_and!; try done.
    destruct (type =? T_DIR); [|done]. destruct Hm as (Hsz32 & o1 & o2 & He1 & He2). split; [done|]. exists o1, o2.
    rewrite (contents_ext (fview t2) (fview t1)) by done. rewrite Hq, Hc1, <- Hq. done.
  - exists off. rewrite Hi2, Hnew1, (contents_ext (fview t2) (fview t1)) by done. done.
  - rewrite Hi2, Hnew1, Hin1. done.
  - intros x Hx. rewrite Hi2, Hnew1, (contents_ext (fview t2) (fview t1)) by done. by apply Ho1.
Qed.

(** The whole of [create] once the name was found to be absent. *)
Lemma wp_create_new E type major minor i p d nm n0 H L R (Q : option nat → fls D X → Prop) t s :
  fs_good t H L (i :: R) → held t (i :: R) i p d → linked (fview t) (fsb t) d → d ≠ 0 → i_type p = T_DIR →
  i_size p + 16 ≤ 71680 → i_nlink p < 32767 → dir_lookup nm (contents (fview t) (i_disk p)) = None →
  bytes nm → readable DIRSIZ nm → (S (S (length R)) < NINODE)%nat → room t L 24 → (S (length H) + length L + 23 < NBUF)%nat →
  (6 ≤ nfree (fview t) (fsb t))%nat → 1 ≤ n0 < sb_ninodes (fsb t) → free_inode t n0 → 0 < type < 32768 →
  (∀ ip n t' L', created t t' H L L' R nm type major minor ip n d → Q (Some ip) (set_ffs t' s)) →
  wp E (d ← fs_do (get_inode i);
        ip ← fs_do (ialloc (i_dev d) type);
        fs_do (iread (Some ip));;
        fs_do (mod_inode ip (set_i_major (s16 major)));;
        fs_do (mod_inode ip (set_i_minor (s16 minor)));;
        fs_do (mod_inode ip (set_i_nlink 1));;
        fs_do (iupdate ip);;
        p ← fs_do (get_inode ip);
        (if type =? T_DIR then
           fs_do (mod_inode i (λ p, set_i_nlink (s16 (i_nlink p + 1)) p));;
           fs_do (iupdate i);;
           l1 ← fs_do (dirlink devtab ip DOT (i_inum p));
           if l1 <? 0 then panic "create dots" else
           l2 ← fs_do (dirlink devtab ip DOTDOT (i_inum d));
           if l2 <? 0 then panic "create dots" else mret tt
         else mret tt);;
        l ← fs_do (dirlink devtab i nm (i_inum p));
        if l <? 0 then panic "create: dirlink" else
        fs_do (iput i);;
        mret (Some ip)) Q (set_ffs t s).
Proof.
  intros Hg Hi Hld Hd0 HT Hsz Hnl Hno Hb Hr HR Hroom Hbuf Hnf Hn0 Hf0 Hty HQ.
  destruct (held_sync _ _ _ _ _ _ _ Hg Hi) as (Hd & Hdev & _ & _). rewrite (hd_inum _ _ _ _ _ Hi) in Hd.
  apply wp_bind, wp_fs_do_set. eapply wp_getopt; [apply Hi|]. rewrite Hdev, (hd_inum _ _ _ _ _ Hi).
  change (set_ffs t s) with (set_ffs t (set_ffs t s)).
  eapply (wp_make_node E type major minor i p d n0 H L (i :: R)); cbn [ffs set_ffs]; try done; [cbn; lia|eapply room_le; [done|lia]|lia|].
  intros ip q n t1 L1 Hp1 Hip Hi1 Hn Hfresh Hdn Hq Hnew1 Hd1 Hc1. change (set_ffs t1 (set_ffs t s)) with (set_ffs t1 s).
  pose proof Hp1 as [Hg1 HL1 Hs1 Hgr1 _ Hnf1]. pose proof (fst_sb _ _ _ _ Hs1) as Hsb1.
  apply wp_bind, wp_fs_do_set. eapply wp_getopt; [apply Hip|]. rewrite (hd_inum _ _ _ _ _ Hip). apply wp_bind.
  eapply (wp_dots E type (s16 major) (s16 minor) i p d ip q n H L1 (ip :: i :: R)); try done; rewrite ?Hsb1;
    [by apply Hgr1| |lia| |lia|lia|].
  { split; [lia|]. rewrite Hnew1, Hq. cbn. lia. }
  { eapply room_step; [exact Hs1|]. unfold room in *. lia. }
  intros p2 q2 t2 L2 Hp2 Hi2 Hip2 HT2 Hsz2 Hnl2 Hc2 Hmade2. pose proof (progress_trans _ _ _ _ _ _ _ _ _ _ _ _ _ _ _ Hp1 Hp2) as Hp12.
  pose proof Hp12 as [Hg2 HL2 Hs2 Hgr2 _ Hnf2]. pose proof (fst_sb _ _ _ _ Hs2) as Hsb2.
  eapply (wp_enter E type (s16 major) (s16 minor) i p2 d ip q2 n nm H L2 R); try done; rewrite ?Hsb2; [by apply Hgr2| |lia|lia| | |lia|lia|].
  { pose proof (pg_grows _ _ _ _ _ _ _ _ _ _ Hp2) as Hgr12. rewrite Hsb1 in Hgr12. apply Hgr12. split; [lia|].
    rewrite Hnew1, Hq. cbn. lia. }
  { by rewrite Hc2, Hc1. }
  { eapply room_step; [exact Hs2|]. unfold room in *. lia. }
  intros t3 L3 Hp3 Hsl3 Hmade3 Hent3 Hnl3 Hoth3. pose proof (progress_trans _ _ _ _ _ _ _ _ _ _ _ _ _ _ _ Hp12 Hp3) as Hp.
  apply (HQ ip n t3 L3). constructor; [by eapply progress_le; [exact Hp|lia..]|done|done|done|done|done| |].
  { rewrite Hnl3, Hnl2, <- Hd. done. }
  intros x Hx. rewrite Hoth3, Hc2, Hc1 by done. by rewrite <- Hd.
Qed.

Lemma created_from (t0 t t' : fss D X) H L L' R R' nm type major minor ip n d :
  fs_step t0 t H (fview t0) → fs_good t H L R' → created t t' H L L' R nm type major minor ip n d →
  created t0 t' H L L' R nm type major minor ip n d.
Proof.
  intros Hs Hg [Hp Hsl Hr Hfr Hm He Hl Hn]. pose proof (fst_view _ _ _ _ Hs) as HV. pose proof (fst_sb _ _ _ _ Hs) as Hsb.
  assert (∀ m, inode_at (fview t) (fsb t0) m = inode_at (fview t0) (fsb t0) m) as Hi by (intros m; unfold inode_at; by rewrite HV).
  rewrite Hsb in *. constructor; try done.
  - eapply progress_le; [eapply progress_trans; [by apply progress_read|exact Hp]|lia|lia].
  - intros [? Hl']. apply Hfr. split; [done|]. by rewrite Hi.
  - by rewrite Hl, Hi.
  - intros x Hx. rewrite Hn, Hi by done. by rewrite (contents_ext (fview t) (fview t0)).
Qed.

(** The path of the new inode. *)
Lemma created_path (t t' : fss D X) H L L' R nm type major minor ip n d es :
  fs_good t H L R → linked (fview t) (fsb t) ROOTINO → resolve (fview t) (fsb t) true es ROOTINO = Some d →
  cname DIRSIZ nm = take DIRSIZ (default [] (last es)) → created t t' H L L' R nm type major minor ip n d →
  resolve (fview t') (fsb t) false es ROOTINO = Some n.
Proof.
  intros Hg Hroot Hres Hnm [Hp _ _ _ _ (off & He & _) _ _].
  assert (resolve (fview t') (fsb t) true es ROOTINO = Some d) as Hres'.
  { eapply resolve_grows; [apply (tr_dirs _ _ (fg_tree _ _ _ _ Hg))|apply Hp|done|done]. }
  destruct (resolve_last _ _ _ _ _ Hres') as [_ ->]. unfold dir_lookup in *.
  rewrite (dir_find_cname _ nm) by (by rewrite <- Hnm, cname_idem). by rewrite He.
Qed.

(** The other branch of [create]: the name is there. *)
Lemma wp_create_old E type i j m d p H L R (Q : option nat → fls D X → Prop) t t1 s :
  fs_good t H L (i :: R) → held t (i :: R) i p d → linked (fview t) (fsb t) d → linked (fview t) (fsb t) m →
  fs_inv t1 H L (j :: i :: R) → fs_step t t1 H (fview t) → iget_result ROOTDEV m (icache t) j (icache t1) →
  (S (S (length R)) < NINODE)%nat → (length H + length L < NBUF)%nat →
  (if (type =? T_FILE) && (di_type (inode_at (fview t) (fsb t) m) =? T_FILE) then
     ∀ t', fs_good t' H L (j :: R) → fs_step t t' H (fview t) → slot_of t' j m → Q (Some j) (set_ffs t' s)
   else ∀ t', fs_good t' H L R → fs_step t t' H (fview t) → Q None (set_ffs t' s)) →
  wp E (fs_do (iput i);;
        fs_do (iread (Some j));;
        p ← fs_do (get_inode j);
        if (type =? T_FILE) && (i_type p =? T_FILE) then mret (Some j) else
        fs_do (iput j);;
        mret None) Q (set_ffs t1 s).
Proof.
  intros Hg Hi Hld Hlm Hinv1 Hs1 Hres HR Hfree HQ. pose proof (fg_inv _ _ _ _ Hg) as Hinv.
  destruct (held_sync _ _ _ _ _ _ _ Hg Hi) as (_ & Hdev & _ & _).
  assert (reading (fview t) (fsb t) t1 H L (i :: j :: R)) as Hrd1.
  { eapply reading_perm; [apply perm_swap|]. eapply reading_step; [apply Hg|done..|]. eapply icsync_iget; [by eapply fg_sync|done]. }
  assert (slot_of t1 i d) as (p1 & Hp1 & _ & Hpn1).
  { eapply (slot_iget_kept t); [exact Hinv|by left|exact Hres|]. exists p. split_and!; [apply Hi|done|apply Hi]. }
  apply wp_bind, wp_fs_do_set.
  eapply (wp_iput_linked _ _ E i p1 H L (j :: R)); [exact Hrd1|done|cbn; lia|by eapply (linked_kept _ _ t1 H L (j :: R) i p1 d)|].
  intros t2 Hrd2 Hs2 Hsl2. destruct (Hsl2 j m) as (q & Hq & Hqd & Hqn); [by left|by eapply slot_iget|].
  assert (fs_good t2 H L (j :: R)) as Hg2 by (by eapply good_reading). pose proof (rd_sb _ _ _ _ _ _ Hrd2) as Hsb2.
  pose proof (rd_view _ _ _ _ _ _ Hrd2) as HV2.
  assert (fs_step t t2 H (fview t)) as Hs02 by (eapply fs_step_trans; [exact Hs1|]; eapply fs_step_ext; [exact Hs2|apply Hs1]).
  assert (inode_at (fview t2) (fsb t2) m = inode_at (fview t) (fsb t) m) as Him by (unfold inode_at; by rewrite Hsb2, HV2).
  apply wp_bind, wp_fs_do_set.
  eapply (wp_iread_good E j q m); [exact Hg2|done|by left|done|done| |done|].
  { split; [rewrite Hsb2; apply Hlm|]. rewrite Him. apply Hlm. }
  intros p3 t3 Hg3 Hs3 Hic3 Hh3 Hp3. rewrite Him in Hp3.
  assert (fs_step t t3 H (fview t)) as Hs03 by (eapply fs_step_trans; [exact Hs02|]; eapply fs_step_ext; [exact Hs3|done]).
  apply wp_bind, wp_fs_do_set. eapply wp_getopt; [apply Hh3|].
  assert (i_type p3 = di_type (inode_at (fview t) (fsb t) m)) as -> by (by rewrite <- Hp3).
  destruct ((type =? T_FILE) && _).
  { apply wp_ret, HQ; [done|done|]. exists p3. destruct (held_sync _ _ _ _ _ _ _ Hg3 Hh3) as (_ & ? & _). split_and!; [apply Hh3|done|apply Hh3]. }
  apply wp_bind, wp_fs_do_set.
  eapply (wp_iput_linked _ _ E j p3 H L R); [apply Hg3|apply Hh3|lia| |].
  { eapply (linked_kept _ _ t3 H L R j p3 m); [apply Hg3|apply Hh3|apply Hh3|]. rewrite (fst_sb _ _ _ _ Hs03). eapply linked_ext; [apply Hs03|done]. }
  intros t4 Hrd4 Hs4 _. apply wp_ret, HQ; [by eapply good_reading|]. eapply fs_step_trans; [exact Hs03|]. eapply fs_step_ext; [exact Hs4|]. apply Hs03.
Qed.

(** What a new inode in the directory [d] takes. *)
Record has_space (V : disk) (sb : superblock) (d : Z) : Prop := {
  sp_blocks : (6 ≤ nfree V sb)%nat;
  sp_inode : ∃ n0, 1 ≤ n0 < sb_ninodes sb ∧ di_type (inode_at V sb n0) = 0;
  sp_dir : di_size (inode_at V sb d) + 16 ≤ 71680 ∧ di_nlink (inode_at V sb d) < 32767;
}.
Lemma has_space_ext V V' sb d : (∀ b, V b = V' b) → has_space V sb d → has_space V' sb d.
Proof.
  intros HV [H1 H2 H3]. assert (∀ n, inode_at V' sb n = inode_at V sb n) as Hi by (intros n; unfold inode_at; by rewrite HV).
  constructor; [by rewrite (nfree_ext _ V) by done|setoid_rewrite Hi|rewrite Hi]; done.
Qed.

Lemma wp_create E l tl type major minor name H L R (Q : option nat → fls D X → Prop) s :
  let t0 := ffs s in let V := fview t0 in let sb := fsb t0 in let es := components l in
  fs_good t0 H L R → linked V sb ROOTINO → (S (S (S (length R))) < NINODE)%nat →
  0 ∉ l → bytes (l ++ 0 :: tl) → bytes name → length name = DIRSIZ →
  room t0 L 24 → (S (length H) + length L + 23 < NBUF)%nat → 0 < type < 32768 →
  (∀ d, resolve V sb true es ROOTINO = Some d → resolve V sb false es ROOTINO = None → has_space V sb d) →
  (resolve V sb true es ROOTINO = None → ∀ t, fs_good t H L R → fs_step t0 t H V → Q None (set_ffs t s)) →
  (∀ d m, resolve V sb true es ROOTINO = Some d → resolve V sb false es ROOTINO = Some m →
     (if (type =? T_FILE) && (di_type (inode_at V sb m) =? T_FILE) then
        ∀ ip t, fs_good t H L (ip :: R) → fs_step t0 t H V → slot_of t ip m → Q (Some ip) (set_ffs t s)
      else ∀ t, fs_good t H L R → fs_step t0 t H V → Q None (set_ffs t s))) →
  (∀ d, resolve V sb true es ROOTINO = Some d → resolve V sb false es ROOTINO = None →
     ∀ nm ip n t L', created t0 t H L L' R nm type major minor ip n d → cname DIRSIZ nm = take DIRSIZ (default [] (last es)) →
     resolve (fview t) sb false es ROOTINO = Some n → Q (Some ip) (set_ffs t s)) →
  wp E (create devtab (l ++ 0 :: tl) type major minor name) Q s.
Proof.
  intros t0 V sb es Hg Hroot HR H0 Hbl Hbn Hln Hroom Hbuf Hty Hsp HQ0 HQ1 HQ2. unfold create.
  pose proof (tr_dirs _ _ (fg_tree _ _ _ _ Hg)) as Htree.
  apply wp_bind, wp_fs_do. unfold nameiparent.
  eapply (wp_namex devtab V sb); try done; [apply Hg|lia|lia| |].
  2: { intros Hno name' t Hrd Hs. cbn [fst]. apply wp_ret, HQ0; [done| |done]. by eapply good_reading. }
  intros d Hd i nm t1 Hrd1 Hs1 (q & Hq & Hqd & Hqn) Hld Hlast. destruct (Hlast eq_refl) as (Hnml & Hnmb & Hnmc). fold es in Hnmc. cbn [fst snd].
  assert (fs_good t1 H L (i :: R)) as Hg1 by (by eapply good_reading). pose proof (rd_sb _ _ _ _ _ _ Hrd1) as Hsb1.
  pose proof (rd_view _ _ _ _ _ _ Hrd1) as HV1.
  apply wp_bind, wp_fs_do_set.
  eapply (wp_iread_good E i q d); [done|done|set_solver|done|done| |lia|].
  { rewrite Hsb1. unfold live, inode_at. rewrite HV1. by apply linked_live. }
  intros p t2 Hg2 Hs2 Hic2 Hh2 Hp2.
  assert (fs_step t0 t2 H V) as Hs02 by (eapply fs_step_trans; [exact Hs1|]; eapply fs_step_ext; [exact Hs2|done]).
  pose proof (fst_view _ _ _ _ Hs02) as HV2. pose proof (fst_sb _ _ _ _ Hs02) as Hsb2. fold sb in Hsb2.
  assert (i_disk p = inode_at V sb d) as Hpd by (rewrite Hp2, Hsb1; unfold inode_at; by rewrite HV1).
  destruct (resolve_last _ _ _ _ _ Hd) as [HT Hlast']. fold es in Hlast'. destruct (held_sync _ _ _ _ _ _ _ Hg2 Hh2) as (_ & Hpdev & _ & _).
  assert (i_type p = T_DIR) as HTp by (rewrite <- HT, <- Hpd; done).
  assert (∀ m, linked V sb m → linked (fview t2) (fsb t2) m) as Hlk2 by (intros m; rewrite Hsb2; by apply linked_ext).
  assert (dir_lookup nm (contents (fview t2) (i_disk p)) = dir_lookup (take DIRSIZ (default [] (last es))) (contents V (inode_at V sb d))) as Hlook.
  { rewrite Hpd, (contents_ext (fview t2) V) by done. apply dir_find_cname. by rewrite <- Hnmc, cname_idem. }
  rewrite <- Hlook in Hlast'. pose proof (fg_inv _ _ _ _ Hg2) as Hinv2.
  destruct (linked_dir _ _ t2 H L (i :: R) p d (tr_dirs _ _ (fg_tree _ _ _ _ Hg2)) (fg_reading _ _ _ _ Hg2)) as [Hdir _];
    [by apply Hlk2|done|by rewrite Hpd, Hsb2; unfold inode_at; rewrite HV2|done|].
  apply wp_bind, wp_fs_do_set. eapply (wp_dirlookup devtab E i p nm H L (i :: R)); try done; [apply Hh2|left; lia|lia|cbn; lia| |].
  - rewrite Hlook. intros Hnone t3 Hinv3 Hs3 Hi3. rewrite <- Hlook in Hnone. rewrite Hnone in Hlast'.
    assert (fs_step t0 t3 H V) as Hs03 by (eapply fs_step_trans; [exact Hs02|]; eapply fs_step_ext; [exact Hs3|done]).
    assert (fs_good t3 H L (i :: R)) as Hg3.
    { eapply good_reading; [exact Hg2|]. eapply reading_step; [apply Hg2|done|done|]. rewrite Hi3. by eapply fg_sync. }
    pose proof (fst_view _ _ _ _ Hs03) as HV3. pose proof (fst_sb _ _ _ _ Hs03) as Hsb3. fold sb in Hsb3.
    destruct (Hsp d Hd Hlast') as [Hnf (n0 & Hn0 & Hf0) [Hlim1 Hlim2]]. rewrite <- Hpd in Hlim1, Hlim2.
    eapply (wp_create_new E type major minor i p d nm n0 H L R); rewrite ?Hsb3; try done; try lia.
    + destruct Hh2. constructor; try done. by rewrite Hi3.
    + by apply (linked_ext sb V).
    + by eapply (resolve_nonzero sb V true es ROOTINO).
    + rewrite (contents_ext (fview t3) (fview t2)); [done|]. intros b. by rewrite HV2.
    + left. lia.
    + by eapply room_step.
    + rewrite (nfree_ext _ V) by done. lia.
    + unfold free_inode. by rewrite (disk_inode_step _ _ _ _ Hs03).
    + intros ip n t' L' Hcr. pose proof (created_from t0 t3 t' H L L' R (i :: R) nm type major minor ip n d Hs03 Hg3 Hcr) as Hcr'.
      eapply (HQ2 d); try done. eapply created_path; done.
  - rewrite Hlook. intros m off Hsome j t3 Hinv3 Hs3 Hres. rewrite <- Hlook in Hsome. rewrite Hsome in Hlast'.
    assert (linked V sb m) as Hlm by (by eapply (resolve_linked _ _ false es ROOTINO)).
    eapply (wp_create_old E type i j m d p H L R); try done; [by apply Hlk2|by apply Hlk2|lia|lia|].
    assert (inode_at (fview t2) (fsb t2) m = inode_at V sb m) as -> by (unfold inode_at; by rewrite Hsb2, HV2).
    assert (∀ t', fs_step t2 t' H (fview t2) → fs_step t0 t' H V) as Hst.
    { intros t' Ht'. eapply fs_step_trans; [exact Hs02|]. eapply fs_step_ext; [exact Ht'|done]. }
    specialize (HQ1 d m Hd Hlast'). destruct ((type =? T_FILE) && _); eauto.
Qed.
End create.
