(* ===== verification/FileTxn.v ===== *)
(** * file.c: mknod and mkdir as transactions

    Creating a device or a directory takes effect as a whole: after a power
    failure and recovery the tree is the old one or the new one. *)

From S2P Require Import Prelude Spinlock CString Ide Bio BioFacts Layout Log LogDisk LogFacts LogSpecs LogCrash Fs FsFacts FsInodes FsFiles FsTable FsWrite FsWritei FsDirs FsLink FsPaths FsNames FsTree FsNodes File FileFacts FileCreate.

(** Two disks with the same inodes and file contents. *)
Definition unchanged (sb : superblock) (V V' : disk) : Prop := ∀ m, 0 ≤ m < sb_ninodes sb →
  inode_at V' sb m = inode_at V sb m ∧
  (live sb V m → contents V' (inode_at V sb m) = contents V (inode_at V sb m)).

Section unchanged.
Context (sb : superblock) (V V' : disk) (Hu : unchanged sb V V').

Lemma unchanged_resolve parent es n : tree_ok V sb → linked V sb n → resolve V' sb parent es n = resolve V sb parent es n.
Proof.
  intros Ht. revert n. induction es as [|e es IH]; intros n Hn; cbn [resolve]; [done|].
  destruct (Hu n (proj1 Hn)) as [-> Hc]. rewrite Hc by (by apply linked_live).
  destruct (Z.eqb_spec (di_type (inode_at V sb n)) T_DIR) as [Hd|]; [|done]. destruct (parent && bool_decide (es = [])); [done|].
  destruct (dir_lookup (take DIRSIZ e) (contents V (inode_at V sb n))) as [[x off]|] eqn:Hl; [|done].
  cbn [mbind option_bind fst]. apply IH. destruct (Ht n Hn Hd) as (_ & _ & _ & _ & He). by eapply He.
Qed.
Lemma unchanged_grows : grows sb V V'.
Proof.
  intros m Hm. destruct (Hu m (proj1 Hm)) as [Hi Hc]. unfold linked. rewrite Hi, Hc by (by apply linked_live). done.
Qed.
Lemma unchanged_others n d : others sb V V' n d.
Proof. intros m Hm _ _. by apply Hu. Qed.
Lemma unchanged_made type major minor n d : live sb V n →
  made type major minor V (inode_at V sb n) n d → made type major minor V' (inode_at V' sb n) n d.
Proof.
  intros Hl (? & ? & ? & ? & Hm). destruct (Hu n (proj1 Hl)) as [-> Hc]. split_and!; try done.
  destruct (type =? T_DIR); [|done]. destruct Hm as (? & o1 & o2 & ?). split; [done|]. exists o1, o2. by rewrite Hc.
Qed.
End unchanged.

Section txn.
Context {D X : Type} {dev : IdeDevice D} {dok : IdeDeviceOk D}.
Context (devtab : list (@devsw D X)).
Implicit Types s t : fss D X.

(** A disk with the blocks of [s] outside the log has its tree. *)
Lemma home_tree s H L R V : fs_good s H L R →
  (∀ b, home (log_start (lg (flog s))) (log_size (lg (flog s))) b → V b = fview s b) →
  unchanged (fsb s) (fview s) V ∧ tree (fsb s) V ∧ agree (fsb s) (fview s) V.
Proof.
  intros Hg HV. pose proof (fg_inv _ _ _ _ Hg) as Hinv. pose proof (fg_tree _ _ _ _ Hg) as Ht.
  destruct (geometry _ _ _ _ Hinv) as (Hbm & Hsz & Hlt & _).
  assert (agree (fsb s) (fview s) V) as Hag.
  { intros b Hb. apply HV. eapply above_home; [done|]. destruct (fi_geom _ _ _ _ Hinv).
    assert (0 ≤ sb_ninodes (fsb s) / IPB) by (apply Z.div_pos; unfold IPB; lia). lia. }
  assert (∀ m, 0 ≤ m < sb_ninodes (fsb s) → inode_at V (fsb s) m = inode_at (fview s) (fsb s) m) as Hi.
  { intros m Hm. unfold inode_at. rewrite HV; [done|]. right. by apply (inode_block s H L R). }
  assert (changed (fsb s) (fview s) V (-1)) as Hch by (apply changed_agree; try done; intros m Hm _; by apply Hi).
  split_and!; [|apply (tree_changed (fsb s) (fview s) V (-1)); try done; try (by intros [? ?]; lia); by intros a [? ?]; lia|done].
  intros m Hm. split; [by apply Hi|]. intros Hl. eapply changed_contents; [done..|lia].
Qed.
Lemma committed_good s s' H L R : fs_good s H L R → committed s s' L → fs_inv s' H [] R → fs_good s' H [] R.
Proof.
  intros Hg Hc Hinv'. destruct (home_tree s H L R (fview s') Hg (cm_view _ _ _ Hc)) as (Hu & Ht & Hag).
  pose proof (fg_inv _ _ _ _ Hg) as Hinv. pose proof (cm_sb _ _ _ Hc) as Hsb. constructor.
  - constructor; [done..|]. rewrite Hsb, (cm_icache _ _ _ Hc). intros i p Hp Hr Hv.
    destruct (fg_sync _ _ _ _ Hg i p Hp Hr Hv) as (Hd & ? & Hn & ?). split_and!; try done; try lia. by rewrite (proj1 (Hu _ Hn)).
  - by rewrite Hsb.
  - eapply (meta_used_agree s); [exact Hinv|apply Hg|done|done].
Qed.

(** The tree after a power failure in a transaction from [s] to [s']. *)
Lemma transacted_tree s s' R : fs_good s [] [] R → fs_good s' [] [] R → transacted s s' →
  crash_outcome s s' (λ V, tree (fsb s) V ∧ (unchanged (fsb s) (fview s) V ∨ unchanged (fsb s) (fview s') V)).
Proof.
  intros Hg Hg' Htx. eapply crash_outcome_weaken; [|apply Htx]. intros V _ [HV|HV].
  - destruct (home_tree s [] [] R V Hg HV) as (? & ? & _). by split; [|left].
  - rewrite <- (tx_start _ _ Htx), <- (tx_lsize _ _ Htx) in HV. destruct (home_tree s' [] [] R V Hg' HV) as (? & ? & _).
    rewrite (tx_sb _ _ Htx) in *. by split; [|right].
Qed.

(** The last component of a path, as directories store it. *)
Definition last_elem (es : list (list Z)) : list Z := take DIRSIZ (default [] (last es)).
Lemma named_once_cname a b c off : cname DIRSIZ a = cname DIRSIZ b → named_once a c off → named_once b c off.
Proof. intros Hab Hon j Hj Hej. apply (Hon j Hj). unfold entry_is in *. by rewrite Hab. Qed.

(** The new inode [n] of a finished transaction, under the path [es]. *)
Record entered t t' (R : list nat) (es : list (list Z)) (type major minor n d : Z) : Prop := {
  en_good : fs_good t' [] [] R;
  en_tx : transacted t t';
  en_fresh : ¬ live (fsb t) (fview t) n;
  en_live : live (fsb t) (fview t') n;
  en_made : made type (s16 major) (s16 minor) (fview t') (inode_at (fview t') (fsb t) n) n d;
  en_path : resolve (fview t') (fsb t) false es ROOTINO = Some n;
  en_grows : grows (fsb t) (fview t) (fview t');
  en_others : others (fsb t) (fview t) (fview t') n d;
  en_entry : let c := contents (fview t') (inode_at (fview t') (fsb t) d) in
    ∃ off, dir_lookup (last_elem es) c = Some (n, off) ∧ named_once (last_elem es) c off;
  en_names x : cname DIRSIZ x ≠ cname DIRSIZ (last_elem es) →
    dir_lookup x (contents (fview t') (inode_at (fview t') (fsb t) d)) = dir_lookup x (contents (fview t) (inode_at (fview t) (fsb t) d));
  en_links : di_nlink (inode_at (fview t') (fsb t) d) =
    di_nlink (inode_at (fview t) (fsb t) d) + (if type =? T_DIR then 1 else 0);
}.

Lemma created_entered t t1 t2 t3 L R es nm type major minor ip n d :
  fs_good t [] [] R → sb_current (fio t) (lg (flog t)) → linked (fview t) (fsb t) ROOTINO → type ≠ 0 →
  linked (fview t) (fsb t) d → cname DIRSIZ nm = last_elem es →
  created t t1 [] [] L R nm type major minor ip n d → resolve (fview t1) (fsb t) false es ROOTINO = Some n →
  fs_good t2 [] L R → fs_step t1 t2 [] (fview t1) → committed t2 t3 L → fs_inv t3 [] [] R →
  entered t t3 R es type major minor n d.
Proof.
  intros Hg Hcur Hroot Hty Hld Hnm Hcr Hpath Hg2 Hs12 Hc Hinv3.
  pose proof Hcr as [[Hg1 _ Hs1 Hgr Hoth _] _ Hr Hfr Hmade (off & He & Hon) Hlk Hns].
  pose proof (fst_sb _ _ _ _ Hs1) as Hsb1. pose proof (fst_sb _ _ _ _ Hs12) as Hsb2. pose proof (fst_view _ _ _ _ Hs12) as HV.
  destruct (home_tree t2 [] L R (fview t3) Hg2 (cm_view _ _ _ Hc)) as (Hu & _ & _). rewrite Hsb2, Hsb1 in Hu.
  assert (unchanged (fsb t) (fview t1) (fview t3)) as Hu13.
  { intros m Hm. destruct (Hu m Hm) as [Hi Hco]. assert (inode_at (fview t2) (fsb t) m = inode_at (fview t1) (fsb t) m) as Hi'
      by (unfold inode_at; by rewrite HV). rewrite Hi, Hi' in *. split; [done|]. intros Hl.
    rewrite Hco by (split; [apply Hl|rewrite Hi'; apply Hl]). by apply contents_ext. }
  assert (live (fsb t) (fview t1) n) as Hl1 by (split; [lia|]; destruct Hmade as (-> & _); done).
  pose proof (tr_dirs _ _ (fg_tree _ _ _ _ Hg1)) as Ht1. rewrite Hsb1 in Ht1.
  assert (cname DIRSIZ nm = cname DIRSIZ (last_elem es)) as Hcn by (by rewrite <- Hnm, cname_idem).
  destruct (Hu13 d (proj1 Hld)) as [Hid Hcd]. specialize (Hcd (linked_live _ _ _ (proj1 (Hgr d Hld)))).
  assert (fs_step t t2 [] (fview t2)) as Hs2.
  { eapply fs_step_trans; [exact Hs1|]. eapply fs_step_ext; [exact Hs12|]. intros b. by rewrite HV. }
  constructor.
  - by eapply committed_good.
  - eapply transaction; [by apply fg_inv|done|by apply fg_inv|exact Hs2|exact Hc].
  - done.
  - destruct (Hu13 n (proj1 Hl1)) as [Hi _]. split; [apply Hl1|]. rewrite Hi. apply Hl1.
  - by eapply unchanged_made.
  - rewrite <- Hpath. eapply unchanged_resolve; [done|done|by apply Hgr].
  - eapply grows_trans; [exact Hgr|by apply unchanged_grows].
  - eapply others_trans; [exact Hoth|by apply unchanged_others].
  - exists off. rewrite Hid, Hcd. split; [|by eapply named_once_cname]. unfold dir_lookup in *. by rewrite (dir_find_cname _ nm).
  - intros x Hx. rewrite Hid, Hcd. apply Hns. by rewrite Hcn.
  - by rewrite Hid.
Qed.

(** The end of an operation that only read. *)
Lemma wp_end_unchanged {A} E (r : A) R (Q : A → fls D X → Prop) t0 t (s : fls D X) :
  fs_good t [] [] R → fs_step t0 t [] (fview t0) →
  (∀ t', fs_good t' [] [] R → unchanged (fsb t0) (fview t0) (fview t') → fsb t' = fsb t0 → Q r (set_ffs t' s)) →
  wp E (f_end_op;; mret r) Q (set_ffs t s).
Proof.
  intros Hgt Hst HQ. apply wp_bind, wp_fs_do_set. eapply wp_end_op; [by apply fg_inv|cbn; unfold NBUF; lia|].
  intros t' Hinv' Hc. apply wp_ret, HQ; [by eapply committed_good| |].
  - destruct (home_tree t [] [] R (fview t') Hgt (cm_view _ _ _ Hc)) as (Hu & _ & _). rewrite (fst_sb _ _ _ _ Hst) in Hu.
    pose proof (fst_view _ _ _ _ Hst) as HV. intros m Hm. destruct (Hu m Hm) as [Hi Hco].
    assert (inode_at (fview t) (fsb t0) m = inode_at (fview t0) (fsb t0) m) as Hi' by (unfold inode_at; by rewrite HV). rewrite Hi, Hi' in *.
    split; [done|]. intros Hl. rewrite Hco by (split; [done|rewrite Hi'; apply Hl]). by apply contents_ext.
  - rewrite (cm_sb _ _ _ Hc). apply Hst.
Qed.

(** [mknod] and [mkdir]. *)
Lemma wp_make E l tl type major minor name R (Q : Z → fls D X → Prop) (s : fls D X) :
  let t0 := ffs s in let V := fview t0 in let sb := fsb t0 in let es := components l in
  fs_good t0 [] [] R → sb_current (fio t0) (lg (flog t0)) → linked V sb ROOTINO → (S (S (S (length R))) < NINODE)%nat →
  0 ∉ l → bytes (l ++ 0 :: tl) → bytes name → length name = DIRSIZ → 24 < log_size (lg (flog t0)) →
  0 < type < 32768 → type ≠ T_FILE →
  (∀ d, resolve V sb true es ROOTINO = Some d → resolve V sb false es ROOTINO = None → has_space V sb d) →
  (resolve V sb true es ROOTINO = None ∨ resolve V sb false es ROOTINO ≠ None →
     ∀ t, fs_good t [] [] R → unchanged sb V (fview t) → fsb t = sb → Q (-1) (set_ffs t s)) →
  (∀ d, resolve V sb true es ROOTINO = Some d → resolve V sb false es ROOTINO = None →
     ∀ n t, entered t0 t R es type major minor n d → Q 0 (set_ffs t s)) →
  wp E (f_begin_op;;
        r ← create devtab (l ++ 0 :: tl) type major minor name;
        match r with
        | None => f_end_op;; mret (-1)
        | Some ip => fs_do (iput ip);; f_end_op;; mret 0
        end) Q s.
Proof.
  intros t0 V sb es Hg Hcur Hroot HR H0 Hbl Hbn Hln Hlog Hty Hnf' Hsp HQ1 HQ2.
  apply wp_bind, wp_begin_op, wp_bind.
  assert (resolve V sb true es ROOTINO = None ∨ resolve V sb false es ROOTINO ≠ None → ∀ t, fs_good t [] [] R → fs_step t0 t [] V →
    wp E (f_end_op;; mret (-1)) Q (set_ffs t s)) as Hfail.
  { intros Hno t Hgt Hst. eapply wp_end_unchanged; [done|exact Hst|]. by apply HQ1. }
  eapply (wp_create devtab E l tl type major minor name [] [] R); try done; [unfold NBUF; cbn [length]; lia| | |].
  - intros Hno t Hgt Hst. apply Hfail; [by left|done|done].
  - intros d m Hd Hm. rewrite (proj2 (Z.eqb_neq _ _) Hnf'). cbn [andb]. intros t Hgt Hst. apply Hfail; [|done|done]. right. intros He. fold t0 V sb es in Hm. congruence.
  - intros d Hd Hno nm ip n t1 L Hcr Hnm Hpath. pose proof Hcr as [Hp (q & Hq & Hqd & Hqn) Hr _ Hmade _ _ _]. pose proof Hp as [Hg1 HL1 Hs1 _ _ _].
    pose proof (fst_sb _ _ _ _ Hs1) as Hsb1. apply wp_bind, wp_fs_do_set.
    eapply (wp_iput_linked _ _ E ip q [] L R); [apply Hg1|done|lia| |].
    { eapply (linked_kept _ _ t1 [] L R ip q n); [apply Hg1|done|done|]. rewrite Hsb1. destruct Hmade as (Hm1 & _ & _ & Hm4 & _).
      split; [lia|]. rewrite Hm1, Hm4. lia. }
    intros t2 Hrd2 Hs2 _. assert (fs_good t2 [] L R) as Hg2 by (by eapply good_reading).
    apply wp_bind, wp_fs_do_set. eapply wp_end_op; [by apply fg_inv|cbn in *; unfold NBUF; lia|].
    intros t3 Hinv3 Hc. apply wp_ret. eapply (HQ2 d Hd Hno n). eapply created_entered; try done; [lia|].
    eapply (resolve_linked _ _ true es ROOTINO); [|done|exact Hd]. apply (tr_dirs _ _ (fg_tree _ _ _ _ Hg)).
Qed.
End txn.
