(* ===== verification/FileUnlink.v ===== *)
(** * file.c: removing names

    [unlink] as a step of the tree: the name is gone, every path that did not
    go through it leads where it did, and an inode without links and without
    references is free again. *)

From S2P Require Import Prelude Spinlock CString Ide Bio BioFacts Layout Log LogDisk LogFacts LogSpecs LogCrash Fs FsFacts FsInodes FsFiles FsTable FsWrite FsWritei FsTrunc FsDirs FsLink FsPaths FsNames FsTree FsNodes FsUnlink File FileFacts FileCreate FileTxn.

(** What became of an inode that lost its last link. *)
Definition let_go (sb : superblock) (V V' : disk) (n : Z) (kept : bool) : Prop :=
  if kept then live sb V' n ∧ di_nlink (inode_at V' sb n) = 0 ∧ contents V' (inode_at V' sb n) = contents V (inode_at V sb n)
  else reclaimed sb V V' n.

(** ** Paths in a tree without one inode *)
Section spec.
Context (V : disk) (sb : superblock) (n : Z).

(** Where a path leads when entries that name [n] are not there. *)
Fixpoint resolve_without (es : list (list Z)) (m : Z) : option Z :=
  match es with
  | [] => Some m
  | e :: es =>
      if di_type (inode_at V sb m) =? T_DIR then
        x ← dir_lookup (take DIRSIZ e) (contents V (inode_at V sb m));
        if x.1 =? n then None else resolve_without es x.1
      else None
  end.

Lemma resolve_pruned (V' : disk) es m :
  tree_ok V sb →
  (∀ m, linked V sb m → m ≠ n → di_type (inode_at V' sb m) = di_type (inode_at V sb m) ∧
     (di_type (inode_at V sb m) = T_DIR → ∀ nm, dir_lookup nm (contents V' (inode_at V' sb m)) =
        x ← dir_lookup nm (contents V (inode_at V sb m)); if x.1 =? n then None else Some x)) →
  linked V sb m → m ≠ n → resolve V' sb false es m = resolve_without es m.
Proof.
  intros Ht HV. revert m. induction es as [|e es IH]; intros m Hm Hne; cbn [resolve resolve_without]; [done|].
  destruct (HV m Hm Hne) as [-> Hl]. destruct (Z.eqb_spec (di_type (inode_at V sb m)) T_DIR) as [Hd|]; [|done]. cbn [andb].
  rewrite Hl by done. destruct (dir_lookup _ _) as [[x off]|] eqn:Hx; [|done]. cbn [mbind option_bind fst].
  destruct (Z.eqb_spec x n); [done|]. cbn. apply IH; [|done]. destruct (Ht m Hm Hd) as (_ & _ & _ & _ & He). by eapply He.
Qed.

(** The inode [n] can be removed: its only link is the entry [name] of the
    directory [d], at [off], and if it is a directory it is empty. *)
Record removable (d : Z) (name : list Z) (off : Z) : Prop := {
  rm_entry : dir_lookup name (contents V (inode_at V sb d)) = Some (n, off);
  rm_other : n ≠ d ∧ n ≠ ROOTINO;
  rm_link : di_nlink (inode_at V sb n) = 1;
  rm_once : named_once name (contents V (inode_at V sb d)) off;
  rm_sole m nm o : linked V sb m → m ≠ n → di_type (inode_at V sb m) = T_DIR →
    dir_lookup nm (contents V (inode_at V sb m)) = Some (n, o) → m = d ∧ cname DIRSIZ nm = cname DIRSIZ name;
  rm_dir : di_type (inode_at V sb n) = T_DIR →
    dir_empty (contents V (inode_at V sb n)) = true ∧ 2 ≤ di_nlink (inode_at V sb d);
}.

(** The tree [V'] after it was removed; [kept] tells whether somebody has the
    inode open still. *)
Record removed (V' : disk) (d off : Z) (kept : bool) : Prop := {
  rv_paths es : resolve V' sb false es ROOTINO = resolve_without es ROOTINO;
  rv_entry : contents V' (inode_at V' sb d) = splice (Z.to_nat off) no_entry (contents V (inode_at V sb d));
  rv_dir : linked V' sb d ∧ di_type (inode_at V' sb d) = T_DIR;
  rv_links : di_nlink (inode_at V' sb d) =
    di_nlink (inode_at V sb d) - (if di_type (inode_at V sb n) =? T_DIR then 1 else 0);
  rv_others : others sb V V' n d;
  rv_node : let_go sb V V' n kept;
}.
End spec.

Section unlink.
Context {D X : Type} {dev : IdeDevice D} {dok : IdeDeviceOk D}.
Context (devtab : list (@devsw D X)).
Implicit Types s : fls D X.

Lemma wp_isdirempty_loop E fuel i p n k H L R (Q : Z → fls D X → Prop) t s :
  let c := contents (fview t) (i_disk p) in
  fs_inv t H L R → icache t !! i = Some p → dir_ok (fview t) p → (length H + length L < NBUF)%nat →
  (n = 0%nat ∧ i_size p ≤ Z.of_nat (16 * k)) ∨ i_size p = Z.of_nat (16 * (n + k)) → (n < fuel)%nat →
  (∀ t', fs_inv t' H L R → fs_step t t' H (fview t) → icache t' = icache t →
     Q (if forallb (λ j, de_inum (dirent_at c j) =? 0) (seq k n) then 1 else 0) (set_ffs t' s)) →
  wp E (isdirempty_loop devtab fuel i (Z.of_nat (16 * k))) Q (set_ffs t s).
Proof.
  revert n k t. induction fuel as [|fuel IH]; intros n k t c Hinv Hp Hd Hfree Hsz Hf HQ; [lia|].
  cbn [isdirempty_loop]. apply wp_bind, wp_fs_do_set. eapply wp_getopt; [done|]. pose proof Hd as [(_ & Hs & _) Hty Hnl _ _].
  destruct n as [|n].
  { rewrite (proj2 (Z.ltb_ge _ _)) by lia. apply wp_ret, HQ; [done|apply fs_step_refl|done]. }
  destruct Hsz as [[? _]|Hsz]; [done|]. rewrite (proj2 (Z.ltb_lt _ _)) by lia.
  apply wp_bind, wp_fs_do_set. eapply (wp_readi devtab); [done|done|apply Hd| |lia|lia|lia|lia|done|]; [by rewrite Hty|].
  intros t1 Hinv1 Hs1 Hi1. cbn zeta. replace (Z.min 16 (i_size p - Z.of_nat (16 * k))) with 16 by lia.
  rewrite Nat2Z.id. change (Z.to_nat 16) with 16%nat. cbn [fst snd Z.eqb Pos.eqb negb].
  fold c. fold (dirent_at c k). pose proof (fst_view _ _ _ _ Hs1) as HV. cbn [seq forallb] in HQ.
  destruct (de_inum (dirent_at c k) =? 0); [|by apply wp_ret, HQ]. cbn [negb andb] in *.
  replace (Z.of_nat (16 * k) + 16) with (Z.of_nat (16 * S k)) by lia.
  apply (IH n (S k)); try done; [congruence|by eapply dir_ok_ext; [|done]|right; lia|lia|].
  rewrite (contents_ext (fview t1) (fview t)) by done. fold c. intros t' Hinv' Hs' Hi'.
  apply HQ; [done| |congruence]. eapply fs_step_trans; [done|]. by eapply fs_step_ext.
Qed.

Lemma wp_isdirempty E i p H L R (Q : Z → fls D X → Prop) t s :
  fs_inv t H L R → icache t !! i = Some p → dir_ok (fview t) p → (length H + length L < NBUF)%nat →
  (∀ t', fs_inv t' H L R → fs_step t t' H (fview t) → icache t' = icache t →
     Q (if dir_empty (contents (fview t) (i_disk p)) then 1 else 0) (set_ffs t' s)) →
  wp E (isdirempty devtab i) Q (set_ffs t s).
Proof.
  intros Hinv Hp Hd Hfree HQ. unfold isdirempty. apply wp_bind, wp_fs_do_set. eapply wp_getopt; [done|].
  pose proof Hd as [(_ & Hs & _) _ _ Hmod _]. pose proof (Z_div_mod_eq_full (i_size p) 16). assert (0 ≤ i_size p / 16) by (apply Z.div_pos; lia).
  unfold dir_empty in HQ. rewrite length_contents in HQ; [|intros; by eapply fview_512|cbn [di_size i_disk]; lia]. cbn [di_size i_disk] in HQ.
  replace (Z.to_nat (i_size p) / 16)%nat with (Z.to_nat (i_size p / 16)) in HQ by (by rewrite Z2Nat.inj_div by lia).
  change 32 with (Z.of_nat (16 * 2)). eapply (wp_isdirempty_loop E _ i p (Z.to_nat (i_size p / 16) - 2) 2); try done; [|lia].
  destruct (decide (Z.to_nat (i_size p / 16) <= 2)%nat); [left|right]; lia.
Qed.

(** The directory after the entry at [off] was taken out, with [k] links less. *)
Record parent_done (t t' : fss D X) (H : list nat) (L L' : list Z) (R : list nat) (d off k : Z) (name : list Z) : Prop := {
  pd_good : fs_good t' H L' R;
  pd_log : (length L' ≤ length L + 2)%nat;
  pd_step : fs_step t t' H (fview t');
  pd_changed : changed (fsb t) (fview t) (fview t') d;
  pd_type : di_type (inode_at (fview t') (fsb t) d) = T_DIR;
  pd_links : di_nlink (inode_at (fview t') (fsb t) d) = di_nlink (inode_at (fview t) (fsb t) d) - k;
  pd_contents : contents (fview t') (inode_at (fview t') (fsb t) d) =
    splice (Z.to_nat off) no_entry (contents (fview t) (inode_at (fview t) (fsb t) d));
  pd_names nm : dir_lookup nm (contents (fview t') (inode_at (fview t') (fsb t) d)) =
    if decide (cname DIRSIZ nm = cname DIRSIZ name) then None
    else dir_lookup nm (contents (fview t) (inode_at (fview t) (fsb t) d));
}.

(** The links of the parent, when a directory is removed. *)
Lemma wp_parent_links E (isdir : bool) i p d H L R (Q : unit → fls D X → Prop) t s :
  fs_good t H L R → held t R i p d → linked (fview t) (fsb t) d → (isdir = true → 2 ≤ i_nlink p) →
  room t L 1 → (length H + length L < NBUF)%nat →
  (∀ p' t' L', fs_good t' H L' R → (length L' ≤ S (length L))%nat → fs_step t t' H (fview t') →
     changed (fsb t) (fview t) (fview t') d → held t' R i p' d → icache t' = <[i:=p']> (icache t) →
     inode_at (fview t') (fsb t) d = i_disk p' → contents (fview t') (i_disk p') = contents (fview t) (i_disk p) →
     i_type p' = i_type p → i_nlink p' = i_nlink p - (if isdir then 1 else 0) → Q tt (set_ffs t' s)) →
  wp E (if isdir then
          fs_do (mod_inode i (λ p, set_i_nlink (s16 (i_nlink p - 1)) p));;
          fs_do (iupdate i)
        else mret tt) Q (set_ffs t s).
Proof.
  intros Hg Hh Hlk Hnl Hroom Hfree HQ. destruct (held_sync _ _ _ _ _ _ _ Hg Hh) as (Hd & _). rewrite (hd_inum _ _ _ _ _ Hh) in Hd.
  destruct isdir.
  2: { apply wp_ret. eapply (HQ p t L); try done; [lia|constructor; [done|]| |lia].
       - intros m a Hl _ Ha. split; [done|]. apply (wf_data _ _ _ (wh_own _ _ _ (tr_whole _ _ (fg_tree _ _ _ _ Hg) m Hl)) a Ha).
       - symmetry. apply list_insert_id, Hh. }
  specialize (Hnl eq_refl). destruct (wh_fields _ _ _ (tr_whole _ _ (fg_tree _ _ _ _ Hg) d (linked_live _ _ _ Hlk))) as (Hf & Hrest). rewrite <- Hd in Hf, Hrest.
  assert (i_nlink p < 32768) as Hnl2 by (rewrite !Forall_cons in Hf; cbn in Hf; lia).
  set (d' := mk_dinode (i_type p) (i_major p) (i_minor p) (i_nlink p - 1) (i_size p) (i_addrs p)).
  apply wp_bind, wp_fs_do_set. eapply wp_mod_inode; [apply Hh|]. rewrite s16_small by lia.
  change (set_i_nlink (i_nlink p - 1) p) with (set_i_disk d' p). apply wp_fs_do_set.
  eapply (wp_iupdate_good E i p d' d H L R); try done; try (cbn; lia).
  { split; [|done]. rewrite !Forall_cons in *. cbn in *. split_and!; try lia. constructor. }
  intros t1 L1 [Hg1 HL1 Hs1 Hch1] Hh1 Hic1 Hnew1 _ _ Hco1. eapply (HQ (set_i_disk d' p) t1 L1); try done. lia.
Qed.

(** The first half of the removal. *)
Lemma wp_unlink_parent {A} E (isdir : bool) i p d j q n name off H L R (k : M (fls D X) A) Q t s :
  fs_good t H L (j :: i :: R) → held t (j :: i :: R) i p d → held t (j :: i :: R) j q n → d ≠ n → linked (fview t) (fsb t) d →
  i_type p = T_DIR → dir_lookup name (contents (fview t) (i_disk p)) = Some (n, off) →
  named_once name (contents (fview t) (i_disk p)) off →
  (isdir = true → 2 ≤ i_nlink p) → (S (length R) < NINODE)%nat → room t L 2 → (length H + length L + 1 < NBUF)%nat →
  (∀ t' L', parent_done t t' H L L' (j :: R) d off (if isdir then 1 else 0) name → held t' (j :: R) j q n →
     wp E k Q (set_ffs t' s)) →
  wp E (w ← fs_do (writei devtab i (replicate 16 0) off 16);
        if negb (w =? 16) then panic "unlink: writei" else
        (if isdir then
           fs_do (mod_inode i (λ p, set_i_nlink (s16 (i_nlink p - 1)) p));;
           fs_do (iupdate i)
         else mret tt);;
        fs_do (iput i);;
        k) Q (set_ffs t s).
Proof.
  intros Hg Hi Hj Hdn Hlk HT Hlook Honce Hnl HR Hroom Hbuf HQ.
  destruct (held_sync _ _ _ _ _ _ _ Hg Hi) as (Hd & _). rewrite (hd_inum _ _ _ _ _ Hi) in Hd.
  assert (i ≠ j) as Hne.
  { intros ->. pose proof (hd_slot _ _ _ _ _ Hi). pose proof (hd_slot _ _ _ _ _ Hj). simplify_eq.
    apply Hdn. rewrite <- (hd_inum _ _ _ _ _ Hi). apply (hd_inum _ _ _ _ _ Hj). }
  apply wp_bind, wp_fs_do_set. change (replicate 16 0) with no_entry.
  eapply (wp_clear_entry devtab E i p d name n off); try done; [eapply room_le; [done|lia]|lia|].
  intros t1 L1 [Hg1 HL1 Hs1 Hch1] Hi1 Hic1 Hnew1 Hco1 Hnames1. pose proof (fst_sb _ _ _ _ Hs1) as Hsb1.
  change (negb (16 =? 16)) with false. cbv iota. apply wp_bind.
  assert (linked (fview t1) (fsb t1) d) as Hlk1 by (unfold linked in *; by rewrite Hsb1, Hnew1, Hd).
  eapply (wp_parent_links E isdir i p d H L1 (j :: i :: R)); try done; [|lia|].
  { eapply room_step; [exact Hs1|]. unfold room in *. lia. }
  intros p2 t2 L2 Hg2 HL2 Hs2 Hch2 Hi2 Hic2 Hnew2 Hco2 Hty2 Hnl2. rewrite Hsb1 in *. pose proof (fst_sb _ _ _ _ Hs2) as Hsb2.
  assert (held t2 (j :: i :: R) j q n) as Hj2.
  { eapply held_other; [exact Hic2|done|]. destruct Hj. constructor; try done. by rewrite Hic1. }
  assert (1 ≤ i_nlink p2) as Hnl2'.
  { destruct Hlk as (_ & _ & H1). rewrite <- Hd in H1. change (1 ≤ i_nlink p) in H1. rewrite Hnl2. destruct isdir; [specialize (Hnl eq_refl)|]; lia. }
  apply wp_bind, wp_fs_do_set.
  eapply (wp_iput_good E i p2 H L2 (j :: R)); [eapply good_perm; [apply perm_swap|done]|apply Hi2|cbn; lia|lia|].
  intros t3 Hg3 Hs3 Hic3. pose proof (fst_view _ _ _ _ Hs3) as HV3.
  assert (∀ m, inode_at (fview t3) (fsb t) m = inode_at (fview t2) (fsb t) m) as Hi3 by (intros m; unfold inode_at; by rewrite HV3).
  assert (contents (fview t3) (inode_at (fview t3) (fsb t) d) = contents (fview t1) (i_disk p)) as Hco3.
  { rewrite Hi3, Hnew2, (contents_ext (fview t3) (fview t2)) by done. done. }
  assert (changed (fsb t) (fview t2) (fview t3) d) as Hch3.
  { pose proof (fg_tree _ _ _ _ Hg2) as Ht2. rewrite Hsb2, Hsb1 in Ht2. constructor; [by intros|]. intros m a Hl _ Ha. split; [done|].
    rewrite (used_ext _ (fview t2)) by done. apply (wf_data _ _ _ (wh_own _ _ _ (tr_whole _ _ Ht2 m Hl)) a Ha). }
  pose proof (fg_tree _ _ _ _ Hg1) as Ht1. rewrite Hsb1 in Ht1.
  eapply (HQ t3 L2).
  - constructor; [done|lia| | | | | |].
    + eapply fs_step_trans; [exact Hs1|]. eapply fs_step_trans; [exact Hs2|]. eapply fs_step_ext; [exact Hs3|]. intros b. symmetry. apply HV3.
    + eapply changed_trans; [apply Hg|exact Hch1|]. eapply changed_trans; [exact Ht1|exact Hch2|done].
    + rewrite Hi3, Hnew2. change (i_type p2 = T_DIR). congruence.
    + rewrite Hi3, Hnew2, <- Hd. exact Hnl2.
    + by rewrite Hco3, Hco1, <- Hd.
    + intros nm. by rewrite Hco3, Hnames1, <- Hd.
  - eapply held_other; [exact Hic3|done|]. destruct Hj2. constructor; try done. set_solver.
Qed.

(** The second half of the removal. *)
Lemma wp_unlink_inode {A} E j q n H L R (k : M (fls D X) A) Q t s :
  let V := fview t in let sb := fsb t in
  fs_good t H L (j :: R) → held t (j :: R) j q n → i_nlink q = 1 →
  (∀ m name off, linked V sb m → m ≠ n → di_type (inode_at V sb m) = T_DIR →
     dir_lookup name (contents V (inode_at V sb m)) ≠ Some (n, off)) →
  (length R < NINODE)%nat → room t L 4 → (S (length H) + length L + 3 < NBUF)%nat →
  (∀ t' L' kept, fs_good t' H L' R → (length L' ≤ length L + 3)%nat → fs_step t t' H (fview t') →
     changed sb V (fview t') n → (kept = true ↔ ∃ x, x ∈ R ∧ slot_of t' x n) → let_go sb V (fview t') n kept →
     wp E k Q (set_ffs t' s)) →
  wp E (fs_do (mod_inode j (λ p, set_i_nlink (s16 (i_nlink p - 1)) p));;
        fs_do (iupdate j);;
        fs_do (iput j);;
        k) Q (set_ffs t s).
Proof.
  intros V sb Hg Hh Hnl Hno HR Hroom Hbuf HQ. pose proof (held_live _ _ _ _ _ _ _ Hg Hh) as Hl. fold V sb in Hl.
  destruct (held_sync _ _ _ _ _ _ _ Hg Hh) as (Hd & Hdev & _). rewrite (hd_inum _ _ _ _ _ Hh) in Hd. fold V sb in Hd.
  destruct (wh_fields _ _ _ (tr_whole _ _ (fg_tree _ _ _ _ Hg) n Hl)) as (Hf & Hrest). fold V sb in Hf, Hrest. rewrite <- Hd in Hf, Hrest.
  set (d' := mk_dinode (i_type q) (i_major q) (i_minor q) 0 (i_size q) (i_addrs q)).
  assert (dinode_ok d') as Hok.
  { split; [|done]. rewrite !Forall_cons in *. cbn in *. split_and!; try lia. constructor. }
  assert (∀ V', agree sb V V' → changed sb V V' n → inode_at V' sb n = d' → tree sb V' ∧ contents V' d' = contents V (inode_at V sb n)) as Hre.
  { intros V' Hag Hch Hnew. eapply (tree_orphan t H L (j :: R)); fold V sb; try done; by rewrite <- Hd. }
  apply wp_bind, wp_fs_do_set. eapply wp_mod_inode; [apply Hh|]. rewrite Hnl. change (s16 (1 - 1)) with 0.
  change (set_i_nlink 0 q) with (set_i_disk d' q). apply wp_bind, wp_fs_do_set.
  eapply (wp_iupdate_node E j q d' n H L (j :: R)); try done; [intros V' ???; by apply Hre|eapply room_le; [done|lia]|lia|].
  intros t1 L1 [Hg1 HL1 Hs1 Hch1] Hh1 Hic1 Hnew1 Hag1. pose proof (fst_sb _ _ _ _ Hs1) as Hsb1. fold V sb in Hs1, Hch1, Hnew1, Hag1, Hsb1.
  destruct (Hre _ Hag1 Hch1 Hnew1) as [_ Hco1]. apply wp_bind, wp_fs_do_set. pose proof (fg_inv _ _ _ _ Hg1) as Hinv1.
  pose proof (ic_ref _ _ (fi_icache _ _ _ _ Hinv1) j _ (hd_slot _ _ _ _ _ Hh1)) as Hr1. rewrite refs_cons, decide_True in Hr1 by done.
  destruct (decide (j ∈ R)) as [Hj|Hj].
  - assert (i_ref (set_i_disk d' q) ≠ 1) as Hr.
    { rewrite Hr1. apply list_elem_of_In, (count_occ_In Nat.eq_dec) in Hj. unfold refs. lia. }
    eapply (wp_iput_good E j (set_i_disk d' q) H L1 R); [done|apply Hh1|done|tauto|]. intros t2 Hg2 Hs2 Hic2. pose proof (fst_view _ _ _ _ Hs2) as HV2.
    assert (inode_at (fview t2) sb n = d') as Hn2 by (rewrite <- Hnew1; unfold inode_at; by rewrite HV2).
    eapply (HQ t2 L1 true); [done|lia| | | |].
    + eapply fs_step_trans; [exact Hs1|]. eapply fs_step_ext; [exact Hs2|]. intros b. symmetry. apply HV2.
    + constructor.
      * intros m Hm Hne. rewrite <- (ch_inode _ _ _ _ Hch1) by done. unfold inode_at. by rewrite HV2.
      * intros m a Hm Hne Ha. rewrite HV2, (used_ext _ (fview t1)) by done. by apply (ch_keep _ _ _ _ Hch1 m).
    + split; [|done]. intros _. exists j. split; [done|]. exists (set_i_ref (i_ref (set_i_disk d' q) - 1) (set_i_disk d' q)).
      rewrite Hic2, list_lookup_insert_eq by (eapply lookup_lt_Some, Hh1). split_and!; [done|done|apply Hh].
    + unfold let_go. rewrite Hn2. split_and!; [split; [apply Hl|]|done|].
      * rewrite Hn2. change (i_type q ≠ 0). apply (f_equal di_type) in Hd. change (i_type q = di_type (inode_at V sb n)) in Hd. rewrite Hd. apply Hl.
      * rewrite <- Hco1. by apply contents_ext.
  - eapply (wp_iput_last E j (set_i_disk d' q) n H L1 R); [done|done|done|done| |lia|].
    { eapply room_step; [exact Hs1|]. unfold room in *. lia. }
    intros t2 L2 [Hg2 HL2 Hs2 Hch2] [Hty2 Hfr2] Hslots. rewrite Hsb1 in *.
    eapply (HQ t2 L2 false); [done|lia|by eapply fs_step_trans| | |].
    + eapply changed_trans; [apply Hg|exact Hch1|done].
    + split; [done|]. intros (x & Hx & Hsl). by destruct (Hslots x Hx).
    + split; [done|]. intros b Hb. apply Hfr2. unfold owned in *. rewrite Hnew1. change (di_addrs d') with (di_addrs (i_disk q)). rewrite Hd.
      pose proof (agree_kept _ _ _ _ (fview t1) n Hg Hl Hag1) as Hkept. unfold owned in Hkept. fold V sb in Hkept. by rewrite (kept_ftab _ _ _ _ Hkept).
Qed.

(** No directory names the inode once its entry is gone. *)
Lemma parent_unnamed (t t1 : fss D X) H L L1 R R1 d off k name n :
  let V := fview t in let sb := fsb t in let V1 := fview t1 in
  fs_good t H L R → parent_done t t1 H L L1 R1 d off k name → removable V sb n d name off → linked V sb d →
  di_type (inode_at V sb d) = T_DIR →
  ∀ m nm o, linked V1 sb m → m ≠ n → di_type (inode_at V1 sb m) = T_DIR →
    dir_lookup nm (contents V1 (inode_at V1 sb m)) ≠ Some (n, o).
Proof.
  intros V sb V1 Hg Hpd Hrm Hlk HT m nm o Hm Hne HTm Hl. destruct (decide (m = d)) as [->|Hmd].
  - pose proof (pd_names _ _ _ _ _ _ _ _ _ _ Hpd nm) as Hn. fold V sb V1 in Hn. rewrite Hn in Hl. case_decide as Hc; [done|].
    by destruct (rm_sole _ _ _ _ _ _ Hrm d nm o Hlk Hne HT Hl).
  - pose proof (pd_changed _ _ _ _ _ _ _ _ _ _ Hpd) as Hch. fold V sb V1 in Hch. apply (changed_linked _ _ _ _ Hch) in Hm; [|done].
    destruct (changed_contents _ _ _ _ (fg_tree _ _ _ _ Hg) Hch m (linked_live _ _ _ Hm) Hmd) as [Hi Hc].
    fold V sb in Hi, Hc. rewrite Hi in HTm, Hl. rewrite Hc in Hl.
    by destruct (rm_sole _ _ _ _ _ _ Hrm m nm o Hm Hne HTm Hl).
Qed.

(** Both halves together. *)
Lemma removed_done (t t1 t2 : fss D X) H L L1 R R1 d off name n kept :
  let V := fview t in let sb := fsb t in
  fs_good t H L R → parent_done t t1 H L L1 R1 d off (if di_type (inode_at V sb n) =? T_DIR then 1 else 0) name →
  changed sb (fview t1) (fview t2) n → let_go sb (fview t1) (fview t2) n kept → removable V sb n d name off →
  linked V sb n → linked V sb d → linked V sb ROOTINO → di_type (inode_at V sb d) = T_DIR → removed V sb n (fview t2) d off kept.
Proof.
  intros V sb Hg Hpd Hch2 Hgo Hrm Hln Hld Hroot HT. pose proof (fg_tree _ _ _ _ Hg) as Htr. fold V sb in Htr.
  pose proof Hpd as [Hg1 _ Hs1 Hch1 Hty1 Hnl1 Hco1 Hnm1]. pose proof (fst_sb _ _ _ _ Hs1) as Hsb1. fold V sb in Hch1, Hty1, Hnl1, Hco1, Hnm1, Hsb1.
  pose proof (fg_tree _ _ _ _ Hg1) as Htr1. rewrite Hsb1 in Htr1. destruct (rm_other _ _ _ _ _ _ Hrm) as [Hnd Hnr].
  destruct (changed_contents _ _ _ _ Htr1 Hch2 d) as [Hi2 Hc2]; [split; [apply Hld|by rewrite Hty1]|done|].
  destruct (changed_contents _ _ _ _ Htr Hch1 n (linked_live _ _ _ Hln) Hnd) as [Hn1 Hcn1].
  assert (others sb V (fview t2) n d) as Hoth.
  { eapply others_trans; [eapply (others_changed _ _ _ _ _ d); [done|exact Hch1|by right]|].
    eapply (others_changed _ _ _ _ _ n); [done|exact Hch2|by left]. }
  constructor; [|by rewrite Hi2, Hc2| |by rewrite Hi2|done|].
  2: { unfold linked. rewrite Hi2, Hty1, Hnl1. split_and!; try done; [apply Hld..|]. destruct Hld as (_ & _ & Hl1).
       destruct (Z.eqb_spec (di_type (inode_at V sb n)) T_DIR) as [HTn|]; [|lia]. destruct (rm_dir _ _ _ _ _ _ Hrm HTn). lia. }
  - intros es. apply resolve_pruned; [apply Htr| |done|done]. intros m Hm Hne. destruct (decide (m = d)) as [->|Hmd].
    + rewrite Hi2, Hty1. split; [done|]. intros _ nm. rewrite Hc2, Hnm1. case_decide as Hc.
      * pose proof (rm_entry _ _ _ _ _ _ Hrm) as He. unfold dir_lookup in *. rewrite (dir_find_cname nm name), He by done.
        cbn. by rewrite Z.eqb_refl.
      * destruct (dir_lookup nm _) as [[x o]|] eqn:Hl; [|done]. cbn. destruct (Z.eqb_spec x n) as [->|]; [|done].
        by destruct (rm_sole _ _ _ _ _ _ Hrm d nm o Hm Hne HT Hl).
    + destruct (Hoth m (proj1 Hm) Hne Hmd) as [Hi Hc]. rewrite Hi, Hc by (by apply linked_live). split; [done|]. intros HTm nm.
      destruct (dir_lookup nm _) as [[x o]|] eqn:Hl; [|done]. cbn. destruct (Z.eqb_spec x n) as [->|]; [|done].
      by destruct (rm_sole _ _ _ _ _ _ Hrm m nm o Hm Hne HTm Hl).
  - unfold let_go, reclaimed in *. rewrite (changed_owned _ _ _ _ Hch1) in Hgo by (done || by apply linked_live).
    destruct kept; [|done]. by rewrite Hn1, Hcn1 in Hgo.
Qed.

(** A disk with the same tree has it, too. *)
Lemma removed_unchanged (t t2 : fss D X) H L L2 R R2 d off name n kept V3 :
  let V := fview t in let sb := fsb t in
  fs_good t H L R → fs_good t2 H L2 R2 → fsb t2 = sb → removable V sb n d name off → live sb V n → linked V sb ROOTINO →
  removed V sb n (fview t2) d off kept → unchanged sb (fview t2) V3 → agree sb (fview t2) V3 → removed V sb n V3 d off kept.
Proof.
  intros V sb Hg Hg2 Hsb2 Hrm Hl Hroot [Hp He [Hd HT] Hnl Ho Hgo] Hu Hag. pose proof (tr_dirs _ _ (fg_tree _ _ _ _ Hg2)) as Ht2. rewrite Hsb2 in Ht2.
  assert (linked (fview t2) sb ROOTINO) as Hroot2.
  { destruct (decide (ROOTINO = d)) as [->|Hne]; [done|]. destruct (rm_other _ _ _ _ _ _ Hrm) as [_ Hnr].
    destruct (Ho ROOTINO) as [Hi _]; [apply Hroot|done|done|]. unfold linked. rewrite Hi. done. }
  destruct (Hu d (proj1 Hd)) as [Hid Hcd]. constructor.
  - intros es. by rewrite (unchanged_resolve _ _ _ Hu) by done.
  - rewrite Hid, Hcd by (by apply linked_live). done.
  - unfold linked. by rewrite Hid.
  - by rewrite Hid.
  - eapply others_trans; [exact Ho|by apply unchanged_others].
  - destruct (Hu n (proj1 Hl)) as [Hin Hcn]. unfold let_go, reclaimed in *. destruct kept.
    + destruct Hgo as (Hln & ? & ?). rewrite Hin. split_and!; [|done|by rewrite Hcn]. unfold live in *. by rewrite Hin.
    + destruct Hgo as [? Hfr]. rewrite Hin. split; [done|]. intros b Hb.
      destruct (wf_data _ _ _ (wh_own _ _ _ (tr_whole _ _ (fg_tree _ _ _ _ Hg) n Hl)) b Hb). destruct (geometry t H L R) as (? & ? & ? & _); [by apply fg_inv|].
      rewrite (agree_used sb (fview t2)); [by apply Hfr|done|unfold sb; lia..].
Qed.
Lemma removable_cname V sb n d a b off : cname DIRSIZ a = cname DIRSIZ b → removable V sb n d a off → removable V sb n d b off.
Proof.
  intros Hab [He Ho Hl Hon Hs Hd]. constructor; try done.
  - unfold dir_lookup in *. by rewrite (dir_find_cname b a).
  - by eapply named_once_cname.
  - intros m nm o. rewrite <- Hab. apply Hs.
Qed.

(** The same for the tree before. *)
Section ext.
Context (V W : disk) (sb : superblock) (n : Z).
Hypothesis HV : ∀ b, V b = W b.

Lemma inode_at_ext m : inode_at V sb m = inode_at W sb m.
Proof. unfold inode_at. by rewrite HV. Qed.
Lemma resolve_without_ext es m : resolve_without V sb n es m = resolve_without W sb n es m.
Proof.
  revert m. induction es as [|e es IH]; intros m; cbn [resolve_without]; [done|].
  rewrite inode_at_ext, (contents_ext V W) by done. destruct (_ =? T_DIR); [|done].
  destruct (dir_lookup _ _) as [[x o]|]; [|done]. cbn. destruct (x =? n); [done|]. apply IH.
Qed.
Lemma removable_ext d name off : removable V sb n d name off → removable W sb n d name off.
Proof.
  intros [He Ho Hl Hon Hs Hd]. constructor; rewrite <- ?inode_at_ext, <- ?(contents_ext V W) by done; try done.
  intros m nm o. unfold linked. rewrite <- inode_at_ext, <- (contents_ext V W) by done. apply Hs.
Qed.
Lemma removed_ext V' d off kept : removed V sb n V' d off kept → removed W sb n V' d off kept.
Proof.
  intros [Hp He Hd Hl Ho Hg]. constructor; rewrite <- ?inode_at_ext, <- ?(contents_ext V W) by done; try done.
  - intros es. by rewrite <- resolve_without_ext.
  - eapply others_trans; [|exact Ho]. by apply others_ext.
  - unfold let_go, reclaimed, owned in *. destruct kept; rewrite <- inode_at_ext; [by rewrite <- (contents_ext V W)|].
    by rewrite <- (ftab_ext V W).
Qed.
End ext.

(** The inode [n] is a directory with entries besides the first two. *)
Definition full_dir (V : disk) (sb : superblock) (n : Z) : Prop :=
  di_type (inode_at V sb n) = T_DIR ∧ dir_empty (contents V (inode_at V sb n)) = false.

Lemma wp_unlink_bad E i p n R (Q : Z → fls D X → Prop) t0 t s :
  fs_good t [] [] (i :: R) → fs_step t0 t [] (fview t0) → icache t !! i = Some p → i_inum p = n →
  linked (fview t0) (fsb t0) n → (length R < NINODE)%nat →
  (∀ t', fs_good t' [] [] R → unchanged (fsb t0) (fview t0) (fview t') → fsb t' = fsb t0 → Q (-1) (set_ffs t' s)) →
  wp E (fs_do (iput i);; f_end_op;; mret (-1)) Q (set_ffs t s).
Proof.
  intros Hg Hs Hp Hn Hlk HR HQ. apply wp_bind, wp_fs_do_set.
  eapply (wp_iput_linked _ _ E i p [] [] R); [apply Hg|done|done| |].
  { eapply (linked_kept _ _ t [] [] R i p n); [apply Hg|done|done|]. rewrite (fst_sb _ _ _ _ Hs). eapply linked_ext; [apply Hs|done]. }
  intros t' Hrd' Hs' _. eapply (wp_end_unchanged E (-1) R Q t0); [by eapply good_reading| |done].
  eapply fs_step_trans; [exact Hs|]. eapply fs_step_ext; [exact Hs'|]. apply Hs.
Qed.

(** The end of [unlink] after everything was removed. *)
Lemma wp_unlink_commit E d off name n kept L R (Q : Z → fls D X → Prop) t0 t s :
  let V := fview t0 in let sb := fsb t0 in
  fs_good t0 [] [] R → sb_current (fio t0) (lg (flog t0)) → fs_good t [] L R → fs_step t0 t [] (fview t) → (length L ≤ 6)%nat →
  removable V sb n d name off → live sb V n → linked V sb ROOTINO → removed V sb n (fview t) d off kept →
  (kept = true ↔ ∃ x, x ∈ R ∧ slot_of t x n) →
  (∀ t', fs_good t' [] [] R → transacted t0 t' → removed V sb n (fview t') d off kept →
     (kept = true ↔ ∃ x, x ∈ R ∧ slot_of t' x n) → Q 0 (set_ffs t' s)) →
  wp E (f_end_op;; mret 0) Q (set_ffs t s).
Proof.
  intros V sb Hg0 Hcur Hg Hs HL Hrm Hl Hroot Hrv Hkept HQ. pose proof (fst_sb _ _ _ _ Hs) as Hsb.
  apply wp_bind, wp_fs_do_set. eapply wp_end_op; [by apply fg_inv|cbn; unfold NBUF; lia|].
  intros t' Hinv' Hc. destruct (home_tree t [] L R (fview t') Hg (cm_view _ _ _ Hc)) as (Hu & _ & Hag). rewrite Hsb in Hu, Hag.
  apply wp_ret, HQ; [by eapply committed_good| | |].
  - eapply transaction; [by apply fg_inv|done|by apply fg_inv|exact Hs|exact Hc].
  - by eapply (removed_unchanged t0 t [] [] L R R).
  - rewrite Hkept. unfold slot_of. by rewrite (cm_icache _ _ _ Hc).
Qed.

(** [unlink] from the point where the inode was read. *)
Lemma wp_unlink_tail E i p d j q n nm off R (Q : Z → fls D X → Prop) t0 t s :
  let V := fview t0 in let sb := fsb t0 in
  fs_good t0 [] [] R → sb_current (fio t0) (lg (flog t0)) → fs_good t [] [] (j :: i :: R) → fs_step t0 t [] V →
  slot_of t i d → (d ≠ n → held t (j :: i :: R) i p d) → held t (j :: i :: R) j q n →
  linked V sb d → linked V sb n → linked V sb ROOTINO → di_type (inode_at V sb d) = T_DIR → (S (S (length R)) < NINODE)%nat →
  6 < log_size (lg (flog t0)) → (full_dir V sb n ∨ removable V sb n d nm off) →
  (full_dir V sb n → ∀ t', fs_good t' [] [] R → unchanged sb V (fview t') → fsb t' = sb → Q (-1) (set_ffs t' s)) →
  (¬ full_dir V sb n → ∀ t' kept, fs_good t' [] [] R → transacted t0 t' → removed V sb n (fview t') d off kept →
     (kept = true ↔ ∃ x, x ∈ R ∧ slot_of t' x n) → Q 0 (set_ffs t' s)) →
  wp E (p ← fs_do (get_inode j);
        if i_nlink p <? 1 then panic "unlink: nlink < 1" else
        empty ← (if i_type p =? T_DIR then isdirempty devtab j else mret 1);
        if empty =? 0 then fs_do (iput j);; fs_do (iput i);; f_end_op;; mret (-1) else
        w ← fs_do (writei devtab i (replicate 16 0) off 16);
        if negb (w =? 16) then panic "unlink: writei" else
        (if i_type p =? T_DIR then
           fs_do (mod_inode i (λ p, set_i_nlink (s16 (i_nlink p - 1)) p));;
           fs_do (iupdate i)
         else mret tt);;
        fs_do (iput i);;
        fs_do (mod_inode j (λ p, set_i_nlink (s16 (i_nlink p - 1)) p));;
        fs_do (iupdate j);;
        fs_do (iput j);;
        f_end_op;;
        mret 0) Q (set_ffs t s).
Proof.
  intros V sb Hg0 Hcur Hg Hs Hsl Hi Hj Hld Hln Hroot HT HR Hlog Hcase HQ1 HQ2.
  pose proof (fst_view _ _ _ _ Hs) as HV. pose proof (fst_sb _ _ _ _ Hs) as Hsb. fold sb in Hsb.
  assert (∀ m, inode_at (fview t) sb m = inode_at V sb m) as Hin by (intros m; unfold inode_at; by rewrite HV).
  destruct (held_sync _ _ _ _ _ _ _ Hg Hj) as (Hq & Hqdev & _). rewrite (hd_inum _ _ _ _ _ Hj), Hsb, Hin in Hq.
  assert (i_nlink q = di_nlink (inode_at V sb n) ∧ i_type q = di_type (inode_at V sb n)) as [Hqn Hqt] by (by rewrite <- Hq).
  apply wp_bind, wp_fs_do_set. eapply wp_getopt; [apply Hj|]. rewrite Hqn, Hqt.
  rewrite (proj2 (Z.ltb_ge _ _)) by apply Hln. apply wp_bind.
  set (isdir := di_type (inode_at V sb n) =? T_DIR).
  assert (∀ e t', (e =? 0) = isdir && negb (dir_empty (contents V (inode_at V sb n))) → fs_good t' [] [] (j :: i :: R) →
    fs_step t t' [] (fview t) → icache t' = icache t → wp E (if e =? 0 then fs_do (iput j);; fs_do (iput i);; f_end_op;; mret (-1) else
        w ← fs_do (writei devtab i (replicate 16 0) off 16);
        if negb (w =? 16) then panic "unlink: writei" else
        (if isdir then
           fs_do (mod_inode i (λ p, set_i_nlink (s16 (i_nlink p - 1)) p));;
           fs_do (iupdate i)
         else mret tt);;
        fs_do (iput i);;
        fs_do (mod_inode j (λ p, set_i_nlink (s16 (i_nlink p - 1)) p));;
        fs_do (iupdate j);;
        fs_do (iput j);;
        f_end_op;;
        mret 0) Q (set_ffs t' s)) as Hrest.
  2: { destruct isdir eqn:Hd; [|apply wp_ret; apply (Hrest 1 t); [done|done|apply fs_step_refl|done]].
       apply Z.eqb_eq in Hd. assert (linked (fview t) (fsb t) n) as Hln1 by (rewrite Hsb; by eapply linked_ext).
       destruct (linked_dir _ _ t [] [] (j :: i :: R) q n (tr_dirs _ _ (fg_tree _ _ _ _ Hg)) (fg_reading _ _ _ _ Hg)) as [Hdir _];
         [done|done|by rewrite Hsb, Hin|congruence|].
       eapply (wp_isdirempty E j q [] []); [by apply fg_inv|apply Hj|done|cbn; unfold NBUF; lia|].
       intros t' Hinv' Hs' Hic. apply Hrest; [|eapply good_reading; [exact Hg|]; eapply reading_step; [apply Hg|done|done|rewrite Hic; by eapply fg_sync]|done|done].
       rewrite (contents_ext (fview t) V) by done. rewrite Hq. by destruct (dir_empty _). }
  intros e t' He Hg' Hs' Hic. rewrite He. assert (fs_step t0 t' [] V) as Hs0' by (eapply fs_step_trans; [exact Hs|]; eapply fs_step_ext; [exact Hs'|done]).
  assert (∀ b, fview t' b = V b) as HV' by apply Hs0'. assert (fsb t' = sb) as Hsb' by apply Hs0'.
  assert (held t' (j :: i :: R) j q n) as Hj' by (destruct Hj; constructor; try done; by rewrite Hic).
  destruct (isdir && negb (dir_empty (contents V (inode_at V sb n)))) eqn:Hfull.
  - apply andb_true_iff in Hfull as [Hd%Z.eqb_eq Hne%negb_true_iff]. assert (full_dir V sb n) as Hfd by done.
    apply wp_bind, wp_fs_do_set. eapply (wp_iput_linked _ _ E j q [] [] (i :: R)); [apply Hg'|apply Hj'|cbn; lia| |].
    { eapply (linked_kept _ _ t' [] [] (i :: R) j q n); [apply Hg'|apply Hj'|apply Hj'|]. rewrite Hsb'. by eapply linked_ext. }
    intros t2 Hrd2 Hs2 Hsl2. destruct (Hsl2 i d) as (p2 & Hp2 & _ & Hpn2); [by left|unfold slot_of in *; by rewrite Hic|].
    eapply (wp_unlink_bad E i p2 d R Q t0); [by eapply good_reading| |done|done|done|lia|by apply HQ1].
    eapply fs_step_trans; [exact Hs0'|]. eapply fs_step_ext; [exact Hs2|]. done.
  - assert (¬ full_dir V sb n) as Hnf.
    { intros [Hd Hne]. unfold isdir in Hfull. by rewrite Hd, Hne in Hfull. }
    destruct Hcase as [?|Hrm]; [done|]. destruct (rm_other _ _ _ _ _ _ Hrm) as [Hnd _]. specialize (Hi (not_eq_sym Hnd)).
    assert (held t' (j :: i :: R) i p d) as Hi' by (destruct Hi; constructor; try done; by rewrite Hic).
    destruct (held_sync _ _ _ _ _ _ _ Hg' Hi') as (Hp & _). rewrite (hd_inum _ _ _ _ _ Hi'), Hsb' in Hp.
    assert (∀ m, inode_at (fview t') sb m = inode_at V sb m) as Hin' by (intros m; unfold inode_at; by rewrite HV').
    pose proof (removable_ext V (fview t') sb n (λ b, eq_sym (HV' b)) d nm off Hrm) as Hrm'.
    pose proof (linked_ext sb V (fview t') n HV' Hln) as Hln'. pose proof (linked_ext sb V (fview t') d HV' Hld) as Hld'.
    pose proof (linked_ext sb V (fview t') ROOTINO HV' Hroot) as Hroot'.
    eapply (wp_unlink_parent E isdir i p d j q n nm off [] [] R); try done; rewrite ?Hsb'; try done.
    + rewrite Hin' in Hp. by apply (f_equal di_type) in Hp; rewrite HT in Hp.
    + rewrite Hp. apply Hrm'.
    + rewrite Hp. apply Hrm'.
    + intros Hd%Z.eqb_eq. apply (rm_dir _ _ _ _ _ _ Hrm) in Hd as [_ H2]. by rewrite <- Hin', <- Hp in H2.
    + lia.
    + eapply room_step; [exact Hs0'|]. unfold room. cbn. lia.
    + cbn. unfold NBUF. lia.
    + intros t1 L1 Hpd Hj1. pose proof Hpd as [Hg1 HL1 Hs1 Hch1 _ _ _ _]. pose proof (fst_sb _ _ _ _ Hs1) as Hsb1. rewrite Hsb' in Hsb1.
      eapply (wp_unlink_inode E j q n [] L1 R); rewrite ?Hsb1; try done.
      * rewrite Hqn. apply Hrm.
      * rewrite <- Hsb'. eapply (parent_unnamed t' t1 [] [] L1 (j :: i :: R)); rewrite ?Hsb'; try done. by rewrite Hin'.
      * lia.
      * eapply room_step; [exact Hs1|]. eapply room_step; [exact Hs0'|]. unfold room. cbn in *. lia.
      * cbn in *. unfold NBUF. lia.
      * intros t2 L2 kept Hg2 HL2 Hs2 Hch2 Hkept Hgo.
        eapply (wp_unlink_commit E d off nm n kept L2 R Q t0); try done; [|cbn in *; lia|by apply linked_live| |intros t3 ????; by apply (HQ2 Hnf t3 kept)].
        -- eapply fs_step_trans; [exact Hs0'|]. eapply fs_step_trans; [exact Hs1|done].
        -- apply (removed_ext (fview t')); [done|]. fold sb. rewrite <- Hsb'.
           eapply (removed_done t' t1 t2 [] [] L1 (j :: i :: R) (j :: R)); rewrite ?Hsb', ?Hin'; try done.
Qed.

(** The two names [unlink] refuses. *)
Definition dots_name (e : list Z) : Prop := e = [46] ∨ e = [46; 46].

Lemma wp_dots_name {A} E nm (k : Z → Z → M (fls D X) A) (Q : A → fls D X → Prop) s :
  bytes nm → readable DIRSIZ nm →
  (∀ c1 c2, (c1 =? 0) || (c2 =? 0) = true → dots_name (cname DIRSIZ nm) → wp E (k c1 c2) Q s) →
  (∀ c1 c2, (c1 =? 0) || (c2 =? 0) = false → ¬ dots_name (cname DIRSIZ nm) → wp E (k c1 c2) Q s) →
  wp E (c1 ← fs_do (ofopt (namecmp nm DOT));
        c2 ← fs_do (if c1 =? 0 then mret 0 else ofopt (namecmp nm DOTDOT));
        k c1 c2) Q s.
Proof.
  intros Hb Hr H1 H2. assert (set_ffs (ffs s) s = s) as Hid by (by destruct s).
  apply wp_bind, wp_fs_do. apply wp_namecmp; [done|by apply (bool_decide_unpack _)|done|right; by apply (bool_decide_unpack _)|].
  intros c1 Hc1. rewrite Hid. apply wp_bind, wp_fs_do. change (cname DIRSIZ DOT) with [46] in Hc1. rewrite Hc1. case_bool_decide as Hd1.
  { apply wp_ret. rewrite Hid. apply H1; [by rewrite Hc1|by left]. }
  apply wp_namecmp; [done|by apply (bool_decide_unpack _)|done|right; by apply (bool_decide_unpack _)|].
  intros c2 Hc2. rewrite Hid. change (cname DIRSIZ DOTDOT) with [46; 46] in Hc2. case_bool_decide as Hd2.
  - apply H1; [by rewrite Hc1, Hc2|by right].
  - apply H2; [by rewrite Hc1, Hc2|by intros [?|?]].
Qed.

(** When [unlink] has nothing to do. *)
Definition no_unlink (V : disk) (sb : superblock) (es : list (list Z)) : Prop :=
  resolve V sb true es ROOTINO = None ∨ dots_name (last_elem es) ∨ resolve V sb false es ROOTINO = None ∨
  ∃ n, resolve V sb false es ROOTINO = Some n ∧ full_dir V sb n.

Lemma wp_unlink E l tl name R (Q : Z → fls D X → Prop) s :
  let t0 := ffs s in let V := fview t0 in let sb := fsb t0 in let es := components l in
  let e := last_elem es in
  fs_good t0 [] [] R → sb_current (fio t0) (lg (flog t0)) → linked V sb ROOTINO → (S (S (S (length R))) < NINODE)%nat →
  0 ∉ l → bytes (l ++ 0 :: tl) → bytes name → length name = DIRSIZ → 6 < log_size (lg (flog t0)) →
  (∀ d n off, resolve V sb true es ROOTINO = Some d → ¬ dots_name e → dir_lookup e (contents V (inode_at V sb d)) = Some (n, off) →
     full_dir V sb n ∨ removable V sb n d e off) →
  (no_unlink V sb es → ∀ t, fs_good t [] [] R → unchanged sb V (fview t) → fsb t = sb → Q (-1) (set_ffs t s)) →
  (∀ d n off, resolve V sb true es ROOTINO = Some d → dir_lookup e (contents V (inode_at V sb d)) = Some (n, off) →
     ¬ no_unlink V sb es → ∀ t kept, fs_good t [] [] R → transacted t0 t → removed V sb n (fview t) d off kept →
     (kept = true ↔ ∃ x, x ∈ R ∧ slot_of t x n) → Q 0 (set_ffs t s)) →
  wp E (unlink devtab (l ++ 0 :: tl) name) Q s.
Proof.
  intros t0 V sb es e Hg Hcur Hroot HR H0 Hbl Hbn Hln Hlog Hcase HQ1 HQ2. pose proof (tr_dirs _ _ (fg_tree _ _ _ _ Hg)) as Htree.
  unfold unlink. apply wp_bind, wp_begin_op. apply wp_bind, wp_fs_do. unfold nameiparent.
  eapply (wp_namex devtab V sb); try done; [apply Hg|cbn; unfold NBUF; lia|lia| |].
  2: { intros Hno name' t Hrd Hs. cbn [fst]. eapply (wp_end_unchanged E (-1) R Q t0); [by eapply good_reading|exact Hs|].
       apply HQ1. by left. }
  intros d Hd i nm t1 Hrd1 Hs1 (q & Hq & Hqd & Hqn) Hld Hlast. destruct (Hlast eq_refl) as (Hnml & Hnmb & Hnmc). fold es in Hnmc, Hd. fold (last_elem es) in Hnmc. fold e in Hnmc.
  cbn [fst snd]. destruct (resolve_last _ _ _ _ _ Hd) as [HT Hlast']. fold (last_elem es) in Hlast'. fold e in Hlast'.
  assert (fs_good t1 [] [] (i :: R)) as Hg1 by (by eapply good_reading). pose proof (rd_sb _ _ _ _ _ _ Hrd1) as Hsb1.
  pose proof (rd_view _ _ _ _ _ _ Hrd1) as HV1. apply wp_bind, wp_fs_do_set.
  eapply (wp_iread_good E i q d); [done|done|set_solver|done|done| |cbn; unfold NBUF; lia|].
  { rewrite Hsb1. unfold live, inode_at. rewrite HV1. by apply linked_live. }
  intros p t2 Hg2 Hs2 Hic2 Hh2 Hp2.
  assert (fs_step t0 t2 [] V) as Hs02 by (eapply fs_step_trans; [exact Hs1|]; eapply fs_step_ext; [exact Hs2|done]).
  pose proof (fst_view _ _ _ _ Hs02) as HV2. pose proof (fst_sb _ _ _ _ Hs02) as Hsb2. fold sb in Hsb2.
  assert (i_disk p = inode_at V sb d) as Hpd by (rewrite Hp2, Hsb1; unfold inode_at; by rewrite HV1).
  apply wp_dots_name; [done|left; lia|rewrite Hnmc; intros c1 c2 -> Hdn|rewrite Hnmc; intros c1 c2 -> Hnd].
  { eapply (wp_unlink_bad E i p d R Q t0); [done|done|apply Hh2|apply Hh2|done|lia|]. apply HQ1. right. by left. }
  destruct (held_sync _ _ _ _ _ _ _ Hg2 Hh2) as (_ & Hpdev & _ & _). assert (i_type p = T_DIR) as HTp by (rewrite <- HT, <- Hpd; done).
  assert (∀ m, linked V sb m → linked (fview t2) (fsb t2) m) as Hlk2 by (intros m; rewrite Hsb2; by apply linked_ext).
  assert (dir_lookup nm (contents (fview t2) (i_disk p)) = dir_lookup e (contents V (inode_at V sb d))) as Hlook.
  { rewrite Hpd, (contents_ext (fview t2) V) by done. apply dir_find_cname. by rewrite <- Hnmc, cname_idem. }
  pose proof (fg_inv _ _ _ _ Hg2) as Hinv2.
  destruct (linked_dir _ _ t2 [] [] (i :: R) p d (tr_dirs _ _ (fg_tree _ _ _ _ Hg2)) (fg_reading _ _ _ _ Hg2)) as [Hdir _];
    [by apply Hlk2|done|by rewrite Hpd, Hsb2; unfold inode_at; rewrite HV2|done|].
  apply wp_bind, wp_fs_do_set. eapply (wp_dirlookup devtab E i p nm [] [] (i :: R)); try done;
    [apply Hh2|left; lia|cbn; unfold NBUF; lia|cbn; lia| |]; rewrite Hlook.
  - intros Hnone t3 Hinv3 Hs3 Hi3. rewrite Hnone in Hlast'.
    eapply (wp_unlink_bad E i p d R Q t0); [|eapply fs_step_trans; [exact Hs02|]; eapply fs_step_ext; [exact Hs3|done]|rewrite Hi3; apply Hh2|apply Hh2|done|lia|].
    { eapply good_reading; [exact Hg2|]. eapply reading_step; [apply Hg2|done|done|]. rewrite Hi3. by eapply fg_sync. }
    apply HQ1. right. right. by left.
  - intros n off Hsome j t3 Hinv3 Hs3 Hres. rewrite Hsome in Hlast'. cbn in Hlast'.
    assert (linked V sb n) as Hlkn by (by eapply (resolve_linked _ _ false es ROOTINO)).
    assert (fs_step t0 t3 [] V) as Hs03 by (eapply fs_step_trans; [exact Hs02|]; eapply fs_step_ext; [exact Hs3|done]).
    assert (fs_good t3 [] [] (j :: i :: R)) as Hg3.
    { eapply good_reading; [exact Hg2|]. eapply reading_step; [apply Hg2|done|done|]. eapply icsync_iget; [by eapply fg_sync|exact Hres]. }
    assert (slot_of t3 i d) as Hsl3.
    { eapply (slot_iget_kept t2); [exact Hinv2|by left|exact Hres|]. exists p. split_and!; [apply Hh2|done|apply Hh2]. }
    destruct (slot_iget t2 t3 j n Hres) as (q3 & Hq3 & Hqd3 & Hqn3). pose proof (fst_view _ _ _ _ Hs03) as HV3. pose proof (fst_sb _ _ _ _ Hs03) as Hsb3. fold sb in Hsb3.
    apply wp_bind, wp_fs_do_set. eapply (wp_iread_good E j q3 n); [done|done|by left|done|done| |cbn; unfold NBUF; lia|].
    { rewrite Hsb3. unfold live, inode_at. rewrite HV3. by apply linked_live. }
    intros q4 t4 Hg4 Hs4 Hic4 Hh4 Hq4.
    assert (d ≠ n → i ≠ j ∧ icache t3 !! i = Some p) as Hij.
    { intros Hdn. assert (i ≠ j) as Hne.
      { intros ->. destruct Hsl3 as (x & Hx & _ & Hxn). simplify_eq. }
      split; [done|]. rewrite <- (hd_slot _ _ _ _ _ Hh2). destruct Hres as [(? & _ & _ & ->)|(_ & ? & _ & _ & ->)]; by rewrite list_lookup_insert_ne. }
    assert (slot_of t4 i d) as Hsl4.
    { destruct Hsl3 as (x & Hx & Hxd & Hxn). destruct (decide (i = j)) as [->|Hne].
      - exists q4. destruct (held_sync _ _ _ _ _ _ _ Hg4 Hh4) as (_ & ? & _). split_and!; [apply Hh4|done|]. rewrite (hd_inum _ _ _ _ _ Hh4). congruence.
      - exists x. by rewrite Hic4, list_lookup_insert_ne. }
    eapply (wp_unlink_tail E i p d j q4 n e off R Q t0); try done.
    + eapply fs_step_trans; [exact Hs03|]. eapply fs_step_ext; [exact Hs4|done].
    + intros Hdn. destruct (Hij Hdn) as [Hne Hpi]. constructor; [by rewrite Hic4, list_lookup_insert_ne|set_solver|apply Hh2..].
    + lia.
    + by eapply Hcase.
    + intros Hfd. apply HQ1. right. right. right. eauto.
    + intros Hnfd t' kept. eapply (HQ2 d n off Hd Hsome).
      intros [?|[?|[?|(n' & Hn' & ?)]]]; [fold t0 V sb es in Hd; congruence|done|fold t0 V sb es in Hlast'; congruence|].
      fold t0 V sb es in Hlast'. by simplify_eq.
Qed.
End unlink.
