(* ===== verification/Mkfs.v ===== *)
(** * mkfs.c: building the initial file system image

    The state is the image file, by sector, and the two allocation cursors.
    The host's [lseek], [read] and [write] on the image are taken to succeed
    (a failure ends the program); a failed [assert] is a panic. An input file
    is its name, as a C string, and its contents. *)

From S2P Require Import Prelude CString Ide Layout Fs.

Definition NINODES : Z := 200.
Definition nbitmap : Z := FSSIZE / (BSIZE * 8) + 1.
Definition ninodeblocks : Z := NINODES / IPB + 1.
Definition nlog : Z := LOGSIZE.
Definition nmeta : Z := 2 + nlog + ninodeblocks + nbitmap.
Definition nblocks : Z := FSSIZE - nmeta.

Definition mksb : superblock :=
  mk_superblock FSSIZE nblocks NINODES nlog 2 (2 + nlog) (2 + nlog + ninodeblocks).

Record mst := mk_mst {
  img : gmap Z (list Z);
  freeinode : Z;
  freeblock : Z;
}.
Definition set_img v (s : mst) : mst := mk_mst v (freeinode s) (freeblock s).
Definition set_freeinode v (s : mst) : mst := mk_mst (img s) v (freeblock s).
Definition set_freeblock v (s : mst) : mst := mk_mst (img s) (freeinode s) v.

(** [xshort] and [xint] store their argument in little-endian order. *)
Definition xshort (x : Z) : list Z := [u8 x; u8 (Z.shiftr x 8)].
Definition xint (x : Z) : list Z := [u8 x; u8 (Z.shiftr x 8); u8 (Z.shiftr x 16); u8 (Z.shiftr x 24)].

Definition wsect (sec : Z) (buf : list Z) : M mst unit := modify (λ s, set_img (<[sec:=buf]> (img s)) s).
Definition rsect (sec : Z) : M mst (list Z) := getopt (λ s, img s !! sec).

Definition winode (inum : Z) (ip : dinode) : M mst unit :=
  let bn := IBLOCK inum mksb in
  buf ← rsect bn;
  wsect bn (enc_dinode (dip_off inum) ip buf).
Definition rinode (inum : Z) : M mst dinode :=
  let bn := IBLOCK inum mksb in
  buf ← rsect bn;
  mret (dec_dinode (dip_off inum) buf).

Definition ialloc (type : Z) : M mst Z :=
  inum ← gets freeinode;
  modify (set_freeinode (u32 (inum + 1)));;
  winode inum (mk_dinode (s16 type) 0 0 1 0 (replicate 13 0));;
  mret inum.

Fixpoint balloc_bits (k : nat) (i : Z) (buf : list Z) : list Z :=
  match k with
  | O => buf
  | S k =>
      balloc_bits k (i + 1)
        (<[Z.to_nat (i / 8) := u8 (Z.lor (default 0 (buf !! Z.to_nat (i / 8))) (Z.shiftl 1 (i mod 8)))]> buf)
  end.
Definition balloc (used : Z) : M mst unit :=
  if negb (used <? BSIZE * 8) then panic "assert" else
  wsect (sb_bmapstart mksb) (balloc_bits (Z.to_nat used) 0 (replicate (Z.to_nat BSIZE) 0)).

(** [freeblock++] *)
Definition take_block : M mst Z :=
  b ← gets freeblock; modify (set_freeblock (u32 (b + 1)));; mret b.

(** The sector of file block [fbn], allocating it where needed: the new
    address list and the sector. *)
Definition iappend_block (addrs : list Z) (fbn : Z) : M mst (list Z * Z) :=
  if fbn <? NDIRECT then
    a ← getopt (λ _, addrs !! Z.to_nat fbn);
    if a =? 0 then b ← take_block; mret (<[Z.to_nat fbn := b]> addrs, b) else mret (addrs, a)
  else
    a ← getopt (λ _, addrs !! Z.to_nat NDIRECT);
    ind ← (if a =? 0 then take_block else mret a);
    let addrs := <[Z.to_nat NDIRECT := ind]> addrs in
    indirect ← rsect ind;
    let o := (4 * Z.to_nat (fbn - NDIRECT))%nat in
    let x := get_u32 o indirect in
    if x =? 0 then
      b ← take_block;
      wsect ind (put_u32 o b indirect);;
      mret (addrs, b)
    else mret (addrs, x).

Fixpoint iappend_loop (fuel : nat) (addrs p : list Z) (off n : Z) : M mst (list Z * Z) :=
  match fuel with
  | O => hang
  | S fuel =>
      if n >? 0 then
        let fbn := off / BSIZE in
        if negb (fbn <? MAXFILE) then panic "assert" else
        r ← iappend_block addrs fbn;
        let '(addrs, x) := (r : list Z * Z) in
        let n1 := Z.min n ((fbn + 1) * BSIZE - off) in
        buf ← rsect x;
        wsect x (splice (Z.to_nat (off - fbn * BSIZE)) (take (Z.to_nat n1) p) buf);;
        iappend_loop fuel addrs (drop (Z.to_nat n1) p) (off + n1) (n - n1)
      else mret (addrs, off)
  end.
Definition iappend (inum : Z) (p : list Z) (n : Z) : M mst unit :=
  din ← rinode inum;
  r ← iappend_loop (S (Z.to_nat n)) (di_addrs din) p (di_size din) n;
  winode inum (mk_dinode (di_type din) (di_major din) (di_minor din) (di_nlink din) r.2 r.1).

(** A directory entry: [bzero], [xshort] of the number, and the name. *)
Definition new_dirent (inum : Z) (name : list Z) : list Z := splice 0 (xshort inum) (splice 2 name (replicate 16 0)).

(** [while((cc = read(fd, buf, sizeof(buf))) > 0) iappend(inum, buf, cc);] *)
Fixpoint append_file (fuel : nat) (inum : Z) (contents : list Z) : M mst unit :=
  match fuel with
  | O => hang
  | S fuel =>
      let buf := take (Z.to_nat BSIZE) contents in
      match buf with
      | [] => mret tt
      | _ => iappend inum buf (Z.of_nat (length buf));; append_file fuel inum (drop (Z.to_nat BSIZE) contents)
      end
  end.

Fixpoint add_files (rootino : Z) (files : list (list Z * list Z)) : M mst unit :=
  match files with
  | [] => mret tt
  | (name, contents) :: files =>
      (if bool_decide (SLASH ∈ cname (length name) name) then panic "assert" else mret tt);;
      let name := if bool_decide (head name = Some 95) then tail name else name in
      inum ← ialloc T_FILE;
      nm ← getopt (λ _, strncpy name DIRSIZ);
      iappend rootino (new_dirent inum nm) 16;;
      append_file (S (length contents)) inum contents;;
      add_files rootino files
  end.

Fixpoint zero_sectors (k : nat) (i : Z) : M mst unit :=
  match k with
  | O => mret tt
  | S k => wsect i (replicate (Z.to_nat BSIZE) 0);; zero_sectors k (i + 1)
  end.

Definition sb_block : list Z :=
  splice 0 (xint (sb_size mksb) ++ xint (sb_nblocks mksb) ++ xint (sb_ninodes mksb) ++ xint (sb_nlog mksb) ++
            xint (sb_logstart mksb) ++ xint (sb_inodestart mksb) ++ xint (sb_bmapstart mksb))
    (replicate (Z.to_nat BSIZE) 0).

Definition mkfs_main (files : list (list Z * list Z)) : M mst unit :=
  modify (set_freeblock nmeta);;
  zero_sectors (Z.to_nat FSSIZE) 0;;
  wsect 1 sb_block;;
  rootino ← ialloc T_DIR;
  (if negb (rootino =? ROOTINO) then panic "assert" else mret tt);;
  iappend rootino (new_dirent rootino [46; 0]) 16;;
  iappend rootino (new_dirent rootino [46; 46; 0]) 16;;
  add_files rootino files;;
  din ← rinode rootino;
  let off := (di_size din / BSIZE + 1) * BSIZE in
  winode rootino (mk_dinode (di_type din) (di_major din) (di_minor din) (di_nlink din) off (di_addrs din));;
  fb ← gets freeblock;
  balloc fb.

(** The image [mkfs] writes for a list of files. *)
Definition mkfs (files : list (list Z * list Z)) : option (gmap Z (list Z)) :=
  match mkfs_main files (mk_mst ∅ 1 0) with
  | Ok (_, s) => Some (img s)
  | _ => None
  end.
