(* ===== verification/Boot.v ===== *)
(** * A machine to run the kernel on

    A disk image built by the model of mkfs.c, loaded into the drive of
    Drive.v, and the kernel state at power-on; the boot sequence of main.c
    for the storage stack, and a session of file operations. *)

From S2P Require Import Prelude Spinlock CString Ide Drive Bio BioFacts Layout Log Fs File Mkfs.

Definition zero_inode : inode := mk_inode 0 0 0 0 0 0 0 0 0 (replicate 13 0).
Definition zero_file : file := mk_file FD_NONE 0 0 0 None 0.
Definition zero_log : log := mk_log 0 0 0 0 0 (replicate 30 0).
Definition zero_sb : superblock := mk_superblock 0 0 0 0 0 0 0.

(** Drive 1 holding an image. *)
Definition load_image (m : gmap Z (list Z)) : drive :=
  mk_drive ∅ Idle (list_to_map ((λ bx, ((1, bx.1), bx.2)) <$> map_to_list m)).

(** The kernel's data segment at power-on, interrupts enabled. *)
Definition power_on (d : drive) : fls drive unit :=
  mk_fls
    (mk_fss (mk_lst (mk_ide (mk_cpu 0 0 FL_IF) (replicate (S NBUF) zero_buf) None 0 d []) zero_log)
       zero_sb (replicate NINODE zero_inode) tt)
    (replicate NFILE zero_file).

(** The calls of main.c that bring up the disk and the file system. *)
Definition boot : M (fls drive unit) unit :=
  fs_do (dio ideinit_drives);;
  fs_do (dio binit);;
  fileinit;;
  fs_do (iinit_sb ROOTDEV);;
  fs_do (lo (initlog ROOTDEV)).

(** Uninitialised stack bytes. *)
Definition junk : list Z := replicate 14 9.

(** mknod /con; mkdir /a; create /a/b, write [data], close; open it again
    under another spelling, read it back, unlink it while open, close. *)
Definition session (data : list Z) : M (fls drive unit) (list Z * list Z) :=
  boot;;
  r1 ← mknod [] [99; 111; 110; 0] 1 1 junk;
  r2 ← mkdir [] [97; 0] junk;
  f ← open [] [47; 97; 47; 98; 0] (Z.lor O_CREATE O_RDWR) junk;
  match f with
  | None => mret ([], [])
  | Some f =>
      w ← filewrite [] f data (Z.of_nat (length data));
      fileclose f;;
      g ← open [] [97; 47; 47; 98; 0] O_RDONLY junk;
      match g with
      | None => mret ([], [])
      | Some g =>
          x ← fileread [] g 4096;
          u ← unlink [] [97; 47; 98; 0] junk;
          o ← open [] [97; 47; 98; 0] O_RDONLY junk;
          fileclose g;;
          v ← unlink [] [47; 97; 0] junk;
          mret ([r1; r2; w; x.1; u; match o with None => -1 | Some _ => 0 end; v], x.2)
      end
  end.
