(* ===== verification/Demo.v ===== *)
(** * Concrete states

    A small disk and the kernel states it leads to, with proofs that they
    satisfy the invariants: the inputs at which the theorems are applied. *)

From S2P Require Import Prelude Spinlock CString Ide Drive Bio BioFacts Layout Log LogDisk LogFacts LogSpecs Fs FsFacts FsInodes File Mkfs Boot.

(** The state a run ends in. *)
Definition final {S A} (m : M S A) (s : S) : S := match m s with Ok (_, s') => s' | _ => s end.

Lemma final_wp {S A} (m : M S A) (P : S → Prop) s :
  wp no_panic m (λ _, P) s → P (final m s).
Proof. intros (a & s' & Hm & HP)%wp_ok. unfold final. by rewrite Hm. Qed.

(** The image [mkfs] makes with one file, "init", of three bytes. *)
Definition demo_image : gmap (Z * Z) (list Z) :=
  dr_media (load_image (default ∅ (mkfs [([105; 110; 105; 116; 0], [7; 8; 9])]))).
#[global] Opaque demo_image.

(** The buffer cache right after [binit], over the sectors [m]. *)
Definition ide_of (m : gmap (Z * Z) (list Z)) : ide drive :=
  mk_ide (mk_cpu 0 0 FL_IF) (replicate (S NBUF) zero_buf) None 1 (mk_drive ∅ Idle m) [].
Definition cache_of (m : gmap (Z * Z) (list Z)) : ide drive := final binit (ide_of m).
Lemma cache_of_ok m :
  bio_inv (cache_of m) [] [] ∧ (∀ bn, view (cache_of m) bn = media (mk_drive ∅ Idle m) ROOTDEV bn) ∧
  hw (cache_of m) = mk_drive ∅ Idle m.
Proof.
  unfold cache_of. apply final_wp, wp_binit; try done.
Qed.
#[global] Opaque cache_of.

Definition demo_disk : drive := mk_drive ∅ Idle demo_image.
Definition demo_ide : ide drive := ide_of demo_image.
Definition cache0 : ide drive := cache_of demo_image.
Lemma cache0_ok : bio_inv cache0 [] [] ∧ (∀ bn, view cache0 bn = media demo_disk ROOTDEV bn) ∧ hw cache0 = demo_disk.
Proof. apply cache_of_ok. Qed.

(** The same disk after a power failure between the commit and the install of
    a transaction that set block 100 to sevens. *)
Definition crashed_image : gmap (Z * Z) (list Z) :=
  <[(1, 2) := put_u32 4 100 (put_u32 0 1 (replicate 512 0))]> (<[(1, 3) := replicate 512 7]> demo_image).
Definition crashed_disk : drive := mk_drive ∅ Idle crashed_image.
Definition cache2 : ide drive := cache_of crashed_image.
Lemma cache2_ok :
  bio_inv cache2 [] [] ∧ (∀ bn, view cache2 bn = media crashed_disk ROOTDEV bn) ∧ hw cache2 = crashed_disk.
Proof. apply cache_of_ok. Qed.


(** Any block can be read into it. *)
Lemma cache0_read bn : 0 ≤ bn < FSSIZE → ∃ i s, bio_inv s [i] [] ∧ holds s i bn ∧ same_io cache0 s [].
Proof.
  intros Hbn. destruct cache0_ok as (Hbio & _).
  destruct (wp_ok (bread ROOTDEV bn) (λ i s, bio_inv s [i] [] ∧ holds s i bn ∧ same_io cache0 s []) cache0)
    as (i & s & _ & ?); [|eauto].
  eapply (wp_bread _ bn [] []); [exact Hbio|exact Hbn|cbn; lia|right; left; unfold NBUF; cbn; lia|]. eauto.
Qed.

Definition demo_log : log := mk_log 2 30 0 ROOTDEV 0 (replicate 30 0).
Definition log0 : lst drive := mk_lst cache0 demo_log.
Lemma demo_geom : log_geom demo_log.
Proof. constructor; vm_compute; done. Qed.
Lemma log_of_inv m :
  hdr_n (media (mk_drive ∅ Idle m) ROOTDEV 2) = 0 → log_inv (mk_lst (cache_of m) demo_log) [] [].
Proof.
  intros Hz. destruct (cache_of_ok m) as (Hbio & _ & Hhw).
  constructor; [exact Hbio|apply demo_geom|split; reflexivity| |].
  - split_and!; [apply NoDup_nil_2|done|cbn; lia|cbn; lia].
  - unfold platter. cbn [lio lg]. rewrite Hhw. exact Hz.
Qed.
Lemma log0_inv : log_inv log0 [] [].
Proof. apply log_of_inv. vm_compute. done. Qed.

Definition log2 : lst drive := mk_lst cache2 demo_log.
Lemma log2_disk : disk_ok 2 30 (platter (lio log2)).
Proof.
  unfold disk_ok, platter. cbn [lio log2]. destruct cache2_ok as (_ & _ & ->). split; [vm_compute; done|].
  assert (hdr_blocks (media crashed_disk ROOTDEV 2) = [100]) as -> by (vm_compute; done).
  split_and!; [apply NoDup_singleton|constructor; [split; [done|by right]|done]|cbn; lia|cbn; lia].
Qed.
Lemma log2_sb : dec_superblock (view (lio log2) 1) = mk_superblock 1000 941 200 30 2 32 58.
Proof. cbn [lio log2]. destruct cache2_ok as (_ & -> & _). vm_compute. done. Qed.

(** One block changed inside a transaction. *)
Definition change (bn v : Z) : M (lst drive) unit :=
  begin_op;;
  b ← io (bread ROOTDEV bn);
  io (mod_data b (λ _, replicate 512 v));;
  log_write b;;
  io (brelse b).
Lemma wp_change s bn v L (Q : unit → lst drive → Prop) :
  log_inv s [] L → 1 < bn < 1000 → home (log_start (lg s)) (log_size (lg s)) bn →
  Z.of_nat (length L) < log_size (lg s) - 1 → log_size (lg s) = 30 →
  (∀ s', log_inv s' [] (logged L bn) → log_start (lg s') = log_start (lg s) →
     log_size (lg s') = log_size (lg s) →
     (∀ k, platter (lio s') k = platter (lio s) k) →
     (∀ k, view (lio s') k = wr (view (lio s)) bn (replicate 512 v) k) → Q tt s') →
  wp no_panic (change bn v) Q s.
Proof.
  intros Hlog Hbn Hhome Hroom Hsz HQ. unfold change.
  apply wp_bind, wp_ret. apply wp_bind, wp_io.
  eapply wp_bread; [apply Hlog|unfold FSSIZE; lia|cbn; lia|right; left; unfold NBUF; cbn; lia|].
  intros i c1 Hb1 Hh1 Hio1. apply wp_bind, wp_io. eapply wp_mod_data; [done..|].
  apply wp_bind. eapply (wp_log_write _ i bn (replicate 512 v) [i] L _ _ c1); try done.
  - destruct Hlog. constructor; [assumption..|]. unfold platter in *. cbn [lio set_lio]. by rewrite (si_media _ _ _ Hio1).
  - set_solver.
  - lia.
  - by left.
  - intros s2 H2 Hwb Hp2 _ Hst2 Hsz2. apply wp_io. eapply wp_brelse; [apply H2|cbn; lia|].
    intros c3 Hb3 Hio3 _. apply HQ; [|done|done| |].
    + destruct H2. constructor; [assumption..|].
      unfold platter in *. cbn [lio set_lio lg]. by rewrite (si_media _ _ _ Hio3).
    + intros k. unfold platter in *. cbn [lio set_lio]. by rewrite (si_media _ _ _ Hio3), Hp2, (si_media _ _ _ Hio1).
    + intros k. cbn [lio set_lio]. rewrite (si_view _ _ _ Hio3), (wb_view _ _ _ _ _ Hwb). unfold wr.
      case_decide; [done|]. by rewrite (si_view _ _ _ Hio1).
Qed.
Definition log1 : lst drive := final (change 100 7) log0.
Lemma log1_inv : log_inv log1 [] [100].
Proof.
  unfold log1. apply final_wp. eapply wp_change; [apply log0_inv|done|by right|done|done|].
  intros s' Hs' _ _ _ _. exact Hs'.
Qed.
Lemma log1_disk : log_start (lg log1) = 2 ∧ log_size (lg log1) = 30 ∧
  (∀ b, platter (lio log1) b = media demo_disk ROOTDEV b) ∧
  ∀ b, view (lio log1) b = wr (media demo_disk ROOTDEV) 100 (replicate 512 7) b.
Proof.
  unfold log1. apply final_wp. eapply wp_change; [apply log0_inv|done|by right|done|done|].
  destruct cache0_ok as (_ & Hv & Hhw). intros s' _ Hst Hsz Hp HV. split_and!; [done|done| |].
  - intros b. rewrite Hp. unfold platter. cbn [lio log0]. rewrite Hhw. reflexivity.
  - intros b. rewrite HV. apply wr_ext. exact Hv.
Qed.

(** A transaction that fills the log. *)
Fixpoint changes (n : nat) (bn : Z) : M (lst drive) unit :=
  match n with O => mret () | S n' => change bn 7;; changes n' (bn + 1) end.
Lemma wp_changes n s bn L (Q : unit → lst drive → Prop) :
  log_inv s [] L → log_start (lg s) = 2 → log_size (lg s) = 30 → 32 ≤ bn → bn + Z.of_nat n ≤ 1000 →
  Z.of_nat (length L + n) ≤ 29 → (∀ k, k ∈ L → k < bn) →
  (∀ s' L', log_inv s' [] L' → length L' = (length L + n)%nat → log_size (lg s') = 30 → Q tt s') →
  wp no_panic (changes n bn) Q s.
Proof.
  revert s bn L. induction n as [|n IH]; intros s bn L Hs Hst Hsz Hlo Hhi Hn Hnew HQ; cbn [changes].
  { apply wp_ret. eapply HQ; [done| |done]. lia. }
  apply wp_bind. eapply wp_change; [done|unfold FSSIZE; lia|right; lia|lia|done|]. intros s1 H1 Hst1 Hsz1 _ _.
  assert (logged L bn = L ++ [bn]) as HL.
  { unfold logged. case_decide as Hd; [|done]. apply Hnew in Hd. lia. }
  rewrite HL in H1. eapply IH; [exact H1|congruence|congruence|lia|lia| | |].
  - rewrite length_app. cbn. lia.
  - intros k [Hk%Hnew| ->%list_elem_of_singleton]%elem_of_app; lia.
  - intros s2 L2 H2 Hl2 Hz2. eapply HQ; [done| |done]. rewrite Hl2, length_app. cbn. lia.
Qed.
Definition log_full : lst drive := final (changes 29 100) log0.
Lemma log_full_inv : ∃ L, log_inv log_full [] L ∧ length L = 29%nat ∧ log_size (lg log_full) = 30.
Proof.
  unfold log_full. apply final_wp. eapply wp_changes; [apply log0_inv|done..|set_solver|].
  intros s' L' ?? ?. eauto.
Qed.

(** Every buffer of the cache in use. *)
Fixpoint grab (n : nat) (bn : Z) : M (ide drive) unit :=
  match n with O => mret () | S n' => _ ← bread ROOTDEV bn; grab n' (bn + 1) end.
Lemma wp_grab n s bn H (Q : unit → ide drive → Prop) :
  bio_inv s H [] → 0 ≤ bn → bn + Z.of_nat n ≤ 1000 → (length H + n ≤ NBUF)%nat →
  (∀ s' H', bio_inv s' H' [] → Q tt s') → wp no_panic (grab n bn) Q s.
Proof.
  revert s bn H. induction n as [|n IH]; intros s bn H Hs Hlo Hhi Hn HQ; cbn [grab].
  { apply wp_ret. by eapply HQ. }
  unfold NBUF in *. apply wp_bind. eapply wp_bread; [done|unfold FSSIZE; lia|lia|right; left; cbn; unfold NBUF; lia|].
  intros i s1 H1 _ _. eapply IH; [exact H1|lia|lia|cbn; lia|done].
Qed.
Definition cache_full : ide drive := final (grab 30 100) cache0.
Lemma cache_full_inv : ∃ H, bio_inv cache_full H [].
Proof.
  unfold cache_full. apply final_wp. eapply wp_grab; [apply cache0_ok|done..|cbn; unfold NBUF; lia|].
  intros s' H' ?. eauto.
Qed.
Lemma cache_full_busy : Forall (λ b, b_refcnt b ≠ 0 ∧ b_blockno b ≠ 7) (take NBUF (bufs cache_full)).
Proof. apply (bool_decide_unpack _). vm_compute. exact I. Qed.

#[global] Opaque log1 log_full cache_full.

(** The file system on such a disk. *)
Definition fs_of (m : gmap (Z * Z) (list Z)) : fss drive unit :=
  mk_fss (mk_lst (cache_of m) demo_log) mksb (replicate NINODE zero_inode) tt.
Lemma fs_of_inv m : hdr_n (media (mk_drive ∅ Idle m) ROOTDEV 2) = 0 → fs_inv (fs_of m) [] [] [].
Proof.
  intros Hz. constructor; [by apply log_of_inv|constructor; vm_compute; done|]. cbn [icache fs_of]. constructor.
  - done.
  - intros i p [-> _]%lookup_replicate. done.
  - intros i p [-> _]%lookup_replicate. done.
  - set_solver.
  - intros i j p q [-> _]%lookup_replicate _. done.
Qed.
Lemma fs_of_view m bn : fview (fs_of m) bn = media (mk_drive ∅ Idle m) ROOTDEV bn.
Proof. apply cache_of_ok. Qed.

Definition fs0 : fss drive unit := fs_of demo_image.
Lemma fs0_inv : fs_inv fs0 [] [] [].
Proof. apply fs_of_inv. vm_compute. done. Qed.
Lemma fs0_view bn : fview fs0 bn = media demo_disk ROOTDEV bn.
Proof. apply cache0_ok. Qed.
Lemma fs0_meta : meta_used fs0.
Proof.
  intros b Hb. unfold used. rewrite fs0_view. change (sb_bmapstart (fsb fs0)) with 58 in Hb.
  assert (Forall (λ b, bit_at (media demo_disk ROOTDEV (BBLOCK b mksb)) (b mod BPB) = true) (seqZ 0 59)) as HF.
  { apply (bool_decide_unpack _). vm_compute. exact I. }
  rewrite Forall_forall in HF. apply HF, elem_of_seqZ. lia.
Qed.

(** The same with the root directory referenced in slot 0, as a call of
    [iget] leaves it. *)
Definition root_inode : inode := mk_inode ROOTDEV ROOTINO 1 0 0 0 0 0 0 (replicate 13 0).
Definition fs1 : fss drive unit := set_icache (<[0%nat:=root_inode]> (icache fs0)) fs0.
Lemma fs1_inv : fs_inv fs1 [] [] [0%nat].
Proof.
  destruct fs0_inv as [Hl Hg Hi]. constructor; [exact Hl|exact Hg|]. cbn [icache fs1 set_icache].
  apply (icache_ok_iget (icache fs0) [] 0 ROOTDEV ROOTINO); [exact Hi|]. right. split.
  - intros j q [-> _]%lookup_replicate (H0 & _). cbn in H0. lia.
  - exists zero_inode. done.
Qed.
Lemma fs1_root : di_type (disk_inode fs1 ROOTINO) = 1.
Proof.
  unfold disk_inode. change (fview fs1) with (fview fs0). rewrite fs0_view. vm_compute. done.
Qed.

(** A disk with no free block. *)
Definition full_image : gmap (Z * Z) (list Z) := <[(1, 58) := replicate 512 255]> demo_image.
Definition fs_full : fss drive unit := fs_of full_image.
Lemma fs_full_inv : fs_inv fs_full [] [] [].
Proof. apply fs_of_inv. vm_compute. done. Qed.
Lemma fs_full_used b : 0 ≤ b < sb_size (fsb fs_full) → used (fview fs_full) (fsb fs_full) b = true.
Proof.
  intros Hb. unfold used. rewrite (fs_of_view full_image).
  assert (Forall (λ b, bit_at (media (mk_drive ∅ Idle full_image) ROOTDEV (BBLOCK b mksb)) (b mod BPB) = true)
    (seqZ 0 1000)) as HF.
  { apply (bool_decide_unpack _). vm_compute. exact I. }
  rewrite Forall_forall in HF. apply HF, elem_of_seqZ. change (sb_size (fsb fs_full)) with 1000 in Hb. lia.
Qed.
