(* ===== verification/DiskTheorems.v ===== *)
(** * Correctness of the storage stack

    The properties of ide.c, bio.c and log.c, each applied to a concrete
    state right after it. *)

From S2P Require Import Prelude Spinlock CString Ide Drive Bio BioFacts Layout Log LogDisk LogFacts LogSpecs LogCrash Demo.

Section theorems.
Context {D : Type} {dev : IdeDevice D} {dok : IdeDeviceOk D}.

(** C1. Crash atomicity of a transaction. [commit] returns; and if power is
    lost after any prefix of its sector writes, and lost again during
    recovery, any number of times, then [initlog] at the next start returns
    with an empty log and with every block outside the log as before the
    transaction, or every one as the transaction left it. *)
Theorem commit_atomic (s : lst D) H L :
  log_inv s H L → (length H + length L < NBUF)%nat → sb_current (lio s) (lg s) →
  (∃ s' ws, commit s = Ok (tt, s') ∧ wrote (lio s') = wrote (lio s) ++ on_root ws) ∧
  ∀ s1 s2, power_lost commit s s1 → rtc (power_lost (initlog ROOTDEV)) s1 s2 →
    ∃ s3, initlog ROOTDEV s2 = Ok (tt, s3) ∧ log_inv s3 [] [] ∧
      ((∀ b, home (log_start (lg s)) (log_size (lg s)) b → view (lio s3) b = platter (lio s) b) ∨
       (∀ b, home (log_start (lg s)) (log_size (lg s)) b → view (lio s3) b = view (lio s) b)).
Proof.
  intros Hinv Hfree Hsb.
  destruct (wp_run commit (λ s', wrote (lio s') = wrote (lio s) ++ on_root (commit_trace s L)) s) as (s' & Hrun & Hw).
  { eapply wp_commit; [done..|]. intros s' V _ Hs _. apply Hs. }
  split; [by eauto|]. intros s1 s2 (s'' & Hrun' & Hb1 & k & ws & Hw' & Hp) H2.
  rewrite Hrun in Hrun'. injection Hrun' as <-. rewrite Hw in Hw'. apply app_inv_head, on_root_inj in Hw' as <-.
  by eapply commit_recovers.
Qed.

(** Durability. After [commit] the platter holds, on every block outside
    the log, what the file system reads there; nothing the file system reads
    has changed, no block is dirty any more and the log is empty. *)
Theorem commit_durable (s : lst D) H L :
  log_inv s H L → (length H + length L < NBUF)%nat →
  ∃ s', commit s = Ok (tt, s') ∧ log_inv s' H [] ∧ lh_n (lg s') = 0 ∧
    ∀ b, home (log_start (lg s)) (log_size (lg s)) b →
      platter (lio s') b = view (lio s) b ∧ view (lio s') b = view (lio s) b.
Proof.
  intros Hinv Hfree. apply wp_run. eapply wp_commit; [done..|]. intros s' V Hinv' Hs Hlg.
  split_and!; [done|by rewrite Hlg|]. by eapply commit_result.
Qed.

(** C9. Recovery at boot refines its specification. [initlog] leaves on the
    platter exactly the disk [recover] describes, by exactly the writes
    [recovery_writes] lists, and an empty log. *)
Theorem initlog_recovers (s : lst D) :
  bio_inv (lio s) [] [] →
  let l := boot_log (dec_superblock (view (lio s) 1)) (lg s) in
  log_geom l → disk_ok (log_start l) (log_size l) (platter (lio s)) →
  ∃ s', initlog ROOTDEV s = Ok (tt, s') ∧ log_inv s' [] [] ∧
    wrote (lio s') = wrote (lio s) ++ on_root (recovery_writes (log_start l) (platter (lio s))) ∧
    ∀ b, platter (lio s') b = recover (log_start l) (platter (lio s)) b ∧ view (lio s') b = platter (lio s') b.
Proof. apply initlog_run. Qed.

(** C15. Recovery may be interrupted. If power is lost after any number of
    the sector writes of [initlog], any number of times, then [initlog] at the
    next start leaves every block outside the log as the uninterrupted run
    would have left it. *)
Theorem recovery_restartable LS size (s s2 : lst D) :
  bootable LS size s → rtc (power_lost (initlog ROOTDEV)) s s2 →
  ∃ s' s2', initlog ROOTDEV s = Ok (tt, s') ∧ initlog ROOTDEV s2 = Ok (tt, s2') ∧ log_inv s2' [] [] ∧
    ∀ b, home LS size b → view (lio s2') b = view (lio s') b.
Proof.
  intros Hb Hc. destruct (power_lost_again _ _ _ _ Hb Hc) as [Hb2 Hsame].
  destruct (bootable_run _ _ _ Hb) as (s' & Hrun & _ & _ & Hv).
  destruct (bootable_run _ _ _ Hb2) as (s2' & Hrun2 & Hinv2 & _ & Hv2).
  exists s', s2'. split_and!; [done..|]. intros b Hh. by rewrite Hv2, Hv, Hsame.
Qed.

(** [log_write] makes the holder's new data what everyone reads, records
    the block in the log header once however often it is written, and leaves
    the platter untouched. *)
Theorem log_write_absorbs (s : lst D) c i bn x H L :
  log_inv (set_lio c s) H L → lio s = with_data c i x → holds c i bn → i ∈ H → length x = 512%nat →
  home (log_start (lg s)) (log_size (lg s)) bn → 1 < bn → Z.of_nat (length L) < log_size (lg s) - 1 →
  ∃ s', log_write i s = Ok (tt, s') ∧ log_inv s' H (if decide (bn ∈ L) then L else L ++ [bn]) ∧
    (∀ k, view (lio s') k = if decide (k = bn) then x else view c k) ∧
    (∀ k, platter (lio s') k = platter c k) ∧ wrote (lio s') = wrote c.
Proof.
  intros Hinv Hs Hh HiH Hx Hhome H1 Hroom. apply wp_run. eapply wp_log_write; [done..|by left|].
  intros s' Hinv' [Hv _] Hp Hw _ _. done.
Qed.

(** A transaction that would overflow the log is refused: with
    [log.size - 1] blocks logged, [log_write] panics. *)
Theorem log_write_full (s : lst D) i H L :
  log_inv s H L → Z.of_nat (length L) = log_size (lg s) - 1 →
  log_write i s = Panic "too big a transaction".
Proof.
  intros [Hbio Hg [Hn _] _ _] Hfull. apply wp_must_panic. unfold log_write.
  apply wp_bind, wp_io, wp_on_pushcli; [apply Hbio|]. intros c1 Hc1.
  apply wp_bind, wp_gets. cbn [lg set_lio]. rewrite Hn.
  replace (Z.of_nat (length L) >=? log_size (lg s) - 1) with true by (symmetry; apply Z.geb_le; lia).
  rewrite orb_true_r. by apply wp_panic.
Qed.

(** C20. [bread] returns a buffer that holds the block as the file system last
    wrote it, keeps the cache consistent, and changes no block and no other
    handle, as long as a buffer is free or the block is cached. *)
Theorem bread_reads (s : ide D) bn H L :
  bio_inv s H L → 0 ≤ bn < FSSIZE → (length H < 1000)%nat →
  cached s bn ∨ (length H + length L < NBUF)%nat →
  ∃ i s' b, bread ROOTDEV bn s = Ok (i, s') ∧ bio_inv s' (i :: H) L ∧
    bufs s' !! i = Some b ∧ b_data b = view s bn ∧ b_blockno b = bn ∧
    (∀ k, view s' k = view s k) ∧ (∀ j k, j ∈ H → holds s j k → holds s' j k).
Proof.
  intros Hinv Hbn HH Hfree.
  destruct (wp_ok (bread ROOTDEV bn) (λ i s', bio_inv s' (i :: H) L ∧ holds s' i bn ∧ same_io s s' H) s)
    as (i & s' & Hrun & Hinv' & Hh & Hio).
  { eapply wp_bread; [done..|tauto|]. done. }
  pose proof Hh as (_ & b & Hb & _ & Hk). exists i, s', b. split_and!; try done; [|apply Hio|apply Hio].
  rewrite (holds_view _ _ _ _ _ _ Hinv' Hh Hb). apply Hio.
Qed.

(** When every buffer is referenced or dirty and the block is not cached,
    [bread] panics. *)
Theorem bread_no_buffers (s : ide D) bn H L :
  bio_inv s H L → ¬ cached s bn →
  (∀ i b, (i < NBUF)%nat → bufs s !! i = Some b → b_refcnt b ≠ 0 ∨ is_dirty b = true) →
  bread ROOTDEV bn s = Panic "bget: no buffers".
Proof. intros Hinv Hnc Hall. apply wp_must_panic. by eapply wp_bread_full. Qed.

(** [brelse] gives the handle back; when it was the last one the buffer
    moves to the front of the recency list and the order of the others is
    kept, so that the least recently used free buffer is recycled first. *)
Theorem brelse_recency (s : ide D) i H L l1 l2 :
  bio_inv s (i :: H) L → (length H < 1000)%nat → i ∉ H →
  l1 ++ i :: l2 ≡ₚ seq 0 NBUF → mru (bufs s) (l1 ++ i :: l2) →
  ∃ s', brelse i s = Ok (tt, s') ∧ bio_inv s' H L ∧ (∀ k, view s' k = view s k) ∧
    mru (bufs s') (i :: l1 ++ l2).
Proof.
  intros Hinv HH Hni Hp Hm. apply wp_run. eapply wp_brelse; [done..|]. intros s' Hinv' Hio Hmru.
  split_and!; [done|apply Hio|by apply Hmru].
Qed.

(** [bwrite] puts the holder's data on the platter: the sector and the
    view of that block become the data, every other sector is untouched, and
    the block is no longer pinned as dirty. *)
Theorem bwrite_durable (s : ide D) i bn x H L :
  bio_inv s H L → holds s i bn → i ∈ H → length x = 512%nat →
  ∃ s', bwrite i (with_data s i x) = Ok (tt, s') ∧ bio_inv s' H (filter (λ k, k ≠ bn) L) ∧
    (∀ v k, media (hw s') v k = if (v =? ROOTDEV) && (k =? bn) then x else media (hw s) v k) ∧
    (∀ k, view s' k = if decide (k = bn) then x else view s k).
Proof.
  intros Hinv Hh HiH Hx. apply wp_run. eapply wp_bwrite; [done..|]. intros s' Hinv' [Hv _] Hm _.
  split_and!; [done|done|done].
Qed.

(** [binit] from zeroed memory builds a consistent, empty cache: every
    block reads as on the platter, no sector is written, and the recency list
    holds each of the [NBUF] buffers once. *)
Theorem binit_empty_cache (s : ide D) :
  cpu_idle (icpu s) → idequeue s = None → havedisk1 s ≠ 0 → dphase (hw s) = Idle →
  bufs s = replicate (S NBUF) zero_buf →
  ∃ s', binit s = Ok (tt, s') ∧ bio_inv s' [] [] ∧ (∀ bn, view s' bn = media (hw s) ROOTDEV bn) ∧
    wrote s' = wrote s ∧ mru (bufs s') (reverse (seq 0 NBUF)).
Proof. intros. apply wp_run, wp_binit; try done. Qed.

(** C21. One disk request through the interrupt-driven driver: with an empty
    queue and an idle drive, [iderw] returns with the buffer valid and clean;
    a dirty buffer's data is then on the platter, a clean buffer holds its
    sector, and no other sector changes. *)
Theorem iderw_transfers (s : ide D) i b :
  cpu_idle (icpu s) → idequeue s = None → dphase (hw s) = Idle →
  bufs s !! i = Some b → 0 ≤ b_blockno b < FSSIZE → length (b_data b) = 512%nat →
  is_valid b && negb (is_dirty b) = false → havedisk1 s ≠ 0 →
  ∃ s' b', iderw i s = Ok (tt, s') ∧ bufs s' !! i = Some b' ∧ is_valid b' = true ∧ is_dirty b' = false ∧
    idequeue s' = None ∧ dphase (hw s') = Idle ∧ cpu_idle (icpu s') ∧
    b_data b' = (if is_dirty b then b_data b else media (hw s) (Z.land (b_dev b) 1) (b_blockno b)) ∧
    ∀ v k, media (hw s') v k =
      if is_dirty b && (v =? Z.land (b_dev b) 1) && (k =? b_blockno b) then b_data b else media (hw s) v k.
Proof.
  intros Hcpu Hq Hph Hb Hbn Hlen Hsync Hdisk. set (b' := serviced (media (hw s)) (set_b_qnext None b)).
  destruct (wp_run (iderw i) (λ s', ∃ c' d', cpu_idle c' ∧ dphase d' = Idle ∧ media_after s b d' ∧
    s' = iderw_post s i b c' d') s) as (s' & Hrun & c' & d' & Hc & Hp & Hm & ->).
  { eapply wp_iderw; [done..|]. intros c' d' ???. eauto 10. }
  exists (iderw_post s i b c' d'), b'. split_and!; try done.
  - apply list_lookup_insert_eq. by eapply lookup_lt_Some.
  - apply done_flags_valid.
  - apply done_flags_dirty.
  - unfold b', serviced. change (is_dirty (set_b_qnext None b)) with (is_dirty b). by destruct (is_dirty b).
  - intros v k. cbn [hw iderw_post]. rewrite Hm. unfold upd_media. by destruct (is_dirty b).
Qed.
End theorems.

(** ** The theorems at concrete states *)

(** Power is lost after the logged block and the header were written: the
    disk is the one [log2] starts from. *)
Lemma log1_lost : power_lost commit log1 log2.
Proof.
  destruct log1_disk as (Hst & Hsz & Hp & Hv).
  destruct (wp_run commit (λ s', wrote (lio s') = wrote (lio log1) ++ on_root (commit_trace log1 [100])) log1)
    as (s' & Hrun & Hw).
  { eapply (wp_commit _ [] [100]); [exact log1_inv|unfold NBUF; cbn; lia|]. intros s' V _ Hs _. apply Hs. }
  exists s'. split; [done|]. split; [split; [apply cache2_ok|reflexivity]|].
  exists 2%nat, (commit_trace log1 [100]). split; [done|]. intros b.
  unfold platter at 1. cbn [lio log2]. destruct cache2_ok as (_ & _ & ->).
  unfold commit_trace, commit_writes. rewrite Hst.
  change (copy_writes (view (lio log1)) (logs 2 [100])) with [(3, view (lio log1) 100)].
  cbn [app take replay foldl fst snd]. rewrite take_0, !Hv. cbn [foldl].
  destruct (decide (b = 2)) as [->|H2]; [rewrite wr_eq; vm_compute; done|]. rewrite (wr_ne _ 2) by exact H2.
  destruct (decide (b = 3)) as [->|H3]; [rewrite wr_eq; vm_compute; done|]. rewrite (wr_ne _ 3) by exact H3. rewrite Hp.
  cbn [media drive_device_ok]. unfold dr_sector. cbn [dr_media crashed_disk demo_disk]. unfold crashed_image.
  rewrite !lookup_insert_ne by congruence. reflexivity.
Qed.

Lemma log1_sb : sb_current (lio log1) (lg log1).
Proof.
  destruct log1_disk as (Hst & Hsz & Hp & _). unfold sb_current. rewrite Hst, Hsz, !Hp.
  split; vm_compute; reflexivity.
Qed.

Lemma commit_atomic_witness : ∃ s3, initlog ROOTDEV log2 = Ok (tt, s3) ∧ log_inv s3 [] [] ∧
  ((∀ b, home 2 30 b → view (lio s3) b = platter (lio log1) b) ∨
   (∀ b, home 2 30 b → view (lio s3) b = view (lio log1) b)).
Proof.
  destruct log1_disk as (<- & <- & _).
  apply (commit_atomic log1 [] [100] log1_inv) with log2;
    [unfold NBUF; cbn; lia|exact log1_sb|exact log1_lost|apply rtc_refl].
Defined.

Lemma commit_durable_witness : ∃ s', commit log1 = Ok (tt, s') ∧ log_inv s' [] [] ∧ lh_n (lg s') = 0 ∧
    ∀ b, home (log_start (lg log1)) (log_size (lg log1)) b →
      platter (lio s') b = view (lio log1) b ∧ view (lio s') b = view (lio log1) b.
Proof. apply (commit_durable log1 [] [100]); [exact log1_inv|unfold NBUF; cbn; lia]. Defined.

Lemma initlog_recovers_witness :
  let l := boot_log (dec_superblock (view (lio log2) 1)) (lg log2) in
  ∃ s', initlog ROOTDEV log2 = Ok (tt, s') ∧ log_inv s' [] [] ∧
    platter (lio s') 100 = replicate 512 7 ∧
    ∀ b, platter (lio s') b = recover (log_start l) (platter (lio log2)) b ∧ view (lio s') b = platter (lio s') b.
Proof.
  cbn zeta. pose proof (initlog_recovers log2) as Ht. cbn zeta in Ht. rewrite !log2_sb in *.
  destruct Ht as (s' & Hrun & Hinv & _ & Hp); [apply cache2_ok|apply demo_geom|exact log2_disk|].
  exists s'. split_and!; [exact Hrun|exact Hinv| |exact Hp].
  destruct (Hp 100) as [-> _]. unfold platter. cbn [lio log2]. destruct cache2_ok as (_ & _ & ->). vm_compute. done.
Defined.

(** Recovery of [log2] cut off after the block was installed, before the
    header was cleared. *)
Definition log3 : lst drive := mk_lst (cache_of (<[(1, 100) := replicate 512 7]> crashed_image)) demo_log.
Lemma log2_bootable : bootable 2 30 log2.
Proof.
  assert (booted log2) as Hb by (split; [apply cache2_ok|reflexivity]).
  pose proof log2_sb as Hsb. rewrite booted_view in Hsb by exact Hb.
  constructor; rewrite ?Hsb; [exact Hb|apply demo_geom|reflexivity..|exact log2_disk].
Qed.
Lemma log2_lost : power_lost (initlog ROOTDEV) log2 log3.
Proof.
  destruct (bootable_run _ _ _ log2_bootable) as (s' & Hrun & _ & Hw & _).
  exists s'. split; [exact Hrun|]. split; [split; [apply cache_of_ok|reflexivity]|].
  exists 1%nat, (recovery_writes 2 (platter (lio log2))). split; [exact Hw|]. intros b.
  unfold platter. cbn [lio log2 log3]. destruct cache2_ok as (_ & _ & ->).
  destruct (cache_of_ok (<[(1, 100) := replicate 512 7]> crashed_image)) as (_ & _ & ->).
  unfold recovery_writes.
  assert (hdr_blocks (media crashed_disk ROOTDEV 2) = [100]) as -> by (vm_compute; reflexivity).
  change (copy_writes (media crashed_disk ROOTDEV) (installs 2 [100])) with [(100, media crashed_disk ROOTDEV 3)].
  cbn [app take replay foldl fst snd]. rewrite ?take_0. cbn [foldl].
  destruct (decide (b = 100)) as [->|H2]; [rewrite wr_eq; vm_compute; reflexivity|]. rewrite (wr_ne _ 100) by exact H2.
  cbn [media drive_device_ok]. unfold dr_sector. cbn [dr_media crashed_disk].
  rewrite lookup_insert_ne by congruence. reflexivity.
Qed.

Lemma recovery_restartable_witness : ∃ s' s3',
  initlog ROOTDEV log2 = Ok (tt, s') ∧ initlog ROOTDEV log3 = Ok (tt, s3') ∧ log_inv s3' [] [] ∧
    ∀ b, home 2 30 b → view (lio s3') b = view (lio s') b.
Proof. apply (recovery_restartable 2 30 log2 log3 log2_bootable). apply rtc_once, log2_lost. Defined.

(** Block 100 read into a buffer and filled with sevens, not yet logged. *)
Lemma log_write_absorbs_witness : ∃ s i c s',
  holds c i 100 ∧ lio s = with_data c i (replicate 512 7) ∧
  log_write i s = Ok (tt, s') ∧ log_inv s' [i] [100] ∧ view (lio s') 100 = replicate 512 7.
Proof.
  destruct (cache0_read 100) as (i & c & Hc & Hh & Hio); [done|].
  destruct (log_write_absorbs (mk_lst (with_data c i (replicate 512 7)) demo_log) c i 100 (replicate 512 7) [i] [])
    as (s' & Hrun & Hinv & Hv & _); [|reflexivity|exact Hh|set_solver|reflexivity|right; vm_compute; discriminate|lia|vm_compute; reflexivity|].
  - destruct log0_inv as [? Hg Hl Hok Hz]. constructor; [exact Hc|exact Hg|exact Hl|exact Hok|].
    unfold platter in *. cbn [lio set_lio lg log0] in *. rewrite (si_media _ _ _ Hio). exact Hz.
  - exists (mk_lst (with_data c i (replicate 512 7)) demo_log), i, c, s'.
    split_and!; [exact Hh|done|exact Hrun|exact Hinv|by rewrite Hv].
Defined.

Lemma log_write_full_witness : log_write 0 log_full = Panic "too big a transaction".
Proof.
  destruct log_full_inv as (L & Hinv & Hl & Hsz).
  apply (log_write_full log_full 0 [] L); [exact Hinv|]. rewrite Hl, Hsz. done.
Defined.

Lemma bread_reads_witness : ∃ i s' b, bread ROOTDEV 1 cache0 = Ok (i, s') ∧ bio_inv s' [i] [] ∧
    bufs s' !! i = Some b ∧ b_data b = view cache0 1 ∧ b_blockno b = 1 ∧
    (∀ k, view s' k = view cache0 k) ∧ (∀ j k, j ∈ [] → holds cache0 j k → holds s' j k).
Proof. apply (bread_reads cache0 1 [] []); [apply cache0_ok|done|cbn; lia|right; unfold NBUF; cbn; lia]. Defined.

Lemma bread_no_buffers_witness : bread ROOTDEV 7 cache_full = Panic "bget: no buffers".
Proof.
  destruct cache_full_inv as [H Hinv]. pose proof cache_full_busy as Hb. rewrite Forall_lookup in Hb.
  apply (bread_no_buffers cache_full 7 H []); [exact Hinv| |].
  - intros (i & b & Hi & Hl & _ & Hk). apply (Hb i b); [|exact Hk]. by rewrite lookup_take_lt.
  - intros i b Hi Hl. left. apply (Hb i b). by rewrite lookup_take_lt.
Defined.

Lemma brelse_recency_witness : ∃ i s l1 l2 s', bio_inv s [i] [] ∧ mru (bufs s) (l1 ++ i :: l2) ∧
  brelse i s = Ok (tt, s') ∧ bio_inv s' [] [] ∧ mru (bufs s') (i :: l1 ++ l2).
Proof.
  destruct (cache0_read 1) as (i & s & Hs & Hh & Hio); [done|].
  destruct (bi_order _ _ _ Hs) as (l & Hl & Hm).
  destruct (list_elem_of_split l i) as (l1 & l2 & ->).
  { rewrite Hl. apply elem_of_seq. destruct Hh. lia. }
  destruct (brelse_recency s i [] [] l1 l2) as (s' & Hrun & Hs' & _ & Hm');
    [exact Hs|cbn; lia|set_solver|exact Hl|exact Hm|].
  exists i, s, l1, l2, s'. split_and!; assumption.
Defined.

Lemma bwrite_durable_witness : ∃ s i s', bwrite i (with_data s i (replicate 512 7)) = Ok (tt, s') ∧
  media (hw s') ROOTDEV 5 = replicate 512 7 ∧ view s' 5 = replicate 512 7.
Proof.
  destruct (cache0_read 5) as (i & s & Hs & Hh & Hio); [done|].
  destruct (bwrite_durable s i 5 (replicate 512 7) [i] []) as (s' & Hrun & _ & Hm & Hv);
    [exact Hs|exact Hh|set_solver|done|].
  exists s, i, s'. split_and!; [exact Hrun|by rewrite Hm|by rewrite Hv].
Defined.

Lemma binit_empty_cache_witness : ∃ s', binit demo_ide = Ok (tt, s') ∧ bio_inv s' [] [] ∧
  (∀ bn, view s' bn = media (hw demo_ide) ROOTDEV bn) ∧ wrote s' = wrote demo_ide ∧
  mru (bufs s') (reverse (seq 0 NBUF)).
Proof. apply (binit_empty_cache demo_ide); done. Defined.

Lemma iderw_transfers_witness : ∃ s' b', iderw 3 demo_ide = Ok (tt, s') ∧ bufs s' !! 3%nat = Some b' ∧
  is_valid b' = true.
Proof.
  destruct (iderw_transfers demo_ide 3 zero_buf) as (s' & b' & Hrun & Hb & Hv & _); [done..|].
  exists s', b'. split_and!; assumption.
Defined.
