(* ===== verification/FsTheorems.v ===== *)
(** * Correctness of the file system's allocators, inodes and paths

    The properties of fs.c and mkfs.c, stated on runs of the code, and the
    concrete states they are applied to. *)

From S2P Require Import Prelude Spinlock CString Ide Drive Bio BioFacts Layout Mkfs Log LogDisk LogFacts LogSpecs Fs FsFacts FsInodes FsPaths File Boot Demo.

Section theorems.
Context {D X : Type} {dev : IdeDevice D} {dok : IdeDeviceOk D}.
Implicit Types s : fss D X.

(** C19. [balloc] returns the lowest free block, marks it and no other block
    in use, zeroes it, changes no other block than it and the bitmap, and
    writes nothing to the platter before the commit. *)
Theorem balloc_fresh s H L R b0 :
  fs_inv s H L R → meta_used s → room s L 2 → (S (length H) + length L < NBUF)%nat →
  0 ≤ b0 < sb_size (fsb s) → used (fview s) (fsb s) b0 = false →
  ∃ b s', balloc ROOTDEV s = Ok (b, s') ∧ fs_inv s' H (balloc_log s L b) R ∧
    0 ≤ b ≤ b0 ∧ used (fview s) (fsb s) b = false ∧ fview s' b = zeros ∧
    (∀ b', 0 ≤ b' < b → used (fview s) (fsb s) b' = true) ∧
    (∀ b', 0 ≤ b' < sb_size (fsb s) →
       used (fview s') (fsb s') b' = if decide (b' = b) then true else used (fview s) (fsb s) b') ∧
    (∀ k, k ≠ b → k ≠ sb_bmapstart (fsb s) → fview s' k = fview s k) ∧
    (∀ k, platter (fio s') k = platter (fio s) k).
Proof.
  intros Hinv Hm Hroom Hfree Hb0 Hu0. apply wp_ok. eapply wp_balloc; [done..| |].
  - intros b s' Hb Hu Hlow Hinv' Hs' _.
    split_and!; [done|lia| |done| |done| | |apply Hs'].
    + destruct (Z_le_gt_dec b b0); [done|]. rewrite Hlow in Hu0; [done|lia].
    + rewrite (fst_view _ _ _ _ Hs'). apply wr_eq.
    + intros b' Hb'. rewrite (fst_sb _ _ _ _ Hs'). rewrite <- (used_balloc s H L R b b') by done.
      unfold used. by rewrite (fst_view _ _ _ _ Hs').
    + intros k Hk1 Hk2. rewrite (fst_view _ _ _ _ Hs'). unfold balloc_view. by rewrite !wr_ne.
  - intros Hall. by rewrite Hall in Hu0.
Qed.

(** With every block in use [balloc] panics. *)
Theorem balloc_out_of_blocks s H L R :
  fs_inv s H L R → meta_used s → room s L 2 → (S (length H) + length L < NBUF)%nat →
  (∀ b, 0 ≤ b < sb_size (fsb s) → used (fview s) (fsb s) b = true) →
  balloc ROOTDEV s = Panic "balloc: out of blocks".
Proof.
  intros Hinv Hm Hroom Hfree Hall. apply wp_must_panic. eapply wp_balloc; [done..| |done].
  intros b s' Hb Hu. by rewrite Hall in Hu.
Qed.

(** [bfree] clears the block's bit and no other, and touches only the
    bitmap; freeing a free block panics. *)
Theorem bfree_frees s H L R b :
  fs_inv s H L R → 0 ≤ b < sb_size (fsb s) → room s L 1 → (length H + length L < NBUF)%nat →
  if used (fview s) (fsb s) b then
    ∃ s', bfree ROOTDEV b s = Ok (tt, s') ∧ fs_inv s' H (logged L (sb_bmapstart (fsb s))) R ∧
      (∀ b', 0 ≤ b' < sb_size (fsb s) →
         used (fview s') (fsb s') b' = if decide (b' = b) then false else used (fview s) (fsb s) b') ∧
      (∀ k, k ≠ sb_bmapstart (fsb s) → fview s' k = fview s k)
  else bfree ROOTDEV b s = Panic "freeing free block".
Proof.
  intros Hinv Hb Hroom Hfree. destruct (used (fview s) (fsb s) b) eqn:Hu.
  - apply wp_run. eapply wp_bfree; [done..| |congruence]. intros _ s' Hinv' Hs' _. split_and!; [done| |].
    + intros b' Hb'. rewrite (fst_sb _ _ _ _ Hs'). rewrite <- (used_bfree s H L R b b') by done.
      unfold used. by rewrite (fst_view _ _ _ _ Hs').
    + intros k Hk. rewrite (fst_view _ _ _ _ Hs'). unfold bfree_view. by rewrite wr_ne.
  - apply wp_must_panic. eapply wp_bfree; [done..|congruence|done].
Qed.

(** Allocating a block and freeing it again leaves the set of used
    blocks as it was. *)
Theorem balloc_bfree s H L R b0 :
  fs_inv s H L R → meta_used s → room s L 3 → (S (length H) + length L + 2 < NBUF)%nat →
  0 ≤ b0 < sb_size (fsb s) → used (fview s) (fsb s) b0 = false →
  ∃ s', (b ← balloc ROOTDEV; bfree ROOTDEV b) s = Ok (tt, s') ∧
    ∀ b', 0 ≤ b' < sb_size (fsb s) → used (fview s') (fsb s') b' = used (fview s) (fsb s) b'.
Proof.
  intros Hinv Hm Hroom Hfree Hb0 Hu0. apply wp_run, wp_bind. eapply wp_balloc; [done|done|apply (room_le s L 3); [done|lia]|lia| |].
  2: { intros Hall. by rewrite Hall in Hu0. }
  intros b s1 Hb Hu Hlow Hinv1 Hs1 _. pose proof (fst_sb _ _ _ _ Hs1) as Hsb1.
  assert (∀ b', 0 ≤ b' < sb_size (fsb s) →
    used (fview s1) (fsb s1) b' = if decide (b' = b) then true else used (fview s) (fsb s) b') as Hu1.
  { intros b' Hb'. rewrite Hsb1, <- (used_balloc s H L R b b') by done. unfold used. by rewrite (fst_view _ _ _ _ Hs1). }
  pose proof (logged_length L (sb_bmapstart (fsb s))). pose proof (logged_length (logged L (sb_bmapstart (fsb s))) b).
  eapply wp_bfree; [done|by rewrite Hsb1| |unfold balloc_log; lia| |].
  - eapply room_step; [done|]. by apply room_logged, room_logged.
  - intros _ s2 Hinv2 Hs2 _ b' Hb'. rewrite (fst_sb _ _ _ _ Hs2).
    transitivity (used (bfree_view s1 b) (fsb s1) b').
    { unfold used. by rewrite (fst_view _ _ _ _ Hs2). }
    rewrite (used_bfree s1 H (balloc_log s L b) R b b') by (rewrite ?Hsb1; done).
    rewrite Hu1 by done. case_decide as Hd; [|done]. by rewrite Hd, Hu.
  - rewrite Hu1, decide_True by done. done.
Qed.

(** [iget] returns the slot that caches the inode, with one more
    reference, or else a recycled slot that names it and is not yet valid; it
    changes no other slot, and no two referenced slots ever name the same
    inode. *)
Theorem iget_slot s H L R dv inum j0 p0 :
  fs_inv s H L R → (length R < 1000)%nat →
  icache s !! j0 = Some p0 → i_ref p0 = 0 ∨ imatch dv inum p0 →
  ∃ i s' p', iget dv inum s = Ok (i, s') ∧ fs_inv s' H L (i :: R) ∧
    icache s' !! i = Some p' ∧ i_dev p' = dv ∧ i_inum p' = inum ∧
    (∀ j q, icache s !! j = Some q → imatch dv inum q → j = i ∧ p' = set_i_ref (i_ref q + 1) q) ∧
    ((∀ j q, icache s !! j = Some q → ¬ imatch dv inum q) → i_ref p' = 1 ∧ i_valid p' = 0) ∧
    (∀ j, j ≠ i → icache s' !! j = icache s !! j) ∧ (∀ k, fview s' k = fview s k).
Proof.
  intros Hinv HR Hj0 Hp0.
  destruct (wp_ok (iget dv inum) (λ i s', fs_inv s' H L (i :: R) ∧ fs_step s s' H (fview s) ∧
    iget_result dv inum (icache s) i (icache s')) s) as (i & s' & Hrun & Hinv' & Hs' & Hres).
  { eapply wp_iget; [done..|auto|]. intros Hall. destruct (Hall _ _ Hj0) as [? Hno].
    destruct Hp0 as [?|?]; [lia|done]. }
  pose proof (fi_icache _ _ _ _ Hinv) as Hic. exists i, s'. destruct Hres as [(p & Hp & Hm & Hi')|(Hno & p & Hp & Hr & Hi')];
    rewrite Hi'; rewrite list_lookup_insert_eq by (by eapply lookup_lt_Some); eexists; split_and!; try done.
  - apply Hm.
  - apply Hm.
  - intros j q Hq (Hq0 & Hqd & Hqn). destruct Hm as (Hm0 & Hmd & Hmn).
    assert (j = i) as -> by (eapply (ic_uniq _ _ Hic); [done..| |]; congruence). by simplify_eq.
  - intros Hno. by destruct (Hno i p).
  - intros j Hj. by apply list_lookup_insert_ne.
  - apply Hs'.
  - intros j q Hq Hmq. by destruct (Hno j q).
  - intros j Hj. by apply list_lookup_insert_ne.
  - apply Hs'.
Qed.

(** The inode cache is a reference-counted table: [iget] on an inode and
    then [iput] of the slot, while another holder or a link keeps it alive,
    restore every slot the table had in use. *)
Theorem iget_iput s H L R dv inum j q :
  fs_inv s H L R → (length R < 1000)%nat → icache s !! j = Some q → imatch dv inum q →
  ∃ s', (i ← iget dv inum; iput i) s = Ok (tt, s') ∧ fs_inv s' H L R ∧ icache s' = icache s ∧
    ∀ k, fview s' k = fview s k.
Proof.
  intros Hinv HR Hq Hm. pose proof (fi_icache _ _ _ _ Hinv) as Hic. apply wp_run, wp_bind. eapply wp_iget; [done..| |].
  2: { intros Hall. by destruct (Hall _ _ Hq). }
  intros i s1 Hinv1 Hs1 [(p & Hp & Hmp & Hi1)|(Hno & _)]; [|by destruct (Hno j q)].
  assert (i = j) as ->.
  { destruct Hm as (? & ? & ?), Hmp as (? & ? & ?). eapply (ic_uniq _ _ Hic); [done..| |]; congruence. }
  simplify_eq. assert (j < length (icache s))%nat as Hlt by (by eapply lookup_lt_Some).
  eapply wp_iput_keep; [done|done|rewrite Hi1; by apply list_lookup_insert_eq| |].
  { right; right. cbn [i_ref set_i_ref]. destruct Hm. lia. }
  intros s2 Hinv2 Hs2 Hi2. split_and!; [done| |].
  - rewrite Hi2, Hi1, list_insert_insert_eq. apply list_insert_id. rewrite Hq. f_equal.
    destruct q as [qd qi qr]. unfold set_i_ref. cbn. f_equal. lia.
  - intros k. rewrite (fst_view _ _ _ _ Hs2). apply Hs1.
Qed.

(** [ialloc] takes the lowest free inode number, gives that inode on the
    disk the type asked for and zeroes for everything else, leaves every
    other inode as it was, and returns a reference to it. *)
Theorem ialloc_fresh s H L R type n0 j0 p0 :
  fs_inv s H L R → (length R < 1000)%nat → room s L 1 → (length H + length L < NBUF)%nat →
  1 ≤ n0 < sb_ninodes (fsb s) → free_inode s n0 → -32768 ≤ type < 32768 →
  icache s !! j0 = Some p0 → i_ref p0 = 0 →
  ∃ n i s' p, ialloc ROOTDEV type s = Ok (i, s') ∧ fs_inv s' H (logged L (IBLOCK n (fsb s))) (i :: R) ∧
    1 ≤ n ≤ n0 ∧ free_inode s n ∧ (∀ m, 1 ≤ m < n → ¬ free_inode s m) ∧
    disk_inode s' n = mk_dinode type 0 0 0 0 (replicate 13 0) ∧
    (∀ m, 0 ≤ m < sb_ninodes (fsb s) → m ≠ n → disk_inode s' m = disk_inode s m) ∧
    icache s' !! i = Some p ∧ i_dev p = ROOTDEV ∧ i_inum p = n.
Proof.
  intros Hinv HR Hroom Hfree Hn0 Hf0 Ht Hj0 Hr0.
  destruct (wp_ok (ialloc ROOTDEV type) (λ i s', ∃ n s1, 1 ≤ n < sb_ninodes (fsb s) ∧ free_inode s n ∧
    (∀ m, 1 ≤ m < n → ¬ free_inode s m) ∧ fs_step s s1 H (ialloc_view s n type) ∧
    fs_inv s' H (logged L (IBLOCK n (fsb s))) (i :: R) ∧ fs_step s1 s' H (fview s1) ∧
    iget_result ROOTDEV n (icache s) i (icache s')) s)
    as (i & s' & Hrun & n & s1 & Hn & Hfn & Hlow & Hs1 & Hinv' & Hs' & Hres).
  { unfold ialloc. apply wp_bind, wp_gets. eapply wp_ialloc_loop; [done..|lia|lia| | |].
    - intros n i s1 s' ??????. intros. exists n, s1. done.
    - intros Hall. by destruct (Hall n0).
    - intros Hall. specialize (Hall _ _ Hj0). lia. }
  assert (∀ m, disk_inode s' m = dec_dinode (dip_off m) (ialloc_view s n type (IBLOCK m (fsb s)))) as Hd.
  { intros m. unfold disk_inode. by rewrite (fst_sb _ _ _ _ Hs'), (fst_sb _ _ _ _ Hs1), (fst_view _ _ _ _ Hs'), (fst_view _ _ _ _ Hs1). }
  assert (∃ p, icache s' !! i = Some p ∧ i_dev p = ROOTDEV ∧ i_inum p = n) as (p & Hp).
  { destruct Hres as [(p & Hp & Hm & ->)|(_ & p & Hp & _ & ->)]; eexists;
      rewrite list_lookup_insert_eq by (by eapply lookup_lt_Some); split; [done|apply Hm|done|done]. }
  exists n, i, s', p. split_and!; try done; try lia.
  - destruct (Z_le_gt_dec n n0); [done|]. by destruct (Hlow n0 ltac:(lia)).
  - rewrite Hd. unfold ialloc_view. rewrite wr_eq. eapply ialloc_inode; [done|lia|done].
  - intros m Hm Hmn. rewrite Hd. eapply ialloc_other; [done|done|lia|done].
  - apply Hp.
Qed.

(** [iupdate] makes the inode on the disk equal to the cached one, and
    leaves every other inode as it was. *)
Theorem iupdate_stores s H L R i p :
  fs_inv s H L R → icache s !! i = Some p → i_dev p = ROOTDEV → 0 ≤ i_inum p < sb_ninodes (fsb s) →
  dinode_ok (i_disk p) → room s L 1 → (length H + length L < NBUF)%nat →
  ∃ s', iupdate i s = Ok (tt, s') ∧ fs_inv s' H (logged L (IBLOCK (i_inum p) (fsb s))) R ∧
    icache s' = icache s ∧ disk_inode s' (i_inum p) = i_disk p ∧
    ∀ m, 0 ≤ m < sb_ninodes (fsb s) → m ≠ i_inum p → disk_inode s' m = disk_inode s m.
Proof.
  intros Hinv Hp Hdev Hi Hok Hroom Hfree. apply wp_run. eapply wp_iupdate; [done..|]. intros s' Hinv' Hs' Hi'.
  assert (∀ m, disk_inode s' m = dec_dinode (dip_off m) (iupdate_view s p (IBLOCK m (fsb s)))) as Hd.
  { intros m. unfold disk_inode. by rewrite (fst_sb _ _ _ _ Hs'), (fst_view _ _ _ _ Hs'). }
  split_and!; [done|done| |].
  - rewrite Hd. unfold iupdate_view. rewrite wr_eq. apply dinode_roundtrip; [done|].
    destruct (inode_block s H L R _ Hinv Hi) as (_ & _ & _ & Hoff).
    assert (length (fview s (IBLOCK (i_inum p) (fsb s))) = 512%nat) as Hl by (eapply length_view, Hinv). lia.
  - intros m Hm Hne. rewrite Hd. eapply iupdate_other; [done..|]. apply (ic_addrs _ _ (fi_icache _ _ _ _ Hinv) _ _ Hp).
Qed.

(** [iread] on a slot not yet valid loads the inode the disk has under
    its number, type, links, size and addresses, and nothing else changes. *)
Theorem iread_loads s H L R i p :
  fs_inv s H L R → icache s !! i = Some p → i ∈ R → i_dev p = ROOTDEV →
  0 ≤ i_inum p < sb_ninodes (fsb s) → (length H + length L < NBUF)%nat → i_valid p = 0 →
  if di_type (disk_inode s (i_inum p)) =? 0 then iread (Some i) s = Panic "iread: no type"
  else ∃ s' p', iread (Some i) s = Ok (tt, s') ∧ fs_inv s' H L R ∧ icache s' = <[i:=p']> (icache s) ∧
    i_disk p' = disk_inode s (i_inum p) ∧ i_valid p' = 1 ∧ i_dev p' = i_dev p ∧ i_inum p' = i_inum p ∧
    i_ref p' = i_ref p ∧ ∀ k, fview s' k = fview s k.
Proof.
  intros Hinv Hp HiR Hdev Hi Hfree Hv. destruct (Z.eqb_spec (di_type (disk_inode s (i_inum p))) 0) as [Ht|Ht].
  - apply wp_must_panic. eapply wp_iread; [done..| | |done]; [congruence|done].
  - destruct (wp_run (iread (Some i)) (λ s', fs_inv s' H L R ∧ fs_step s s' H (fview s) ∧
      icache s' = <[i:=iread_inode s p]> (icache s)) s) as (s' & Hrun & Hinv' & Hs' & Hi').
    { eapply wp_iread; [done..|congruence|auto|congruence]. }
    exists s', (iread_inode s p). split_and!; try done. apply Hs'.
Qed.
End theorems.

(** ** Paths *)
(** The names a loop over [skipelem] sees, as [namex] runs it. *)
Fixpoint elems (fuel : nat) (path name : list Z) : option (list (list Z)) :=
  match fuel with
  | O => None
  | S fuel =>
      r ← skipelem path name;
      match r with
      | None => Some []
      | Some (path', name') => (cname DIRSIZ name' ::.) <$> elems fuel path' name'
      end
  end.

(** A loop over [skipelem] ends, and sees exactly the components of the
    path, the non-empty runs between slashes, each cut at [DIRSIZ] bytes,
    whatever the name buffer held before. *)
Theorem skipelem_components l tl name :
  0 ∉ l → length name = DIRSIZ →
  elems (S (length l)) (l ++ 0 :: tl) name = Some (take DIRSIZ <$> components l).
Proof.
  remember (length l) as n eqn:Hn. revert l name Hn. induction n as [n IH] using (well_founded_induction lt_wf).
  intros l name -> H0 Hname. pose proof (skipelem_run l tl name H0 Hname) as Hrun.
  cbn [elems]. destruct (components l) as [|e es].
  - rewrite Hrun. done.
  - destruct Hrun as (l' & name' & -> & H0' & Hlt & Hc & _ & Hl' & Hn'). cbn [mbind option_bind].
    assert (∀ k k' p nm r, (k ≤ k')%nat → elems k p nm = Some r → elems k' p nm = Some r) as Hmono.
    { clear. induction k as [|k IHk]; intros [|k'] p nm r Hk Hr; cbn [elems] in *; try done; [lia|].
      destruct (skipelem p nm) as [[[p' nm']|]|]; try done. cbn [mbind option_bind] in *.
      destruct (elems k p' nm') as [r'|] eqn:He; [|done]. by rewrite (IHk k' _ _ r'); [..|lia|]. }
    rewrite (Hmono (S (length l')) _ _ _ (take DIRSIZ <$> es)); [by rewrite Hn'|lia|].
    rewrite <- Hc. by apply (IH (length l')).
Qed.

(** ** The image mkfs builds *)
Lemma bit_at_balloc_bits k i x j :
  0 ≤ i → 0 ≤ j → i + Z.of_nat k ≤ 8 * Z.of_nat (length x) →
  bit_at (balloc_bits k i x) j = bool_decide (i ≤ j < i + Z.of_nat k) || bit_at x j.
Proof.
  revert i x. induction k as [|k IH]; intros i x Hi Hj Hl; cbn [balloc_bits].
  - by rewrite bool_decide_eq_false_2 by lia.
  - fold (mark x i). rewrite IH; [|lia|lia|unfold mark; rewrite length_insert; lia].
    rewrite bit_at_mark; [|lia|lia|].
    + case_decide as Hd.
      * by rewrite (bool_decide_eq_true_2 (i ≤ j < _)), !orb_true_r by lia.
      * f_equal. apply bool_decide_ext. lia.
    + assert (i / 8 < Z.of_nat (length x)) by (apply Z.div_lt_upper_bound; lia).
      assert (0 ≤ i / 8) by (apply Z.div_pos; lia). lia.
Qed.

(** The bitmap [mkfs] writes marks exactly the first [used] blocks, for
    every [used] up to the capacity of a block; more is an assertion failure. *)
Theorem mkfs_bitmap used (s : mst) :
  0 ≤ used →
  if used <? BSIZE * 8 then
    ∃ s' x, Mkfs.balloc used s = Ok (tt, s') ∧ img s' !! sb_bmapstart mksb = Some x ∧ length x = 512%nat ∧
      ∀ b, 0 ≤ b → bit_at x b = bool_decide (b < used)
  else Mkfs.balloc used s = Panic "assert".
Proof.
  intros Hu. unfold Mkfs.balloc. destruct (Z.ltb_spec used (BSIZE * 8)) as [Hlt|Hge]; cbn [negb]; [|done].
  eexists _, _. split_and!; [done|apply lookup_insert_eq| |].
  - assert (∀ k i x, length (balloc_bits k i x) = length x) as Hlen.
    { induction k as [|k IH]; intros i x; cbn [balloc_bits]; [done|]. by rewrite IH, length_insert. }
    by rewrite Hlen.
  - intros b Hb. rewrite bit_at_balloc_bits; [|lia|done|rewrite length_replicate; unfold BSIZE in *; lia].
    assert (bit_at (replicate (Z.to_nat BSIZE) 0) b = false) as ->.
    { unfold bit_at. destruct (replicate _ 0 !! _) as [v|] eqn:Hv; [|by rewrite Z.bits_0].
      apply lookup_replicate in Hv as [-> _]. apply Z.bits_0. }
    rewrite orb_false_r. apply bool_decide_ext. lia.
Qed.

(** [readsb] decodes the superblock [mkfs] encodes, and its regions are
    in order, do not overlap and fit the image. *)
Theorem mkfs_superblock :
  dec_superblock sb_block = mksb ∧ length sb_block = 512%nat ∧
  ∀ l, log_start l = sb_logstart mksb → log_size l = sb_nlog mksb → geom_ok mksb l.
Proof.
  split_and!; [vm_compute; done..|]. intros l Hs Hz.
  constructor; rewrite ?Hs, ?Hz; vm_compute; done.
Qed.

(** ** The theorems at concrete states *)
Lemma fs0_free : used (fview fs0) (fsb fs0) 100 = false.
Proof. unfold used. rewrite fs0_view. vm_compute. done. Qed.
Lemma fs0_range b : 0 ≤ b < 1000 → 0 ≤ b < sb_size (fsb fs0).
Proof. change (sb_size (fsb fs0)) with 1000. lia. Qed.
Lemma fs0_inums n : 1 ≤ n < 200 → 1 ≤ n < sb_ninodes (fsb fs0).
Proof. change (sb_ninodes (fsb fs0)) with 200. lia. Qed.
Lemma fs0_used b : 0 ≤ b ≤ 58 → used (fview fs0) (fsb fs0) b = true.
Proof. intros Hb. apply fs0_meta. change (sb_bmapstart (fsb fs0)) with 58. lia. Qed.
Lemma demo_room (s : fss drive unit) k : lg (flog s) = demo_log → (k < 30)%nat → room s [] k.
Proof. unfold room. intros ->. cbn. lia. Qed.

Lemma balloc_fresh_witness : ∃ b s', balloc ROOTDEV fs0 = Ok (b, s') ∧ b ≤ 100 ∧ fview s' b = zeros.
Proof.
  destruct (balloc_fresh fs0 [] [] [] 100) as (b & s' & Hrun & _ & Hb & _ & Hz & _);
    [exact fs0_inv|exact fs0_meta|apply demo_room; [reflexivity|lia]|cbn; unfold NBUF; lia|apply fs0_range; lia|exact fs0_free|].
  exists b, s'. split_and!; [exact Hrun|lia|exact Hz].
Defined.

Lemma balloc_out_of_blocks_witness : balloc ROOTDEV fs_full = Panic "balloc: out of blocks".
Proof.
  apply (balloc_out_of_blocks fs_full [] [] []);
    [exact fs_full_inv| |apply demo_room; [reflexivity|lia]|cbn; unfold NBUF; lia|exact fs_full_used].
  intros b Hb. apply fs_full_used. change (sb_size (fsb fs_full)) with 1000.
  change (sb_bmapstart (fsb fs_full)) with 58 in Hb. lia.
Defined.

Lemma bfree_frees_witness : bfree ROOTDEV 100 fs0 = Panic "freeing free block" ∧
  ∃ s', bfree ROOTDEV 58 fs0 = Ok (tt, s') ∧ used (fview s') (fsb s') 58 = false.
Proof.
  split.
  - pose proof (bfree_frees fs0 [] [] [] 100) as Ht. rewrite fs0_free in Ht.
    apply Ht; [exact fs0_inv|apply fs0_range; lia|apply demo_room; [reflexivity|lia]|cbn; unfold NBUF; lia].
  - pose proof (bfree_frees fs0 [] [] [] 58) as Ht. rewrite (fs0_used 58) in Ht by lia.
    destruct Ht as (s' & Hrun & _ & Hu & _); [exact fs0_inv|apply fs0_range; lia|apply demo_room; [reflexivity|lia]|cbn; unfold NBUF; lia|].
    exists s'. split; [exact Hrun|]. rewrite Hu by (apply fs0_range; lia). reflexivity.
Defined.

Lemma balloc_bfree_witness : ∃ s', (b ← balloc ROOTDEV; bfree ROOTDEV b) fs0 = Ok (tt, s') ∧
  ∀ b', 0 ≤ b' < sb_size (fsb fs0) → used (fview s') (fsb s') b' = used (fview fs0) (fsb fs0) b'.
Proof.
  apply (balloc_bfree fs0 [] [] [] 100);
    [exact fs0_inv|exact fs0_meta|apply demo_room; [reflexivity|lia]|cbn; unfold NBUF; lia|apply fs0_range; lia|exact fs0_free].
Defined.

Lemma root_match : imatch ROOTDEV ROOTINO root_inode.
Proof. vm_compute. done. Qed.
Lemma fs1_rootino : 0 ≤ i_inum root_inode < sb_ninodes (fsb fs1).
Proof. change (sb_ninodes (fsb fs1)) with 200. change (i_inum root_inode) with 1. lia. Qed.

Lemma iget_slot_witness : ∃ i s' p', iget ROOTDEV ROOTINO fs1 = Ok (i, s') ∧
  icache s' !! i = Some p' ∧ i_inum p' = ROOTINO ∧ i = 0%nat ∧ i_ref p' = 2.
Proof.
  destruct (iget_slot fs1 [] [] [0%nat] ROOTDEV ROOTINO 0 root_inode)
    as (i & s' & p' & Hrun & _ & Hp & _ & Hn & Hm & _); [exact fs1_inv|cbn; lia|reflexivity|right; exact root_match|].
  destruct (Hm 0%nat root_inode) as [<- ->]; [reflexivity|exact root_match|].
  exists 0%nat, s', (set_i_ref 2 root_inode). split_and!; [exact Hrun|exact Hp|exact Hn|reflexivity|reflexivity].
Defined.

Lemma iget_iput_witness : ∃ s', (i ← iget ROOTDEV ROOTINO; iput i) fs1 = Ok (tt, s') ∧
  fs_inv s' [] [] [0%nat] ∧ icache s' = icache fs1 ∧ ∀ k, fview s' k = fview fs1 k.
Proof. apply (iget_iput fs1 [] [] [0%nat] ROOTDEV ROOTINO 0 root_inode); [exact fs1_inv|cbn; lia|reflexivity|exact root_match]. Defined.

Lemma ialloc_fresh_witness : ∃ n i s', ialloc ROOTDEV T_DIR fs0 = Ok (i, s') ∧ 1 ≤ n ≤ 50 ∧
  di_type (disk_inode s' n) = T_DIR.
Proof.
  destruct (ialloc_fresh fs0 [] [] [] T_DIR 50 0 zero_inode)
    as (n & i & s' & p & Hrun & _ & Hn & _ & _ & Hd & _);
    [exact fs0_inv|cbn; lia|apply demo_room; [reflexivity|lia]|cbn; unfold NBUF; lia|apply fs0_inums; lia| |done|reflexivity|reflexivity|].
  - unfold free_inode, disk_inode. rewrite fs0_view. vm_compute. done.
  - exists n, i, s'. split_and!; [exact Hrun|lia|lia|by rewrite Hd].
Defined.

Lemma iupdate_stores_witness : ∃ s', iupdate 0 fs1 = Ok (tt, s') ∧ disk_inode s' ROOTINO = i_disk root_inode.
Proof.
  destruct (iupdate_stores fs1 [] [] [0%nat] 0 root_inode) as (s' & Hrun & _ & _ & Hd & _);
    [exact fs1_inv|reflexivity|reflexivity|exact fs1_rootino| |apply demo_room; [reflexivity|lia]|cbn; unfold NBUF; lia|].
  - split_and!; [|done|done|reflexivity|]; apply (bool_decide_unpack _); vm_compute; exact I.
  - exists s'. split; [exact Hrun|exact Hd].
Defined.

Lemma iread_loads_witness : ∃ s' p', iread (Some 0%nat) fs1 = Ok (tt, s') ∧ icache s' = <[0%nat:=p']> (icache fs1) ∧
  i_disk p' = disk_inode fs1 ROOTINO.
Proof.
  pose proof (iread_loads fs1 [] [] [0%nat] 0 root_inode) as Ht. cbn [i_inum root_inode] in Ht.
  rewrite fs1_root in Ht. cbn [Z.eqb] in Ht.
  destruct Ht as (s' & p' & Hrun & _ & Hi & Hd & _); [exact fs1_inv|reflexivity|set_solver|reflexivity|exact fs1_rootino|cbn; unfold NBUF; lia|reflexivity|].
  exists s', p'. split_and!; [exact Hrun|exact Hi|exact Hd].
Defined.

(** "//usr/a_name_of_15_b" *)
Lemma skipelem_components_witness :
  elems 22 ([47; 47; 117; 115; 114; 47] ++ replicate 15 97 ++ [0]) (replicate 14 9) =
  Some [[117; 115; 114]; replicate 14 97].
Proof.
  apply (skipelem_components ([47; 47; 117; 115; 114; 47] ++ replicate 15 97) [] (replicate 14 9));
    [apply (bool_decide_unpack _); vm_compute; exact I|done].
Defined.

Lemma mkfs_bitmap_witness : ∃ s' x, Mkfs.balloc 60 (mk_mst ∅ 1 0) = Ok (tt, s') ∧
  img s' !! sb_bmapstart mksb = Some x ∧ length x = 512%nat ∧ ∀ b, 0 ≤ b → bit_at x b = bool_decide (b < 60).
Proof. apply (mkfs_bitmap 60 (mk_mst ∅ 1 0)). lia. Defined.
