(* ===== verification/NameTheorems.v ===== *)
(** * Correctness of reading: file contents, directories and path names

    [readi], [dirlookup], [namei] and [nameiparent] on a file system whose
    directories are whole, and their use on the image that mkfs.c builds. *)

From S2P Require Import Prelude Spinlock CString Ide Drive Bio BioFacts Layout Mkfs Log LogDisk LogFacts LogSpecs Fs FsFacts FsInodes FsFiles FsDirs FsPaths FsNames Boot Demo.

Section theorems.
Context {D X : Type} {dev : IdeDevice D} {dok : IdeDeviceOk D}.
Context (devtab : list (@devsw D X)).
Implicit Types s : fss D X.

(** [readi] of a file whose blocks are allocated returns the bytes of the
    file at that offset, as many as asked for or as remain, across direct and
    indirect blocks; it changes no block and no cached inode. An offset past
    the end is an error. *)
Theorem readi_contents s H L R i p off n :
  fs_inv s H L R → icache s !! i = Some p → file_ok (fview s) p → i_type p ≠ T_DEV → 1 ≤ i_nlink p →
  0 ≤ off → 0 ≤ n → off + n < 4294967296 → (length H + length L < NBUF)%nat →
  if decide (off ≤ i_size p) then
    ∃ s', let n' := Z.min n (i_size p - off) in
      readi devtab i off n s = Ok ((n', slice (Z.to_nat off) (Z.to_nat n') (contents (fview s) (i_disk p))), s') ∧
      fs_inv s' H L R ∧ icache s' = icache s ∧ (∀ k, fview s' k = fview s k)
  else readi devtab i off n s = Ok ((-1, []), s).
Proof.
  intros Hinv Hp Hok Hty Hnl Ho Hn Hov Hfree. case_decide as Hd.
  - destruct (wp_ok (readi devtab i off n) (λ r s', let n' := Z.min n (i_size p - off) in
      r = (n', slice (Z.to_nat off) (Z.to_nat n') (contents (fview s) (i_disk p))) ∧
      fs_inv s' H L R ∧ icache s' = icache s ∧ (∀ k, fview s' k = fview s k)) s)
      as (r & s' & Hrun & -> & ? & ? & ?); [|eauto].
    eapply wp_readi; [done..|lia|done|done|done|]. intros s' Hinv' Hs' Hi'. split_and!; [done..|apply Hs'].
  - unfold readi, get_inode. munfold. rewrite Hp. rewrite (proj2 (Z.eqb_neq _ _) Hty).
    by rewrite Z.gtb_ltb, (proj2 (Z.ltb_lt _ _)) by lia.
Qed.

(** [dirlookup] finds the first entry in use whose name agrees with the
    one asked for up to [DIRSIZ] bytes, reports its offset and returns a
    reference to its inode; otherwise it returns null and takes no reference. *)
Theorem dirlookup_finds s H L R i p name :
  fs_inv s H L R → icache s !! i = Some p → dir_ok (fview s) p → bytes name → readable DIRSIZ name →
  (length H + length L < NBUF)%nat → (length R < NINODE)%nat →
  match dir_lookup name (contents (fview s) (i_disk p)) with
  | Some (m, off) => ∃ j s', dirlookup devtab i name s = Ok (Some (j, off), s') ∧ fs_inv s' H L (j :: R) ∧
      slot_of s' j m ∧ ∀ k, fview s' k = fview s k
  | None => ∃ s', dirlookup devtab i name s = Ok (None, s') ∧ fs_inv s' H L R ∧ icache s' = icache s ∧
      ∀ k, fview s' k = fview s k
  end.
Proof.
  intros Hinv Hp Hd Hb Hr Hfree HR. destruct (dir_lookup name _) as [[m off]|] eqn:Hl.
  - destruct (wp_ok (dirlookup devtab i name) (λ r s', ∃ j, r = Some (j, off) ∧ fs_inv s' H L (j :: R) ∧
      slot_of s' j m ∧ ∀ k, fview s' k = fview s k) s) as (r & s' & Hrun & j & -> & ? & ? & ?); [|eauto 10].
    eapply wp_dirlookup; [done..|congruence|]. intros m' off' Hl' j s' Hinv' Hs' Hres. simplify_eq.
    exists j. split_and!; [done|done|by eapply slot_iget|apply Hs'].
  - destruct (wp_ok (dirlookup devtab i name) (λ r s', r = None ∧ fs_inv s' H L R ∧ icache s' = icache s ∧
      ∀ k, fview s' k = fview s k) s) as (r & s' & Hrun & -> & ? & ? & ?); [|eauto 10].
    eapply wp_dirlookup; [done..| |congruence]. intros _ s' Hinv' Hs' Hi'. split_and!; [done..|apply Hs'].
Qed.

(** C17. Path resolution. [namei] ends and returns a reference to the inode the
    reference walk over the tree on the disk reaches, component by component
    from the root, or null where the walk fails (a missing name, or a file in
    the middle of the path); apart from the inode it returns it keeps no
    reference, and the disk is unchanged. *)
Theorem namei_resolves V sb s H L R l tl name :
  tree_ok V sb → linked V sb ROOTINO → reading V sb s H L R →
  (length H + length L < NBUF)%nat → (S (length R) < NINODE)%nat →
  0 ∉ l → bytes (l ++ 0 :: tl) → bytes name → length name = DIRSIZ →
  match resolve V sb false (components l) ROOTINO with
  | Some m => ∃ i s', namei devtab (l ++ 0 :: tl) name s = Ok (Some i, s') ∧
      reading V sb s' H L (i :: R) ∧ slot_of s' i m
  | None => ∃ s', namei devtab (l ++ 0 :: tl) name s = Ok (None, s') ∧ reading V sb s' H L R
  end.
Proof.
  intros Htree Hroot Hrd Hfree HR H0 Hbl Hbn Hln. destruct (resolve _ _ _ _ _) as [m|] eqn:Hres.
  - destruct (wp_ok (namei devtab (l ++ 0 :: tl) name) (λ r s', ∃ i, r = Some i ∧ reading V sb s' H L (i :: R) ∧
      slot_of s' i m) s) as (r & s' & Hrun & i & -> & ? & ?); [|eauto].
    unfold namei. apply wp_bind. eapply wp_namex; [done..| |congruence].
    intros m' Hm' j name' s' Hrd' _ Hsl _ _. apply wp_ret. simplify_eq. eauto.
  - destruct (wp_ok (namei devtab (l ++ 0 :: tl) name) (λ r s', r = None ∧ reading V sb s' H L R) s)
      as (r & s' & Hrun & -> & ?); [|eauto].
    unfold namei. apply wp_bind. eapply wp_namex; [done..|congruence|].
    intros _ name' s' Hrd' _. by apply wp_ret.
Qed.

(** [nameiparent] stops one component early: it returns the directory that
    is to hold the last component and leaves that component, cut at [DIRSIZ]
    bytes, in [name]; it fails for the root and for a bad prefix. *)
Theorem nameiparent_resolves V sb s H L R l tl name :
  tree_ok V sb → linked V sb ROOTINO → reading V sb s H L R →
  (length H + length L < NBUF)%nat → (S (length R) < NINODE)%nat →
  0 ∉ l → bytes (l ++ 0 :: tl) → bytes name → length name = DIRSIZ →
  match resolve V sb true (components l) ROOTINO with
  | Some m => ∃ i name' s', nameiparent devtab (l ++ 0 :: tl) name s = Ok ((Some i, name'), s') ∧
      reading V sb s' H L (i :: R) ∧ slot_of s' i m ∧
      length name' = DIRSIZ ∧ cname DIRSIZ name' = take DIRSIZ (default [] (last (components l)))
  | None => ∃ name' s', nameiparent devtab (l ++ 0 :: tl) name s = Ok ((None, name'), s') ∧ reading V sb s' H L R
  end.
Proof.
  intros Htree Hroot Hrd Hfree HR H0 Hbl Hbn Hln. destruct (resolve _ _ _ _ _) as [m|] eqn:Hres.
  - destruct (wp_ok (nameiparent devtab (l ++ 0 :: tl) name) (λ r s', ∃ i, r.1 = Some i ∧ reading V sb s' H L (i :: R) ∧
      slot_of s' i m ∧ last_name (components l) r.2) s) as ([r name'] & s' & Hrun & i & Hr & ? & ? & Hl & _ & Hc).
    + unfold nameiparent. eapply wp_namex; [done..| |congruence].
      intros m' Hm' j name' s' Hrd' _ Hsl _ Hlast. simplify_eq. eexists. split_and!; [done..|by apply Hlast].
    + cbn [fst snd] in *. subst r. eauto 10.
  - destruct (wp_ok (nameiparent devtab (l ++ 0 :: tl) name) (λ r s', r.1 = None ∧ reading V sb s' H L R) s)
      as ([r name'] & s' & Hrun & Hr & ?).
    + unfold nameiparent. eapply wp_namex; [done..|congruence|]. intros _ name' s' Hrd' _. done.
    + cbn [fst snd] in *. subst r. eauto.
Qed.
End theorems.

(** ** The image of mkfs.c *)
Definition demo_view : disk := media demo_disk ROOTDEV.

(** The inodes in use, and the root directory. *)
Lemma demo_inodes n : linked demo_view mksb n → n = 1 ∨ n = 2.
Proof.
  intros (Hn & Ht & _).
  assert (Forall (λ n, di_type (inode_at demo_view mksb n) = 0 ∨ n = 1 ∨ n = 2) (seqZ 0 200)) as HF.
  { apply (bool_decide_unpack _). vm_compute. exact I. }
  rewrite Forall_forall in HF. destruct (HF n) as [?|?]; [|done|done]. apply elem_of_seqZ.
  change (sb_ninodes mksb) with 200 in Hn. lia.
Qed.
Lemma demo_linked n : n = 1 ∨ n = 2 → linked demo_view mksb n.
Proof. intros [->| ->]; split_and!; vm_compute; congruence. Qed.
Definition demo_root : list Z := contents demo_view (inode_at demo_view mksb 1).
Lemma demo_entries :
  Forall (λ k, de_inum (dirent_at demo_root k) = 0 ∨ de_inum (dirent_at demo_root k) = 1 ∨
    de_inum (dirent_at demo_root k) = 2) (seq 0 32) ∧ length demo_root = 512%nat ∧ bytes demo_root.
Proof. split_and!; [apply (bool_decide_unpack _); vm_compute; exact I|vm_compute; done|apply (bool_decide_unpack _); vm_compute; exact I]. Qed.

Lemma demo_mapped : mapped demo_view (di_addrs (inode_at demo_view mksb 1)) 1.
Proof.
  split_and!; [lia|vm_compute; done|vm_compute; congruence|vm_compute; done|]. intros bn Hbn.
  assert (bn = 0%nat) as -> by lia. split_and!; vm_compute; congruence.
Qed.
Lemma demo_tree : tree_ok demo_view mksb.
Proof.
  intros n Hlk Hty. destruct (demo_inodes n Hlk) as [->| ->].
  - cbn zeta. assert (di_size (inode_at demo_view mksb 1) = 512) as Hsz by (vm_compute; done). rewrite Hsz.
    destruct demo_entries as (HF & Hl & Hb). split_and!; [lia|lia|exact demo_mapped|done|exact Hb|].
    intros name m off (j & Hj & Hm & H0)%dir_find_entry. fold demo_root in *. rewrite Hl in Hj. change (512 / 16)%nat with 32%nat in Hj.
    rewrite Forall_forall in HF. apply demo_linked. destruct (HF j) as [?|[?|?]]; [apply elem_of_seq; lia|lia|lia|lia].
  - exfalso. vm_compute in Hty. discriminate Hty.
Qed.

Lemma fs0_reading : reading demo_view mksb fs0 [] [] [].
Proof.
  constructor; [exact fs0_inv|reflexivity|exact fs0_view|].
  intros i p Hp H0. cbn [icache fs0 fs_of] in Hp. apply lookup_replicate in Hp as [-> _]. cbn in H0. lia.
Qed.

(** "//init", at the first free slot *)
Lemma namei_resolves_witness : ∃ i s', namei [] ([47; 47; 105; 110; 105; 116] ++ [0]) junk fs0 = Ok (Some i, s') ∧
  slot_of s' i 2.
Proof.
  pose proof (namei_resolves [] demo_view mksb fs0 [] [] [] [47; 47; 105; 110; 105; 116] [] junk) as Ht.
  assert (resolve demo_view mksb false (components [47; 47; 105; 110; 105; 116]) ROOTINO = Some 2) as Hr by (vm_compute; done).
  rewrite Hr in Ht. destruct Ht as (i & s' & Hrun & _ & Hsl).
  - exact demo_tree.
  - apply demo_linked. by left.
  - exact fs0_reading.
  - cbn. unfold NBUF. lia.
  - cbn. unfold NINODE. lia.
  - apply (bool_decide_unpack _). vm_compute. exact I.
  - apply (bool_decide_unpack _). vm_compute. exact I.
  - apply (bool_decide_unpack _). vm_compute. exact I.
  - reflexivity.
  - exists i, s'. split; [exact Hrun|exact Hsl].
Defined.

(** "/a": the root directory and the name *)
Lemma nameiparent_resolves_witness : ∃ i name' s', nameiparent [] ([47; 97] ++ [0]) junk fs0 = Ok ((Some i, name'), s') ∧
  slot_of s' i 1 ∧ cname DIRSIZ name' = [97].
Proof.
  pose proof (nameiparent_resolves [] demo_view mksb fs0 [] [] [] [47; 97] [] junk) as Ht.
  assert (resolve demo_view mksb true (components [47; 97]) ROOTINO = Some 1) as Hr by (vm_compute; done).
  rewrite Hr in Ht. destruct Ht as (i & name' & s' & Hrun & _ & Hsl & _ & Hc).
  - exact demo_tree.
  - apply demo_linked. by left.
  - exact fs0_reading.
  - cbn. unfold NBUF. lia.
  - cbn. unfold NINODE. lia.
  - apply (bool_decide_unpack _). vm_compute. exact I.
  - apply (bool_decide_unpack _). vm_compute. exact I.
  - apply (bool_decide_unpack _). vm_compute. exact I.
  - reflexivity.
  - exists i, name', s'. split_and!; [exact Hrun|exact Hsl|exact Hc].
Defined.

(** The root directory read into slot 0. *)
Definition root_read : inode := set_i_valid 1 (set_i_disk (inode_at demo_view mksb 1) root_inode).
Definition fs2 : fss drive unit := set_icache (<[0%nat:=root_read]> (icache fs1)) fs1.
Lemma fs2_inv : fs_inv fs2 [] [] [0%nat].
Proof.
  apply (fs_inv_icache fs1 _ [] [] [0%nat]); [exact fs1_inv|].
  apply (icache_ok_update _ _ 0 root_inode); [apply fs1_inv|reflexivity|reflexivity|reflexivity|reflexivity|].
  vm_compute. reflexivity.
Qed.
Lemma fs2_view b : fview fs2 b = demo_view b.
Proof. change (fview fs2 b) with (fview fs0 b). apply fs0_view. Qed.
Lemma root_file : file_ok (fview fs2) root_read.
Proof.
  apply (file_ok_ext demo_view); [intros b; symmetry; apply fs2_view|]. split_and!; [reflexivity|vm_compute; congruence..|].
  assert (i_size root_read = 512) as -> by (vm_compute; reflexivity). exact demo_mapped.
Qed.
Lemma root_dir : dir_ok (fview fs2) root_read.
Proof.
  constructor; [exact root_file|vm_compute; reflexivity|vm_compute; congruence|vm_compute; reflexivity|].
  rewrite (contents_ext (fview fs2) demo_view) by exact fs2_view. apply demo_entries.
Qed.

Lemma readi_contents_witness : ∃ s', readi [] 0 500 100 fs2 =
  Ok ((12, slice 500 12 (contents (fview fs2) (i_disk root_read))), s').
Proof.
  pose proof (readi_contents [] fs2 [] [] [0%nat] 0 root_read 500 100) as Ht.
  assert (i_size root_read = 512) as Hsz by (vm_compute; reflexivity). rewrite Hsz in Ht.
  destruct Ht as (s' & Hrun & _).
  - exact fs2_inv.
  - reflexivity.
  - exact root_file.
  - vm_compute. congruence.
  - vm_compute. congruence.
  - lia.
  - lia.
  - lia.
  - cbn. unfold NBUF. lia.
  - exists s'. exact Hrun.
Defined.

(** "init" in the root directory: the third entry *)
Lemma dirlookup_finds_witness : ∃ j s', dirlookup [] 0 [105; 110; 105; 116; 0] fs2 = Ok (Some (j, 32), s') ∧ slot_of s' j 2.
Proof.
  pose proof (dirlookup_finds [] fs2 [] [] [0%nat] 0 root_read [105; 110; 105; 116; 0]) as Ht.
  rewrite (contents_ext (fview fs2) demo_view) in Ht by exact fs2_view.
  assert (dir_lookup [105; 110; 105; 116; 0] (contents demo_view (i_disk root_read)) = Some (2, 32)) as Hl
    by (vm_compute; reflexivity).
  rewrite Hl in Ht. destruct Ht as (j & s' & Hrun & _ & Hsl & _).
  - exact fs2_inv.
  - reflexivity.
  - exact root_dir.
  - apply (bool_decide_unpack _). vm_compute. exact I.
  - right. apply (bool_decide_unpack _). vm_compute. exact I.
  - cbn. unfold NBUF. lia.
  - cbn. unfold NINODE. lia.
  - exists j, s'. split; [exact Hrun|exact Hsl].
Defined.
