(* ===== verification/WriteTheorems.v ===== *)
(** * Correctness of writing

    [bmap] and [writei] on a file of the file system, and that what is written
    is what is read back. *)

From S2P Require Import Prelude Spinlock CString Ide Drive Bio BioFacts Layout Mkfs Log LogDisk LogFacts LogSpecs Fs FsFacts FsInodes FsFiles FsTable FsWrite FsWritei FsDirs FsPaths FsNames Boot Demo NameTheorems.

(** Reading back a piece that may stick out at the end. *)
Lemma slice_splice_same {A} (off : nat) (src l : list A) :
  (off ≤ length l)%nat → slice off (length src) (splice off src l) = src.
Proof.
  intros Ho. unfold slice, splice. rewrite drop_app_ge by (rewrite length_take; lia).
  rewrite length_take, Nat.min_l, Nat.sub_diag, drop_0 by lia. by rewrite take_app_length.
Qed.

Section theorems.
Context {D X : Type} {dev : IdeDevice D} {dok : IdeDeviceOk D}.
Context (devtab : list (@devsw D X)).
Implicit Types s : fss D X.

(** An end that wraps around lies below the start. *)
Lemma wraps_below off n : 0 ≤ off < 4294967296 → 0 ≤ n < 4294967296 → (u32 (off + n) <? off) = (4294967296 <=? off + n).
Proof.
  intros Ho Hn. destruct (Z.leb_spec 4294967296 (off + n)) as [Hw|Hw]; [|rewrite u32_small by lia; apply Z.ltb_ge; lia].
  assert (u32 (off + n) = off + n - 4294967296) as ->; [|apply Z.ltb_lt; lia].
  unfold u32. symmetry. apply (Z.mod_unique _ _ 1); lia.
Qed.
Lemma writei_refuses s i p src off n :
  icache s !! i = Some p → i_type p ≠ T_DEV → 0 ≤ off < 4294967296 → 0 ≤ n < 4294967296 →
  ¬ (off ≤ i_size p ∧ off + n ≤ 71680) → writei devtab i src off n s = Ok (-1, s).
Proof.
  intros Hp Hty Ho Hn Hd. unfold writei, get_inode. munfold. rewrite Hp, (proj2 (Z.eqb_neq _ _) Hty), wraps_below by done.
  change (MAXFILE * BSIZE) with 71680. rewrite !Z.gtb_ltb.
  destruct (Z.ltb_spec (i_size p) off); [done|]. destruct (Z.leb_spec 4294967296 (off + n)); [done|]. cbn [orb].
  rewrite u32_small by lia. by rewrite (proj2 (Z.ltb_lt 71680 (off + n))) by lia.
Qed.

(** C10. [writei] to a file, for every offset and length a word can hold. A
    write that starts past the end of the file, that would exceed the maximum
    file size, or whose end [off + n] wraps around in 32 bits returns -1 and
    changes nothing, however large it is and however full log and disk are. Any
    other write, given that the log has room for the blocks it touches and the
    disk two free blocks, one of data and one indirect, for each block met,
    returns [n]: the contents of the file are the old ones with the bytes put in
    at that offset, the size grown when the write goes past the end; the new
    blocks come from the free ones, the inode on the disk follows, and no other
    inode and no block of another file changes. *)
Theorem writei_writes s i p src off n :
  icache s !! i = Some p → i_type p ≠ T_DEV → 0 ≤ off < 4294967296 → 0 ≤ n < 4294967296 →
  if decide (off ≤ i_size p ∧ off + n ≤ MAXFILE * BSIZE) then
    ∀ H L R, let k := span off n in
    fs_inv s H L R → meta_used s → file_in s i p → n ≤ Z.of_nat (length src) →
    room s L (6 * k + 1) → (S (length H) + length L + 6 * k < NBUF)%nat → (2 * k ≤ nfree (fview s) (fsb s))%nat →
    ∃ p' s' L', writei devtab i src off n s = Ok (n, s') ∧ fs_inv s' H L' R ∧
      (length L' ≤ length L + (6 * k + 1))%nat ∧ file_in s' i p' ∧
      file_written s s' i p p' off (take (Z.to_nat n) src) (2 * k)
  else writei devtab i src off n s = Ok (-1, s).
Proof.
  intros Hp Hty Ho Hn. change (MAXFILE * BSIZE) with 71680. case_decide as Hd.
  - intros H L R k Hinv Hm Hf Hsrc Hroom Hfree Hnf. destruct (span_spec off n) as [Hk1 Hk2]; [lia..|].
    destruct (wp_ok (writei devtab i src off n) (λ r s', r = n ∧ ∃ p' L', fs_inv s' H L' R ∧
      (length L' ≤ length L + (6 * k + 1))%nat ∧ file_in s' i p' ∧
      file_written s s' i p p' off (take (Z.to_nat n) src) (2 * k)) s)
      as (r & s' & Hrun & -> & p' & L' & Hinv' & HL' & Hf' & Hfw).
    { eapply (wp_writei_file devtab no_panic i p src off n); try done; try lia. eauto 10. }
    eauto 10.
  - by apply (writei_refuses s i p).
Qed.

(** C16. What [writei] wrote is what [readi] reads: after a write of [n] bytes,
    reading [n] bytes at the same offset returns exactly those bytes. *)
Theorem writei_readi s H L R i p src off n :
  fs_inv s H L R → meta_used s → file_in s i p → 1 ≤ i_nlink p → 0 ≤ off ≤ i_size p →
  0 ≤ n ≤ Z.of_nat (length src) → off + n ≤ MAXFILE * BSIZE → let k := span off n in
  room s L (6 * k + 1) → (S (length H) + length L + 6 * k < NBUF)%nat →
  (length H + (length L + (6 * k + 1)) < NBUF)%nat → (2 * k ≤ nfree (fview s) (fsb s))%nat →
  ∃ s2, (writei devtab i src off n ≫= λ _, readi devtab i off n) s = Ok ((n, take (Z.to_nat n) src), s2).
Proof.
  intros Hinv Hm Hf Hnl Ho Hn Hhi k Hroom Hfree Hfree2 Hnf. pose proof Hf as [Hp Hok Hw Hdi Hty Hi].
  destruct (span_spec off n) as [Hk1 Hk2]; [lia..|]. change (MAXFILE * BSIZE) with 71680 in *.
  set (data := take (Z.to_nat n) src). assert (length data = Z.to_nat n) as Hld by (unfold data; rewrite length_take; lia).
  destruct (wp_ok (writei devtab i src off n ≫= λ _, readi devtab i off n) (λ r _, r = (n, data)) s) as (r & s2 & Hrun & ->); [|eauto].
  apply wp_bind. eapply (wp_writei devtab no_panic i p src off n k); try done; try lia.
  intros p' s' L' Hinv' HL' _ []. assert (i_size p' = Z.max (i_size p) (off + n)) as Hsz.
  { rewrite fw_inode. cbn. fold data. rewrite Hld. lia. }
  eapply (wp_readi devtab no_panic i p' off n H L' R); try done; try lia.
  - rewrite fw_icache. apply list_lookup_insert_eq. by eapply lookup_lt_Some.
  - by rewrite fw_inode.
  - by rewrite fw_inode.
  - intros s2 _ _ _. cbn zeta. replace (Z.min n (i_size p' - off)) with n by lia. f_equal.
    rewrite fw_contents. fold data. rewrite <- Hld. apply slice_splice_same.
    destruct Hok as (_ & Hsize & Hmap). rewrite contents_fdata, length_take, length_fdata; try done; try (intros; by eapply fview_512).
    cbn [i_disk di_size]. lia.
Qed.
End theorems.

(** ** The root directory of the image of mkfs.c *)
Lemma fs2_meta : meta_used fs2.
Proof. exact fs0_meta. Qed.
Lemma demo_table : nz (ftab demo_view (i_addrs root_read)) = [59].
Proof. vm_compute. reflexivity. Qed.
Lemma root_owns : wfile (fview fs2) (fsb fs2) (i_addrs root_read).
Proof.
  apply (wfile_ext demo_view); [intros b; symmetry; apply fs2_view|]. constructor.
  - vm_compute. reflexivity.
  - rewrite demo_table. apply NoDup_singleton.
  - rewrite demo_table. intros a ->%list_elem_of_singleton. vm_compute. auto.
Qed.
Lemma root_file_in : file_in fs2 0 root_read.
Proof.
  constructor; [reflexivity|exact root_file|exact root_owns| |vm_compute; congruence|split; vm_compute; congruence].
  split_and!; [|vm_compute; congruence|vm_compute; congruence|vm_compute; reflexivity|]; apply (bool_decide_unpack _); vm_compute; exact I.
Qed.
Lemma fs2_free : (100 ≤ nfree (fview fs2) (fsb fs2))%nat.
Proof. rewrite (nfree_ext _ demo_view) by exact fs2_view. apply (bool_decide_unpack _). vm_compute. exact I. Qed.

(** Sixteen bytes appended to the directory: a block is allocated. And a write
    whose end wraps around to 400, below the maximum size: it is refused. *)
Lemma writei_writes_witness : (∃ p' s', writei [] 0 (replicate 16 7) 512 16 fs2 = Ok (16, s') ∧
  icache s' !! 0%nat = Some p' ∧ i_size p' = 528) ∧ writei [] 0 [] 500 4294967196 fs2 = Ok (-1, fs2).
Proof.
  assert (i_size root_read = 512) as Hsz by (vm_compute; reflexivity).
  assert (i_type root_read ≠ T_DEV) as Hty by (vm_compute; congruence). split.
  - pose proof (writei_writes [] fs2 0 root_read (replicate 16 7) 512 16) as Ht. rewrite Hsz in Ht.
    destruct (Ht eq_refl Hty ltac:(lia) ltac:(lia) [] [] [0%nat]) as (p' & s' & L' & Hrun & _ & _ & [Hp' _ _ _ _ _] & Hw).
    + exact fs2_inv.
    + exact fs2_meta.
    + exact root_file_in.
    + cbn. lia.
    + vm_compute. reflexivity.
    + vm_compute. lia.
    + pose proof fs2_free. change (span 512 16) with 1%nat. lia.
    + exists p', s'. split_and!; [exact Hrun|exact Hp'|]. rewrite (fw_inode _ _ _ _ _ _ _ _ Hw). cbn [after_write set_i_size i_size]. rewrite Hsz. reflexivity.
  - pose proof (writei_writes [] fs2 0 root_read [] 500 4294967196 eq_refl Hty) as Ht. rewrite Hsz in Ht. apply Ht; lia.
Defined.

Lemma writei_readi_witness :
  ∃ s2, (writei [] 0 (replicate 16 7) 512 16 ≫= λ _, readi [] 0 512 16) fs2 = Ok ((16, replicate 16 7), s2).
Proof.
  destruct (writei_readi [] fs2 [] [] [0%nat] 0 root_read (replicate 16 7) 512 16) as (s2 & Hrun).
  - exact fs2_inv.
  - exact fs2_meta.
  - exact root_file_in.
  - vm_compute. congruence.
  - assert (i_size root_read = 512) as -> by (vm_compute; reflexivity). lia.
  - cbn. lia.
  - change (MAXFILE * BSIZE) with 71680. lia.
  - vm_compute. reflexivity.
  - vm_compute. lia.
  - vm_compute. lia.
  - pose proof fs2_free. change (span 512 16) with 1%nat. lia.
  - exists s2. exact Hrun.
Defined.
