(* ===== verification/FileTheorems.v ===== *)
(** * Correctness of file operations

    Writing through an open file, with and without power failures, and the
    end of a file without links. *)

From S2P Require Import Prelude Spinlock CString Ide Drive Bio BioFacts Layout Mkfs Log LogDisk LogFacts LogSpecs LogCrash Fs FsFacts FsInodes FsFiles FsTable FsWrite FsWritei FsTrunc FsDirs FsLink FsPaths FsNames File FileFacts Boot Demo NameTheorems WriteTheorems.

Section theorems.
Context {D X : Type} {dev : IdeDevice D} {dok : IdeDeviceOk D}.
Context (devtab : list (@devsw D X)).

Lemma filewrite_appends (s : fls D X) f x i p R addr n :
  writing s f x i p R → f_type x = FD_INODE → f_writable x ≠ 0 → 0 ≤ n ≤ Z.of_nat (length addr) →
  f_off x + n ≤ 71680 → (8 * chunks n ≤ nfree (fview (ffs s)) (fsb (ffs s)))%nat →
  ∃ p' s', filewrite devtab f addr n s = Ok (n, s') ∧
    appended s s' f x i p p' R (take (Z.to_nat n) addr) (8 * chunks n).
Proof.
  intros Hw Ht Hwr Hn Hhi Hnf.
  destruct (wp_ok (filewrite devtab f addr n) (λ r s', r = n ∧ ∃ p', appended s s' f x i p p' R (take (Z.to_nat n) addr) (8 * chunks n)) s)
    as (r & s' & Hrun & -> & p' & Hap); [|by eauto].
  unfold filewrite. apply wp_bind. eapply wp_getopt; [apply Hw|].
  rewrite (proj2 (Z.eqb_neq _ _) Hwr), bool_decide_true by done. apply wp_bind.
  assert (chunks n ≤ Z.to_nat n)%nat as Hc.
  { unfold chunks. assert ((n + 1535) / 1536 < n + 1); [|lia]. apply Z.div_lt_upper_bound; lia. }
  eapply wp_filewrite_loop; rewrite ?Z.sub_0_r; [exact Hw|lia|lia|lia|done|lia|].
  intros p' s' Hap. apply wp_ret. rewrite Z.eqb_refl. eauto.
Qed.

(** C12. Writing to an open file. [filewrite] of [n] bytes at the offset of the
    file returns [n]; the file on the platter, found through its inode on the
    platter, is the old one with the bytes put in at the offset, which is
    moved behind them; the log is empty again. *)
Theorem filewrite_durable (s : fls D X) f x i p R addr n :
  writing s f x i p R → f_type x = FD_INODE → f_writable x ≠ 0 → 0 ≤ n ≤ Z.of_nat (length addr) →
  f_off x + n ≤ MAXFILE * BSIZE → (8 * chunks n ≤ nfree (fview (ffs s)) (fsb (ffs s)))%nat →
  ∃ p' s', filewrite devtab f addr n s = Ok (n, s') ∧ writing s' f (set_f_off (f_off x + n) x) i p' R ∧
    file_data (platter (fio (ffs s'))) (fsb (ffs s)) (i_inum p) =
    splice (Z.to_nat (f_off x)) (take (Z.to_nat n) addr) (file_data (platter (fio (ffs s))) (fsb (ffs s)) (i_inum p)).
Proof.
  change (MAXFILE * BSIZE) with 71680. intros Hw Ht Hwr Hn Hhi Hnf.
  destruct (filewrite_appends s f x i p R addr n) as (p' & s' & Hrun & Hap); [done..|]. exists p', s'. split; [done|].
  pose proof Hap as [Hw' Hi Hco _ _ Hsb _ _].
  assert (Z.of_nat (length (take (Z.to_nat n) addr)) = n) as Hl by (rewrite length_take; lia). rewrite Hl in Hw'. split; [done|].
  rewrite (platter_file_data _ _ _ _ _ _ Hw), <- Hco, <- (platter_file_data _ _ _ _ _ _ Hw'), Hsb. by rewrite Hi.
Qed.

(** C4. Power failures during a write. When power is lost anywhere in
    [filewrite], and any number of times during the recovery that follows,
    [initlog] leaves a file that holds the bytes up to a boundary of a chunk
    of 1536 bytes, or all of them, and is unchanged otherwise. *)
Theorem filewrite_crash_safe (s : fls D X) f x i p R addr n :
  writing s f x i p R → f_type x = FD_INODE → f_writable x ≠ 0 → 0 ≤ n ≤ Z.of_nat (length addr) →
  f_off x + n ≤ MAXFILE * BSIZE → (8 * chunks n ≤ nfree (fview (ffs s)) (fsb (ffs s)))%nat →
  ∃ s', filewrite devtab f addr n s = Ok (n, s') ∧
    ∀ r1 r2, lost (fio (ffs s)) (fio (ffs s')) r1 → rtc (power_lost (initlog ROOTDEV)) r1 r2 →
    ∃ r3 m, initlog ROOTDEV r2 = Ok (tt, r3) ∧ 0 ≤ m ≤ n ∧ (m = n ∨ (1536 | m)) ∧
      file_data (view (lio r3)) (fsb (ffs s)) (i_inum p) =
      splice (Z.to_nat (f_off x)) (take (Z.to_nat m) addr) (file_data (platter (fio (ffs s))) (fsb (ffs s)) (i_inum p)).
Proof.
  change (MAXFILE * BSIZE) with 71680. intros Hw Ht Hwr Hn Hhi Hnf.
  destruct (filewrite_appends s f x i p R addr n) as (p' & s' & Hrun & Hap); [done..|]. exists s'. split; [done|].
  intros r1 r2 Hl Hr. destruct (ap_crash _ _ _ _ _ _ _ _ _ _ Hap r1 r2 Hl Hr) as (r3 & Hin & _ & m & Hm & Hd & Hf).
  rewrite length_take in Hm, Hd. exists r3, (Z.of_nat m). split_and!; [done|lia|lia| |].
  - destruct Hd as [->|Hd]; [left; lia|by right].
  - rewrite (platter_file_data _ _ _ _ _ _ Hw), Hf, Nat2Z.id, take_take. do 2 f_equal. lia.
Qed.

Lemma icache_view ic (s : fss D X) b : fview (set_icache ic s) b = fview s b.
Proof. reflexivity. Qed.
Lemma file_in_nlink (s : fss D X) i p v : file_in s i p → -32768 ≤ v < 32768 →
  file_in (set_icache (<[i:=set_i_nlink v p]> (icache s)) s) i (set_i_nlink v p).
Proof.
  intros [Hp Hok Hw (Hs & Hz & Ha & Haa) Ht Hi] Hv. constructor; try done.
  - apply list_lookup_insert_eq. by eapply lookup_lt_Some.
  - split_and!; [|apply Hz|apply Hz|done|done]. rewrite !Forall_cons in *. cbn in *. split_and!; [lia..|constructor].
Qed.

(** C13. The end of a file. When the last reference to an inode without links is
    put back, exactly the blocks of the file become free, the inode on the
    disk is free, every other inode and every other block is as before, and
    the slot of the inode cache is free; nothing reaches the platter before
    the transaction ends. *)
Theorem iput_frees (s : fss D X) H L R i p :
  fs_inv s H L (i :: R) → file_in s i p → i_valid p ≠ 0 → i_nlink p = 0 → i_ref p = 1 →
  room s L 3 → (S (length H) + S (S (length L)) < NBUF)%nat →
  ∃ s' L', iput i s = Ok (tt, s') ∧ fs_inv s' H L' R ∧ (length L' ≤ length L + 2)%nat ∧
    (∀ b, 0 ≤ b < sb_size (fsb s) → used (fview s') (fsb s) b =
       if decide (b ∈ nz (ftab (fview s) (i_addrs p))) then false else used (fview s) (fsb s) b) ∧
    free_inode s' (i_inum p) ∧
    (∀ m, 0 ≤ m < sb_ninodes (fsb s) → m ≠ i_inum p → disk_inode s' m = disk_inode s m) ∧
    (∀ b, b ≠ sb_bmapstart (fsb s) → b ≠ IBLOCK (i_inum p) (fsb s) → fview s' b = fview s b) ∧
    icache s' = <[i:=dropped p]> (icache s) ∧ ∀ b, platter (fio s') b = platter (fio s) b.
Proof.
  intros Hinv [Hp (Hd & _) Hw Hdi _ Hi] Hv Hl Hr Hroom Hbuf.
  destruct (wp_run (iput i) (λ s', ∃ L', fs_inv s' H L' R ∧ (length L' ≤ length L + 2)%nat ∧ trunc_disk s s' p ∧
    disk_inode s' (i_inum p) = i_disk (unlinked p) ∧ icache s' = <[i:=dropped p]> (icache s) ∧
    ∀ b, platter (fio s') b = platter (fio s) b) s) as (s' & Hrun & L' & Hinv' & HL & [] & Hdk & Hic & Hpl).
  { eapply wp_iput_free; [done..|]. intros s' L1 HL1%bm_logged_length Hinv' Htd Hdk Hs Hic.
    pose proof (logged_length L1 (IBLOCK (i_inum p) (fsb s))).
    exists (logged L1 (IBLOCK (i_inum p) (fsb s))). split_and!; [done|lia|done|by apply Hdk|done|apply Hs]. }
  exists s', L'. split_and!; try done. unfold free_inode. by rewrite Hdk.
Qed.
(** C14. Adding a name to a directory that is below the maximum size, with log
    and disk room for one entry. When [name] is in the directory already,
    [dirlink] returns -1 and changes no block. Otherwise it returns 0, and the
    sixteen bytes of one entry are all that changes of the directory: those of
    the first free entry, or, only when every entry is in use, sixteen new ones
    at the end. Afterwards [name] is found there with the inode number given,
    every other name is found as before, no other inode and no block of another
    file has changed, and the directory is whole. *)
Theorem dirlink_links (s : fss D X) H L R i p name inum :
  fs_inv s H L R → meta_used s → file_in s i p → dir_ok (fview s) p → bytes name → readable DIRSIZ name →
  0 < inum < 65536 → (length R < NINODE)%nat → i_size p + 16 ≤ MAXFILE * BSIZE →
  room s L 7 → (S (length H) + length L + 6 < NBUF)%nat → (2 ≤ nfree (fview s) (fsb s))%nat →
  let c := contents (fview s) (i_disk p) in
  match dir_lookup name c with
  | Some _ => ∃ s', dirlink devtab i name inum s = Ok (-1, s') ∧ fs_inv s' H L R ∧ ∀ b, fview s' b = fview s b
  | None => ∃ p' s' L' off e, let c' := contents (fview s') (i_disk p') in
      dirlink devtab i name inum s = Ok (0, s') ∧ fs_inv s' H L' R ∧
      (length L' ≤ length L + 7)%nat ∧ file_in s' i p' ∧ dir_ok (fview s') p' ∧
      first_free c off ∧ length e = 16%nat ∧ c' = splice (Z.to_nat off) e c ∧
      dir_lookup name c' = Some (inum, off) ∧ i_size p' = Z.max (i_size p) (off + 16) ∧
      (∀ nm, cname DIRSIZ nm ≠ cname DIRSIZ name → dir_lookup nm c' = dir_lookup nm c) ∧
      (∀ m, 0 ≤ m < sb_ninodes (fsb s) → m ≠ i_inum p → disk_inode s' m = disk_inode s m) ∧
      (∀ a, sb_bmapstart (fsb s) < a < sb_size (fsb s) → used (fview s) (fsb s) a = true →
         a ∉ nz (ftab (fview s) (i_addrs p)) → fview s' a = fview s a)
  end.
Proof.
  change (MAXFILE * BSIZE) with 71680. intros Hinv Hm Hf Hd Hb Hr Hin HR Hhi Hroom Hbuf Hnf c.
  destruct (dir_lookup name c) as [r|] eqn:Hl; unfold c in *.
  - destruct (wp_ok (dirlink devtab i name inum) (λ r s', r = -1 ∧ fs_inv s' H L R ∧ ∀ b, fview s' b = fview s b) s)
      as (? & s' & Hrun & -> & ? & ?); [|eauto].
    eapply wp_dirlink; try done; [|congruence]. intros _ _ s' Hinv' Hs'. split_and!; [done..|apply Hs'].
  - destruct (wp_ok (dirlink devtab i name inum) (λ r s', r = 0 ∧ ∃ p' L' off n, fs_inv s' H L' R ∧
      (length L' ≤ length L + 7)%nat ∧ file_in s' i p' ∧ dir_ok (fview s') p' ∧
      dir_linked s s' p p' name inum off ∧ file_written s s' i p p' off n 2 ∧ length n = 16%nat) s)
      as (? & s' & Hrun & -> & p' & L' & off & n & ? & ? & ? & ? & [? ? ? _ ?] & [] & Hn).
    { eapply wp_dirlink; try done; [congruence|]. intros _ p' s' L' off n. eauto 12. }
    exists p', s', L', off, n. split_and!; try done. by rewrite fw_inode, Hn.
Qed.
End theorems.

(** ** The root directory, open for writing at its end *)
Definition demo_file : file := mk_file FD_INODE 1 1 1 (Some 0%nat) 512.
Definition open_root : fls drive unit := mk_fls fs2 [demo_file].
Lemma root_writing : writing open_root 0 demo_file 0 root_read [0%nat].
Proof.
  assert (∀ b, platter (fio fs2) b = demo_view b) as Hp.
  { intros b. change (platter (lio log0) b = demo_view b). unfold platter. cbn [lio log0].
    destruct cache0_ok as (_ & _ & ->). reflexivity. }
  constructor; cbn [ffs ftable open_root].
  - exact fs2_inv.
  - exact fs2_meta.
  - unfold sb_current. rewrite Hp. split; vm_compute; reflexivity.
  - vm_compute. congruence.
  - reflexivity.
  - reflexivity.
  - exact root_file_in.
  - vm_compute. congruence.
  - left.
  - unfold disk_inode. rewrite fs2_view. vm_compute. reflexivity.
  - assert (i_size root_read = 512) as -> by (vm_compute; reflexivity). cbn. lia.
Qed.

Lemma filewrite_durable_witness : ∃ s', filewrite [] 0 (replicate 2000 7) 2000 open_root = Ok (2000, s') ∧
  file_data (platter (fio (ffs s'))) (fsb fs2) 1 = splice 512 (replicate 2000 7) (file_data (platter (fio fs2)) (fsb fs2) 1).
Proof.
  destruct (filewrite_durable [] open_root 0 demo_file 0 root_read [0%nat] (replicate 2000 7) 2000)
    as (p' & s' & Hrun & _ & Hd);
    [exact root_writing|reflexivity|discriminate|split; vm_compute; congruence|vm_compute; congruence| |exists s'; split; [exact Hrun|exact Hd]].
  pose proof fs2_free. change (chunks 2000) with 2%nat. cbn [ffs open_root]. lia.
Defined.

Lemma filewrite_crash_safe_witness : ∃ s', filewrite [] 0 (replicate 2000 7) 2000 open_root = Ok (2000, s') ∧
  ∀ r1 r2, lost (fio fs2) (fio (ffs s')) r1 → rtc (power_lost (initlog ROOTDEV)) r1 r2 →
  ∃ r3 m, initlog ROOTDEV r2 = Ok (tt, r3) ∧ 0 ≤ m ≤ 2000 ∧ (m = 2000 ∨ (1536 | m)) ∧
    file_data (view (lio r3)) (fsb fs2) 1 =
    splice 512 (take (Z.to_nat m) (replicate 2000 7)) (file_data (platter (fio fs2)) (fsb fs2) 1).
Proof.
  apply (filewrite_crash_safe [] open_root 0 demo_file 0 root_read [0%nat] (replicate 2000 7) 2000);
    [exact root_writing|reflexivity|discriminate|split; vm_compute; congruence|vm_compute; congruence|].
  pose proof fs2_free. change (chunks 2000) with 2%nat. cbn [ffs open_root]. lia.
Defined.

(** The same directory after its last link was removed. *)
Definition root_unlinked : inode := set_i_nlink 0 root_read.
Definition fs3 : fss drive unit := set_icache (<[0%nat:=root_unlinked]> (icache fs2)) fs2.
Lemma fs3_inv : fs_inv fs3 [] [] [0%nat].
Proof.
  eapply fs_inv_icache; [exact fs2_inv|]. eapply (icache_ok_update _ _ _ root_read); [apply fs2_inv|reflexivity..|].
  vm_compute. reflexivity.
Qed.
Lemma unlinked_file_in : file_in fs3 0 root_unlinked.
Proof. apply file_in_nlink; [exact root_file_in|lia]. Qed.
Lemma nlink_addrs v p : i_addrs (set_i_nlink v p) = i_addrs p.
Proof. reflexivity. Qed.
Lemma unlinked_addrs : i_addrs root_unlinked = i_addrs root_read.
Proof. apply nlink_addrs. Qed.
Lemma fs3_view b : fview fs3 b = demo_view b.
Proof. unfold fs3. rewrite icache_view. apply fs2_view. Qed.
Lemma iput_frees_witness : ∃ s', iput 0 fs3 = Ok (tt, s') ∧ free_inode s' 1 ∧ used (fview s') (fsb fs3) 59 = false.
Proof.
  destruct (iput_frees fs3 [] [] [] 0 root_unlinked) as (s' & L' & Hrun & _ & _ & Hu & Hf & _);
    [exact fs3_inv|exact unlinked_file_in|vm_compute; congruence|reflexivity|reflexivity|
     vm_compute; reflexivity|cbn; unfold NBUF; lia|].
  assert (i_inum root_unlinked = 1) as Hn by (vm_compute; reflexivity). rewrite Hn in Hf.
  exists s'. split_and!; [exact Hrun|exact Hf|]. rewrite Hu by (vm_compute; intuition congruence).
  rewrite unlinked_addrs, (ftab_ext (fview fs3) demo_view) by exact fs3_view. rewrite demo_table. reflexivity.
Defined.

(** A second name, "a", for the inode of "init": it goes into the entry after
    those of ".", ".." and "init", the first free one of the 32. *)
Lemma dirlink_links_witness : ∃ p' s', dirlink [] 0 [97; 0] 2 fs2 = Ok (0, s') ∧ icache s' !! 0%nat = Some p' ∧
  dir_lookup [97; 0] (contents (fview s') (i_disk p')) = Some (2, 48) ∧ i_size p' = 512.
Proof.
  pose proof (dirlink_links [] fs2 [] [] [0%nat] 0 root_read [97; 0] 2) as Ht. cbn zeta in Ht.
  rewrite (contents_ext (fview fs2) demo_view) in Ht by exact fs2_view.
  assert (dir_lookup [97; 0] (contents demo_view (i_disk root_read)) = None) as Hl by (vm_compute; reflexivity).
  rewrite Hl in Ht. destruct Ht as (p' & s' & L' & off & e & Hrun & _ & _ & [Hp' _ _ _ _ _] & _ & (k & -> & Hused & Hfree) & _ & _ & Hfound & Hsz & _).
  - exact fs2_inv.
  - exact fs2_meta.
  - exact root_file_in.
  - exact root_dir.
  - apply (bool_decide_unpack _). vm_compute. exact I.
  - right. apply (bool_decide_unpack _). vm_compute. exact I.
  - lia.
  - cbn. unfold NINODE. lia.
  - vm_compute. congruence.
  - vm_compute. reflexivity.
  - cbn. unfold NBUF. lia.
  - pose proof fs2_free. lia.
  - assert (length (contents demo_view (i_disk root_read)) = 512%nat ∧ de_inum (dirent_at (contents demo_view (i_disk root_read)) 0) = 1 ∧
      de_inum (dirent_at (contents demo_view (i_disk root_read)) 1) = 1 ∧ de_inum (dirent_at (contents demo_view (i_disk root_read)) 2) = 2 ∧
      de_inum (dirent_at (contents demo_view (i_disk root_read)) 3) = 0) as (Hlen & H0 & H1 & H2 & H3) by (vm_compute; split_and!; reflexivity).
    rewrite Hlen in Hfree. assert (k = 3%nat) as ->.
    { destruct (decide (3 < k)%nat) as [Hgt|Hle]; [exfalso; exact (Hused 3%nat Hgt H3)|].
      destruct (decide (16 * k < 512)%nat) as [_|Hge]; [|lia].
      destruct k as [|[|[|k]]]; [rewrite H0 in Hfree; discriminate Hfree|rewrite H1 in Hfree; discriminate Hfree|rewrite H2 in Hfree; discriminate Hfree|lia]. }
    exists p', s'. split_and!; [exact Hrun|exact Hp'|exact Hfound|]. rewrite Hsz. vm_compute. reflexivity.
Defined.
