(* ===== verification/CreateTheorems.v ===== *)
(** * Correctness of creating files, devices and directories

    [create] on every branch, and [mknod] and [mkdir] as transactions that
    survive power failures as a whole or not at all. *)

From S2P Require Import Prelude Spinlock CString Ide Drive Bio BioFacts Layout Mkfs Log LogDisk LogFacts LogSpecs LogCrash Fs FsFacts FsInodes FsFiles FsTable FsWrite FsWritei FsDirs FsLink FsPaths FsNames FsTree FsNodes File FileFacts FileCreate FileTxn Boot Demo NameTheorems WriteTheorems.

Section theorems.
Context {D X : Type} {dev : IdeDevice D} {dok : IdeDeviceOk D}.
Context (devtab : list (@devsw D X)).

(** The file system [t] between two transactions, with what [create] of the
    path [l] needs: a free inode, free blocks, a parent directory that is not
    full, and room in the log and the inode cache. *)
Record can_create (t : fss D X) (R : list nat) (l tl name : list Z) (n0 : Z) : Prop := {
  cc_good : fs_good t [] [] R;
  cc_root : linked (fview t) (fsb t) ROOTINO;
  cc_refs : (length R + 3 < NINODE)%nat;
  cc_path : (0 ∉ l) ∧ bytes (l ++ 0 :: tl);
  cc_name : bytes name ∧ length name = DIRSIZ;
  cc_log : 24 < log_size (lg (flog t));
  cc_blocks : (6 ≤ nfree (fview t) (fsb t))%nat;
  cc_inode : 1 ≤ n0 < sb_ninodes (fsb t) ∧ free_inode t n0;
  cc_parent d : resolve (fview t) (fsb t) true (components l) ROOTINO = Some d →
    di_size (inode_at (fview t) (fsb t) d) + 16 ≤ MAXFILE * BSIZE ∧ di_nlink (inode_at (fview t) (fsb t) d) < 32767;
}.

Lemma can_create_space (t : fss D X) R l tl name n0 d : can_create t R l tl name n0 →
  resolve (fview t) (fsb t) true (components l) ROOTINO = Some d → has_space (fview t) (fsb t) d.
Proof. intros [_ _ _ _ _ _ Hnf Hf0 Hlim] Hd. constructor; [done|by exists n0|by apply Hlim]. Qed.

(** C7. [create] on a file system whose directories are whole. Without a parent
    directory it returns null. When the path leads to an inode already, it
    returns that inode if both are files and null otherwise, and changes
    nothing. Otherwise it returns a reference to an inode that was free, with
    the type and numbers given and one link; the path leads to it now, every
    path that led somewhere leads there still, the directory has no other new
    name, and no other inode or its contents has changed. A new directory has
    the entries "." and "..". *)
Theorem create_creates (s : fls D X) R l tl type major minor name n0 :
  let t := ffs s in let V := fview t in let sb := fsb t in let es := components l in
  can_create t R l tl name n0 → 0 < type < 32768 →
  match resolve V sb true es ROOTINO, resolve V sb false es ROOTINO with
  | Some d, None => ∃ ip n nm t' L', create devtab (l ++ 0 :: tl) type major minor name s = Ok (Some ip, set_ffs t' s) ∧
      created t t' [] [] L' R nm type major minor ip n d ∧ cname DIRSIZ nm = take DIRSIZ (default [] (last es)) ∧
      resolve (fview t') sb false es ROOTINO = Some n ∧
      (∀ es' m, resolve V sb false es' ROOTINO = Some m → resolve (fview t') sb false es' ROOTINO = Some m)
  | Some d, Some m =>
      if (type =? T_FILE) && (di_type (inode_at V sb m) =? T_FILE) then
        ∃ ip t', create devtab (l ++ 0 :: tl) type major minor name s = Ok (Some ip, set_ffs t' s) ∧
          fs_good t' [] [] (ip :: R) ∧ slot_of t' ip m ∧ ∀ b, fview t' b = V b
      else ∃ t', create devtab (l ++ 0 :: tl) type major minor name s = Ok (None, set_ffs t' s) ∧
        fs_good t' [] [] R ∧ ∀ b, fview t' b = V b
  | None, _ => ∃ t', create devtab (l ++ 0 :: tl) type major minor name s = Ok (None, set_ffs t' s) ∧
      fs_good t' [] [] R ∧ ∀ b, fview t' b = V b
  end.
Proof.
  intros t V sb es Hcc Hty. pose proof Hcc as [Hg Hroot HR [H0 Hbl] [Hbn Hln] Hlog _ _ _].
  pose proof (tr_dirs _ _ (fg_tree _ _ _ _ Hg)) as Htree.
  pose proof (λ Q, wp_create devtab no_panic l tl type major minor name [] [] R Q s Hg Hroot ltac:(lia) H0 Hbl Hbn Hln Hlog
    ltac:(unfold NBUF; cbn [length]; lia) Hty (λ d Hd _, can_create_space _ _ _ _ _ _ d Hcc Hd)) as Hwp. fold t V sb es in Hwp.
  set (c := create _ _ _ _ _ _) in *.
  assert (∀ P : fss D X → Prop, (∀ Q : option nat → fls D X → Prop, (∀ t', P t' → Q None (set_ffs t' s)) → wp no_panic c Q s) →
    ∃ t', c s = Ok (None, set_ffs t' s) ∧ P t') as Hnone.
  { intros P HP. destruct (wp_ok c (λ r s', r = None ∧ ∃ t', s' = set_ffs t' s ∧ P t') s) as (r & s' & Hrun & -> & t' & -> & Ht'); eauto. }
  destruct (resolve V sb true es ROOTINO) as [d|] eqn:Hd.
  2: { apply Hnone. intros Q HQ. apply Hwp; try congruence. intros _ t' Hg' Hs'. apply HQ. split; [done|apply Hs']. }
  destruct (resolve V sb false es ROOTINO) as [m|] eqn:Hm.
  - destruct ((type =? T_FILE) && (di_type (inode_at V sb m) =? T_FILE)) eqn:Hb.
    + destruct (wp_ok c (λ r s', ∃ ip t', r = Some ip ∧ s' = set_ffs t' s ∧ fs_good t' [] [] (ip :: R) ∧ slot_of t' ip m ∧
        ∀ b, fview t' b = V b) s) as (r & s' & Hrun & ip & t' & -> & -> & ?); [|by eauto].
      apply Hwp; try congruence. intros d' m' _ [= <-]. rewrite Hb. intros ip t' Hg' Hs' Hsl. exists ip, t'. split_and!; [done..|apply Hs'].
    + apply Hnone. intros Q HQ. apply Hwp; try congruence. intros d' m' _ [= <-]. rewrite Hb. intros t' Hg' Hs'.
      apply HQ. split; [done|apply Hs'].
  - destruct (wp_ok c (λ r s', ∃ ip n nm t' L', r = Some ip ∧ s' = set_ffs t' s ∧ created t t' [] [] L' R nm type major minor ip n d ∧
      cname DIRSIZ nm = take DIRSIZ (default [] (last es)) ∧ resolve (fview t') sb false es ROOTINO = Some n) s)
      as (r & s' & Hrun & ip & n & nm & t' & L' & -> & -> & Hcr & Hnm & Hp).
    { apply Hwp; try congruence. intros d' [= <-] _ nm ip n t' L' Hcr Hnm Hp. exists ip, n, nm, t', L'. done. }
    exists ip, n, nm, t', L'. split_and!; try done. intros es' m Hm'. eapply resolve_grows; [done|apply Hcr|done|done].
Qed.

(** The disk [V'] has the tree of [V]: the same paths, inodes and contents. *)
Definition old_tree (sb : superblock) (V V' : disk) : Prop :=
  (∀ es, resolve V' sb false es ROOTINO = resolve V sb false es ROOTINO) ∧ unchanged sb V V'.
(** It has that tree and the new inode [n] of the directory [d] at [es]. *)
Definition new_tree (sb : superblock) (V V' : disk) (es : list (list Z)) (type major minor n d : Z) : Prop :=
  resolve V' sb false es ROOTINO = Some n ∧ ¬ live sb V n ∧
  made type (s16 major) (s16 minor) V' (inode_at V' sb n) n d ∧
  (∀ es' m, resolve V sb false es' ROOTINO = Some m → resolve V' sb false es' ROOTINO = Some m) ∧ others sb V V' n d.

Lemma entered_tree (t t' : fss D X) R es type major minor n d V :
  fs_good t [] [] R → linked (fview t) (fsb t) ROOTINO → entered t t' R es type major minor n d →
  unchanged (fsb t) (fview t') V → new_tree (fsb t) (fview t) V es type major minor n d.
Proof.
  intros Hg Hroot [Hg' Htx Hfr Hl Hm Hp Hgr Ho] Hu. pose proof (tr_dirs _ _ (fg_tree _ _ _ _ Hg')) as Ht'. rewrite (tx_sb _ _ Htx) in Ht'.
  pose proof (tr_dirs _ _ (fg_tree _ _ _ _ Hg)) as Ht.
  split_and!; [by rewrite (unchanged_resolve _ _ _ Hu) by (done || by apply Hgr)|done|by eapply unchanged_made| |].
  - intros es' m Hm'. rewrite (unchanged_resolve _ _ _ Hu) by (done || by apply Hgr). by eapply resolve_grows.
  - eapply others_trans; [exact Ho|by apply unchanged_others].
Qed.

(** The common part of the next two theorems. *)
Lemma make_entered (s : fls D X) R l tl type major minor name n0 d :
  let t := ffs s in let V := fview t in let sb := fsb t in let es := components l in
  can_create t R l tl name n0 → sb_current (fio t) (lg (flog t)) → 0 < type < 32768 → type ≠ T_FILE →
  resolve V sb true es ROOTINO = Some d → resolve V sb false es ROOTINO = None →
  ∃ n t', (f_begin_op;;
        r ← create devtab (l ++ 0 :: tl) type major minor name;
        match r with None => f_end_op;; mret (-1) | Some ip => fs_do (iput ip);; f_end_op;; mret 0 end) s =
      Ok (0, set_ffs t' s) ∧ entered t t' R es type major minor n d.
Proof.
  intros t V sb es Hcc Hcur Hty Hnt Hd Hno. pose proof Hcc as [Hg Hroot HR [H0 Hbl] [Hbn Hln] Hlog _ _ _].
  set (c := f_begin_op;; _).
  destruct (wp_ok c (λ r s', r = 0 ∧ ∃ n t', s' = set_ffs t' s ∧ entered t t' R es type major minor n d) s)
    as (r & s' & Hrun & -> & n & t' & -> & Hen); [|by exists n, t'].
  unfold c. eapply (wp_make devtab no_panic l tl type major minor name R); try done; [lia|intros d1 Hd1 _; by eapply can_create_space| |].
  - intros [He|He]; fold t V sb es in He; congruence.
  - intros d' Hd' _ n t' Hen. fold t V sb es in Hd'. simplify_eq. eauto.
Qed.
Lemma make_atomic (s : fls D X) R l tl type major minor name n0 d (m : M (fls D X) Z) :
  let t := ffs s in let V := fview t in let sb := fsb t in let es := components l in
  (m = (f_begin_op;;
        r ← create devtab (l ++ 0 :: tl) type major minor name;
        match r with None => f_end_op;; mret (-1) | Some ip => fs_do (iput ip);; f_end_op;; mret 0 end)) →
  can_create t R l tl name n0 → sb_current (fio t) (lg (flog t)) → 0 < type < 32768 → type ≠ T_FILE →
  resolve V sb true es ROOTINO = Some d → resolve V sb false es ROOTINO = None →
  ∃ n t', m s = Ok (0, set_ffs t' s) ∧ fs_good t' [] [] R ∧ new_tree sb V (fview t') es type major minor n d ∧
    crash_outcome t t' (λ V3, tree sb V3 ∧ (old_tree sb V V3 ∨ new_tree sb V V3 es type major minor n d)).
Proof.
  intros t V sb es -> Hcc Hcur Hty Hnt Hd Hno.
  destruct (make_entered s R l tl type major minor name n0 d Hcc Hcur Hty Hnt Hd Hno) as (n & t' & Hrun & Hen).
  pose proof (cc_good _ _ _ _ _ _ Hcc) as Hg. pose proof (cc_root _ _ _ _ _ _ Hcc) as Hroot. pose proof (tr_dirs _ _ (fg_tree _ _ _ _ Hg)) as Ht.
  exists n, t'. split_and!; [done|apply Hen| |].
  - eapply entered_tree; done.
  - eapply crash_outcome_weaken; [|by eapply (transacted_tree t t' R); [..|apply Hen]; [|apply Hen]].
    intros V3 _ [Ht3 [Hu|Hu]]; (split; [done|]); [left|right; by eapply entered_tree].
    split; [|done]. intros es'. by apply unchanged_resolve.
Qed.

(** Creating a device, also when power fails. [mknod] of a path that leads
    nowhere yet, in a directory that exists, returns 0, and the path leads to
    a new device with the numbers given, while every other path leads where it
    did and no other file has changed. When power is lost anywhere in
    [mknod], and any number of times during the recovery that follows,
    [initlog] leaves a whole file system with the old tree or with the new
    one. *)
Theorem mknod_atomic (s : fls D X) R l tl major minor name n0 d :
  let t := ffs s in let V := fview t in let sb := fsb t in let es := components l in
  can_create t R l tl name n0 → sb_current (fio t) (lg (flog t)) →
  resolve V sb true es ROOTINO = Some d → resolve V sb false es ROOTINO = None →
  ∃ n t', mknod devtab (l ++ 0 :: tl) major minor name s = Ok (0, set_ffs t' s) ∧ fs_good t' [] [] R ∧
    new_tree sb V (fview t') es T_DEV major minor n d ∧
    ∀ r1 r2, lost (fio t) (fio t') r1 → rtc (power_lost (initlog ROOTDEV)) r1 r2 →
    ∃ r3, initlog ROOTDEV r2 = Ok (tt, r3) ∧ tree sb (view (lio r3)) ∧
      (old_tree sb V (view (lio r3)) ∨ new_tree sb V (view (lio r3)) es T_DEV major minor n d).
Proof.
  intros t V sb es Hcc Hcur Hd Hno.
  destruct (make_atomic s R l tl T_DEV major minor name n0 d _ eq_refl Hcc Hcur) as (n & t' & ? & ? & ? & Hcr); try done.
  exists n, t'. split_and!; try done. intros r1 r2 Hl Hr. destruct (Hcr r1 r2 Hl Hr) as (r3 & ? & _ & ?). eauto.
Qed.

(** C5. Creating a directory, also when power fails. [mkdir] of a path that leads
    nowhere yet, in a directory that exists, returns 0, and the path leads to
    a new directory with the entries "." for itself and ".." for its parent.
    When power is lost anywhere in [mkdir], and any number of times during
    the recovery that follows, [initlog] leaves a whole file system with the
    old tree or with the new one: never a directory without its entries or an
    entry without its directory. *)
Theorem mkdir_atomic (s : fls D X) R l tl name n0 d :
  let t := ffs s in let V := fview t in let sb := fsb t in let es := components l in
  can_create t R l tl name n0 → sb_current (fio t) (lg (flog t)) →
  resolve V sb true es ROOTINO = Some d → resolve V sb false es ROOTINO = None →
  ∃ n t', mkdir devtab (l ++ 0 :: tl) name s = Ok (0, set_ffs t' s) ∧ fs_good t' [] [] R ∧
    new_tree sb V (fview t') es T_DIR 0 0 n d ∧ dots (fview t') (inode_at (fview t') sb n) n d ∧
    ∀ r1 r2, lost (fio t) (fio t') r1 → rtc (power_lost (initlog ROOTDEV)) r1 r2 →
    ∃ r3, initlog ROOTDEV r2 = Ok (tt, r3) ∧ tree sb (view (lio r3)) ∧
      (old_tree sb V (view (lio r3)) ∨ new_tree sb V (view (lio r3)) es T_DIR 0 0 n d).
Proof.
  intros t V sb es Hcc Hcur Hd Hno.
  destruct (make_atomic s R l tl T_DIR 0 0 name n0 d _ eq_refl Hcc Hcur) as (n & t' & ? & ? & Hnew & Hcr); try done.
  exists n, t'. split_and!; try done.
  - destruct Hnew as (_ & _ & (_ & _ & _ & _ & Hdots) & _). exact Hdots.
  - intros r1 r2 Hl Hr. destruct (Hcr r1 r2 Hl Hr) as (r3 & ? & _ & ?). eauto.
Qed.
End theorems.

(** ** The image of mkfs.c *)
Lemma demo_live n : live mksb demo_view n → n = 1 ∨ n = 2.
Proof.
  intros [Hn Ht].
  assert (Forall (λ n, di_type (inode_at demo_view mksb n) = 0 ∨ n = 1 ∨ n = 2) (seqZ 0 200)) as HF.
  { apply (bool_decide_unpack _). vm_compute. exact I. }
  rewrite Forall_forall in HF. destruct (HF n) as [?|?]; [|done|done]. apply elem_of_seqZ.
  change (sb_ninodes mksb) with 200 in Hn. lia.
Qed.
Lemma demo_owned : owned mksb demo_view 1 = [59] ∧ owned mksb demo_view 2 = [60].
Proof. split; vm_compute; reflexivity. Qed.
Lemma demo_whole n : n = 1 ∨ n = 2 → whole mksb demo_view (inode_at demo_view mksb n).
Proof.
  intros Hn. destruct demo_owned as [Ho1 Ho2]. unfold owned in Ho1, Ho2.
  assert (nblocks_of (di_size (inode_at demo_view mksb n)) = 1%nat) as Hnb by (destruct Hn as [->| ->]; vm_compute; reflexivity).
  constructor.
  - destruct Hn as [->| ->]; (split_and!; [|vm_compute; congruence|vm_compute; congruence|vm_compute; reflexivity|]);
      apply (bool_decide_unpack _); vm_compute; exact I.
  - destruct Hn as [->| ->]; vm_compute; split; congruence.
  - rewrite Hnb. destruct Hn as [->| ->]; [exact demo_mapped|].
    split_and!; [lia|vm_compute; done|vm_compute; congruence|vm_compute; done|]. intros bn Hbn.
    assert (bn = 0%nat) as -> by lia. split_and!; vm_compute; congruence.
  - destruct Hn as [->| ->]; constructor.
    + vm_compute. reflexivity.
    + rewrite Ho1. apply NoDup_singleton.
    + rewrite Ho1. intros a ->%list_elem_of_singleton. vm_compute. auto.
    + vm_compute. reflexivity.
    + rewrite Ho2. apply NoDup_singleton.
    + rewrite Ho2. intros a ->%list_elem_of_singleton. vm_compute. auto.
Qed.
Lemma demo_whole_tree : tree mksb demo_view.
Proof.
  constructor; [exact demo_tree|intros n Hn; by apply demo_whole, demo_live|]. destruct demo_owned as [Ho1 Ho2].
  intros n m a Hn%demo_live Hm%demo_live. revert Ho1 Ho2. generalize (owned mksb demo_view). intros o Ho1 Ho2 Ha Ha'.
  destruct Hn as [->| ->], Hm as [->| ->]; try done; rewrite Ho1 in *; rewrite Ho2 in *;
    apply list_elem_of_singleton in Ha, Ha'; congruence.
Qed.
Lemma demo_resolves es x parent : resolve demo_view mksb parent es ROOTINO = x → resolve (fview fs0) (fsb fs0) parent es ROOTINO = x.
Proof.
  intros <-. apply (resolve_ext (fview fs0) demo_view), fs0_view.
Qed.
Lemma fs0_good : fs_good fs0 [] [] [].
Proof.
  constructor; [|eapply tree_ext; [|exact demo_whole_tree]; intros b; symmetry; apply fs0_view|exact fs0_meta].
  constructor; [exact fs0_inv|reflexivity|done|].
  intros i p Hp H0. cbn [icache fs0 fs_of] in Hp. apply lookup_replicate in Hp as [-> _]. cbn in H0. lia.
Qed.
(** "/a" *)
Definition path_a : list Z := [47; 97].
Lemma fs0_can_create : can_create fs0 [] path_a [] junk 3.
Proof.
  constructor.
  - exact fs0_good.
  - apply (linked_ext mksb demo_view); [exact fs0_view|]. apply demo_linked. by left.
  - cbn. unfold NINODE. lia.
  - split; apply (bool_decide_unpack _); vm_compute; exact I.
  - split; [apply (bool_decide_unpack _); vm_compute; exact I|reflexivity].
  - vm_compute. reflexivity.
  - rewrite (nfree_ext _ demo_view) by exact fs0_view. apply (bool_decide_unpack _). vm_compute. exact I.
  - split; [vm_compute; intuition congruence|]. unfold free_inode, disk_inode. rewrite fs0_view. vm_compute. done.
  - intros d Hd. rewrite (demo_resolves _ (Some 1)) in Hd by (vm_compute; reflexivity). injection Hd as <-.
    unfold inode_at. rewrite fs0_view. split; vm_compute; congruence.
Qed.
Lemma fs0_current : sb_current (fio fs0) (lg (flog fs0)).
Proof.
  assert (platter (fio fs0) 1 = demo_view 1) as Hp.
  { change (platter (lio log0) 1 = demo_view 1). unfold platter. cbn [lio log0]. destruct cache0_ok as (_ & _ & ->). reflexivity. }
  unfold sb_current. rewrite Hp. split; vm_compute; reflexivity.
Qed.
Definition no_files : fls drive unit := mk_fls fs0 [].

Lemma create_creates_witness : ∃ ip n t', create [] (path_a ++ [0]) T_FILE 0 0 junk no_files = Ok (Some ip, set_ffs t' no_files) ∧
  resolve (fview t') (fsb fs0) false [[97]] ROOTINO = Some n ∧ slot_of t' ip n.
Proof.
  pose proof (create_creates [] no_files [] path_a [] T_FILE 0 0 junk 3) as Ht. cbn [ffs no_files] in Ht.
  rewrite (demo_resolves (components path_a) (Some 1) true) in Ht by (vm_compute; reflexivity).
  rewrite (demo_resolves (components path_a) None false) in Ht by (vm_compute; reflexivity).
  destruct Ht as (ip & n & nm & t' & L' & Hrun & [_ Hsl _ _ _ _ _] & _ & Hp & _).
  - exact fs0_can_create.
  - vm_compute. intuition congruence.
  - exists ip, n, t'. split_and!; [exact Hrun|exact Hp|exact Hsl].
Defined.

Lemma mknod_atomic_witness : ∃ n t', mknod [] (path_a ++ [0]) 1 1 junk no_files = Ok (0, set_ffs t' no_files) ∧
  resolve (fview t') (fsb fs0) false [[97]] ROOTINO = Some n.
Proof.
  destruct (mknod_atomic [] no_files [] path_a [] 1 1 junk 3 1) as (n & t' & Hrun & _ & (Hp & _) & _);
    [exact fs0_can_create|exact fs0_current|apply demo_resolves; vm_compute; reflexivity|apply demo_resolves; vm_compute; reflexivity|].
  exists n, t'. split; [exact Hrun|exact Hp].
Defined.

Lemma mkdir_atomic_witness : ∃ n t', mkdir [] (path_a ++ [0]) junk no_files = Ok (0, set_ffs t' no_files) ∧
  resolve (fview t') (fsb fs0) false [[97]] ROOTINO = Some n ∧ dots (fview t') (inode_at (fview t') (fsb fs0) n) n 1.
Proof.
  destruct (mkdir_atomic [] no_files [] path_a [] junk 3 1) as (n & t' & Hrun & _ & (Hp & _) & Hd & _);
    [exact fs0_can_create|exact fs0_current|apply demo_resolves; vm_compute; reflexivity|apply demo_resolves; vm_compute; reflexivity|].
  exists n, t'. split_and!; [exact Hrun|exact Hp|exact Hd].
Defined.
