(* ===== verification/UnlinkTheorems.v ===== *)
(** * Correctness of unlink

    [unlink] removes a name, and the inode with it when that was the last
    link, as a whole or not at all; otherwise it changes nothing. *)

From S2P Require Import Prelude Spinlock CString Ide Drive Bio BioFacts Layout Mkfs Log LogDisk LogFacts LogSpecs LogCrash Fs FsFacts FsInodes FsFiles FsTable FsWrite FsWritei FsDirs FsLink FsPaths FsNames FsTree FsNodes FsUnlink File FileFacts FileCreate FileTxn FileUnlink Boot Demo NameTheorems WriteTheorems CreateTheorems.

Lemma resolve_without_last V sb es m d n off : resolve V sb true es m = Some d →
  dir_lookup (take DIRSIZ (default [] (last es))) (contents V (inode_at V sb d)) = Some (n, off) →
  resolve_without V sb n es m = None.
Proof.
  revert m. induction es as [|e es IH]; intros m; cbn [resolve resolve_without]; [done|].
  destruct (di_type (inode_at V sb m) =? T_DIR); [|done]. cbn [andb]. case_bool_decide as Hes.
  - intros [= <-]. subst es. cbn [last]. change (default [] (Some e)) with e. intros ->. cbn. by rewrite Z.eqb_refl.
  - destruct (dir_lookup _ (contents V (inode_at V sb m))) as [[x o]|]; [|done]. cbn. intros Hr Hl.
    destruct (x =? n); [done|]. apply IH; [done|]. by destruct es.
Qed.

Section theorems.
Context {D X : Type} {dev : IdeDevice D} {dok : IdeDeviceOk D}.
Context (devtab : list (@devsw D X)).

(** The file system [t] between two transactions, with what [unlink] needs. *)
Record can_unlink (t : fss D X) (R : list nat) (l tl name : list Z) : Prop := {
  cu_good : fs_good t [] [] R;
  cu_current : sb_current (fio t) (lg (flog t));
  cu_root : linked (fview t) (fsb t) ROOTINO;
  cu_refs : (length R + 3 < NINODE)%nat;
  cu_path : (0 ∉ l) ∧ bytes (l ++ 0 :: tl);
  cu_name : bytes name ∧ length name = DIRSIZ;
  cu_log : 6 < log_size (lg (flog t));
}.

(** A run of [unlink] that removes a name. *)
Lemma unlink_runs (s : fls D X) R l tl name d n off :
  let t := ffs s in let V := fview t in let sb := fsb t in let es := components l in
  let e := last_elem es in
  can_unlink t R l tl name → resolve V sb true es ROOTINO = Some d → ¬ dots_name e → removable V sb n d e off →
  ∃ t' kept, unlink devtab (l ++ 0 :: tl) name s = Ok (0, set_ffs t' s) ∧ fs_good t' [] [] R ∧ transacted t t' ∧
    removed V sb n (fview t') d off kept ∧ (kept = true ↔ ∃ x, x ∈ R ∧ slot_of t' x n).
Proof.
  intros t V sb es e [Hg Hcur Hroot HR [H0 Hbl] [Hbn Hln] Hlog] Hd Hdn Hrm. set (c := unlink _ _ _).
  pose proof (rm_entry _ _ _ _ _ _ Hrm) as He.
  destruct (resolve_last _ _ _ _ _ Hd) as [HT Hres]. fold V sb (last_elem es) e in Hres. rewrite He in Hres. cbn in Hres.
  destruct (wp_ok c (λ r s', r = 0 ∧ ∃ t' kept, s' = set_ffs t' s ∧ fs_good t' [] [] R ∧ transacted t t' ∧
    removed V sb n (fview t') d off kept ∧ (kept = true ↔ ∃ x, x ∈ R ∧ slot_of t' x n)) s)
    as (r & s' & Hrun & -> & t' & kept & -> & ?); [|by exists t', kept].
  apply (wp_unlink devtab no_panic l tl name R _ s Hg Hcur Hroot ltac:(lia) H0 Hbl Hbn Hln Hlog); fold t V sb es e.
  - intros d' n' off' Hd' _ He'. right. by simplify_eq.
  - intros [Hno|[Hno|[Hno|(n' & Hn' & HTn & Hem)]]]; [congruence|done|congruence|]. fold t V sb es in Hn'. simplify_eq.
    destruct (rm_dir _ _ _ _ _ _ Hrm HTn). congruence.
  - intros d' n' off' Hd' He' _ t' kept Hg' Htx Hrv Hk. simplify_eq. split; [done|]. exists t', kept. done.
Qed.

(** C6. Removing a name, also when power fails. Let the path lead to the inode
    [n] through the entry at [off] of the directory [d], the only link of [n];
    if [n] is a directory it is empty. Then [unlink] returns 0. The path leads
    nowhere now, and every other path leads where it did unless it went
    through [n]. The entry is zero and the rest of [d] is as before, [d] has
    one link less if [n] was a directory, and no other inode or its contents
    has changed. If nobody holds a reference to [n], its inode and all its
    blocks are free; otherwise it is there without links, with its contents.
    When power is lost anywhere in [unlink], and any number of times during
    the recovery that follows, [initlog] leaves a whole file system with the
    old tree or with the new one. *)
Theorem unlink_atomic (s : fls D X) R l tl name d n off :
  let t := ffs s in let V := fview t in let sb := fsb t in let es := components l in
  let e := last_elem es in
  can_unlink t R l tl name → resolve V sb true es ROOTINO = Some d → ¬ dots_name e → removable V sb n d e off →
  ∃ t' kept, unlink devtab (l ++ 0 :: tl) name s = Ok (0, set_ffs t' s) ∧ fs_good t' [] [] R ∧
    resolve (fview t') sb false es ROOTINO = None ∧ removed V sb n (fview t') d off kept ∧
    (kept = true ↔ ∃ x, x ∈ R ∧ slot_of t' x n) ∧
    ∀ r1 r2, lost (fio t) (fio t') r1 → rtc (power_lost (initlog ROOTDEV)) r1 r2 →
    ∃ r3, initlog ROOTDEV r2 = Ok (tt, r3) ∧ tree sb (view (lio r3)) ∧
      (old_tree sb V (view (lio r3)) ∨ removed V sb n (view (lio r3)) d off kept).
Proof.
  intros t V sb es e Hcu Hd Hdn Hrm. destruct (unlink_runs s R l tl name d n off Hcu Hd Hdn Hrm) as (t' & kept & Hrun & Hg' & Htx & Hrv & Hk).
  pose proof Hcu as [Hg _ Hroot _ _ _ _]. fold t V sb in Hg, Hroot, Hrun, Htx, Hrv. pose proof (tr_dirs _ _ (fg_tree _ _ _ _ Hg)) as Htree.
  pose proof (rm_entry _ _ _ _ _ _ Hrm) as He. destruct (resolve_last _ _ _ _ _ Hd) as [_ Hres].
  fold V sb (last_elem es) e in Hres. rewrite He in Hres. cbn in Hres.
  assert (live sb V n) as Hl by (eapply linked_live, (resolve_linked sb V false es ROOTINO); done).
  exists t', kept. split_and!; try done.
  { rewrite (rv_paths _ _ _ _ _ _ _ Hrv). by eapply resolve_without_last. }
  intros r1 r2 Hlost Hr. destruct (tx_crash _ _ Htx r1 r2 Hlost Hr) as (r3 & Hrun3 & _ & HV). exists r3. split; [done|].
  destruct HV as [HV|HV].
  - destruct (home_tree t [] [] R _ Hg HV) as (Hu & Ht3 & _). split; [done|]. left. split; [|done]. intros es'. by apply unchanged_resolve.
  - rewrite <- (tx_start _ _ Htx), <- (tx_lsize _ _ Htx) in HV. destruct (home_tree t' [] [] R _ Hg' HV) as (Hu & Ht3 & Hag).
    rewrite (tx_sb _ _ Htx) in *. split; [done|]. right. eapply (removed_unchanged t t' [] [] [] R R d off e); try done. apply Htx.
Qed.

(** C39. What [unlink] refuses. Without a parent directory, for the names "."
    and "..", for a name that is not there, and for a directory that has
    entries besides its first two, it returns -1; every path leads where it
    did, and no inode or file has changed. *)
Theorem unlink_refuses (s : fls D X) R l tl name :
  let t := ffs s in let V := fview t in let sb := fsb t in let es := components l in
  can_unlink t R l tl name → no_unlink V sb es →
  ∃ t', unlink devtab (l ++ 0 :: tl) name s = Ok (-1, set_ffs t' s) ∧ fs_good t' [] [] R ∧ old_tree sb V (fview t').
Proof.
  intros t V sb es [Hg Hcur Hroot HR [H0 Hbl] [Hbn Hln] Hlog] Hno. set (c := unlink _ _ _).
  destruct (wp_ok c (λ r s', r = -1 ∧ ∃ t', s' = set_ffs t' s ∧ fs_good t' [] [] R ∧ unchanged sb V (fview t')) s)
    as (r & s' & Hrun & -> & t' & -> & Hg' & Hu).
  - apply (wp_unlink devtab no_panic l tl name R _ s Hg Hcur Hroot ltac:(lia) H0 Hbl Hbn Hln Hlog); fold t V sb es.
    + intros d n off Hd Hnd He. left. destruct (resolve_last _ _ _ _ _ Hd) as [_ Hres]. fold V sb (last_elem es) in Hres. rewrite He in Hres. cbn in Hres.
      destruct Hno as [Hno|[Hno|[Hno|(n' & Hn' & Hf)]]]; [congruence|done|congruence|]. by simplify_eq.
    + intros _ t' Hg' Hu _. split; [done|]. by exists t'.
    + intros d n off Hd He Hyes. by destruct Hyes.
  - exists t'. split_and!; [done|done|]. split; [|done]. intros es'. apply unchanged_resolve; [done| |done]. apply (tr_dirs _ _ (fg_tree _ _ _ _ Hg)).
Qed.

(** ** Creating and removing *)

(** The tree before, when the new inode is left out of the tree after. *)
Lemma resolve_new V V1 sb n es m : tree_ok V sb →
  (∀ m, linked V sb m → di_type (inode_at V1 sb m) = di_type (inode_at V sb m) ∧
     (di_type (inode_at V sb m) = T_DIR → ∀ nm, dir_lookup nm (contents V (inode_at V sb m)) =
        x ← dir_lookup nm (contents V1 (inode_at V1 sb m)); if x.1 =? n then None else Some x)) →
  linked V sb m → resolve_without V1 sb n es m = resolve V sb false es m.
Proof.
  intros Ht HV. revert m. induction es as [|e es IH]; intros m Hm; cbn [resolve resolve_without]; [done|].
  destruct (HV m Hm) as [-> Hl]. destruct (Z.eqb_spec (di_type (inode_at V sb m)) T_DIR) as [Hd|]; [|done]. cbn [andb].
  destruct (Ht m Hm Hd) as (_ & _ & _ & _ & He). specialize (He (take DIRSIZ e)). rewrite Hl in * by done.
  destruct (dir_lookup _ _) as [[x off]|]; [|done]. cbn [mbind option_bind fst] in *. destruct (Z.eqb_spec x n); [done|].
  cbn. apply IH. by eapply He.
Qed.

Section entered.
Context (t t' : fss D X) (R : list nat) (es : list (list Z)) (type major minor n d : Z).
Hypothesis Hg : fs_good t [] [] R.
Hypothesis Hd : resolve (fview t) (fsb t) true es ROOTINO = Some d.
Hypothesis Hno : resolve (fview t) (fsb t) false es ROOTINO = None.
Hypothesis Hroot : linked (fview t) (fsb t) ROOTINO.
Hypothesis Hen : entered t t' R es type major minor n d.
Let V := fview t.
Let V1 := fview t'.
Let sb := fsb t.

Lemma entered_parent : linked V sb d ∧ di_type (inode_at V sb d) = T_DIR ∧ n ≠ d ∧
  dir_lookup (last_elem es) (contents V (inode_at V sb d)) = None.
Proof.
  assert (linked V sb d) as Hld by (eapply (resolve_linked sb V true es ROOTINO); [apply (tr_dirs _ _ (fg_tree _ _ _ _ Hg))|done|done]).
  destruct (resolve_last _ _ _ _ _ Hd) as [HT Hl]. rewrite Hno in Hl. split_and!; [done|done| |].
  - intros ->. by apply (en_fresh _ _ _ _ _ _ _ _ _ Hen), linked_live.
  - symmetry in Hl. by apply fmap_None in Hl.
Qed.
Lemma entered_names x : dir_lookup x (contents V (inode_at V sb d)) =
  y ← dir_lookup x (contents V1 (inode_at V1 sb d)); if y.1 =? n then None else Some y.
Proof.
  destruct entered_parent as (Hld & HT & _ & Hnone). destruct (en_entry _ _ _ _ _ _ _ _ _ Hen) as (off & He & _).
  destruct (decide (cname DIRSIZ x = cname DIRSIZ (last_elem es))) as [Hx|Hx].
  - unfold dir_lookup in *. rewrite !(dir_find_cname x (last_elem es)) by done. unfold V1, V, sb in *. rewrite Hnone, He. cbn. by rewrite Z.eqb_refl.
  - pose proof (en_names _ _ _ _ _ _ _ _ _ Hen x Hx) as Hn. fold V V1 sb in Hn. rewrite Hn.
    destruct (dir_lookup x (contents V _)) as [[y o]|] eqn:Hy; [|done]. cbn. destruct (Z.eqb_spec y n) as [->|]; [|done].
    exfalso. apply (en_fresh _ _ _ _ _ _ _ _ _ Hen), linked_live.
    destruct (tr_dirs _ _ (fg_tree _ _ _ _ Hg) d Hld HT) as (_ & _ & _ & _ & Hent). by eapply Hent.
Qed.
Lemma entered_other m : 0 ≤ m < sb_ninodes sb → m ≠ n → m ≠ d → linked V sb m ∨ linked V1 sb m →
  linked V sb m ∧ inode_at V1 sb m = inode_at V sb m ∧ contents V1 (inode_at V1 sb m) = contents V (inode_at V sb m).
Proof.
  intros Hr Hn Hmd Hlk. destruct (en_others _ _ _ _ _ _ _ _ _ Hen m Hr Hn Hmd) as [Hi Hc]. fold V V1 sb in Hi, Hc.
  assert (linked V sb m) as Hl by (destruct Hlk as [|Hlk]; [done|]; unfold linked in *; by rewrite Hi in Hlk).
  rewrite Hi. split_and!; [done|done|]. by apply Hc, linked_live.
Qed.
(** Nothing but the new entry names the new inode. *)
Lemma entered_unnamed m nm o : linked V sb m → di_type (inode_at V sb m) = T_DIR → dir_lookup nm (contents V (inode_at V sb m)) ≠ Some (n, o).
Proof.
  intros Hm HT Hl. apply (en_fresh _ _ _ _ _ _ _ _ _ Hen), linked_live.
  destruct (tr_dirs _ _ (fg_tree _ _ _ _ Hg) m Hm HT) as (_ & _ & _ & _ & Hent). by eapply Hent.
Qed.

Lemma entered_removable : ∃ off, removable V1 sb n d (last_elem es) off.
Proof.
  destruct entered_parent as (Hld & HT & Hnd & Hnone). destruct (en_entry _ _ _ _ _ _ _ _ _ Hen) as (off & He & Hon).
  pose proof (en_made _ _ _ _ _ _ _ _ _ Hen) as (Hty & _ & _ & Hnl & Hdots). exists off. constructor; try done.
  - split; [done|]. intros ->. by apply (en_fresh _ _ _ _ _ _ _ _ _ Hen), linked_live.
  - intros m nm o Hm Hne HTm Hl. destruct (decide (m = d)) as [->|Hmd].
    + split; [done|]. destruct (decide (cname DIRSIZ nm = cname DIRSIZ (last_elem es))) as [|Hx]; [done|]. exfalso.
      apply (entered_unnamed d nm o Hld HT). rewrite <- Hl. symmetry. by apply (en_names _ _ _ _ _ _ _ _ _ Hen).
    + exfalso. destruct (entered_other m (proj1 Hm) Hne Hmd (or_intror Hm)) as (Hm0 & Hi & Hc). rewrite Hc in Hl. rewrite Hi in HTm.
      by eapply entered_unnamed.
  - intros HTn. fold V1 sb in Hty, Hdots. rewrite HTn in Hty. rewrite <- Hty, Z.eqb_refl in Hdots. destruct Hdots as [H32 _]. split.
    + unfold dir_empty. rewrite length_contents; [by rewrite H32| |lia]. intros b. eapply fview_512, fg_inv, (en_good _ _ _ _ _ _ _ _ _ Hen).
    + pose proof (en_links _ _ _ _ _ _ _ _ _ Hen) as Hlk. fold V V1 sb in Hlk. rewrite Hlk, <- Hty, Z.eqb_refl. destruct Hld as (_ & _ & ?). lia.
Qed.

(** After the new inode was removed the tree is the old one. *)
Lemma entered_removed V2 off kept es' : removed V1 sb n V2 d off kept →
  resolve V2 sb false es' ROOTINO = resolve V sb false es' ROOTINO.
Proof.
  intros Hrv. rewrite (rv_paths _ _ _ _ _ _ _ Hrv). destruct entered_parent as (Hld & HT & Hnd & _).
  apply resolve_new; [apply (tr_dirs _ _ (fg_tree _ _ _ _ Hg))| |done]. intros m Hm. destruct (decide (m = d)) as [->|Hmd].
  - split; [|intros _ nm; apply entered_names]. apply (en_grows _ _ _ _ _ _ _ _ _ Hen); done.
  - assert (m ≠ n) as Hmn by (intros ->; by apply (en_fresh _ _ _ _ _ _ _ _ _ Hen), linked_live).
    destruct (entered_other m (proj1 Hm) Hmn Hmd (or_introl Hm)) as (_ & Hi & Hc). rewrite Hc, Hi. split; [done|]. intros HTm nm.
    destruct (dir_lookup nm _) as [[x o]|] eqn:Hl; [|done]. cbn. destruct (Z.eqb_spec x n) as [->|]; [|done].
    by destruct (entered_unnamed m nm o Hm HTm).
Qed.
End entered.

(** C8. Creating a directory and removing it again. [mkdir] of a path that leads
    nowhere yet, in a directory that exists, followed by [unlink] of the same
    path: both return 0, and afterwards every path leads where it did before,
    the parent has the links it had, and no other inode or its contents has
    changed. The inode that was used is free again unless somebody holds a
    reference to it. *)
Theorem mkdir_unlink (s : fls D X) R l tl name n0 d :
  let t := ffs s in let V := fview t in let sb := fsb t in let es := components l in
  can_create t R l tl name n0 → sb_current (fio t) (lg (flog t)) →
  resolve V sb true es ROOTINO = Some d → resolve V sb false es ROOTINO = None → ¬ dots_name (last_elem es) →
  ∃ n t1 t2, mkdir devtab (l ++ 0 :: tl) name s = Ok (0, set_ffs t1 s) ∧ resolve (fview t1) sb false es ROOTINO = Some n ∧
    unlink devtab (l ++ 0 :: tl) name (set_ffs t1 s) = Ok (0, set_ffs t2 s) ∧ fs_good t2 [] [] R ∧
    (∀ es', resolve (fview t2) sb false es' ROOTINO = resolve V sb false es' ROOTINO) ∧
    di_nlink (inode_at (fview t2) sb d) = di_nlink (inode_at V sb d) ∧ others sb V (fview t2) n d ∧
    ((∀ x, x ∈ R → ¬ slot_of t2 x n) → ¬ live sb (fview t2) n).
Proof.
  intros t V sb es Hcc Hcur Hd Hno Hnd. pose proof Hcc as [Hg Hroot HR [H0 Hbl] [Hbn Hln] Hlog Hnf [Hn0 Hf0] Hlim].
  destruct (make_entered devtab s R l tl T_DIR 0 0 name n0 d Hcc Hcur) as (n & t1 & Hrun1 & Hen); try done.
  destruct (entered_removable t t1 R es T_DIR 0 0 n d Hg Hd Hno Hroot Hen) as (off & Hrm).
  pose proof (en_tx _ _ _ _ _ _ _ _ _ Hen) as Htx. pose proof (tx_sb _ _ Htx) as Hsb.
  destruct (unlink_runs (set_ffs t1 s) R l tl name d n off) as (t2 & kept & Hrun2 & Hg2 & _ & Hrv & Hk).
  - constructor; cbn [ffs set_ffs]; rewrite ?Hsb; try done; [apply Hen|apply Htx|by apply (en_grows _ _ _ _ _ _ _ _ _ Hen)|rewrite (tx_lsize _ _ Htx); fold t; lia].
  - cbn [ffs set_ffs]. rewrite Hsb. eapply resolve_grows; [apply (tr_dirs _ _ (fg_tree _ _ _ _ Hg))|apply Hen|done|done].
  - done.
  - cbn [ffs set_ffs]. by rewrite Hsb.
  - cbn [ffs set_ffs] in Hrv. rewrite Hsb in Hrv. change (fsb (ffs s)) with sb in Hrv. exists n, t1, t2. split_and!; [done|apply Hen|done|done| | | |].
    + intros es'. by eapply entered_removed.
    + rewrite (rv_links _ _ _ _ _ _ _ Hrv). pose proof (en_made _ _ _ _ _ _ _ _ _ Hen) as (Hty & _).
      pose proof (en_links _ _ _ _ _ _ _ _ _ Hen) as Hlk. change (fsb (ffs s)) with sb in Hty, Hlk. change (fview (ffs s)) with V in Hlk.
      rewrite Hty, Hlk. cbn. lia.
    + eapply others_trans; [apply Hen|apply Hrv].
    + intros Hx [_ Hl]. pose proof (rv_node _ _ _ _ _ _ _ Hrv) as Hn. destruct kept; [|by apply Hl, Hn].
      destruct (proj1 Hk eq_refl) as (x & Hin & Hs). by eapply Hx.
Qed.
End theorems.

(** ** The image of mkfs.c *)

(** "/init" *)
Definition path_init : list Z := [47; 105; 110; 105; 116].
Lemma fs0_can_unlink l : (0 ∉ l) ∧ bytes (l ++ [0]) → can_unlink fs0 [] l [] junk.
Proof.
  intros Hl. constructor; [exact fs0_good|exact fs0_current|apply fs0_can_create|cbn; unfold NINODE; lia|done|apply fs0_can_create|vm_compute; reflexivity].
Qed.
Lemma demo_removable : removable demo_view mksb 2 1 [105; 110; 105; 116] 32.
Proof.
  assert (Forall (λ k, de_inum (dirent_at demo_root k) = 2 → k = 2%nat) (seq 0 32)) as HF by (apply (bool_decide_unpack _); vm_compute; exact I).
  assert (Forall (λ k, entry_is [105; 110; 105; 116] (dirent_at demo_root k) = true → k = 2%nat) (seq 0 32)) as HF2
    by (apply (bool_decide_unpack _); vm_compute; exact I).
  rewrite Forall_forall in HF, HF2. destruct demo_entries as (_ & Hl & _).
  constructor; [vm_compute; reflexivity|split; discriminate|vm_compute; reflexivity| | |].
  - change (named_once [105; 110; 105; 116] demo_root 32). intros j Hj He. rewrite Hl in Hj. change (512 / 16)%nat with 32%nat in Hj.
    specialize (HF2 j). generalize dependent (entry_is [105; 110; 105; 116] (dirent_at demo_root j)). intros b HF2 ->.
    rewrite HF2; [reflexivity|apply elem_of_seq; lia|reflexivity].
  - intros m nm o Hm Hne _. destruct (demo_inodes m Hm) as [->| ->]; [|destruct Hne; reflexivity]. intros Hlk. split; [reflexivity|]. clear Hm Hne HF2.
    change (dir_lookup nm demo_root = Some (2, o)) in Hlk. assert (cname DIRSIZ (de_name (dirent_at demo_root 2)) = cname DIRSIZ [105; 110; 105; 116]) as Hnm
      by (vm_compute; reflexivity). revert HF Hl Hlk Hnm. generalize demo_root. intros c HF Hl Hlk Hnm.
    apply dir_find_found in Hlk as (j & Hj & _ & Hin & He). rewrite Hl in Hj. change (512 / 16)%nat with 32%nat in Hj.
    rewrite (HF j) in He by (done || apply elem_of_seq; lia). apply andb_true_iff in He as [_ He%bool_decide_eq_true_1]. congruence.
  - intros Ht. exfalso. vm_compute in Ht. discriminate Ht.
Qed.

Lemma unlink_atomic_witness : ∃ t', unlink [] (path_init ++ [0]) junk no_files = Ok (0, set_ffs t' no_files) ∧
  resolve (fview t') (fsb fs0) false [[105; 110; 105; 116]] ROOTINO = None ∧ reclaimed (fsb fs0) (fview fs0) (fview t') 2.
Proof.
  destruct (unlink_atomic [] no_files [] path_init [] junk 1 2 32) as (t' & kept & Hrun & _ & Hp & Hrv & Hk & _).
  - apply fs0_can_unlink. split; apply (bool_decide_unpack _); vm_compute; exact I.
  - apply demo_resolves. vm_compute. reflexivity.
  - vm_compute. intros [H|H]; discriminate H.
  - apply (removable_ext demo_view); [intros b; symmetry; apply fs0_view|exact demo_removable].
  - exists t'. split; [exact Hrun|]. split; [exact Hp|]. pose proof (rv_node _ _ _ _ _ _ _ Hrv) as Hn.
    destruct kept; [|exact Hn]. destruct (proj1 Hk eq_refl) as (x & Hx & _). destruct (proj1 (elem_of_nil x) Hx).
Defined.

(** "/." *)
Lemma unlink_refuses_witness : ∃ t', unlink [] ([47; 46] ++ [0]) junk no_files = Ok (-1, set_ffs t' no_files) ∧
  old_tree (fsb fs0) (fview fs0) (fview t').
Proof.
  destruct (unlink_refuses [] no_files [] [47; 46] [] junk) as (t' & Hrun & _ & Ho).
  - apply fs0_can_unlink. split; apply (bool_decide_unpack _); vm_compute; exact I.
  - right. left. vm_compute. left. reflexivity.
  - exists t'. split; [exact Hrun|exact Ho].
Defined.

Lemma mkdir_unlink_witness : ∃ n t1 t2, mkdir [] (path_a ++ [0]) junk no_files = Ok (0, set_ffs t1 no_files) ∧
  resolve (fview t1) (fsb fs0) false [[97]] ROOTINO = Some n ∧
  unlink [] (path_a ++ [0]) junk (set_ffs t1 no_files) = Ok (0, set_ffs t2 no_files) ∧
  resolve (fview t2) (fsb fs0) false [[97]] ROOTINO = None ∧ ¬ live (fsb fs0) (fview t2) n.
Proof.
  destruct (mkdir_unlink [] no_files [] path_a [] junk 3 1) as (n & t1 & t2 & Hrun1 & Hp & Hrun2 & _ & Hsame & _ & _ & Hfree);
    [exact fs0_can_create|exact fs0_current|apply demo_resolves; vm_compute; reflexivity|apply demo_resolves; vm_compute; reflexivity| |].
  - vm_compute. intros [H|H]; discriminate H.
  - exists n, t1, t2. split; [exact Hrun1|]. split; [exact Hp|]. split; [exact Hrun2|]. split.
    + etrans; [exact (Hsame [[97]])|]. apply demo_resolves. vm_compute. reflexivity.
    + apply Hfree. intros x Hx. destruct (proj1 (elem_of_nil x) Hx).
Defined.
