(* ===== verification/Kalloc.v ===== *)
(** * kalloc.c: the page allocator

    The free list is threaded through the free pages themselves: the state is
    the memory, the head pointer, and the address [end] of the first byte
    after the kernel. *)

From S2P Require Import Prelude Spinlock CString.

Definition PROCSIZE : Z := 0x100.
Definition PGSIZE : Z := Z.shiftl PROCSIZE 12.
Definition PGROUNDUP (sz : Z) : Z := Z.land (u32 (sz + PGSIZE - 1)) (Z.lnot (PGSIZE - 1)).

Record kmem := mk_kmem {
  kcpu : cpu;
  kmemory : mem;
  freelist : Z;
  kend : Z;
}.
Definition set_kcpu v (s : kmem) : kmem := mk_kmem v (kmemory s) (freelist s) (kend s).
Definition set_kmemory v (s : kmem) : kmem := mk_kmem (kcpu s) v (freelist s) (kend s).
Definition set_freelist v (s : kmem) : kmem := mk_kmem (kcpu s) (kmemory s) v (kend s).

(** [r->next]: a 32-bit word in memory. *)
Definition load4 (m : mem) (a : Z) : Z := le_dec [m a; m (a + 1); m (a + 2); m (a + 3)].

Definition kfree (v : Z) : M kmem unit :=
  e ← gets kend;
  if negb (u32 v mod PGSIZE =? 0) || (v <? e) then panic "kfree" else
  modify (λ s, set_kmemory (memset (kmemory s) v 1 PGSIZE) s);;
  zoom kcpu set_kcpu pushcli;;
  modify (λ s, set_kmemory (store4 (kmemory s) v (freelist s)) s);;
  modify (set_freelist v);;
  zoom kcpu set_kcpu popcli.

Definition kalloc : M kmem Z :=
  zoom kcpu set_kcpu pushcli;;
  r ← gets freelist;
  (if negb (r =? 0) then modify (λ s, set_freelist (load4 (kmemory s) r) s) else mret tt);;
  zoom kcpu set_kcpu popcli;;
  mret r.

Fixpoint freerange_loop (fuel : nat) (p vend : Z) : M kmem unit :=
  match fuel with
  | O => hang
  | S fuel =>
      if u32 (p + PGSIZE) <=? vend then kfree p;; freerange_loop fuel (u32 (p + PGSIZE)) vend
      else mret tt
  end.
Definition freerange (vstart vend : Z) : M kmem unit :=
  freerange_loop (Z.to_nat (vend / PGSIZE + 1)) (PGROUNDUP vstart) vend.
Definition kinit (vstart vend : Z) : M kmem unit := freerange vstart vend.

Lemma PGSIZE_eq : PGSIZE = 1048576.
Proof. done. Qed.
Lemma PGSIZE_pos : 0 < PGSIZE.
Proof. done. Qed.

(** ** The free list in memory *)
Fixpoint chain (m : mem) (p : Z) (l : list Z) : Prop :=
  match l with
  | [] => p = 0
  | q :: l => p = q ∧ chain m (load4 m q) l
  end.

Definition page_ok (e p : Z) : Prop := e ≤ p ∧ 0 < p ∧ p mod PGSIZE = 0 ∧ p + PGSIZE ≤ 4294967296.

Record kmem_inv (on : bool) (s : kmem) (l : list Z) : Prop := {
  ki_cpu : cpu_sane on (kcpu s);
  ki_chain : chain (kmemory s) (freelist s) l;
  ki_pages : Forall (page_ok (kend s)) l;
  ki_nodup : NoDup l;
}.

Lemma load4_store4 m a v : 0 ≤ v < 4294967296 → load4 (store4 m a v) a = v.
Proof.
  intros Hv. unfold load4, store4. cbn [le_dec]. rewrite !store_spec.
  repeat (first [rewrite decide_True by lia|rewrite decide_False by lia]).
  unfold u8. rewrite !Z.shiftr_div_pow2 by lia.
  change (2 ^ 8) with 256. change (2 ^ 16) with (256 * 256). change (2 ^ 24) with (256 * 256 * 256).
  rewrite <- !Z.div_div by lia.
  pose proof (Z_div_mod_eq_full v 256). pose proof (Z_div_mod_eq_full (v / 256) 256).
  pose proof (Z_div_mod_eq_full (v / 256 / 256) 256).
  assert (v / 256 / 256 / 256 mod 256 = v / 256 / 256 / 256) as ->; [|lia].
  apply Z.mod_small. rewrite !Z.div_div by lia. split; [apply Z.div_pos; lia|apply Z.div_lt_upper_bound; lia].
Qed.

Lemma load4_frame m m' a : (∀ x, a ≤ x < a + 4 → m' x = m x) → load4 m' a = load4 m a.
Proof. intros H. unfold load4. by rewrite !H by lia. Qed.

Lemma chain_frame m m' p l :
  chain m p l → (∀ q x, q ∈ l → q ≤ x < q + 4 → m' x = m x) → chain m' p l.
Proof.
  revert p. induction l as [|q l IH]; intros p; [done|]. intros [-> Hc] Hf. split; [done|].
  rewrite (load4_frame m m') by (intros; apply (Hf q); [set_solver|done]).
  apply IH; [done|]. intros q' x Hq'. apply Hf. set_solver.
Qed.

(** Distinct pages do not overlap. *)
Lemma pages_disjoint e p q x :
  page_ok e p → page_ok e q → p ≠ q → p ≤ x < p + PGSIZE → q ≤ x < q + PGSIZE → False.
Proof.
  intros (_ & _ & Hp & _) (_ & _ & Hq & _) Hne Hx Hy. apply Hne.
  pose proof PGSIZE_pos.
  rewrite (Z_div_mod_eq_full p PGSIZE), (Z_div_mod_eq_full q PGSIZE), Hp, Hq. f_equal. f_equal.
  rewrite (Z_div_mod_eq_full p PGSIZE), Hp in Hx. rewrite (Z_div_mod_eq_full q PGSIZE), Hq in Hy.
  set (a := p / PGSIZE) in *. set (b := q / PGSIZE) in *. clearbody a b.
  assert (PGSIZE * a < PGSIZE * b + PGSIZE) by lia. assert (PGSIZE * b < PGSIZE * a + PGSIZE) by lia. nia.
Qed.

Lemma store4_other m a v x : ¬ (a ≤ x < a + 4) → store4 m a v x = m x.
Proof. intros. unfold store4. rewrite !store_spec. by rewrite !decide_False by lia. Qed.

Lemma chain_head_range m p l e : chain m p l → Forall (page_ok e) l → 0 ≤ p < 4294967296.
Proof.
  destruct l as [|q l]; [intros ->; lia|]. intros [-> _] [(_ & ? & _ & ?) _]%Forall_cons.
  pose proof PGSIZE_pos. lia.
Qed.

Lemma wp_kfree on E v l (Q : unit → kmem → Prop) s :
  kmem_inv on s l → page_ok (kend s) v → v ∉ l →
  (∀ s', kmem_inv on s' (v :: l) → kend s' = kend s →
     (∀ x, ¬ (v ≤ x < v + PGSIZE) → kmemory s' x = kmemory s x) → ncli (kcpu s') = ncli (kcpu s) → Q tt s') →
  wp E (kfree v) Q s.
Proof.
  intros [Hcpu Hch Hpg Hnd] Hv Hnl HQ. pose proof Hv as (He & H0 & Hal & Hhi).
  pose proof PGSIZE_pos as HP.
  unfold kfree. apply wp_bind, wp_gets. rewrite u32_small by lia.
  rewrite Hal. rewrite (proj2 (Z.ltb_ge v (kend s))) by done. cbn [Z.eqb negb orb].
  apply wp_bind, wp_modify. apply wp_bind, wp_zoom. apply (wp_pushcli_sane on); [done|].
  apply wp_bind, wp_modify, wp_bind, wp_modify.
  apply wp_zoom, wp_popcli_pushed; [done|]. intros c2 Hc2 Hn2 _.
  unfold set_kcpu, set_kmemory, set_freelist. cbn [kcpu kmemory freelist kend].
  assert (∀ x, ¬ (v ≤ x < v + PGSIZE) →
    store4 (memset (kmemory s) v 1 PGSIZE) v (freelist s) x = kmemory s x) as Hout.
  { intros x Hx. rewrite store4_other by (pose proof PGSIZE_eq; lia).
    rewrite memset_spec by lia. by rewrite decide_False by lia. }
  apply HQ; [|done|done|done]. constructor; cbn [kcpu kmemory freelist kend].
  - done.
  - split; [done|]. rewrite load4_store4 by (by eapply chain_head_range).
    eapply chain_frame; [done|]. intros q x Hq Hx. apply Hout. intros Hx'.
    rewrite Forall_forall in Hpg. eapply (pages_disjoint (kend s) v q x); [done|by apply Hpg|set_solver|done|].
    pose proof PGSIZE_eq. lia.
  - by apply Forall_cons.
  - by apply NoDup_cons.
Qed.

(** What [kalloc] returns: the first free page, or null. *)
Definition first_page (l : list Z) : Z := default 0 (head l).

Lemma wp_kalloc on E l (Q : Z → kmem → Prop) s :
  kmem_inv on s l →
  (∀ s', kmem_inv on s' (tail l) → kend s' = kend s → kmemory s' = kmemory s → ncli (kcpu s') = ncli (kcpu s) →
     Q (first_page l) s') →
  wp E kalloc Q s.
Proof.
  intros [Hcpu Hch Hpg Hnd] HQ. unfold kalloc.
  apply wp_bind, wp_zoom, (wp_pushcli_sane on); [done|]. apply wp_bind, wp_gets. cbn [freelist set_kcpu].
  destruct l as [|p l]; cbn [chain] in Hch.
  - rewrite Hch. cbn [Z.eqb negb]. apply wp_bind, wp_ret.
    apply wp_bind, wp_zoom, wp_popcli_pushed; [done|]. intros c2 Hc2 Hn2 _. apply wp_ret, HQ; try done.
  - destruct Hch as [-> Hch]. apply Forall_cons in Hpg as [Hp Hpg]. apply NoDup_cons in Hnd as [_ Hnd].
    rewrite (proj2 (Z.eqb_neq p 0)) by (destruct Hp as (_ & ? & _); lia). cbn [negb].
    apply wp_bind, wp_modify, wp_bind, wp_zoom, wp_popcli_pushed; [done|]. intros c2 Hc2 Hn2 _.
    apply wp_ret, HQ; try done.
Qed.

(** The pages [freerange] frees, in the order it frees them. *)
Definition range_pages (p : Z) (n : nat) : list Z := (λ i, p + Z.of_nat i * PGSIZE) <$> seq 0 n.

Lemma range_pages_S p n : range_pages p (S n) = p :: range_pages (p + PGSIZE) n.
Proof.
  unfold range_pages. cbn [seq fmap list_fmap]. f_equal; [lia|].
  rewrite <- fmap_S_seq, <- list_fmap_compose. apply list_fmap_ext. intros i x _. cbn. lia.
Qed.

Lemma wp_freerange_loop on E fuel n p vend l (Q : unit → kmem → Prop) s :
  kmem_inv on s l → kend s ≤ p → 0 < p → p mod PGSIZE = 0 →
  p + Z.of_nat n * PGSIZE ≤ vend → vend < p + Z.of_nat (S n) * PGSIZE → vend + PGSIZE < 4294967296 →
  (n < fuel)%nat → (∀ q, q ∈ l → q < p) →
  (∀ s', kmem_inv on s' (reverse (range_pages p n) ++ l) → kend s' = kend s →
     (∀ x, x < p → kmemory s' x = kmemory s x) → ncli (kcpu s') = ncli (kcpu s) → Q tt s') →
  wp E (freerange_loop fuel p vend) Q s.
Proof.
  pose proof PGSIZE_pos as HP.
  revert fuel p l s. induction n as [|n IH]; intros [|fuel] p l s Hinv Hend H0 Hal Hlo Hhi Hmax Hf Hlt HQ;
    [lia| |lia|]; cbn [freerange_loop].
  - rewrite u32_small by lia. rewrite (proj2 (Z.leb_gt _ _)) by lia. by apply wp_ret, HQ.
  - rewrite u32_small by lia. rewrite (proj2 (Z.leb_le _ _)) by lia.
    assert (page_ok (kend s) p) as Hp by (split_and!; [done|lia|done|lia]).
    apply wp_bind. eapply wp_kfree; [done|done| |].
    { intros Hin%Hlt. lia. }
    intros s1 Hinv1 Hend1 Hm1 Hn1. apply (IH fuel (p + PGSIZE) (p :: l)); [done|lia|lia| |lia|lia|lia|lia| |].
    + rewrite <- Hal, <- (Z.mul_1_l PGSIZE) at 1. by rewrite Z_mod_plus_full.
    + intros q [->|Hq%Hlt]%elem_of_cons; lia.
    + intros s2 Hinv2 Hend2 Hm2 Hn2. apply HQ; [|congruence| |congruence].
      * rewrite range_pages_S, reverse_cons, <- app_assoc. done.
      * intros x Hx. rewrite Hm2, Hm1 by lia. done.
Qed.

Lemma PGROUNDUP_spec v : 0 ≤ v → v + PGSIZE < 4294967296 →
  PGROUNDUP v mod PGSIZE = 0 ∧ v ≤ PGROUNDUP v < v + PGSIZE.
Proof.
  intros H0 H1. unfold PGROUNDUP. change PGSIZE with (2 ^ 20) in *. rewrite u32_small by lia.
  assert (Z.land (v + 2 ^ 20 - 1) (Z.lnot (2 ^ 20 - 1)) = (v + 2 ^ 20 - 1) / 2 ^ 20 * 2 ^ 20) as ->.
  { change (2 ^ 20 - 1) with (Z.ones 20). rewrite <- Z.ldiff_land.
    rewrite Z.ldiff_ones_r, Z.shiftl_mul_pow2, Z.shiftr_div_pow2 by lia. done. }
  split; [apply Z.mod_mul; lia|].
  pose proof (Z_div_mod_eq_full (v + 2 ^ 20 - 1) (2 ^ 20)).
  pose proof (Z.mod_pos_bound (v + 2 ^ 20 - 1) (2 ^ 20) ltac:(lia)). lia.
Qed.

(** Boot: every whole aligned page between [vstart] and [vend], once. *)
Lemma wp_kinit on E vstart vend (Q : unit → kmem → Prop) s :
  kmem_inv on s [] → 0 ≤ kend s ≤ vstart → 0 < vstart ≤ vend → vend + 2 * PGSIZE < 4294967296 →
  let n := Z.to_nat ((vend - PGROUNDUP vstart) / PGSIZE) in
  (∀ s', kmem_inv on s' (reverse (range_pages (PGROUNDUP vstart) n)) → kend s' = kend s →
     (∀ x, x < PGROUNDUP vstart → kmemory s' x = kmemory s x) → ncli (kcpu s') = ncli (kcpu s) → Q tt s') →
  wp E (kinit vstart vend) Q s.
Proof.
  intros Hinv He Hv Hmax n HQ. unfold kinit, freerange.
  pose proof PGSIZE_pos as HP.
  destruct (PGROUNDUP_spec vstart) as [Hal Hr]; [lia..|]. set (p := PGROUNDUP vstart) in *.
  pose proof (Z_div_mod_eq_full (vend - p) PGSIZE) as Hdm.
  pose proof (Z.mod_pos_bound (vend - p) PGSIZE HP) as Hmb.
  destruct (Z_lt_le_dec vend p) as [Hlt|Hge].
  - assert (n = 0%nat) as Hn.
    { unfold n. assert ((vend - p) / PGSIZE < 0); [apply Z.div_lt_upper_bound; lia|lia]. }
    rewrite Hn in HQ. destruct (Z.to_nat (vend / PGSIZE + 1)) as [|f] eqn:Hf.
    { assert (0 ≤ vend / PGSIZE) by (apply Z.div_pos; lia). lia. }
    cbn [freerange_loop]. rewrite u32_small by lia. rewrite (proj2 (Z.leb_gt _ _)) by lia. by apply wp_ret, HQ.
  - assert (0 ≤ (vend - p) / PGSIZE) as Hq by (apply Z.div_pos; lia).
    eapply (wp_freerange_loop on _ _ n); [done|lia|lia|done| | |lia| |set_solver|].
    + unfold n. rewrite Z2Nat.id by done. lia.
    + unfold n. rewrite Nat2Z.inj_succ, Z2Nat.id by done. lia.
    + unfold n. assert ((vend - p) / PGSIZE ≤ vend / PGSIZE) by (apply Z.div_le_mono; lia). lia.
    + rewrite app_nil_r. done.
Qed.
