(* ===== verification/Syscall.v ===== *)
(** * syscall.c, sysfile.c and sysproc.c: the system call interface

    The state is the open-file layer below, the machine's memory, the current
    process and the tick counter. User pointers are addresses relative to the
    process; the kernel adds the base [p_offset] where the process is loaded. *)

From S2P Require Import Prelude Spinlock CString Ide Bio BioFacts Layout Log Fs File Kalloc.

Definition NOFILE : Z := 16.
Definition SYS_open : Z := 1.
Definition SYS_write : Z := 2.
Definition SYS_close : Z := 3.
Definition SYS_uptime : Z := 4.

(** The fields of [struct proc] and of its trap frame that system calls use;
    [p_ofile] has [NOFILE] entries. *)
Record proc := mk_proc {
  p_sz : Z;
  p_offset : Z;
  p_pid : Z;
  p_eax : Z;
  p_esp : Z;
  p_ofile : list (option nat);
}.
Definition set_p_eax v (p : proc) : proc := mk_proc (p_sz p) (p_offset p) (p_pid p) v (p_esp p) (p_ofile p).
Definition set_p_ofile v (p : proc) : proc := mk_proc (p_sz p) (p_offset p) (p_pid p) (p_eax p) (p_esp p) v.

(** ** Fetching arguments; [None] is the error result -1 *)
Definition fetchint (m : mem) (p : proc) (addr : Z) : option Z :=
  if (addr >=? p_sz p) || (u32 (addr + 4) >? p_sz p) then None
  else Some (s32 (load4 m (u32 (addr + p_offset p)))).

(** The scan for the NUL from [s] up to [ep]. *)
Fixpoint fetchstr_scan (m : mem) (fuel : nat) (s ep : Z) (pp : Z) : option Z :=
  match fuel with
  | O => None
  | S fuel =>
      if s <? ep then
        if m s =? 0 then Some (s - pp) else fetchstr_scan m fuel (s + 1) ep pp
      else None
  end.
(** The length of the string and the kernel pointer to it. *)
Definition fetchstr (m : mem) (p : proc) (addr : Z) : option (Z * Z) :=
  if addr >=? p_sz p then None else
  let pp := u32 (addr + p_offset p) in
  let ep := u32 (p_sz p + p_offset p) in
  l ← fetchstr_scan m (S (Z.to_nat (p_sz p))) pp ep pp;
  Some (l, pp).

Definition argint (m : mem) (p : proc) (n : Z) : option Z := fetchint m p (u32 (p_esp p + 4 + 4 * n)).

Definition argptr (m : mem) (p : proc) (n size : Z) : option Z :=
  i ← argint m p n;
  if (size <? 0) || (u32 i >=? p_sz p) || (u32 (u32 i + size) >? p_sz p) then None
  else Some (u32 (i + p_offset p)).

Definition argstr (m : mem) (p : proc) (n : Z) : option (Z * Z) :=
  addr ← argint m p n; fetchstr m p (u32 addr).

(** The file descriptor and the file. *)
Definition argfd (m : mem) (p : proc) (n : Z) : option (Z * nat) :=
  fd ← argint m p n;
  if (fd <? 0) || (fd >=? NOFILE) then None else
  f ← mjoin (p_ofile p !! Z.to_nat fd);
  Some (fd, f).

(** The first unused entry. *)
Fixpoint fdalloc_scan (fd : nat) (l : list (option nat)) : option nat :=
  match l with
  | [] => None
  | None :: _ => Some fd
  | Some _ :: l => fdalloc_scan (S fd) l
  end.
Definition fdalloc (p : proc) (f : nat) : option (Z * proc) :=
  fd ← fdalloc_scan 0 (take (Z.to_nat NOFILE) (p_ofile p));
  Some (Z.of_nat fd, set_p_ofile (<[fd:=Some f]> (p_ofile p)) p).

(** Bytes of memory from an address on. *)
Definition load_bytes (m : mem) (a : Z) (n : nat) : list Z := (λ i, m (a + Z.of_nat i)) <$> seq 0 n.
Fixpoint store_bytes (m : mem) (a : Z) (bs : list Z) : mem :=
  match bs with
  | [] => m
  | b :: bs => store_bytes (store m a b) (a + 1) bs
  end.

Record sys (D X : Type) := mk_sys {
  sfl : fls D X;
  smem : mem;
  sproc : proc;
  ticks : Z;
}.
Arguments mk_sys {D X}.
Arguments sfl {D X}.
Arguments smem {D X}.
Arguments sproc {D X}.
Arguments ticks {D X}.

Section sys.
Context {D X : Type} {dev : IdeDevice D}.
Context (devtab : list (@devsw D X)).

Definition set_sfl v (s : sys D X) : sys D X := mk_sys v (smem s) (sproc s) (ticks s).
Definition set_smem v (s : sys D X) : sys D X := mk_sys (sfl s) v (sproc s) (ticks s).
Definition set_sproc v (s : sys D X) : sys D X := mk_sys (sfl s) (smem s) v (ticks s).
Definition fl_do {A} (m : M (fls D X) A) : M (sys D X) A := zoom sfl set_sfl m.
(** An argument of the call. *)
Definition arg {A} (f : mem → proc → option A) : M (sys D X) (option A) := gets (λ s, f (smem s) (sproc s)).

Definition sys_uptime : M (sys D X) Z := s ← get; mret (s32 (ticks s)).

Definition sys_read : M (sys D X) Z :=
  fd ← arg (λ m p, argfd m p 0);
  n ← arg (λ m p, argint m p 2);
  q ← arg (λ m p, n ← argint m p 2; argptr m p 1 n);
  match fd, n, q with
  | Some (_, f), Some n, Some q =>
      r ← fl_do (fileread devtab f n);
      modify (λ s, set_smem (store_bytes (smem s) q r.2) s);;
      mret r.1
  | _, _, _ => mret (-1)
  end.

Definition sys_write : M (sys D X) Z :=
  fd ← arg (λ m p, argfd m p 0);
  n ← arg (λ m p, argint m p 2);
  q ← arg (λ m p, n ← argint m p 2; argptr m p 1 n);
  match fd, n, q with
  | Some (_, f), Some n, Some q =>
      m ← gets smem;
      fl_do (filewrite devtab f (load_bytes m q (Z.to_nat n)) n)
  | _, _, _ => mret (-1)
  end.

Definition sys_close : M (sys D X) Z :=
  a ← arg (λ m p, argfd m p 0);
  match a with
  | None => mret (-1)
  | Some (fd, f) =>
      modify (λ s, set_sproc (set_p_ofile (<[Z.to_nat fd:=None]> (p_ofile (sproc s))) (sproc s)) s);;
      fl_do (fileclose f);;
      mret 0
  end.

(** The static [create] of sysfile.c is, line for line, the one of file.c. *)
Definition sys_create (path : list Z) (type major minor : Z) (name : list Z) : M (sys D X) (option nat) :=
  fl_do (create devtab path type major minor name).

(** [name] is the uninitialised local array of [create] or [namei]. *)
Definition sys_open_inode (path : list Z) (omode : Z) (name : list Z) : M (sys D X) (option nat) :=
  if negb (Z.land omode O_CREATE =? 0) then sys_create path T_FILE 0 0 name
  else
    r ← fl_do (fs_do (namei devtab path name));
    match r with
    | None => mret None
    | Some ip =>
        fl_do (fs_do (iread (Some ip)));;
        p ← fl_do (fs_do (get_inode ip));
        if (i_type p =? T_DIR) && negb (omode =? O_RDONLY) then fl_do (fs_do (iput ip));; mret None
        else mret (Some ip)
    end.
Definition sys_open (name : list Z) : M (sys D X) Z :=
  a ← arg (λ m p, argstr m p 0);
  o ← arg (λ m p, argint m p 1);
  match a, o with
  | Some (len, path), Some omode =>
      m ← gets smem;
      fl_do f_begin_op;;
      r ← sys_open_inode (load_bytes m path (S (Z.to_nat len))) omode name;
      match r with
      | None => fl_do f_end_op;; mret (-1)
      | Some ip =>
          fa ← fl_do filealloc;
          match fa with
          | None => fl_do (fs_do (iput ip));; fl_do f_end_op;; mret (-1)
          | Some f =>
              p ← gets sproc;
              match fdalloc p f with
              | None =>
                  fl_do (fileclose f);;
                  fl_do (fs_do (iput ip));;
                  fl_do f_end_op;;
                  mret (-1)
              | Some (fd, p) =>
                  modify (set_sproc p);;
                  fl_do f_end_op;;
                  fl_do (mod_file f (opened ip omode));;
                  mret fd
              end
          end
      end
  | _, _ => mret (-1)
  end.

(** The table [syscalls]; [k_syscall] of Trap.v looks numbers up in it. *)
Definition syscalls (name : list Z) (num : Z) : option (M (sys D X) Z) :=
  if num =? SYS_open then Some (sys_open name)
  else if num =? SYS_write then Some sys_write
  else if num =? SYS_close then Some sys_close
  else if num =? SYS_uptime then Some sys_uptime
  else None.
Definition syscall (name : list Z) : M (sys D X) unit :=
  p ← gets sproc;
  let num := s32 (p_eax p) in
  match (if num >? 0 then syscalls name num else None) with
  | Some f =>
      r ← f;
      modify (λ s, set_sproc (set_p_eax (u32 r) (sproc s)) s)
  | None => modify (λ s, set_sproc (set_p_eax (u32 (-1)) (sproc s)) s)
  end.
End sys.

(** ** Memory safety of the argument checks *)

(** A process whose memory [offset, offset + sz) does not wrap around. *)
Definition proc_ok (p : proc) : Prop :=
  0 ≤ p_offset p ∧ 0 ≤ p_sz p < 2147483648 ∧ p_offset p + p_sz p < 4294967296.

Lemma fetchint_safe m p addr v :
  proc_ok p → 0 ≤ addr < 4294967296 → fetchint m p addr = Some v →
  addr + 4 ≤ p_sz p ∧ v = s32 (load4 m (p_offset p + addr)).
Proof.
  intros (H0 & Hsz & Hw) Ha. unfold fetchint. destruct (_ || _) eqn:Hc; [done|].
  apply orb_false_iff in Hc as [H1 H2]. rewrite Z.geb_leb, Z.leb_gt in H1. rewrite Z.gtb_ltb, Z.ltb_ge in H2.
  rewrite u32_small in H2 by lia. intros [= <-]. split; [done|]. rewrite u32_small by lia.
  by rewrite Z.add_comm.
Qed.

Lemma fetchint_complete m p addr :
  proc_ok p → 0 ≤ addr → addr + 4 ≤ p_sz p → is_Some (fetchint m p addr).
Proof.
  intros (H0 & Hsz & Hw) Ha Hle. unfold fetchint. rewrite u32_small by lia.
  rewrite Z.geb_leb, Z.gtb_ltb, (proj2 (Z.leb_gt _ _)), (proj2 (Z.ltb_ge _ _)) by lia. eauto.
Qed.

Lemma argptr_safe m p n size q :
  proc_ok p → size < 2147483648 → argptr m p n size = Some q →
  0 ≤ size ∧ p_offset p ≤ q ∧ q + size ≤ p_offset p + p_sz p.
Proof.
  intros (H0 & Hsz & Hw) Hsize. unfold argptr. destruct (argint m p n) as [i|]; cbn [mbind option_bind]; [|done].
  destruct (_ || _) eqn:Hc; [done|]. apply orb_false_iff in Hc as [Hc H3]. apply orb_false_iff in Hc as [H1 H2].
  rewrite Z.ltb_ge in H1. rewrite Z.geb_leb, Z.leb_gt in H2. rewrite Z.gtb_ltb, Z.ltb_ge in H3.
  pose proof (u32_range i) as Hi. rewrite u32_small in H3 by lia. intros [= <-].
  assert (u32 (i + p_offset p) = u32 i + p_offset p) as ->.
  { unfold u32. rewrite <- Zplus_mod_idemp_l. fold (u32 i). apply Z.mod_small. lia. }
  lia.
Qed.

Lemma fetchstr_scan_spec m fuel s ep pp l :
  fetchstr_scan m fuel s ep pp = Some l →
  pp + l < ep ∧ s ≤ pp + l ∧ m (pp + l) = 0 ∧ ∀ x, s ≤ x < pp + l → m x ≠ 0.
Proof.
  revert s. induction fuel as [|fuel IH]; intros s; cbn [fetchstr_scan]; [done|].
  destruct (Z.ltb_spec s ep) as [Hlt|]; [|done]. destruct (Z.eqb_spec (m s) 0) as [Hz|Hz].
  - intros [= <-]. replace (pp + (s - pp)) with s by lia. split_and!; [done|lia|done|lia].
  - intros (H1 & H2 & H3 & H4)%IH. split_and!; [done|lia|done|]. intros x Hx.
    destruct (decide (x = s)) as [->|]; [done|]. apply H4. lia.
Qed.

Lemma fetchstr_scan_found m fuel s ep pp x :
  s ≤ x < ep → m x = 0 → x - s < Z.of_nat fuel → is_Some (fetchstr_scan m fuel s ep pp).
Proof.
  revert s. induction fuel as [|fuel IH]; intros s Hx Hz Hf; [lia|]. cbn [fetchstr_scan].
  rewrite (proj2 (Z.ltb_lt s ep)) by lia. destruct (Z.eqb_spec (m s) 0); [eauto|].
  apply IH; [|done|lia]. destruct (decide (x = s)) as [->|]; [done|lia].
Qed.

Lemma fetchstr_safe m p addr l q :
  proc_ok p → 0 ≤ addr → fetchstr m p addr = Some (l, q) →
  q = p_offset p + addr ∧ 0 ≤ l ∧ addr + l < p_sz p ∧ m (q + l) = 0 ∧ ∀ x, q ≤ x < q + l → m x ≠ 0.
Proof.
  intros (H0 & Hsz & Hw) Ha. unfold fetchstr. destruct (Z.geb addr (p_sz p)) eqn:Hc; [done|].
  rewrite Z.geb_leb, Z.leb_gt in Hc. cbn zeta. rewrite !u32_small by lia.
  destruct (fetchstr_scan _ _ _ _ _) as [l'|] eqn:Hs; cbn [mbind option_bind]; [|done]. intros [= <- <-].
  apply fetchstr_scan_spec in Hs as (H1 & H2 & H3 & H4). split_and!; [lia|lia|lia|done|done].
Qed.

Lemma fetchstr_complete m p addr x :
  proc_ok p → 0 ≤ addr ≤ x → x < p_sz p → m (p_offset p + x) = 0 → is_Some (fetchstr m p addr).
Proof.
  intros (H0 & Hsz & Hw) Ha Hx Hz. unfold fetchstr. rewrite Z.geb_leb, (proj2 (Z.leb_gt _ _)) by lia.
  cbn zeta. rewrite !u32_small by lia.
  destruct (fetchstr_scan_found m (S (Z.to_nat (p_sz p))) (addr + p_offset p) (p_sz p + p_offset p) (addr + p_offset p) (p_offset p + x))
    as [l ->]; [lia|done|lia|]. cbn. eauto.
Qed.

(** [fdalloc] hands out the lowest free descriptor and changes no other. *)
Lemma fdalloc_scan_spec fd l r :
  fdalloc_scan fd l = Some r → ∃ k, r = (fd + k)%nat ∧ l !! k = Some None ∧ ∀ j, (j < k)%nat → ∃ f, l !! j = Some (Some f).
Proof.
  revert fd. induction l as [|[f|] l IH]; intros fd; cbn [fdalloc_scan]; [done| |].
  - intros (k & -> & Hk & Hlow)%IH. exists (S k). split_and!; [lia|done|]. intros [|j] Hj; [by exists f|].
    apply Hlow. lia.
  - intros [= <-]. exists 0%nat. split_and!; [lia|done|lia].
Qed.
Lemma fdalloc_scan_none fd l j :
  fdalloc_scan fd l = None → (j < length l)%nat → ∃ f, l !! j = Some (Some f).
Proof.
  revert fd j. induction l as [|[f|] l IH]; intros fd j; cbn [fdalloc_scan length]; [lia| |done].
  intros Hs Hj. destruct j as [|j]; [by exists f|]. apply (IH (S fd)); [done|lia].
Qed.
