(* ===== verification/Console.v ===== *)
(** * uart.c and console.c: the serial console

    The state is the processor, the driver's [uart] flag, the input ring
    [input] with its three indices, and the serial chip, which is a parameter:
    the class [Uart] of its port accesses, with the 8250 behaviour the driver
    relies on as the laws of [UartOk]. A [char] is its byte. [panic] is the
    [Panic] outcome of the model; what it prints before halting the machine is
    not modelled. *)

From S2P Require Import Prelude Spinlock CString.

Definition COM1 : Z := 0x3f8.
Definition INPUT_BUF : Z := 128.
Definition BACKSPACE : Z := 0x100.
Definition NL : Z := 10.
(** [C(x)]: control characters. *)
Definition ctrl (x : Z) : Z := x - 64.
Definition CTRL_P : Z := ctrl 80.
Definition CTRL_U : Z := ctrl 85.
Definition CTRL_H : Z := ctrl 72.
Definition CTRL_D : Z := ctrl 68.

Class Uart (U : Type) := {
  uart_inb : Z → U → Z * U;
  uart_outb : Z → Z → U → U;
}.

Record con (U : Type) := mk_con {
  ccpu : cpu;
  uart : Z;
  ibuf : list Z;
  ir : Z;
  iw : Z;
  ie : Z;
  uhw : U;
}.
Arguments mk_con {U}.
Arguments ccpu {U}.
Arguments uart {U}.
Arguments ibuf {U}.
Arguments ir {U}.
Arguments iw {U}.
Arguments ie {U}.
Arguments uhw {U}.

(** Arguments of a variadic call: a word, or a string pointer ([None]: null). *)
Inductive vararg := AWord (v : Z) | AStr (s : option (list Z)).

(** [digits[d]] of the static table "0123456789abcdef". *)
Definition digit (d : Z) : Z := if d <? 10 then 48 + d else 87 + d.

(** The do-while of [printint]: [buf] is [buf[0..i-1]]; the array has 16
    entries. *)
Fixpoint printint_digits (dig : Z → Z) (fuel : nat) (x base : Z) (buf : list Z) : option (list Z) :=
  match fuel with
  | O => None
  | S fuel =>
      let buf := buf ++ [dig (x mod base)] in
      let x := x / base in
      if negb (x =? 0) then printint_digits dig fuel x base buf else Some buf
  end.

Section console.
Context {U : Type} {dev : Uart U}.

Definition set_ccpu v (s : con U) : con U := mk_con v (uart s) (ibuf s) (ir s) (iw s) (ie s) (uhw s).
Definition set_uart v (s : con U) : con U := mk_con (ccpu s) v (ibuf s) (ir s) (iw s) (ie s) (uhw s).
Definition set_ibuf v (s : con U) : con U := mk_con (ccpu s) (uart s) v (ir s) (iw s) (ie s) (uhw s).
Definition set_ir v (s : con U) : con U := mk_con (ccpu s) (uart s) (ibuf s) v (iw s) (ie s) (uhw s).
Definition set_iw v (s : con U) : con U := mk_con (ccpu s) (uart s) (ibuf s) (ir s) v (ie s) (uhw s).
Definition set_ie v (s : con U) : con U := mk_con (ccpu s) (uart s) (ibuf s) (ir s) (iw s) v (uhw s).
Definition set_uhw v (s : con U) : con U := mk_con (ccpu s) (uart s) (ibuf s) (ir s) (iw s) (ie s) v.
Definition con_cpu {A} (m : M cpu A) : M (con U) A := zoom ccpu set_ccpu m.

Definition u_inb (port : Z) : M (con U) Z := λ s,
  let '(v, u) := uart_inb port (uhw s) in Ok (v, set_uhw u s).
Definition u_outb (port data : Z) : M (con U) unit :=
  modify (λ s, set_uhw (uart_outb port (u8 data) (uhw s)) s).

(** ** uart.c *)
Fixpoint uart_wait (fuel : nat) : M (con U) unit :=
  match fuel with
  | O => mret tt
  | S fuel =>
      r ← u_inb (COM1 + 5);
      if Z.land r 0x20 =? 0 then uart_wait fuel else mret tt
  end.
Definition uartputc (c : Z) : M (con U) unit :=
  u ← gets uart;
  if u =? 0 then mret tt else
  uart_wait 128;;
  u_outb (COM1 + 0) c.

Definition uartgetc : M (con U) Z :=
  u ← gets uart;
  if u =? 0 then mret (-1) else
  r ← u_inb (COM1 + 5);
  if Z.land r 0x01 =? 0 then mret (-1) else u_inb (COM1 + 0).

(** [for(p="xv6...\n"; *p; p++) uartputc( *p);] *)
Fixpoint uart_puts (s : list Z) : M (con U) unit :=
  match s with
  | [] => mret tt
  | c :: s => uartputc c;; uart_puts s
  end.
(** [uartinit] up to the call of [ioapicenable]; the result says whether there
    is a chip, without which it returns here. *)
Definition uartinit_probe : M (con U) bool :=
  u_outb (COM1 + 2) 0;;
  u_outb (COM1 + 3) 0x80;;
  u_outb (COM1 + 0) (115200 / 9600);;
  u_outb (COM1 + 1) 0;;
  u_outb (COM1 + 3) 0x03;;
  u_outb (COM1 + 4) 0;;
  u_outb (COM1 + 1) 0x01;;
  r ← u_inb (COM1 + 5);
  if r =? 0xFF then mret false else
  modify (set_uart 1);;
  u_inb (COM1 + 2);;
  u_inb (COM1 + 0);;
  mret true.
(** And from there on. *)
Definition uartinit_announce : M (con U) unit := uart_puts [120; 118; 54; 46; 46; 46; 10].

(** ** Output *)
Definition consputc (c : Z) : M (con U) unit :=
  if c =? BACKSPACE then uartputc 8;; uartputc 32;; uartputc 8 else uartputc c.

Fixpoint cons_puts (s : list Z) : M (con U) unit :=
  match s with
  | [] => mret tt
  | c :: s => consputc c;; cons_puts s
  end.

Definition printint (xx base sign : Z) : M (con U) unit :=
  let neg := negb (sign =? 0) && (xx <? 0) in
  let x := if neg then u32 (- xx) else u32 xx in
  match printint_digits digit 16 x base [] with
  | None => undef
  | Some buf =>
      let buf := if neg then buf ++ [45] else buf in
      if bool_decide (length buf ≤ 16)%nat then cons_puts (reverse buf) else undef
  end.

(** The bytes of a C string up to its NUL. *)
Fixpoint puts_str (s : list Z) : M (con U) unit :=
  match s with
  | [] => undef
  | c :: s => if c =? 0 then mret tt else consputc c;; puts_str s
  end.
Definition null_str : list Z := [40; 110; 117; 108; 108; 41; 0].

(** The format loop from [fmt[i]] on, with the arguments still to be read. *)
Fixpoint cprintf_loop (fmt : list Z) (args : list vararg) : M (con U) unit :=
  match fmt with
  | [] => undef
  | c :: fmt =>
      if c =? 0 then mret tt else
      if negb (c =? 37) then consputc c;; cprintf_loop fmt args else
      match fmt with
      | [] => undef
      | c :: fmt =>
          if c =? 0 then mret tt else
          if c =? 100 then
            match args with
            | AWord v :: args => printint (s32 v) 10 1;; cprintf_loop fmt args
            | _ => undef
            end
          else if (c =? 120) || (c =? 112) then
            match args with
            | AWord v :: args => printint (s32 v) 16 0;; cprintf_loop fmt args
            | _ => undef
            end
          else if c =? 115 then
            match args with
            | AStr s :: args => puts_str (default null_str s);; cprintf_loop fmt args
            | _ => undef
            end
          else if c =? 37 then consputc 37;; cprintf_loop fmt args
          else consputc 37;; consputc c;; cprintf_loop fmt args
      end
  end.
Definition cprintf (fmt : option (list Z)) (args : list vararg) : M (con U) unit :=
  con_cpu pushcli;;
  match fmt with
  | None => panic "null fmt"
  | Some fmt => cprintf_loop fmt args;; con_cpu popcli
  end.

(** ** Input *)
Definition get_ibuf (i : Z) : M (con U) Z := getopt (λ s, ibuf s !! Z.to_nat (i mod INPUT_BUF)).
Definition put_ibuf (i c : Z) : M (con U) unit :=
  modify (λ s, set_ibuf (<[Z.to_nat (i mod INPUT_BUF) := c]> (ibuf s)) s).

(** [^U]: erase back to the start of the line. *)
Fixpoint kill_line (fuel : nat) : M (con U) unit :=
  match fuel with
  | O => hang
  | S fuel =>
      s ← get;
      if negb (ie s =? iw s) then
        c ← get_ibuf (u32 (ie s - 1));
        if negb (c =? NL) then
          modify (λ s, set_ie (u32 (ie s - 1)) s);;
          consputc BACKSPACE;;
          kill_line fuel
        else mret tt
      else mret tt
  end.

(** The body of the loop of [consoleintr] for one character; the result says
    whether it asked for a process dump. *)
Definition consoleintr_char (c : Z) : M (con U) bool :=
  if c =? CTRL_P then mret true
  else if c =? CTRL_U then kill_line (S (Z.to_nat INPUT_BUF));; mret false
  else if (c =? CTRL_H) || (c =? 0x7f) then
    s ← get;
    (if negb (ie s =? iw s) then
       modify (λ s, set_ie (u32 (ie s - 1)) s);;
       consputc BACKSPACE
     else mret tt);;
    mret false
  else
    s ← get;
    if negb (c =? 0) && (u32 (ie s - ir s) <? INPUT_BUF) then
      let c := if c =? 13 then NL else c in
      put_ibuf (ie s) (u8 c);;
      modify (λ s, set_ie (u32 (ie s + 1)) s);;
      consputc c;;
      s ← get;
      (if (c =? NL) || (c =? CTRL_D) || (ie s =? u32 (ir s + INPUT_BUF)) then modify (λ s, set_iw (ie s) s)
       else mret tt);;
      mret false
    else mret false.

(** proc.c's [procdump], run after the input has been taken. *)
Context (procdump : M (con U) unit).

Fixpoint consoleintr_loop (fuel : nat) (getc : M (con U) Z) (doprocdump : bool) : M (con U) bool :=
  match fuel with
  | O => hang
  | S fuel =>
      c ← getc;
      if c >=? 0 then
        d ← consoleintr_char c;
        consoleintr_loop fuel getc (doprocdump || d)
      else mret doprocdump
  end.
(** [fuel] bounds how many characters the chip delivers in one interrupt. *)
Definition consoleintr (fuel : nat) (getc : M (con U) Z) : M (con U) unit :=
  d ← consoleintr_loop fuel getc false;
  if (d : bool) then procdump else mret tt.
Definition uartintr (fuel : nat) : M (con U) unit := consoleintr fuel uartgetc.

(** [while(input.r == input.w);]: the wait ends only through the serial
    interrupt, taken when the processor accepts interrupts. *)
Definition consoleread_wait (fuel : nat) : M (con U) unit :=
  s ← get;
  if ir s =? iw s then
    if irq_on (ccpu s) then
      uartintr fuel;;
      s ← get;
      if ir s =? iw s then hang else mret tt
    else hang
  else mret tt.

(** Returns what is left of [n] and the bytes stored through [dst]. *)
Fixpoint consoleread_loop (fuel : nat) (k : nat) (target : nat) (dst : list Z) : M (con U) (nat * list Z) :=
  match k with
  | O => mret (O, dst)
  | S k' =>
      consoleread_wait fuel;;
      s ← get;
      c ← get_ibuf (ir s);
      modify (λ s, set_ir (u32 (ir s + 1)) s);;
      if c =? CTRL_D then
        (if bool_decide (k < target)%nat then modify (λ s, set_ir (u32 (ir s - 1)) s) else mret tt);;
        mret (k, dst)
      else if c =? NL then mret (k', dst ++ [c])
      else consoleread_loop fuel k' target (dst ++ [c])
  end.
Definition consoleread (fuel : nat) (n : Z) : M (con U) (Z * list Z) :=
  let k := Z.to_nat n in
  r ← consoleread_loop fuel k k [];
  mret (if n <=? 0 then 0 else n - Z.of_nat r.1, r.2).

Fixpoint consolewrite_loop (k : nat) (buf : list Z) : M (con U) unit :=
  match k with
  | O => mret tt
  | S k =>
      match buf with
      | [] => undef
      | c :: buf => consputc (Z.land c 0xff);; consolewrite_loop k buf
      end
  end.
Definition consolewrite (buf : list Z) (n : Z) : M (con U) Z :=
  con_cpu pushcli;;
  consolewrite_loop (Z.to_nat n) buf;;
  con_cpu popcli;;
  mret n.
End console.
