(* ===== verification/ConsoleFacts.v ===== *)
(** * console.c: what is printed and how lines are edited

    [printint] prints the numeral of its argument and never overruns its
    buffer; the input ring refines a pair of lists, the finished lines and the
    line being edited. *)

From S2P Require Import Prelude Spinlock CString Console.

(** ** The serial chip

    [rx]: bytes received and not yet read; [tx]: bytes transmitted. The
    transmitter is always ready, as on the emulated 16550 the kernel runs on. *)
Class UartOk (U : Type) {dev : Uart U} := {
  rx : U → list Z;
  tx : U → list Z;
  rx_byte u : Forall (λ b, 0 ≤ b < 256) (rx u);
  lsr_ok u : let '(r, u') := uart_inb (COM1 + 5) u in
    rx u' = rx u ∧ tx u' = tx u ∧ Z.testbit r 5 = true ∧ Z.testbit r 0 = negb (bool_decide (rx u = []));
  rbr_ok u b l : rx u = b :: l → let '(r, u') := uart_inb (COM1 + 0) u in
    r = b ∧ rx u' = l ∧ tx u' = tx u;
  thr_ok u x : let u' := uart_outb (COM1 + 0) x u in rx u' = rx u ∧ tx u' = tx u ++ [x];
}.

(** ** Numerals *)
Definition numeral (base : Z) (ds : list Z) : Z := foldl (λ a d, a * base + d) 0 ds.

Lemma numeral_snoc base ds d : numeral base (ds ++ [d]) = numeral base ds * base + d.
Proof. unfold numeral. by rewrite foldl_app. Qed.

(** The canonical numeral of [x]: no leading zero. *)
Definition numeral_of (base x : Z) (ds : list Z) : Prop :=
  numeral base ds = x ∧ Forall (λ d, 0 ≤ d < base) ds ∧ ds ≠ [] ∧ (head ds = Some 0 → ds = [0]).

(** It is the only one. *)
Lemma numeral_pos base ds : 0 < base → Forall (λ d, 0 ≤ d < base) ds → ds ≠ [] → head ds ≠ Some 0 → 0 < numeral base ds.
Proof.
  intros Hb HF Hne. induction ds as [|d ds IH] using rev_ind; [done|]. clear Hne. intros Hh. rewrite numeral_snoc.
  apply Forall_app in HF as [HF [Hd _]%Forall_cons]. destruct ds as [|e ds]; [|specialize (IH HF ltac:(done) Hh); nia].
  unfold numeral. cbn in *. assert (d ≠ 0) by congruence. lia.
Qed.
Lemma numeral_unique base x ds ds' : 0 < base → numeral_of base x ds → numeral_of base x ds' → ds = ds'.
Proof.
  intros Hb. revert x ds'. induction ds as [|d ds IH] using rev_ind; intros x ds' (Hv & HF & Hne & Hh) (Hv' & HF' & Hne' & Hh'); [done|].
  destruct ds' as [|d' ds' _] using rev_ind; [done|]. clear Hne Hne'. rewrite numeral_snoc in Hv, Hv'.
  apply Forall_app in HF as [HF [Hd _]%Forall_cons]. apply Forall_app in HF' as [HF' [Hd' _]%Forall_cons].
  assert (numeral base ds = numeral base ds' ∧ d = d') as [Hn ->].
  { apply (Z.div_mod_unique base); [lia|lia|nia]. }
  f_equal. assert (∀ l e, (head (l ++ [e]) = Some 0 → l ++ [e] = [0]) → l ≠ [] → head l ≠ Some 0) as Hlead.
  { intros [|a l] e Hl Hn0; [done|]. intros [=]; subst. specialize (Hl eq_refl). by destruct l. }
  destruct (decide (ds = [])) as [->|H1], (decide (ds' = [])) as [->|H2]; [done| | |].
  - pose proof (numeral_pos base ds' Hb HF' H2 (Hlead _ _ Hh' H2)) as Hpos. rewrite <- Hn in Hpos. done.
  - pose proof (numeral_pos base ds Hb HF H1 (Hlead _ _ Hh H1)) as Hpos. rewrite Hn in Hpos. done.
  - apply (IH (numeral base ds)); split_and!; try done; intros H; exfalso; [by eapply (Hlead ds)|by eapply (Hlead ds')].
Qed.

Lemma printint_digits_spec dig base k x buf :
  2 ≤ base → 0 ≤ x < base ^ Z.of_nat (S k) →
  ∃ ds, printint_digits dig (S k) x base buf = Some (buf ++ reverse (dig <$> ds)) ∧
    numeral_of base x ds ∧ (length ds ≤ S k)%nat.
Proof.
  intros Hb. revert x buf. induction k as [|k IH]; intros x buf Hx.
  - change (base ^ Z.of_nat 1) with (base ^ 1) in Hx. rewrite Z.pow_1_r in Hx.
    exists [x]. cbn [printint_digits]. rewrite Z.mod_small, Z.div_small by lia. cbn.
    split_and!; try done. unfold numeral_of, numeral. cbn. split_and!; try done; [|congruence].
    apply Forall_singleton. lia.
  - destruct (Z.eq_dec (x / base) 0) as [H0|H0].
    + exists [x]. assert (x < base) as Hlt.
      { apply Z.div_small_iff in H0; lia. }
      cbn [printint_digits]. rewrite H0, Z.mod_small by lia. cbn.
      split_and!; try done; try lia. unfold numeral_of, numeral. cbn. split_and!; try done; [|congruence].
      apply Forall_singleton. lia.
    + change (printint_digits dig (S (S k)) x base buf) with
        (if negb (x / base =? 0) then printint_digits dig (S k) (x / base) base (buf ++ [dig (x mod base)])
         else Some (buf ++ [dig (x mod base)])).
      rewrite (proj2 (Z.eqb_neq _ _) H0). cbn [negb].
      destruct (IH (x / base) (buf ++ [dig (x mod base)])) as (ds & Hd & (Hv & HF & Hne & Hlead) & Hl).
      { split; [apply Z.div_pos; lia|]. apply Z.div_lt_upper_bound; [lia|].
        rewrite (Nat2Z.inj_succ (S k)), Z.pow_succ_r in Hx by lia. lia. }
      exists (ds ++ [x mod base]). split_and!.
      * rewrite Hd, fmap_app, reverse_app. cbn. by rewrite <- app_assoc.
      * unfold numeral_of. rewrite numeral_snoc, Hv. split_and!.
        -- pose proof (Z_div_mod_eq_full x base). lia.
        -- apply Forall_app. split; [done|]. apply Forall_singleton. apply Z.mod_pos_bound. lia.
        -- by destruct ds.
        -- intros Hh. destruct ds as [|d ds]; [done|]. cbn in Hh. injection Hh as ->.
           rewrite (Hlead eq_refl) in Hv. unfold numeral in Hv. cbn in Hv. lia.
      * rewrite length_app. cbn. lia.
Qed.

(** Sixteen characters are enough for any word. *)
Lemma numeral_digits base x : base = 10 ∨ base = 16 → 0 ≤ x < 4294967296 →
  ∃ ds, printint_digits digit 16 x base [] = Some (reverse (digit <$> ds)) ∧ numeral_of base x ds ∧ (length ds ≤ 10)%nat.
Proof.
  intros Hb Hx. assert (0 ≤ x < base ^ Z.of_nat 10) as Hpow.
  { split; [lia|]. eapply Z.lt_le_trans; [apply Hx|]. by destruct Hb as [->| ->]. }
  destruct (printint_digits_spec digit base 9 x []) as (ds & Hd & Hn & Hl); [destruct Hb; lia|done|].
  exists ds. split_and!; [|done|done].
  assert (∀ k k' y b r, printint_digits digit k y base b = Some r →
    printint_digits digit (k + k') y base b = Some r) as Hmono.
  { clear. induction k as [|k IH]; intros k' y b r; cbn [printint_digits Nat.add]; [done|].
    destruct (negb _); [apply IH|done]. }
  by apply (Hmono 10%nat 6%nat).
Qed.

Section facts.
Context {U : Type} {dev : Uart U} {uok : UartOk U}.
Implicit Types s : con U.

(** [says s s' bs]: only the chip changed, and it transmitted [bs]. *)
Definition says s s' (bs : list Z) : Prop :=
  ∃ u, s' = set_uhw u s ∧ rx u = rx (uhw s) ∧ tx u = tx (uhw s) ++ bs.

Lemma says_refl s : says s s [].
Proof. exists (uhw s). rewrite app_nil_r. by destruct s. Qed.
Lemma says_trans s1 s2 s3 bs1 bs2 : says s1 s2 bs1 → says s2 s3 bs2 → says s1 s3 (bs1 ++ bs2).
Proof.
  intros (u1 & -> & Hr1 & Ht1) (u2 & -> & Hr2 & Ht2). cbn [uhw set_uhw] in *. exists u2.
  split_and!; [done|congruence|]. by rewrite Ht2, Ht1, app_assoc.
Qed.
Lemma says_uart s s' bs : says s s' bs → uart s' = uart s.
Proof. by intros (u & -> & _). Qed.

Lemma wp_uart_lsr E (Q : Z → con U → Prop) s :
  (∀ r s', says s s' [] → Z.testbit r 5 = true → Z.testbit r 0 = negb (bool_decide (rx (uhw s) = [])) → Q r s') →
  wp E (u_inb (COM1 + 5)) Q s.
Proof.
  intros HQ. unfold wp, u_inb. pose proof (lsr_ok (uhw s)) as Hl.
  destruct (uart_inb (COM1 + 5) (uhw s)) as [r u']. destruct Hl as (Hr & Ht & H5 & H0).
  apply HQ; [|done|done]. exists u'. by rewrite app_nil_r.
Qed.

Lemma wp_uartputc E c (Q : unit → con U → Prop) s :
  uart s ≠ 0 → (∀ s', says s s' [u8 c] → Q tt s') → wp E (uartputc c) Q s.
Proof.
  intros Hu HQ. unfold uartputc. apply wp_bind, wp_gets. rewrite (proj2 (Z.eqb_neq _ _) Hu).
  apply wp_bind. cbn [uart_wait]. apply wp_bind, wp_uart_lsr. intros r s1 Hs1 H5 _.
  change 0x20 with (Z.shiftl 1 5). rewrite land_pow2_eq0, H5 by lia. cbn [negb]. apply wp_ret.
  apply wp_modify. apply HQ. destruct Hs1 as (u & -> & Hr & Ht). cbn [uhw set_uhw].
  destruct (thr_ok u (u8 c)) as [Hr' Ht']. eexists. split_and!; [done|congruence|].
  by rewrite Ht', Ht, app_nil_r.
Qed.

(** What reaches the wire for one character. *)
Definition glyph (c : Z) : list Z := if c =? BACKSPACE then [8; 32; 8] else [u8 c].

Lemma wp_consputc E c (Q : unit → con U → Prop) s :
  uart s ≠ 0 → (∀ s', says s s' (glyph c) → Q tt s') → wp E (consputc c) Q s.
Proof.
  intros Hu HQ. unfold consputc, glyph in *. destruct (c =? BACKSPACE); [|by apply wp_uartputc].
  apply wp_bind, wp_uartputc; [done|]. intros s1 H1.
  apply wp_bind, wp_uartputc; [by rewrite (says_uart _ _ _ H1)|]. intros s2 H2.
  apply wp_uartputc; [by rewrite (says_uart _ _ _ H2), (says_uart _ _ _ H1)|]. intros s3 H3.
  apply HQ. exact (says_trans _ _ _ _ _ H1 (says_trans _ _ _ _ _ H2 H3)).
Qed.

Lemma wp_cons_puts E bs (Q : unit → con U → Prop) s :
  uart s ≠ 0 → Forall (λ b, 0 ≤ b < 256) bs → (∀ s', says s s' bs → Q tt s') → wp E (cons_puts bs) Q s.
Proof.
  intros Hu Hbs. revert s Hu Q. induction Hbs as [|b bs Hb Hbs IH]; intros s Hu Q HQ; cbn [cons_puts].
  - apply wp_ret, HQ, says_refl.
  - apply wp_bind, wp_consputc; [done|]. intros s1 H1. apply IH; [by rewrite (says_uart _ _ _ H1)|].
    intros s2 H2. apply HQ. pose proof (says_trans _ _ _ _ _ H1 H2) as H12.
    unfold glyph in H12. rewrite (proj2 (Z.eqb_neq b BACKSPACE)), u8_small in H12 by (unfold BACKSPACE; lia). done.
Qed.

Lemma digit_byte d : 0 ≤ d < 16 → 0 ≤ digit d < 256.
Proof. intros. unfold digit. case_match; lia. Qed.

(** [printint] prints a minus sign where one is due and the numeral. *)
Lemma wp_printint E xx base sign (Q : unit → con U → Prop) s :
  uart s ≠ 0 → base = 10 ∨ base = 16 → -2147483648 ≤ xx < 2147483648 →
  (let neg := negb (sign =? 0) && (xx <? 0) in
   ∀ ds s', numeral_of base (if neg then - xx else u32 xx) ds →
     says s s' ((if neg then [45] else []) ++ (digit <$> ds)) → Q tt s') →
  wp E (printint xx base sign) Q s.
Proof.
  intros Hu Hb Hx HQ. cbn zeta in HQ. unfold printint. set (neg := negb (sign =? 0) && (xx <? 0)) in *.
  assert ((if neg then u32 (- xx) else u32 xx) = if neg then - xx else u32 xx) as ->.
  { destruct neg eqn:Hn; [|done]. apply andb_true_iff in Hn as [_ Hlt%Z.ltb_lt]. apply u32_small. lia. }
  set (x := if neg then - xx else u32 xx) in *.
  assert (0 ≤ x < 4294967296) as Hxr.
  { unfold x. destruct neg eqn:Hn; [|apply u32_range].
    apply andb_true_iff in Hn as [_ Hlt%Z.ltb_lt]. lia. }
  destruct (numeral_digits base x Hb Hxr) as (ds & Hd & Hn & Hl).
  rewrite Hd. specialize (HQ ds). destruct Hn as (Hv & HF & Hne & Hlead).
  rewrite bool_decide_eq_true_2.
  2: { destruct neg; rewrite ?length_app, length_reverse, length_fmap; cbn; lia. }
  assert (reverse (if neg then reverse (digit <$> ds) ++ [45] else reverse (digit <$> ds)) =
    (if neg then [45] else []) ++ (digit <$> ds)) as ->.
  { destruct neg; [rewrite reverse_app|]; rewrite reverse_involutive; done. }
  apply wp_cons_puts; [done| |].
  - apply Forall_app. split; [destruct neg; [apply Forall_singleton; lia|done]|].
    apply Forall_fmap. eapply Forall_impl; [exact HF|]. intros d Hdr. cbn beta in Hdr. apply digit_byte. destruct Hb; lia.
  - intros s' Hs. apply HQ; done.
Qed.

(** ** The input ring

    [ring_rep s q l]: [q] holds the finished input, oldest first, and [l] the
    line being edited. *)
Record ring_rep s (q l : list Z) : Prop := {
  rr_uart : uart s ≠ 0;
  rr_len : length (ibuf s) = 128%nat;
  rr_r : 0 ≤ ir s < 4294967296;
  rr_w : iw s = u32 (ir s + Z.of_nat (length q));
  rr_e : ie s = u32 (ir s + Z.of_nat (length q + length l));
  rr_fit : (length q + length l ≤ 128)%nat;
  rr_data i c : (q ++ l) !! i = Some c → ibuf s !! Z.to_nat ((ir s + Z.of_nat i) mod INPUT_BUF) = Some c;
  rr_line : NL ∉ l;
}.

Lemma ring_rep_says s s' bs q l : ring_rep s q l → says s s' bs → ring_rep s' q l.
Proof. intros [] (u & -> & _). by constructor. Qed.

Lemma u32_mod z : u32 z mod INPUT_BUF = z mod INPUT_BUF.
Proof.
  unfold u32, INPUT_BUF. change 4294967296 with (128 * 33554432).
  rewrite Z.rem_mul_r by lia. rewrite Z.mul_comm, Z_mod_plus_full, Z.mod_mod by lia. done.
Qed.
Lemma u32_sub a b : u32 (u32 a - b) = u32 (a - b).
Proof. unfold u32. apply Zminus_mod_idemp_l. Qed.
Lemma u32_add a b : u32 (u32 a + b) = u32 (a + b).
Proof. unfold u32. apply Zplus_mod_idemp_l. Qed.
Lemma u32_eqb a k j : 0 ≤ k < 4294967296 → 0 ≤ j < 4294967296 → (u32 (a + k) =? u32 (a + j)) = (k =? j).
Proof.
  intros Hk Hj. destruct (Z.eqb_spec k j) as [->|Hne]; [apply Z.eqb_refl|].
  apply Z.eqb_neq. intros He. apply Hne.
  assert (u32 (u32 (a + k) - a) = u32 (u32 (a + j) - a)) as H by by rewrite He.
  rewrite !u32_sub in H. replace (a + k - a) with k in H by lia. replace (a + j - a) with j in H by lia.
  by rewrite !u32_small in H.
Qed.

Lemma slot_inj a i j :
  (i < 128)%nat → (j < 128)%nat → Z.to_nat ((a + Z.of_nat i) mod INPUT_BUF) = Z.to_nat ((a + Z.of_nat j) mod INPUT_BUF) → i = j.
Proof.
  unfold INPUT_BUF. intros Hi Hj He.
  pose proof (Z.mod_pos_bound (a + Z.of_nat i) 128 ltac:(lia)). pose proof (Z.mod_pos_bound (a + Z.of_nat j) 128 ltac:(lia)).
  assert ((a + Z.of_nat i) mod 128 = (a + Z.of_nat j) mod 128) as Hm by lia.
  pose proof (Z_div_mod_eq_full (a + Z.of_nat i) 128). pose proof (Z_div_mod_eq_full (a + Z.of_nat j) 128). lia.
Qed.

(** Dropping the last byte of the line being edited. *)
Lemma ring_drop_last s q l c :
  ring_rep s q (l ++ [c]) → ring_rep (set_ie (u32 (ie s - 1)) s) q l.
Proof.
  intros [Hu Hl Hr Hw He Hf Hd Hn]. rewrite length_app in *. cbn [length] in *.
  constructor; cbn [uart ibuf ir iw ie set_ie]; try done.
  - rewrite He, u32_sub. f_equal. lia.
  - lia.
  - intros i c' Hi. apply Hd. rewrite app_assoc. by apply lookup_app_l_Some.
  - set_solver.
Qed.

Lemma kill_tail q l : l = [] ∨ ∃ l' (c : Z), l = l' ++ [c] ∧ (q ++ l) !! (length q + length l')%nat = Some c.
Proof.
  destruct l as [|c l' _] using rev_ind; [by left|]. right. exists l', c. split; [done|].
  rewrite app_assoc, lookup_app_r by (rewrite length_app; lia). rewrite length_app.
  replace (length q + length l' - _)%nat with 0%nat by lia. done.
Qed.

Lemma ring_last s q l c :
  ring_rep s q (l ++ [c]) → ibuf s !! Z.to_nat (u32 (ie s - 1) mod INPUT_BUF) = Some c.
Proof.
  intros [Hu Hl Hr Hw He Hf Hd Hn]. rewrite u32_mod.
  assert ((ie s - 1) mod INPUT_BUF = (ir s + Z.of_nat (length q + length l)) mod INPUT_BUF) as ->.
  { rewrite <- u32_mod, He, u32_sub, u32_mod. f_equal. rewrite length_app. cbn. lia. }
  apply Hd. rewrite app_assoc, lookup_app_r by (rewrite length_app; lia). rewrite length_app.
  replace (length q + length l - _)%nat with 0%nat by lia. done.
Qed.

Lemma ring_editing s q l : ring_rep s q l → (ie s =? iw s) = bool_decide (l = []).
Proof.
  intros [Hu Hl Hr Hw He Hf Hd Hn]. rewrite He, Hw, u32_eqb by lia.
  case_bool_decide as Hb; [subst; apply Z.eqb_eq; cbn; lia|]. apply Z.eqb_neq. destruct l; [done|]. cbn. lia.
Qed.

(** On the wire a character is erased by going back over it. *)
Definition rubout : list Z := [8; 32; 8].
Lemma wp_kill_line E fuel q l (Q : unit → con U → Prop) s :
  ring_rep s q l → (length l < fuel)%nat →
  (∀ s', ring_rep s' q [] → rx (uhw s') = rx (uhw s) → ccpu s' = ccpu s →
     tx (uhw s') = tx (uhw s) ++ concat (replicate (length l) rubout) → Q tt s') →
  wp E (kill_line fuel) Q s.
Proof.
  revert l s. induction fuel as [|fuel IH]; intros l s Hrep Hf HQ; [lia|]. cbn [kill_line].
  apply wp_bind, wp_get. rewrite (ring_editing _ _ _ Hrep).
  destruct (kill_tail q l) as [->|(l' & c & -> & _)].
  - rewrite bool_decide_eq_true_2 by done. apply wp_ret. apply HQ; try done. by rewrite app_nil_r.
  - rewrite bool_decide_eq_false_2 by (by destruct l'). cbn [negb].
    apply wp_bind. eapply wp_getopt; [by eapply ring_last|].
    rewrite (proj2 (Z.eqb_neq c NL)); [|pose proof (rr_line _ _ _ Hrep); set_solver]. cbn [negb].
    apply wp_bind, wp_modify. apply wp_bind, wp_consputc; [apply (rr_uart _ _ _ Hrep)|].
    intros s1 Hs1. rewrite length_app in Hf. cbn in Hf.
    apply (IH l'); [by eapply ring_rep_says, Hs1; apply ring_drop_last in Hrep|lia|].
    intros s2 H2 Hrx Hc Ht. destruct Hs1 as (u & -> & Hru & Htu). cbn [uhw set_uhw ccpu set_ie] in *.
    apply HQ; [done|congruence|congruence|]. rewrite Ht, Htu, length_app, Nat.add_1_r. cbn [replicate concat]. by rewrite <- app_assoc.
Qed.

(** The effect of one key on finished input and current line. *)
Definition key (c : Z) (ql : list Z * list Z) : list Z * list Z :=
  let '(q, l) := ql in
  if c =? CTRL_P then (q, l)
  else if c =? CTRL_U then (q, [])
  else if (c =? CTRL_H) || (c =? 0x7f) then (q, take (length l - 1) l)
  else if negb (c =? 0) && bool_decide (length q + length l < 128)%nat then
    let c := if c =? 13 then NL else c in
    let l := l ++ [c] in
    if (c =? NL) || (c =? CTRL_D) || bool_decide (length q + length l = 128)%nat then (q ++ l, []) else (q, l)
  else (q, l).

(** What is transmitted for it. *)
Definition echo (c : Z) (ql : list Z * list Z) : list Z :=
  let '(q, l) := ql in
  if c =? CTRL_P then []
  else if c =? CTRL_U then concat (replicate (length l) rubout)
  else if (c =? CTRL_H) || (c =? 0x7f) then (if decide (l = []) then [] else rubout)
  else if negb (c =? 0) && bool_decide (length q + length l < 128)%nat then [if c =? 13 then NL else c]
  else [].
Fixpoint echoes (cs : list Z) (ql : list Z * list Z) : list Z :=
  match cs with
  | [] => []
  | c :: cs => echo c ql ++ echoes cs (key c ql)
  end.

(** Storing a byte at the edit index. *)
Lemma ring_push s q l c :
  ring_rep s q l → (length q + length l < 128)%nat → 0 ≤ c < 256 →
  let s' := set_ie (u32 (ie s + 1)) (set_ibuf (<[Z.to_nat (ie s mod INPUT_BUF) := c]> (ibuf s)) s) in
  (c ≠ NL → ring_rep s' q (l ++ [c])) ∧
  ring_rep (set_iw (ie s') s') (q ++ l ++ [c]) [] ∧ (ie s' =? u32 (ir s' + INPUT_BUF)) = bool_decide (length q + length (l ++ [c]) = 128)%nat.
Proof.
  intros [Hu Hl Hr Hw He Hf Hd Hn] Hlt Hc s'.
  assert (ie s mod INPUT_BUF = (ir s + Z.of_nat (length q + length l)) mod INPUT_BUF) as Hslot.
  { by rewrite He, u32_mod. }
  assert (u32 (ie s + 1) = u32 (ir s + Z.of_nat (length q + length (l ++ [c])))) as He'.
  { rewrite He, u32_add, length_app. cbn [length]. f_equal. lia. }
  assert (∀ i c', (q ++ l ++ [c]) !! i = Some c' →
    <[Z.to_nat (ie s mod INPUT_BUF) := c]> (ibuf s) !! Z.to_nat ((ir s + Z.of_nat i) mod INPUT_BUF) = Some c') as Hd'.
  { intros i c' Hi. assert (i < 128)%nat as Hib.
    { apply lookup_lt_Some in Hi. rewrite !length_app in Hi. cbn in Hi. lia. }
    rewrite app_assoc in Hi. destruct (decide (i = length q + length l)%nat) as [->|Hne].
    - rewrite lookup_app_r in Hi by (rewrite length_app; lia). rewrite length_app in Hi.
      replace (length q + length l - _)%nat with 0%nat in Hi by lia. cbn in Hi. injection Hi as <-.
      rewrite Hslot. apply list_lookup_insert_eq. rewrite Hl.
      pose proof (Z.mod_pos_bound (ir s + Z.of_nat (length q + length l)) INPUT_BUF ltac:(unfold INPUT_BUF; lia)).
      unfold INPUT_BUF in *. lia.
    - rewrite lookup_app_l in Hi.
      2: { apply lookup_lt_Some in Hi. rewrite !length_app in *. cbn in Hi. lia. }
      rewrite Hslot, list_lookup_insert_ne; [by apply Hd|].
      intros Heq. apply Hne. symmetry. by apply (slot_inj (ir s)); [lia|lia|]. }
  split_and!.
  - intros Hcn. constructor; cbn [uart ibuf ir iw ie set_ie set_ibuf s']; try done.
    + by rewrite length_insert.
    + rewrite length_app. cbn. lia.
    + set_solver.
  - constructor; cbn [uart ibuf ir iw ie set_ie set_ibuf set_iw s']; try done.
    + by rewrite length_insert.
    + rewrite He', !length_app; f_equal; cbn; lia.
    + rewrite He', !length_app; f_equal; cbn; lia.
    + rewrite !length_app. cbn. lia.
    + intros i c' Hi. apply Hd'. by rewrite app_nil_r in Hi.
    + set_solver.
  - cbn [ie ir set_ie set_ibuf s']. rewrite He'. rewrite u32_eqb by (rewrite ?length_app; unfold INPUT_BUF; cbn; lia).
    unfold INPUT_BUF. case_bool_decide as Hb; [apply Z.eqb_eq|apply Z.eqb_neq]; lia.
Qed.

Lemma wp_consoleintr_char E c q l (Q : bool → con U → Prop) s :
  ring_rep s q l → 0 ≤ c < 256 →
  (∀ s', ring_rep s' (key c (q, l)).1 (key c (q, l)).2 → rx (uhw s') = rx (uhw s) → ccpu s' = ccpu s →
     tx (uhw s') = tx (uhw s) ++ echo c (q, l) → Q (c =? CTRL_P) s') →
  wp E (consoleintr_char c) Q s.
Proof.
  intros Hrep Hc HQ. unfold consoleintr_char, key, echo in *. pose proof (app_nil_r (tx (uhw s))) as Hnil.
  destruct (c =? CTRL_P); [apply wp_ret; by apply HQ|].
  destruct (c =? CTRL_U).
  { apply wp_bind. eapply wp_kill_line; [done| |].
    - pose proof (rr_fit _ _ _ Hrep). unfold INPUT_BUF. lia.
    - intros s' H' Hrx Hcc Ht. apply wp_ret. by apply HQ. }
  destruct ((c =? CTRL_H) || (c =? 0x7f)).
  { apply wp_bind, wp_get. rewrite (ring_editing _ _ _ Hrep).
    destruct (kill_tail q l) as [->|(l' & c' & -> & _)].
    - rewrite bool_decide_eq_true_2 by done. apply wp_bind, wp_ret, wp_ret. by apply HQ.
    - rewrite bool_decide_eq_false_2 by (by destruct l'). cbn [negb].
      apply wp_bind, wp_bind, wp_modify. apply wp_consputc; [apply (rr_uart _ _ _ Hrep)|].
      intros s1 Hs1. apply wp_ret.
      apply HQ; [|by destruct Hs1 as (u & -> & Hru & _)|by destruct Hs1 as (u & -> & _)|destruct Hs1 as (u & -> & _ & Ht); by destruct l'].
      cbn [fst snd]. rewrite length_app. cbn [length]. rewrite Nat.add_sub, take_app_length.
      eapply ring_rep_says, Hs1. by eapply ring_drop_last. }
  apply wp_bind, wp_get.
  assert ((u32 (ie s - ir s) <? INPUT_BUF) = bool_decide (length q + length l < 128)%nat) as ->.
  { pose proof (rr_fit _ _ _ Hrep). rewrite (rr_e _ _ _ Hrep), u32_sub.
    replace (ir s + _ - ir s) with (Z.of_nat (length q + length l)) by lia. rewrite u32_small by lia.
    unfold INPUT_BUF. case_bool_decide; [apply Z.ltb_lt|apply Z.ltb_ge]; lia. }
  destruct (negb (c =? 0) && bool_decide (length q + length l < 128)%nat) eqn:Hcond;
    [|apply wp_ret; by apply HQ].
  apply andb_true_iff in Hcond as [_ Hlt%bool_decide_eq_true]. cbn zeta in *.
  set (c1 := if c =? 13 then NL else c) in *.
  assert (0 ≤ c1 < 256) as Hc1 by (unfold c1, NL; destruct (c =? 13); lia).
  rewrite (u8_small c1) by done. apply wp_bind, wp_modify. apply wp_bind, wp_modify.
  destruct (ring_push s q l c1 Hrep Hlt Hc1) as (Hline & Hdone & Hfull). cbn zeta in *.
  cbn [ie set_ibuf] in *. set (s1 := set_ie _ _) in *.
  apply wp_bind, wp_consputc; [apply (rr_uart _ _ _ Hrep)|]. intros s2 Hs2.
  apply wp_bind, wp_get. destruct Hs2 as (u & -> & Hru & Htu). cbn [ie ir set_uhw].
  unfold glyph in Htu. rewrite (proj2 (Z.eqb_neq c1 BACKSPACE)), u8_small in Htu by (unfold BACKSPACE; lia).
  rewrite Hfull. apply wp_bind.
  destruct ((c1 =? NL) || (c1 =? CTRL_D) || _) eqn:Hcommit.
  - apply wp_modify, wp_ret, HQ; [|done|done|done]. cbn [fst snd].
    eapply ring_rep_says; [exact Hdone|]. exists u. done.
  - apply wp_ret, wp_ret, HQ; [|done|done|done]. cbn [fst snd].
    apply orb_false_iff in Hcommit as [Hcm _]. apply orb_false_iff in Hcm as [Hnl%Z.eqb_neq _].
    eapply ring_rep_says; [by apply Hline|]. exists u. done.
Qed.

Lemma wp_uartgetc E (Q : Z → con U → Prop) s :
  uart s ≠ 0 →
  (rx (uhw s) = [] → ∀ s', says s s' [] → Q (-1) s') →
  (∀ b bs, rx (uhw s) = b :: bs → ∀ u, rx u = bs → tx u = tx (uhw s) → Q b (set_uhw u s)) →
  wp E uartgetc Q s.
Proof.
  intros Hu HQ1 HQ2. unfold uartgetc. apply wp_bind, wp_gets. rewrite (proj2 (Z.eqb_neq _ _) Hu).
  apply wp_bind, wp_uart_lsr. intros r s1 (u & -> & Hr & Ht) _ H0. rewrite app_nil_r in Ht.
  change 0x01 with (Z.shiftl 1 0). rewrite land_pow2_eq0, H0, negb_involutive by lia.
  case_bool_decide as Hb; [apply wp_ret, HQ1; [done|]; exists u; by rewrite app_nil_r|].
  destruct (rx (uhw s)) as [|b bs] eqn:Hrx; [done|]. unfold wp, u_inb. cbn [uhw set_uhw].
  pose proof (rbr_ok u b bs Hr) as Hrb. destruct (uart_inb (COM1 + 0) u) as [v u'].
  destruct Hrb as (-> & Hr' & Ht'). apply (HQ2 b bs eq_refl u'); congruence.
Qed.

(** One interrupt takes every pending byte through the line discipline. *)
Lemma wp_consoleintr_loop E fuel q l d (Q : bool → con U → Prop) s :
  ring_rep s q l → (length (rx (uhw s)) < fuel)%nat →
  (∀ s', let ql := foldl (λ ql c, key c ql) (q, l) (rx (uhw s)) in
     ring_rep s' ql.1 ql.2 → rx (uhw s') = [] → ccpu s' = ccpu s →
     tx (uhw s') = tx (uhw s) ++ echoes (rx (uhw s)) (q, l) → Q (d || bool_decide (CTRL_P ∈ rx (uhw s))) s') →
  wp E (consoleintr_loop fuel uartgetc d) Q s.
Proof.
  revert q l d s. induction fuel as [|fuel IH]; intros q l d s Hrep Hf HQ; [lia|]. cbn [consoleintr_loop].
  apply wp_bind, wp_uartgetc; [apply (rr_uart _ _ _ Hrep)| |].
  - intros Hrx s' Hs. change (-1 >=? 0) with false. apply wp_ret. rewrite Hrx in HQ.
    rewrite bool_decide_eq_false_2, orb_false_r in HQ by set_solver. apply HQ.
    + by eapply ring_rep_says.
    + destruct Hs as (u & -> & Hr & _). cbn [uhw set_uhw]. congruence.
    + by destruct Hs as (u & -> & _).
    + by destruct Hs as (u & -> & _ & Ht).
  - intros b bs Hrx u Hru Htu.
    assert (0 ≤ b < 256) as Hb.
    { pose proof (rx_byte (uhw s)) as HF. rewrite Hrx in HF. by apply Forall_cons in HF as [? _]. }
    rewrite Z.geb_leb, (proj2 (Z.leb_le 0 b)) by lia.
    assert (ring_rep (set_uhw u s) q l) as Hrep1 by (destruct Hrep; by constructor).
    apply wp_bind. eapply wp_consoleintr_char; [done|done|]. intros s2 Hrep2 Hrx2 Hcc2 Ht2.
    cbn [uhw set_uhw ccpu] in Hrx2, Hcc2, Ht2.
    eapply IH; [exact Hrep2|rewrite Hrx2, Hru; rewrite Hrx in Hf; cbn in Hf; lia|].
    intros s3. cbn zeta. rewrite Hrx2, Hru. intros H3 Hrx3 Hcc3 Ht3.
    replace (d || (b =? CTRL_P) || bool_decide (CTRL_P ∈ bs)) with (d || bool_decide (CTRL_P ∈ b :: bs)).
    2: { rewrite <- orb_assoc. f_equal. destruct (Z.eqb_spec b CTRL_P) as [->|Hne]; cbn [orb].
         - apply bool_decide_eq_true_2. set_solver.
         - apply bool_decide_ext. set_solver. }
    rewrite <- Hrx. apply HQ; [|done|congruence|]; rewrite Hrx; cbn [foldl echoes]; [by destruct (key b (q, l))|].
    rewrite Ht3, Ht2, Htu, <- app_assoc. by destruct (key b (q, l)).
Qed.

(** ** Reading finished input

    [read_line k first q]: what a read of at most [k] more bytes takes from [q]
    and what it leaves; [None] when it would wait for more input. *)
Fixpoint read_line (k : nat) (first : bool) (q : list Z) : option (list Z * list Z) :=
  match k with
  | O => Some ([], q)
  | S k =>
      match q with
      | [] => None
      | c :: q' =>
          if c =? CTRL_D then Some ([], if first then q' else q)
          else if c =? NL then Some ([c], q')
          else r ← read_line k false q'; Some (c :: r.1, r.2)
      end
  end.

Lemma line_length k first q bs q' : read_line k first q = Some (bs, q') → (length bs ≤ k)%nat.
Proof.
  revert first q bs. induction k as [|k IH]; intros first q bs; cbn [read_line]; [by intros [= <- _]|].
  destruct q as [|c q]; [done|]. destruct (c =? CTRL_D); [intros [= <- _]; cbn; lia|].
  destruct (c =? NL); [intros [= <- _]; cbn; lia|].
  destruct (read_line k false q) as [[bs1 q1]|] eqn:Hl; cbn; [|done]. intros [= <- <-].
  apply IH in Hl. cbn. lia.
Qed.

Lemma ring_pop s q c l :
  ring_rep s (c :: q) l → ibuf s !! Z.to_nat (ir s mod INPUT_BUF) = Some c ∧
  ring_rep (set_ir (u32 (ir s + 1)) s) q l ∧ (ir s =? iw s) = false ∧ u32 (u32 (ir s + 1) - 1) = ir s.
Proof.
  intros [Hu Hl Hr Hw He Hf Hd Hn]. cbn [length] in *. split_and!.
  - specialize (Hd 0%nat c eq_refl). by rewrite Z.add_0_r in Hd.
  - constructor; cbn [uart ibuf ir iw ie set_ir]; try done.
    + apply u32_range.
    + rewrite Hw, u32_add. f_equal. lia.
    + rewrite He, u32_add. f_equal. lia.
    + lia.
    + intros i c' Hi. specialize (Hd (S i) c' Hi).
      rewrite <- (u32_mod (u32 (ir s + 1) + Z.of_nat i)), u32_add, u32_mod.
      replace (ir s + 1 + Z.of_nat i) with (ir s + Z.of_nat (S i)) by lia. done.
  - rewrite Hw. rewrite <- (u32_small (ir s)) at 1 by done. rewrite <- (Z.add_0_r (ir s)) at 1.
    rewrite u32_eqb by lia. apply Z.eqb_neq. lia.
  - rewrite u32_sub. replace (ir s + 1 - 1) with (ir s) by lia. by apply u32_small.
Qed.

Lemma wp_consoleread_loop E pd fuel k target q l dst bs q' (Q : nat * list Z → con U → Prop) s :
  ring_rep s q l → (k ≤ target)%nat → read_line k (bool_decide (k = target)) q = Some (bs, q') →
  (∀ s', ring_rep s' q' l → rx (uhw s') = rx (uhw s) → Q ((k - length bs)%nat, dst ++ bs) s') →
  wp E (consoleread_loop pd fuel k target dst) Q s.
Proof.
  revert q dst bs s. induction k as [|k IH]; intros q dst bs s Hrep Hk Hline HQ; cbn [consoleread_loop read_line] in *.
  - simplify_eq. rewrite app_nil_r in HQ. apply wp_ret. by apply HQ.
  - destruct q as [|c q]; [done|]. destruct (ring_pop s q c l Hrep) as (Hc & Hrep1 & Hne & Hback).
    apply wp_bind. unfold consoleread_wait. apply wp_bind, wp_get. rewrite Hne. apply wp_ret.
    apply wp_bind, wp_get. apply wp_bind. eapply wp_getopt; [done|]. apply wp_bind, wp_modify.
    destruct (c =? CTRL_D).
    + simplify_eq. rewrite Nat.sub_0_r, app_nil_r in HQ. apply wp_bind.
      destruct (decide (S k = target)) as [Heq|Heq].
      * rewrite (bool_decide_eq_false_2 (S k < target)%nat) by lia.
        apply wp_ret, wp_ret. apply HQ; [|done]. by rewrite bool_decide_eq_true_2 by done.
      * rewrite (bool_decide_eq_true_2 (S k < target)%nat) by lia. apply wp_modify, wp_ret.
        apply HQ; [|done]. rewrite bool_decide_eq_false_2 by done. unfold set_ir.
        cbn [ccpu uart ibuf ir iw ie uhw]. rewrite Hback. by destruct s.
    + destruct (c =? NL).
      * simplify_eq. apply wp_ret. cbn [length] in HQ.
        replace (S k - 1)%nat with k in HQ by lia. by apply HQ.
      * destruct (read_line k false q) as [[bs1 q1]|] eqn:Hl; cbn in Hline; simplify_eq.
        apply (IH q _ bs1); [done|lia|by rewrite bool_decide_eq_false_2 by lia|].
        intros s' Hs' Hrx'. cbn [length] in HQ. rewrite <- app_assoc.
        replace (k - length bs1)%nat with (S k - S (length bs1))%nat by lia. by apply HQ.
Qed.
End facts.

(** ** A concrete chip: an instance of the laws *)
Record chip := mk_chip { chip_rx : list Z; chip_tx : list Z }.
#[global] Instance chip_uart : Uart chip := {
  uart_inb p u :=
    if p =? COM1 + 5 then (if bool_decide (chip_rx u = []) then 0x20 else 0x21, u)
    else if p =? COM1 then
      match chip_rx u with
      | [] => (0, u)
      | b :: l => (u8 b, mk_chip l (chip_tx u))
      end
    else (0, u);
  uart_outb p x u := if p =? COM1 then mk_chip (chip_rx u) (chip_tx u ++ [x]) else u;
}.

#[global] Instance chip_uart_ok : UartOk chip.
Proof.
  refine {| rx u := u8 <$> chip_rx u; tx := chip_tx |}.
  - intros u. apply Forall_fmap, Forall_forall. intros x _. apply u8_range.
  - intros u. cbn. split_and!; try done.
    + by destruct (chip_rx u).
    + by destruct (chip_rx u).
  - intros [[|b0 l0] t] b l Hr; [done|]. cbn in *. by simplify_eq.
  - intros u x. done.
Defined.

(** ** Output on any chip

    What is printed before the chip is known to work, or without one, ends and
    changes nothing but the chip. *)
Section quiet.
Context {U : Type} {dev : Uart U}.
Implicit Types s : con U.

Definition quiet s s' : Prop := ∃ u, s' = set_uhw u s.
#[local] Instance quiet_preorder : PreOrder quiet.
Proof. split; [intros []; by eexists|]. intros s1 s2 s3 [u ->] [v ->]. by exists v. Qed.

Lemma wp_u_inb_quiet E p (Q : Z → con U → Prop) s : (∀ r s', quiet s s' → Q r s') → wp E (u_inb p) Q s.
Proof. intros HQ. unfold wp, u_inb. destruct (uart_inb p (uhw s)) as [r u]. apply HQ. by exists u. Qed.
Lemma wp_u_outb_quiet E p x (Q : unit → con U → Prop) s : (∀ s', quiet s s' → Q tt s') → wp E (u_outb p x) Q s.
Proof. intros HQ. apply wp_modify, HQ. by eexists. Qed.
Lemma wp_uart_wait_quiet E fuel (Q : unit → con U → Prop) s : (∀ s', quiet s s' → Q tt s') → wp E (uart_wait fuel) Q s.
Proof.
  revert s. induction fuel as [|fuel IH]; intros s HQ; cbn [uart_wait]; [by apply wp_ret, HQ|].
  apply wp_bind, wp_u_inb_quiet. intros r s1 H1. destruct (_ =? 0); [|by apply wp_ret, HQ].
  apply IH. intros s2 H2. apply HQ. by etrans.
Qed.
Lemma wp_uartputc_quiet E c (Q : unit → con U → Prop) s : (∀ s', quiet s s' → Q tt s') → wp E (uartputc c) Q s.
Proof.
  intros HQ. unfold uartputc. apply wp_bind, wp_gets. destruct (_ =? 0); [by apply wp_ret, HQ|].
  apply wp_bind, wp_uart_wait_quiet. intros s1 H1. apply wp_u_outb_quiet. intros s2 H2. apply HQ. by etrans.
Qed.
Lemma wp_uart_puts_quiet E bs (Q : unit → con U → Prop) s : (∀ s', quiet s s' → Q tt s') → wp E (uart_puts bs) Q s.
Proof.
  revert s. induction bs as [|b bs IH]; intros s HQ; cbn [uart_puts]; [by apply wp_ret, HQ|].
  apply wp_bind, wp_uartputc_quiet. intros s1 H1. apply IH. intros s2 H2. apply HQ. by etrans.
Qed.
Lemma wp_consputc_quiet E c (Q : unit → con U → Prop) s : (∀ s', quiet s s' → Q tt s') → wp E (consputc c) Q s.
Proof.
  intros HQ. unfold consputc. destruct (_ =? _); [|by apply wp_uartputc_quiet].
  apply wp_bind, wp_uartputc_quiet. intros s1 H1. apply wp_bind, wp_uartputc_quiet. intros s2 H2.
  apply wp_uartputc_quiet. intros s3 H3. apply HQ. etrans; [exact H1|]. by etrans.
Qed.
Lemma wp_cons_puts_quiet E bs (Q : unit → con U → Prop) s : (∀ s', quiet s s' → Q tt s') → wp E (cons_puts bs) Q s.
Proof.
  revert s. induction bs as [|b bs IH]; intros s HQ; cbn [cons_puts]; [by apply wp_ret, HQ|].
  apply wp_bind, wp_consputc_quiet. intros s1 H1. apply IH. intros s2 H2. apply HQ. by etrans.
Qed.
Lemma wp_printint_quiet E xx base sign (Q : unit → con U → Prop) s :
  base = 10 ∨ base = 16 → -2147483648 ≤ xx < 2147483648 → (∀ s', quiet s s' → Q tt s') → wp E (printint xx base sign) Q s.
Proof.
  intros Hb Hx HQ. unfold printint. set (x := if (_ : bool) then _ else _).
  assert (0 ≤ x < 4294967296) as Hxr by (unfold x; case_match; apply u32_range).
  destruct (numeral_digits base x Hb Hxr) as (ds & -> & _ & Hl).
  rewrite bool_decide_eq_true_2; [by apply wp_cons_puts_quiet|].
  destruct (_ && _); rewrite ?length_app, length_reverse, length_fmap; cbn; lia.
Qed.

(** A format that ends and asks for [n] words at most, and no strings. *)
Fixpoint words_fmt (fmt : list Z) (n : nat) : bool :=
  match fmt with
  | [] => false
  | c :: fmt =>
      if c =? 0 then true else
      if negb (c =? 37) then words_fmt fmt n else
      match fmt with
      | [] => false
      | c :: fmt =>
          if c =? 0 then true else
          if (c =? 100) || (c =? 120) || (c =? 112) then match n with O => false | S n => words_fmt fmt n end
          else negb (c =? 115) && words_fmt fmt n
      end
  end.
Lemma wp_cprintf_loop_quiet E fmt ws (Q : unit → con U → Prop) s :
  words_fmt fmt (length ws) = true → (∀ s', quiet s s' → Q tt s') → wp E (cprintf_loop fmt (AWord <$> ws)) Q s.
Proof.
  revert ws s. induction fmt as [fmt IH] using (induction_ltof1 _ length). unfold ltof in IH.
  intros ws s Hf HQ. destruct fmt as [|c fmt]; [done|]. cbn [words_fmt cprintf_loop] in *.
  destruct (c =? 0); [by apply wp_ret, HQ|]. destruct (negb _).
  { apply wp_bind, wp_consputc_quiet. intros s1 H1. apply IH; [cbn; lia|done|]. intros s2 H2. apply HQ. by etrans. }
  destruct fmt as [|d fmt]; [done|]. destruct (d =? 0); [by apply wp_ret, HQ|].
  assert (∀ base sign v ws', base = 10 ∨ base = 16 → words_fmt fmt (length ws') = true →
    wp E (printint (s32 v) base sign;; cprintf_loop fmt (AWord <$> ws')) Q s) as Hnum.
  { intros base sign v ws' Hb Hf'. apply wp_bind, wp_printint_quiet; [done|apply s32_range|]. intros s1 H1.
    apply IH; [cbn; lia|done|]. intros s2 H2. apply HQ. by etrans. }
  destruct (d =? 100); [destruct ws as [|v ws]; [done|]; by apply Hnum; [left|]|]. cbn [orb] in Hf.
  destruct ((d =? 120) || (d =? 112)); [destruct ws as [|v ws]; [done|]; by apply Hnum; [right|]|].
  apply andb_true_iff in Hf as [Hs Hf]. apply negb_true_iff in Hs as ->.
  destruct (d =? 37); apply wp_bind, wp_consputc_quiet; intros s1 H1; [|apply wp_bind, wp_consputc_quiet; intros s2 H2];
    (apply IH; [cbn; lia|done|]); intros s3 H3; apply HQ; etrans; eauto; by etrans.
Qed.
Lemma wp_cprintf_quiet on E fmt ws (Q : unit → con U → Prop) s :
  words_fmt fmt (length ws) = true → cpu_sane on (ccpu s) →
  (∀ c s', quiet s s' → cpu_sane on c → ncli c = ncli (ccpu s) → irq_on c = irq_on (ccpu s) → Q tt (set_ccpu c s')) →
  wp E (cprintf (Some fmt) (AWord <$> ws)) Q s.
Proof.
  intros Hf Hc HQ. unfold cprintf. apply wp_bind, wp_zoom, (wp_pushcli_sane on); [done|].
  apply wp_bind, wp_cprintf_loop_quiet; [done|]. intros s1 [u ->]. apply wp_zoom, (wp_popcli_pushed on); [done|].
  intros c Hc' Hn Hi. specialize (HQ c (set_uhw u s)). apply HQ; try done. by exists u.
Qed.
End quiet.
