(* ===== verification/Printf.v ===== *)
(** * printf.c: the user library's formatter

    [putc] is one [write] of one byte to the descriptor, so the model of
    [printf] is the sequence of bytes it writes; [None] is a read past the
    format, the arguments or a string, or past the digit buffer. *)

From S2P Require Import Prelude Spinlock CString Console ConsoleFacts.

(** [digits[d]] of the static table "0123456789ABCDEF". *)
Definition DIGIT (d : Z) : Z := if d <? 10 then 48 + d else 55 + d.

(** user [printint]: the bytes written for [xx]. *)
Definition u_printint (xx base sgn : Z) : option (list Z) :=
  let neg := negb (sgn =? 0) && (xx <? 0) in
  let x := if neg then u32 (- xx) else u32 xx in
  buf ← printint_digits DIGIT 16 x base [];
  let buf := if neg then buf ++ [45] else buf in
  if bool_decide (length buf ≤ 16)%nat then Some (reverse buf) else None.

(** The bytes of a string up to its NUL. *)
Fixpoint u_str (s : list Z) : option (list Z) :=
  match s with
  | [] => None
  | c :: s => if c =? 0 then Some [] else cons c <$> u_str s
  end.

(** What one conversion writes, and the arguments left. *)
Definition u_conv (c : Z) (args : list vararg) : option (list Z * list vararg) :=
  if c =? 100 then
    match args with AWord v :: args => r ← u_printint (s32 v) 10 1; Some (r, args) | _ => None end
  else if (c =? 120) || (c =? 112) then
    match args with AWord v :: args => r ← u_printint (s32 v) 16 0; Some (r, args) | _ => None end
  else if c =? 115 then
    match args with AStr s :: args => r ← u_str (default null_str s); Some (r, args) | _ => None end
  else if c =? 99 then
    match args with AWord v :: args => Some ([u8 v], args) | _ => None end
  else if c =? 37 then Some ([c], args)
  else Some ([37; c], args).

(** The loop over the format; [pct]: [state] is '%'. *)
Fixpoint printf_loop (fmt : list Z) (pct : bool) (args : list vararg) : option (list Z) :=
  match fmt with
  | [] => None
  | c :: fmt =>
      if c =? 0 then Some [] else
      if pct then
        r ← u_conv c args;
        app r.1 <$> printf_loop fmt false r.2
      else if c =? 37 then printf_loop fmt true args
      else cons c <$> printf_loop fmt false args
  end.
Definition printf (fmt : list Z) (args : list vararg) : option (list Z) := printf_loop fmt false args.

(** Characters that stand for themselves. *)
Lemma printf_plain cs fmt args : Forall (λ c, c ≠ 0 ∧ c ≠ 37) cs →
  printf_loop (cs ++ fmt) false args = app cs <$> printf_loop fmt false args.
Proof.
  induction 1 as [|c cs [H0 H1] _ IH]; cbn [app printf_loop].
  - by destruct (printf_loop fmt false args).
  - rewrite (proj2 (Z.eqb_neq _ _) H0), (proj2 (Z.eqb_neq _ _) H1), IH. by destruct (printf_loop fmt false args).
Qed.
(** A number between such characters. *)
Lemma printf_number pre post v : Forall (λ c, c ≠ 0 ∧ c ≠ 37) pre → Forall (λ c, c ≠ 0 ∧ c ≠ 37) post → 0 ≤ v < 2147483648 →
  ∃ ds, numeral_of 10 v ds ∧ printf (pre ++ 37 :: 100 :: post ++ [0]) [AWord v] = Some (pre ++ (DIGIT <$> ds) ++ post).
Proof.
  intros Hpre Hpost Hv. destruct (printint_digits_spec DIGIT 10 15 v []) as (ds & Hd & Hn & Hl); [lia| |].
  { split; [lia|]. eapply Z.lt_le_trans; [apply Hv|]. done. }
  exists ds. split; [done|]. assert (u_printint (s32 v) 10 1 = Some (DIGIT <$> ds)) as Hp.
  { rewrite s32_small by lia. unfold u_printint. rewrite (proj2 (Z.ltb_ge v 0)) by lia. cbn [negb andb Z.eqb]. rewrite u32_small by lia.
    rewrite Hd. cbn [mbind option_bind app]. rewrite bool_decide_eq_true_2 by (rewrite length_reverse, length_fmap; lia).
    by rewrite reverse_involutive. }
  unfold printf. rewrite printf_plain by done. cbn [printf_loop]. change (37 =? 0) with false.
  change (37 =? 37) with true. change (100 =? 0) with false. unfold u_conv. change (100 =? 100) with true. cbv iota.
  rewrite Hp. cbn [mbind option_bind fst snd]. rewrite printf_plain by done.
  cbn [printf_loop fmap option_fmap option_map]. change (0 =? 0) with true. cbn [fmap option_fmap option_map]. by rewrite app_nil_r.
Qed.

(** ** The kernel's and the user's formatter agree

    [common fmt pct]: the format uses only conversions the two print alike
    (not [%c], which only [printf] knows, and not hexadecimal, whose letters
    differ in case). *)
Fixpoint common (fmt : list Z) (pct : bool) : Prop :=
  match fmt with
  | [] => True
  | c :: fmt =>
      if c =? 0 then True
      else if pct then c ≠ 120 ∧ c ≠ 112 ∧ c ≠ 99 ∧ common fmt false
      else common fmt (c =? 37)
  end.

Lemma common_plain cs fmt : Forall (λ c, c ≠ 0 ∧ c ≠ 37) cs → common fmt false → common (cs ++ fmt) false.
Proof.
  induction 1 as [|c cs [H0 H1] _ IH]; intros Hf; cbn [app common]; [done|].
  rewrite (proj2 (Z.eqb_neq _ _) H0), (proj2 (Z.eqb_neq _ _) H1). auto.
Qed.
Definition bytes (l : list Z) : Prop := Forall (λ b, 0 ≤ b < 256) l.
Lemma numeral_bytes v ds : numeral_of 10 v ds → bytes (DIGIT <$> ds).
Proof.
  intros (_ & HF & _). apply Forall_fmap. eapply Forall_impl; [exact HF|]. intros d Hdr. cbn beta in Hdr. cbn. unfold DIGIT.
  rewrite (proj2 (Z.ltb_lt d 10)) by lia. lia.
Qed.
Definition arg_bytes (a : vararg) : Prop := match a with AWord _ => True | AStr s => bytes (default null_str s) end.

Lemma printint_digits_map dig dig' fuel x base buf buf' r :
  printint_digits dig fuel x base buf = Some r → length buf' = length buf →
  (∀ d, 0 ≤ d < base → dig d = dig' d) → 0 < base → buf = buf' →
  printint_digits dig' fuel x base buf' = Some r.
Proof.
  intros Hr _ Hd Hb <-. revert x buf Hr. induction fuel as [|fuel IH]; intros x buf; cbn [printint_digits]; [done|].
  rewrite <- Hd by (apply Z.mod_pos_bound; lia). destruct (negb _); [apply IH|done].
Qed.

Section agree.
Context {U : Type} {dev : Uart U} {uok : UartOk U}.
Implicit Types s : con U.

Lemma wp_consputc_byte E c (Q : unit → con U → Prop) s :
  uart s ≠ 0 → 0 ≤ c < 256 → (∀ s', says s s' [c] → Q tt s') → wp E (consputc c) Q s.
Proof.
  intros Hu Hc HQ. apply wp_consputc; [done|]. intros s' Hs. apply HQ.
  unfold glyph in Hs. by rewrite (proj2 (Z.eqb_neq c BACKSPACE)), u8_small in Hs by (unfold BACKSPACE; lia).
Qed.

Lemma wp_puts_str E str bs (Q : unit → con U → Prop) s :
  uart s ≠ 0 → bytes str → u_str str = Some bs → (∀ s', says s s' bs → Q tt s') → wp E (puts_str str) Q s.
Proof.
  revert bs s Q. induction str as [|c str IH]; intros bs s Q Hu Hb Hs HQ; cbn [u_str puts_str] in *; [done|].
  apply Forall_cons in Hb as [Hc Hb]. destruct (c =? 0).
  - simplify_eq. apply wp_ret, HQ, says_refl.
  - destruct (u_str str) as [r|] eqn:Hr; cbn in Hs; simplify_eq.
    apply wp_bind, wp_consputc_byte; [done|done|]. intros s1 H1.
    apply (IH r); [by rewrite (says_uart _ _ _ H1)|done|done|]. intros s2 H2.
    apply HQ. exact (says_trans _ _ _ _ _ H1 H2).
Qed.

Lemma wp_printint_dec E xx bs (Q : unit → con U → Prop) s :
  uart s ≠ 0 → u_printint xx 10 1 = Some bs → (∀ s', says s s' bs → Q tt s') → wp E (printint xx 10 1) Q s.
Proof.
  intros Hu Hp HQ. unfold u_printint in Hp. unfold printint.
  set (neg := negb (1 =? 0) && (xx <? 0)) in *. set (x := if neg then u32 (- xx) else u32 xx) in *.
  destruct (printint_digits DIGIT 16 x 10 []) as [buf|] eqn:Hd; cbn [mbind option_bind] in Hp; [|done].
  assert (∀ d, 0 ≤ d < 10 → DIGIT d = digit d) as Hdig.
  { intros d Hd'. unfold DIGIT, digit. by rewrite (proj2 (Z.ltb_lt d 10)) by lia. }
  rewrite (printint_digits_map DIGIT digit _ _ _ [] [] buf) by (done || lia).
  case_bool_decide; simplify_eq.
  assert (0 ≤ x < 4294967296) as Hxr by (unfold x; destruct neg; apply u32_range).
  destruct (printint_digits_spec DIGIT 10 15 x []) as (ds & Hd2 & (_ & HF & _) & _); [lia| |].
  { split; [lia|]. eapply Z.lt_le_trans; [apply Hxr|]. done. }
  rewrite Hd in Hd2. injection Hd2 as ->. apply wp_cons_puts; [done| |done].
  rewrite reverse_Permutation. assert (Forall (λ b, 0 ≤ b < 256) ([] ++ reverse (DIGIT <$> ds))) as Hb.
  { cbn [app]. rewrite reverse_Permutation. apply Forall_fmap. eapply Forall_impl; [exact HF|].
    intros d Hdr. cbn beta in Hdr. cbn. unfold DIGIT. rewrite (proj2 (Z.ltb_lt d 10)) by lia. lia. }
  destruct neg; [|done]. apply Forall_app. split; [done|]. apply Forall_singleton. lia.
Qed.

Lemma wp_cprintf_loop E fmt args bs (Q : unit → con U → Prop) s :
  uart s ≠ 0 → bytes fmt → Forall arg_bytes args → common fmt false → printf fmt args = Some bs →
  (∀ s', says s s' bs → Q tt s') → wp E (cprintf_loop fmt args) Q s.
Proof.
  unfold printf. remember (length fmt) as n eqn:Hn. revert fmt Hn args bs s Q.
  induction (lt_wf n) as [n _ IH]. intros fmt -> args bs s Q Hu Hb Ha Hcom Hp HQ.
  destruct fmt as [|c fmt]; cbn [cprintf_loop printf_loop common] in *; [done|].
  apply Forall_cons in Hb as [Hc Hb]. destruct (c =? 0); [simplify_eq; apply wp_ret, HQ, says_refl|].
  assert (∀ fmt' args' bs1 bs2 s1, (length fmt' < length (c :: fmt))%nat → bytes fmt' → Forall arg_bytes args' →
    common fmt' false → printf_loop fmt' false args' = Some bs2 → says s s1 bs1 → bs = bs1 ++ bs2 →
    wp E (cprintf_loop fmt' args') Q s1) as Hgo.
  { intros fmt' args' bs1 bs2 s1 Hl Hb' Ha' Hc' Hp' Hs1 ->. eapply (IH (length fmt')); [done|done|by rewrite (says_uart _ _ _ Hs1)|done..|].
    intros s2 Hs2. apply HQ. exact (says_trans _ _ _ _ _ Hs1 Hs2). }
  destruct (c =? 37); cbn [negb].
  - destruct fmt as [|c1 fmt]; cbn [printf_loop common] in *; [done|]. apply Forall_cons in Hb as [Hc1 Hb].
    destruct (c1 =? 0); [simplify_eq; apply wp_ret, HQ, says_refl|].
    destruct Hcom as (Hx & Hpp & Hcc & Hcom). unfold u_conv in Hp.
    rewrite (proj2 (Z.eqb_neq _ _) Hx), (proj2 (Z.eqb_neq _ _) Hpp), (proj2 (Z.eqb_neq _ _) Hcc) in *. cbn [orb] in *.
    assert (length fmt < length (c :: c1 :: fmt))%nat as Hlt by (cbn; lia).
    destruct (c1 =? 100); [|destruct (c1 =? 115); [|destruct (Z.eqb_spec c1 37) as [->|]]].
    + destruct args as [|[v|] args]; try done. apply Forall_cons in Ha as [_ Ha].
      destruct (u_printint (s32 v) 10 1) as [r|] eqn:Hr; cbn in Hp; [|done].
      destruct (printf_loop fmt false args) as [r2|] eqn:Hr2; cbn in Hp; simplify_eq.
      apply wp_bind. eapply wp_printint_dec; [done..|]. intros s1 Hs1. by eapply Hgo.
    + destruct args as [|[|str] args]; try done. apply Forall_cons in Ha as [Hstr Ha].
      destruct (u_str (default null_str str)) as [r|] eqn:Hr; cbn in Hp; [|done].
      destruct (printf_loop fmt false args) as [r2|] eqn:Hr2; cbn in Hp; simplify_eq.
      apply wp_bind. eapply wp_puts_str; [done..|]. intros s1 Hs1. by eapply Hgo.
    + cbn [mbind option_bind fst snd] in Hp.
      destruct (printf_loop fmt false args) as [r2|] eqn:Hr2; cbn in Hp; simplify_eq.
      apply wp_bind. eapply wp_consputc_byte; [done|lia|]. intros s1 Hs1. by eapply Hgo.
    + cbn [mbind option_bind fst snd] in Hp.
      destruct (printf_loop fmt false args) as [r2|] eqn:Hr2; cbn in Hp; simplify_eq.
      apply wp_bind. eapply wp_consputc_byte; [done|lia|]. intros s1 Hs1.
      apply wp_bind. eapply wp_consputc_byte; [by rewrite (says_uart _ _ _ Hs1)|done|]. intros s2 Hs2.
      eapply Hgo; [done..|exact (says_trans _ _ _ _ _ Hs1 Hs2)|done].
  - destruct (printf_loop fmt false args) as [r|] eqn:Hr; cbn in Hp; simplify_eq.
    apply wp_bind, wp_consputc_byte; [done|done|]. intros s1 Hs1.
    eapply (Hgo fmt args [c] r); try done. cbn. lia.
Qed.

(** [utters on s s' bs]: [bs] was transmitted, and beside the chip only the
    processor may differ, which is at the same depth of critical sections. *)
Definition utters on s s' (bs : list Z) : Prop :=
  ∃ c u, s' = set_ccpu c (set_uhw u s) ∧ cpu_wf on c ∧ ncli c = ncli (ccpu s) ∧ rx u = rx (uhw s) ∧ tx u = tx (uhw s) ++ bs.
Lemma utters_trans on s1 s2 s3 bs1 bs2 : utters on s1 s2 bs1 → utters on s2 s3 bs2 → utters on s1 s3 (bs1 ++ bs2).
Proof.
  intros (c1 & u1 & -> & _ & N1 & R1 & T1) (c2 & u2 & -> & Hc & N2 & R2 & T2). cbn in *. exists c2, u2.
  split_and!; [done|done|lia|congruence|]. by rewrite T2, T1, app_assoc.
Qed.
Lemma wp_cprintf E on fmt args bs (Q : unit → con U → Prop) s :
  uart s ≠ 0 → cpu_wf on (ccpu s) → ncli (ccpu s) < 2147483646 → bytes fmt → Forall arg_bytes args → common fmt false →
  printf fmt args = Some bs → (∀ s', utters on s s' bs → Q tt s') → wp E (cprintf (Some fmt) args) Q s.
Proof.
  intros Hu Hwf Hlt Hb Ha Hcom Hp HQ. unfold cprintf. apply wp_bind, wp_zoom. eapply wp_of_ok; [by apply (pushcli_run on)|].
  apply wp_bind. eapply wp_cprintf_loop; [done..|]. intros s1 (u & -> & Hr & Ht). apply wp_zoom.
  eapply (wp_popcli_wf on); [by apply pushed_wf|cbn; destruct Hwf as [[? _]|[? _]]; lia|]. intros c' Hwf' Hn. apply HQ.
  exists c', u. split_and!; [done|done|cbn in Hn; lia|done|done].
Qed.
End agree.
