(* ===== verification/Vm.v ===== *)
(** * vm.c and mmu.h: segment descriptors

    [SEG] and [SEG16] build the fields of a descriptor from a base and a
    limit; [seg_base] and [seg_last] are what the processor reads back from
    them, as the architecture defines. *)

From S2P Require Import Prelude Kalloc.

Definition SEG_KCODE : Z := 1.
Definition SEG_KDATA : Z := 2.
Definition SEG_UCODE : Z := 3.
Definition SEG_UDATA : Z := 4.
Definition SEG_TSS : Z := 5.
Definition STA_X : Z := 0x8.
Definition STA_W : Z := 0x2.
Definition STA_R : Z := 0x2.
Definition STS_T32A : Z := 0x9.
Definition DPL_USER : Z := 3.
Definition KSTACKSIZE : Z := 4096.

Record segdesc := mk_segdesc {
  lim_15_0 : Z;
  base_15_0 : Z;
  base_23_16 : Z;
  sd_type : Z;
  sd_s : Z;
  sd_dpl : Z;
  sd_p : Z;
  lim_19_16 : Z;
  sd_avl : Z;
  sd_rsv1 : Z;
  sd_db : Z;
  sd_g : Z;
  base_31_24 : Z;
}.

(** A bit field of [w] bits keeps the low bits of what is assigned to it. *)
Definition field (w v : Z) : Z := v mod 2 ^ w.

Definition SEG (type base lim dpl : Z) : segdesc :=
  mk_segdesc (field 16 (Z.land (Z.shiftr lim 12) 0xffff)) (field 16 (Z.land (u32 base) 0xffff))
    (field 8 (Z.land (Z.shiftr (u32 base) 16) 0xff)) (field 4 type) 1 (field 2 dpl) 1
    (field 4 (Z.shiftr (u32 lim) 28)) 0 0 1 1 (field 8 (Z.shiftr (u32 base) 24)).
Definition SEG16 (type base lim dpl : Z) : segdesc :=
  mk_segdesc (field 16 (Z.land lim 0xffff)) (field 16 (Z.land (u32 base) 0xffff))
    (field 8 (Z.land (Z.shiftr (u32 base) 16) 0xff)) (field 4 type) 1 (field 2 dpl) 1
    (field 4 (Z.shiftr (u32 lim) 16)) 0 0 1 0 (field 8 (Z.shiftr (u32 base) 24)).

Definition seg_base (d : segdesc) : Z := base_15_0 d + 65536 * base_23_16 d + 16777216 * base_31_24 d.
(** The last offset the segment covers: the limit counts bytes, or 4 KB
    pages when the granularity bit is set. *)
Definition seg_last (d : segdesc) : Z :=
  let lim := lim_15_0 d + 65536 * lim_19_16 d in
  if sd_g d =? 1 then lim * 4096 + 4095 else lim.

(** The global descriptor table, and the fields of the task state segment
    that the kernel fills in. *)
Record gdt_cpu := mk_gdt_cpu {
  gdt : list segdesc;
  ts_ss0 : Z;
  ts_esp0 : Z;
  ts_iomb : Z;
  ts_addr : Z;
}.
Definition no_seg : segdesc := mk_segdesc 0 0 0 0 0 0 0 0 0 0 0 0 0.

Definition seginit (c : gdt_cpu) : gdt_cpu :=
  mk_gdt_cpu
    (<[Z.to_nat SEG_KDATA := SEG STA_W 0 0xffffffff 0]>
      (<[Z.to_nat SEG_KCODE := SEG (Z.lor STA_X STA_R) 0 0xffffffff 0]> (gdt c)))
    (ts_ss0 c) (ts_esp0 c) (ts_iomb c) (ts_addr c).

Definition clear_s (d : segdesc) : segdesc :=
  mk_segdesc (lim_15_0 d) (base_15_0 d) (base_23_16 d) (sd_type d) 0 (sd_dpl d) (sd_p d) (lim_19_16 d)
    (sd_avl d) (sd_rsv1 d) (sd_db d) (sd_g d) (base_31_24 d).

(** [offset] and [kstack] of the process; [sizeof(struct taskstate)] is 104.
    The critical section and the loads of the segment registers touch no
    state modelled here. *)
Definition switchuvm (offset kstack : Z) (c : gdt_cpu) : outcome gdt_cpu :=
  if kstack =? 0 then Panic "switchuvm: no kstack" else
  let g := <[Z.to_nat SEG_UCODE := SEG (Z.lor STA_X STA_R) offset (Z.shiftl PROCSIZE 12) DPL_USER]> (gdt c) in
  let g := <[Z.to_nat SEG_UDATA := SEG STA_W offset (Z.shiftl PROCSIZE 12) DPL_USER]> g in
  let g := <[Z.to_nat SEG_TSS := SEG16 STS_T32A (ts_addr c) (104 - 1) 0]> g in
  let g := <[Z.to_nat SEG_TSS := clear_s (default no_seg (g !! Z.to_nat SEG_TSS))]> g in
  Ok (mk_gdt_cpu g (Z.shiftl SEG_KDATA 3) (u32 (kstack + KSTACKSIZE)) 0xFFFF (ts_addr c)).

Lemma shiftr_land_split b : 0 ≤ b < 4294967296 →
  b mod 65536 + 65536 * (b / 65536 mod 256) + 16777216 * (b / 16777216) = b.
Proof.
  intros Hb. pose proof (Z_div_mod_eq_full b 65536). pose proof (Z_div_mod_eq_full (b / 65536) 256) as H2.
  rewrite Z.div_div in H2 by lia. change (65536 * 256) with 16777216 in H2. lia.
Qed.

(** The base comes back whole. *)
Lemma SEG_base type base lim dpl : 0 ≤ base < 4294967296 → seg_base (SEG type base lim dpl) = base.
Proof.
  intros Hb. unfold seg_base, SEG, field. cbn [base_15_0 base_23_16 base_31_24].
  rewrite u32_small by done. change 0xffff with (Z.ones 16). change 0xff with (Z.ones 8).
  rewrite !Z.land_ones, !Z.shiftr_div_pow2 by lia. change (2 ^ 16) with 65536. change (2 ^ 8) with 256.
  change (2 ^ 24) with 16777216. rewrite !Z.mod_mod by lia.
  rewrite (Z.mod_small (base / 16777216)).
  - by apply shiftr_land_split.
  - split; [apply Z.div_pos; lia|apply Z.div_lt_upper_bound; lia].
Qed.

(** The user segments as [switchuvm] sets them. *)
Lemma user_segments offset kstack c c' :
  0 ≤ offset < 4294967296 → length (gdt c) = 6%nat → switchuvm offset kstack c = Ok c' →
  ∃ code data, gdt c' !! Z.to_nat SEG_UCODE = Some code ∧ gdt c' !! Z.to_nat SEG_UDATA = Some data ∧
    seg_base code = offset ∧ seg_base data = offset ∧
    seg_last code = PGSIZE + 4095 ∧ seg_last data = PGSIZE + 4095 ∧ sd_dpl data = DPL_USER.
Proof.
  intros Ho Hl. unfold switchuvm. destruct (kstack =? 0); [done|]. intros [= <-]. cbn [gdt].
  destruct c as [g ? ? ? ?]. cbn [gdt] in *. do 6 (destruct g as [|? g]; [done|]). destruct g; [|done].
  eexists _, _. split_and!; [reflexivity|reflexivity|by apply SEG_base|by apply SEG_base|reflexivity|reflexivity|reflexivity].
Qed.
