(* ===== verification/Mp.v ===== *)
(** * mp.c: finding the multiprocessor tables

    The BIOS leaves a floating pointer structure in low memory that points to
    a table of processors, buses and interrupt controllers. Memory is
    read-only here; the state is what [mpinit] sets: the processors
    ([cpus[i].apicid] and [ncpu]), [ioapicid], the [lapic] pointer, and the
    I/O ports, which are a parameter. *)

From S2P Require Import Prelude CString Kalloc Syscall.

Definition NCPU : Z := 8.
Definition MPPROC : Z := 0.
Definition MPBUS : Z := 1.
Definition MPIOAPIC : Z := 2.
Definition MPIOINTR : Z := 3.
Definition MPLINTR : Z := 4.

(** The I/O ports. *)
Class Ports (P : Type) := {
  port_inb : Z → P → Z * P;
  port_outb : Z → Z → P → P;
}.

(** The loop of [sum]; its [int] is at most 255 times the length. *)
Fixpoint sum_loop (m : mem) (addr : Z) (len : nat) (acc : Z) : Z :=
  match len with
  | O => acc
  | S len => sum_loop m (addr + 1) len (acc + m addr)
  end.
Definition mp_sum (m : mem) (addr len : Z) : Z := u8 (sum_loop m addr (Z.to_nat len) 0).

(** [memcmp] with a string literal. *)
Fixpoint memcmp_lit (m : mem) (p : Z) (lit : list Z) : Z :=
  match lit with
  | [] => 0
  | c :: lit => if negb (m p =? c) then m p - c else memcmp_lit m (p + 1) lit
  end.
Definition MP_SIG : list Z := [95; 77; 80; 95].      (* "_MP_" *)
Definition PCMP_SIG : list Z := [80; 67; 77; 80].    (* "PCMP" *)

(** [sizeof(struct mp)] is 16. *)
Definition is_mp (m : mem) (p : Z) : bool := (memcmp_lit m p MP_SIG =? 0) && (mp_sum m p 16 =? 0).
Fixpoint mpsearch1_loop (m : mem) (fuel : nat) (p e : Z) : option Z :=
  match fuel with
  | O => None
  | S fuel =>
      if p <? e then if is_mp m p then Some p else mpsearch1_loop m fuel (u32 (p + 16)) e
      else None
  end.
Definition mpsearch1 (m : mem) (a len : Z) : option Z :=
  mpsearch1_loop m (S (Z.to_nat (len / 16 + 1))) a (u32 (a + len)).

Definition mpsearch (m : mem) : option Z :=
  let bda := 0x400 in
  let p := Z.shiftl (Z.lor (Z.shiftl (m (bda + 0x0F)) 8) (m (bda + 0x0E))) 4 in
  let r :=
    if negb (p =? 0) then mpsearch1 m p 1024
    else mpsearch1 m (u32 (Z.lor (Z.shiftl (m (bda + 0x14)) 8) (m (bda + 0x13)) * 1024 - 1024)) 1024 in
  match r with
  | Some mp => Some mp
  | None => mpsearch1 m 0xF0000 0x10000
  end.

(** Fields of [struct mp] and [struct mpconf]. *)
Definition mp_physaddr (m : mem) (mp : Z) : Z := load4 m (mp + 4).
Definition mp_imcrp (m : mem) (mp : Z) : Z := m (mp + 12).
Definition conf_length (m : mem) (conf : Z) : Z := m (conf + 4) + 256 * m (conf + 5).
Definition conf_version (m : mem) (conf : Z) : Z := m (conf + 6).
Definition conf_lapicaddr (m : mem) (conf : Z) : Z := load4 m (conf + 36).

(** The configuration table and the floating pointer. *)
Definition mpconfig (m : mem) : option (Z * Z) :=
  mp ← mpsearch m;
  if mp_physaddr m mp =? 0 then None else
  let conf := mp_physaddr m mp in
  if negb (memcmp_lit m conf PCMP_SIG =? 0) then None else
  if negb (conf_version m conf =? 1) && negb (conf_version m conf =? 4) then None else
  if negb (mp_sum m conf (conf_length m conf) =? 0) then None else
  Some (conf, mp).

Record mpst (P : Type) := mk_mpst {
  apicids : list Z;
  ncpu : Z;
  ioapicid : Z;
  lapic : Z;
  ports : P;
}.
Arguments mk_mpst {P}.
Arguments apicids {P}.
Arguments ncpu {P}.
Arguments ioapicid {P}.
Arguments lapic {P}.
Arguments ports {P}.

Section mpinit.
Context {P : Type} {pio : Ports P}.

Definition set_apicids v (s : mpst P) : mpst P := mk_mpst v (ncpu s) (ioapicid s) (lapic s) (ports s).
Definition set_ncpu v (s : mpst P) : mpst P := mk_mpst (apicids s) v (ioapicid s) (lapic s) (ports s).
Definition set_ioapicid v (s : mpst P) : mpst P := mk_mpst (apicids s) (ncpu s) v (lapic s) (ports s).
Definition set_lapic v (s : mpst P) : mpst P := mk_mpst (apicids s) (ncpu s) (ioapicid s) v (ports s).
Definition set_ports v (s : mpst P) : mpst P := mk_mpst (apicids s) (ncpu s) (ioapicid s) (lapic s) v.
Definition mp_outb (port data : Z) : M (mpst P) unit :=
  modify (λ s, set_ports (port_outb port (u8 data) (ports s)) s).
Definition mp_inb (port : Z) : M (mpst P) Z := λ s,
  let '(v, q) := port_inb port (ports s) in Ok (v, set_ports q s).

(** The walk over the entries; [fuel] counts its rounds. The [break] of the
    default case leaves the [switch] and not the loop, so that the next round
    looks at the same entry. *)
Fixpoint mpinit_loop (m : mem) (fuel : nat) (p e ismp : Z) : M (mpst P) Z :=
  match fuel with
  | O => hang
  | S fuel =>
      if p <? e then
        if m p =? MPPROC then
          n ← gets ncpu;
          when (n <? NCPU)
            (modify (λ s, set_apicids (<[Z.to_nat n := m (p + 1)]> (apicids s)) s);;
             modify (λ s, set_ncpu (ncpu s + 1) s));;
          mpinit_loop m fuel (u32 (p + 20)) e ismp
        else if m p =? MPIOAPIC then
          modify (set_ioapicid (m (p + 1)));;
          mpinit_loop m fuel (u32 (p + 8)) e ismp
        else if (m p =? MPBUS) || (m p =? MPIOINTR) || (m p =? MPLINTR) then
          mpinit_loop m fuel (u32 (p + 8)) e ismp
        else mpinit_loop m fuel p e 0
      else mret ismp
  end.
Definition mpinit (m : mem) (fuel : nat) : M (mpst P) unit :=
  match mpconfig m with
  | None => panic "Expect to run on an SMP"
  | Some (conf, mp) =>
      modify (set_lapic (conf_lapicaddr m conf));;
      ismp ← mpinit_loop m fuel (u32 (conf + 44)) (u32 (conf + conf_length m conf)) 1;
      if ismp =? 0 then panic "Didn't find a suitable machine" else
      when (negb (mp_imcrp m mp =? 0))
        (mp_outb 0x22 0x70;;
         v ← mp_inb 0x23;
         mp_outb 0x23 (Z.lor v 1))
  end.
End mpinit.

(** ** Searching *)
Lemma sum_loop_acc m a n acc : sum_loop m a n acc = acc + sum_loop m a n 0.
Proof.
  revert a acc. induction n as [|n IH]; intros a acc; cbn; [lia|]. rewrite IH, (IH _ (0 + m a)). lia.
Qed.
Lemma sum_loop_bytes m a n : sum_loop m a n 0 = foldr Z.add 0 (load_bytes m a n).
Proof.
  revert a. induction n as [|n IH]; intros a; [done|]. cbn [sum_loop]. rewrite sum_loop_acc, IH. unfold load_bytes.
  cbn [seq fmap list_fmap foldr]. rewrite <- (fmap_S_seq 0 n), <- list_fmap_compose.
  rewrite (list_fmap_ext _ ((λ i, m (a + Z.of_nat i)) ∘ S) (seq 0 n)); [|intros k x _; cbn; f_equal; lia].
  change (a + Z.of_nat 0) with (a + 0). rewrite Z.add_0_r. lia.
Qed.
Lemma memcmp_lit_eq m p lit : memcmp_lit m p lit = 0 ↔ load_bytes m p (length lit) = lit.
Proof.
  revert p. induction lit as [|c lit IH]; intros p; [done|]. cbn [memcmp_lit length]. unfold load_bytes.
  cbn [seq fmap list_fmap]. rewrite <- (fmap_S_seq 0 (length lit)), <- list_fmap_compose.
  rewrite (list_fmap_ext _ (λ i, m (p + 1 + Z.of_nat i)) (seq 0 (length lit))); [|intros k x _; cbn; f_equal; lia].
  fold (load_bytes m (p + 1) (length lit)). change (p + Z.of_nat 0) with (p + 0). rewrite Z.add_0_r.
  destruct (Z.eqb_spec (m p) c) as [->|Hne]; cbn [negb]; [rewrite IH; split; congruence|].
  split; [lia|congruence].
Qed.

(** The candidates are tried in order, 16 bytes apart. *)
Lemma mpsearch1_loop_first m fuel p e :
  0 ≤ p → e + 16 < 4294967296 → e - p < 16 * Z.of_nat fuel →
  match mpsearch1_loop m fuel p e with
  | Some q => ∃ k, q = p + 16 * Z.of_nat k ∧ q < e ∧ is_mp m q = true ∧
      ∀ j, (j < k)%nat → is_mp m (p + 16 * Z.of_nat j) = false
  | None => ∀ k, p + 16 * Z.of_nat k < e → is_mp m (p + 16 * Z.of_nat k) = false
  end.
Proof.
  revert p. induction fuel as [|fuel IH]; intros p Hp He Hf; cbn [mpsearch1_loop]; [intros k; lia|].
  destruct (Z.ltb_spec p e) as [Hlt|Hge]; [|intros k; lia].
  destruct (is_mp m p) eqn:Hmp.
  { exists 0%nat. split_and!; [lia|lia|done|intros j; lia]. }
  rewrite u32_small by lia. specialize (IH (p + 16) ltac:(lia) He ltac:(lia)).
  assert (∀ k, p + 16 + 16 * Z.of_nat k = p + 16 * Z.of_nat (S k)) as Hs by lia.
  destruct (mpsearch1_loop m fuel (p + 16) e) as [q|].
  - destruct IH as (k & -> & Hlt' & Hq & Hbefore). exists (S k). rewrite <- Hs. split_and!; [done..|].
    intros [|j] Hj; [by rewrite Z.mul_0_r, Z.add_0_r|]. rewrite <- Hs. apply Hbefore. lia.
  - intros [|k] Hk; [by rewrite Z.mul_0_r, Z.add_0_r|]. rewrite <- Hs. apply IH. lia.
Qed.

(** ** The table *)

(** Its entries, with the bytes the kernel does not look at. *)
Inductive mpentry :=
| EProc (apicid : Z) (rest : list Z)
| EIoapic (apicno : Z) (rest : list Z)
| EOther (type : Z) (rest : list Z).
Definition enc_entry (x : mpentry) : list Z :=
  match x with
  | EProc id rest => MPPROC :: id :: rest
  | EIoapic id rest => MPIOAPIC :: id :: rest
  | EOther t rest => t :: rest
  end.
Definition entry_ok (x : mpentry) : Prop :=
  match x with
  | EProc _ rest => length rest = 18%nat
  | EIoapic _ rest => length rest = 6%nat
  | EOther t rest => (t = MPBUS ∨ t = MPIOINTR ∨ t = MPLINTR) ∧ length rest = 7%nat
  end.
Definition procs_of (es : list mpentry) : list Z := omap (λ x, if x is EProc id _ then Some id else None) es.
Definition ioapics_of (es : list mpentry) : list Z := omap (λ x, if x is EIoapic id _ then Some id else None) es.

(** Memory holds [bs] from [a] on. *)
Definition mem_at (m : mem) (a : Z) (bs : list Z) : Prop := load_bytes m a (length bs) = bs.
Lemma mem_at_lookup m a bs : mem_at m a bs ↔ ∀ i x, bs !! i = Some x → m (a + Z.of_nat i) = x.
Proof.
  unfold mem_at, load_bytes. split.
  - intros Heq i x Hi. rewrite <- Heq in Hi. apply list_lookup_fmap_Some in Hi as (j & -> & [-> Hj]%lookup_seq).
    done.
  - intros Ha. apply list_eq. intros i. destruct (bs !! i) as [x|] eqn:Hi.
    + rewrite list_lookup_fmap, lookup_seq_lt by (by eapply lookup_lt_Some). cbn. by rewrite (Ha i x Hi).
    + apply lookup_ge_None in Hi. apply lookup_ge_None. by rewrite length_fmap, length_seq.
Qed.
Lemma mem_at_app m a bs cs : mem_at m a (bs ++ cs) ↔ mem_at m a bs ∧ mem_at m (a + Z.of_nat (length bs)) cs.
Proof.
  rewrite !mem_at_lookup. split.
  - intros Ha. split; intros i x Hi.
    + apply Ha. by rewrite lookup_app_l by (by eapply lookup_lt_Some).
    + replace (a + Z.of_nat (length bs) + Z.of_nat i) with (a + Z.of_nat (length bs + i)) by lia.
      apply Ha. rewrite lookup_app_r by lia. by replace (length bs + i - length bs)%nat with i by lia.
  - intros [H1 H2] i x [Hi|[Hl Hi]]%lookup_app_Some; [by apply H1|]. rewrite <- (H2 _ _ Hi). f_equal. lia.
Qed.
Lemma mem_at_cons m a x bs : mem_at m a (x :: bs) ↔ m a = x ∧ mem_at m (a + 1) bs.
Proof.
  change (x :: bs) with ([x] ++ bs). rewrite mem_at_app, (mem_at_lookup m a [x]). split.
  - intros [H1 H2]. split; [rewrite <- (Z.add_0_r a); by apply (H1 0%nat)|done].
  - intros [H1 H2]. split; [|done]. intros [|i] y Hy; cbn in Hy; [|done]. injection Hy as <-. by rewrite Z.add_0_r.
Qed.

Lemma splice_insert {A} (k : nat) (x : A) (xs l : list A) :
  (k < length l)%nat → splice (k + 1) xs (<[k:=x]> l) = splice k (x :: xs) l.
Proof.
  intros Hk. unfold splice. rewrite insert_take_drop by done.
  assert (length (take k l) = k) as Hl by (rewrite length_take; lia).
  rewrite <- Hl at 1. rewrite take_app_add. cbn [take]. rewrite <- app_assoc. cbn [app take length].
  replace (k + 1 + length xs)%nat with (length (take k l) + S (length xs))%nat by lia. rewrite drop_app_add. cbn [drop].
  rewrite drop_drop. by replace (S k + length xs)%nat with (k + S (length xs))%nat by lia.
Qed.

Section table.
Context {P : Type} {pio : Ports P}.
Implicit Types s : mpst P.

(** One entry, as the specification sees it. *)
Definition add_entry s (x : mpentry) : mpst P :=
  match x with
  | EProc id _ => if ncpu s <? NCPU
      then mk_mpst (<[Z.to_nat (ncpu s) := id]> (apicids s)) (ncpu s + 1) (ioapicid s) (lapic s) (ports s) else s
  | EIoapic id _ => set_ioapicid id s
  | EOther _ _ => s
  end.

Lemma mpinit_entry m fuel p e x s :
  entry_ok x → mem_at m p (enc_entry x) → p < e → p + 20 < 4294967296 → 0 ≤ p →
  mpinit_loop m (S fuel) p e 1 s = mpinit_loop m fuel (p + Z.of_nat (length (enc_entry x))) e 1 (add_entry s x).
Proof.
  intros Hok Hm Hlt Hhi Hp. cbn [mpinit_loop]. rewrite (proj2 (Z.ltb_lt _ _) Hlt).
  destruct x as [id rest|id rest|t rest]; cbn [enc_entry entry_ok length add_entry] in *;
    apply mem_at_cons in Hm as [Ht Hm]; rewrite Ht.
  - apply mem_at_cons in Hm as [Hid _]. rewrite Hid, Hok. rewrite u32_small by lia. cbn [Z.eqb MPPROC].
    munfold. by destruct (ncpu s <? NCPU).
  - apply mem_at_cons in Hm as [Hid _]. rewrite Hid, Hok. by rewrite !u32_small by lia.
  - destruct Hok as [Ht' Hl]. rewrite Hl. rewrite !u32_small by lia. destruct Ht' as [->|[->| ->]]; reflexivity.
Qed.
Lemma mpinit_table m fuel p es s :
  let bs := concat (enc_entry <$> es) in
  Forall entry_ok es → mem_at m p bs → 0 ≤ p → p + Z.of_nat (length bs) + 20 < 4294967296 → (length es < fuel)%nat →
  mpinit_loop m fuel p (p + Z.of_nat (length bs)) 1 s = Ok (1, foldl add_entry s es).
Proof.
  intros bs Hok. unfold bs. clear bs. revert fuel p s. induction Hok as [|x es Hx Hok IH]; intros fuel p s Hm Hp Hhi Hf; cbn in Hm, Hhi, Hf |- *.
  - destruct fuel as [|fuel]; [lia|]. cbn [mpinit_loop]. rewrite (proj2 (Z.ltb_ge _ _)) by lia. done.
  - destruct fuel as [|fuel]; [lia|]. apply mem_at_app in Hm as [Hm1 Hm2]. rewrite length_app in *.
    assert (0 < length (enc_entry x))%nat by (by destruct x; cbn in *; [lia..|destruct Hx; lia]).
    rewrite (mpinit_entry _ _ _ _ x) by (done || lia).
    rewrite <- (IH fuel (p + Z.of_nat (length (enc_entry x))) (add_entry s x)) by (done || lia). f_equal. lia.
Qed.

(** What the entries amount to when no processor was known before. *)
Lemma add_entries es s :
  0 ≤ ncpu s ≤ NCPU → length (apicids s) = Z.to_nat NCPU →
  let s' := foldl add_entry s es in
  let new := take (Z.to_nat (NCPU - ncpu s)) (procs_of es) in
  apicids s' = splice (Z.to_nat (ncpu s)) new (apicids s) ∧ ncpu s' = ncpu s + Z.of_nat (length new) ∧
  ioapicid s' = default (ioapicid s) (last (ioapics_of es)) ∧ lapic s' = lapic s ∧ ports s' = ports s.
Proof.
  revert s. induction es as [|x es IH]; intros s Hn Hl; cbn [foldl].
  { cbn. rewrite take_nil. unfold splice. cbn [length app]. rewrite Nat.add_0_r, take_drop. split_and!; try done. cbn. lia. }
  destruct x as [id rest|id rest|t rest]; cbn [add_entry].
  - destruct (Z.ltb_spec (ncpu s) NCPU) as [Hlt|Hge].
    + edestruct IH as (H1 & H2 & H3 & H4 & H5); [| |split_and!; [rewrite H1|rewrite H2|exact H3|exact H4|exact H5]].
      * cbn. lia.
      * cbn. by rewrite length_insert.
      * cbn [apicids ncpu procs_of omap list_omap]. fold (procs_of es).
        replace (Z.to_nat (NCPU - ncpu s)) with (S (Z.to_nat (NCPU - (ncpu s + 1)))) by lia. cbn [take].
        replace (Z.to_nat (ncpu s + 1)) with (Z.to_nat (ncpu s) + 1)%nat by lia. apply splice_insert. lia.
      * cbn [ncpu procs_of omap list_omap]. fold (procs_of es).
        replace (Z.to_nat (NCPU - ncpu s)) with (S (Z.to_nat (NCPU - (ncpu s + 1)))) by lia. cbn [take length]. lia.
    + destruct (IH s Hn Hl) as (H1 & H2 & H3 & H4 & H5). assert (ncpu s = NCPU) as He by lia.
      replace (Z.to_nat (NCPU - ncpu s)) with 0%nat in * by lia. rewrite !take_0 in *. done.
  - destruct (IH (set_ioapicid id s) Hn Hl) as (H1 & H2 & H3 & H4 & H5). split_and!; [done..| |done|done].
    rewrite H3. cbn [ioapics_of omap list_omap]. fold (ioapics_of es). rewrite last_cons. by destruct (last (ioapics_of es)).
  - apply (IH s Hn Hl).
Qed.
End table.

(** ** An entry of unknown type *)
Section unknown.
Context {P : Type} {pio : Ports P}.
Implicit Types s : mpst P.

Definition known_type (t : Z) : Prop := t = MPPROC ∨ t = MPBUS ∨ t = MPIOAPIC ∨ t = MPIOINTR ∨ t = MPLINTR.

Lemma mpinit_loop_stuck m fuel p e ismp s :
  p < e → ¬ known_type (m p) → mpinit_loop m fuel p e ismp s = Hang.
Proof.
  intros Hlt Hu. revert ismp. induction fuel as [|fuel IH]; intros ismp; cbn [mpinit_loop]; [done|].
  rewrite (proj2 (Z.ltb_lt _ _) Hlt). unfold known_type in Hu.
  rewrite !(proj2 (Z.eqb_neq (m p) _)) by tauto. apply IH.
Qed.
(** The loop returns the flag it was given, or does not return. *)
Lemma mpinit_loop_flag m fuel p e ismp s r s' :
  mpinit_loop m fuel p e ismp s = Ok (r, s') → r = ismp.
Proof.
  revert p ismp s. induction fuel as [|fuel IH]; intros p ismp s; cbn [mpinit_loop]; [done|].
  destruct (Z.ltb_spec p e) as [Hlt|]; [|by intros [= <- _]]. munfold.
  destruct (Z.eqb_spec (m p) MPPROC); [destruct (ncpu s <? NCPU); apply IH|].
  destruct (Z.eqb_spec (m p) MPIOAPIC); [apply IH|].
  destruct (Z.eqb_spec (m p) MPBUS); [apply IH|].
  destruct (Z.eqb_spec (m p) MPIOINTR); [apply IH|].
  destruct (Z.eqb_spec (m p) MPLINTR); [apply IH|]. cbn [orb].
  rewrite mpinit_loop_stuck; [done|done|]. unfold known_type. tauto.
Qed.
Lemma mpinit_loop_no_panic m fuel p e ismp s msg : mpinit_loop m fuel p e ismp s ≠ Panic msg.
Proof.
  revert p ismp s. induction fuel as [|fuel IH]; intros p i s; cbn [mpinit_loop]; [done|]. munfold.
  destruct (p <? e); [|done]. destruct (_ =? MPPROC); [destruct (_ <? NCPU); apply IH|].
  destruct (_ =? MPIOAPIC); [apply IH|]. destruct (_ || _); apply IH.
Qed.
(** A known prefix, then an unknown entry. *)
Lemma mpinit_loop_prefix m fuel p e es s :
  let bs := concat (enc_entry <$> es) in
  Forall entry_ok es → mem_at m p bs → 0 ≤ p → p + Z.of_nat (length bs) < e → e + 20 < 4294967296 →
  ¬ known_type (m (p + Z.of_nat (length bs))) → mpinit_loop m fuel p e 1 s = Hang.
Proof.
  intros bs Hok. unfold bs. clear bs. revert fuel p s.
  induction Hok as [|x es Hx Hok IH]; intros fuel p s Hm Hp Hlt Hhi Hu; cbn in Hm, Hlt, Hu.
  - rewrite Z.add_0_r in *. by apply mpinit_loop_stuck.
  - destruct fuel as [|fuel]; [done|]. apply mem_at_app in Hm as [Hm1 Hm2]. rewrite length_app in *.
    rewrite (mpinit_entry _ _ _ _ x) by (done || lia).
    rewrite Nat2Z.inj_add, Z.add_assoc in Hlt, Hu. apply IH; (done || lia).
Qed.
End unknown.

(** ** A table in memory *)
Record mp_table (m : mem) (conf mp : Z) (es : list mpentry) : Prop := {
  mt_config : mpconfig m = Some (conf, mp);
  mt_entries : Forall entry_ok es;
  mt_at : mem_at m (conf + 44) (concat (enc_entry <$> es));
  mt_length : conf_length m conf = 44 + Z.of_nat (length (concat (enc_entry <$> es)));
  mt_low : 0 ≤ conf;
  mt_high : conf + conf_length m conf + 20 < 4294967296;
}.

Lemma mpinit_run {P} {pio : Ports P} m fuel (s : mpst P) conf mp es :
  mp_table m conf mp es → (length es < fuel)%nat → ncpu s = 0 → length (apicids s) = Z.to_nat NCPU →
  ∃ s', mpinit m fuel s = Ok (tt, s') ∧ lapic s' = conf_lapicaddr m conf ∧
    ncpu s' = Z.min NCPU (Z.of_nat (length (procs_of es))) ∧
    take (Z.to_nat (ncpu s')) (apicids s') = take (Z.to_nat NCPU) (procs_of es) ∧
    ioapicid s' = default (ioapicid s) (last (ioapics_of es)) ∧
    (mp_imcrp m mp = 0 → ports s' = ports s).
Proof.
  intros [Hc Hok Hm Hlen Hc0 Hhi] Hf Hn Hl. set (bs := concat (enc_entry <$> es)) in *.
  assert (mpinit m fuel s = match mpinit_loop m fuel (u32 (conf + 44)) (u32 (conf + conf_length m conf)) 1
    (set_lapic (conf_lapicaddr m conf) s) with
    | Ok (ismp, s1) => (if ismp =? 0 then panic "Didn't find a suitable machine" else
        when (negb (mp_imcrp m mp =? 0)) (mp_outb 0x22 0x70;; v ← mp_inb 0x23; mp_outb 0x23 (Z.lor v 1))) s1
    | Panic msg => Panic msg | Hang => Hang | Undef => Undef end) as ->.
  { unfold mpinit. rewrite Hc. done. }
  rewrite !u32_small by lia. replace (conf + conf_length m conf) with (conf + 44 + Z.of_nat (length bs)) by lia.
  unfold bs in *. rewrite mpinit_table; [|done|done|lia|lia|done]. set (s0 := set_lapic _ s).
  destruct (add_entries es s0) as (A1 & A2 & A3 & A4 & A5); [cbn; rewrite Hn; unfold NCPU; lia|done|].
  change (ncpu s0) with (ncpu s) in *. change (apicids s0) with (apicids s) in *. rewrite Hn in *. cbn [Z.eqb].
  set (s1 := foldl add_entry s0 es) in *. set (new := take _ (procs_of es)) in *.
  assert (length new = Nat.min 8 (length (procs_of es))) as Hnew by (unfold new; by rewrite length_take).
  assert (take (Z.to_nat (ncpu s1)) (apicids s1) = new) as Htake.
  { rewrite A1, A2. change (Z.to_nat 0) with 0%nat. unfold splice. rewrite take_0, app_nil_l, Z.add_0_l, Nat2Z.id. apply take_app_length. }
  assert (ncpu s1 = Z.min NCPU (Z.of_nat (length (procs_of es)))) as Hcnt by (rewrite A2, Hnew; unfold NCPU; lia).
  destruct (Z.eqb_spec (mp_imcrp m mp) 0) as [Hi|Hi]; cbn [negb when].
  - exists s1. split_and!; [done|exact A4|exact Hcnt|exact Htake|exact A3|by rewrite A5].
  - unfold mp_outb, mp_inb. munfold. cbn [ports set_ports].
    destruct (port_inb 0x23 (port_outb 0x22 (u8 0x70) (ports s1))) as [v q].
    eexists. split_and!; [done|exact A4|exact Hcnt|exact Htake|exact A3|done].
Qed.

(** The table is found and read below [lim], and does not depend on what is
    above it: with less than 640 kB of base memory the search stays in the
    first megabyte and the kilobyte after it. *)
Section below.
Context (m m' : mem) (lim : Z) (Hm : ∀ x, 0 ≤ x < lim → m' x = m x).

Lemma sum_loop_below a n acc : 0 ≤ a → a + Z.of_nat n ≤ lim → sum_loop m' a n acc = sum_loop m a n acc.
Proof.
  revert a acc. induction n as [|n IH]; intros a acc Ha Hn; cbn [sum_loop]; [done|].
  rewrite Hm by lia. apply IH; lia.
Qed.
Lemma memcmp_lit_below p lit : 0 ≤ p → p + Z.of_nat (length lit) ≤ lim → memcmp_lit m' p lit = memcmp_lit m p lit.
Proof.
  revert p. induction lit as [|c lit IH]; intros p Hp Hn; cbn [memcmp_lit length] in *; [done|].
  rewrite Hm by lia. destruct (negb _); [done|]. apply IH; lia.
Qed.
Lemma is_mp_below p : 0 ≤ p → p + 16 ≤ lim → is_mp m' p = is_mp m p.
Proof. intros Hp Hl. unfold is_mp, mp_sum. by rewrite memcmp_lit_below, sum_loop_below by (cbn; lia). Qed.
Lemma mpsearch1_loop_below fuel p e : 0 ≤ p → e + 16 ≤ lim →
  mpsearch1_loop m' fuel p e = mpsearch1_loop m fuel p e ∧ ∀ q, mpsearch1_loop m fuel p e = Some q → 0 ≤ q < e.
Proof.
  revert p. induction fuel as [|fuel IH]; intros p Hp He; cbn [mpsearch1_loop]; [done|].
  destruct (Z.ltb_spec p e) as [Hlt|]; [|done]. rewrite is_mp_below by lia. destruct (is_mp m p); [|apply IH; [apply u32_range|done]].
  split; [done|]. intros q [= <-]. lia.
Qed.
Lemma mpsearch_below : (∀ x, 0 ≤ m x < 256) → Z.lor (Z.shiftl (m 0x414) 8) (m 0x413) ≤ 640 → 0x101000 ≤ lim →
  mpsearch m' = mpsearch m ∧ ∀ q, mpsearch m = Some q → 0 ≤ q < lim - 16.
Proof.
  intros Hb Hbase Hlim. unfold mpsearch. rewrite !Hm by lia. set (p := Z.shiftl _ 4).
  change (0x400 + 0x14) with 0x414. change (0x400 + 0x13) with 0x413.
  set (base := Z.lor (Z.shiftl (m 0x414) 8) (m 0x413)) in *.
  assert (∀ a b, 0 ≤ a < 256 → 0 ≤ b < 256 → 0 ≤ Z.lor (Z.shiftl a 8) b < 65536) as Hword.
  { intros a b Ha Hb'. rewrite Z.shiftl_mul_pow2 by lia. change (2 ^ 8) with 256. split; [apply Z.lor_nonneg; lia|].
    pose proof (Z.add_lor_land (a * 256) b). pose proof (Z.land_nonneg (a * 256) b). lia. }
  assert (0 ≤ p < 0x100000) as Hp.
  { unfold p. rewrite Z.shiftl_mul_pow2 by lia. pose proof (Hword (m (0x400 + 0x0F)) (m (0x400 + 0x0E)) (Hb _) (Hb _)). lia. }
  assert (∀ a len, 0 ≤ a → u32 (a + len) + 16 ≤ 0x101000 →
    mpsearch1 m' a len = mpsearch1 m a len ∧ ∀ q, mpsearch1 m a len = Some q → 0 ≤ q < lim - 16) as H1.
  { intros a len Ha Hl. unfold mpsearch1. destruct (mpsearch1_loop_below (S (Z.to_nat (len / 16 + 1))) a (u32 (a + len))) as [-> Hq];
      [done|lia|]. split; [done|]. intros q Hs. specialize (Hq q Hs). lia. }
  destruct (H1 0xF0000 0x10000) as [E3 H3]; [lia|vm_compute; congruence|].
  assert (0 ≤ base) by (apply Hword; apply Hb).
  destruct (H1 (u32 (base * 1024 - 1024)) 1024) as [E2 H2]; [apply u32_range| |].
  { destruct (Z.eq_dec base 0) as [->|]; [vm_compute; congruence|].
    rewrite (u32_small (base * 1024 - 1024)) by lia. rewrite u32_small by lia. lia. }
  destruct (Z.eqb_spec p 0) as [Hp0|Hp0]; cbn [negb].
  - rewrite E2, E3. destruct (mpsearch1 m (u32 (base * 1024 - 1024)) 1024) as [q|]; [|split; [reflexivity|exact H3]].
    split; [reflexivity|]. intros q' [= <-]. by apply H2.
  - destruct (H1 p 1024) as [E1 H1']; [lia|rewrite u32_small; lia|]. rewrite E1, E3.
    destruct (mpsearch1 m p 1024) as [q|]; [|split; [reflexivity|exact H3]]. split; [reflexivity|]. intros q' [= <-]. by apply H1'.
Qed.
Lemma mp_table_below conf mp es : (∀ x, 0 ≤ m x < 256) → Z.lor (Z.shiftl (m 0x414) 8) (m 0x413) ≤ 640 → 0x101000 ≤ lim →
  mp_table m conf mp es → conf + conf_length m conf ≤ lim →
  mp_table m' conf mp es ∧ conf_lapicaddr m' conf = conf_lapicaddr m conf.
Proof.
  intros Hb Hbase Hlim [Hc Hok Ha Hlen Hlo Hhi] Hend. destruct (mpsearch_below Hb Hbase Hlim) as [Hs Hq].
  assert (∀ a, 0 ≤ a → a + 4 ≤ lim → load4 m' a = load4 m a) as Hl4.
  { intros a H0 H1. unfold load4. by rewrite !Hm by lia. }
  assert (conf_length m' conf = conf_length m conf) as Hl by (unfold conf_length; by rewrite !Hm by lia).
  assert (mpconfig m' = Some (conf, mp)) as Hc'.
  { rewrite <- Hc. revert Hc. unfold mpconfig. rewrite Hs. destruct (mpsearch m) as [q|] eqn:Hqs; [|done]. cbn [mbind option_bind].
    specialize (Hq q eq_refl). unfold mp_physaddr, conf_version, mp_sum. rewrite Hl4 by lia.
    destruct (load4 m (q + 4) =? 0); [done|].
    destruct (Z.eqb_spec (memcmp_lit m (load4 m (q + 4)) PCMP_SIG) 0) as [He|He]; cbn [negb]; [|done].
    destruct (negb _ && negb _) eqn:Hv; [done|]. destruct (Z.eqb_spec (u8 (sum_loop m (load4 m (q + 4)) (Z.to_nat (conf_length m (load4 m (q + 4)))) 0)) 0) as [Hsum|]; cbn [negb]; [|done].
    intros [= <- <-]. rewrite memcmp_lit_below by (try change (Z.of_nat (length PCMP_SIG)) with 4; lia). rewrite He, Hl, sum_loop_below by lia. rewrite Hsum. rewrite Hm by lia. by rewrite Hv. }
  split; [|unfold conf_lapicaddr; rewrite Hl4 by lia; done]. constructor; try done; [|by rewrite Hl..].
  apply mem_at_lookup. intros i x Hi. rewrite Hm; [by eapply mem_at_lookup|]. apply lookup_lt_Some in Hi. lia.
Qed.
End below.
