(* ===== verification/Apic.v ===== *)
(** * lapic.c, ioapic.c and picirq.c: interrupt controllers

    The controllers are hardware: the local APIC is a window of registers
    ([LapicDevice]), the I/O APIC an index register and a data window
    ([IoapicDevice]), both parameters, with what the code relies on as laws.
    The old interrupt controllers are behind I/O ports. *)

From S2P Require Import Prelude CString Kalloc Syscall Mp.

Definition T_IRQ0 : Z := 32.
Definition IRQ_TIMER : Z := 0.
Definition IRQ_KBD : Z := 1.
Definition IRQ_COM1 : Z := 4.
Definition IRQ_IDE : Z := 14.
Definition IRQ_ERROR : Z := 19.
Definition IRQ_SPURIOUS : Z := 31.

(** ** lapic.c *)

(** Register indices, in words. *)
Definition LID : Z := 0x0020 / 4.
Definition VER : Z := 0x0030 / 4.
Definition TPR : Z := 0x0080 / 4.
Definition EOI : Z := 0x00B0 / 4.
Definition SVR : Z := 0x00F0 / 4.
Definition ENABLE : Z := 0x00000100.
Definition ESR : Z := 0x0280 / 4.
Definition ICRLO : Z := 0x0300 / 4.
Definition INIT : Z := 0x00000500.
Definition DELIVS : Z := 0x00001000.
Definition LEVEL : Z := 0x00008000.
Definition BCAST : Z := 0x00080000.
Definition ICRHI : Z := 0x0310 / 4.
Definition TIMER : Z := 0x0320 / 4.
Definition X1 : Z := 0x0000000B.
Definition PERIODIC : Z := 0x00020000.
Definition PCINT : Z := 0x0340 / 4.
Definition LINT0 : Z := 0x0350 / 4.
Definition LINT1 : Z := 0x0360 / 4.
Definition ERROR : Z := 0x0370 / 4.
Definition MASKED : Z := 0x00010000.
Definition TICR : Z := 0x0380 / 4.
Definition TDCR : Z := 0x03E0 / 4.

(** [lapic_polls] bounds the rounds of the wait for delivery, as
    [dev_polls] does for the disk. *)
Class LapicDevice (L : Type) := {
  lapic_rd : Z → L → Z * L;
  lapic_wr : Z → Z → L → L;
  lapic_polls : nat;
}.

(** The [lapic] pointer and the registers it points to. *)
Record lapic_st (L : Type) := mk_lapic_st { lapic_ptr : Z; lhw : L }.
Arguments mk_lapic_st {L}.
Arguments lapic_ptr {L}.
Arguments lhw {L}.

Section lapic.
Context {L : Type} {ldev : LapicDevice L}.

Definition lapic_get (index : Z) : M (lapic_st L) Z := λ s,
  let '(v, l) := lapic_rd index (lhw s) in Ok (v, mk_lapic_st (lapic_ptr s) l).
Definition lapicw (index value : Z) : M (lapic_st L) unit :=
  modify (λ s, mk_lapic_st (lapic_ptr s) (lapic_wr index (u32 value) (lhw s)));;
  lapic_get LID;; mret tt.

Fixpoint lapic_wait (fuel : nat) : M (lapic_st L) unit :=
  match fuel with
  | O => hang
  | S fuel =>
      v ← lapic_get ICRLO;
      if negb (Z.land v DELIVS =? 0) then lapic_wait fuel else mret tt
  end.

Definition lapicinit : M (lapic_st L) unit :=
  q ← gets lapic_ptr;
  if q =? 0 then mret tt else
  lapicw SVR (Z.lor ENABLE (T_IRQ0 + IRQ_SPURIOUS));;
  lapicw TDCR X1;;
  lapicw TIMER (Z.lor PERIODIC (T_IRQ0 + IRQ_TIMER));;
  lapicw TICR 10000000;;
  lapicw LINT0 MASKED;;
  lapicw LINT1 MASKED;;
  v ← lapic_get VER;
  when (Z.land (Z.shiftr v 16) 0xFF >=? 4) (lapicw PCINT MASKED);;
  lapicw ERROR (T_IRQ0 + IRQ_ERROR);;
  lapicw ESR 0;;
  lapicw ESR 0;;
  lapicw EOI 0;;
  lapicw ICRHI 0;;
  lapicw ICRLO (Z.lor (Z.lor BCAST INIT) LEVEL);;
  lapic_wait lapic_polls;;
  lapicw TPR 0.

Definition lapicid : M (lapic_st L) Z :=
  q ← gets lapic_ptr;
  if q =? 0 then mret 0 else
  v ← lapic_get LID; mret (s32 (Z.shiftr v 24)).

Definition lapiceoi : M (lapic_st L) unit :=
  q ← gets lapic_ptr;
  when (negb (q =? 0)) (lapicw EOI 0).

Definition microdelay (us : Z) : M (lapic_st L) unit := mret tt.
End lapic.

(** The registers that simply hold what is written to them. *)
Definition plain : list Z := [SVR; TDCR; TIMER; TICR; LINT0; LINT1; PCINT; ERROR; TPR].

(** What the code relies on: a write to a plain register is what it then
    holds, no other access changes a plain register, reading changes nothing,
    and the delivery of the broadcast ends. [lapic_eois] counts the
    acknowledgements. *)
Class LapicOk (L : Type) {ldev : LapicDevice L} := {
  lapic_reg : L → Z → Z;
  lapic_eois : L → nat;
  lapic_rd_ok i l : (∀ r, r ∈ plain → lapic_reg (lapic_rd i l).2 r = lapic_reg l r) ∧
    lapic_eois (lapic_rd i l).2 = lapic_eois l;
  lapic_wr_ok i v l r : r ∈ plain → lapic_reg (lapic_wr i v l) r = if r =? i then v else lapic_reg l r;
  lapic_wr_eoi i v l : lapic_eois (lapic_wr i v l) = if i =? EOI then S (lapic_eois l) else lapic_eois l;
  lapic_wait_ok p l : ∃ s', lapic_wait lapic_polls (mk_lapic_st p l) = Ok (tt, s') ∧ lapic_ptr s' = p ∧
    (∀ r, r ∈ plain → lapic_reg (lhw s') r = lapic_reg l r) ∧ lapic_eois (lhw s') = lapic_eois l;
}.

(** ** ioapic.c *)
Definition REG_ID : Z := 0x00.
Definition REG_VER : Z := 0x01.
Definition REG_TABLE : Z := 0x10.
Definition INT_DISABLED : Z := 0x00010000.

Class IoapicDevice (A : Type) := {
  ioa_select : Z → A → A;     (* a write to [ioapic->reg] *)
  ioa_load : A → Z * A;       (* a read of [ioapic->data] *)
  ioa_store : Z → A → A;      (* a write to [ioapic->data] *)
}.

Section ioapic.
Context {A : Type} {adev : IoapicDevice A}.

Definition ioa_data : M A Z := λ a, Ok (ioa_load a).
Definition ioapicread (reg : Z) : M A Z :=
  modify (ioa_select (u32 reg));; ioa_data.
Definition ioapicwrite (reg data : Z) : M A unit :=
  modify (ioa_select (u32 reg));; modify (ioa_store (u32 data)).

Fixpoint ioapicinit_loop (fuel : nat) (i maxintr : Z) : M A unit :=
  match fuel with
  | O => hang
  | S fuel =>
      if i <=? maxintr then
        ioapicwrite (REG_TABLE + 2 * i) (Z.lor INT_DISABLED (T_IRQ0 + i));;
        ioapicwrite (REG_TABLE + 2 * i + 1) 0;;
        ioapicinit_loop fuel (i + 1) maxintr
      else mret tt
  end.
(** [ioapicinit] is in two parts, before and after the warning: [maxintr] and
    [id] are read, and the lines masked. *)
Definition ioapicinit_read : M A (Z * Z) :=
  v ← ioapicread REG_VER;
  let maxintr := Z.land (Z.shiftr v 16) 0xFF in
  w ← ioapicread REG_ID;
  let id := Z.shiftr w 24 in
  mret (maxintr, id).
Definition ioapicinit_mask (maxintr : Z) : M A unit := ioapicinit_loop (S (Z.to_nat (maxintr + 1))) 0 maxintr.
(** What it does to the chip; the result says whether it warns. *)
Definition ioapicinit (ioapicid : Z) : M A bool :=
  r ← ioapicinit_read;
  ioapicinit_mask r.1;;
  mret (negb (r.2 =? ioapicid)).

Definition ioapicenable (irq cpunum : Z) : M A unit :=
  ioapicwrite (REG_TABLE + 2 * irq) (T_IRQ0 + irq);;
  ioapicwrite (REG_TABLE + 2 * irq + 1) (Z.shiftl cpunum 24).
End ioapic.

(** The redirection table behind the index and the window. *)
Class IoapicOk (A : Type) {adev : IoapicDevice A} := {
  ioa_cur : A → Z;
  ioa_reg : A → Z → Z;
  ioa_select_ok r a : ioa_cur (ioa_select r a) = r ∧ ∀ q, ioa_reg (ioa_select r a) q = ioa_reg a q;
  ioa_load_ok a : (ioa_load a).1 = ioa_reg a (ioa_cur a) ∧ ∀ q, ioa_reg (ioa_load a).2 q = ioa_reg a q;
  ioa_store_ok v a q : REG_TABLE ≤ ioa_cur a →
    ioa_reg (ioa_store v a) q = if q =? ioa_cur a then v else ioa_reg a q;
}.

(** ** picirq.c *)
Definition IO_PIC1 : Z := 0x20.
Definition IO_PIC2 : Z := 0xA0.
Definition picinit {P} {pio : Ports P} : M (mpst P) unit :=
  mp_outb (IO_PIC1 + 1) 0xFF;;
  mp_outb (IO_PIC2 + 1) 0xFF.

(** ** Behaviour *)
Section lapic_facts.
Context {L : Type} {ldev : LapicDevice L} {lok : LapicOk L}.

Lemma wp_lapicw E i v (Q : unit → lapic_st L → Prop) s :
  (∀ s', lapic_ptr s' = lapic_ptr s →
     (∀ r, r ∈ plain → lapic_reg (lhw s') r = if r =? i then u32 v else lapic_reg (lhw s) r) →
     lapic_eois (lhw s') = (if i =? EOI then S (lapic_eois (lhw s)) else lapic_eois (lhw s)) → Q tt s') →
  wp E (lapicw i v) Q s.
Proof.
  intros HQ. unfold lapicw. apply wp_bind, wp_modify. apply wp_bind. unfold lapic_get, wp. cbn [lhw lapic_ptr].
  destruct (lapic_rd_ok LID (lapic_wr i (u32 v) (lhw s))) as [Hr He].
  destruct (lapic_rd LID (lapic_wr i (u32 v) (lhw s))) as [x l]. cbn [snd] in *.
  apply wp_ret, HQ; cbn [lhw lapic_ptr]; [done| |].
  - intros r Hp. by rewrite Hr, lapic_wr_ok.
  - by rewrite He, lapic_wr_eoi.
Qed.
Lemma wp_lapic_get E i (Q : Z → lapic_st L → Prop) s :
  (∀ v s', lapic_ptr s' = lapic_ptr s → (∀ r, r ∈ plain → lapic_reg (lhw s') r = lapic_reg (lhw s) r) →
     lapic_eois (lhw s') = lapic_eois (lhw s) → v = (lapic_rd i (lhw s)).1 → Q v s') →
  wp E (lapic_get i) Q s.
Proof.
  intros HQ. unfold lapic_get, wp. destruct (lapic_rd_ok i (lhw s)) as [Hr He].
  destruct (lapic_rd i (lhw s)) as [x l]. cbn [snd] in *. by apply HQ.
Qed.
Lemma wp_lapic_wait E (Q : unit → lapic_st L → Prop) s :
  (∀ s', lapic_ptr s' = lapic_ptr s → (∀ r, r ∈ plain → lapic_reg (lhw s') r = lapic_reg (lhw s) r) →
     lapic_eois (lhw s') = lapic_eois (lhw s) → Q tt s') →
  wp E (lapic_wait lapic_polls) Q s.
Proof.
  intros HQ. destruct s as [p l]. destruct (lapic_wait_ok p l) as (s' & Hrun & Hp & Hr & He).
  eapply wp_of_ok; [exact Hrun|]. by apply HQ.
Qed.
End lapic_facts.

Lemma redir_range j : 0 ≤ j ≤ 255 → 0 ≤ Z.lor INT_DISABLED (T_IRQ0 + j) < 4294967296.
Proof.
  intros Hj. assert (Forall (λ j, 0 ≤ Z.lor INT_DISABLED (T_IRQ0 + j) < 4294967296) (seqZ 0 256)) as HF.
  { apply (bool_decide_unpack _). vm_compute. exact I. }
  rewrite Forall_forall in HF. apply HF, elem_of_seqZ. lia.
Qed.

Section ioapic_facts.
Context {A : Type} {adev : IoapicDevice A} {aok : IoapicOk A}.

Lemma ioapicwrite_spec reg data a : REG_TABLE ≤ reg < 4294967296 →
  ∃ a', ioapicwrite reg data a = Ok (tt, a') ∧ ∀ q, ioa_reg a' q = if q =? reg then u32 data else ioa_reg a q.
Proof.
  intros Hr. unfold ioapicwrite. munfold. eexists. split; [done|]. intros q. rewrite (u32_small reg) by (unfold REG_TABLE in *; lia).
  destruct (ioa_select_ok reg a) as [Hc Hs]. rewrite ioa_store_ok by (rewrite Hc; lia). by rewrite Hc, Hs.
Qed.
Lemma ioapicread_spec reg a : 0 ≤ reg < 4294967296 →
  ∃ a', ioapicread reg a = Ok (ioa_reg a reg, a') ∧ ∀ q, ioa_reg a' q = ioa_reg a q.
Proof.
  intros Hr. unfold ioapicread, ioa_data. munfold. rewrite u32_small by done. destruct (ioa_select_ok reg a) as [Hc Hs].
  destruct (ioa_load_ok (ioa_select reg a)) as [Hv Hl]. destruct (ioa_load (ioa_select reg a)) as [v a']. cbn [fst snd] in *.
  exists a'. split; [by rewrite Hv, Hc, Hs|]. intros q. by rewrite Hl, Hs.
Qed.
(** The entries [i] to [maxintr]. *)
Lemma ioapicinit_loop_spec fuel i mx a : 0 ≤ i → mx ≤ 255 → mx - i + 1 < Z.of_nat fuel → (0 < fuel)%nat →
  ∃ a', ioapicinit_loop fuel i mx a = Ok (tt, a') ∧
    (∀ q, (∀ j, i ≤ j ≤ mx → q ≠ REG_TABLE + 2 * j ∧ q ≠ REG_TABLE + 2 * j + 1) → ioa_reg a' q = ioa_reg a q) ∧
    ∀ j, i ≤ j ≤ mx → ioa_reg a' (REG_TABLE + 2 * j) = Z.lor INT_DISABLED (T_IRQ0 + j) ∧
      ioa_reg a' (REG_TABLE + 2 * j + 1) = 0.
Proof.
  revert i a. induction fuel as [|fuel IH]; intros i a Hi Hm Hf Hf0; [lia|]. cbn [ioapicinit_loop].
  destruct (Z.leb_spec i mx) as [Hle|Hgt].
  2: { exists a. split_and!; [done|done|]. intros j; lia. }
  destruct (ioapicwrite_spec (REG_TABLE + 2 * i) (Z.lor INT_DISABLED (T_IRQ0 + i)) a) as (a1 & H1 & R1); [unfold REG_TABLE; lia|].
  destruct (ioapicwrite_spec (REG_TABLE + 2 * i + 1) 0 a1) as (a2 & H2 & R2); [unfold REG_TABLE; lia|].
  destruct (IH (i + 1) a2) as (a3 & H3 & Hframe & Hset); [lia..|]. exists a3.
  unfold mbind, M_bind. rewrite H1, H2. split; [done|]. split.
  - intros q Hq. rewrite Hframe by (intros j Hj; apply Hq; lia). destruct (Hq i) as [Hq1 Hq2]; [lia|].
    by rewrite R2, (proj2 (Z.eqb_neq _ _) Hq2), R1, (proj2 (Z.eqb_neq _ _) Hq1).
  - intros j Hj. destruct (decide (j = i)) as [->|Hne]; [|apply Hset; lia]. split.
    + rewrite Hframe by (unfold REG_TABLE; lia). rewrite R2, (proj2 (Z.eqb_neq _ _)), R1, Z.eqb_refl by lia. apply u32_small, redir_range. lia.
    + rewrite Hframe by (unfold REG_TABLE; lia). by rewrite R2, Z.eqb_refl.
Qed.
Lemma ioapicinit_read_spec a :
  ∃ a', ioapicinit_read a = Ok ((Z.land (Z.shiftr (ioa_reg a REG_VER) 16) 0xFF, Z.shiftr (ioa_reg a REG_ID) 24), a').
Proof.
  destruct (ioapicread_spec REG_VER a) as (a' & H1 & R1); [done|].
  destruct (ioapicread_spec REG_ID a') as (a'' & H2 & R2); [done|].
  exists a''. unfold ioapicinit_read, mbind, M_bind. rewrite H1. cbv zeta. by rewrite H2, R1.
Qed.
Lemma ioapicinit_mask_spec a v : let mx := Z.land v 0xFF in
  ∃ a1, ioapicinit_mask mx a = Ok (tt, a1) ∧
    ∀ j, 0 ≤ j ≤ mx → ioa_reg a1 (REG_TABLE + 2 * j) = Z.lor INT_DISABLED (T_IRQ0 + j) ∧ ioa_reg a1 (REG_TABLE + 2 * j + 1) = 0.
Proof.
  intros mx. assert (mx ≤ 255) as Hmx.
  { unfold mx. rewrite (Z.land_ones _ 8) by lia. pose proof (Z.mod_pos_bound v (2 ^ 8) ltac:(lia)). lia. }
  destruct (ioapicinit_loop_spec (S (Z.to_nat (mx + 1))) 0 mx a) as (a1 & H3 & _ & Hset); [lia..|]. by exists a1.
Qed.
(** [ioapicinit] masks every line of the chip and says whether it warns. *)
Lemma ioapicinit_spec a id : let mx := Z.land (Z.shiftr (ioa_reg a REG_VER) 16) 0xFF in
  ∃ a1, ioapicinit id a = Ok (negb (Z.shiftr (ioa_reg a REG_ID) 24 =? id), a1) ∧
    ∀ j, 0 ≤ j ≤ mx → ioa_reg a1 (REG_TABLE + 2 * j) = Z.lor INT_DISABLED (T_IRQ0 + j) ∧ ioa_reg a1 (REG_TABLE + 2 * j + 1) = 0.
Proof.
  intros mx. destruct (ioapicinit_read_spec a) as (a' & H1).
  destruct (ioapicinit_mask_spec a' (Z.shiftr (ioa_reg a REG_VER) 16)) as (a1 & H2 & Hset).
  exists a1. split; [|exact Hset]. unfold ioapicinit, mbind, M_bind. rewrite H1. cbn [fst snd]. by rewrite H2.
Qed.
(** [ioapicenable] sets the two words of one line. *)
Lemma ioapicenable_spec irq cpunum a : 0 ≤ irq ≤ 255 → 0 ≤ cpunum < 256 →
  ∃ a2, ioapicenable irq cpunum a = Ok (tt, a2) ∧ ∀ q, ioa_reg a2 q =
    if q =? REG_TABLE + 2 * irq + 1 then Z.shiftl cpunum 24 else if q =? REG_TABLE + 2 * irq then T_IRQ0 + irq else ioa_reg a q.
Proof.
  intros Hirq Hcpu.
  destruct (ioapicwrite_spec (REG_TABLE + 2 * irq) (T_IRQ0 + irq) a) as (a3 & H4 & R4); [unfold REG_TABLE; lia|].
  destruct (ioapicwrite_spec (REG_TABLE + 2 * irq + 1) (Z.shiftl cpunum 24) a3) as (a2 & H5 & R5); [unfold REG_TABLE; lia|].
  assert (0 ≤ Z.shiftl cpunum 24 < 4294967296) as Hdest by (rewrite Z.shiftl_mul_pow2 by lia; lia).
  rewrite (u32_small (Z.shiftl cpunum 24)) in R5 by done. rewrite (u32_small (T_IRQ0 + irq)) in R4 by (unfold T_IRQ0; lia).
  exists a2. split; [unfold ioapicenable, mbind, M_bind; by rewrite H4, H5|]. intros q. by rewrite R5, R4.
Qed.
End ioapic_facts.
