(* ===== verification/Bootmain.v ===== *)
(** * bootmain.c and elf.h: the boot loader

    The loader reads the kernel, an ELF file that starts at sector 1 of the
    first drive, into memory and jumps to its entry point. The drive is the
    parameter of Ide.v; the state is the drive and memory. *)

From S2P Require Import Prelude CString Ide Kalloc Syscall Mp.

Definition SECTSIZE : Z := 512.
Definition ELF_MAGIC : Z := 0x464C457F.
Definition ELF_AT : Z := 0x10000.  (* scratch space *)

Record boot_st (D : Type) := mk_boot_st { bhw : D; bmem : mem }.
Arguments mk_boot_st {D}.
Arguments bhw {D}.
Arguments bmem {D}.

Section loader.
Context {D : Type} {dev : IdeDevice D}.

Definition b_inb (port : Z) : M (boot_st D) Z := λ s,
  let '(v, d) := dev_inb port (bhw s) in Ok (v, mk_boot_st d (bmem s)).
Definition b_outb (port data : Z) : M (boot_st D) unit :=
  modify (λ s, mk_boot_st (dev_outb port (u8 data) (bhw s)) (bmem s)).
(** [insl] stores at [addr]. *)
Definition b_insl (port addr : Z) (cnt : nat) : M (boot_st D) unit := λ s,
  let '(x, d) := dev_insl port cnt (bhw s) in Ok (tt, mk_boot_st d (store_bytes (bmem s) addr x)).

Fixpoint waitdisk_loop (fuel : nat) : M (boot_st D) unit :=
  match fuel with
  | O => hang
  | S fuel =>
      r ← b_inb 0x1F7;
      if negb (Z.land r 0xC0 =? 0x40) then waitdisk_loop fuel else mret tt
  end.
Definition waitdisk : M (boot_st D) unit := waitdisk_loop dev_polls.

Definition readsect (dst offset : Z) : M (boot_st D) unit :=
  waitdisk;;
  b_outb 0x1F2 1;;
  b_outb 0x1F3 offset;;
  b_outb 0x1F4 (Z.shiftr offset 8);;
  b_outb 0x1F5 (Z.shiftr offset 16);;
  b_outb 0x1F6 (Z.lor (Z.shiftr offset 24) 0xE0);;
  b_outb 0x1F7 0x20;;
  waitdisk;;
  b_insl 0x1F0 dst (Z.to_nat (SECTSIZE / 4)).

Fixpoint readseg_loop (fuel : nat) (pa epa offset : Z) : M (boot_st D) unit :=
  match fuel with
  | O => hang
  | S fuel =>
      if pa <? epa then readsect pa offset;; readseg_loop fuel (u32 (pa + SECTSIZE)) epa (u32 (offset + 1))
      else mret tt
  end.
Definition readseg (pa count offset : Z) : M (boot_st D) unit :=
  readseg_loop (Z.to_nat (count / SECTSIZE + 3)) (u32 (pa - offset mod SECTSIZE)) (u32 (pa + count))
    (offset / SECTSIZE + 1).

(** Fields of [struct elfhdr] and [struct proghdr] (32 bytes). *)
Definition elf_magic (m : mem) (elf : Z) : Z := load4 m elf.
Definition elf_entry (m : mem) (elf : Z) : Z := load4 m (elf + 24).
Definition elf_phoff (m : mem) (elf : Z) : Z := load4 m (elf + 28).
Definition elf_phnum (m : mem) (elf : Z) : Z := m (elf + 44) + 256 * m (elf + 45).
Definition ph_off (m : mem) (ph : Z) : Z := load4 m (ph + 4).
Definition ph_paddr (m : mem) (ph : Z) : Z := load4 m (ph + 12).
Definition ph_filesz (m : mem) (ph : Z) : Z := load4 m (ph + 16).
Definition ph_memsz (m : mem) (ph : Z) : Z := load4 m (ph + 20).

(** The headers from [ph] up to [eph]. *)
Fixpoint bootmain_load (fuel : nat) (ph eph : Z) : M (boot_st D) unit :=
  match fuel with
  | O => hang
  | S fuel =>
      if negb (ph <? eph) then mret tt else
      m ← gets bmem;
      let pa := ph_paddr m ph in
      readseg pa (ph_filesz m ph) (ph_off m ph);;
      m ← gets bmem;
      when (ph_memsz m ph >? ph_filesz m ph)
        (modify (λ s, mk_boot_st (bhw s)
           (stosb (bmem s) (u32 (pa + ph_filesz m ph)) 0 (Z.to_nat (ph_memsz m ph - ph_filesz m ph)))));;
      bootmain_load fuel (u32 (ph + 32)) eph
  end.

(** [Some entry]: the jump to the entry point; [None]: the return to
    bootasm.S. *)
Definition bootmain : M (boot_st D) (option Z) :=
  readseg ELF_AT 4096 0;;
  m ← gets bmem;
  if negb (elf_magic m ELF_AT =? ELF_MAGIC) then mret None else
  let ph := u32 (ELF_AT + elf_phoff m ELF_AT) in
  let eph := u32 (ph + 32 * elf_phnum m ELF_AT) in
  bootmain_load (S (Z.to_nat (elf_phnum m ELF_AT))) ph eph;;
  m ← gets bmem;
  mret (Some (elf_entry m ELF_AT)).
End loader.

(** ** Reading sectors *)
Lemma sector_bytes offset : 0 ≤ offset < 268435456 →
  let r6 := u8 (Z.lor (Z.shiftr offset 24) 0xE0) in
  Z.land (Z.shiftr r6 4) 1 = 0 ∧
  u8 offset + 256 * u8 (Z.shiftr offset 8) + 65536 * u8 (Z.shiftr offset 16) + 16777216 * Z.land r6 0x0f = offset.
Proof.
  intros Ho r6. assert (0 ≤ Z.shiftr offset 24 < 16) as Hh.
  { rewrite Z.shiftr_div_pow2 by lia. split; [apply Z.div_pos; lia|apply Z.div_lt_upper_bound; lia]. }
  assert (Z.land (Z.shiftr r6 4) 1 = 0 ∧ Z.land r6 0x0f = Z.shiftr offset 24) as [H1 H2].
  { assert (Forall (λ x, Z.land (Z.shiftr (u8 (Z.lor x 0xE0)) 4) 1 = 0 ∧ Z.land (u8 (Z.lor x 0xE0)) 0x0f = x) (seqZ 0 16)) as HF.
    { apply (bool_decide_unpack _). vm_compute. exact I. }
    rewrite Forall_forall in HF. apply HF, elem_of_seqZ. lia. }
  split; [done|]. rewrite H2, !Z.shiftr_div_pow2 by lia. unfold u8.
  change (2 ^ 8) with 256. change (2 ^ 16) with (256 * 256). change (2 ^ 24) with (256 * 256 * 256).
  rewrite <- !Z.div_div by lia.
  pose proof (Z_div_mod_eq_full offset 256). pose proof (Z_div_mod_eq_full (offset / 256) 256).
  pose proof (Z_div_mod_eq_full (offset / 256 / 256) 256). lia.
Qed.

Lemma store_bytes_spec m a bs x :
  store_bytes m a bs x = if decide (a ≤ x < a + Z.of_nat (length bs)) then default 0 (bs !! Z.to_nat (x - a)) else m x.
Proof.
  revert m a. induction bs as [|b bs IH]; intros m a; cbn [store_bytes length].
  - by rewrite decide_False by lia.
  - rewrite IH, store_spec. destruct (decide (x = a)) as [->|Hne].
    + rewrite decide_False, decide_True by lia. by rewrite Z.sub_diag.
    + repeat case_decide; try lia; try done.
      replace (Z.to_nat (x - a)) with (S (Z.to_nat (x - (a + 1)))) by lia. done.
Qed.

Section loader_facts.
Context {D : Type} {dev : IdeDevice D} {dok : IdeDeviceOk D}.
Implicit Types s : boot_st D.

(** Byte [x] of the kernel file. *)
Definition kfile (d : D) (x : Z) : Z := default 0 (media d 0 (x / 512 + 1) !! Z.to_nat (x mod 512)).
(** Nothing of the disk changed, and the drive is ready for a command. *)
Definition quiet s s' : Prop := (∀ v b, media (bhw s') v b = media (bhw s) v b) ∧ dphase (bhw s') = Idle.
Lemma quiet_kfile s s' x : quiet s s' → kfile (bhw s') x = kfile (bhw s) x.
Proof. intros [Hm _]. unfold kfile. by rewrite Hm. Qed.
Lemma quiet_trans s1 s2 s3 : quiet s1 s2 → quiet s2 s3 → quiet s1 s3.
Proof. intros [H1 _] [H2 H3]. split; [intros; by rewrite H2|done]. Qed.

Lemma waitdisk_run n s :
  waitdisk_loop n s = match dev_poll n (bhw s) with Some (r, d') => Ok (tt, mk_boot_st d' (bmem s)) | None => Hang end.
Proof.
  revert s. induction n as [|n IH]; intros s; [done|]. cbn [waitdisk_loop dev_poll]. unfold b_inb. munfold.
  destruct (dev_inb 0x1f7 (bhw s)) as [r d'] eqn:Hd. change (Z.lor IDE_BSY IDE_DRDY) with 0xC0. change IDE_DRDY with 0x40.
  destruct (Z.land r 0xC0 =? 0x40); cbn [negb]; [done|]. by rewrite IH.
Qed.
Lemma wp_waitdisk E (Q : unit → boot_st D → Prop) s :
  (∀ s', (∀ v b, media (bhw s') v b = media (bhw s) v b) → (∀ p, task (bhw s') p = task (bhw s) p) →
     dphase (bhw s') = dphase (bhw s) → bmem s' = bmem s → Q tt s') →
  wp E waitdisk Q s.
Proof.
  intros HQ. destruct (poll_ok (bhw s)) as (r & d' & Hp & _ & Hm & Ht & Hph). unfold wp, waitdisk.
  rewrite waitdisk_run, Hp. by apply HQ.
Qed.
Lemma wp_b_outb E p x (Q : unit → boot_st D → Prop) s :
  0x1f2 ≤ p ≤ 0x1f6 →
  (∀ s', (∀ v b, media (bhw s') v b = media (bhw s) v b) →
     (∀ q, task (bhw s') q = if q =? p then u8 x else task (bhw s) q) →
     dphase (bhw s') = dphase (bhw s) → bmem s' = bmem s → Q tt s') →
  wp E (b_outb p x) Q s.
Proof. intros Hp HQ. apply wp_modify. destruct (outb_task (bhw s) p (u8 x) Hp) as (Hm & Ht & Hph). by apply HQ. Qed.

Lemma wp_readsect E dst offset (Q : unit → boot_st D → Prop) s :
  dphase (bhw s) = Idle → 0 ≤ offset < 268435456 →
  (∀ s', quiet s s' → bmem s' = store_bytes (bmem s) dst (media (bhw s) 0 offset) → Q tt s') →
  wp E (readsect dst offset) Q s.
Proof.
  intros Hid Ho HQ. unfold readsect. destruct (sector_bytes offset Ho) as [Hdrv Hlba].
  apply wp_bind, wp_waitdisk. intros s1 Hm1 Ht1 Hp1 Hb1.
  apply wp_bind, wp_b_outb; [lia|]. intros s2 Hm2 Ht2 Hp2 Hb2.
  apply wp_bind, wp_b_outb; [lia|]. intros s3 Hm3 Ht3 Hp3 Hb3.
  apply wp_bind, wp_b_outb; [lia|]. intros s4 Hm4 Ht4 Hp4 Hb4.
  apply wp_bind, wp_b_outb; [lia|]. intros s5 Hm5 Ht5 Hp5 Hb5.
  apply wp_bind, wp_b_outb; [lia|]. intros s6 Hm6 Ht6 Hp6 Hb6.
  apply wp_bind, wp_modify. change (u8 0x20) with IDE_CMD_READ.
  assert (dphase (bhw s6) = Idle) as Hi6 by congruence.
  assert (task (bhw s6) 0x1f2 = 1) as Hc6 by (by rewrite Ht6, Ht5, Ht4, Ht3, Ht2).
  destruct (outb_read (bhw s6) Hi6 Hc6) as [Hm7 Hp7].
  assert (task (bhw s6) 0x1f3 = u8 offset) as H3 by (by rewrite Ht6, Ht5, Ht4, Ht3).
  assert (task (bhw s6) 0x1f4 = u8 (Z.shiftr offset 8)) as H4 by (by rewrite Ht6, Ht5, Ht4).
  assert (task (bhw s6) 0x1f5 = u8 (Z.shiftr offset 16)) as H5 by (by rewrite Ht6, Ht5).
  assert (task (bhw s6) 0x1f6 = u8 (Z.lor (Z.shiftr offset 24) 0xE0)) as H6 by (by rewrite Ht6).
  rewrite H3, H4, H5, H6, Hdrv, Hlba in Hp7.
  apply wp_bind, wp_waitdisk. cbn [bhw bmem]. intros s8 Hm8 _ Hp8 Hb8.
  unfold wp, b_insl. change (Z.to_nat (SECTSIZE / 4)) with 128%nat. rewrite Hp7 in Hp8.
  pose proof (insl_data (bhw s8) _ _ Hp8) as Hin. destruct (dev_insl 0x1F0 128 (bhw s8)) as [x d9].
  destruct Hin as (-> & Hm9 & Hp9).
  assert (∀ v b, media (bhw s8) v b = media (bhw s) v b) as Hm.
  { intros. by rewrite Hm8, Hm7, Hm6, Hm5, Hm4, Hm3, Hm2, Hm1. }
  apply HQ; cbn [bhw bmem].
  - split; [intros; by rewrite Hm9, Hm|done].
  - rewrite Hm. f_equal. congruence.
Qed.

(** Where a read of whole sectors from [pa] up to [epa] ends. *)
Definition rup (pa epa : Z) : Z := if pa <? epa then pa + 512 * ((epa - pa + 511) / 512) else pa.
Lemma rup_step pa epa : pa < epa → rup pa epa = rup (pa + 512) epa.
Proof.
  intros Hlt. unfold rup. rewrite (proj2 (Z.ltb_lt _ _) Hlt).
  pose proof (Z_div_mod_eq_full (epa - pa + 511) 512). pose proof (Z.mod_pos_bound (epa - pa + 511) 512 ltac:(lia)).
  pose proof (Z_div_mod_eq_full (epa - (pa + 512) + 511) 512). pose proof (Z.mod_pos_bound (epa - (pa + 512) + 511) 512 ltac:(lia)).
  destruct (Z.ltb_spec (pa + 512) epa); lia.
Qed.
Lemma rup_bound pa epa : pa ≤ rup pa epa ∧ epa ≤ rup pa epa ∧ (pa < epa → rup pa epa < epa + 512).
Proof.
  unfold rup. pose proof (Z_div_mod_eq_full (epa - pa + 511) 512). pose proof (Z.mod_pos_bound (epa - pa + 511) 512 ltac:(lia)).
  destruct (Z.ltb_spec pa epa); lia.
Qed.

(** [sec] is the sector that goes to [pa]. *)
Definition from_sector (d : D) (pa sec x : Z) : Z := default 0 (media d 0 (sec + (x - pa) / 512) !! Z.to_nat ((x - pa) mod 512)).

Lemma wp_readseg_loop E fuel pa epa sec (Q : unit → boot_st D → Prop) s :
  dphase (bhw s) = Idle → 0 ≤ pa → epa + 512 < 4294967296 → 0 ≤ sec → sec + (epa - pa) / 512 + 1 < 268435456 →
  epa - pa ≤ 512 * (Z.of_nat fuel - 1) → (0 < fuel)%nat →
  (∀ s', quiet s s' → (∀ x, bmem s' x = if decide (pa ≤ x < rup pa epa) then from_sector (bhw s) pa sec x else bmem s x) → Q tt s') →
  wp E (readseg_loop fuel pa epa sec) Q s.
Proof.
  revert pa sec s. induction fuel as [|fuel IH]; intros pa sec s Hid Hpa Hepa Hsec Hmax Hf Hf0 HQ; [lia|]. cbn [readseg_loop].
  destruct (Z.ltb_spec pa epa) as [Hlt|Hge].
  2: { apply wp_ret, HQ; [by split|]. intros x. rewrite decide_False; [done|]. unfold rup. rewrite (proj2 (Z.ltb_ge _ _)); lia. }
  assert (0 ≤ (epa - pa) / 512) as Hd0 by (apply Z.div_pos; lia).
  apply wp_bind, wp_readsect; [done|lia|]. intros s1 Hq1 Hm1. change SECTSIZE with 512.
  rewrite !u32_small by lia. assert ((epa - (pa + 512)) / 512 = (epa - pa) / 512 - 1) as Hdiv.
  { replace (epa - (pa + 512)) with (epa - pa + (-1) * 512) by lia. rewrite Z.div_add by lia. lia. }
  apply IH; [apply Hq1|lia|lia|lia|lia|lia|lia|]. intros s2 Hq2 Hm2. apply HQ; [by eapply quiet_trans|].
  intros x. rewrite Hm2, Hm1, <- rup_step by done. rewrite store_bytes_spec, media_length.
  pose proof (rup_bound (pa + 512) epa) as Hb. rewrite <- rup_step in Hb by done.
  destruct (decide (pa + 512 ≤ x < rup pa epa)) as [Hin|Hout].
  - rewrite decide_True by lia. unfold from_sector. rewrite (proj1 Hq1).
    replace (x - pa) with (x - (pa + 512) + 1 * 512) by lia. rewrite Z.div_add, Z.mod_add by lia.
    by replace (sec + 1 + (x - (pa + 512)) / 512) with (sec + ((x - (pa + 512)) / 512 + 1)) by lia.
  - destruct (decide (pa ≤ x < pa + Z.of_nat 512)) as [Hin1|Hout1].
    + rewrite decide_True by lia. unfold from_sector. rewrite Z.div_small, Z.mod_small, Z.add_0_r by lia. done.
    + by rewrite decide_False by lia.
Qed.

(** A segment: where it is in the file and in memory. *)
Record seg := mk_seg { g_off : Z; g_pa : Z; g_filesz : Z; g_memsz : Z }.
Definition seg_lo (g : seg) : Z := g_pa g - g_off g mod 512.
Definition seg_end (g : seg) : Z := g_pa g + Z.max (g_filesz g) (g_memsz g).
Definition seg_hi (g : seg) : Z := Z.max (rup (seg_lo g) (g_pa g + g_filesz g)) (seg_end g).

Lemma wp_readseg E pa count offset (Q : unit → boot_st D → Prop) s :
  dphase (bhw s) = Idle → 0 ≤ pa - offset mod 512 → 0 ≤ count → pa + count + 512 < 4294967296 → 0 ≤ offset →
  offset + count < 137438950000 →
  (∀ s', quiet s s' → (∀ x, bmem s' x = if decide (pa - offset mod 512 ≤ x < rup (pa - offset mod 512) (pa + count))
      then kfile (bhw s) (offset + (x - pa)) else bmem s x) → Q tt s') →
  wp E (readseg pa count offset) Q s.
Proof.
  intros Hid Hpa Hc Hhi Ho Hfile HQ. unfold readseg. change SECTSIZE with 512.
  pose proof (Z.mod_pos_bound offset 512 ltac:(lia)) as Hm. pose proof (Z_div_mod_eq_full offset 512) as Hdm.
  pose proof (Z_div_mod_eq_full count 512). pose proof (Z.mod_pos_bound count 512 ltac:(lia)).
  assert (0 ≤ offset / 512) by (apply Z.div_pos; lia). assert (0 ≤ count / 512) by (apply Z.div_pos; lia).
  set (pa0 := pa - offset mod 512) in *. rewrite !u32_small by lia.
  assert ((pa + count - pa0) / 512 ≤ count / 512 + 1).
  { apply Z.lt_succ_r, Z.div_lt_upper_bound; lia. }
  apply wp_readseg_loop; [done|lia|lia|lia|lia|lia|lia|]. intros s' Hq Hb. apply HQ; [done|]. intros x. rewrite Hb.
  case_decide; [|done]. unfold from_sector, kfile.
  replace (offset + (x - pa)) with (x - pa0 + offset / 512 * 512) by lia. rewrite Z.div_add, Z.mod_add by lia.
  by replace (offset / 512 + 1 + (x - pa0) / 512) with ((x - pa0) / 512 + offset / 512 + 1) by lia.
Qed.

(** Program header [i] of the file. *)
Definition nth_seg (f : mem) (i : nat) : seg :=
  let ph := elf_phoff f 0 + 32 * Z.of_nat i in
  mk_seg (ph_off f ph) (ph_paddr f ph) (ph_filesz f ph) (ph_memsz f ph).
(** It lies above the scratch space, in the address space and on the disk. *)
Definition seg_ok (g : seg) : Prop :=
  ELF_AT + 4096 ≤ seg_lo g ∧ 0 ≤ g_filesz g ∧ 0 ≤ g_memsz g ∧ seg_end g + 512 < 4294967296 ∧
  0 ≤ g_off g ∧ g_off g + g_filesz g < 137438950000.
(** The bytes of the file, then zeroes. *)
Definition seg_loaded (f m : mem) (g : seg) : Prop :=
  (∀ x, g_pa g ≤ x < g_pa g + g_filesz g → m x = f (g_off g + (x - g_pa g))) ∧
  (∀ x, g_pa g + g_filesz g ≤ x < g_pa g + g_memsz g → m x = 0).
(** A kernel the loader can load: the headers are in the first page, and the
    segments in increasing order, each starting in a sector of the file that
    goes to memory behind the end of those before it. *)
Record bootable (f : mem) : Prop := {
  bt_phoff : 0 ≤ elf_phoff f 0;
  bt_phnum : 0 ≤ elf_phnum f 0;
  bt_headers : elf_phoff f 0 + 32 * elf_phnum f 0 ≤ 4096;
  bt_segs i : (i < Z.to_nat (elf_phnum f 0))%nat → seg_ok (nth_seg f i);
  bt_order i j : (i < j < Z.to_nat (elf_phnum f 0))%nat → seg_end (nth_seg f i) ≤ seg_lo (nth_seg f j);
}.

Lemma load4_at (m f : mem) a o : (∀ x, o ≤ x < o + 4 → m (a + x) = f x) → load4 m (a + o) = load4 f o.
Proof.
  intros Hf. unfold load4. rewrite <- !Z.add_assoc. rewrite !Hf by lia. done.
Qed.
(** The first page of the file is in the scratch space. *)
Definition scratch (f m : mem) : Prop := ∀ x, 0 ≤ x < 4096 → m (ELF_AT + x) = f x.

Lemma scratch_seg f m i : bootable f → scratch f m → (i < Z.to_nat (elf_phnum f 0))%nat →
  let ph := ELF_AT + (elf_phoff f 0 + 32 * Z.of_nat i) in
  ph_off m ph = g_off (nth_seg f i) ∧ ph_paddr m ph = g_pa (nth_seg f i) ∧
  ph_filesz m ph = g_filesz (nth_seg f i) ∧ ph_memsz m ph = g_memsz (nth_seg f i).
Proof.
  intros [H1 H2 H3 _ _] Hs Hi. cbn zeta. unfold ph_off, ph_paddr, ph_filesz, ph_memsz. rewrite <- !Z.add_assoc.
  cbn [nth_seg g_off g_pa g_filesz g_memsz]. unfold ph_off, ph_paddr, ph_filesz, ph_memsz. rewrite <- !Z.add_assoc.
  split_and!; apply load4_at; intros x Hx; apply Hs; lia.
Qed.

Lemma scratch_fields f m : scratch f m → elf_magic m ELF_AT = elf_magic f 0 ∧ elf_entry m ELF_AT = elf_entry f 0 ∧
  elf_phoff m ELF_AT = elf_phoff f 0 ∧ elf_phnum m ELF_AT = elf_phnum f 0.
Proof.
  intros Hs. unfold elf_magic, elf_entry, elf_phoff, elf_phnum. rewrite <- (Z.add_0_r ELF_AT) at 1.
  split_and!; [apply load4_at; intros; apply Hs; lia..|]. by rewrite !Hs by lia.
Qed.
(** Reading the first page. *)
Lemma wp_read_header E {A} (c : M (boot_st D) A) (Q : A → boot_st D → Prop) s :
  dphase (bhw s) = Idle →
  (∀ s1, quiet s s1 → scratch (kfile (bhw s)) (bmem s1) → (∀ x, ¬ (ELF_AT ≤ x < ELF_AT + 4096) → bmem s1 x = bmem s x) → wp E c Q s1) →
  wp E (readseg ELF_AT 4096 0;; c) Q s.
Proof.
  intros Hid Hc. apply wp_bind, wp_readseg; [done..|]. intros s1 Hq Hb. change (0 mod 512) with 0 in Hb. rewrite Z.sub_0_r in Hb.
  change (rup ELF_AT (ELF_AT + 4096)) with (ELF_AT + 4096) in Hb. apply Hc; [done| |]; intros x Hx; rewrite Hb.
  - rewrite decide_True by lia. f_equal. lia.
  - by rewrite decide_False.
Qed.

(** One segment: the sectors, then the zeroes. *)
Lemma wp_load_seg E f i (c : M (boot_st D) unit) (Q : unit → boot_st D → Prop) s :
  let g := nth_seg f i in let ph := ELF_AT + (elf_phoff f 0 + 32 * Z.of_nat i) in
  bootable f → (i < Z.to_nat (elf_phnum f 0))%nat → scratch f (bmem s) → dphase (bhw s) = Idle →
  (∀ x, 0 ≤ x → kfile (bhw s) x = f x) →
  (∀ s', quiet s s' → seg_loaded f (bmem s') g → (∀ x, ¬ (seg_lo g ≤ x < seg_hi g) → bmem s' x = bmem s x) → wp E c Q s') →
  wp E (m ← gets bmem;
        readseg (ph_paddr m ph) (ph_filesz m ph) (ph_off m ph);;
        m' ← gets bmem;
        when (ph_memsz m' ph >? ph_filesz m' ph)
          (modify (λ s, mk_boot_st (bhw s)
             (stosb (bmem s) (u32 (ph_paddr m ph + ph_filesz m' ph)) 0 (Z.to_nat (ph_memsz m' ph - ph_filesz m' ph)))));;
        c) Q s.
Proof.
  intros g ph Hbt Hi Hs Hid Hf HQ. destruct (bt_segs f Hbt i Hi) as (Hlo & Hfs & Hms & Hend & Hoff & Hfile). fold g in Hlo, Hfs, Hms, Hend, Hoff, Hfile.
  destruct (scratch_seg f (bmem s) i Hbt Hs Hi) as (E1 & E2 & E3 & E4). fold ph g in E1, E2, E3, E4.
  unfold seg_hi, seg_lo, seg_end in *. unfold ELF_AT in Hlo. pose proof (Z.mod_pos_bound (g_off g) 512 ltac:(lia)) as Hmod.
  pose proof (Z_div_mod_eq_full (g_off g) 512). assert (0 ≤ g_off g / 512) by (apply Z.div_pos; lia).
  apply wp_bind, wp_gets. rewrite E1, E2, E3. apply wp_bind, wp_readseg; [done|lia|lia|lia|lia|lia|].
  intros s1 Hq1 Hb1. set (lo := g_pa g - g_off g mod 512) in *. set (hi := rup lo (g_pa g + g_filesz g)) in *.
  assert (scratch f (bmem s1)) as Hs1.
  { intros x Hx. rewrite Hb1, decide_False by (unfold ELF_AT; lia). by apply Hs. }
  destruct (scratch_seg f (bmem s1) i Hbt Hs1 Hi) as (_ & _ & E3' & E4'). fold ph g in E3', E4'.
  pose proof (rup_bound lo (g_pa g + g_filesz g)) as (_ & Hhi & _). fold hi in Hhi.
  apply wp_bind, wp_gets. rewrite E3', E4'. rewrite u32_small by lia.
  assert (∀ x, g_pa g ≤ x < g_pa g + g_filesz g → bmem s1 x = f (g_off g + (x - g_pa g))) as Hd.
  { intros x Hx. rewrite Hb1, decide_True by lia. apply Hf. lia. }
  apply wp_bind. rewrite Z.gtb_ltb. destruct (Z.ltb_spec (g_filesz g) (g_memsz g)) as [Hgt|Hle]; cbn [when].
  - apply wp_modify. apply HQ; cbn [bmem bhw]; [exact Hq1| |].
    + split; intros x Hx; cbn [bmem]; rewrite stosb_spec; [rewrite decide_False by lia; by apply Hd|by rewrite decide_True by lia].
    + intros x Hx. cbn [bmem]. by rewrite stosb_spec, decide_False, Hb1, decide_False by lia.
  - apply wp_ret. apply HQ; [exact Hq1|split; [done|intros x; lia]|]. intros x Hx. by rewrite Hb1, decide_False by lia.
Qed.

Lemma wp_bootmain_load E f n i (Q : unit → boot_st D → Prop) s :
  bootable f → (i + n = Z.to_nat (elf_phnum f 0))%nat → scratch f (bmem s) → dphase (bhw s) = Idle →
  (∀ x, 0 ≤ x → kfile (bhw s) x = f x) → (∀ j, (j < i)%nat → seg_loaded f (bmem s) (nth_seg f j)) →
  (∀ s', quiet s s' → scratch f (bmem s') → (∀ j, (j < i + n)%nat → seg_loaded f (bmem s') (nth_seg f j)) →
     (∀ x, (∀ j, (i ≤ j < i + n)%nat → ¬ (seg_lo (nth_seg f j) ≤ x < seg_hi (nth_seg f j))) → bmem s' x = bmem s x) → Q tt s') →
  wp E (bootmain_load (S n) (ELF_AT + (elf_phoff f 0 + 32 * Z.of_nat i)) (ELF_AT + (elf_phoff f 0 + 32 * elf_phnum f 0))) Q s.
Proof.
  pose proof (bt_phnum f) as B2. revert i s. induction n as [|n IH]; intros i s Hbt Hin Hs Hid Hf Hprev HQ; cbn [bootmain_load].
  { rewrite (proj2 (Z.ltb_ge _ _)) by lia. apply wp_ret, HQ; [by split|done| |done]. by rewrite Nat.add_0_r. }
  specialize (B2 Hbt). rewrite (proj2 (Z.ltb_lt _ _)) by lia. cbn [negb].
  apply (wp_load_seg E f i); [done|lia|done|done|done|]. intros s1 Hq1 Hload Hframe.
  destruct Hbt as [B1 _ B3 B4 B5]. assert (bootable f) as Hbt by done.
  assert (i < Z.to_nat (elf_phnum f 0))%nat as Hi by lia. pose proof (B4 i Hi) as (Hlo & _).
  replace (u32 _) with (ELF_AT + (elf_phoff f 0 + 32 * Z.of_nat (S i))) by (unfold ELF_AT; rewrite u32_small; lia).
  apply IH; [done|lia| |apply Hq1| | |].
  - intros x Hx. rewrite Hframe by lia. by apply Hs.
  - intros x Hx. rewrite (quiet_kfile s s1) by done. by apply Hf.
  - intros j Hj. destruct (decide (j = i)) as [->|Hne]; [done|]. destruct (Hprev j ltac:(lia)) as [H1 H2].
    pose proof (B5 j i ltac:(lia)) as Ho. unfold seg_end in Ho.
    split; intros x Hx; rewrite Hframe by lia; auto.
  - intros s2 Hq2 Hs2 Hall Hout. apply HQ; [by eapply quiet_trans|done| |].
    + intros j Hj. apply Hall. lia.
    + intros x Hx. rewrite Hout by (intros j Hj; apply Hx; lia). apply Hframe, Hx. lia.
Qed.
End loader_facts.
