(* ===== verification/Kernel.v ===== *)
(** * The state of the kernel

    The components of the other files share one processor and one memory. The
    kernel state holds each of these once, and runs the code of a component on
    a view of the state: the component's own state, with the shared parts put
    in before the code runs and taken out after it. *)

From S2P Require Import Prelude Spinlock CString Ide Bio Layout Log Fs File Kalloc Syscall Console Vm Mp Apic.

Definition NPROC : nat := 64.

(** proc.h *)
Inductive procstate := UNUSED | EMBRYO | RUNNABLE | RUNNING.
#[global] Instance procstate_eq_dec : EqDecision procstate.
Proof. solve_decision. Defined.

(** Where a kernel thread that is not running will continue, the meaning of
    [p->context]: at the start of [forkret], or inside [sched], called from
    [yield], with the local variable [intena]. [b_context] itself is the
    address [allocproc] puts there; the stack pointers that later switches
    save are not kept. *)
Inductive kctx := KFresh | KSched (intena : Z).

(** [struct proc]; [parent] is never used. Pointers into memory are
    addresses, pointers to inodes and files indices. *)
Record pcb := mk_pcb {
  b_state : procstate;
  b_sz : Z;
  b_offset : Z;
  b_kstack : Z;
  b_pid : Z;
  b_tf : Z;
  b_context : Z;
  b_kctx : kctx;
  b_ofile : list (option nat);
  b_cwd : option nat;
  b_name : list Z;
}.
Definition set_state v (p : pcb) : pcb :=
  mk_pcb v (b_sz p) (b_offset p) (b_kstack p) (b_pid p) (b_tf p) (b_context p) (b_kctx p) (b_ofile p) (b_cwd p) (b_name p).
Definition set_pid v (p : pcb) : pcb :=
  mk_pcb (b_state p) (b_sz p) (b_offset p) (b_kstack p) v (b_tf p) (b_context p) (b_kctx p) (b_ofile p) (b_cwd p) (b_name p).
Definition set_offset v (p : pcb) : pcb :=
  mk_pcb (b_state p) (b_sz p) v (b_kstack p) (b_pid p) (b_tf p) (b_context p) (b_kctx p) (b_ofile p) (b_cwd p) (b_name p).
Definition set_tf v (p : pcb) : pcb :=
  mk_pcb (b_state p) (b_sz p) (b_offset p) (b_kstack p) (b_pid p) v (b_context p) (b_kctx p) (b_ofile p) (b_cwd p) (b_name p).
Definition set_kctx v (p : pcb) : pcb :=
  mk_pcb (b_state p) (b_sz p) (b_offset p) (b_kstack p) (b_pid p) (b_tf p) (b_context p) v (b_ofile p) (b_cwd p) (b_name p).
Definition set_ofile v (p : pcb) : pcb :=
  mk_pcb (b_state p) (b_sz p) (b_offset p) (b_kstack p) (b_pid p) (b_tf p) (b_context p) (b_kctx p) v (b_cwd p) (b_name p).
Definition set_cwd v (p : pcb) : pcb :=
  mk_pcb (b_state p) (b_sz p) (b_offset p) (b_kstack p) (b_pid p) (b_tf p) (b_context p) (b_kctx p) (b_ofile p) v (b_name p).
Definition set_name v (p : pcb) : pcb :=
  mk_pcb (b_state p) (b_sz p) (b_offset p) (b_kstack p) (b_pid p) (b_tf p) (b_context p) (b_kctx p) (b_ofile p) (b_cwd p) v.

(** The disk driver, the file system, the open files and the console are in
    [k_files], with the console as the state the device routines see. *)
Record kern (D U L : Type) := mk_kern {
  k_cpu : cpu;
  k_mem : mem;
  k_freelist : Z;
  k_end : Z;
  k_files : fls D (con U);
  k_lapic : lapic_st L;
  k_gdt : gdt_cpu;
  ptable : list pcb;
  nextpid : Z;
  initproc : option nat;
  curproc : option nat;
  k_ticks : Z;
}.
Arguments mk_kern {D U L}.
Arguments k_cpu {D U L}.
Arguments k_mem {D U L}.
Arguments k_freelist {D U L}.
Arguments k_end {D U L}.
Arguments k_files {D U L}.
Arguments k_lapic {D U L}.
Arguments k_gdt {D U L}.
Arguments ptable {D U L}.
Arguments nextpid {D U L}.
Arguments initproc {D U L}.
Arguments curproc {D U L}.
Arguments k_ticks {D U L}.

(** The processor inside the file system state. *)
Definition fs_cpu {D X} (s : fss D X) : cpu := icpu (lio (flog s)).
Definition set_fs_cpu {D X} (c : cpu) (s : fss D X) : fss D X :=
  set_flog (set_lio (set_icpu c (lio (flog s))) (flog s)) s.

Section kern.
Context {D U L : Type} {dev : IdeDevice D} {udev : Uart U} {ldev : LapicDevice L}.
Abbreviation kern := (kern D U L).
Implicit Types k : kern.

Definition set_k_cpu v k : kern :=
  mk_kern v (k_mem k) (k_freelist k) (k_end k) (k_files k) (k_lapic k) (k_gdt k) (ptable k) (nextpid k) (initproc k) (curproc k) (k_ticks k).
Definition set_k_mem v k : kern :=
  mk_kern (k_cpu k) v (k_freelist k) (k_end k) (k_files k) (k_lapic k) (k_gdt k) (ptable k) (nextpid k) (initproc k) (curproc k) (k_ticks k).
Definition set_k_freelist v k : kern :=
  mk_kern (k_cpu k) (k_mem k) v (k_end k) (k_files k) (k_lapic k) (k_gdt k) (ptable k) (nextpid k) (initproc k) (curproc k) (k_ticks k).
Definition set_k_files v k : kern :=
  mk_kern (k_cpu k) (k_mem k) (k_freelist k) (k_end k) v (k_lapic k) (k_gdt k) (ptable k) (nextpid k) (initproc k) (curproc k) (k_ticks k).
Definition set_k_lapic v k : kern :=
  mk_kern (k_cpu k) (k_mem k) (k_freelist k) (k_end k) (k_files k) v (k_gdt k) (ptable k) (nextpid k) (initproc k) (curproc k) (k_ticks k).
Definition set_k_gdt v k : kern :=
  mk_kern (k_cpu k) (k_mem k) (k_freelist k) (k_end k) (k_files k) (k_lapic k) v (ptable k) (nextpid k) (initproc k) (curproc k) (k_ticks k).
Definition set_ptable v k : kern :=
  mk_kern (k_cpu k) (k_mem k) (k_freelist k) (k_end k) (k_files k) (k_lapic k) (k_gdt k) v (nextpid k) (initproc k) (curproc k) (k_ticks k).
Definition set_nextpid v k : kern :=
  mk_kern (k_cpu k) (k_mem k) (k_freelist k) (k_end k) (k_files k) (k_lapic k) (k_gdt k) (ptable k) v (initproc k) (curproc k) (k_ticks k).
Definition set_initproc v k : kern :=
  mk_kern (k_cpu k) (k_mem k) (k_freelist k) (k_end k) (k_files k) (k_lapic k) (k_gdt k) (ptable k) (nextpid k) v (curproc k) (k_ticks k).
Definition set_curproc v k : kern :=
  mk_kern (k_cpu k) (k_mem k) (k_freelist k) (k_end k) (k_files k) (k_lapic k) (k_gdt k) (ptable k) (nextpid k) (initproc k) v (k_ticks k).
Definition set_k_ticks v k : kern :=
  mk_kern (k_cpu k) (k_mem k) (k_freelist k) (k_end k) (k_files k) (k_lapic k) (k_gdt k) (ptable k) (nextpid k) (initproc k) (curproc k) v.

(** ** Views *)
Definition k_do_cpu {A} (m : M cpu A) : M kern A := zoom k_cpu set_k_cpu m.
Definition k_do_lapic {A} (m : M (lapic_st L) A) : M kern A := zoom k_lapic set_k_lapic m.
(** kalloc.c *)
Definition k_kmem k : kmem := mk_kmem (k_cpu k) (k_mem k) (k_freelist k) (k_end k).
Definition put_kmem (s : kmem) k : kern := set_k_freelist (freelist s) (set_k_mem (kmemory s) (set_k_cpu (kcpu s) k)).
Definition k_do_kmem {A} (m : M kmem A) : M kern A := zoom k_kmem put_kmem m.
(** The file system. *)
Definition k_fs k : fss D (con U) := set_fs_cpu (k_cpu k) (ffs (k_files k)).
Definition put_fs (s : fss D (con U)) k : kern := set_k_cpu (fs_cpu s) (set_k_files (set_ffs s (k_files k)) k).
Definition k_do_fs {A} (m : M (fss D (con U)) A) : M kern A := zoom k_fs put_fs m.
(** The console, seen from a device routine and from the kernel. *)
Definition fs_con (s : fss D (con U)) : con U := set_ccpu (fs_cpu s) (frest s).
Definition put_con (c : con U) (s : fss D (con U)) : fss D (con U) :=
  set_fs_cpu (ccpu c) (mk_fss (flog s) (fsb s) (icache s) c).
Definition do_con {A} (m : M (con U) A) : M (fss D (con U)) A := zoom fs_con put_con m.
Definition k_do_con {A} (m : M (con U) A) : M kern A := k_do_fs (do_con m).

(** ** proc.c: the process table *)
Definition get_proc (i : nat) : M kern pcb := getopt (λ k, ptable k !! i).
Definition mod_proc (i : nat) (f : pcb → pcb) : M kern unit :=
  p ← get_proc i; modify (λ k, set_ptable (<[i:=f p]> (ptable k)) k).

Definition state_name (st : procstate) : list Z :=
  match st with UNUSED => str "unused" | EMBRYO => str "embryo" | RUNNABLE => str "runble" | RUNNING => str "run   " end.

(** The process listing; every state has a name in the table, so that ["???"]
    is never printed. *)
Fixpoint procdump_loop (ps : list pcb) : M (con U) unit :=
  match ps with
  | [] => mret tt
  | p :: ps =>
      (if bool_decide (b_state p = UNUSED) then mret tt else
       cprintf (Some (str "%d %s %s")) [AWord (b_pid p); AStr (Some (state_name (b_state p))); AStr (Some (b_name p))];;
       cprintf (Some (line "")) []);;
      procdump_loop ps
  end.
Definition procdump (ps : list pcb) : M (con U) unit :=
  con_cpu pushcli;;
  procdump_loop ps;;
  con_cpu popcli.

(** ** console.c: the device routines

    [consoleinit] enters them in the table under [CONSOLE]; [fuel] bounds the
    characters of one interrupt. *)
Definition CONSOLE : nat := 1.
Definition console_dev (ps : list pcb) (fuel : nat) : @devsw D (con U) :=
  mk_devsw (Some (λ _ n, do_con (consoleread (procdump ps) fuel n)))
    (Some (λ _ src n, do_con (consolewrite src n))).
Definition devtab (ps : list pcb) (fuel : nat) : list (@devsw D (con U)) :=
  <[CONSOLE := console_dev ps fuel]> (replicate 10 (mk_devsw None None)).
End kern.
