(* ===== verification/Reports.v ===== *)
(** * What the kernel reports: panic and halt of console.c, procdump of proc.c

    In the other files [panic] is an outcome that ends the run. This file has
    its body, on the state of the console: what it prints, and that it gets to
    the end. The processor's number [id], the words [w] of memory that
    [getcallerpcs] walks and the address of the argument are parameters; the
    words [halt] writes to the ports that turn the emulated machine off are
    the result. [panicked] is never read. Then what [procdump] of Kernel.v
    prints: one line for each process, its number, its state and its name. *)

From S2P Require Import Prelude Spinlock CString Console ConsoleFacts Printf Kernel.

(** ** Panic *)
Section panic.
Context {U : Type} {dev : Uart U}.

(** Up to the endless loop. *)
Definition halt : M (con U) (list (Z * Z)) :=
  cprintf (Some (chars "Bye COL%d!" ++ [10; 0; 0])) [AWord 331];;
  mret [(0x602, 0x2000); (0xB002, 0x2000)].
Fixpoint panic_pcs (pcs : list Z) : M (con U) unit :=
  match pcs with
  | [] => mret tt
  | pc :: pcs => cprintf (Some (str " %p")) [AWord pc];; panic_pcs pcs
  end.
Definition k_panic (id : Z) (w : Z → Z) (s_at : Z) (s : list Z) : M (con U) (list (Z * Z)) :=
  con_cpu cli;;
  cprintf (Some (str "lapicid %d: panic: ")) [AWord id];;
  cprintf (Some s) [];;
  cprintf (Some (line "")) [];;
  panic_pcs (getcallerpcs w s_at);;
  halt.
End panic.

Section facts.
Context {U : Type} {dev : Uart U} {uok : UartOk U}.
Implicit Types s : con U.

(** Interrupts off, at any depth of [pushcli]. *)
Definition cpu_stopped (c : cpu) : Prop := irq_on c = false ∧ 0 ≤ ncli c < 2147483646.
Lemma pushcli_stopped c : cpu_stopped c → ∃ c1, pushcli c = Ok (tt, c1) ∧ irq_on c1 = false ∧ ncli c1 = ncli c + 1 ∧ (ncli c = 0 → intena c1 = 0).
Proof.
  intros [Hi Hn]. unfold irq_on in Hi. unfold pushcli, readeflags, cli. munfold. cbn. rewrite land_FL_IF, Hi.
  destruct (Z.eqb_spec (ncli c) 0) as [H0|H0]; cbn; eexists; (split; [reflexivity|]); unfold irq_on; cbn [eflags ncli intena]; rewrite s32_small by lia; split_and!; try done; apply cli_off.
Qed.
Lemma popcli_stopped c n : irq_on c = false → ncli c = n + 1 → 0 ≤ n < 2147483646 → (n = 0 → intena c = 0) →
  ∃ c1, popcli c = Ok (tt, c1) ∧ cpu_stopped c1.
Proof.
  unfold irq_on, cpu_stopped. intros Hi Hn Hb H0. unfold popcli, readeflags. munfold. cbn. rewrite irq_land_FL_IF, Hi. cbn. rewrite Hn.
  rewrite s32_small, (proj2 (Z.ltb_ge (n + 1 - 1) 0)) by lia.
  destruct (Z.eqb_spec (n + 1 - 1) 0) as [He|He]; cbn; [rewrite H0 by lia; cbn|]; eexists; (split; [reflexivity|]); cbn [eflags ncli]; split; try done; lia.
Qed.

(** Only the chip and the processor change: [bs] is transmitted. *)
Definition reports s s' (bs : list Z) : Prop :=
  ∃ c u, s' = set_ccpu c (set_uhw u s) ∧ cpu_stopped c ∧ tx u = tx (uhw s) ++ bs.
Lemma reports_trans s1 s2 s3 bs1 bs2 : reports s1 s2 bs1 → reports s2 s3 bs2 → reports s1 s3 (bs1 ++ bs2).
Proof. intros (c1 & u1 & -> & _ & T1) (c2 & u2 & -> & Hc & T2). exists c2, u2. cbn in T2. rewrite T2, T1, app_assoc. done. Qed.

Lemma wp_cprintf_stopped E fmt args bs (Q : unit → con U → Prop) s :
  cpu_stopped (ccpu s) →
  (∀ c (Q' : unit → con U → Prop), (∀ s', says (set_ccpu c s) s' bs → Q' tt s') → wp E (cprintf_loop fmt args) Q' (set_ccpu c s)) →
  (∀ s', reports s s' bs → Q tt s') → wp E (cprintf (Some fmt) args) Q s.
Proof.
  intros Hc Hloop HQ. destruct (pushcli_stopped _ Hc) as (c1 & Hp & H1 & H2 & H3). unfold cprintf.
  apply wp_bind, wp_zoom. eapply wp_of_ok; [exact Hp|]. apply wp_bind, Hloop. intros s' (u & -> & _ & Ht).
  destruct (popcli_stopped c1 (ncli (ccpu s))) as (c2 & Hp2 & Hc2); [done|done|apply Hc|done|].
  apply wp_zoom. eapply wp_of_ok; [exact Hp2|]. apply HQ. exists c2, u. done.
Qed.
(** With a format both formatters print alike. *)
Lemma wp_cprintf_common E fmt args bs (Q : unit → con U → Prop) s :
  cpu_stopped (ccpu s) → uart s ≠ 0 → bytes fmt → Forall arg_bytes args → common fmt false → printf fmt args = Some bs →
  (∀ s', reports s s' bs → Q tt s') → wp E (cprintf (Some fmt) args) Q s.
Proof. intros Hc Hu Hf Ha Hcm Hp HQ. eapply wp_cprintf_stopped; [done| |done]. intros c Q' HQ'. by eapply wp_cprintf_loop. Qed.

Lemma wp_panic_pcs E pcs (Q : unit → con U → Prop) s :
  cpu_stopped (ccpu s) → uart s ≠ 0 →
  (∀ dss s', Forall2 (λ pc ds, numeral_of 16 (u32 pc) ds) pcs dss → reports s s' (concat ((λ ds, 32 :: (digit <$> ds)) <$> dss)) → Q tt s') →
  wp E (panic_pcs pcs) Q s.
Proof.
  revert s Q. induction pcs as [|pc pcs IH]; intros s Q Hc Hu HQ; cbn [panic_pcs].
  - apply wp_ret, (HQ []); [constructor|]. exists (ccpu s), (uhw s). cbn. rewrite app_nil_r. by destruct s.
  - destruct (numeral_digits 16 (u32 pc)) as (ds & Hd & Hn & Hl); [by right|apply u32_range|].
    apply wp_bind. eapply (wp_cprintf_stopped E _ _ (32 :: (digit <$> ds))); [done| |].
    + intros c Q' HQ'. change (str " %p") with [32; 37; 112; 0]. cbn [cprintf_loop Z.eqb Pos.eqb negb orb].
      apply wp_bind, wp_consputc_byte; [done|lia|]. intros s1 H1. apply wp_bind.
      assert (u32 (s32 pc) = u32 pc) as Hpc by (unfold s32, u32; cbv zeta; case_match; rewrite ?Zminus_mod_idemp_l, ?Z.mod_mod by lia; [done|]; by rewrite Zminus_mod, Z_mod_same_full, Z.sub_0_r, !Z.mod_mod by lia).
      unfold printint. cbn [Z.eqb negb andb]. rewrite Hpc, Hd. rewrite bool_decide_eq_true_2 by (rewrite length_reverse, length_fmap; lia).
      rewrite reverse_involutive. apply wp_cons_puts; [by rewrite (says_uart _ _ _ H1)| |].
      { apply Forall_fmap. destruct Hn as (_ & HF & _). eapply Forall_impl; [exact HF|]. intros d Hdr. cbn beta in Hdr. cbn. by apply digit_byte. }
      intros s2 H2. apply wp_ret, HQ'. exact (says_trans _ _ _ _ _ H1 H2).
    + intros s1 H1. pose proof H1 as (c & u & -> & Hc1 & Ht1). apply IH; [done|done|]. intros dss s2 HF H2.
      apply (HQ (ds :: dss)); [by constructor|]. exact (reports_trans _ _ _ _ _ H1 H2).
Qed.
End facts.

(** ** The process listing *)
Definition state_text (st : procstate) : list Z :=
  chars match st with UNUSED => "unused" | EMBRYO => "embryo" | RUNNABLE => "runble" | RUNNING => "run   " end.
(** A line of the listing. *)
Definition listing_line (p : pcb) (bs : list Z) : Prop :=
  ∃ ds nm, numeral_of 10 (b_pid p) ds ∧ u_str (b_name p) = Some nm ∧
    bs = (DIGIT <$> ds) ++ 32 :: state_text (b_state p) ++ 32 :: nm ++ [NL].
Definition listing (ps : list pcb) (bs : list Z) : Prop :=
  ∃ ls, Forall2 listing_line (filter (λ p, b_state p ≠ UNUSED) ps) ls ∧ bs = concat ls.
(** A process whose name ends inside its array. *)
Definition listable (p : pcb) : Prop :=
  0 ≤ b_pid p < 2147483648 ∧ bytes (b_name p) ∧ is_Some (u_str (b_name p)).

Lemma state_name_text st : u_str (state_name st) = Some (state_text st) ∧ bytes (state_name st).
Proof. by destruct st; (split; [vm_compute; reflexivity|apply (bool_decide_unpack _); vm_compute; exact I]). Qed.

Lemma u_conv_number v args : u_conv 100 (AWord v :: args) = (r ← u_printint (s32 v) 10 1; Some (r, args)).
Proof. reflexivity. Qed.
Lemma u_conv_string o args : u_conv 115 (AStr o :: args) = (r ← u_str (default null_str o); Some (r, args)).
Proof. reflexivity. Qed.
(** The format of a line. *)
Lemma printf_listing p : listable p → ∃ bs,
  printf (str "%d %s %s") [AWord (b_pid p); AStr (Some (state_name (b_state p))); AStr (Some (b_name p))] = Some bs ∧
  listing_line p (bs ++ [NL]).
Proof.
  intros (Hpid & Hb & nm & Hnm). destruct (state_name_text (b_state p)) as [Hst _].
  destruct (printf_number [] [] (b_pid p)) as (ds & Hds & Hp); [constructor..|done|].
  assert (u_printint (s32 (b_pid p)) 10 1 = Some (DIGIT <$> ds)) as Hn.
  { unfold printf in Hp. cbn [app printf_loop Z.eqb Pos.eqb] in Hp. rewrite u_conv_number in Hp.
    destruct (u_printint (s32 (b_pid p)) 10 1) as [r|]; [|done]. cbn in Hp. by rewrite !app_nil_r in Hp. }
  exists ((DIGIT <$> ds) ++ 32 :: state_text (b_state p) ++ 32 :: nm). split.
  - change (str "%d %s %s") with [37; 100; 32; 37; 115; 32; 37; 115; 0]. unfold printf. cbn [printf_loop Z.eqb Pos.eqb].
    rewrite u_conv_number, Hn. cbn [mbind option_bind fst snd].
    rewrite u_conv_string. cbn [default from_option id]. rewrite Hst. cbn [mbind option_bind fst snd].
    rewrite u_conv_string. cbn [default from_option id]. rewrite Hnm. cbn. by rewrite app_nil_r.
  - exists ds, nm. split_and!; [done|done|]. by rewrite <- !app_assoc, <- !app_comm_cons, <- !app_assoc, <- !app_comm_cons.
Qed.

Section listing.
Context {U : Type} {dev : Uart U} {uok : UartOk U}.
Implicit Types s : con U.

Lemma wp_procdump_loop E on ps (Q : unit → con U → Prop) s :
  uart s ≠ 0 → cpu_wf on (ccpu s) → ncli (ccpu s) < 2147483646 → Forall listable ps →
  (∀ bs s', listing ps bs → utters on s s' bs → Q tt s') → wp E (procdump_loop ps) Q s.
Proof.
  revert s. induction ps as [|p ps IH]; intros s Hu Hwf Hlt Hps HQ; cbn [procdump_loop].
  { apply wp_ret, (HQ []); [by exists []|]. exists (ccpu s), (uhw s). rewrite app_nil_r. by destruct s. }
  apply Forall_cons in Hps as [Hp Hps]. apply wp_bind. case_bool_decide as Hun.
  { apply wp_ret, IH; try done. intros bs s' (ls & Hls & ->). apply HQ. exists ls. by rewrite filter_cons_False by (by intros []). }
  destruct (printf_listing p Hp) as (b & Hpr & Hline). destruct Hp as (_ & Hb & _). destruct (state_name_text (b_state p)) as [_ Hsb].
  apply wp_bind. eapply (wp_cprintf _ on); [done..|apply (bool_decide_unpack _); vm_compute; exact I|by repeat constructor|vm_compute; intuition congruence|exact Hpr|].
  intros s1 H1. pose proof H1 as (c1 & u1 & -> & Hc1 & Hn1 & _).
  eapply (wp_cprintf _ on _ _ [NL]); [done|done|cbn; lia|apply (bool_decide_unpack _); vm_compute; exact I|constructor|vm_compute; intuition congruence|vm_compute; reflexivity|].
  intros s2 H2. pose proof (utters_trans _ _ _ _ _ _ H1 H2) as H12. clear H1 H2. pose proof H12 as (c2 & u2 & -> & Hc2 & Hn2 & _).
  apply IH; [done|done|cbn; lia|done|]. intros bs s3 (ls & Hls & ->) H3. apply (HQ ((b ++ [NL]) ++ concat ls)); [|by eapply utters_trans].
  exists ((b ++ [NL]) :: ls). split; [|done]. rewrite filter_cons_True by done. by constructor.
Qed.
Lemma wp_procdump E on ps (Q : unit → con U → Prop) s :
  uart s ≠ 0 → cpu_sane on (ccpu s) → Forall listable ps →
  (∀ bs s', listing ps bs → utters on s s' bs → Q tt s') → wp E (procdump ps) Q s.
Proof.
  intros Hu [Hwf Hlt] Hps HQ. unfold procdump. apply wp_bind, wp_zoom. eapply wp_of_ok; [apply (pushcli_run on); [done|lia]|].
  assert (0 ≤ ncli (ccpu s)) as Hn0 by (destruct Hwf as [[? _]|[? _]]; lia).
  apply wp_bind, (wp_procdump_loop _ on); [done|apply pushed_wf; [done|lia]|cbn; lia|done|].
  intros bs s1 Hbs (c1 & u1 & -> & Hc1 & Hn1 & Hr1 & Ht1). cbn [ccpu uhw set_ccpu pushed ncli] in *.
  apply wp_zoom. eapply (wp_popcli_wf on); [done|cbn; lia|]. intros c2 Hc2 Hn2. cbn [ccpu set_ccpu] in *.
  apply (HQ bs); [done|]. exists c2, u1. split_and!; [done|done|lia|done|done].
Qed.
End listing.
