(* ===== verification/Init.v ===== *)
(** * init.c, initcode.S, usys.S and printf.c's putc: the first user program

    User code runs on the state of the system calls: its memory is the
    process's part of the machine's, at [p_offset], and its stack pointer is
    [p_esp]. A call pushes its arguments, the last one first, and the return
    address; the stub of usys.S puts the number of the call into [eax], traps,
    and returns. C locals are the variables of the model; how far below the
    frame of [main] the frames inside [printf] lie, the return addresses and
    the address of the string constant are the compiler's choice and
    parameters. *)

From S2P Require Import Prelude Spinlock CString Ide Bio BioFacts Layout Log Fs File Kalloc Syscall Console ConsoleFacts Printf Kernel.

Definition set_p_esp v (p : proc) : proc := mk_proc (p_sz p) (p_offset p) (p_pid p) (p_eax p) v (p_ofile p).

(** What [main] prints. *)
Definition greeting : list Z := line "Hello from init.c. It's %d ticks since start.".

Section user.
Context {D X : Type} {dev : IdeDevice D}.
Context (devtab : list (@devsw D X)) (name : list Z).
(** The return address of the [i]th call, the depth of the frame that puts
    the [i]th character, and the address of "console". *)
Context (ra depth : nat → Z) (console_at : Z).

Definition set_esp (f : Z → Z) : M (sys D X) unit :=
  modify (λ s, set_sproc (set_p_esp (u32 (f (p_esp (sproc s)))) (sproc s)) s).
Definition push (v : Z) : M (sys D X) unit :=
  set_esp (λ e, e - 4);;
  modify (λ s, set_smem (store4 (smem s) (u32 (p_esp (sproc s) + p_offset (sproc s))) (u32 v)) s).
Fixpoint pushes (vs : list Z) : M (sys D X) unit :=
  match vs with
  | [] => mret tt
  | v :: vs => push v;; pushes vs
  end.

(** usys.S: [movl $num, %eax; int $T_SYSCALL; ret]. *)
Definition SYSCALL (num : Z) : M (sys D X) Z :=
  modify (λ s, set_sproc (set_p_eax num (sproc s)) s);;
  syscall devtab name;;
  set_esp (λ e, e + 4);;
  p ← gets sproc;
  mret (s32 (p_eax p)).
(** A call of a stub. *)
Definition ucall (num : Z) (args : list Z) (ret : Z) : M (sys D X) Z :=
  pushes (reverse args);;
  push ret;;
  r ← SYSCALL num;
  set_esp (λ e, e + 4 * Z.of_nat (length args));;
  mret r.

(** printf.c: [write(fd, &c, 1)], in a frame [d] below. The result is not
    used. *)
Definition putc (fd c : Z) (d ret : Z) : M (sys D X) unit :=
  set_esp (λ e, e - d);;
  push c;;
  p ← gets sproc;
  ucall SYS_write [fd; p_esp p; 1] ret;;
  set_esp (λ e, e + 4 + d).
Fixpoint putcs (fd : Z) (cs : list Z) (i : nat) : M (sys D X) unit :=
  match cs with
  | [] => mret tt
  | c :: cs => putc fd c (depth i) (ra i);; putcs fd cs (S i)
  end.
Definition u_printf (fd : Z) (fmt : list Z) (args : list vararg) : M (sys D X) unit :=
  match printf fmt args with
  | Some bs => putcs fd bs 3
  | None => undef
  end.

(** [main] up to [while(1)]. *)
Definition init_main : M (sys D X) unit :=
  fd ← ucall SYS_open [console_at; O_RDWR] (ra 0);
  t ← ucall SYS_uptime [] (ra 1);
  u_printf fd greeting [AWord t];;
  ucall SYS_close [fd] (ra 2);;
  mret tt.
(** initcode.S: [pushl $0; pushl $0; call main]. *)
Definition start (ret : Z) : M (sys D X) unit :=
  push 0;;
  push 0;;
  push ret;;
  init_main.
End user.
