(* ===== verification/InitFacts.v ===== *)
(** * init.c: open files on a device, and calls from user code

    The file operations on the console, which write to the serial chip and
    leave the disk as it is, and the frames of system calls in user memory. *)

From S2P Require Import Prelude Spinlock CString Ide Bio BioFacts Layout Log LogDisk LogFacts LogSpecs Fs FsFacts FsInodes FsFiles FsTable FsWrite FsDirs FsPaths FsNames FsTree FsNodes File FileFacts FileCreate FileTxn Kalloc Syscall Console ConsoleFacts Printf Kernel Init.

(** ** The console under the file system *)
Section speaks.
Context {D U : Type} {dev : IdeDevice D} {dok : IdeDeviceOk D} {udev : Uart U} {uok : UartOk U}.
Implicit Types t : fss D (con U).

(** From [t] to [t'] the disk and what is read of it stay, and the chip
    transmits [bs]. *)
Record speaks t t' (bs : list Z) : Prop := {
  sp_view b : fview t' b = fview t b;
  sp_platter b : platter (fio t') b = platter (fio t) b;
  sp_wrote : wrote (fio t') = wrote (fio t);
  sp_sb : fsb t' = fsb t;
  sp_con : ∃ c u, frest t' = set_ccpu c (set_uhw u (frest t)) ∧ rx u = rx (uhw (frest t)) ∧ tx u = tx (uhw (frest t)) ++ bs;
}.
Lemma speaks_rest t t' : frest t' = frest t →
  ∃ c u, frest t' = set_ccpu c (set_uhw u (frest t)) ∧ rx u = rx (uhw (frest t)) ∧ tx u = tx (uhw (frest t)) ++ [].
Proof. intros ->. exists (ccpu (frest t)), (uhw (frest t)). rewrite app_nil_r. by destruct (frest t). Qed.
Lemma speaks_step t t' H : fs_step t t' H (fview t) → speaks t t' [].
Proof. intros []. constructor; try done. by apply speaks_rest. Qed.
Lemma speaks_refl t : speaks t t [].
Proof. apply (speaks_step t t []), fs_step_refl. Qed.
Lemma speaks_trans t1 t2 t3 bs1 bs2 : speaks t1 t2 bs1 → speaks t2 t3 bs2 → speaks t1 t3 (bs1 ++ bs2).
Proof.
  intros [? ? ? ? (c1 & u1 & E1 & R1 & T1)] [? ? ? ? (c2 & u2 & E2 & R2 & T2)]. constructor; try congruence.
  rewrite E1 in *. exists c2, u2. cbn [uhw set_ccpu set_uhw] in *. rewrite E2, R2, T2, T1, app_assoc. done.
Qed.
Lemma speaks_uart t t' bs : speaks t t' bs → uart (frest t') = uart (frest t).
Proof. intros [_ _ _ _ (c & u & -> & _)]. done. Qed.

(** The end of a transaction that logged nothing. *)
Lemma committed_speaks t t' H R : fs_inv t H [] R → fs_inv t' H [] R → committed t t' [] → speaks t t' [].
Proof.
  intros Hi Hi' [Hv _ Hm Hw Hsb _ _ _ Hr]. cbn [commit_trace replay on_root] in Hm, Hw.
  assert (∀ b, platter (fio t') b = platter (fio t) b) as Hp by (intros b; by rewrite Hm).
  constructor; try done.
  - intros b. unfold fview. rewrite (view_clean _ _ _ _ (li_bio _ _ _ (fi_log _ _ _ _ Hi'))), (view_clean _ _ _ _ (li_bio _ _ _ (fi_log _ _ _ _ Hi))) by set_solver.
    apply Hp.
  - rewrite Hw. by rewrite app_nil_r.
  - by apply speaks_rest.
Qed.
Lemma wp_end_quiet E R (Q : unit → fls D (con U) → Prop) (s : fls D (con U)) :
  fs_good (ffs s) [] [] R →
  (∀ t', fs_good t' [] [] R → speaks (ffs s) t' [] → icache t' = icache (ffs s) → Q tt (set_ffs t' s)) →
  wp E f_end_op Q s.
Proof.
  intros Hg HQ. apply wp_fs_do. pose proof (fg_inv _ _ _ _ Hg) as Hi. eapply wp_end_op; [exact Hi|cbn; unfold NBUF; lia|].
  intros t' Hi' Hc. apply HQ; [by eapply committed_good|by eapply committed_speaks|apply Hc].
Qed.

(** The console routines leave the file system whole. *)
Lemma good_con t c H L R : fs_good t H L R → cpu_idle (ccpu c) → fs_good (put_con c t) H L R.
Proof.
  intros [[Hinv Hsb HV Hsy] Ht Hm] Hc. pose proof (fs_inv_cpu t (ccpu c) H L R Hinv Hc) as [? ? ?].
  constructor; [|done|done]. constructor; [|done..]. by constructor.
Qed.

Lemma wp_consolewrite_loop E bs (Q : unit → con U → Prop) s :
  uart s ≠ 0 → bytes bs → (∀ s', says s s' bs → Q tt s') → wp E (consolewrite_loop (length bs) bs) Q s.
Proof.
  intros Hu Hbs. revert s Hu Q. induction Hbs as [|b bs Hb Hbs IH]; intros s Hu Q HQ; cbn [length consolewrite_loop].
  - apply wp_ret, HQ, says_refl.
  - assert (Z.land b 0xff = b) as ->. { change 0xff with (Z.ones 8). rewrite Z.land_ones by lia. apply Z.mod_small. lia. }
    apply wp_bind, wp_consputc_byte; [done|done|]. intros s1 H1. apply IH; [by rewrite (says_uart _ _ _ H1)|].
    intros s2 H2. apply HQ. exact (says_trans _ _ _ _ _ H1 H2).
Qed.
Lemma wp_consolewrite E bs (Q : Z → con U → Prop) s :
  cpu_idle (ccpu s) → uart s ≠ 0 → bytes bs →
  (∀ c u, cpu_idle c → rx u = rx (uhw s) → tx u = tx (uhw s) ++ bs → Q (Z.of_nat (length bs)) (set_ccpu c (set_uhw u s))) →
  wp E (consolewrite bs (Z.of_nat (length bs))) Q s.
Proof.
  intros Hc Hu Hb HQ. unfold consolewrite. rewrite Nat2Z.id. apply wp_bind, wp_zoom, wp_pushcli_idle; [done|]. intros c1 Hc1.
  apply wp_bind, wp_consolewrite_loop; [done|done|]. intros s1 (u & -> & Hr & Ht).
  apply wp_bind, wp_zoom, wp_popcli_held; [done|]. intros c2 Hc2. apply wp_ret. by apply HQ.
Qed.

(** [writei] of the console's inode. *)
Lemma wp_writei_con E ps fuel i p bs off n H L R (Q : Z → fss D (con U) → Prop) t :
  fs_good t H L R → uart (frest t) ≠ 0 → icache t !! i = Some p → i_type p = T_DEV → i_major p = Z.of_nat CONSOLE →
  bytes bs → n = Z.of_nat (length bs) → n < 2147483648 →
  (∀ t', fs_good t' H L R → speaks t t' bs → icache t' = icache t → Q n t') →
  wp E (writei (devtab ps fuel) i bs off n) Q t.
Proof.
  intros Hg Hu Hp Ht Hm Hb Hn Hlt HQ. unfold writei. apply wp_bind. eapply wp_getopt; [exact Hp|]. rewrite Ht, Hm. cbn -[devtab].
  apply wp_bind. eapply wp_getopt; [reflexivity|]. cbn [dev_write console_dev]. rewrite s32_small by lia. subst n.
  apply wp_zoom. apply wp_consolewrite; [|done|done|].
  { apply (bi_cpu _ _ _ (li_bio _ _ _ (fi_log _ _ _ _ (fg_inv _ _ _ _ Hg)))). }
  intros c u Hc Hr Htx. apply HQ; [by apply good_con| |done].
  constructor; try done. exists c, u. done.
Qed.
End speaks.

(** ** Open files on the console *)
Section files.
Context {D U : Type} {dev : IdeDevice D} {dok : IdeDeviceOk D} {udev : Uart U} {uok : UartOk U}.
Context (ps : list pcb) (fuel : nat).
Abbreviation devtab := (devtab ps fuel).
Implicit Types s : fls D (con U).
Implicit Types t : fss D (con U).

(** Entry [f] of the table is a file [x] open for writing on slot [i], which
    has the console's inode [n]. *)
Record on_console s (f : nat) (x : file) (i : nat) (p : inode) (n : Z) (R : list nat) : Prop := {
  oc_good : fs_good (ffs s) [] [] (i :: R);
  oc_slot : ftable s !! f = Some x;
  oc_type : f_type x = FD_INODE;
  oc_writable : f_writable x ≠ 0;
  oc_ip : f_ip x = Some i;
  oc_ref : f_ref x = 1;
  oc_held : held (ffs s) (i :: R) i p n;
  oc_linked : linked (fview (ffs s)) (fsb (ffs s)) n;
  oc_dev : i_type p = T_DEV ∧ i_major p = Z.of_nat CONSOLE;
}.
(** Other output on the file, and closing of others, keep it. *)
Lemma on_console_step s f x i p n R t' y bs :
  on_console s f x i p n R → fs_good t' [] [] (i :: R) → speaks (ffs s) t' bs → icache t' = icache (ffs s) →
  on_console (mk_fls t' (<[f:=set_f_off y x]> (ftable s))) f (set_f_off y x) i p n R.
Proof.
  intros [Hg Hx Hty Hw Hip Hr Hh Hl Hd] Hg' Hsp Hic. constructor; cbn [ffs ftable]; try done.
  - apply list_lookup_insert_eq. by eapply lookup_lt_Some.
  - destruct Hh. constructor; try done. by rewrite Hic.
  - rewrite (sp_sb _ _ _ Hsp). eapply linked_ext; [|exact Hl]. apply (sp_view _ _ _ Hsp).
Qed.

Lemma wp_filewrite_con E f x i p n R bs (Q : Z → fls D (con U) → Prop) s :
  on_console s f x i p n R → uart (frest (ffs s)) ≠ 0 → bytes bs → (0 < length bs ≤ 1536)%nat →
  (∀ t' y, fs_good t' [] [] (i :: R) → speaks (ffs s) t' bs → icache t' = icache (ffs s) →
     Q (Z.of_nat (length bs)) (mk_fls t' (<[f:=set_f_off y x]> (ftable s)))) →
  wp E (filewrite devtab f bs (Z.of_nat (length bs))) Q s.
Proof.
  intros Hoc Hu Hb Hlen HQ. pose proof Hoc as [Hg Hx Hty Hw Hip Hr Hh Hl [Hdt Hdm]]. unfold filewrite.
  apply wp_bind. eapply wp_getopt; [exact Hx|]. rewrite (proj2 (Z.eqb_neq _ _) Hw), bool_decide_eq_true_2 by done.
  apply wp_bind. rewrite Nat2Z.id. destruct (length bs) as [|k] eqn:Hk; [lia|]. set (m := Z.of_nat (S k)) in *.
  cbn [filewrite_loop]. rewrite (proj2 (Z.ltb_lt 0 m)) by lia. change ((MAXOPBLOCKS - 1 - 1 - 2) / 2 * 512) with 1536.
  rewrite Z.sub_0_r, Z.gtb_ltb, (proj2 (Z.ltb_ge 1536 m)) by lia. rewrite u32_small by lia.
  apply wp_bind, wp_begin_op, wp_bind. eapply wp_getopt; [exact Hx|]. rewrite Hip.
  destruct (held_sync _ _ _ _ _ _ _ Hg Hh) as (_ & Hdev & Hin & _). pose proof (hd_valid _ _ _ _ _ Hh) as Hv.
  apply wp_bind, wp_fs_do. eapply (wp_iread E i p [] [] (i :: R)); [by apply fg_inv|apply Hh|by left|done|done|cbn; unfold NBUF; lia| |done|done].
  intros _. apply wp_bind, wp_ret. apply wp_bind, wp_fs_do_set.
  eapply (wp_writei_con E ps fuel i p bs _ m [] [] (i :: R)); [done|done|apply Hh|done|done|done|by rewrite Hk|lia|].
  intros t1 Hg1 Hs1 Hic1. rewrite (proj2 (Z.gtb_lt m 0)) by lia.
  apply wp_bind. eapply wp_mod_file; [exact Hx|]. apply wp_bind, (wp_end_quiet E (i :: R)); [exact Hg1|].
  intros t2 Hg2 Hs2 Hic2. rewrite (proj2 (Z.ltb_ge m 0)), Z.eqb_refl, Z.add_0_l, Z.ltb_irrefl by lia. cbn [negb].
  apply wp_ret. rewrite Z.eqb_refl. apply wp_ret. apply HQ; [done| |cbn in Hic2; congruence].
  rewrite <- (app_nil_r bs). exact (speaks_trans _ _ _ _ _ Hs1 Hs2).
Qed.

(** Closing the only descriptor gives the inode back. *)
Lemma wp_fileclose_con E f x i p n R (Q : unit → fls D (con U) → Prop) s :
  on_console s f x i p n R → (length R < NINODE)%nat →
  (∀ t', fs_good t' [] [] R → speaks (ffs s) t' [] →
     Q tt (mk_fls t' (<[f:=set_f_type FD_NONE (set_f_ref 0 x)]> (ftable s)))) →
  wp E (fileclose f) Q s.
Proof.
  intros Hoc HR HQ. pose proof Hoc as [Hg Hx Hty Hw Hip Hr Hh Hl _]. assert (f < length (ftable s))%nat as Hf by (by eapply lookup_lt_Some).
  unfold fileclose, f_pushcli, f_popcli. apply wp_bind, wp_fs_do. eapply wp_dio_pushcli; [by apply fg_inv|]. intros c1 Hc1.
  set (t1 := set_flog _ (ffs s)). apply wp_bind. eapply wp_getopt; [exact Hx|]. rewrite Hr. cbn [Z.ltb Z.compare].
  apply wp_bind. eapply wp_mod_file; [exact Hx|]. apply wp_bind. eapply wp_getopt; [by apply list_lookup_insert_eq|].
  rewrite Hr. change (s32 (1 - 1)) with 0. change (f_ref (set_f_ref 0 x) >? 0) with false. cbv zeta.
  apply wp_bind. eapply wp_mod_file; [by apply list_lookup_insert_eq|].
  apply wp_bind. eapply wp_mod_file; [cbn [ftable set_ftable]; apply list_lookup_insert_eq; by rewrite length_insert|]. cbn [ftable set_ftable]. rewrite !list_insert_insert_eq.
  apply wp_bind, wp_fs_do. apply wp_dio_popcli; [done|]. intros c2 Hc2. cbn [ffs set_ftable set_ffs].
  set (t2 := set_flog _ t1). assert (fs_good t2 [] [] (i :: R)) as Hg2.
  { destruct Hg as [[Hinv Hsb HV Hsy] Ht Hm]. pose proof (fs_inv_cpu (ffs s) c2 _ _ _ Hinv Hc2) as [? ? ?].
    constructor; [|done|done]. constructor; [|done..]. by constructor. }
  assert (speaks (ffs s) t2 []) as Hs2 by (constructor; try done; by apply speaks_rest).
  cbn [f_type set_f_ref f_ip]. rewrite bool_decide_eq_true_2 by done. apply wp_bind, wp_begin_op. rewrite Hip. apply wp_bind, wp_ret.
  apply wp_bind, wp_fs_do. cbn [ffs set_ftable set_ffs].
  eapply (wp_iput_linked _ _ E i p [] [] R); [apply Hg2|apply Hh|done|eapply (linked_kept _ _ t2 [] [] R i p n); [apply Hg2|apply Hh|apply Hh|]|].
  { exact Hl. }
  intros t3 Hrd3 Hs3 _. apply (wp_end_quiet E R); [by eapply good_reading|]. intros t4 Hg4 Hs4 _.
  apply HQ; [done|]. exact (speaks_trans _ _ _ [] [] Hs2 (speaks_trans _ _ _ [] [] (speaks_step _ _ _ Hs3) Hs4)).
Qed.

(** The first entry of the table without references. *)
Record free_file (l : list file) (f : nat) (x : file) : Prop := {
  ff_slot : l !! f = Some x;
  ff_ref : f_ref x = 0;
  ff_table : (f < NFILE)%nat;
  ff_first j y : (j < f)%nat → l !! j = Some y → f_ref y ≠ 0;
}.
Lemma wp_filealloc_scan E f x k j (Q : option nat → fls D (con U) → Prop) s :
  free_file (ftable s) f x → (j + k = NFILE)%nat → (j ≤ f)%nat →
  Q (Some f) (set_ftable (<[f:=set_f_ref 1 x]> (ftable s)) s) → wp E (filealloc_scan k j) Q s.
Proof.
  intros [Hx Hr Hf Hlow]. revert j. induction k as [|k IH]; intros j Hjk Hj HQ; [lia|]. cbn [filealloc_scan].
  destruct (decide (j = f)) as [->|Hne].
  - apply wp_bind. eapply wp_getopt; [exact Hx|]. rewrite Hr, Z.eqb_refl. apply wp_bind. eapply wp_mod_file; [exact Hx|]. by apply wp_ret.
  - destruct (lookup_lt_is_Some_2 (ftable s) j) as [y Hy]; [apply lookup_lt_Some in Hx; lia|].
    apply wp_bind. eapply wp_getopt; [exact Hy|]. rewrite (proj2 (Z.eqb_neq _ _)) by (eapply Hlow; [|exact Hy]; lia).
    apply IH; [lia|lia|done].
Qed.
Lemma good_cpu t c H L R : fs_good t H L R → cpu_idle c → fs_good (set_fs_cpu c t) H L R.
Proof.
  intros [[Hinv Hsb HV Hsy] Ht Hm] Hc. pose proof (fs_inv_cpu t c H L R Hinv Hc) as [? ? ?].
  constructor; [|done|done]. constructor; [|done..]. by constructor.
Qed.
Lemma wp_filealloc E f x H L R (Q : option nat → fls D (con U) → Prop) s :
  free_file (ftable s) f x → fs_good (ffs s) H L R →
  (∀ c, cpu_idle c → Q (Some f) (mk_fls (set_fs_cpu c (ffs s)) (<[f:=set_f_ref 1 x]> (ftable s)))) →
  wp E filealloc Q s.
Proof.
  intros Hf Hg HQ. unfold filealloc, f_pushcli, f_popcli. apply wp_bind, wp_fs_do. eapply wp_dio_pushcli; [by apply fg_inv|]. intros c1 Hc1.
  apply wp_bind. eapply wp_filealloc_scan; [exact Hf|done|lia|].
  apply wp_bind, wp_fs_do. apply wp_dio_popcli; [done|]. intros c2 Hc2. apply wp_ret. by apply HQ.
Qed.

(** [namei] and [iread] of a path that leads to a device. *)
Lemma wp_open_inode E l n name R (Q : option nat → sys D (con U) → Prop) (s : sys D (con U)) :
  let t := ffs (sfl s) in
  fs_good t [] [] R → linked (fview t) (fsb t) ROOTINO → (S (length R) < NINODE)%nat →
  0 ∉ l → bytes (l ++ [0]) → bytes name → length name = DIRSIZ →
  resolve (fview t) (fsb t) false (components l) ROOTINO = Some n → di_type (inode_at (fview t) (fsb t) n) = T_DEV →
  (∀ i p t', fs_good t' [] [] (i :: R) → speaks t t' [] → held t' (i :: R) i p n →
     i_disk p = inode_at (fview t) (fsb t) n → linked (fview t) (fsb t) n →
     Q (Some i) (set_sfl (set_ffs t' (sfl s)) s)) →
  wp E (sys_open_inode devtab (l ++ [0]) O_RDWR name) Q s.
Proof.
  intros t Hg Hroot HR H0 Hbl Hbn Hln Hres Hty HQ. unfold sys_open_inode. change (negb (Z.land O_RDWR O_CREATE =? 0)) with false. cbv iota.
  apply wp_bind, wp_zoom, wp_fs_do. unfold namei. apply wp_bind.
  eapply (wp_namex devtab (fview t) (fsb t) E l [] false name [] [] R); try done;
    [apply (tr_dirs _ _ (fg_tree _ _ _ _ Hg))|apply (fg_reading _ _ _ _ Hg)|cbn; unfold NBUF; lia| |congruence].
  intros m Hm i name' t1 Hrd1 Hs1 Hsl1 Hlk _. assert (m = n) as -> by congruence. apply wp_ret.
  assert (fs_good t1 [] [] (i :: R)) as Hg1 by (by eapply good_reading).
  apply wp_bind, wp_zoom, wp_fs_do.
  eapply (wp_iread_linked (fview t) (fsb t) E i n [] [] R); [exact Hrd1|exact Hsl1|exact Hlk|cbn; unfold NBUF; lia|].
  intros t2 p Hrd2 Hs2 Hp Hdev Hn Hv Hd. apply wp_bind, wp_zoom, wp_fs_do. eapply wp_getopt; [exact Hp|].
  assert (i_type p = T_DEV) as -> by (by rewrite <- Hty, <- Hd). cbn [andb]. change (T_DEV =? T_DIR) with false. cbn [andb].
  apply wp_ret. refine (HQ i p t2 _ _ _ Hd Hlk).
  - eapply good_reading; [exact Hg|exact Hrd2].
  - exact (speaks_trans _ _ _ [] [] (speaks_step _ _ _ Hs1) (speaks_step _ _ _ Hs2)).
  - constructor; [exact Hp|by left|exact Hv|exact Hn].
Qed.
End files.

(** ** Calls from user code *)
Section frames.
Context {D X : Type} {dev : IdeDevice D}.
Context (devtab : list (@devsw D X)) (name : list Z).
Implicit Types s : sys D X.

(** The memories differ between [a] and [b] only. *)
Definition within (a b : Z) (m m' : mem) : Prop := ∀ x, ¬ (a ≤ x < b) → m' x = m x.
Lemma within_refl a b m : within a b m m.
Proof. done. Qed.
Lemma within_trans a b m1 m2 m3 : within a b m1 m2 → within a b m2 m3 → within a b m1 m3.
Proof. intros H1 H2 x Hx. by rewrite H2, H1. Qed.
Lemma within_sub a b a' b' m m' : within a b m m' → a' ≤ a → b ≤ b' → within a' b' m m'.
Proof. intros H ? ? x Hx. apply H. lia. Qed.
Lemma within_store4 a v m : within a (a + 4) m (store4 m a v).
Proof. intros x Hx. by apply store4_other. Qed.
Lemma within_bytes a b m m' q k : within a b m m' → q + Z.of_nat k ≤ a ∨ b ≤ q → load_bytes m' q k = load_bytes m q k.
Proof.
  intros Hw Hd. unfold load_bytes. apply list_fmap_ext. intros i j Hj. apply lookup_seq in Hj as [-> Hlt]. apply Hw. lia.
Qed.

Lemma wp_push E v (Q : unit → sys D X → Prop) s :
  let p := sproc s in proc_ok p → 4 ≤ p_esp p ≤ p_sz p →
  Q tt (mk_sys (sfl s) (store4 (smem s) (p_offset p + (p_esp p - 4)) (u32 v)) (set_p_esp (p_esp p - 4) p) (ticks s)) →
  wp E (push v) Q s.
Proof.
  intros p (H0 & Hsz & Hw) He HQ. unfold push, set_esp. apply wp_bind, wp_modify, wp_modify.
  cbn [smem sproc set_sproc set_p_esp p_esp p_offset]. fold p. rewrite (u32_small (p_esp p - 4)), (u32_small (_ + _)) by lia.
  by rewrite (Z.add_comm (p_esp p - 4)).
Qed.
Lemma wp_pushes E vs (Q : unit → sys D X → Prop) s :
  let p := sproc s in let k := 4 * Z.of_nat (length vs) in proc_ok p → k ≤ p_esp p ≤ p_sz p →
  (∀ m', within (p_offset p + (p_esp p - k)) (p_offset p + p_esp p) (smem s) m' →
     (∀ i v, vs !! i = Some v → load4 m' (p_offset p + (p_esp p - 4 * Z.of_nat (S i))) = u32 v) →
     Q tt (mk_sys (sfl s) m' (set_p_esp (p_esp p - k) p) (ticks s))) →
  wp E (pushes vs) Q s.
Proof.
  revert s. induction vs as [|v vs IH]; intros s p k Hok He HQ; cbn [pushes].
  - apply wp_ret. specialize (HQ (smem s) (within_refl _ _ _) ltac:(done)). revert HQ. unfold k. cbn. rewrite Z.sub_0_r.
    unfold p. by destruct s as [? ? [] ?].
  - unfold k in *. cbn [length] in *. apply wp_bind, wp_push; [done|fold p; lia|]. fold p. set (m1 := store4 _ _ _). apply IH; cbn [sproc set_p_esp p_esp p_sz p_offset]; [done|lia|].
    intros m' Hm' Hl. cbn [smem sfl ticks] in *. rewrite <- Z.sub_add_distr in *.
    replace (4 + 4 * Z.of_nat (length vs)) with (4 * Z.of_nat (S (length vs))) in * by lia. apply HQ.
    + refine (within_trans _ _ _ _ _ (within_sub _ _ _ _ _ _ (within_store4 _ _ _) _ _) (within_sub _ _ _ _ _ _ Hm' _ _)); lia.
    + intros [|i] w Hi; cbn in Hi.
      * simplify_eq. replace (4 * Z.of_nat 1) with 4 by lia. rewrite (load4_frame m1 m') by (intros x Hx; apply Hm'; lia).
        apply load4_store4, u32_range.
      * rewrite <- (Hl i w Hi). f_equal. lia.
Qed.

Lemma argint_at m p i v : proc_ok p → 0 ≤ p_esp p → p_esp p + 8 + 4 * i ≤ p_sz p → 0 ≤ i →
  load4 m (p_offset p + (p_esp p + 4 + 4 * i)) = u32 v → argint m p i = Some (s32 v).
Proof.
  intros (H0 & Hsz & Hw) He Hi Hp Hl. unfold argint. rewrite u32_small by lia. unfold fetchint.
  rewrite Z.geb_leb, Z.gtb_ltb, (u32_small (_ + 4)), (proj2 (Z.leb_gt _ _)), (proj2 (Z.ltb_ge _ _)) by lia. cbn [orb].
  rewrite u32_small, (Z.add_comm _ (p_offset p)), Hl by lia. by rewrite s32_u32.
Qed.

Lemma load_bytes_at m q k i : (i < k)%nat → load_bytes m q k !! i = Some (m (q + Z.of_nat i)).
Proof. intros Hi. unfold load_bytes. rewrite list_lookup_fmap, lookup_seq_lt by lia. done. Qed.
(** A string in user memory. *)
Lemma fetchstr_at m p a l : proc_ok p → 0 ≤ a → a + Z.of_nat (length l) < p_sz p →
  load_bytes m (p_offset p + a) (S (length l)) = l ++ [0] → 0 ∉ l → fetchstr m p a = Some (Z.of_nat (length l), p_offset p + a).
Proof.
  intros Hok Ha Hsz Hl H0. set (q := p_offset p + a) in *.
  assert (∀ i v, (l ++ [0]) !! i = Some v → m (q + Z.of_nat i) = v) as Hm.
  { intros i v Hi. pose proof (lookup_lt_Some _ _ _ Hi) as Hlt. rewrite length_app in Hlt. cbn in Hlt. rewrite <- Hl, load_bytes_at in Hi by lia. by simplify_eq. }
  assert (m (q + Z.of_nat (length l)) = 0) as Hz. { apply Hm. rewrite lookup_app_r, Nat.sub_diag by lia. done. }
  destruct (fetchstr_complete m p a (a + Z.of_nat (length l)) Hok) as [[k q'] Hf]; [lia|lia|by rewrite Z.add_assoc|].
  rewrite Hf. destruct (fetchstr_safe m p a k q' Hok Ha Hf) as (-> & Hk & _ & Hz' & Hnz). change (p_offset p + a) with q in Hz', Hnz. f_equal. f_equal.
  destruct (Z.lt_trichotomy k (Z.of_nat (length l))) as [Hlt|[->|Hgt]]; [|done|].
  - destruct (lookup_lt_is_Some_2 l (Z.to_nat k)) as [v Hv]; [lia|]. exfalso. apply H0.
    rewrite <- Hz'. replace k with (Z.of_nat (Z.to_nat k)) at 1 by lia. rewrite (Hm (Z.to_nat k) v) by (by apply lookup_app_l_Some).
    by eapply list_elem_of_lookup_2.
  - exfalso. apply (Hnz (q + Z.of_nat (length l))); [lia|done].
Qed.

(** The state in which the kernel serves a call. *)
Lemma wp_ucall E num args ret (Q : Z → sys D X → Prop) s :
  let p := sproc s in let k := 4 * Z.of_nat (S (length args)) in
  let p1 := set_p_eax num (set_p_esp (p_esp p - k) p) in
  proc_ok p → k ≤ p_esp p ≤ p_sz p →
  (∀ m', within (p_offset p + (p_esp p - k)) (p_offset p + p_esp p) (smem s) m' →
     (∀ i v, args !! i = Some v → argint m' p1 (Z.of_nat i) = Some (s32 v)) →
     wp E (syscall devtab name)
       (λ _ s', p_esp (sproc s') = p_esp p - k ∧
          Q (s32 (p_eax (sproc s'))) (set_sproc (set_p_esp (p_esp p) (sproc s')) s'))
       (mk_sys (sfl s) m' p1 (ticks s))) →
  wp E (ucall devtab name num args ret) Q s.
Proof.
  intros p k p1 Hok He HQ. unfold k in *. unfold ucall. apply wp_bind, wp_pushes; fold p; [done|rewrite length_reverse; lia|].
  rewrite length_reverse. intros m1 Hm1 Hl1. apply wp_bind, wp_push; cbn [sproc p_esp set_p_esp p_sz p_offset]; [done|lia|]. cbn [smem sfl ticks].
  set (m2 := store4 _ _ _). replace (p_esp p - 4 * Z.of_nat (length args) - 4) with (p_esp p - 4 * Z.of_nat (S (length args))) in * by lia.
  apply wp_bind. unfold SYSCALL. apply wp_bind, wp_modify, wp_bind. cbn [set_sproc sfl smem sproc ticks].
  eapply wp_mono; [apply (HQ m2)|].
  - refine (within_trans _ _ _ _ _ (within_sub _ _ _ _ _ _ Hm1 _ _) (within_sub _ _ _ _ _ _ (within_store4 _ _ _) _ _)); lia.
  - intros i v Hi. assert (i < length args)%nat as Hlt by (by eapply lookup_lt_Some).
    apply argint_at; cbn [p1 set_p_eax set_p_esp p_esp p_offset p_sz]; [done|lia|lia|lia|].
    rewrite <- (Hl1 (length args - S i)%nat v).
    + rewrite (load4_frame m1 m2); [f_equal; lia|]. intros x Hx. apply (within_store4 _ _ m1). lia.
    + rewrite reverse_lookup by lia. rewrite <- Hi. f_equal. lia.
  - intros [] s' [Hesp Hs']. unfold set_esp. apply wp_bind, wp_modify, wp_bind, wp_gets, wp_ret, wp_bind, wp_modify, wp_ret.
    destruct Hok as (? & ? & ?). cbn [sproc set_sproc p_esp set_p_esp p_eax] in *. rewrite Hesp. rewrite (u32_small (_ + 4)) by lia.
    replace (u32 (p_esp p - 4 * Z.of_nat (S (length args)) + 4 + 4 * Z.of_nat (length args))) with (p_esp p); [done|].
    rewrite u32_small by lia. lia.
Qed.
End frames.

(** ** The calls of init.c *)
Section calls.
Context {D U : Type} {dev : IdeDevice D} {dok : IdeDeviceOk D} {udev : Uart U} {uok : UartOk U}.
Context (ps : list pcb) (fuel : nat) (name : list Z).
Abbreviation devtab := (devtab ps fuel).
Implicit Types s : sys D (con U).

(** The open call, on a path that leads to the console. *)
Lemma wp_sys_open_con E l len q n R f x fd p' (Q : Z → sys D (con U) → Prop) s :
  let t := ffs (sfl s) in
  argstr (smem s) (sproc s) 0 = Some (len, q) → load_bytes (smem s) q (S (Z.to_nat len)) = l ++ [0] →
  argint (smem s) (sproc s) 1 = Some O_RDWR →
  fs_good t [] [] R → linked (fview t) (fsb t) ROOTINO → (S (length R) < NINODE)%nat →
  0 ∉ l → bytes (l ++ [0]) → bytes name → length name = DIRSIZ →
  resolve (fview t) (fsb t) false (components l) ROOTINO = Some n →
  di_type (inode_at (fview t) (fsb t) n) = T_DEV → di_major (inode_at (fview t) (fsb t) n) = Z.of_nat CONSOLE →
  free_file (ftable (sfl s)) f x → fdalloc (sproc s) f = Some (fd, p') →
  (∀ t' x' i p, on_console (mk_fls t' (<[f:=x']> (ftable (sfl s)))) f x' i p n R → speaks t t' [] →
     Q fd (mk_sys (mk_fls t' (<[f:=x']> (ftable (sfl s)))) (smem s) p' (ticks s))) →
  wp E (sys_open devtab name) Q s.
Proof.
  intros t Ha Hl Ho Hg Hroot HR H0 Hbl Hbn Hln Hres Hty Hmaj Hff Hfd HQ. unfold sys_open, arg.
  apply wp_bind, wp_gets. rewrite Ha. apply wp_bind, wp_gets. rewrite Ho. apply wp_bind, wp_gets. rewrite Hl.
  apply wp_bind, wp_zoom, wp_begin_op. apply wp_bind.
  assert (set_sfl (sfl s) s = s) as -> by (by destruct s).
  eapply (wp_open_inode ps fuel E l n name R); try done. intros i p t1 Hg1 Hs1 Hh1 Hd1 Hlk.
  apply wp_bind, wp_zoom. eapply wp_filealloc; [exact Hff|exact Hg1|]. intros c Hc.
  apply wp_bind, wp_gets. cbn [sproc set_sfl sfl]. rewrite Hfd. apply wp_bind, wp_modify. apply wp_bind, wp_zoom.
  pose proof (good_cpu _ c _ _ _ Hg1 Hc) as Hg2. apply (wp_end_quiet E (i :: R)); [exact Hg2|]. intros t3 Hg3 Hs3 Hic3.
  apply wp_bind, wp_zoom. assert (f < length (ftable (sfl s)))%nat as Hf by (eapply lookup_lt_Some, Hff).
  eapply wp_mod_file; [by apply list_lookup_insert_eq|]. apply wp_ret.
  cbn [ftable set_ftable set_ffs sfl set_sfl set_sproc ffs]. rewrite list_insert_insert_eq.
  assert (speaks t t3 []) as Hs03.
  { refine (speaks_trans _ _ _ [] [] Hs1 (speaks_trans _ (set_fs_cpu c t1) _ [] [] _ Hs3)). constructor; try done. by apply speaks_rest. }
  apply (HQ t3 (opened i O_RDWR (set_f_ref 1 x)) i p); [|done].
  constructor; cbn [ffs ftable]; try done.
  - by apply list_lookup_insert_eq.
  - destruct Hh1. constructor; try done. cbn in Hic3. by rewrite Hic3.
  - rewrite (sp_sb _ _ _ Hs03). eapply linked_ext; [|exact Hlk]. apply Hs03.
  - split; [change (di_type (i_disk p) = T_DEV)|change (di_major (i_disk p) = Z.of_nat CONSOLE)]; by rewrite Hd1.
Qed.

(** One byte to the console. *)
Lemma wp_sys_write_con E fd f x i p n R q c (Q : Z → sys D (con U) → Prop) s :
  argfd (smem s) (sproc s) 0 = Some (fd, f) → argint (smem s) (sproc s) 2 = Some 1 → argptr (smem s) (sproc s) 1 1 = Some q →
  smem s q = c → 0 ≤ c < 256 → on_console (sfl s) f x i p n R → uart (frest (ffs (sfl s))) ≠ 0 →
  (∀ t' x', on_console (mk_fls t' (<[f:=x']> (ftable (sfl s)))) f x' i p n R → speaks (ffs (sfl s)) t' [c] →
     Q 1 (set_sfl (mk_fls t' (<[f:=x']> (ftable (sfl s)))) s)) →
  wp E (sys_write devtab) Q s.
Proof.
  intros Hf Hn Hq Hm Hc Hoc Hu HQ. unfold sys_write, arg. apply wp_bind, wp_gets. rewrite Hf. apply wp_bind, wp_gets. rewrite Hn.
  apply wp_bind, wp_gets. rewrite Hn. cbn [mbind option_bind]. rewrite Hq. apply wp_bind, wp_gets.
  assert (load_bytes (smem s) q (Z.to_nat 1) = [c]) as ->.
  { change ([smem s (q + 0)] = [c]). by rewrite Z.add_0_r, Hm. }
  apply wp_zoom. eapply (wp_filewrite_con ps fuel E f x i p n R [c]); [exact Hoc|done|by apply Forall_singleton|cbn; lia|].
  intros t' y Hg' Hs' Hic. apply HQ; [|done]. by eapply on_console_step.
Qed.

Lemma wp_sys_close_con E fd f x i p n R (Q : Z → sys D (con U) → Prop) s :
  argfd (smem s) (sproc s) 0 = Some (fd, f) → on_console (sfl s) f x i p n R → (length R < NINODE)%nat →
  (∀ t', fs_good t' [] [] R → speaks (ffs (sfl s)) t' [] →
     Q 0 (mk_sys (mk_fls t' (<[f:=set_f_type FD_NONE (set_f_ref 0 x)]> (ftable (sfl s)))) (smem s)
            (set_p_ofile (<[Z.to_nat fd:=None]> (p_ofile (sproc s))) (sproc s)) (ticks s))) →
  wp E sys_close Q s.
Proof.
  intros Hf Hoc HR HQ. unfold sys_close, arg. apply wp_bind, wp_gets. rewrite Hf. apply wp_bind, wp_modify. apply wp_bind, wp_zoom.
  eapply wp_fileclose_con; [exact Hoc|done|]. intros t' Hg' Hs'. apply wp_ret. by apply HQ.
Qed.
End calls.
