(* ===== verification/Proc.v ===== *)
(** * proc.c, swtch.S and trapasm.S: processes and the scheduler

    Kernel threads are coroutines: [swtch] leaves one and enters another. The
    code between two switches is one definition, and [b_kctx] of a process
    says where its thread is to continue. [swtch] and [trapret] are also
    modelled at the level of the machine, on registers and memory. *)

From S2P Require Import Prelude Spinlock CString Ide Bio Layout Log Fs File Kalloc Syscall Console Vm Mp Apic Kernel.

Definition TF_SIZE : Z := 76.  (* sizeof(struct trapframe) *)
Definition CTX_SIZE : Z := 20. (* sizeof(struct context) *)

Section proc.
Context {D U L : Type} {dev : IdeDevice D} {udev : Uart U} {ldev : LapicDevice L}.
Abbreviation kern := (kern D U L).
Implicit Types k : kern.

(** The code addresses of [trapret] and [forkret], and the image of
    initcode.S that the linker puts into the kernel. *)
Context (trapret forkret_at initcode_start initcode_size : Z).

Definition store4_at (a v : Z) : M kern unit := modify (λ k, set_k_mem (store4 (k_mem k) a v) k).
(** A [ushort] field. *)
Definition store2 (m : mem) (a v : Z) : mem := store (store m a (u8 v)) (a + 1) (u8 (Z.shiftr v 8)).
Definition store2_at (a v : Z) : M kern unit := modify (λ k, set_k_mem (store2 (k_mem k) a v) k).

Fixpoint find_unused (ps : list pcb) : option nat :=
  match ps with
  | [] => None
  | p :: ps => if bool_decide (b_state p = UNUSED) then Some O else S <$> find_unused ps
  end.
(** The fields set after the memory was allocated: from the top of the page
    down, the trap frame, the return address of [forkret], the context. *)
Definition place (offset : Z) (p : pcb) : pcb :=
  let sp := offset + PGSIZE in
  mk_pcb (b_state p) (PGSIZE - KSTACKSIZE) (b_offset p) (sp - KSTACKSIZE) (b_pid p) (sp - TF_SIZE)
    (sp - TF_SIZE - 4 - CTX_SIZE) KFresh (b_ofile p) (b_cwd p) (b_name p).
Definition allocproc : M kern (option nat) :=
  k_do_cpu pushcli;;
  ps ← gets ptable;
  match find_unused ps with
  | None => k_do_cpu popcli;; mret None
  | Some i =>
      mod_proc i (set_state EMBRYO);;
      n ← gets nextpid;
      mod_proc i (set_pid n);;
      modify (set_nextpid (s32 (n + 1)));;
      k_do_cpu popcli;;
      offset ← k_do_kmem kalloc;
      mod_proc i (set_offset offset);;
      if offset =? 0 then mod_proc i (set_state UNUSED);; mret None else
      mod_proc i (place offset);;
      p ← get_proc i;
      store4_at (b_tf p - 4) trapret;;
      modify (λ k, set_k_mem (memset (k_mem k) (b_context p) 0 CTX_SIZE) k);;
      store4_at (b_context p + 16) forkret_at;;
      mret (Some i)
  end.

(** [safestrcpy(p->name, s, sizeof(p->name))]. *)
Definition name16 (s : list Z) (old : list Z) : list Z :=
  let x := default [] (safestrcpy s 16) in x ++ drop (length x) old.

(** [name] is the uninitialised buffer of [namei]. A failed [allocproc] makes
    the code use a null pointer. *)
Definition pinit (fuel : nat) (name : list Z) : M kern unit :=
  r ← allocproc;
  modify (set_initproc r);;
  match r with
  | None => undef
  | Some i =>
      p ← get_proc i;
      modify (λ k, set_k_mem (memmove (k_mem k) (b_offset p) initcode_start (s32 initcode_size)) k);;
      modify (λ k, set_k_mem (memset (k_mem k) (b_tf p) 0 TF_SIZE) k);;
      store2_at (b_tf p + 60) (Z.lor (Z.shiftl SEG_UCODE 3) DPL_USER);;
      store2_at (b_tf p + 44) (Z.lor (Z.shiftl SEG_UDATA 3) DPL_USER);;
      store2_at (b_tf p + 40) (Z.lor (Z.shiftl SEG_UDATA 3) DPL_USER);;
      store2_at (b_tf p + 72) (Z.lor (Z.shiftl SEG_UDATA 3) DPL_USER);;
      store4_at (b_tf p + 64) FL_IF;;
      store4_at (b_tf p + 68) (PGSIZE - KSTACKSIZE);;
      store4_at (b_tf p + 56) 0;;
      mod_proc i (λ p, set_name (name16 (str "initcode") (b_name p)) p);;
      ps ← gets ptable;
      cwd ← k_do_fs (namei (devtab ps fuel) [47; 0] name);
      mod_proc i (set_cwd cwd);;
      mod_proc i (set_state RUNNABLE)
  end.

(** vm.c's [switchuvm], with its critical section. *)
Definition k_switchuvm (p : pcb) : M kern unit :=
  if b_kstack p =? 0 then panic "switchuvm: no kstack" else
  k_do_cpu pushcli;;
  g ← gets k_gdt;
  match switchuvm (b_offset p) (b_kstack p) g with
  | Ok g => modify (set_k_gdt g)
  | Panic msg => panic msg
  | Hang => hang
  | Undef => undef
  end;;
  k_do_cpu popcli.

(** ** The scheduler between two switches *)

(** The start, up to the loop over the table. *)
Definition scheduler_enter : M kern unit := modify (set_curproc None).
Definition scheduler_round : M kern unit := k_do_cpu sti;; k_do_cpu pushcli.
Definition scheduler_end : M kern unit := k_do_cpu popcli.
(** One entry of the table: [true] when the code goes on to [swtch]. *)
Definition scheduler_visit (i : nat) : M kern bool :=
  p ← get_proc i;
  if negb (bool_decide (b_state p = RUNNABLE)) then mret false else
  modify (set_curproc (Some i));;
  mod_proc i (set_state RUNNING);;
  p ← get_proc i;
  k_switchuvm p;;
  mret true.

Definition myproc : M kern (option nat) := gets curproc.

(** [sched] up to its [swtch]: the thread is saved with [intena]. *)
Definition sched_leave (i : nat) : M kern unit :=
  p ← get_proc i;
  if bool_decide (b_state p = RUNNING) then panic "sched running" else
  e ← k_do_cpu readeflags;
  if negb (Z.land e FL_IF =? 0) then panic "sched interruptible" else
  n ← k_do_cpu (gets intena);
  mod_proc i (set_kctx (KSched n)).
(** [sched] from its [swtch] on. *)
Definition sched_return (n : Z) : M kern unit :=
  k_do_cpu (modify (λ c, mk_cpu (ncli c) n (eflags c))).

(** [yield] around the switch. *)
Definition yield_leave : M kern unit :=
  k_do_cpu pushcli;;
  r ← myproc;
  match r with
  | None => undef
  | Some i => mod_proc i (set_state RUNNABLE);; sched_leave i
  end.
Definition yield_return (n : Z) : M kern unit := sched_return n;; k_do_cpu popcli.

Definition forkret : M kern unit := k_do_cpu popcli.

(** The end of [main]: two processes, then the scheduler up to its loop over
    the table. *)
Definition main_processes (fuel : nat) (name : list Z) : M kern unit :=
  pinit fuel name;; pinit fuel name;; scheduler_enter;; scheduler_round.

(** What a thread does when the scheduler switches to it. *)
Definition resume (i : nat) : M kern unit :=
  p ← get_proc i;
  match b_kctx p with
  | KFresh => forkret
  | KSched n => yield_return n
  end.
End proc.

(** ** swtch.S and trapret on the machine *)
Record regs := mk_regs { r_esp : Z; r_ebp : Z; r_ebx : Z; r_esi : Z; r_edi : Z; r_eip : Z }.

Definition push (v : Z) (x : regs * mem) : regs * mem :=
  let '(r, m) := x in
  let sp := r_esp r - 4 in
  (mk_regs sp (r_ebp r) (r_ebx r) (r_esi r) (r_edi r) (r_eip r), store4 m sp v).
(** [swtch(old, new)], entered by a call that left the return address at the
    top of the stack; [old] is where the stack pointer is saved. *)
Definition swtch (old new : Z) (x : regs * mem) : regs * mem :=
  let '(r, m) := push (r_edi x.1) (push (r_esi x.1) (push (r_ebx x.1) (push (r_ebp x.1) x))) in
  let m := store4 m old (r_esp r) in
  (mk_regs (new + 20) (load4 m (new + 12)) (load4 m (new + 8)) (load4 m (new + 4)) (load4 m new) (load4 m (new + 16)), m).

(** The registers a return to user mode loads. *)
Record uregs := mk_uregs {
  u_edi : Z; u_esi : Z; u_ebp : Z; u_ebx : Z; u_edx : Z; u_ecx : Z; u_eax : Z;
  u_gs : Z; u_fs : Z; u_es : Z; u_ds : Z;
  u_eip : Z; u_cs : Z; u_eflags : Z; u_esp : Z; u_ss : Z;
}.
Definition load2 (m : mem) (a : Z) : Z := m a + 256 * m (a + 1).
(** [trapret] with the stack pointer at a trap frame: [popal], the segment
    registers, and [iret] past the trap number and the error code. *)
Definition trapret_frame (m : mem) (tf : Z) : uregs :=
  mk_uregs (load4 m tf) (load4 m (tf + 4)) (load4 m (tf + 8)) (load4 m (tf + 16)) (load4 m (tf + 20)) (load4 m (tf + 24))
    (load4 m (tf + 28)) (load2 m (tf + 32)) (load2 m (tf + 36)) (load2 m (tf + 40)) (load2 m (tf + 44))
    (load4 m (tf + 56)) (load2 m (tf + 60)) (load4 m (tf + 64)) (load4 m (tf + 68)) (load2 m (tf + 72)).
