(* ===== verification/Trap.v ===== *)
(** * trap.c: interrupt descriptors, traps, and the machine as a whole

    [trap] dispatches to the drivers, to the system calls and to the
    scheduler. The last part is the machine: how the processor enters [trap]
    through the descriptor table and leaves it, and the transitions between
    scheduler and processes. *)

From S2P Require Import Prelude Spinlock CString Ide Bio Layout Log Fs File Kalloc Syscall Console Vm Mp Apic Kernel Proc.

Definition T_SYSCALL : Z := 64.
Definition STS_IG32 : Z := 0xE.
Definition STS_TG32 : Z := 0xF.

(** mmu.h: an interrupt or trap gate. *)
Record gatedesc := mk_gatedesc {
  off_15_0 : Z; gd_cs : Z; gd_args : Z; gd_rsv1 : Z; gd_type : Z; gd_s : Z; gd_dpl : Z; gd_p : Z; off_31_16 : Z;
}.
Definition SETGATE (istrap sel off d : Z) : gatedesc :=
  mk_gatedesc (field 16 (Z.land (u32 off) 0xffff)) (field 16 sel) 0 0
    (if istrap =? 0 then STS_IG32 else STS_TG32) 0 (field 2 d) 1 (field 16 (Z.shiftr (u32 off) 16)).

(** The loop of [tvinit] over the vectors, then the gate for system calls. *)
Definition tvinit (vectors : list Z) : list gatedesc :=
  let idt := (λ v, SETGATE 0 (Z.shiftl SEG_KCODE 3) v 0) <$> take 256 vectors in
  match vectors !! Z.to_nat T_SYSCALL with
  | Some v => <[Z.to_nat T_SYSCALL := SETGATE 1 (Z.shiftl SEG_KCODE 3) v DPL_USER]> idt
  | None => idt
  end.
(** Where the processor goes through a gate, and whether it masks interrupts. *)
Definition gate_entry (g : gatedesc) : Z := off_15_0 g + 65536 * off_31_16 g.
Definition gate_masks (g : gatedesc) : bool := gd_type g =? STS_IG32.

Section trap.
Context {D U L : Type} {dev : IdeDevice D} {udev : Uart U} {ldev : LapicDevice L}.
Abbreviation kern := (kern D U L).
Implicit Types k : kern.

(** [fuel] bounds the characters of one serial interrupt, [name] is the
    uninitialised buffer of path walks, [rcr2] the faulting address. *)
Context (fuel : nat) (name : list Z) (rcr2 : Z).

(** ** System calls on the kernel state *)
Definition tf_eax (m : mem) (tf : Z) : Z := load4 m (tf + 28).
Definition tf_esp (m : mem) (tf : Z) : Z := load4 m (tf + 68).
Definition tf_trapno (m : mem) (tf : Z) : Z := load4 m (tf + 48).
Definition tf_eip (m : mem) (tf : Z) : Z := load4 m (tf + 56).
Definition tf_cs (m : mem) (tf : Z) : Z := load2 m (tf + 60).
Definition sys_proc (m : mem) (p : pcb) : proc :=
  mk_proc (b_sz p) (b_offset p) (b_pid p) (tf_eax m (b_tf p)) (tf_esp m (b_tf p)) (b_ofile p).
Definition k_sys (p : pcb) k : sys D (con U) :=
  mk_sys (set_ffs (k_fs k) (k_files k)) (k_mem k) (sys_proc (k_mem k) p) (k_ticks k).
Definition put_sys (i : nat) (p : pcb) (s : sys D (con U)) k : kern :=
  set_ptable (<[i := set_ofile (p_ofile (sproc s)) p]> (ptable k))
    (set_k_mem (store4 (smem s) (b_tf p + 28) (p_eax (sproc s)))
      (set_k_files (sfl s) (set_k_cpu (fs_cpu (ffs (sfl s))) k))).

(** The message for an unknown call comes before its result is set. *)
Definition k_syscall (i : nat) : M kern unit :=
  p ← get_proc i;
  m ← gets k_mem;
  ps ← gets ptable;
  let num := s32 (tf_eax m (b_tf p)) in
  match (if num >? 0 then syscalls (D:=D) (X:=con U) (devtab ps fuel) name num else None) with
  | Some _ => mret tt
  | None => k_do_con (cprintf (Some (line "%d %s: unknown sys call %d")) [AWord (b_pid p); AStr (Some (b_name p)); AWord num])
  end;;
  zoom (k_sys p) (put_sys i p) (syscall (devtab ps fuel) name).

(** ** trap *)
Definition spurious_msg (m : mem) (tf : Z) : M kern unit :=
  k_do_con (cprintf (Some (line "cpu%d: spurious interrupt at %x:%x")) [AWord 0; AWord (tf_cs m tf); AWord (tf_eip m tf)]).
Definition unexpected_msg (m : mem) (tf : Z) : M kern unit :=
  k_do_con (cprintf (Some (line "unexpected trap %d from cpu %d eip %x (cr2=0x%x)"))
    [AWord (tf_trapno m tf); AWord 0; AWord (tf_eip m tf); AWord rcr2]).

(** The [switch]. *)
Definition trap_handle (tf : Z) : M kern unit :=
  m ← gets k_mem;
  let no := tf_trapno m tf in
  if no =? T_IRQ0 + IRQ_TIMER then
    modify (λ k, set_k_ticks (u32 (k_ticks k + 1)) k);; k_do_lapic lapiceoi
  else if no =? T_IRQ0 + IRQ_IDE then k_do_fs (dio ideintr);; k_do_lapic lapiceoi
  else if no =? T_IRQ0 + IRQ_COM1 then
    ps ← gets ptable; k_do_con (uartintr (procdump ps) fuel);; k_do_lapic lapiceoi
  else if (no =? T_IRQ0 + 7) || (no =? T_IRQ0 + IRQ_SPURIOUS) then spurious_msg m tf;; k_do_lapic lapiceoi
  else
    r ← myproc;
    if bool_decide (r = None) || (Z.land (tf_cs m tf) 3 =? 0) then unexpected_msg m tf;; panic "trap"
    else mret tt.

(** [true]: the code is inside [yield], at its switch to the scheduler. *)
Definition trap (tf : Z) : M kern bool :=
  m ← gets k_mem;
  if tf_trapno m tf =? T_SYSCALL then
    r ← myproc;
    match r with
    | None => undef
    | Some i => mod_proc i (set_tf tf);; k_syscall i;; mret false
    end
  else
    trap_handle tf;;
    r ← myproc;
    match r with
    | None => mret false
    | Some i =>
        p ← get_proc i;
        m ← gets k_mem;
        if bool_decide (b_state p = RUNNING) && (tf_trapno m tf =? T_IRQ0 + IRQ_TIMER) then yield_leave;; mret true
        else mret false
    end.

(** ** The machine *)

(** The frame that the processor, the vector and [alltraps] push. *)
Definition push_frame (m : mem) (tf : Z) (u : uregs) (trapno err : Z) : mem :=
  let m := store4 (store4 m (tf + 72) (u_ss u)) (tf + 68) (u_esp u) in
  let m := store4 (store4 (store4 m (tf + 64) (u_eflags u)) (tf + 60) (u_cs u)) (tf + 56) (u_eip u) in
  let m := store4 (store4 m (tf + 52) err) (tf + 48) trapno in
  let m := store4 (store4 (store4 (store4 m (tf + 44) (u_ds u)) (tf + 40) (u_es u)) (tf + 36) (u_fs u)) (tf + 32) (u_gs u) in
  let m := store4 (store4 (store4 m (tf + 28) (u_eax u)) (tf + 24) (u_ecx u)) (tf + 20) (u_edx u) in
  let m := store4 (store4 m (tf + 16) (u_ebx u)) (tf + 12) (tf + 32) in
  store4 (store4 (store4 m (tf + 8) (u_ebp u)) (tf + 4) (u_esi u)) tf (u_edi u).

(** From user mode through an interrupt gate: the stack is the one the task
    state segment names, and interrupts are masked. *)
Definition enter_irq (u : uregs) (trapno : Z) : M kern Z :=
  g ← gets k_gdt;
  let tf := ts_esp0 g - TF_SIZE in
  modify (λ k, set_k_mem (push_frame (k_mem k) tf u trapno 0) k);;
  k_do_cpu cli;;
  mret tf.
(** The return to user mode restores the flags of the frame. *)
Definition leave_trap (tf : Z) : M kern uregs :=
  m ← gets k_mem;
  let u := trapret_frame m tf in
  k_do_cpu (modify (λ c, mk_cpu (ncli c) (intena c) (u_eflags u)));;
  mret u.

(** Control is in the scheduler, about to look at entry [i], or in user mode
    in process [i] with registers [u]. *)
Inductive control := CSched (i : nat) | CUser (i : nat) (u : uregs).

(** Up to the next point of control, when the only interrupt is the clock. *)
Definition advance (c : control) : M kern control :=
  match c with
  | CSched i =>
      if bool_decide (i < NPROC)%nat then
        b ← scheduler_visit i;
        if (b : bool) then
          resume i;;
          p ← get_proc i;
          u ← leave_trap (b_tf p);
          mret (CUser i u)
        else mret (CSched (S i))
      else scheduler_end;; scheduler_round;; mret (CSched 0)
  | CUser i u =>
      tf ← enter_irq u (T_IRQ0 + IRQ_TIMER);
      b ← trap tf;
      if (b : bool) then mret (CSched (S i))
      else u ← leave_trap tf; mret (CUser i u)
  end.
Fixpoint run (n : nat) (c : control) : M kern control :=
  match n with
  | O => mret c
  | S n => c' ← advance c; run n c'
  end.
End trap.
