(* ===== verification/Main.v ===== *)
(** * main.c: the machine from its start to the scheduler

    The state is the kernel of Kernel.v with what only the start touches: the
    processors and ports that mp.c finds, the I/O APIC, the table of device
    routines, the interrupt descriptors and the register that points to them.
    The drivers' start routines are here where they reach into another
    component: the interrupt controller or the console. *)

From S2P Require Import Prelude Spinlock CString Ide Bio Layout Log Fs File Kalloc Syscall Console Vm Mp Apic Kernel Proc Trap.

Definition KERNBASE : Z := 0x0.
Definition PHYSTOP : Z := 0xE000000.
Definition P2V (a : Z) : Z := a + KERNBASE.
Definition NDEV : nat := 10.

(** The values of the function pointers in [devsw]. *)
Inductive readfn := Consoleread.
Inductive writefn := Consolewrite.

Record machine (D U L P A : Type) := mk_machine {
  m_kern : kern D U L;
  m_mp : mpst P;
  m_ioapic : A;
  m_devsw : list (option readfn * option writefn);
  m_idt : list gatedesc;
  m_idtr : Z * Z;          (* limit and base *)
}.
Arguments mk_machine {D U L P A}.
Arguments m_kern {D U L P A}.
Arguments m_mp {D U L P A}.
Arguments m_ioapic {D U L P A}.
Arguments m_devsw {D U L P A}.
Arguments m_idt {D U L P A}.
Arguments m_idtr {D U L P A}.

Section main.
Context {D U L P A : Type} {dev : IdeDevice D} {udev : Uart U} {ldev : LapicDevice L} {pio : Ports P} {adev : IoapicDevice A}.
Abbreviation kern := (kern D U L).
Abbreviation machine := (machine D U L P A).
Implicit Types k : kern.
Implicit Types m : machine.

Definition set_m_kern v m : machine := mk_machine v (m_mp m) (m_ioapic m) (m_devsw m) (m_idt m) (m_idtr m).
Definition set_m_mp v m : machine := mk_machine (m_kern m) v (m_ioapic m) (m_devsw m) (m_idt m) (m_idtr m).
Definition set_m_ioapic v m : machine := mk_machine (m_kern m) (m_mp m) v (m_devsw m) (m_idt m) (m_idtr m).
Definition set_m_devsw v m : machine := mk_machine (m_kern m) (m_mp m) (m_ioapic m) v (m_idt m) (m_idtr m).
Definition set_m_idt v m : machine := mk_machine (m_kern m) (m_mp m) (m_ioapic m) (m_devsw m) v (m_idtr m).
Definition set_m_idtr v m : machine := mk_machine (m_kern m) (m_mp m) (m_ioapic m) (m_devsw m) (m_idt m) v.

(** ** Views *)
Definition on_kern {B} (c : M kern B) : M machine B := zoom m_kern set_m_kern c.
Definition on_ioapic {B} (c : M A B) : M machine B := zoom m_ioapic set_m_ioapic c.
(** mp.c sets the pointer that lapic.c uses. *)
Definition m_mpst m : mpst P := set_lapic (lapic_ptr (k_lapic (m_kern m))) (m_mp m).
Definition put_mpst (s : mpst P) m : machine :=
  set_m_mp s (set_m_kern (set_k_lapic (mk_lapic_st (lapic s) (lhw (k_lapic (m_kern m)))) (m_kern m)) m).
Definition on_mp {B} (c : M (mpst P) B) : M machine B := zoom m_mpst put_mpst c.
(** The open files with the processor they share. *)
Definition k_fls k : fls D (con U) := set_ffs (k_fs k) (k_files k).
Definition put_fls (s : fls D (con U)) k : kern := set_k_cpu (fs_cpu (ffs s)) (set_k_files s k).
Definition k_do_fls {B} (c : M (fls D (con U)) B) : M kern B := zoom k_fls put_fls c.

(** ** The start routines *)

(** [fuel] bounds the entries of the table. *)
Definition m_mpinit (fuel : nat) : M machine unit :=
  m ← gets (k_mem ∘ m_kern);
  on_mp (mpinit m fuel).

Definition m_ioapicinit : M machine unit :=
  r ← on_ioapic ioapicinit_read;
  id ← gets (ioapicid ∘ m_mp);
  when (negb (r.2 =? id)) (on_kern (k_do_con (cprintf (Some (line "ioapicinit: id isn't equal to ioapicid; not a MP")) [])));;
  on_ioapic (ioapicinit_mask r.1).

(** console.c *)
Definition consoleinit : M machine unit :=
  modify (λ m, set_m_devsw (alter (λ e, (e.1, Some Consolewrite)) CONSOLE (m_devsw m)) m);;
  modify (λ m, set_m_devsw (alter (λ e, (Some Consoleread, e.2)) CONSOLE (m_devsw m)) m).
(** What a call through the table runs. *)
Definition dev_routines (tab : list (option readfn * option writefn)) (ps : list pcb) (fuel : nat) : list (@devsw D (con U)) :=
  (λ e, mk_devsw (match e.1 with Some Consoleread => Some (λ _ n, do_con (consoleread (procdump ps) fuel n)) | None => None end)
     (match e.2 with Some Consolewrite => Some (λ _ src n, do_con (consolewrite src n)) | None => None end)) <$> tab.

Definition uartinit : M machine unit :=
  present ← on_kern (k_do_con uartinit_probe);
  if negb present then mret tt else
  on_ioapic (ioapicenable IRQ_COM1 0);;
  on_kern (k_do_con uartinit_announce).

Definition ideinit : M machine unit :=
  n ← gets (ncpu ∘ m_mp);
  on_ioapic (ioapicenable IRQ_IDE (n - 1));;
  on_kern (k_do_fs (dio ideinit_drives)).

(** x86.h and trap.c; [idt_at] is the address of [idt]. *)
Definition lidt (p size : Z) : M machine unit :=
  let pd0 := u16 (size - 1) in let pd1 := u16 p in let pd2 := u16 (Z.shiftr (u32 p) 16) in
  modify (set_m_idtr (pd0, pd1 + 65536 * pd2)).
Definition idtinit (idt_at : Z) : M machine unit := lidt idt_at (256 * 8).

Definition sb_format : list Z :=
  line "sb: size %d nblocks %d ninodes %d nlog %d logstart %d inodestart %d bmap start %d".
Definition iinit (dv : Z) : M kern unit :=
  k_do_fs (iinit_sb dv);;
  sb ← gets (fsb ∘ k_fs);
  k_do_con (cprintf (Some sb_format)
    (AWord <$> [sb_size sb; sb_nblocks sb; sb_ninodes sb; sb_nlog sb; sb_logstart sb; sb_inodestart sb; sb_bmapstart sb])).

(** ** main

    [vectors] are the addresses of the generated entry code, the others those
    of the labels of the same name; [name] stands for the uninitialised
    buffers of path walks. [mpfuel] and [fuel] bound the entries of the
    processor table and the characters of one serial interrupt. The run ends
    inside [scheduler], where its loop over the processes begins. *)
Context (vectors : list Z) (idt_at trapret forkret_at initcode_start initcode_size : Z) (mpfuel fuel : nat) (name : list Z).

Definition main_mknod : M machine Z :=
  tab ← gets m_devsw;
  ps ← gets (ptable ∘ m_kern);
  on_kern (k_do_fls (mknod (dev_routines tab ps fuel) (str "console") (Z.of_nat CONSOLE) (Z.of_nat CONSOLE) name)).

Definition main : M machine unit :=
  e ← gets (k_end ∘ m_kern);
  on_kern (k_do_kmem (kinit e (P2V PHYSTOP)));;
  m_mpinit mpfuel;;
  on_kern (k_do_lapic lapicinit);;
  on_mp picinit;;
  m_ioapicinit;;
  consoleinit;;
  uartinit;;
  ideinit;;
  modify (set_m_idt (tvinit vectors));;
  on_kern (k_do_fs (dio binit));;
  on_kern (k_do_fls fileinit);;
  idtinit idt_at;;
  on_kern (k_do_cpu sti);;
  on_kern (iinit ROOTDEV);;
  on_kern (k_do_fs (lo (initlog ROOTDEV)));;
  main_mknod;;
  on_kern (modify (λ k, set_k_gdt (seginit (k_gdt k)) k));;
  on_kern (main_processes trapret forkret_at initcode_start initcode_size fuel name).
End main.

(** The table [consoleinit] fills is the one the rest of the kernel uses. *)
Lemma dev_routines_console {D U : Type} {udev : Uart U} ps fuel :
  dev_routines (D:=D) (U:=U) (<[CONSOLE := (Some Consoleread, Some Consolewrite)]> (replicate NDEV (None, None))) ps fuel = devtab ps fuel.
Proof. reflexivity. Qed.
