(* ===== verification/Sched.v ===== *)
(** * The scheduler: abstract machine and refinement

    An abstract round-robin scheduler keeps the registers of the processes
    that are ready and visits them in turn. The kernel's scheduler, trap entry
    and context switch implement it, whatever is on the stacks and in the
    critical-section counters. *)

From S2P Require Import Prelude Spinlock CString Ide Bio Layout Log Fs File Kalloc Syscall Console Vm Mp Apic Kernel Proc Trap.

(** ** The abstract machine *)
Inductive acontrol := ASched (i : nat) | AUser (i : nat) (u : uregs).
Definition astate : Type := acontrol * gmap nat uregs.
Definition astep (s : astate) : astate :=
  match s with
  | (ASched i, ready) =>
      if bool_decide (i < NPROC)%nat then
        match ready !! i with
        | Some u => (AUser i u, delete i ready)
        | None => (ASched (S i), ready)
        end
      else (ASched 0, ready)
  | (AUser i u, ready) => (ASched (S i), <[i:=u]> ready)
  end.

(** Round robin: a ready process is never more than a round away. *)
Lemma astep_reach ready i j u : ready !! j = Some u → (i ≤ j < NPROC)%nat →
  ∃ n ready', (n ≤ 2 * (j - i) + 1)%nat ∧ Nat.iter n astep (ASched i, ready) = (AUser j u, ready').
Proof.
  remember (j - i)%nat as d eqn:Hd. revert i ready Hd. induction d as [|d IH]; intros i ready Hd Hj Hij.
  - assert (i = j) as -> by lia. exists 1%nat, (delete j ready). split; [lia|]. cbn.
    rewrite bool_decide_eq_true_2 by lia. by rewrite Hj.
  - destruct (ready !! i) as [v|] eqn:Hi.
    + destruct (IH (S i) (<[i:=v]> (delete i ready))) as (n & r' & Hn & Hr); [lia| |lia|].
      { rewrite lookup_insert_ne, lookup_delete_ne by lia. done. }
      exists (n + 2)%nat, r'. split; [lia|]. rewrite Nat.iter_add. cbn [Nat.iter nat_rect].
      replace (astep (astep (ASched i, ready))) with (ASched (S i), <[i:=v]> (delete i ready)); [done|].
      cbn [astep]. rewrite bool_decide_eq_true_2 by lia. by rewrite Hi.
    + destruct (IH (S i) ready) as (n & r' & Hn & Hr); [lia|done|lia|].
      exists (n + 1)%nat, r'. split; [lia|]. rewrite Nat.iter_add. cbn [Nat.iter nat_rect].
      replace (astep (ASched i, ready)) with (ASched (S i), ready); [done|].
      cbn [astep]. rewrite bool_decide_eq_true_2 by lia. by rewrite Hi.
Qed.
(** From the start of a visit to the end of the table: nothing gets lost. *)
Lemma astep_round ready i j u : ready !! j = Some u → (j < NPROC)%nat → (i ≤ NPROC)%nat →
  (j < i)%nat → ∃ n ready', (n ≤ 2 * (NPROC - i) + 1)%nat ∧ ready' !! j = Some u ∧
    Nat.iter n astep (ASched i, ready) = (ASched 0, ready').
Proof.
  remember (NPROC - i)%nat as d eqn:Hd. revert i ready Hd. induction d as [|d IH]; intros i ready Hd Hj Hj' Hi Hji.
  - exists 1%nat, ready. split_and!; [lia|done|]. cbn. by rewrite bool_decide_eq_false_2 by lia.
  - destruct (ready !! i) as [v|] eqn:Hv.
    + destruct (IH (S i) (<[i:=v]> (delete i ready))) as (n & r' & Hn & Hr & Hit); [lia| |lia|lia|lia|].
      { rewrite lookup_insert_ne, lookup_delete_ne by lia. done. }
      exists (n + 2)%nat, r'. split_and!; [lia|done|]. rewrite Nat.iter_add. cbn [Nat.iter nat_rect].
      replace (astep (astep (ASched i, ready))) with (ASched (S i), <[i:=v]> (delete i ready)); [done|].
      cbn [astep]. rewrite bool_decide_eq_true_2 by lia. by rewrite Hv.
    + destruct (IH (S i) ready) as (n & r' & Hn & Hr & Hit); [lia|done|lia|lia|lia|].
      exists (n + 1)%nat, r'. split_and!; [lia|done|]. rewrite Nat.iter_add. cbn [Nat.iter nat_rect].
      replace (astep (ASched i, ready)) with (ASched (S i), ready); [done|].
      cbn [astep]. rewrite bool_decide_eq_true_2 by lia. by rewrite Hv.
Qed.
Lemma astep_fair ready i j u : ready !! j = Some u → (j < NPROC)%nat → (i ≤ NPROC)%nat →
  ∃ n ready', (n ≤ 2 * NPROC + 2)%nat ∧ Nat.iter n astep (ASched i, ready) = (AUser j u, ready').
Proof.
  intros Hj Hlt Hi. destruct (decide (i ≤ j)%nat) as [Hle|Hgt].
  - destruct (astep_reach ready i j u) as (n & r' & Hn & Hr); [done|lia|]. exists n, r'. split; [lia|done].
  - destruct (astep_round ready i j u) as (n & r' & Hn & Hr & Hit); [done|lia|lia|lia|].
    destruct (astep_reach r' 0 j u) as (n2 & r2 & Hn2 & Hr2); [done|lia|]. exists (n2 + n)%nat, r2.
    split; [lia|]. by rewrite Nat.iter_add, Hit.
Qed.

(** ** Frames in memory *)
Definition ureg_ok (u : uregs) : Prop :=
  Forall (λ v, 0 ≤ v < 4294967296) [u_edi u; u_esi u; u_ebp u; u_ebx u; u_edx u; u_ecx u; u_eax u; u_eip u; u_eflags u; u_esp u] ∧
  Forall (λ v, 0 ≤ v < 65536) [u_gs u; u_fs u; u_es u; u_ds u; u_cs u; u_ss u].

Lemma load4_store4_ne m a b v : (b + 4 ≤ a ∨ a + 4 ≤ b) → load4 (store4 m b v) a = load4 m a.
Proof. intros Hd. apply load4_frame. intros x Hx. apply store4_other. lia. Qed.
Lemma load2_store4_ne m a b v : (b + 4 ≤ a ∨ a + 2 ≤ b) → load2 (store4 m b v) a = load2 m a.
Proof. intros Hd. unfold load2. by rewrite !store4_other by lia. Qed.
Lemma load2_store4 m a v : 0 ≤ v < 65536 → load2 (store4 m a v) a = v.
Proof.
  intros Hv. unfold load2, store4. rewrite !store_spec. repeat (first [rewrite decide_True by lia|rewrite decide_False by lia]).
  unfold u8. rewrite Z.shiftr_div_pow2 by lia. change (2 ^ 8) with 256. pose proof (Z_div_mod_eq_full v 256).
  rewrite (Z.mod_small (v / 256)); [lia|]. split; [apply Z.div_pos; lia|apply Z.div_lt_upper_bound; lia].
Qed.
Lemma push_frame_other m tf u no err x : ¬ (tf ≤ x < tf + TF_SIZE) → push_frame m tf u no err x = m x.
Proof. intros Hx. unfold push_frame, TF_SIZE in *. by rewrite !store4_other by lia. Qed.
Lemma push_frame_trapno m tf u no err : 0 ≤ no < 4294967296 → tf_trapno (push_frame m tf u no err) tf = no.
Proof.
  intros Hn. unfold push_frame, tf_trapno. rewrite !load4_store4_ne by lia. by apply load4_store4.
Qed.
(** What [trapret] pops is what [alltraps] pushed. *)
Lemma push_frame_trapret m tf u no err : ureg_ok u → trapret_frame (push_frame m tf u no err) tf = u.
Proof.
  intros [H4 H2]. rewrite !Forall_cons in H4. rewrite !Forall_cons in H2. unfold push_frame, trapret_frame.
  destruct u as [edi esi ebp ebx edx ecx eax gs fs es ds eip cs eflags esp ss]. cbn [u_edi u_esi u_ebp u_ebx u_edx u_ecx u_eax u_gs u_fs u_es u_ds u_eip u_cs u_eflags u_esp u_ss] in *.
  f_equal; repeat first [rewrite load4_store4_ne by lia|rewrite load2_store4_ne by lia|rewrite load4_store4 by lia|rewrite load2_store4 by lia]; done.
Qed.
Lemma trapret_frame_ext m m' tf : (∀ x, tf ≤ x < tf + TF_SIZE → m' x = m x) → trapret_frame m' tf = trapret_frame m tf.
Proof.
  intros He. unfold trapret_frame, TF_SIZE in *. rewrite !(load4_frame m m') by (intros; apply He; lia).
  unfold load2. by rewrite !He by lia.
Qed.

(** ** Critical sections *)
Lemma wp_pushcli_raw E (Q : unit → cpu → Prop) c :
  0 ≤ ncli c < 1000 → (∀ c', ncli c' = ncli c + 1 → irq_on c' = false → Q tt c') → wp E pushcli Q c.
Proof.
  intros Hn HQ. unfold pushcli, readeflags, cli. apply wp_bind, wp_gets. apply wp_bind, wp_modify. apply wp_bind, wp_gets.
  cbn [ncli]. apply wp_bind. destruct (ncli c =? 0); cbn [when]; [apply wp_modify|apply wp_ret]; apply wp_modify; apply HQ;
    cbn [ncli]; rewrite ?s32_small by lia; try done; apply cli_off.
Qed.
Lemma wp_popcli_raw E (Q : unit → cpu → Prop) c :
  1 ≤ ncli c < 1000 → irq_on c = false → (∀ c', ncli c' = ncli c - 1 → (1 < ncli c → irq_on c' = false) → Q tt c') → wp E popcli Q c.
Proof.
  intros Hn Hoff HQ. unfold popcli, readeflags, irq_on in *. apply wp_bind, wp_gets. rewrite irq_land_FL_IF, Hoff. cbn [negb].
  apply wp_bind, wp_modify. apply wp_bind, wp_gets. cbn [ncli]. rewrite s32_small by lia.
  rewrite (proj2 (Z.ltb_ge _ _)) by lia. apply wp_bind, wp_gets. cbn [intena].
  destruct (Z.eqb_spec (ncli c - 1) 0) as [H1|H1]; cbn [andb].
  - destruct (negb (intena c =? 0)); cbn [when]; [apply wp_modify|apply wp_ret]; apply HQ; cbn [ncli eflags]; (done || lia).
  - apply wp_ret, HQ; done.
Qed.

(** ** The kernel implements the abstract machine *)
Section sched.
Context {D U L : Type} {dev : IdeDevice D} {udev : Uart U} {ldev : LapicDevice L}.
Context (fuel : nat) (name : list Z) (rcr2 : Z).
Abbreviation kern := (kern D U L).
Implicit Types k : kern.

Definition live (p : pcb) : Prop := b_state p = RUNNABLE ∨ b_state p = RUNNING.

(** Kernel stacks do not overlap, and the trap frame is at their top. *)
Record stacks_ok (ps : list pcb) : Prop := {
  st_len : length ps = NPROC;
  st_stack i p : ps !! i = Some p → live p →
    0 < b_kstack p ∧ b_kstack p + KSTACKSIZE < 4294967296 ∧ b_tf p = b_kstack p + KSTACKSIZE - TF_SIZE;
  st_disj i j p q : ps !! i = Some p → ps !! j = Some q → live p → live q → i ≠ j →
    b_kstack p + KSTACKSIZE ≤ b_kstack q ∨ b_kstack q + KSTACKSIZE ≤ b_kstack p;
}.
(** The registers of the processes that can be run are in their frames. *)
Definition frame_of (m : mem) (ps : list pcb) (i : nat) : option uregs :=
  p ← ps !! i; if bool_decide (b_state p = RUNNABLE) then Some (trapret_frame m (b_tf p)) else None.
Definition user_ok (u : uregs) : Prop := ureg_ok u ∧ Z.testbit (u_eflags u) 9 = true.
Record saved (ready : gmap nat uregs) (m : mem) (ps : list pcb) : Prop := {
  sv_frame i : ready !! i = frame_of m ps i;
  sv_user i u : ready !! i = Some u → user_ok u;
}.
Definition not_running (p : pcb) : Prop := b_state p ≠ RUNNING.

Inductive impl : astate → control → kern → Prop :=
| impl_sched i ready k :
    (i ≤ NPROC)%nat → stacks_ok (ptable k) → saved ready (k_mem k) (ptable k) →
    Forall not_running (ptable k) → ncli (k_cpu k) = 1 → irq_on (k_cpu k) = false →
    impl (ASched i, ready) (CSched i) k
| impl_user i u ready k p :
    stacks_ok (ptable k) → saved ready (k_mem k) (ptable k) → user_ok u →
    ptable k !! i = Some p → b_state p = RUNNING →
    (∀ j q, ptable k !! j = Some q → j ≠ i → not_running q) →
    curproc k = Some i → ts_esp0 (k_gdt k) = b_kstack p + KSTACKSIZE →
    ncli (k_cpu k) = 0 → eflags (k_cpu k) = u_eflags u →
    impl (AUser i u, ready) (CUser i u) k.

(** Changing the state of a process that stays live. *)
Lemma stacks_state ps i p q : stacks_ok ps → ps !! i = Some p → live p →
  b_kstack q = b_kstack p → b_tf q = b_tf p → stacks_ok (<[i:=q]> ps).
Proof.
  intros [Hl Hs Hd] Hp Hlive Hk Ht. assert (i < length ps)%nat as Hi by (by eapply lookup_lt_Some).
  assert (∀ j r, <[i:=q]> ps !! j = Some r → live r → ∃ r0, ps !! j = Some r0 ∧ live r0 ∧ b_kstack r = b_kstack r0 ∧ b_tf r = b_tf r0) as Hold.
  { intros j r [(<- & -> & _)|(Hne & Hj)]%list_lookup_insert_Some Hr; [by exists p|by exists r]. }
  constructor; [by rewrite length_insert| |].
  - intros j r Hj Hr. destruct (Hold j r Hj Hr) as (r0 & Hr0 & Hl0 & -> & ->). by eapply Hs.
  - intros j1 j2 r1 r2 H1 H2 L1 L2 Hne. destruct (Hold _ _ H1 L1) as (s1 & S1 & SL1 & -> & _).
    destruct (Hold _ _ H2 L2) as (s2 & S2 & SL2 & -> & _). by eapply Hd.
Qed.
Lemma frame_of_insert m ps i p j : (i < length ps)%nat →
  frame_of m (<[i:=p]> ps) j = if decide (j = i) then
    (if bool_decide (b_state p = RUNNABLE) then Some (trapret_frame m (b_tf p)) else None) else frame_of m ps j.
Proof.
  intros Hi. unfold frame_of. case_decide as Hj; [subst; by rewrite list_lookup_insert_eq|by rewrite list_lookup_insert_ne].
Qed.

Lemma wp_k_cpu {A} E (m : M cpu A) (Q : A → kern → Prop) k :
  wp E m (λ a c, Q a (set_k_cpu c k)) (k_cpu k) → wp E (k_do_cpu m) Q k.
Proof. apply wp_zoom. Qed.
Lemma wp_get_proc E i p (Q : pcb → kern → Prop) k : ptable k !! i = Some p → Q p k → wp E (get_proc i) Q k.
Proof. intros Hp HQ. by eapply (wp_getopt E (λ k, ptable k !! i)). Qed.
Lemma wp_mod_proc E i p f (Q : unit → kern → Prop) k :
  ptable k !! i = Some p → Q tt (set_ptable (<[i:=f p]> (ptable k)) k) → wp E (mod_proc i f) Q k.
Proof. intros Hp HQ. apply wp_bind. eapply wp_get_proc; [done|]. by apply wp_modify. Qed.

Lemma wp_switchuvm E p (Q : unit → kern → Prop) k :
  0 < b_kstack p → b_kstack p + KSTACKSIZE < 4294967296 → 0 ≤ ncli (k_cpu k) < 999 →
  (∀ c g, ncli c = ncli (k_cpu k) → (0 < ncli (k_cpu k) → irq_on c = false) → ts_esp0 g = b_kstack p + KSTACKSIZE →
     Q tt (set_k_cpu c (set_k_gdt g k))) →
  wp E (k_switchuvm p) Q k.
Proof.
  intros Hk Hhi Hn HQ. unfold k_switchuvm. rewrite (proj2 (Z.eqb_neq (b_kstack p) 0)) by lia.
  apply wp_bind, wp_k_cpu, wp_pushcli_raw; [lia|]. intros c1 Hn1 Hoff1. apply wp_bind, wp_gets. apply wp_bind.
  unfold switchuvm at 1. rewrite (proj2 (Z.eqb_neq (b_kstack p) 0)) by lia. apply wp_modify.
  apply wp_k_cpu, wp_popcli_raw; [cbn; lia|done|]. cbn [k_cpu set_k_cpu set_k_gdt]. intros c2 Hn2 Hoff2.
  apply (HQ c2 _); [lia|intros; apply Hoff2; lia|]. cbn [ts_esp0]. apply u32_small. unfold KSTACKSIZE in *. lia.
Qed.
Lemma wp_resume E i p (Q : unit → kern → Prop) k :
  ptable k !! i = Some p → ncli (k_cpu k) = 1 → irq_on (k_cpu k) = false →
  (∀ c, ncli c = 0 → Q tt (set_k_cpu c k)) → wp E (resume i) Q k.
Proof.
  intros Hp Hn Hoff HQ. unfold resume. apply wp_bind. eapply wp_get_proc; [done|]. destruct (b_kctx p) as [|n].
  - apply wp_k_cpu, wp_popcli_raw; [lia|done|]. intros c Hc _. apply HQ. lia.
  - apply wp_bind, wp_k_cpu, wp_modify. apply wp_k_cpu, wp_popcli_raw; [cbn; lia|done|]. cbn [k_cpu set_k_cpu ncli].
    intros c Hc _. apply (HQ c). lia.
Qed.
Lemma wp_lapiceoi E (Q : unit → kern → Prop) k : (∀ l, Q tt (set_k_lapic l k)) → wp E (k_do_lapic lapiceoi) Q k.
Proof.
  intros HQ. apply wp_zoom. unfold lapiceoi. apply wp_bind, wp_gets. destruct (negb _); cbn [when]; [|by apply wp_ret].
  unfold lapicw. apply wp_bind, wp_modify. apply wp_bind. unfold lapic_get, wp. destruct (lapic_rd _ _) as [v l]. apply HQ.
Qed.

(** The scheduler reaches a process that can be run. *)
Lemma advance_switch i ready u k :
  impl (ASched i, ready) (CSched i) k → (i < NPROC)%nat → ready !! i = Some u →
  wp no_panic (advance fuel name rcr2 (CSched i)) (λ c k', impl (AUser i u, delete i ready) c k') k.
Proof.
  intros Himpl Hi Hu. inversion Himpl as [? ? ? _ Hst [Hfr Hus] Hnr Hn Hoff|]; subst. clear Himpl.
  pose proof (Hus i u Hu) as Huok. pose proof Hu as Hu'. rewrite Hfr in Hu'. unfold frame_of in Hu'.
  destruct (ptable k !! i) as [p|] eqn:Hp; [|done]. cbn [mbind option_bind] in Hu'.
  case_bool_decide as Hrun; [|done]. injection Hu' as Hu'.
  destruct (st_stack _ Hst i p Hp (or_introl Hrun)) as (Hk0 & Hk1 & Htf).
  assert (i < length (ptable k))%nat as Hil by (by eapply lookup_lt_Some).
  unfold advance. rewrite bool_decide_eq_true_2 by done. unfold scheduler_visit. apply wp_bind, wp_bind.
  eapply wp_get_proc; [done|]. rewrite bool_decide_eq_true_2 by done. cbn [negb].
  apply wp_bind, wp_modify. apply wp_bind. eapply wp_mod_proc; [exact Hp|]. set (p' := set_state RUNNING p).
  assert (<[i:=p']> (ptable k) !! i = Some p') as Hp' by (by apply list_lookup_insert_eq).
  apply wp_bind. eapply wp_get_proc; [exact Hp'|]. apply wp_bind, wp_switchuvm; [done|done|cbn; lia|].
  intros c1 g1 Hc1 Hoff1 Hg1. apply wp_ret. apply wp_bind. eapply wp_resume; [exact Hp'|cbn in *; lia|apply Hoff1; cbn; lia|].
  intros c2 Hc2. apply wp_bind. eapply wp_get_proc; [exact Hp'|]. apply wp_bind, wp_bind, wp_gets. apply wp_bind, wp_k_cpu, wp_modify.
  apply wp_ret, wp_ret. cbn [k_mem set_k_cpu set_k_gdt set_ptable set_curproc b_tf p' set_state]. rewrite Hu'.
  eapply (impl_user i u _ _ p'); cbn [ptable k_mem curproc k_gdt k_cpu set_k_cpu set_k_gdt set_ptable set_curproc]; try done.
  - by eapply stacks_state; [exact Hst|exact Hp|by left|..].
  - constructor.
    + intros j. rewrite frame_of_insert by done. case_decide as Hj; [subst; by rewrite lookup_delete_eq|].
      by rewrite lookup_delete_ne.
    + intros j v [Hne Hv]%lookup_delete_Some. by eapply Hus.
  - intros j q Hq Hne. rewrite list_lookup_insert_ne in Hq by done. rewrite Forall_lookup in Hnr. by eapply Hnr.
Qed.

(** It passes over the others, and starts again at the end of the table. *)
Lemma advance_skip i ready k :
  impl (ASched i, ready) (CSched i) k → (i < NPROC)%nat → ready !! i = None →
  wp no_panic (advance fuel name rcr2 (CSched i)) (λ c k', impl (ASched (S i), ready) c k') k.
Proof.
  intros Himpl Hi Hu. inversion Himpl as [? ? ? _ Hst [Hfr Hus] Hnr Hn Hoff|]; subst. clear Himpl.
  rewrite Hfr in Hu. unfold frame_of in Hu.
  destruct (lookup_lt_is_Some_2 (ptable k) i) as [p Hp]; [by rewrite (st_len _ Hst)|]. rewrite Hp in Hu. cbn in Hu.
  case_bool_decide as Hrun; [done|].
  unfold advance. rewrite bool_decide_eq_true_2 by done. unfold scheduler_visit. apply wp_bind, wp_bind.
  eapply wp_get_proc; [done|]. rewrite bool_decide_eq_false_2 by done. cbn [negb]. apply wp_ret, wp_ret.
  constructor; done.
Qed.
Lemma advance_wrap i ready k :
  impl (ASched i, ready) (CSched i) k → ¬ (i < NPROC)%nat →
  wp no_panic (advance fuel name rcr2 (CSched i)) (λ c k', impl (ASched 0, ready) c k') k.
Proof.
  intros Himpl Hi. inversion Himpl as [? ? ? _ Hst Hsv Hnr Hn Hoff|]; subst. clear Himpl.
  unfold advance. rewrite bool_decide_eq_false_2 by done. apply wp_bind, wp_k_cpu, wp_popcli_raw; [lia|done|].
  intros c1 Hc1 _. apply wp_bind, wp_bind, wp_k_cpu, wp_modify. apply wp_k_cpu, wp_pushcli_raw; [cbn; lia|].
  intros c2 Hc2 Hoff2. apply wp_ret. cbn in Hc2. constructor; cbn; (done || lia).
Qed.

Lemma saved_tick ready m ps i p p' u no err :
  stacks_ok ps → saved ready m ps → ps !! i = Some p → b_state p = RUNNING → user_ok u →
  b_tf p' = b_tf p → b_state p' = RUNNABLE →
  saved (<[i:=u]> ready) (push_frame m (b_tf p) u no err) (<[i:=p']> ps).
Proof.
  intros Hst [Hfr Hus] Hp Hrun Hu Htf Hst'. assert (i < length ps)%nat as Hil by (by eapply lookup_lt_Some). constructor.
  - intros j. rewrite frame_of_insert by done. case_decide as Hj.
    + subst. rewrite lookup_insert_eq, bool_decide_eq_true_2 by done. f_equal. rewrite Htf. symmetry. by apply push_frame_trapret, Hu.
    + rewrite lookup_insert_ne, Hfr by done. unfold frame_of. destruct (ps !! j) as [q|] eqn:Hq; [|done]. cbn.
      case_bool_decide as Hr; [|done]. f_equal. symmetry. apply trapret_frame_ext. intros x Hx. apply push_frame_other.
      destruct (st_stack _ Hst i p Hp (or_intror Hrun)) as (_ & _ & T1). destruct (st_stack _ Hst j q Hq (or_introl Hr)) as (_ & _ & T2).
      destruct (st_disj _ Hst i j p q Hp Hq (or_intror Hrun) (or_introl Hr)); [done|unfold KSTACKSIZE, TF_SIZE in *; lia..].
  - intros j v. destruct (decide (j = i)) as [->|Hne]; [rewrite lookup_insert_eq; by intros [= <-]|].
    rewrite lookup_insert_ne by done. apply Hus.
Qed.
Lemma not_running_insert ps i p' : (∀ j q, ps !! j = Some q → j ≠ i → not_running q) → not_running p' →
  Forall not_running (<[i:=p']> ps).
Proof.
  intros Hnr Hp. apply Forall_lookup. intros j q [(<- & -> & _)|(Hne & Hj)]%list_lookup_insert_Some; [done|].
  by eapply Hnr.
Qed.

(** The clock stops a process: its registers go to its frame. *)
Lemma advance_tick i u ready k :
  impl (AUser i u, ready) (CUser i u) k →
  wp no_panic (advance fuel name rcr2 (CUser i u)) (λ c k', impl (ASched (S i), <[i:=u]> ready) c k') k.
Proof.
  intros Himpl. inversion Himpl as [|? ? ? ? p Hst [Hfr Hus] Huok Hp Hrun Hnr Hcur Hesp Hn Hfl]; subst. clear Himpl.
  destruct (st_stack _ Hst i p Hp (or_intror Hrun)) as (Hk0 & Hk1 & Htf).
  assert (i < length (ptable k))%nat as Hil by (by eapply lookup_lt_Some).
  unfold advance. apply wp_bind. unfold enter_irq. apply wp_bind, wp_gets. rewrite Hesp.
  replace (b_kstack p + KSTACKSIZE - TF_SIZE) with (b_tf p) by lia. set (m' := push_frame (k_mem k) (b_tf p) u (T_IRQ0 + IRQ_TIMER) 0).
  apply wp_bind, wp_modify. apply wp_bind, wp_k_cpu, wp_modify. apply wp_ret.
  assert (tf_trapno m' (b_tf p) = T_IRQ0 + IRQ_TIMER) as Hno by (by apply push_frame_trapno).
  unfold trap. apply wp_bind, wp_bind, wp_gets. cbn [k_mem set_k_cpu set_k_mem]. fold m'. rewrite Hno. cbn [Z.eqb].
  change (T_IRQ0 + IRQ_TIMER =? T_SYSCALL) with false. cbv iota.
  apply wp_bind. unfold trap_handle. apply wp_bind, wp_gets. cbn [k_mem set_k_cpu set_k_mem]. fold m'. rewrite Hno, Z.eqb_refl.
  apply wp_bind, wp_modify. apply wp_lapiceoi. intros l. apply wp_bind, wp_gets. cbn [curproc set_k_lapic set_k_ticks set_k_cpu set_k_mem].
  rewrite Hcur. apply wp_bind. eapply wp_get_proc; [exact Hp|]. apply wp_bind, wp_gets.
  cbn [k_mem set_k_lapic set_k_ticks set_k_cpu set_k_mem]. fold m'. rewrite Hno, Z.eqb_refl, bool_decide_eq_true_2 by done. cbn [andb].
  apply wp_bind. unfold yield_leave. apply wp_bind, wp_k_cpu, wp_pushcli_raw; [cbn; lia|]. intros c1 Hc1 Hoff1.
  apply wp_bind, wp_gets. cbn [curproc set_k_lapic set_k_ticks set_k_cpu set_k_mem]. rewrite Hcur.
  apply wp_bind. eapply wp_mod_proc; [exact Hp|]. set (p1 := set_state RUNNABLE p).
  assert (<[i:=p1]> (ptable k) !! i = Some p1) as Hp1 by (by apply list_lookup_insert_eq).
  unfold sched_leave. apply wp_bind. eapply wp_get_proc; [exact Hp1|]. rewrite bool_decide_eq_false_2 by done.
  apply wp_bind, wp_k_cpu, wp_gets. cbn [k_cpu set_k_cpu set_ptable]. rewrite irq_land_FL_IF. unfold irq_on in Hoff1. rewrite Hoff1. cbn [negb].
  apply wp_bind, wp_k_cpu, wp_gets. eapply wp_mod_proc; [exact Hp1|]. apply wp_ret, wp_ret.
  constructor; cbn [ptable k_mem k_cpu set_ptable set_k_cpu set_k_lapic set_k_ticks set_k_mem]; rewrite ?list_insert_insert_eq.
  - rewrite <- (st_len _ Hst). lia.
  - by eapply stacks_state; [exact Hst|exact Hp|by right|..].
  - apply (saved_tick ready (k_mem k) (ptable k) i p); done.
  - by apply not_running_insert.
  - cbn in *. lia.
  - done.
Qed.

Lemma advance_refines a c k :
  impl a c k → ∃ c' k', advance fuel name rcr2 c k = Ok (c', k') ∧ impl (astep a) c' k'.
Proof.
  intros Himpl. destruct a as [[i|i u] ready].
  - assert (c = CSched i) as -> by (by inversion Himpl). apply wp_ok. cbn [astep]. case_bool_decide as Hi.
    + destruct (ready !! i) as [u|] eqn:Hu; [by apply advance_switch|by apply advance_skip].
    + by eapply advance_wrap.
  - assert (c = CUser i u) as -> by (by inversion Himpl). by apply wp_ok, advance_tick.
Qed.
Lemma run_refines n a c k :
  impl a c k → ∃ c' k', run fuel name rcr2 n c k = Ok (c', k') ∧ impl (Nat.iter n astep a) c' k'.
Proof.
  revert a c k. induction n as [|n IH]; intros a c k Hi; [by exists c, k|].
  destruct (advance_refines a c k Hi) as (c1 & k1 & H1 & Hi1). destruct (IH _ _ _ Hi1) as (c2 & k2 & H2 & Hi2).
  exists c2, k2. split; [|by rewrite Nat.iter_succ_r]. cbn [run]. unfold mbind, M_bind. by rewrite H1.
Qed.
End sched.
