(* ===== verification/ProcFacts.v ===== *)
(** * Creating processes: facts

    What [allocproc] and [pinit] leave in the table and on the new kernel
    stack, and what [swtch] does with it. *)

From S2P Require Import Prelude Spinlock CString Ide Bio BioFacts Layout Log LogDisk LogFacts LogSpecs Fs FsFacts FsInodes FsFiles FsDirs FsPaths FsNames File Kalloc Syscall Console Vm Mp Apic Kernel Proc Trap Sched NameTheorems.

(** Reading a field back from an updated kernel state. *)
Ltac kfields := cbn [k_cpu k_mem k_freelist k_end k_files k_lapic k_gdt ptable nextpid initproc curproc k_ticks
  set_k_cpu set_k_mem set_k_freelist set_k_files set_k_lapic set_k_gdt set_ptable set_nextpid set_initproc set_curproc
  set_k_ticks put_kmem put_fs].

Lemma find_unused_spec ps :
  match find_unused ps with
  | Some i => ∃ p, ps !! i = Some p ∧ b_state p = UNUSED ∧ ∀ j q, (j < i)%nat → ps !! j = Some q → b_state q ≠ UNUSED
  | None => Forall (λ p, b_state p ≠ UNUSED) ps
  end.
Proof.
  induction ps as [|p ps IH]; cbn [find_unused]; [done|]. case_bool_decide as Hu.
  - exists p. split_and!; [done|done|]. intros j q Hj. lia.
  - destruct (find_unused ps) as [i|]; cbn [fmap option_fmap option_map].
    + destruct IH as (q & Hq & Hs & Hb). exists q. split_and!; [done|done|]. intros [|j] r Hj Hr; cbn in Hr; [congruence|].
      eapply Hb; [|done]. lia.
    + by constructor.
Qed.

(** ** swtch *)

(** [swtch] saves the registers where the saved stack pointer finds them. *)
Lemma swtch_saves old new r m :
  let '(r', m') := swtch old new (r, m) in
  (old + 4 ≤ r_esp r - 16 ∨ r_esp r ≤ old) → 0 ≤ old →
  Forall (λ v, 0 ≤ v < 4294967296) [r_ebp r; r_ebx r; r_esi r; r_edi r; r_esp r - 16] →
  load4 m' old = r_esp r - 16 ∧ load4 m' (r_esp r - 16) = r_edi r ∧ load4 m' (r_esp r - 12) = r_esi r ∧
  load4 m' (r_esp r - 8) = r_ebx r ∧ load4 m' (r_esp r - 4) = r_ebp r ∧
  (∀ x, ¬ (r_esp r - 16 ≤ x < r_esp r) → ¬ (old ≤ x < old + 4) → m' x = m x).
Proof.
  unfold swtch, push. destruct r as [esp ebp ebx esi edi eip]. cbn [r_esp r_ebp r_ebx r_esi r_edi fst snd].
  intros Hd H0 HF. rewrite !Forall_cons in HF. destruct HF as (Hp & Hb & Hs & Hi & Hesp & _).
  replace (esp - 4 - 4 - 4 - 4) with (esp - 16) in * by lia. replace (esp - 4 - 4 - 4) with (esp - 12) by lia.
  replace (esp - 4 - 4) with (esp - 8) by lia.
  split_and!.
  - rewrite load4_store4; lia.
  - rewrite load4_store4_ne by lia. rewrite load4_store4; lia.
  - rewrite !load4_store4_ne by lia. rewrite load4_store4; lia.
  - rewrite !load4_store4_ne by lia. rewrite load4_store4; lia.
  - rewrite !load4_store4_ne by lia. rewrite load4_store4; lia.
  - intros x Hx Ho. by rewrite !store4_other by lia.
Qed.
Lemma swtch_frame old new r m r' m' x :
  swtch old new (r, m) = (r', m') → ¬ (r_esp r - 16 ≤ x < r_esp r) → ¬ (old ≤ x < old + 4) → m' x = m x.
Proof.
  intros Hs Hx Ho. assert (m' = (swtch old new (r, m)).2) as -> by (by rewrite Hs).
  unfold swtch, push. cbn. by rewrite !store4_other by lia.
Qed.
(** It loads the registers the new stack has, when the two do not overlap. *)
Lemma swtch_loads old new r m r' m' :
  swtch old new (r, m) = (r', m') →
  (new + 20 ≤ r_esp r - 16 ∨ r_esp r ≤ new) → (new + 20 ≤ old ∨ old + 4 ≤ new) →
  r' = mk_regs (new + 20) (load4 m (new + 12)) (load4 m (new + 8)) (load4 m (new + 4)) (load4 m new) (load4 m (new + 16)).
Proof.
  unfold swtch, push. destruct r as [esp ebp ebx esi edi eip]. cbn [r_esp r_ebp r_ebx r_esi r_edi fst snd].
  intros [= <- _] Hd Ho. by rewrite !load4_store4_ne by lia.
Qed.

Section alloc.
Context {D U L : Type} {dev : IdeDevice D} {udev : Uart U} {ldev : LapicDevice L}.
Context (trapret forkret_at initcode_start initcode_size : Z).
Abbreviation kern := (kern D U L).
Implicit Types k : kern.

(** The new entry, and the stack that makes its first switch return into
    [forkret] and from there into [trapret]. *)
Record embryo (pid offset : Z) (p : pcb) : Prop := {
  em_state : b_state p = EMBRYO;
  em_pid : b_pid p = pid;
  em_offset : b_offset p = offset;
  em_sz : b_sz p = PGSIZE - KSTACKSIZE;
  em_kstack : b_kstack p = offset + PGSIZE - KSTACKSIZE;
  em_tf : b_tf p = offset + PGSIZE - TF_SIZE;
  em_context : b_context p = b_tf p - 4 - CTX_SIZE;
  em_kctx : b_kctx p = KFresh;
}.
Definition new_stack (m : mem) (p : pcb) : Prop :=
  load4 m (b_tf p - 4) = trapret ∧ load4 m (b_context p + 16) = forkret_at ∧
  load4 m (b_context p) = 0 ∧ load4 m (b_context p + 4) = 0 ∧ load4 m (b_context p + 8) = 0 ∧ load4 m (b_context p + 12) = 0.

Lemma new_stack_ext m m' p p' : new_stack m p → b_tf p' = b_tf p → b_context p' = b_context p →
  b_context p = b_tf p - 4 - CTX_SIZE → (∀ x, b_context p ≤ x < b_tf p → m' x = m x) → new_stack m' p'.
Proof.
  intros Hn Ht Hc Hp Hm. unfold new_stack, CTX_SIZE in *. rewrite Ht, Hc.
  rewrite !(load4_frame m m') by (intros; apply Hm; lia). exact Hn.
Qed.

Lemma load4_memset m a n x : 0 ≤ n → a ≤ x → x + 4 ≤ a + n → load4 (memset m a 0 n) x = 0.
Proof. intros Hn H1 H2. unfold load4. by rewrite !memset_spec, !decide_True by lia. Qed.

Lemma stack_built m tf : 0 ≤ trapret < 4294967296 → 0 ≤ forkret_at < 4294967296 →
  ∀ p, b_tf p = tf → b_context p = tf - 4 - CTX_SIZE →
  let m' := store4 (memset (store4 m (tf - 4) trapret) (b_context p) 0 CTX_SIZE) (b_context p + 16) forkret_at in
  new_stack m' p ∧ ∀ x, ¬ (b_context p ≤ x < tf) → m' x = m x.
Proof.
  intros Ht Hf p Htf Hc m'. unfold m', new_stack, CTX_SIZE in *. rewrite Htf. split.
  - split_and!.
    + rewrite load4_store4_ne by lia. rewrite (load4_frame (store4 m (tf - 4) trapret)) by
        (intros x Hx; rewrite memset_spec, decide_False by lia; done). by apply load4_store4.
    + by apply load4_store4.
    + rewrite load4_store4_ne by lia. apply load4_memset; lia.
    + rewrite load4_store4_ne by lia. apply load4_memset; lia.
    + rewrite load4_store4_ne by lia. apply load4_memset; lia.
    + rewrite load4_store4_ne by lia. apply load4_memset; lia.
  - intros x Hx. by rewrite store4_other, memset_spec, decide_False, store4_other by lia.
Qed.

(** Writing inside a page that was taken keeps the free list. *)
Lemma kmem_inv_page on s m' l pg e : kmem_inv on s l → kend s = e → page_ok e pg → pg ∉ l →
  (∀ x, ¬ (pg ≤ x < pg + PGSIZE) → m' x = kmemory s x) → kmem_inv on (set_kmemory m' s) l.
Proof.
  intros [Hc Hch Hp Hn] <- Hpg Hni Hm. constructor; cbn [kcpu kmemory freelist kend set_kmemory]; try done.
  eapply chain_frame; [exact Hch|]. intros q x Hq Hx. apply Hm. intros Hx'. rewrite Forall_forall in Hp.
  eapply (pages_disjoint (kend s) pg q x); [done|by apply Hp|intros ->; done|done|]. pose proof PGSIZE_eq. lia.
Qed.

(** The rest of the kernel is not touched. *)
Definition same_rest k k' : Prop :=
  k_files k' = k_files k ∧ k_lapic k' = k_lapic k ∧ k_gdt k' = k_gdt k ∧ initproc k' = initproc k ∧
  curproc k' = curproc k ∧ k_ticks k' = k_ticks k ∧ k_end k' = k_end k.

Lemma wp_allocproc on E pg l i p (Q : option nat → kern → Prop) k :
  kmem_inv on (k_kmem k) (pg :: l) → find_unused (ptable k) = Some i → ptable k !! i = Some p →
  0 ≤ trapret < 4294967296 → 0 ≤ forkret_at < 4294967296 →
  (∀ k' p', kmem_inv on (k_kmem k') l → embryo (nextpid k) pg p' → new_stack (k_mem k') p' →
     b_ofile p' = b_ofile p → b_cwd p' = b_cwd p → b_name p' = b_name p →
     ptable k' = <[i:=p']> (ptable k) → nextpid k' = s32 (nextpid k + 1) → same_rest k k' →
     (∀ x, ¬ (b_context p' ≤ x < b_tf p') → k_mem k' x = k_mem k x) → ncli (k_cpu k') = ncli (k_cpu k) → Q (Some i) k') →
  wp E (allocproc trapret forkret_at) Q k.
Proof.
  intros Hinv Hi Hp Ht Hf HQ. unfold allocproc. pose proof Hinv as [Hcpu Hch Hpg Hnd].
  assert (i < length (ptable k))%nat as Hil by (by eapply lookup_lt_Some).
  apply Forall_cons in Hpg as [Hpage _]. apply NoDup_cons in Hnd as [Hni _]. destruct Hpage as (He & H0 & Hal & Hhi).
  apply wp_bind, wp_k_cpu. eapply wp_pushcli_sane; [exact Hcpu|]. apply wp_bind, wp_gets. cbn [ptable set_k_cpu]. rewrite Hi.
  apply wp_bind. eapply wp_mod_proc; [exact Hp|]. apply wp_bind, wp_gets. apply wp_bind. eapply wp_mod_proc; [by apply list_lookup_insert_eq|].
  apply wp_bind, wp_modify. apply wp_bind, wp_k_cpu. cbn [k_cpu set_k_cpu set_ptable set_nextpid]. apply wp_popcli_pushed; [done|].
  intros c1 Hc1 Hn1 _. apply wp_bind, wp_zoom. eapply wp_kalloc; [constructor; [exact Hc1|exact Hch|apply Hinv|apply Hinv]|].
  intros s1 Hs1 He1 Hm1 Hns1. change (first_page (pg :: l)) with pg in *. cbn [tail] in *.
  apply wp_bind. eapply wp_mod_proc; [kfields; rewrite list_insert_insert_eq; by apply list_lookup_insert_eq|].
  rewrite (proj2 (Z.eqb_neq pg 0)) by lia.
  apply wp_bind. eapply wp_mod_proc; [apply list_lookup_insert_eq; kfields; by rewrite !length_insert|].
  set (p' := place pg _). apply wp_bind. eapply wp_get_proc; [apply list_lookup_insert_eq; kfields; by rewrite !length_insert|].
  apply wp_bind, wp_modify. apply wp_bind, wp_modify. apply wp_bind, wp_modify. apply wp_ret.
  destruct (stack_built (k_mem k) (b_tf p') Ht Hf p' eq_refl eq_refl) as [Hns Hout].
  kfields. rewrite Hm1. apply (HQ _ p'); kfields; try done.
  - change (kend s1 = k_end k) in He1.
    match goal with |- kmem_inv _ ?x _ => replace x with (set_kmemory (kmemory x) s1) end.
    2: { unfold k_kmem, set_kmemory. kfields. by rewrite <- He1. }
    apply (kmem_inv_page on s1 _ l pg (k_end k)); [done|done|done|done|]. rewrite Hm1. intros x Hx. apply Hout.
    unfold p', place, CTX_SIZE, TF_SIZE in *. cbn. pose proof PGSIZE_eq. lia.
  - by rewrite !list_insert_insert_eq.
  - rewrite Hns1. exact Hn1.
Qed.

(** ** The first process *)
Definition first_regs : uregs :=
  mk_uregs 0 0 0 0 0 0 0 0 0 0x23 0x23 0 0x1b FL_IF (PGSIZE - KSTACKSIZE) 0x23.
(** The frame [pinit] fills in. *)
Definition pinit_frame (m : mem) (tf : Z) : mem :=
  store4 (store4 (store4 (store2 (store2 (store2 (store2 (memset m tf 0 TF_SIZE)
    (tf + 60) (Z.lor (Z.shiftl SEG_UCODE 3) DPL_USER)) (tf + 44) (Z.lor (Z.shiftl SEG_UDATA 3) DPL_USER))
    (tf + 40) (Z.lor (Z.shiftl SEG_UDATA 3) DPL_USER)) (tf + 72) (Z.lor (Z.shiftl SEG_UDATA 3) DPL_USER))
    (tf + 64) FL_IF) (tf + 68) (PGSIZE - KSTACKSIZE)) (tf + 56) 0.

Lemma store2_other m a v x : ¬ (a ≤ x < a + 2) → store2 m a v x = m x.
Proof. intros Hx. unfold store2. by rewrite !store_spec, !decide_False by lia. Qed.
Lemma load2_store2 m a v : 0 ≤ v < 65536 → load2 (store2 m a v) a = v.
Proof.
  intros Hv. unfold load2, store2. rewrite !store_spec. repeat (first [rewrite decide_True by lia|rewrite decide_False by lia]).
  unfold u8. rewrite Z.shiftr_div_pow2 by lia. change (2 ^ 8) with 256. pose proof (Z_div_mod_eq_full v 256).
  rewrite (Z.mod_small (v / 256)); [lia|]. split; [apply Z.div_pos; lia|apply Z.div_lt_upper_bound; lia].
Qed.
Lemma load2_store2_ne m a b v : (b + 2 ≤ a ∨ a + 2 ≤ b) → load2 (store2 m b v) a = load2 m a.
Proof. intros Hd. unfold load2. by rewrite !store2_other by lia. Qed.
Lemma load4_store2_ne m a b v : (b + 2 ≤ a ∨ a + 4 ≤ b) → load4 (store2 m b v) a = load4 m a.
Proof. intros Hd. apply load4_frame. intros x Hx. apply store2_other. lia. Qed.
Lemma load2_memset m a n x : 0 ≤ n → a ≤ x → x + 2 ≤ a + n → load2 (memset m a 0 n) x = 0.
Proof. intros Hn H1 H2. unfold load2. by rewrite !memset_spec, !decide_True by lia. Qed.

Lemma pinit_frame_regs m tf : trapret_frame (pinit_frame m tf) tf = first_regs.
Proof.
  unfold trapret_frame, pinit_frame, first_regs. f_equal;
  repeat first [rewrite load4_store4_ne by lia|rewrite load2_store4_ne by lia|rewrite load4_store2_ne by lia|rewrite load2_store2_ne by lia
    |rewrite load4_store4 by done|rewrite load2_store2 by done
    |rewrite load4_memset by (unfold TF_SIZE; lia)|rewrite load2_memset by (unfold TF_SIZE; lia)]; done.
Qed.
Lemma pinit_frame_other m tf x : ¬ (tf ≤ x < tf + TF_SIZE) → pinit_frame m tf x = m x.
Proof.
  intros Hx. unfold pinit_frame, TF_SIZE in *. rewrite !store4_other, !store2_other by lia.
  by rewrite memset_spec, decide_False by lia.
Qed.

(** A process that the scheduler can switch to for the first time. *)
Record started (pid offset : Z) (m : mem) (p : pcb) : Prop := {
  sd_state : b_state p = RUNNABLE;
  sd_pid : b_pid p = pid;
  sd_offset : b_offset p = offset;
  sd_sz : b_sz p = PGSIZE - KSTACKSIZE;
  sd_kstack : b_kstack p = offset + PGSIZE - KSTACKSIZE;
  sd_tf : b_tf p = offset + PGSIZE - TF_SIZE;
  sd_context : b_context p = b_tf p - 4 - CTX_SIZE;
  sd_kctx : b_kctx p = KFresh;
  sd_stack : new_stack m p;
  sd_regs : trapret_frame m (b_tf p) = first_regs;
}.

Context {dok : IdeDeviceOk D}.
Context (V : disk) (sb : superblock).

Lemma reading_cpu (s : fss D (con U)) c H Lg R :
  reading V sb s H Lg R → cpu_idle c → reading V sb (set_fs_cpu c s) H Lg R.
Proof.
  intros [Hinv Hsb HV Hsy] Hc. constructor; try done. by apply fs_inv_cpu.
Qed.

Lemma kmem_inv_after k k' l pg :
  kmem_inv true (k_kmem k) l → k_end k' = k_end k → k_freelist k' = k_freelist k → cpu_idle (k_cpu k') →
  page_ok (k_end k) pg → pg ∉ l → (∀ x, ¬ (pg ≤ x < pg + PGSIZE) → k_mem k' x = k_mem k x) → kmem_inv true (k_kmem k') l.
Proof.
  intros Hk He Hfl Hc Hpg Hni Hm. destruct (kmem_inv_page true (k_kmem k) (k_mem k') l pg (k_end k) Hk eq_refl Hpg Hni Hm) as [_ H2 H3 H4].
  unfold k_kmem in *. constructor; cbn [kcpu kmemory freelist kend set_kmemory] in *; [|by rewrite Hfl|by rewrite He|done].
  split; [by apply cpu_idle_wf|]. destruct Hc as [-> _]. lia.
Qed.

Lemma wp_pinit E fuel name pg l i p H Lg R (Q : unit → kern → Prop) k :
  kmem_inv true (k_kmem k) (pg :: l) → cpu_idle (k_cpu k) → find_unused (ptable k) = Some i → ptable k !! i = Some p →
  0 ≤ trapret < 4294967296 → 0 ≤ forkret_at < 4294967296 →
  0 ≤ initcode_size ≤ PGSIZE - KSTACKSIZE → initcode_start + initcode_size ≤ k_end k →
  tree_ok V sb → linked V sb ROOTINO → reading V sb (k_fs k) H Lg R →
  (length H + length Lg < NBUF)%nat → (S (length R) < NINODE)%nat → bytes name → length name = DIRSIZ →
  (∀ k' p' cwd, ptable k' = <[i:=p']> (ptable k) → started (nextpid k) pg (k_mem k') p' →
     initproc k' = Some i → nextpid k' = s32 (nextpid k + 1) →
     kmem_inv true (k_kmem k') l → cpu_idle (k_cpu k') → curproc k' = curproc k → k_end k' = k_end k →
     b_cwd p' = Some cwd → slot_of (k_fs k') cwd ROOTINO → reading V sb (k_fs k') H Lg (cwd :: R) →
     (∀ x, 0 ≤ x < initcode_size → k_mem k' (pg + x) = k_mem k (initcode_start + x)) →
     (∀ x, ¬ (pg ≤ x < pg + PGSIZE) → k_mem k' x = k_mem k x) →
     k_lapic k' = k_lapic k ∧ k_gdt k' = k_gdt k → Q tt k') →
  wp E (pinit trapret forkret_at initcode_start initcode_size fuel name) Q k.
Proof.
  intros Hkm Hidle Hfind Hp Ht Hf Hsz Hstart Htree Hroot Hrd Hb HR Hbn Hln HQ. unfold pinit.
  pose proof Hkm as [_ _ Hpg Hnd]. apply Forall_cons in Hpg as [Hpage _]. apply NoDup_cons in Hnd as [Hni _].
  pose proof Hpage as (He & H0 & Hal & Hhi). change (k_end k ≤ pg) in He. pose proof PGSIZE_eq as HP. unfold KSTACKSIZE in *.
  assert (i < length (ptable k))%nat as Hil by (by eapply lookup_lt_Some).
  apply wp_bind. eapply wp_allocproc; [done..|]. intros k1 p1 Hkm1 [E1 E2 E3 E4 E5 E6 E7 E8] Hns1 Hof Hcw Hnm Hps1 Hnp1 Hrest1 Hm1 Hn1.
  destruct Hrest1 as (R1 & R2 & R3 & R4 & R5 & R6 & R7). unfold KSTACKSIZE, TF_SIZE, CTX_SIZE in *.
  apply wp_bind, wp_modify. assert (∀ q, <[i:=q]> (ptable k1) !! i = Some q) as Hli by (intros; apply list_lookup_insert_eq; by rewrite Hps1, length_insert).
  assert (ptable k1 !! i = Some p1) as Hp1 by (rewrite Hps1; by apply list_lookup_insert_eq).
  apply wp_bind. eapply wp_get_proc; [exact Hp1|]. do 9 (apply wp_bind, wp_modify). kfields.
  rewrite s32_small by lia. set (m1 := memmove (k_mem k1) (b_offset p1) initcode_start initcode_size).
  match goal with |- wp _ _ _ ?x => set (m2 := k_mem x); change x with (set_k_mem m2 (set_initproc (Some i) k1)) end.
  change m2 with (pinit_frame m1 (b_tf p1)) in *. clear m2. set (m2 := pinit_frame m1 (b_tf p1)).
  apply wp_bind. eapply wp_mod_proc; [exact Hp1|]. kfields. set (p2 := set_name _ p1).
  apply wp_bind, wp_gets. kfields. apply wp_bind, wp_zoom. unfold namei. apply wp_bind.
  assert (cpu_idle (k_cpu k1)) as Hidle1.
  { destruct Hidle as [Hn0 _]. destruct (ki_cpu _ _ _ Hkm1) as [[[? ?]|(? & _)] _]; cbn in *; [by split|lia]. }
  assert (reading V sb (k_fs k1) H Lg R) as Hrd1.
  { unfold k_fs. rewrite R1. apply (reading_cpu (k_fs k)); done. }
  change [47; 0] with ([47] ++ 0 :: []). eapply (wp_namex _ V sb E [47] []); [done|done|exact Hrd1|done|done|set_solver| |done|done| |].
  { repeat constructor; lia. }
  2: { intros Hno. discriminate Hno. }
  intros m Hm j name' s' Hrd' _ Hsl _ _. injection Hm as <-. apply wp_ret.
  apply wp_bind. eapply wp_mod_proc; [apply Hli|]. eapply wp_mod_proc; [apply list_lookup_insert_eq; kfields; rewrite Hps1, !length_insert; done|].
  kfields. match goal with |- Q tt ?x => set (k' := x) end.
  assert (k_fs k' = s') as Hfs by (by destruct s' as [[[] ?] ? ? ?]).
  assert (∀ x, ¬ (pg ≤ x < pg + PGSIZE) → m2 x = k_mem k x) as Hout.
  { intros x Hx. unfold m2, m1. rewrite pinit_frame_other, memmove_spec, decide_False, Hm1 by (unfold TF_SIZE; lia). done. }
  apply (HQ k' (set_state RUNNABLE (set_cwd (Some j) p2)) j); try done.
  - unfold k'. kfields. by rewrite Hps1, !list_insert_insert_eq.
  - constructor; try done; [|apply pinit_frame_regs].
    apply (new_stack_ext (k_mem k1) _ p1); [exact Hns1|done|done|unfold CTX_SIZE; lia|]. intros x Hx.
    change (k_mem k' x) with (m2 x). unfold m2, m1. by rewrite pinit_frame_other, memmove_spec, decide_False by (unfold TF_SIZE; lia).
  - apply (kmem_inv_after k1 k' l pg); [done|done|done| |by rewrite R7|done|].
    { apply (bi_cpu _ _ _ (li_bio _ _ _ (fi_log _ _ _ _ (rd_inv _ _ _ _ _ _ Hrd')))). }
    intros x Hx. change (k_mem k' x) with (m2 x). rewrite Hout, Hm1 by lia. done.
  - apply (bi_cpu _ _ _ (li_bio _ _ _ (fi_log _ _ _ _ (rd_inv _ _ _ _ _ _ Hrd')))).
  - by rewrite Hfs.
  - intros x Hx. change (k_mem k' (pg + x)) with (m2 (pg + x)). unfold m2, m1.
    rewrite pinit_frame_other, memmove_spec, decide_True, Hm1 by (unfold TF_SIZE; lia). f_equal. lia.
Qed.
End alloc.
