(* ===== verification/MainFacts.v ===== *)
(** * main.c: facts

    The start of the machine in its phases: with interrupts off, the drivers
    and the buffer cache; with interrupts on, the file system. *)

From S2P Require Import Prelude Spinlock CString Ide Bio BioFacts Layout Log LogDisk LogFacts LogSpecs LogCrash Fs FsFacts FsInodes FsFiles FsTable FsWrite FsWritei FsDirs FsLink FsPaths FsNames FsTree FsNodes File FileFacts FileCreate FileTxn Boot Kalloc Syscall Console ConsoleFacts Vm Mp Apic Kernel Proc Trap Sched ProcFacts Main.

(** What the probes of the start rely on: a drive that is there answers a
    status read with something else than 0, a serial chip that is there with
    something else than 0xFF, and the first changes nothing. *)
Class DrivePresent (D : Type) {dev : IdeDevice D} {dok : IdeDeviceOk D} :=
  status_read (d : D) : (dev_inb 0x1f7 d).1 ≠ 0 ∧ drive_same d (dev_inb 0x1f7 d).2.
Class ChipPresent (U : Type) {udev : Uart U} :=
  line_status (u : U) : (uart_inb (COM1 + 5) u).1 ≠ 0xFF.

Section drives.
Context {D : Type} {dev : IdeDevice D} {dok : IdeDeviceOk D} {dpr : DrivePresent D}.

(** [ideinit] finds the second drive and leaves the rest alone. *)
Lemma wp_ideinit_drives E (Q : unit → ide D → Prop) s :
  (∀ d, (∀ v b, media d v b = media (hw s) v b) → dphase d = dphase (hw s) →
     Q tt (mk_ide (icpu s) (bufs s) (idequeue s) 1 d (wrote s))) →
  wp E ideinit_drives Q s.
Proof.
  intros HQ. unfold ideinit_drives. apply wp_bind, wp_idewait. intros d1 (M1 & _ & P1).
  apply wp_bind, wp_modify. cbn [hw set_hw].
  destruct (outb_task d1 0x1f6 (u8 (Z.lor 0xe0 (Z.shiftl 1 4)))) as (M2 & _ & P2); [lia|].
  set (d2 := dev_outb _ _ d1) in *. apply wp_bind. cbn [ideinit_probe]. apply wp_bind. unfold inb at 1. unfold wp at 1. cbn [hw set_hw].
  destruct (status_read d2) as [Hr (M3 & _ & P3)]. destruct (dev_inb 0x1f7 d2) as [r d3]. cbn [fst snd] in *.
  rewrite (proj2 (Z.eqb_neq _ _) Hr). cbn [negb]. apply wp_modify. apply wp_modify. cbn [hw set_hw set_havedisk1].
  destruct (outb_task d3 0x1f6 (u8 (Z.lor 0xe0 (Z.shiftl 0 4)))) as (M4 & _ & P4); [lia|].
  apply HQ; [intros v b; by rewrite M4, M3, M2, M1|congruence].
Qed.
End drives.

Section chip.
Context {U : Type} {udev : Uart U} {cpr : ChipPresent U}.

Lemma wp_uartinit_probe E (Q : bool → con U → Prop) s :
  (∀ s', ccpu s' = ccpu s → Q true s') → wp E uartinit_probe Q s.
Proof.
  intros HQ. unfold uartinit_probe. do 7 (apply wp_bind, wp_u_outb_quiet; intros ? [? ->]).
  apply wp_bind. unfold wp, u_inb. match goal with |- context [uart_inb _ ?x] => pose proof (line_status x) as Hl end.
  destruct (uart_inb _ _) as [r u]. cbn [fst] in Hl. rewrite (proj2 (Z.eqb_neq _ _) Hl).
  apply wp_bind, wp_modify. do 2 (apply wp_bind, wp_u_inb_quiet; intros ? ? [? ->]). apply wp_ret. by apply HQ.
Qed.
End chip.

(** ** The phases *)
Section phases.
Context {D U L : Type} {dev : IdeDevice D} {udev : Uart U} {ldev : LapicDevice L}.
Context {dok : IdeDeviceOk D} {dpr : DrivePresent D} {cpr : ChipPresent U}.
Abbreviation kern := (kern D U L).
Implicit Types k : kern.

(** The file system's part of the data segment as the loader leaves it, with
    [P] on the disk. *)
Record fs_start (P : disk) (s : fss D (con U)) : Prop := {
  st_bufs : bufs (fio s) = replicate (S NBUF) zero_buf;
  st_queue : idequeue (fio s) = None;
  st_phase : dphase (hw (fio s)) = Idle;
  st_media b : platter (fio s) b = P b;
  st_log : lg (flog s) = zero_log;
  st_icache : icache s = replicate NINODE zero_inode;
}.

(** Everything but the disk, which [main] keeps up to its last calls. *)
Record kept k0 k (pages : list Z) : Prop := {
  kp_chain : chain (k_mem k) (k_freelist k) pages;
  kp_pages : Forall (page_ok (k_end k)) pages;
  kp_nodup : NoDup pages;
  kp_mem x : x < PGROUNDUP (k_end k0) → k_mem k x = k_mem k0 x;
  kp_end : k_end k = k_end k0;
  kp_ptable : ptable k = ptable k0;
  kp_nextpid : nextpid k = nextpid k0;
}.
Definition cpu_off (c : cpu) : Prop := ncli c = 0 ∧ irq_on c = false.
Lemma cpu_off_sane c : cpu_off c → cpu_sane false c.
Proof. intros [H0 H1]. split; [by left|lia]. Qed.
Lemma cpu_idle_sane c : cpu_idle c → cpu_sane true c.
Proof. intros [H0 H1]. split; [by left|lia]. Qed.
Lemma kept_kmem on k0 k pages : kept k0 k pages → cpu_sane on (k_cpu k) → kmem_inv on (k_kmem k) pages.
Proof. intros [] Hc. by constructor. Qed.
(** The file system and the controllers are not part of it. *)
Lemma kept_fs k0 k pages s c : kept k0 k pages → kept k0 (set_k_cpu c (set_k_files s k)) pages.
Proof. intros []. by constructor. Qed.

(** Up to [binit]: interrupts are off. *)
Record early k0 k (pages : list Z) (P : disk) : Prop := {
  el_cpu : cpu_off (k_cpu k);
  el_kept : kept k0 k pages;
  el_fs : fs_start P (ffs (k_files k));
}.

(** The pages main.c frees. *)
Definition boot_pages (e : Z) : list Z := reverse (range_pages (PGROUNDUP e) (Z.to_nat ((P2V PHYSTOP - PGROUNDUP e) / PGSIZE))).

Lemma wp_boot_kinit E P (Q : unit → kern → Prop) k :
  cpu_off (k_cpu k) → k_freelist k = 0 → 0 < k_end k ≤ PHYSTOP → fs_start P (ffs (k_files k)) →
  (∀ k', early k k' (boot_pages (k_end k)) P → k_lapic k' = k_lapic k → Q tt k') →
  wp E (k_do_kmem (kinit (k_end k) (P2V PHYSTOP))) Q k.
Proof.
  intros Hc Hf He Hfs HQ. apply wp_zoom. pose proof PGSIZE_eq as HP. change (P2V PHYSTOP) with PHYSTOP. unfold PHYSTOP in *.
  eapply (wp_kinit false); [|change (kend (k_kmem k)) with (k_end k); lia|lia|lia|].
  - constructor; [by apply cpu_off_sane|done|by apply Forall_nil|apply NoDup_nil_2].
  - intros s' [Hc' Hch Hpg Hnd] He' Hm Hn. apply HQ; [|done]. constructor.
    + destruct Hc' as [Hwf _], Hc as [H0 _]. cbn in Hn, Hwf |- *. destruct Hwf as [?|[? _]]; [done|lia].
    + rewrite He' in Hpg. by constructor.
    + exact Hfs.
Qed.

Lemma early_con k0 k pages P s : early k0 k pages P → cpu_off (ccpu s) → early k0 (put_fs (put_con s (k_fs k)) k) pages P.
Proof. intros [Hc Hk [H1 H2 H3 H4 H5 H6]] Hs. constructor; [exact Hs|by apply kept_fs|]. by constructor. Qed.
Lemma early_con_cpu k0 k pages P : early k0 k pages P → cpu_off (ccpu (fs_con (k_fs k))).
Proof. intros [Hc _ _]. exact Hc. Qed.

Lemma wp_early_cprintf E k0 pages P fmt ws (Q : unit → kern → Prop) k :
  early k0 k pages P → words_fmt fmt (length ws) = true →
  (∀ k', early k0 k' pages P → k_lapic k' = k_lapic k → Q tt k') →
  wp E (k_do_con (cprintf (Some fmt) (AWord <$> ws))) Q k.
Proof.
  intros He Hf HQ. pose proof (early_con_cpu _ _ _ _ He) as Hc. apply wp_zoom, wp_zoom.
  eapply (wp_cprintf_quiet false); [done|by apply cpu_off_sane|].
  intros c s' [u ->] _ Hn Hi. apply HQ; [|done]. destruct Hc as [Hc1 Hc2]. apply early_con; [done|]. split; [exact (eq_trans Hn Hc1)|exact (eq_trans Hi Hc2)].
Qed.
Lemma wp_early_probe E k0 pages P (Q : bool → kern → Prop) k :
  early k0 k pages P → (∀ k', early k0 k' pages P → k_lapic k' = k_lapic k → Q true k') → wp E (k_do_con uartinit_probe) Q k.
Proof.
  intros He HQ. pose proof (early_con_cpu _ _ _ _ He) as Hc. apply wp_zoom, wp_zoom, wp_uartinit_probe.
  intros s' Hs'. apply HQ; [|done]. apply early_con; [done|]. by rewrite Hs'.
Qed.
Lemma wp_early_announce E k0 pages P (Q : unit → kern → Prop) k :
  early k0 k pages P → (∀ k', early k0 k' pages P → k_lapic k' = k_lapic k → Q tt k') → wp E (k_do_con uartinit_announce) Q k.
Proof.
  intros He HQ. pose proof (early_con_cpu _ _ _ _ He) as Hc. apply wp_zoom, wp_zoom, wp_uart_puts_quiet.
  intros s' [u ->]. apply HQ; [|done]. by apply early_con.
Qed.

(** The buffer cache, in order once interrupts are on. *)
Lemma wp_early_disk E k0 pages P (Q : unit → kern → Prop) k :
  early k0 k pages P →
  (∀ k', early k0 k' pages P → havedisk1 (fio (ffs (k_files k'))) = 1 → k_lapic k' = k_lapic k → Q tt k') →
  wp E (k_do_fs (dio ideinit_drives)) Q k.
Proof.
  intros [Hc Hk [H1 H2 H3 H4 H5 H6]] HQ. apply wp_zoom, wp_zoom, wp_zoom, wp_ideinit_drives. intros d Hd Hp. apply HQ; [|done|done].
  constructor; [exact Hc|by apply kept_fs|]. constructor; try done.
  - exact (eq_trans Hp H3).
  - intros b. rewrite <- H4. apply Hd.
Qed.

Record late k0 k (pages : list Z) (P : disk) : Prop := {
  lt_cpu : cpu_idle (k_cpu k);
  lt_kept : kept k0 k pages;
  lt_bio : bio_inv (fio (k_fs k)) [] [];
  lt_view b : view (fio (k_fs k)) b = P b;
  lt_log : lg (flog (k_fs k)) = zero_log;
  lt_icache : icache (k_fs k) = replicate NINODE zero_inode;
}.
Lemma wp_early_binit E k0 pages P (Q : unit → kern → Prop) k :
  early k0 k pages P → havedisk1 (fio (ffs (k_files k))) = 1 →
  (∀ k', (∀ c, cpu_idle c → late k0 (set_k_cpu c k') pages P) → k_cpu k' = k_cpu k → k_lapic k' = k_lapic k → Q tt k') →
  wp E (k_do_fs (dio binit)) Q k.
Proof.
  intros [Hc Hk [H1 H2 H3 H4 H5 H6]] Hd HQ. apply wp_zoom, wp_zoom, wp_zoom, wp_binit_boot; try done.
  { change (havedisk1 (fio (ffs (k_files k))) ≠ 0). lia. }
  intros s' Hc' Hinv HV _ _ _. apply HQ; [|exact Hc'|done].
  intros c Hidle. constructor; try done.
  - by destruct Hk.
  - by apply Hinv.
  - intros b. rewrite <- H4. apply HV.
Qed.

(** [fileinit] does nothing. *)
Lemma late_fls k0 k pages P c : late k0 (set_k_cpu c k) pages P → late k0 (set_k_cpu c (put_fls (k_fls k) k)) pages P.
Proof. intros [? [] ? ? ? ?]. by constructor. Qed.
Lemma late_con k0 k pages P s : late k0 k pages P → cpu_idle (ccpu s) →
  late k0 (put_fs (put_con s (k_fs k)) k) pages P ∧ fsb (k_fs (put_fs (put_con s (k_fs k)) k)) = fsb (k_fs k).
Proof.
  intros [Hc Hk Hb Hv Hl Hi] Hs. split; [|done]. constructor; try done.
  - by apply kept_fs.
  - by apply (set_icpu_inv (fio (k_fs k))).
Qed.

(** [iinit] reads the superblock and prints it. *)
Lemma wp_late_iinit E k0 pages P (Q : unit → kern → Prop) k :
  late k0 k pages P →
  (∀ k', late k0 k' pages P → fsb (k_fs k') = dec_superblock (P 1) → k_lapic k' = k_lapic k → Q tt k') →
  wp E (iinit ROOTDEV) Q k.
Proof.
  intros [Hc Hk Hb Hv Hl Hi] HQ. unfold iinit. apply wp_bind, wp_zoom. unfold iinit_sb. apply wp_bind, wp_zoom, wp_zoom.
  eapply wp_readsb; [exact Hb|cbn; unfold NBUF; lia|]. intros c' Hb' Hio. apply wp_modify.
  rewrite Hv. set (k1 := put_fs _ k).
  assert (late k0 k1 pages P ∧ fsb (k_fs k1) = dec_superblock (P 1) ∧ k_lapic k1 = k_lapic k) as (Hk1 & Hsb & Hla).
  { split_and!; [|done|done]. constructor; try done; [apply Hb'|by apply kept_fs|apply (set_icpu_inv c'); [done|apply Hb']|].
    intros b. rewrite <- Hv. apply Hio. }
  clearbody k1. apply wp_bind, wp_gets. apply wp_zoom, wp_zoom.
  eapply (wp_cprintf_quiet true); [vm_compute; reflexivity|apply cpu_idle_sane, Hk1|].
  intros c s' [u ->] _ Hn Hirq. pose proof (lt_cpu _ _ _ _ Hk1) as [Hi1 Hi2].
  destruct (late_con k0 k1 pages P (set_ccpu c (set_uhw u (fs_con (k_fs k1)))) Hk1) as [Hl' Hs'].
  { split; [exact (eq_trans Hn Hi1)|exact (eq_trans Hirq Hi2)]. }
  apply HQ; [exact Hl'|by rewrite Hs'|exact Hla].
Qed.
End phases.

(** ** The file system at the start *)
Section files.
Context {D U L : Type} {dev : IdeDevice D} {udev : Uart U} {ldev : LapicDevice L} {dok : IdeDeviceOk D}.
Abbreviation kern := (kern D U L).
Implicit Types k : kern.

(** A disk the kernel starts from, perhaps after a power failure: [V], the
    blocks once the log is recovered, hold a whole tree; unless "console" is in
    it there is space for it in the root directory. *)
Definition recovered (P : disk) (sb : superblock) : disk := recover (s32 (sb_logstart sb)) P.
Definition console_path : list (list Z) := [chars "console"].
Record boot_disk (P : disk) (sb : superblock) : Prop := {
  bd_sb : dec_superblock (P 1) = sb;
  bd_lgeom : log_geom (boot_log sb zero_log);
  bd_log : disk_ok (s32 (sb_logstart sb)) (s32 (sb_nlog sb)) P;
  bd_geom : geom_ok sb (boot_log sb zero_log);
  bd_tree : tree sb (recovered P sb);
  bd_meta b : 0 ≤ b ≤ sb_bmapstart sb → used (recovered P sb) sb b = true;
  bd_root : linked (recovered P sb) sb ROOTINO;
  bd_dir : di_type (inode_at (recovered P sb) sb ROOTINO) = T_DIR;
  bd_space : resolve (recovered P sb) sb false console_path ROOTINO = None → has_space (recovered P sb) sb ROOTINO;
  bd_size : 24 < s32 (sb_nlog sb);
}.

Lemma k_fs_put (s : fss D (con U)) k : k_fs (put_fs s k) = s.
Proof. by destruct s as [[[] ?] ? ? ?]. Qed.

(** The kernel with its file system up, reading as [V]. *)
Record mounted k0 k (pages : list Z) (sb : superblock) : Prop := {
  mo_cpu : cpu_idle (k_cpu k);
  mo_kept : kept k0 k pages;
  mo_good : fs_good (k_fs k) [] [] [];
  mo_sb : fsb (k_fs k) = sb;
}.
Lemma mounted_cpu (s : fss D (con U)) : fs_good s [] [] [] → cpu_idle (fs_cpu s).
Proof. intros Hg. apply (bi_cpu _ _ _ (li_bio _ _ _ (fi_log _ _ _ _ (fg_inv _ _ _ _ Hg)))). Qed.

Lemma wp_late_initlog E k0 pages P sb (Q : unit → kern → Prop) k :
  late k0 k pages P → boot_disk P sb → fsb (k_fs k) = sb →
  (∀ k', mounted k0 k' pages sb → (∀ b, fview (k_fs k') b = recovered P sb b) →
     sb_current (fio (k_fs k')) (lg (flog (k_fs k'))) → log_size (lg (flog (k_fs k'))) = s32 (sb_nlog sb) → k_lapic k' = k_lapic k → Q tt k') →
  wp E (k_do_fs (lo (initlog ROOTDEV))) Q k.
Proof.
  intros [Hc Hk Hb Hv Hl Hi] Hbd Hsb HQ. pose proof Hbd as [Bsb Blg Blog Bg Bt Bm Br Bd Bsp Bz]. apply wp_zoom, wp_zoom.
  assert (∀ b, platter (fio (k_fs k)) b = P b) as Hp.
  { intros b. rewrite <- Hv. symmetry. eapply view_clean; [exact Hb|set_solver]. }
  destruct (initlog_booted (flog (k_fs k))) as (s' & Hrun & Hinv & Hst & Hsz & _ & Hdisk); [exact Hb|rewrite Hv, Hl, Bsb; exact Blg| |].
  { rewrite Hv, Bsb. unfold disk_ok. rewrite Hp. exact Blog. }
  rewrite Hv, Hl, Bsb in *. cbn [log_start log_size boot_log set_log_dev set_log_size set_log_start] in *.
  assert (∀ b, platter (lio s') b = recovered P sb b) as HP.
  { intros b. rewrite (proj1 (Hdisk b)). apply recover_ext. exact Hp. }
  eapply wp_of_ok; [exact Hrun|]. set (t := set_flog s' (k_fs k)).
  assert (∀ b, fview t b = recovered P sb b) as HV by (intros b; etrans; [apply Hdisk|apply HP]).
  assert (fs_good t [] [] []) as Hg.
  { constructor; [constructor; [constructor| | |]| |].
    - exact Hinv.
    - cbn [fsb flog t set_flog lg]. rewrite Hsb. destruct Bg. constructor; rewrite ?Hst, ?Hsz; done.
    - change (icache t) with (icache (k_fs k)). rewrite Hi. constructor; [done|by intros i p [-> _]%lookup_replicate|by intros i p [-> _]%lookup_replicate|set_solver|].
      intros i j p q [-> _]%lookup_replicate. done.
    - done.
    - done.
    - change (icache t) with (icache (k_fs k)). rewrite Hi. by intros i p [-> _]%lookup_replicate.
    - change (fsb t) with (fsb (k_fs k)). rewrite Hsb. eapply tree_ext; [|exact Bt]. intros b. symmetry. apply HV.
    - intros b. change (fsb t) with (fsb (k_fs k)). rewrite Hsb. intros Hbb. unfold used. rewrite HV. by apply Bm. }
  apply HQ; rewrite ?k_fs_put; try done.
  - constructor; rewrite ?k_fs_put; [exact (mounted_cpu _ Hg)|by apply kept_fs|exact Hg|exact Hsb].
  - assert (platter (lio s') 1 = P 1) as H1.
    { rewrite HP. unfold recovered, recover. rewrite <- (take_ge (recovery_writes _ _) _ (Nat.le_refl _)). eapply (superblock_recovery _ (s32 (sb_nlog sb))); [|exact Blog].
      apply (lgm_start _ Blg). }
    unfold sb_current. change (fio t) with (lio s'). rewrite H1, Bsb. by split.
Qed.

(** [mknod("console")]. A path that is there already is left alone, whatever it
    leads to; otherwise it leads to a new device afterwards. *)
Definition console_made (sb : superblock) (V V' : disk) : Prop :=
  match resolve V sb false console_path ROOTINO with
  | Some n => unchanged sb V V' ∧ resolve V' sb false console_path ROOTINO = Some n
  | None => ∃ n, ¬ FsTree.live sb V n ∧ FsTree.live sb V' n ∧ made T_DEV 1 1 V' (inode_at V' sb n) n ROOTINO ∧
      resolve V' sb false console_path ROOTINO = Some n ∧ grows sb V V' ∧ others sb V V' n ROOTINO
  end.
Lemma console_made_ext sb V V0 V' V0' :
  (∀ b, V0 b = V b) → (∀ b, V0' b = V' b) → console_made sb V V' → console_made sb V0 V0'.
Proof.
  intros HV HV'. unfold console_made, FsTree.live. rewrite (resolve_ext V0 V) by done.
  assert (∀ n, inode_at V0 sb n = inode_at V sb n) as Hi by (intros n; unfold inode_at; by rewrite HV).
  assert (∀ n, inode_at V0' sb n = inode_at V' sb n) as Hi' by (intros n; unfold inode_at; by rewrite HV').
  destruct (resolve V sb false console_path ROOTINO) as [n|].
  - intros [Hu Hp]. split; [|by rewrite (resolve_ext V0' V')]. intros m Hm. rewrite Hi, Hi'. destruct (Hu m Hm) as [H1 H2]. split; [done|]. intros [_ Hl]. rewrite Hi in Hl.
    rewrite (contents_ext V0' V'), (contents_ext V0 V) by done. by apply H2.
  - intros (n & Hf & [[Hl1 Hl2] Hl3] & (M1 & M2 & M3 & M4 & M5) & Hp & Hg & Ho). exists n. unfold made. rewrite Hi, Hi', (resolve_ext V0' V') by done.
    split_and!; try done.
    + exact (grows_trans sb V0 V V0' (grows_ext sb V0 V (λ b, eq_sym (HV b))) (grows_trans sb V V' V0' Hg (grows_ext sb V' V0' HV'))).
    + exact (others_trans sb V0 V V0' _ _ (others_ext sb V0 V _ _ (λ b, eq_sym (HV b))) (others_trans sb V V' V0' _ _ Ho (others_ext sb V' V0' _ _ HV'))).
Qed.
Lemma wp_mounted_mknod E k0 pages P sb devtab name (Q : Z → kern → Prop) k :
  mounted k0 k pages sb → boot_disk P sb → (∀ b, fview (k_fs k) b = recovered P sb b) →
  sb_current (fio (k_fs k)) (lg (flog (k_fs k))) → log_size (lg (flog (k_fs k))) = s32 (sb_nlog sb) →
  bytes name → length name = DIRSIZ →
  (∀ r k', mounted k0 k' pages sb → console_made sb (fview (k_fs k)) (fview (k_fs k')) → k_lapic k' = k_lapic k → Q r k') →
  wp E (k_do_fls (mknod devtab (str "console") (Z.of_nat CONSOLE) (Z.of_nat CONSOLE) name)) Q k.
Proof.
  intros [Hc Hk Hg Hsb] [_ _ _ _ _ _ Br Bd Bsp Bz] HV Hcur Hls Hbn Hln HQ. apply wp_zoom. unfold mknod. change (str "console") with (chars "console" ++ 0 :: []).
  assert (∀ n, inode_at (fview (k_fs k)) sb n = inode_at (recovered P sb) sb n) as Hi by (intros n; unfold inode_at; by rewrite HV).
  assert (components (chars "console") = console_path) as Hcomp by (vm_compute; reflexivity).
  assert (resolve (fview (k_fs k)) sb true console_path ROOTINO = Some ROOTINO) as Hpar.
  { cbn [resolve console_path]. rewrite Hi, Bd. done. }
  assert (∀ t, fs_good t [] [] [] → fsb t = sb → mounted k0 (put_fls (set_ffs t (k_fls k)) k) pages sb ∧ k_fs (put_fls (set_ffs t (k_fls k)) k) = t) as Hput.
  { intros t Hgt Hsbt. assert (k_fs (put_fls (set_ffs t (k_fls k)) k) = t) as Heq by (by destruct t as [[[] ?] ? ? ?]).
    split; [|done]. constructor; rewrite ?Heq; [exact (mounted_cpu _ Hgt)|by apply kept_fs|done|done]. }
  eapply (wp_make devtab E (chars "console") [] T_DEV _ _ name []); change (ffs (k_fls k)) with (k_fs k); rewrite ?Hcomp, ?Hsb; try done.
  - apply (linked_ext sb (recovered P sb)); done.
  - cbn. unfold NINODE. lia.
  - apply (bool_decide_unpack _). vm_compute. exact I.
  - apply (bool_decide_unpack _). vm_compute. exact I.
  - by rewrite Hls.
  - intros d. rewrite Hpar. intros [= <-] Hno. eapply has_space_ext; [intros b; symmetry; apply HV|]. apply Bsp.
    by rewrite (resolve_ext (recovered P sb) (fview (k_fs k))).
  - intros Hno t Hgt Hu Hsbt. destruct (Hput t Hgt Hsbt) as [Hmo Heq]. apply HQ; [done| |done]. rewrite Heq. unfold console_made.
    destruct Hno as [Hno|Hno]; [congruence|]. change (ffs (k_fls k)) with (k_fs k) in Hno.
    destruct (resolve (fview (k_fs k)) sb false console_path ROOTINO) as [n|] eqn:Hn; [|congruence]. split; [done|].
    rewrite (unchanged_resolve _ _ _ Hu); [done| |apply (linked_ext sb (recovered P sb)); done]. rewrite <- Hsb. apply (tr_dirs _ _ (fg_tree _ _ _ _ Hg)).
  - intros d. rewrite Hpar. intros [= <-] Hno n t [Hgt Htx Hfr Hlv Hm Hp Hgr Ho]. rewrite Hsb in *.
    destruct (Hput t Hgt) as [Hmo Heq]; [rewrite (tx_sb _ _ Htx); exact Hsb|]. apply HQ; [done| |done]. rewrite Heq. unfold console_made. rewrite Hno.
    exists n. done.
Qed.
End files.
