(* ===== verification/MachineTheorems.v ===== *)
(** * Correctness of bringing up the machine

    The boot loader, the multiprocessor tables and the interrupt controllers,
    with hardware that satisfies the laws they rely on. *)

From S2P Require Import Prelude CString Ide Drive Kalloc Syscall Mp Apic Bootmain.

(** ** The boot loader *)
Section boot.
Context {D : Type} {dev : IdeDevice D} {dok : IdeDeviceOk D}.
Implicit Types s : boot_st D.

(** C22. [bootmain] loads the kernel. When the file on the disk has the ELF
    magic, its program headers are in its first page, and its segments lie
    above that page's place in memory and below 4 GB, in increasing order and so
    that no sector read for one reaches back into those before it, every segment ends
    up in memory at its physical address, its file bytes followed by zeroes up
    to its memory size, although whole sectors are read and spill over both
    ends; nothing else is written but that spill and the first page, and the
    loader jumps to the entry point of the header. Any file without the ELF
    magic, whatever else it holds, is refused: the loader returns, and nothing
    but the place of the first page was written. *)
Theorem bootmain_loads s :
  let f := kfile (bhw s) in
  dphase (bhw s) = Idle →
  if elf_magic f 0 =? ELF_MAGIC then
    bootable f → ∃ s', bootmain s = Ok (Some (elf_entry f 0), s') ∧ quiet s s' ∧
      (∀ i, (i < Z.to_nat (elf_phnum f 0))%nat → seg_loaded f (bmem s') (nth_seg f i)) ∧
      ∀ x, ¬ (ELF_AT ≤ x < ELF_AT + 4096) →
        (∀ i, (i < Z.to_nat (elf_phnum f 0))%nat → ¬ (seg_lo (nth_seg f i) ≤ x < seg_hi (nth_seg f i))) → bmem s' x = bmem s x
  else ∃ s', bootmain s = Ok (None, s') ∧ quiet s s' ∧ ∀ x, ¬ (ELF_AT ≤ x < ELF_AT + 4096) → bmem s' x = bmem s x.
Proof.
  intros f Hid.
  destruct (Z.eqb_spec (elf_magic f 0) ELF_MAGIC) as [Hmg|Hmg].
  - intros Hbt. destruct (wp_ok bootmain (λ r s', r = Some (elf_entry f 0) ∧ quiet s s' ∧
      (∀ i, (i < Z.to_nat (elf_phnum f 0))%nat → seg_loaded f (bmem s') (nth_seg f i)) ∧
      ∀ x, ¬ (ELF_AT ≤ x < ELF_AT + 4096) →
        (∀ i, (i < Z.to_nat (elf_phnum f 0))%nat → ¬ (seg_lo (nth_seg f i) ≤ x < seg_hi (nth_seg f i))) → bmem s' x = bmem s x) s)
      as (r & s' & Hrun & -> & ?); [|eauto].
    unfold bootmain. apply wp_read_header; [done|]. intros s1 Hq1 Hs1 Hout1. apply wp_bind, wp_gets.
    destruct (scratch_fields f _ Hs1) as (-> & _ & -> & ->). rewrite Hmg, Z.eqb_refl. cbn [negb].
    pose proof Hbt as [B1 B2 B3 _ _]. rewrite !u32_small by (rewrite ?u32_small; unfold ELF_AT; lia). apply wp_bind.
    rewrite <- Z.add_assoc. replace (elf_phoff f 0) with (elf_phoff f 0 + 32 * Z.of_nat 0) at 1 by lia.
    apply (wp_bootmain_load no_panic f); [done|lia|done|apply Hq1| |intros j; lia|].
    { intros x _. by apply quiet_kfile. }
    intros s2 Hq2 Hs2 Hall Hout2. apply wp_bind, wp_gets. apply wp_ret. destruct (scratch_fields f _ Hs2) as (_ & -> & _).
    split_and!; [done|by eapply quiet_trans|done|]. intros x Hx Hsegs. rewrite Hout2 by (intros j Hj; apply Hsegs; lia). by apply Hout1.
  - destruct (wp_ok bootmain (λ r s', r = None ∧ quiet s s' ∧ ∀ x, ¬ (ELF_AT ≤ x < ELF_AT + 4096) → bmem s' x = bmem s x) s)
      as (r & s' & Hrun & -> & ?); [|eauto].
    unfold bootmain. apply wp_read_header; [done|]. intros s1 Hq1 Hs1 Hout1. apply wp_bind, wp_gets.
    destruct (scratch_fields f _ Hs1) as (-> & _). by rewrite (proj2 (Z.eqb_neq _ _) Hmg).
Qed.
End boot.

(** A kernel of one segment of 600 bytes and 100 bytes of zeroes, loaded at
    0x100000 from offset 4096 of the file. *)
Definition demo_header : list Z :=
  [127; 69; 76; 70] ++ replicate 20 0 ++ [12; 0; 16; 0] ++ [52; 0; 0; 0] ++ replicate 12 0 ++ [1; 0] ++ replicate 6 0 ++
  [1; 0; 0; 0] ++ [0; 16; 0; 0] ++ [0; 0; 16; 0] ++ [0; 0; 16; 0] ++ [88; 2; 0; 0] ++ [188; 2; 0; 0] ++ replicate 8 0.
Definition demo_kernel : drive :=
  mk_drive ∅ Idle (<[(0, 1) := demo_header]> (<[(0, 9) := replicate 512 7]> (<[(0, 10) := replicate 88 8]> ∅))).
Definition demo_boot : boot_st drive := mk_boot_st demo_kernel (λ _, 255).

(** An empty disk. *)
Definition blank_boot : boot_st drive := mk_boot_st (mk_drive ∅ Idle ∅) (λ _, 255).

Lemma bootmain_loads_witness : (∃ s', bootmain demo_boot = Ok (Some 0x10000c, s') ∧
  bmem s' 0x100000 = 7 ∧ bmem s' 0x100257 = 8 ∧ bmem s' 0x100258 = 0 ∧ bmem s' 0x1002bb = 0 ∧ bmem s' 0x100400 = 255) ∧
  ∃ s', bootmain blank_boot = Ok (None, s') ∧ bmem s' 0x100000 = 255.
Proof.
  set (f := kfile (bhw demo_boot)). split.
  - assert (elf_magic f 0 = ELF_MAGIC ∧ elf_phnum f 0 = 1 ∧ elf_phoff f 0 = 52 ∧ elf_entry f 0 = 0x10000c ∧
      nth_seg f 0 = mk_seg 4096 0x100000 600 700 ∧ f 4096 = 7 ∧ f 4695 = 8) as (Hm & Hn & Hp & He & Hg & H1 & H2)
      by (vm_compute; split_and!; reflexivity).
    assert (∀ i, (i < 1)%nat → i = 0%nat) as Hi by lia.
    pose proof (bootmain_loads demo_boot eq_refl) as Ht. cbn zeta in Ht. fold f in Ht. rewrite Hm, Hn, He in Ht.
    destruct Ht as (s' & Hrun & _ & Hall & Hout).
    + constructor; rewrite ?Hn, ?Hp; try lia.
      intros i ->%Hi. rewrite Hg. vm_compute. split_and!; congruence.
    + destruct (Hall 0%nat) as [Hdata Hzero]; [change (Z.to_nat 1) with 1%nat; lia|]. rewrite Hg in Hdata, Hzero. cbn in Hdata, Hzero.
      exists s'. split_and!; [exact Hrun|rewrite Hdata by lia; exact H1|rewrite Hdata by lia; exact H2|apply Hzero; lia|apply Hzero; lia|].
      rewrite Hout; [reflexivity|unfold ELF_AT; lia|]. intros i ->%Hi. rewrite Hg. vm_compute. intros [_ H]. discriminate H.
  - pose proof (bootmain_loads blank_boot eq_refl) as Ht. cbn zeta in Ht.
    assert (elf_magic (kfile (bhw blank_boot)) 0 = 0) as Hm by (vm_compute; reflexivity). rewrite Hm in Ht.
    destruct Ht as (s' & Hrun & _ & Hout). exists s'. split; [exact Hrun|].
    rewrite Hout; [reflexivity|unfold ELF_AT; lia].
Defined.

(** ** The multiprocessor tables *)

(** [mpsearch1] returns the first of the candidates, 16 bytes apart, that
    has the signature and a checksum of zero; null when there is none. *)
Theorem mpsearch1_first (m : mem) a len :
  0 ≤ a → 0 ≤ len → a + len + 16 < 4294967296 →
  let valid p := load_bytes m p 4 = MP_SIG ∧ foldr Z.add 0 (load_bytes m p 16) mod 256 = 0 in
  match mpsearch1 m a len with
  | Some p => ∃ k, p = a + 16 * Z.of_nat k ∧ p < a + len ∧ valid p ∧ ∀ j, (j < k)%nat → ¬ valid (a + 16 * Z.of_nat j)
  | None => ∀ k, a + 16 * Z.of_nat k < a + len → ¬ valid (a + 16 * Z.of_nat k)
  end.
Proof.
  intros Ha Hl Hhi valid.
  assert (∀ p, is_mp m p = true ↔ valid p) as Hv.
  { intros p. unfold is_mp, valid. rewrite andb_true_iff, !Z.eqb_eq, (memcmp_lit_eq m p MP_SIG). unfold mp_sum.
    by rewrite sum_loop_bytes. }
  assert (∀ p, is_mp m p = false → ¬ valid p) as Hnv by (intros p Hp Hc%Hv; congruence).
  unfold mpsearch1. rewrite u32_small by lia.
  pose proof (Z_div_mod_eq_full len 16). pose proof (Z.mod_pos_bound len 16 ltac:(lia)).
  pose proof (mpsearch1_loop_first m (S (Z.to_nat (len / 16 + 1))) a (a + len) Ha ltac:(lia) ltac:(lia)) as Hs.
  destruct (mpsearch1_loop _ _ _ _) as [p|].
  - destruct Hs as (k & -> & Hlt & Hp & Hb). exists k. split_and!; [done|done|by apply Hv|]. intros j Hj. by apply Hnv, Hb.
  - intros k Hk. by apply Hnv, Hs.
Qed.

Section mpinit.
Context {P : Type} {pio : Ports P}.
Implicit Types s : mpst P.

(** C35. [mpinit] on a table whose entries are all known: it ends after at most
    one round per entry, records the processors in table order up to [NCPU],
    the id of the last I/O APIC and the address of the local APIC, and touches
    the ports only when the floating pointer asks for the interrupt mode
    register. *)
Theorem mpinit_reads (m : mem) fuel s conf mp es :
  mpconfig m = Some (conf, mp) → Forall entry_ok es → let bs := concat (enc_entry <$> es) in
  mem_at m (conf + 44) bs → conf_length m conf = 44 + Z.of_nat (length bs) →
  0 ≤ conf → conf + conf_length m conf + 20 < 4294967296 → (length es < fuel)%nat →
  ncpu s = 0 → length (apicids s) = Z.to_nat NCPU →
  ∃ s', mpinit m fuel s = Ok (tt, s') ∧ lapic s' = conf_lapicaddr m conf ∧
    ncpu s' = Z.min NCPU (Z.of_nat (length (procs_of es))) ∧
    take (Z.to_nat (ncpu s')) (apicids s') = take (Z.to_nat NCPU) (procs_of es) ∧
    ioapicid s' = default (ioapicid s) (last (ioapics_of es)) ∧
    (mp_imcrp m mp = 0 → ports s' = ports s).
Proof.
  intros Hc Hok bs Hm Hlen Hc0 Hhi Hf Hn Hl. eapply mpinit_run; [by constructor|done..].
Qed.

(** C40. An entry of unknown type makes [mpinit] loop for ever, however many
    rounds it is given: the walk never gets past it. The panic that was to
    report it is never reached, on any table. *)
Theorem mpinit_unknown_entry (m : mem) s conf mp es :
  mpconfig m = Some (conf, mp) → Forall entry_ok es → let bs := concat (enc_entry <$> es) in
  mem_at m (conf + 44) bs → 44 + Z.of_nat (length bs) < conf_length m conf →
  0 ≤ conf → conf + conf_length m conf + 20 < 4294967296 → ¬ known_type (m (conf + 44 + Z.of_nat (length bs))) →
  (∀ fuel, mpinit m fuel s = Hang) ∧
  ∀ m' fuel' s', mpinit m' fuel' s' ≠ Panic (A:=unit * mpst P) "Didn't find a suitable machine".
Proof.
  intros Hc Hok bs Hm Hlen Hc0 Hhi Hu. unfold bs in *. split.
  - intros fuel. unfold mpinit. rewrite Hc. munfold. rewrite !u32_small by lia.
    by rewrite (mpinit_loop_prefix m fuel (conf + 44) _ es) by (done || lia).
  - intros m' fuel' s'. unfold mpinit. destruct (mpconfig m') as [[conf' mp']|]; [|done]. munfold.
    destruct (mpinit_loop m' fuel' _ _ 1 _) as [[r s1]|msg| |] eqn:Hl; try done.
    + apply mpinit_loop_flag in Hl as ->. cbn [Z.eqb]. unfold when, mp_outb, mp_inb. munfold.
      destruct (negb _); [|done]. by destruct (port_inb _ _).
    + by apply mpinit_loop_no_panic in Hl.
Qed.
End mpinit.

(** Three processors and an I/O APIC; then the same table with an entry of
    type 9 in place of the I/O APIC. *)
Definition demo_entries : list mpentry :=
  [EProc 0 (replicate 18 0); EOther MPBUS (replicate 7 0); EProc 4 (replicate 18 0); EIoapic 2 (replicate 6 0)].
Definition demo_table (es bad : list Z) (sum : Z) : list Z :=
  [80; 67; 77; 80] ++ [Z.of_nat (44 + length (es ++ bad)); 0; 4; sum] ++ replicate 28 0 ++ [0; 0; 224; 254] ++ replicate 4 0 ++ es ++ bad.
Definition demo_pointer : list Z := [95; 77; 80; 95] ++ [0; 1; 15; 0] ++ [1; 4; 144; 0; 0; 0; 0; 0].
Definition demo_memory (table : list Z) : mem := λ x,
  if x <? 0xF0000 then 0 else default 0 ((demo_pointer ++ replicate 240 0 ++ table) !! Z.to_nat (x - 0xF0000)).
Definition bios : mem := demo_memory (demo_table (concat (enc_entry <$> demo_entries)) [] 129).
Definition bad_bios : mem := demo_memory (demo_table (concat (enc_entry <$> take 3 demo_entries)) [9; 0; 0; 0; 0; 0; 0; 0] 124).
#[global] Instance demo_ports : Ports (list (Z * Z)) := { port_inb _ q := (0, q); port_outb p v q := q ++ [(p, v)] }.
Definition demo_mpst : mpst (list (Z * Z)) := mk_mpst (replicate 8 0) 0 0 0 [].

Lemma mpsearch1_first_witness : mpsearch1 bios 0xF0000 0x100 = Some 0xF0000 ∧
  ∃ k, 0xF0000 = 0xF0000 + 16 * Z.of_nat k ∧ load_bytes bios 0xF0000 4 = MP_SIG.
Proof.
  assert (mpsearch1 bios 0xF0000 0x100 = Some 0xF0000) as Hs by (vm_compute; reflexivity). split; [exact Hs|].
  pose proof (mpsearch1_first bios 0xF0000 0x100 ltac:(lia) ltac:(lia) ltac:(lia)) as Ht. cbn zeta in Ht. rewrite Hs in Ht.
  destruct Ht as (k & Hk & _ & [Hsig _] & _). exists k. split; [exact Hk|exact Hsig].
Defined.
Lemma mpinit_reads_witness : ∃ s', mpinit bios 5 demo_mpst = Ok (tt, s') ∧ ncpu s' = 2 ∧
  take (Z.to_nat (ncpu s')) (apicids s') = [0; 4] ∧ ioapicid s' = 2 ∧ lapic s' = 0xfee00000.
Proof.
  destruct (mpinit_reads bios 5 demo_mpst 0xF0100 0xF0000 demo_entries) as (s' & Hrun & Hl & Hn & Hp & Hi & _).
  - vm_compute. reflexivity.
  - repeat constructor.
  - vm_compute. reflexivity.
  - vm_compute. reflexivity.
  - lia.
  - vm_compute. reflexivity.
  - cbn. lia.
  - reflexivity.
  - reflexivity.
  - exists s'. split_and!; [exact Hrun|exact Hn|exact Hp|exact Hi|rewrite Hl; vm_compute; reflexivity].
Defined.
Lemma mpinit_unknown_entry_witness : mpinit bad_bios 1000 demo_mpst = Hang.
Proof.
  apply (mpinit_unknown_entry bad_bios demo_mpst 0xF0100 0xF0000 (take 3 demo_entries)).
  - vm_compute. reflexivity.
  - repeat constructor.
  - vm_compute. reflexivity.
  - vm_compute. reflexivity.
  - lia.
  - vm_compute. reflexivity.
  - intros H. vm_compute in H. repeat destruct H as [H|H]; discriminate H.
Defined.

(** ** Interrupt controllers *)
Section lapic.
Context {L : Type} {ldev : LapicDevice L} {lok : LapicOk L}.

(** [lapicinit] ends with the timer periodic on vector 32, spurious
    interrupts enabled on vector 63, errors on vector 51, both local lines
    masked, no priority threshold, and pending interrupts acknowledged once;
    without a local APIC it does nothing. *)
Theorem lapicinit_programs (s : lapic_st L) :
  if lapic_ptr s =? 0 then lapicinit s = Ok (tt, s)
  else ∃ s', lapicinit s = Ok (tt, s') ∧ lapic_ptr s' = lapic_ptr s ∧
    lapic_reg (lhw s') <$> [TIMER; TICR; TDCR; SVR; ERROR; LINT0; LINT1; TPR] =
      [PERIODIC + 32; 10000000; X1; ENABLE + 63; 51; MASKED; MASKED; 0] ∧
    lapic_eois (lhw s') = S (lapic_eois (lhw s)).
Proof.
  unfold lapicinit. destruct (Z.eqb_spec (lapic_ptr s) 0) as [H0|H0].
  { munfold. by rewrite H0. }
  apply wp_run. apply wp_bind, wp_gets. rewrite (proj2 (Z.eqb_neq _ _) H0).
  do 6 (apply wp_bind, wp_lapicw; intros ? ? ? ?).
  apply wp_bind, wp_lapic_get. intros v ? ? ? ? _. apply wp_bind.
  match goal with |- wp _ _ _ ?s1 => assert (∀ Q : unit → lapic_st L → Prop,
    (∀ s', lapic_ptr s' = lapic_ptr s1 → (∀ r, r ∈ plain → r ≠ PCINT → lapic_reg (lhw s') r = lapic_reg (lhw s1) r) →
      lapic_eois (lhw s') = lapic_eois (lhw s1) → Q tt s') →
    wp no_panic (when (Z.land (Z.shiftr v 16) 0xFF >=? 4) (lapicw PCINT MASKED)) Q s1) as Hpc end.
  { intros Q HQ. destruct (_ >=? 4); cbn [when]; [|apply wp_ret; by apply HQ].
    apply wp_lapicw. intros s9 Hp9 Hr9 He9. apply HQ; [done| |done]. intros r Hr Hne. rewrite Hr9 by done.
    by rewrite (proj2 (Z.eqb_neq _ _) Hne). }
  apply Hpc. clear Hpc. intros ? ? ? ?. do 6 (apply wp_bind, wp_lapicw; intros ? ? ? ?).
  apply wp_bind, wp_lapic_wait. intros ? ? ? ?. apply wp_lapicw. intros sf ? ? ?.
  split; [congruence|]. split; [|repeat match goal with H : lapic_eois _ = _ |- _ => rewrite H; clear H end; done].
  cbn [fmap list_fmap]. repeat f_equal.
  all: repeat match goal with
    | H : ∀ r, r ∈ plain → lapic_reg (lhw ?x) r = _ |- lapic_reg (lhw ?x) _ = _ =>
        rewrite H by (apply (bool_decide_unpack _); vm_compute; exact I); clear H; cbn [Z.eqb]; vm_compute (_ =? _); cbv iota
    | H : ∀ r, r ∈ plain → r ≠ PCINT → lapic_reg (lhw ?x) r = _ |- lapic_reg (lhw ?x) _ = _ =>
        rewrite H by (first [done|apply (bool_decide_unpack _); vm_compute; exact I]); clear H
    end; try done.
Qed.
End lapic.

Section ioapic.
Context {A : Type} {adev : IoapicDevice A} {aok : IoapicOk A}.

(** After [ioapicinit] every interrupt line of the chip is masked, on
    vector 32 plus its number, and routed nowhere; [ioapicenable] then opens
    one line for one processor and leaves all the others masked. The warning
    is printed when the chip's id is not the one of the tables. *)
Theorem ioapic_routes (a : A) id irq cpunum :
  let maxintr := Z.land (Z.shiftr (ioa_reg a REG_VER) 16) 0xFF in
  0 ≤ irq ≤ maxintr → 0 ≤ cpunum < 256 →
  ∃ a1 a2, ioapicinit id a = Ok (negb (Z.shiftr (ioa_reg a REG_ID) 24 =? id), a1) ∧
    ioapicenable irq cpunum a1 = Ok (tt, a2) ∧
    (∀ j, 0 ≤ j ≤ maxintr → ioa_reg a1 (REG_TABLE + 2 * j) = Z.lor INT_DISABLED (T_IRQ0 + j) ∧
       ioa_reg a1 (REG_TABLE + 2 * j + 1) = 0) ∧
    ioa_reg a2 (REG_TABLE + 2 * irq) = T_IRQ0 + irq ∧ ioa_reg a2 (REG_TABLE + 2 * irq + 1) = Z.shiftl cpunum 24 ∧
    ∀ j, 0 ≤ j ≤ maxintr → j ≠ irq → ioa_reg a2 (REG_TABLE + 2 * j) = Z.lor INT_DISABLED (T_IRQ0 + j) ∧
       ioa_reg a2 (REG_TABLE + 2 * j + 1) = 0.
Proof.
  intros mx Hirq Hcpu.
  assert (mx ≤ 255) as Hmx.
  { unfold mx. rewrite (Z.land_ones _ 8) by lia. change (2 ^ 8) with 256.
    pose proof (Z.mod_pos_bound (Z.shiftr (ioa_reg a REG_VER) 16) 256 ltac:(lia)). lia. }
  destruct (ioapicinit_spec a id) as (a1 & H1 & Hset). destruct (ioapicenable_spec irq cpunum a1) as (a2 & H2 & R2); [lia|done|].
  exists a1, a2. split_and!; [exact H1|exact H2|exact Hset| | |].
  - by rewrite R2, (proj2 (Z.eqb_neq _ _)), Z.eqb_refl by lia.
  - by rewrite R2, Z.eqb_refl.
  - intros j Hj Hne. destruct (Hset j Hj) as [S1 S2]. rewrite !R2.
    by rewrite !(proj2 (Z.eqb_neq _ _)) by (unfold REG_TABLE; lia).
Qed.
End ioapic.

(** Controllers that behave as the laws say. *)
Record demo_lapic := mk_demo_lapic { dl_regs : gmap Z Z; dl_eois : nat }.
#[global] Instance demo_lapic_dev : LapicDevice demo_lapic := {
  lapic_rd i l := (if i =? ICRLO then 0 else default 0 (dl_regs l !! i), l);
  lapic_wr i v l := mk_demo_lapic (<[i:=v]> (dl_regs l)) (if i =? EOI then S (dl_eois l) else dl_eois l);
  lapic_polls := 1%nat;
}.
#[global] Instance demo_lapic_ok : LapicOk demo_lapic.
Proof.
  refine {| lapic_reg l i := default 0 (dl_regs l !! i); lapic_eois := dl_eois |}.
  - done.
  - intros i v l r _. cbn. destruct (Z.eqb_spec r i) as [->|Hne]; [by rewrite lookup_insert_eq|by rewrite lookup_insert_ne].
  - done.
  - intros p l. eexists. by split_and!.
Defined.
Lemma lapicinit_programs_witness : ∃ s', lapicinit (mk_lapic_st 1 (mk_demo_lapic ∅ 0)) = Ok (tt, s') ∧
  lapic_reg (lhw s') TIMER = PERIODIC + 32.
Proof.
  destruct (lapicinit_programs (mk_lapic_st 1 (mk_demo_lapic ∅ 0))) as (s' & Hrun & _ & Hr & _).
  exists s'. split; [exact Hrun|]. injection Hr as Hr _. exact Hr.
Defined.

Record demo_ioapic := mk_demo_ioapic { da_cur : Z; da_regs : gmap Z Z }.
#[global] Instance demo_ioapic_dev : IoapicDevice demo_ioapic := {
  ioa_select r a := mk_demo_ioapic r (da_regs a);
  ioa_load a := (default 0 (da_regs a !! da_cur a), a);
  ioa_store v a := mk_demo_ioapic (da_cur a) (<[da_cur a:=v]> (da_regs a));
}.
#[global] Instance demo_ioapic_ok : IoapicOk demo_ioapic.
Proof.
  refine {| ioa_cur := da_cur; ioa_reg a q := default 0 (da_regs a !! q) |}; [done|done|].
  intros v a q _. cbn. destruct (Z.eqb_spec q (da_cur a)) as [->|Hne]; [by rewrite lookup_insert_eq|by rewrite lookup_insert_ne].
Defined.
(** A chip with 24 lines. *)
Lemma ioapic_routes_witness : ∃ a1 a2, ioapicinit 0 (mk_demo_ioapic 0 {[ REG_VER := 0x170011 ]}) = Ok (false, a1) ∧
  ioapicenable IRQ_IDE 3 a1 = Ok (tt, a2) ∧ ioa_reg a2 (REG_TABLE + 2 * IRQ_IDE) = 46.
Proof.
  destruct (ioapic_routes (mk_demo_ioapic 0 {[ REG_VER := 0x170011 ]}) 0 IRQ_IDE 3) as (a1 & a2 & H1 & H2 & _ & H3 & _).
  - vm_compute. split; congruence.
  - lia.
  - exists a1, a2. split_and!; [exact H1|exact H2|exact H3].
Defined.
