(* ===== verification/SchedTheorems.v ===== *)
(** * Correctness of processes, traps and scheduling *)

From S2P Require Import Prelude Spinlock CString Ide Drive Bio BioFacts Layout Log LogDisk LogFacts LogSpecs Fs FsFacts FsInodes FsFiles FsDirs FsPaths FsNames File Mkfs Boot Demo NameTheorems Kalloc Syscall Console ConsoleFacts Vm Mp Apic Kernel Proc Trap Sched ProcFacts MachineTheorems.

(** ** Context switches *)

(** C33. A switch away and back restores a kernel thread: its callee-saved
    registers are what they were, its stack pointer is past the return
    address, and execution continues there, provided nobody wrote to its stack
    or to the saved pointer in between. *)
Theorem swtch_roundtrip old new r m r1 m1 old2 r2 m2 r3 m3 :
  swtch old new (r, m) = (r1, m1) →
  0 ≤ old → (old + 4 ≤ r_esp r - 16 ∨ r_esp r + 4 ≤ old) →
  Forall (λ v, 0 ≤ v < 4294967296) [r_ebp r; r_ebx r; r_esi r; r_edi r; r_esp r - 16] →
  (∀ x, r_esp r - 16 ≤ x < r_esp r + 4 ∨ old ≤ x < old + 4 → m2 x = m1 x) →
  (r_esp r + 4 ≤ r_esp r2 - 16 ∨ r_esp r2 ≤ r_esp r - 16) → (r_esp r + 4 ≤ old2 ∨ old2 + 4 ≤ r_esp r - 16) →
  swtch old2 (load4 m2 old) (r2, m2) = (r3, m3) →
  r3 = mk_regs (r_esp r + 4) (r_ebp r) (r_ebx r) (r_esi r) (r_edi r) (load4 m (r_esp r)).
Proof.
  intros H1 H0 Hold HF Hm2 Hst Hold2 H2. pose proof (swtch_saves old new r m) as Hs. rewrite H1 in Hs.
  destruct Hs as (S1 & S2 & S3 & S4 & S5 & S6); [lia|done|done|].
  assert (load4 m2 old = r_esp r - 16) as Ho by (rewrite <- S1; apply load4_frame; intros; apply Hm2; lia).
  rewrite Ho in H2. apply swtch_loads in H2; [|lia|lia]. rewrite H2. f_equal.
  - lia.
  - rewrite <- S5. replace (r_esp r - 16 + 12) with (r_esp r - 4) by lia. apply load4_frame. intros; apply Hm2; lia.
  - rewrite <- S4. replace (r_esp r - 16 + 8) with (r_esp r - 8) by lia. apply load4_frame. intros; apply Hm2; lia.
  - rewrite <- S3. replace (r_esp r - 16 + 4) with (r_esp r - 12) by lia. apply load4_frame. intros; apply Hm2; lia.
  - rewrite <- S2. apply load4_frame. intros; apply Hm2; lia.
  - replace (r_esp r - 16 + 16) with (r_esp r) by lia. apply load4_frame. intros x Hx. rewrite Hm2 by lia. apply S6; lia.
Qed.
Definition demo_regs (sp : Z) : regs := mk_regs sp 1 2 3 4 0.
Definition demo_stacks : mem := store4 (λ _, 0) 0x5000 0x1234.
Lemma swtch_roundtrip_witness :
  let '(r1, m1) := swtch 0x100 0x8000 (demo_regs 0x5000, demo_stacks) in
  (swtch 0x200 (load4 m1 0x100) (demo_regs 0x9000, m1)).1 = mk_regs 0x5004 1 2 3 4 0x1234.
Proof.
  destruct (swtch 0x100 0x8000 (demo_regs 0x5000, demo_stacks)) as [r1 m1] eqn:H1.
  destruct (swtch 0x200 (load4 m1 0x100) (demo_regs 0x9000, m1)) as [r3 m3] eqn:H3. cbn [fst].
  rewrite (swtch_roundtrip 0x100 0x8000 (demo_regs 0x5000) demo_stacks r1 m1 0x200 (demo_regs 0x9000) m1 r3 m3 H1); cbn.
  - reflexivity.
  - lia.
  - lia.
  - repeat constructor; lia.
  - reflexivity.
  - lia.
  - lia.
  - exact H3.
Defined.

(** What a trap saves is what the return from the trap restores: the user
    registers come back from the frame exactly, and pushing the frame changes
    only the frame. *)
Theorem trapframe_roundtrip (m : mem) tf u no err :
  ureg_ok u →
  trapret_frame (push_frame m tf u no err) tf = u ∧
  ∀ x, ¬ (tf ≤ x < tf + TF_SIZE) → push_frame m tf u no err x = m x.
Proof. intros Hu. split; [by apply push_frame_trapret|]. intros x Hx. by apply push_frame_other. Qed.
Lemma trapframe_roundtrip_witness : trapret_frame (push_frame (λ _, 0) 0x1000 first_regs 32 0) 0x1000 = first_regs.
Proof.
  apply (trapframe_roundtrip (λ _, 0) 0x1000 first_regs 32 0). split; apply (bool_decide_unpack _); vm_compute; exact I.
Defined.

(** C38. The descriptor table: every vector leads to its handler in the kernel
    code segment with interrupts masked and closed to user programs; only the
    system call gate leaves interrupts on and may be used from user mode. *)
Theorem tvinit_gates (vectors : list Z) i v :
  length vectors = 256%nat → Forall (λ v, 0 ≤ v < 4294967296) vectors → vectors !! i = Some v →
  ∃ g, tvinit vectors !! i = Some g ∧ gate_entry g = v ∧ gd_cs g = 8 ∧ gd_p g = 1 ∧
    gate_masks g = negb (Z.of_nat i =? T_SYSCALL) ∧ gd_dpl g = (if Z.of_nat i =? T_SYSCALL then DPL_USER else 0).
Proof.
  intros Hl HF Hv. rewrite Forall_lookup in HF. pose proof (HF i v Hv) as Hr.
  assert (∀ istrap d, gate_entry (SETGATE istrap (Z.shiftl SEG_KCODE 3) v d) = v) as Hentry.
  { intros istrap d. unfold gate_entry, SETGATE, field. cbn [off_15_0 off_31_16]. rewrite u32_small by done.
    change 0xffff with (Z.ones 16). rewrite Z.land_ones, Z.shiftr_div_pow2 by lia. change (2 ^ 16) with 65536. rewrite Z.mod_mod by lia.
    pose proof (Z_div_mod_eq_full v 65536). rewrite (Z.mod_small (v / 65536)); [lia|].
    split; [apply Z.div_pos; lia|apply Z.div_lt_upper_bound; lia]. }
  unfold tvinit. rewrite take_ge by lia. destruct (lookup_lt_is_Some_2 vectors (Z.to_nat T_SYSCALL)) as [w Hw]; [rewrite Hl; unfold T_SYSCALL; lia|].
  rewrite Hw. destruct (Z.eqb_spec (Z.of_nat i) T_SYSCALL) as [Hi|Hi].
  - assert (i = Z.to_nat T_SYSCALL) as -> by lia. rewrite Hw in Hv. injection Hv as ->.
    eexists. split; [apply list_lookup_insert_eq; rewrite length_fmap, Hl; unfold T_SYSCALL; lia|]. by split_and!.
  - eexists. split; [rewrite list_lookup_insert_ne by (unfold T_SYSCALL in *; lia); by rewrite list_lookup_fmap, Hv|]. by split_and!.
Qed.
Lemma tvinit_gates_witness : ∃ g, tvinit ((λ i, 0x100000 + 7 * i) <$> seqZ 0 256) !! 64%nat = Some g ∧
  gate_entry g = 0x1001c0 ∧ gate_masks g = false.
Proof.
  destruct (tvinit_gates ((λ i, 0x100000 + 7 * i) <$> seqZ 0 256) 64 0x1001c0) as (g & Hg & He & _ & _ & Hm & _).
  - reflexivity.
  - apply (bool_decide_unpack _). vm_compute. exact I.
  - reflexivity.
  - exists g. split_and!; [exact Hg|exact He|exact Hm].
Defined.

Section kernel.
Context {D U L : Type} {dev : IdeDevice D} {udev : Uart U} {ldev : LapicDevice L}.
Abbreviation kern := (kern D U L).
Implicit Types k : kern.

(** C11. The scheduler, the context switch and the clock interrupt together
    implement the abstract round-robin machine, for any number of steps: the
    kernel never panics and never waits, exactly the ready processes are
    switched to, in table order, and each continues with the registers it was
    stopped with. *)
Theorem scheduler_refines fuel name rcr2 n a c k :
  impl a c k →
  ∃ c' k', run fuel name rcr2 n c k = Ok (c', k') ∧ impl (Nat.iter n astep a) c' k'.
Proof. apply run_refines. Qed.

(** C18. No process starves: a ready process runs again, with its registers,
    after at most two steps per entry of the table and two more. *)
Theorem scheduler_fair fuel name rcr2 i j u ready k :
  impl (ASched i, ready) (CSched i) k → ready !! j = Some u → (j < NPROC)%nat →
  ∃ n k', (n ≤ 2 * NPROC + 2)%nat ∧ run fuel name rcr2 n (CSched i) k = Ok (CUser j u, k') ∧ curproc k' = Some j.
Proof.
  intros Hi Hj Hlt. assert (i ≤ NPROC)%nat as Hle by (by inversion Hi).
  destruct (astep_fair ready i j u Hj Hlt Hle) as (n & ready' & Hn & Hit).
  destruct (run_refines fuel name rcr2 n _ _ k Hi) as (c' & k' & Hrun & Himpl). rewrite Hit in Himpl.
  exists n, k'. split; [done|]. inversion Himpl; subst. done.
Qed.

(** Traps that do not switch. A clock interrupt that finds no running
    process, as in the scheduler, only counts the tick and acknowledges it. An
    exception of a user program is not handled at all: [trap] returns with
    nothing changed, so that the program resumes at the faulting instruction. *)
Theorem trap_no_switch fuel name rcr2 tf k :
  let no := tf_trapno (k_mem k) tf in
  (no = T_IRQ0 + IRQ_TIMER → (∀ i, curproc k = Some i → ∃ p, ptable k !! i = Some p ∧ b_state p ≠ RUNNING) →
     ∃ l, trap fuel name rcr2 tf k = Ok (false, set_k_lapic l (set_k_ticks (u32 (k_ticks k + 1)) k))) ∧
  (no ∉ [T_SYSCALL; T_IRQ0 + IRQ_TIMER; T_IRQ0 + IRQ_IDE; T_IRQ0 + IRQ_COM1; T_IRQ0 + 7; T_IRQ0 + IRQ_SPURIOUS] →
     Z.land (tf_cs (k_mem k) tf) 3 ≠ 0 → (∃ i p, curproc k = Some i ∧ ptable k !! i = Some p) →
     trap fuel name rcr2 tf k = Ok (false, k)).
Proof.
  intros no. split.
  - intros Hno Hcur. destruct (wp_ok (trap fuel name rcr2 tf) (λ b k', b = false ∧
      ∃ l, k' = set_k_lapic l (set_k_ticks (u32 (k_ticks k + 1)) k)) k) as (b & k' & Hrun & -> & l & ->); [|by exists l].
    unfold trap. apply wp_bind, wp_gets. fold no. rewrite Hno. change (T_IRQ0 + IRQ_TIMER =? T_SYSCALL) with false. cbv iota.
    apply wp_bind. unfold trap_handle. apply wp_bind, wp_gets. fold no. rewrite Hno, Z.eqb_refl.
    apply wp_bind, wp_modify. apply wp_lapiceoi. intros l. apply wp_bind, wp_gets. kfields.
    destruct (curproc k) as [i|]; [|apply wp_ret; eauto]. destruct (Hcur i eq_refl) as (p & Hp & Hs).
    apply wp_bind. eapply wp_get_proc; [exact Hp|]. apply wp_bind, wp_gets. rewrite (bool_decide_eq_false_2 _ Hs). cbn [andb].
    apply wp_ret. eauto.
  - intros Hno Hcs (i & p & Hcur & Hp). rewrite !not_elem_of_cons in Hno. destruct Hno as (N1 & N2 & N3 & N4 & N5 & N6 & _).
    destruct (wp_ok (trap fuel name rcr2 tf) (λ b k', b = false ∧ k' = k) k) as (b & k' & Hrun & -> & ->); [|done].
    unfold trap. apply wp_bind, wp_gets. fold no. rewrite (proj2 (Z.eqb_neq _ _) N1).
    apply wp_bind. unfold trap_handle. apply wp_bind, wp_gets. fold no.
    rewrite (proj2 (Z.eqb_neq _ _) N2), (proj2 (Z.eqb_neq _ _) N3), (proj2 (Z.eqb_neq _ _) N4), (proj2 (Z.eqb_neq _ _) N5),
      (proj2 (Z.eqb_neq _ _) N6). cbn [orb].
    apply wp_bind, wp_gets. rewrite Hcur, (proj2 (Z.eqb_neq _ _) Hcs). rewrite bool_decide_eq_false_2 by done. cbn [orb].
    apply wp_ret. apply wp_bind, wp_gets. rewrite Hcur. apply wp_bind. eapply wp_get_proc; [exact Hp|]. apply wp_bind, wp_gets.
    fold no. rewrite (proj2 (Z.eqb_neq _ _) N2), andb_false_r. by apply wp_ret.
Qed.

Context {dok : IdeDeviceOk D}.
Context (trapret forkret_at initcode_start initcode_size : Z).
Context (V : disk) (sb : superblock).

(** The kernel as main.c has it before its last calls: pages are free, no
    process exists, and the file system is up with a whole root directory. *)
Record before_pinit k (pages : list Z) (H : list nat) (Lg : list Z) (R : list nat) : Prop := {
  bp_pages : kmem_inv true (k_kmem k) pages;
  bp_top : Forall (λ p, p + PGSIZE < 4294967296) pages;
  bp_cpu : cpu_idle (k_cpu k);
  bp_fs : reading V sb (k_fs k) H Lg R;
  bp_tree : tree_ok V sb;
  bp_root : linked V sb ROOTINO;
  bp_bufs : (length H + length Lg < NBUF)%nat;
  bp_code : 0 ≤ trapret < 4294967296 ∧ 0 ≤ forkret_at < 4294967296 ∧
    0 ≤ initcode_size ≤ PGSIZE - KSTACKSIZE ∧ initcode_start + initcode_size ≤ k_end k;
}.

(** [pinit] creates a runnable process in the first unused slot, with the
    next process id and a page of its own that starts with the code of
    initcode; its first switch returns into [forkret] and then [trapret], which
    enters user mode at address 0 with the stack at the top of its memory and
    interrupts on; its current directory is the root. *)
Theorem pinit_starts fuel name k pg pages i p H Lg R :
  before_pinit k (pg :: pages) H Lg R → (S (length R) < NINODE)%nat →
  find_unused (ptable k) = Some i → ptable k !! i = Some p → bytes name → length name = DIRSIZ →
  ∃ k' p' cwd, pinit trapret forkret_at initcode_start initcode_size fuel name k = Ok (tt, k') ∧
    before_pinit k' pages H Lg (cwd :: R) ∧ ptable k' = <[i:=p']> (ptable k) ∧
    started trapret forkret_at (nextpid k) pg (k_mem k') p' ∧ nextpid k' = s32 (nextpid k + 1) ∧
    b_cwd p' = Some cwd ∧ slot_of (k_fs k') cwd ROOTINO ∧
    (∀ x, 0 ≤ x < initcode_size → k_mem k' (pg + x) = k_mem k (initcode_start + x)) ∧
    (∀ old r m r' m', swtch old (b_context p') (r, m) = (r', m') → (∀ x, b_context p' ≤ x < b_tf p' → m x = k_mem k' x) →
       (b_tf p' ≤ r_esp r - 16 ∨ r_esp r ≤ b_context p') → (b_tf p' ≤ old ∨ old + 4 ≤ b_context p') →
       r_eip r' = forkret_at ∧ load4 m' (r_esp r') = trapret ∧ r_esp r' + 4 = b_tf p').
Proof.
  intros [Hkm Htop Hidle Hrd Htree Hroot Hb (Ht & Hf & Hsz & Hend)] HR Hfind Hp Hbn Hln.
  destruct (wp_ok (pinit trapret forkret_at initcode_start initcode_size fuel name) (λ _ k', ∃ p' cwd,
    before_pinit k' pages H Lg (cwd :: R) ∧ ptable k' = <[i:=p']> (ptable k) ∧
    started trapret forkret_at (nextpid k) pg (k_mem k') p' ∧ nextpid k' = s32 (nextpid k + 1) ∧
    b_cwd p' = Some cwd ∧ slot_of (k_fs k') cwd ROOTINO ∧
    (∀ x, 0 ≤ x < initcode_size → k_mem k' (pg + x) = k_mem k (initcode_start + x))) k)
    as ([] & k' & Hrun & p' & cwd & H1 & H2 & H3 & H4 & H5 & H6 & H7).
  { eapply wp_pinit; [done..|]. intros k' p' cwd P1 P2 _ P3 P4 P5 _ P6 P7 P8 P9 P10 P11 _.
    exists p', cwd. split_and!; try done. constructor; try done; [by apply Forall_cons in Htop as [_ ?]|by rewrite P6]. }
  exists k', p', cwd. split_and!; [done..|]. intros old r m r' m' Hsw Hm Hst Ho.
  destruct H3 as [_ _ _ _ _ _ Hctx _ (N1 & N2 & N3 & N4 & N5 & N6) _]. unfold CTX_SIZE in Hctx.
  pose proof (swtch_loads _ _ _ _ _ _ Hsw ltac:(lia) ltac:(lia)) as ->. cbn [r_eip r_esp]. split_and!.
  - rewrite <- N2. apply load4_frame. intros; apply Hm; lia.
  - replace (b_context p' + 20) with (b_tf p' - 4) by lia. rewrite <- N1.
    assert (load4 m' (b_tf p' - 4) = load4 m (b_tf p' - 4)) as ->.
    { apply load4_frame. intros x Hx. eapply swtch_frame; [exact Hsw|lia|lia]. }
    apply load4_frame. intros; apply Hm; lia.
  - lia.
Qed.

(** Two processes of [pinit] on different pages, in an otherwise empty table. *)
Lemma two_started ps k p0 p1 pg0 pg1 e :
  ptable k = <[1%nat:=p1]> (<[0%nat:=p0]> ps) → length ps = NPROC → Forall (λ p, b_state p = UNUSED) ps →
  started trapret forkret_at 1 pg0 (k_mem k) p0 → started trapret forkret_at 2 pg1 (k_mem k) p1 →
  page_ok e pg0 → page_ok e pg1 → pg0 ≠ pg1 → pg0 + PGSIZE < 4294967296 → pg1 + PGSIZE < 4294967296 →
  stacks_ok (ptable k) ∧ saved (<[0%nat:=first_regs]> {[1%nat:=first_regs]}) (k_mem k) (ptable k) ∧ Forall not_running (ptable k).
Proof.
  intros Hps Hl HF [A1 _ A2 _ A3 A4 _ _ _ A5] [B1 _ B2 _ B3 B4 _ _ _ B5] Hpg0 Hpg1 Hne Htop0 Htop1. rewrite Hps. rewrite Forall_lookup in HF.
  assert (∀ i p, <[1%nat:=p1]> (<[0%nat:=p0]> ps) !! i = Some p → i = 0%nat ∧ p = p0 ∨ i = 1%nat ∧ p = p1 ∨ b_state p = UNUSED) as Hcase.
  { intros i p [(<- & -> & _)|(Hi & [(<- & -> & _)|(_ & Hp)]%list_lookup_insert_Some)]%list_lookup_insert_Some; eauto. }
  assert (pg0 + PGSIZE ≤ pg1 ∨ pg1 + PGSIZE ≤ pg0) as Hdis.
  { destruct (decide (pg0 + PGSIZE ≤ pg1)); [by left|]. destruct (decide (pg1 + PGSIZE ≤ pg0)); [by right|].
    exfalso. pose proof PGSIZE_pos. apply (pages_disjoint e pg0 pg1 (Z.max pg0 pg1)); (done || lia). }
  destruct Hpg0 as (_ & G0 & _ & G1). destruct Hpg1 as (_ & G2 & _ & G3). pose proof PGSIZE_eq as HP. unfold KSTACKSIZE, TF_SIZE in *.
  split_and!.
  - constructor; [by rewrite !length_insert| |].
    + intros i p Hp [Hlv|Hlv]; destruct (Hcase i p Hp) as [[-> ->]|[[-> ->]|Hu]]; try congruence; unfold KSTACKSIZE, TF_SIZE; lia.
    + intros i j p q Hp Hq Hlp Hlq Hij. unfold live, KSTACKSIZE in *.
      destruct (Hcase i p Hp) as [[-> ->]|[[-> ->]|Hu]], (Hcase j q Hq) as [[-> ->]|[[-> ->]|Hu']]; try done; try (destruct Hlp; congruence);
        try (destruct Hlq; congruence); lia.
  - constructor.
    + intros i. rewrite frame_of_insert, frame_of_insert by (rewrite ?length_insert, Hl; unfold NPROC; lia).
      case_decide as H1; [subst; by rewrite lookup_insert_ne, lookup_singleton_eq, B1, B5|].
      case_decide as H0; [subst; by rewrite lookup_insert_eq, A1, A5|].
      rewrite lookup_insert_ne, lookup_singleton_ne by done. unfold frame_of. destruct (ps !! i) as [p|] eqn:Hp; [|done]. cbn.
      by rewrite (HF i p Hp).
    + intros i u Hu. assert (u = first_regs) as ->.
      { apply lookup_insert_Some in Hu as [[_ <-]|[_ [_ <-]%lookup_singleton_Some]]; done. }
      split; [|done]. split; apply (bool_decide_unpack _); vm_compute; exact I.
  - apply Forall_lookup. intros i p Hp. unfold not_running. destruct (Hcase i p Hp) as [[-> ->]|[[-> ->]|Hu]]; congruence.
Qed.
Lemma started_frame pid pg m m' p : started trapret forkret_at pid pg m p →
  (∀ x, pg ≤ x < pg + PGSIZE → m' x = m x) → started trapret forkret_at pid pg m' p.
Proof.
  intros [T1 T2 T3 T4 T5 T6 T7 T8 T9 T10] Hm. pose proof PGSIZE_eq. unfold CTX_SIZE, TF_SIZE, KSTACKSIZE in *. constructor; try done.
  - eapply new_stack_ext; [exact T9|done|done|unfold CTX_SIZE; lia|]. intros x Hx. apply Hm. lia.
  - rewrite <- T10. apply trapret_frame_ext. intros x Hx. apply Hm. unfold TF_SIZE in *. lia.
Qed.
Lemma unused_first ps : length ps = NPROC → Forall (λ p, b_state p = UNUSED) ps → ∀ q, b_state q ≠ UNUSED →
  find_unused ps = Some 0%nat ∧ find_unused (<[0%nat:=q]> ps) = Some 1%nat.
Proof.
  intros Hl HF q Hq. destruct ps as [|a [|b ps]]; [done|done|]. apply Forall_cons in HF as [Ha [Hb _]%Forall_cons].
  cbn. by rewrite Ha, Hb, (bool_decide_eq_false_2 _ Hq).
Qed.

(** The end of [main], with what it leaves alone. *)
Lemma main_started fuel name k pg0 pg1 pages H Lg R :
  before_pinit k (pg0 :: pg1 :: pages) H Lg R → (S (S (length R)) < NINODE)%nat →
  length (ptable k) = NPROC → Forall (λ p, b_state p = UNUSED) (ptable k) → nextpid k = 1 →
  bytes name → length name = DIRSIZ →
  ∃ k', main_processes trapret forkret_at initcode_start initcode_size fuel name k = Ok (tt, k') ∧
    impl (ASched 0, <[0%nat:=first_regs]> {[1%nat:=first_regs]}) (CSched 0) k' ∧
    (∀ b, fview (k_fs k') b = V b) ∧ fsb (k_fs k') = sb ∧ k_lapic k' = k_lapic k ∧ k_gdt k' = k_gdt k.
Proof.
  intros [Hkm Htop Hidle Hrd Htree Hroot Hb (Ht & Hf & Hsz & Hend)] HR Hl HF Hnp Hbn Hln.
  pose proof (ki_pages _ _ _ Hkm) as Hpg. apply Forall_cons in Hpg as [Hpg0 [Hpg1 _]%Forall_cons].
  apply Forall_cons in Htop as [Htop0 [Htop1 _]%Forall_cons].
  pose proof (ki_nodup _ _ _ Hkm) as Hnd. apply NoDup_cons in Hnd as [Hni _].
  destruct (lookup_lt_is_Some_2 (ptable k) 0) as [q0 Hq0]; [rewrite Hl; unfold NPROC; lia|].
  destruct (lookup_lt_is_Some_2 (ptable k) 1) as [q1 Hq1]; [rewrite Hl; unfold NPROC; lia|].
  destruct (unused_first (ptable k) Hl HF (set_state RUNNING q0)) as [Hf0 _]; [done|].
  apply wp_run. unfold main_processes. apply wp_bind. eapply (wp_pinit _ _ _ _ V sb); try done; [lia|].
  intros k1 p0 c0 P1 P2 _ P3 P4 P5 _ P6 _ _ P7 _ P8 [P9 P10].
  destruct (unused_first (ptable k) Hl HF p0) as [_ Hf1]; [by rewrite (sd_state _ _ _ _ _ _ P2)|].
  apply wp_bind. eapply (wp_pinit _ _ _ _ V sb _ _ _ _ _ 1%nat q1); try done; [by rewrite P1|by rewrite P1, list_lookup_insert_ne|by rewrite P6|].
  intros k2 p1 c1 S1 S2 _ S3 S4 S5 _ S6 _ _ S7 _ S8 [S9 S10]. rewrite P3, Hnp in S2. change (s32 (1 + 1)) with 2 in S2. rewrite P1 in S1. rewrite Hnp in P2.
  assert (started trapret forkret_at 1 pg0 (k_mem k2) p0) as P2'.
  { apply (started_frame 1 pg0 (k_mem k1)); [done|]. intros x Hx. apply S8. intros Hx'.
    eapply (pages_disjoint (k_end k) pg0 pg1 x); [done|done|intros ->; set_solver|done|done]. }
  apply wp_bind, wp_modify. apply wp_bind, wp_k_cpu, wp_modify. apply wp_k_cpu, wp_pushcli_raw.
  { destruct S5 as [S5 _]. kfields. cbn. lia. }
  intros c Hc Hoff. destruct (two_started (ptable k) k2 p0 p1 pg0 pg1 (k_end k)) as (G1 & G2 & G3); try done; [intros ->; set_solver|].
  split; [|split_and!; [exact (rd_view _ _ _ _ _ _ S7)|exact (rd_sb _ _ _ _ _ _ S7)|exact (eq_trans S9 P9)|exact (eq_trans S10 P10)]].
  constructor; kfields; try done; [lia|]. cbn in Hc. destruct S5 as [S5 _]. lia.
Qed.

(** The end of [main]: two calls of [pinit] and the entry of [scheduler]
    leave the machine in a state of the round-robin specification in which
    exactly these two processes are ready, both about to enter their program
    for the first time. *)
Theorem main_starts fuel name k pg0 pg1 pages H Lg R :
  before_pinit k (pg0 :: pg1 :: pages) H Lg R → (S (S (length R)) < NINODE)%nat →
  length (ptable k) = NPROC → Forall (λ p, b_state p = UNUSED) (ptable k) → nextpid k = 1 →
  bytes name → length name = DIRSIZ →
  ∃ k', main_processes trapret forkret_at initcode_start initcode_size fuel name k = Ok (tt, k') ∧
    impl (ASched 0, <[0%nat:=first_regs]> {[1%nat:=first_regs]}) (CSched 0) k'.
Proof.
  intros Hb HR Hl HF Hnp Hbn Hln. destruct (main_started fuel name k pg0 pg1 pages H Lg R Hb HR Hl HF Hnp Hbn Hln) as (k' & ? & ? & _). eauto.
Qed.
End kernel.

(** ** A kernel to run *)
Definition no_proc : pcb := mk_pcb UNUSED 0 0 0 0 0 0 KFresh (replicate 16 None) None (replicate 16 0).
Definition demo_con : con chip := mk_con (mk_cpu 0 0 FL_IF) 1 (replicate 128 0) 0 0 0 (mk_chip [] []).
Definition demo_fs : fss drive (con chip) := mk_fss (flog fs0) (fsb fs0) (icache fs0) demo_con.
Definition demo_gdt : gdt_cpu := mk_gdt_cpu (replicate 6 no_seg) 0 0 0 0x180000.
Definition demo_mem : mem := store4 (store4 (λ _, 0) 0x200000 0x300000) 0x300000 0.
Definition demo_kern : kern drive chip demo_lapic :=
  mk_kern (mk_cpu 0 0 FL_IF) demo_mem 0x200000 0x180000 (mk_fls demo_fs (replicate NFILE zero_file))
    (mk_lapic_st 1 (mk_demo_lapic ∅ 0)) demo_gdt (replicate NPROC no_proc) 1 None None 0.
Lemma demo_before : before_pinit 0x104000 0x103000 0x10a000 44 demo_view mksb demo_kern [0x200000; 0x300000] [] [] [].
Proof.
  constructor.
  - constructor; [by vm_compute; auto|vm_compute; auto| |].
    + repeat constructor; vm_compute; congruence.
    + apply (bool_decide_unpack _). vm_compute. exact I.
  - repeat constructor.
  - by split.
  - apply (reading_cpu demo_view mksb demo_fs); [|by split]. destruct fs0_reading as [[H1 H2 H3] H4 H5 H6].
    constructor; [constructor; [exact H1|exact H2|exact H3]|exact H4|exact H5|exact H6].
  - exact demo_tree.
  - apply demo_linked. by left.
  - cbn. unfold NBUF. lia.
  - vm_compute. split_and!; congruence.
Qed.

Lemma pinit_starts_witness : ∃ k' p', pinit 0x104000 0x103000 0x10a000 44 0 junk demo_kern = Ok (tt, k') ∧
  ptable k' = <[0%nat:=p']> (ptable demo_kern) ∧ b_state p' = RUNNABLE ∧ trapret_frame (k_mem k') (b_tf p') = first_regs.
Proof.
  destruct (pinit_starts 0x104000 0x103000 0x10a000 44 demo_view mksb 0 junk demo_kern 0x200000 [0x300000] 0 no_proc [] [] [])
    as (k' & p' & cwd & Hrun & _ & Hps & Hst & _).
  - exact demo_before.
  - cbn. unfold NINODE. lia.
  - reflexivity.
  - reflexivity.
  - apply (bool_decide_unpack _). vm_compute. exact I.
  - reflexivity.
  - exists k', p'. split_and!; [exact Hrun|exact Hps|exact (sd_state _ _ _ _ _ _ Hst)|exact (sd_regs _ _ _ _ _ _ Hst)].
Defined.
Lemma main_starts_witness : ∃ k', impl (D:=drive) (U:=chip) (L:=demo_lapic)
  (ASched 0, <[0%nat:=first_regs]> {[1%nat:=first_regs]}) (CSched 0) k'.
Proof.
  destruct (main_starts 0x104000 0x103000 0x10a000 44 demo_view mksb 0 junk demo_kern 0x200000 0x300000 [] [] [] [])
    as (k' & _ & Himpl).
  - exact demo_before.
  - cbn. unfold NINODE. lia.
  - reflexivity.
  - apply (bool_decide_unpack _). vm_compute. exact I.
  - reflexivity.
  - apply (bool_decide_unpack _). vm_compute. exact I.
  - reflexivity.
  - exists k'. exact Himpl.
Defined.

(** The scheduler with two ready processes, in entries 3 and 5. *)
Definition ready_proc (page : Z) : pcb :=
  mk_pcb RUNNABLE (PGSIZE - KSTACKSIZE) page (page + PGSIZE - KSTACKSIZE) 1 (page + PGSIZE - TF_SIZE) 0 KFresh [] None [].
Definition demo_ready : list pcb :=
  <[5%nat:=ready_proc 0x300000]> (<[3%nat:=ready_proc 0x200000]> (replicate NPROC no_proc)).
Definition regs5 : uregs := mk_uregs 5 5 5 5 5 5 5 0 0 0x23 0x23 0x40 0x1b FL_IF 0x900 0x23.
Definition demo_sched : kern drive chip demo_lapic :=
  set_ptable demo_ready (set_k_cpu (mk_cpu 1 FL_IF 0)
    (set_k_mem (push_frame (push_frame (λ _, 0) (0x300000 - TF_SIZE) first_regs 0 0) (0x400000 - TF_SIZE) regs5 0 0) demo_kern)).
Definition demo_map : gmap nat uregs := <[3%nat:=first_regs]> {[5%nat:=regs5]}.
Lemma demo_ready_cases i p : demo_ready !! i = Some p → i = 3%nat ∧ p = ready_proc 0x200000 ∨ i = 5%nat ∧ p = ready_proc 0x300000 ∨ p = no_proc.
Proof.
  intros [(<- & -> & _)|(_ & [(<- & -> & _)|(_ & [-> _]%lookup_replicate)]%list_lookup_insert_Some)]%list_lookup_insert_Some; eauto.
Qed.
Lemma demo_sched_impl : impl (ASched 0, demo_map) (CSched 0) demo_sched.
Proof.
  assert (ureg_ok first_regs ∧ ureg_ok regs5) as [Hu1 Hu2] by (split; split; apply (bool_decide_unpack _); vm_compute; exact I).
  constructor; [unfold NPROC; lia| | | |reflexivity|reflexivity].
  - constructor; [reflexivity| |].
    + intros i p [[-> ->]|[[-> ->]| ->]]%demo_ready_cases; [vm_compute; auto..|]. intros [Hl|Hl]; discriminate Hl.
    + intros i j p q [[-> ->]|[[-> ->]| ->]]%demo_ready_cases [[-> ->]|[[-> ->]| ->]]%demo_ready_cases Hp Hq Hne; try done;
        try (destruct Hp as [Hp|Hp]; discriminate Hp); try (destruct Hq as [Hq|Hq]; discriminate Hq); vm_compute; [left|right]; congruence.
  - constructor.
    + intros i. cbn [ptable demo_sched set_ptable]. unfold demo_ready, demo_map.
      rewrite frame_of_insert by (rewrite length_insert, length_replicate; unfold NPROC; lia).
      rewrite frame_of_insert by (rewrite length_replicate; unfold NPROC; lia).
      case_decide as H5; [subst; rewrite lookup_insert_ne, lookup_singleton_eq by done; f_equal; symmetry; by apply push_frame_trapret|].
      case_decide as H3.
      * subst. rewrite lookup_insert_eq. vm_compute. reflexivity.
      * rewrite lookup_insert_ne, lookup_singleton_ne by done. unfold frame_of.
        destruct (replicate NPROC no_proc !! i) as [p|] eqn:Hp; [|done]. apply lookup_replicate in Hp as [-> _]. done.
    + intros i u Hu. unfold demo_map in Hu. apply lookup_insert_Some in Hu as [[_ <-]|[_ [_ <-]%lookup_singleton_Some]]; by split.
  - apply Forall_lookup. intros i p [[-> ->]|[[-> ->]| ->]]%demo_ready_cases; done.
Qed.
Lemma scheduler_refines_witness : ∃ c' k', run 0 junk 0 7 (CSched 0) demo_sched = Ok (c', k') ∧
  impl (AUser 5 regs5, {[3%nat:=first_regs]}) c' k'.
Proof.
  destruct (scheduler_refines 0 junk 0 7 (ASched 0, demo_map) (CSched 0) demo_sched demo_sched_impl) as (c' & k' & Hrun & Himpl).
  exists c', k'. split; [exact Hrun|].
  assert (Nat.iter 7 astep (ASched 0, demo_map) = (AUser 5 regs5, {[3%nat:=first_regs]})) as <- by (vm_compute; reflexivity).
  exact Himpl.
Defined.
Lemma scheduler_fair_witness : ∃ n k', (n ≤ 130)%nat ∧ run 0 junk 0 n (CSched 0) demo_sched = Ok (CUser 5 regs5, k').
Proof.
  destruct (scheduler_fair 0 junk 0 0 5 regs5 demo_map demo_sched demo_sched_impl) as (n & k' & Hn & Hrun & _).
  - reflexivity.
  - unfold NPROC. lia.
  - exists n, k'. split; [exact Hn|exact Hrun].
Defined.

(** A divide error in user mode. *)
Definition demo_fault : kern drive chip demo_lapic :=
  set_curproc (Some 3%nat) (set_k_mem (push_frame (λ _, 0) 0x1000 first_regs 0 0) demo_sched).
Lemma trap_no_switch_witness : trap 0 junk 0 0x1000 demo_fault = Ok (false, demo_fault).
Proof.
  apply (trap_no_switch 0 junk 0 0x1000 demo_fault).
  - apply (bool_decide_unpack _). vm_compute. exact I.
  - vm_compute. congruence.
  - exists 3%nat, (ready_proc 0x200000). split; reflexivity.
Defined.
