(* ===== verification/MainTheorems.v ===== *)
(** * Correctness of the start of the machine

    [main] from the state the boot loader leaves to the loop of the scheduler,
    with all the drivers, the recovery of the disk and the first processes. *)

From S2P Require Import Prelude Spinlock CString Ide Drive Bio BioFacts Layout Mkfs Log LogDisk LogFacts LogSpecs LogCrash Fs FsFacts FsInodes FsFiles FsTable FsWrite FsWritei FsDirs FsLink FsPaths FsNames FsTree FsNodes File FileFacts FileCreate FileTxn Boot Demo NameTheorems CreateTheorems Kalloc Syscall Console ConsoleFacts Vm Mp Apic Kernel Proc Trap Sched ProcFacts Main MainFacts MachineTheorems SchedTheorems.

Section theorems.
Context {D U L P A : Type} {dev : IdeDevice D} {udev : Uart U} {ldev : LapicDevice L} {pio : Ports P} {adev : IoapicDevice A}.
Context {dok : IdeDeviceOk D} {dpr : DrivePresent D} {cpr : ChipPresent U} {lok : LapicOk L} {aok : IoapicOk A}.
Abbreviation machine := (machine D U L P A).
Implicit Types m : machine.
Context (vectors : list Z) (idt_at trapret forkret_at initcode_start initcode_size : Z) (mpfuel fuel : nat) (name : list Z).

(** The machine as the boot loader leaves it: interrupts off, the data segment
    zeroed, and in memory, below what the kernel will allocate, the processor
    table [es] with one processor. With more than one, the disk's interrupt
    would be routed to one that is never started. *)
Record powered m (Pd : disk) (conf mp : Z) (es : list mpentry) : Prop := {
  pw_cpu : cpu_off (k_cpu (m_kern m));
  pw_freelist : k_freelist (m_kern m) = 0;
  pw_end : 0x100000 < k_end (m_kern m) ≤ PHYSTOP ∧ PGROUNDUP (k_end (m_kern m)) + 2 * PGSIZE ≤ PHYSTOP;
  pw_fs : fs_start Pd (ffs (k_files (m_kern m)));
  pw_ptable : length (ptable (m_kern m)) = NPROC ∧ Forall (λ p, b_state p = UNUSED) (ptable (m_kern m));
  pw_nextpid : nextpid (m_kern m) = 1;
  pw_devsw : m_devsw m = replicate NDEV (None, None);
  pw_bytes x : 0 ≤ k_mem (m_kern m) x < 256;
  pw_base : Z.lor (Z.shiftl (k_mem (m_kern m) 0x414) 8) (k_mem (m_kern m) 0x413) ≤ 640;
  pw_table : mp_table (k_mem (m_kern m)) conf mp es;
  pw_low : conf + conf_length (k_mem (m_kern m)) conf ≤ PGROUNDUP (k_end (m_kern m));
  pw_procs : procs_of es = [0] ∧ (length es < mpfuel)%nat;
  pw_cpus : ncpu (m_mp m) = 0 ∧ length (apicids (m_mp m)) = Z.to_nat NCPU;
  pw_lapic : conf_lapicaddr (k_mem (m_kern m)) conf ≠ 0;
  pw_lines : IRQ_IDE ≤ Z.land (Z.shiftr (ioa_reg (m_ioapic m) REG_VER) 16) 0xFF;
}.
(** The addresses the linker fixes. *)
Record linked_at m : Prop := {
  la_code : 0 ≤ trapret < 4294967296 ∧ 0 ≤ forkret_at < 4294967296;
  la_init : 0 ≤ initcode_size ≤ PGSIZE - KSTACKSIZE ∧ initcode_start + initcode_size ≤ k_end (m_kern m);
  la_idt : 0 ≤ idt_at < 4294967296;
}.

(** The controllers and the descriptor table at the end of [main]. *)
Record devices_up m m' : Prop := {
  du_ncpu : ncpu (m_mp m') = 1 ∧ take 1 (apicids (m_mp m')) = [0];
  du_timer : lapic_reg (lhw (k_lapic (m_kern m'))) <$> [TIMER; TICR; TDCR; SVR; ERROR; LINT0; LINT1; TPR] =
    [PERIODIC + 32; 10000000; X1; ENABLE + 63; 51; MASKED; MASKED; 0];
  du_lines j : 0 ≤ j ≤ Z.land (Z.shiftr (ioa_reg (m_ioapic m) REG_VER) 16) 0xFF →
    ioa_reg (m_ioapic m') (REG_TABLE + 2 * j) =
      (if (j =? IRQ_COM1) || (j =? IRQ_IDE) then T_IRQ0 + j else Z.lor INT_DISABLED (T_IRQ0 + j)) ∧
    ioa_reg (m_ioapic m') (REG_TABLE + 2 * j + 1) = 0;
  du_devsw ps f : dev_routines (D:=D) (m_devsw m') ps f = devtab ps f;
  du_idt : m_idt m' = tvinit vectors ∧ m_idtr m' = (2047, idt_at);
}.

(** The pages [kinit] frees: at least two. *)
Lemma boot_pages_two e : 0 < e → PGROUNDUP e + 2 * PGSIZE ≤ PHYSTOP →
  (∃ pg0 pg1 pages, boot_pages e = pg0 :: pg1 :: pages) ∧ Forall (λ p, p + PGSIZE < 4294967296) (boot_pages e).
Proof.
  intros He Hhi. pose proof PGSIZE_eq as HP. unfold boot_pages. change (P2V PHYSTOP) with PHYSTOP. set (n := Z.to_nat _).
  assert (2 ≤ (PHYSTOP - PGROUNDUP e) / PGSIZE) as Hn by (apply Z.div_le_lower_bound; lia). split.
  - destruct (reverse (range_pages (PGROUNDUP e) n)) as [|pg0 [|pg1 pages]] eqn:Hr; [..|by eauto];
      apply (f_equal length) in Hr; unfold range_pages in Hr; rewrite length_reverse, length_fmap, length_seq in Hr; cbn in Hr; lia.
  - apply Forall_forall. intros p Hp. rewrite elem_of_reverse in Hp. apply list_elem_of_fmap in Hp as (i & -> & Hi%elem_of_seq).
    pose proof (Z_div_mod_eq_full (PHYSTOP - PGROUNDUP e) PGSIZE). pose proof (Z.mod_pos_bound (PHYSTOP - PGROUNDUP e) PGSIZE ltac:(lia)).
    unfold PHYSTOP in *. assert (Z.of_nat i + 1 ≤ (0xE000000 - PGROUNDUP e) / PGSIZE) by lia. nia.
Qed.

Lemma before_pinit_mounted (k0 k : kern D U L) pages sb : mounted k0 k pages sb →
  Forall (λ p, p + PGSIZE < 4294967296) pages → linked (fview (k_fs k)) sb ROOTINO →
  0 ≤ trapret < 4294967296 → 0 ≤ forkret_at < 4294967296 →
  0 ≤ initcode_size ≤ PGSIZE - KSTACKSIZE → initcode_start + initcode_size ≤ k_end k0 →
  before_pinit trapret forkret_at initcode_start initcode_size (fview (k_fs k)) sb k pages [] [] [].
Proof.
  intros [Hc Hk Hg <-] Htop Hroot ????. constructor; try done.
  - eapply kept_kmem; [done|by apply cpu_idle_sane].
  - apply Hg.
  - apply (tr_dirs _ _ (fg_tree _ _ _ _ Hg)).
  - cbn. unfold NBUF. lia.
  - split_and!; try done; lia || by rewrite (kp_end _ _ _ Hk).
Qed.

(** The calls that reach more than the kernel. *)
Lemma wp_m_mpinit E m k0 pages Pd conf mp es (Q : unit → machine → Prop) :
  early k0 (m_kern m) pages Pd → mp_table (k_mem (m_kern m)) conf mp es → procs_of es = [0] → (length es < mpfuel)%nat →
  ncpu (m_mp m) = 0 → length (apicids (m_mp m)) = Z.to_nat NCPU →
  (∀ s, ncpu s = 1 → take 1 (apicids s) = [0] → lapic s = conf_lapicaddr (k_mem (m_kern m)) conf → Q tt (put_mpst s m)) →
  wp E (m_mpinit mpfuel) Q m.
Proof.
  intros He Ht Hp Hf Hn Hl HQ. unfold m_mpinit. apply wp_bind, wp_gets, wp_zoom.
  destruct (mpinit_run (k_mem (m_kern m)) mpfuel (m_mpst m) conf mp es) as (s & Hrun & Hla & Hnc & Hcp & _); [done..|].
  rewrite Hp in *. change (Z.min NCPU (Z.of_nat (length [0]))) with 1 in Hnc. rewrite Hnc in Hcp.
  eapply wp_of_ok; [exact Hrun|]. by apply HQ.
Qed.
(** All lines masked but those of [on], which go to processor 0. *)
Definition lines_ok (a : A) (mx : Z) (on : list Z) : Prop := ∀ j, 0 ≤ j ≤ mx →
  ioa_reg a (REG_TABLE + 2 * j) = (if bool_decide (j ∈ on) then T_IRQ0 + j else Z.lor INT_DISABLED (T_IRQ0 + j)) ∧
  ioa_reg a (REG_TABLE + 2 * j + 1) = 0.
Lemma wp_enable E m mx on irq (Q : unit → machine → Prop) :
  lines_ok (m_ioapic m) mx on → 0 ≤ irq ≤ 255 → (∀ a, lines_ok a mx (irq :: on) → Q tt (set_m_ioapic a m)) →
  wp E (on_ioapic (ioapicenable irq 0)) Q m.
Proof.
  intros Hl Hi HQ. apply wp_zoom. destruct (ioapicenable_spec irq 0 (m_ioapic m)) as (a & Hrun & Hr); [done|lia|].
  eapply wp_of_ok; [exact Hrun|]. apply HQ. intros j Hj. destruct (Hl j Hj) as [H1 H2]. rewrite !Hr, H2.
  rewrite (proj2 (Z.eqb_neq (REG_TABLE + 2 * j) (REG_TABLE + 2 * irq + 1))), (proj2 (Z.eqb_neq (REG_TABLE + 2 * j + 1) (REG_TABLE + 2 * irq))) by lia.
  rewrite H1. destruct (Z.eqb_spec (REG_TABLE + 2 * j) (REG_TABLE + 2 * irq)) as [Heq|Hne].
  - assert (j = irq) as -> by lia. rewrite Z.eqb_refl, bool_decide_eq_true_2 by set_solver. done.
  - rewrite (proj2 (Z.eqb_neq (REG_TABLE + 2 * j + 1) _)) by lia. split; [|done].
    assert (j ≠ irq) by lia. by rewrite (bool_decide_ext (j ∈ irq :: on) (j ∈ on)) by set_solver.
Qed.
Lemma wp_m_ioapicinit E m k0 pages Pd (Q : unit → machine → Prop) :
  early k0 (m_kern m) pages Pd →
  (∀ a k, lines_ok a (Z.land (Z.shiftr (ioa_reg (m_ioapic m) REG_VER) 16) 0xFF) [] → early k0 k pages Pd →
     k_lapic k = k_lapic (m_kern m) → Q tt (set_m_kern k (set_m_ioapic a m))) →
  wp E m_ioapicinit Q m.
Proof.
  intros He HQ. unfold m_ioapicinit. destruct (ioapicinit_read_spec (m_ioapic m)) as (a1 & Hrd). apply wp_bind, wp_zoom.
  eapply wp_of_ok; [exact Hrd|]. cbn [fst snd]. apply wp_bind, wp_gets, wp_bind.
  destruct (ioapicinit_mask_spec a1 (Z.shiftr (ioa_reg (m_ioapic m) REG_VER) 16)) as (a2 & Hrun & Hset).
  destruct (negb _); cbn [when].
  - apply wp_zoom. change [] with (AWord <$> []). eapply wp_early_cprintf; [exact He|vm_compute; reflexivity|]. intros k Hk Hla.
    apply wp_zoom. eapply wp_of_ok; [exact Hrun|]. by apply (HQ a2 k).
  - apply wp_ret, wp_zoom. eapply wp_of_ok; [exact Hrun|]. by apply (HQ a2 (m_kern m)).
Qed.
Lemma wp_uartinit E m k0 pages Pd mx (Q : unit → machine → Prop) :
  early k0 (m_kern m) pages Pd → lines_ok (m_ioapic m) mx [] →
  (∀ a k, lines_ok a mx [IRQ_COM1] → early k0 k pages Pd → k_lapic k = k_lapic (m_kern m) → Q tt (set_m_kern k (set_m_ioapic a m))) →
  wp E uartinit Q m.
Proof.
  intros He Hl HQ. unfold uartinit. apply wp_bind, wp_zoom. eapply wp_early_probe; [exact He|]. intros k1 H1 L1. cbn [negb].
  apply wp_bind. eapply (wp_enable E _ mx []); [exact Hl|unfold IRQ_COM1; lia|]. intros a Ha. apply wp_zoom.
  eapply wp_early_announce; [exact H1|]. intros k2 H2 L2. apply (HQ a k2); [done|done|exact (eq_trans L2 L1)].
Qed.
Lemma wp_ideinit E m k0 pages Pd mx (Q : unit → machine → Prop) :
  early k0 (m_kern m) pages Pd → lines_ok (m_ioapic m) mx [IRQ_COM1] → ncpu (m_mp m) = 1 →
  (∀ a k, lines_ok a mx [IRQ_IDE; IRQ_COM1] → early k0 k pages Pd → havedisk1 (fio (ffs (k_files k))) = 1 →
     k_lapic k = k_lapic (m_kern m) → Q tt (set_m_kern k (set_m_ioapic a m))) →
  wp E ideinit Q m.
Proof.
  intros He Hl Hn HQ. unfold ideinit. apply wp_bind, wp_gets. cbn [compose]. rewrite Hn. change (1 - 1) with 0.
  apply wp_bind. eapply (wp_enable E _ mx [IRQ_COM1]); [exact Hl|unfold IRQ_IDE; lia|]. intros a Ha. apply wp_zoom.
  eapply wp_early_disk; [exact He|]. intros k Hk Hd La. by apply (HQ a k).
Qed.

(** The first half of [main], with interrupts off. *)
Lemma wp_main_devices E m Pd conf mp es (Q : unit → machine → Prop) (rest : M machine unit) :
  powered m Pd conf mp es → let mx := Z.land (Z.shiftr (ioa_reg (m_ioapic m) REG_VER) 16) 0xFF in
  (∀ m', early (m_kern m) (m_kern m') (boot_pages (k_end (m_kern m))) Pd → havedisk1 (fio (ffs (k_files (m_kern m')))) = 1 →
     lines_ok (m_ioapic m') mx [IRQ_IDE; IRQ_COM1] → ncpu (m_mp m') = 1 → take 1 (apicids (m_mp m')) = [0] →
     lapic_reg (lhw (k_lapic (m_kern m'))) <$> [TIMER; TICR; TDCR; SVR; ERROR; LINT0; LINT1; TPR] =
       [PERIODIC + 32; 10000000; X1; ENABLE + 63; 51; MASKED; MASKED; 0] →
     m_devsw m' = <[CONSOLE := (Some Consoleread, Some Consolewrite)]> (replicate NDEV (None, None)) → wp E rest Q m') →
  wp E (e ← gets (k_end ∘ m_kern);
        on_kern (k_do_kmem (kinit e (P2V PHYSTOP)));;
        m_mpinit mpfuel;; on_kern (k_do_lapic lapicinit);; on_mp picinit;;
        m_ioapicinit;; consoleinit;; uartinit;; ideinit;; rest) Q m.
Proof.
  intros [Hcpu Hfl [He1 He2] Hfs _ _ Hdev Hby Hbase Htab Hlow [Hp Hmf] [Hn0 Hl8] Hla Hlines] mx HQ. pose proof PGSIZE_eq as HPG. set (pages := boot_pages (k_end (m_kern m))) in *.
  destruct (PGROUNDUP_spec (k_end (m_kern m))) as [_ Hup]; [lia|unfold PHYSTOP in *; lia|].
  assert (0x200000 ≤ PGROUNDUP (k_end (m_kern m))) as Hlim.
  { destruct (PGROUNDUP_spec (k_end (m_kern m))) as [Hmod _]; [lia|unfold PHYSTOP in *; lia|]. rewrite HPG in *.
    pose proof (Z_div_mod_eq_full (PGROUNDUP (k_end (m_kern m))) 1048576) as Hdm. rewrite Hmod in Hdm. lia. }
  apply wp_bind, wp_gets. apply wp_bind, wp_zoom. eapply wp_boot_kinit; [done|done|cbn [compose]; lia|done|]. intros k1 E1 L1. cbn [compose] in *.
  destruct (mp_table_below (k_mem (m_kern m)) (k_mem k1) (PGROUNDUP (k_end (m_kern m)))
    (λ x Hx, kp_mem _ _ _ (el_kept _ _ _ _ E1) x (proj2 Hx)) conf mp es) as [Htab1 Hla1]; [done|done|lia|done|done|].
  apply wp_bind. eapply wp_m_mpinit; [exact E1|exact Htab1|done..|]. intros s Hn Hcp Hls.
  change (lapic s = conf_lapicaddr (k_mem k1) conf) in Hls. rewrite Hla1 in Hls. apply wp_bind, wp_zoom, wp_zoom.
  pose proof (lapicinit_programs (mk_lapic_st (lapic s) (lhw (k_lapic k1)))) as Hl. cbn [lapic_ptr] in Hl.
  rewrite (proj2 (Z.eqb_neq _ _)) in Hl by (by rewrite Hls). destruct Hl as (l & Hrun & _ & Hregs & _). eapply wp_of_ok; [exact Hrun|].
  apply wp_bind, wp_zoom. unfold picinit. apply wp_bind, wp_modify, wp_modify.
  match goal with |- wp _ _ _ ?x => set (m1 := x) end.
  assert (early (m_kern m) (m_kern m1) pages Pd) as Em1 by (destruct E1 as [? [] ?]; by constructor).
  assert (k_lapic (m_kern m1) = l) as Lm1 by (by destruct l).
  change mx with (Z.land (Z.shiftr (ioa_reg (m_ioapic m1) REG_VER) 16) 0xFF) in HQ. assert (ncpu (m_mp m1) = 1) as Hn1 by exact Hn.
  assert (take 1 (apicids (m_mp m1)) = [0]) as Hcp1 by exact Hcp. assert (m_devsw m1 = replicate NDEV (None, None)) as Hdev1 by exact Hdev.
  clearbody m1. apply wp_bind. eapply wp_m_ioapicinit; [exact Em1|]. intros a2 k2 Ha2 E2 L2.
  apply wp_bind. unfold consoleinit. apply wp_bind, wp_modify, wp_modify.
  apply wp_bind. eapply wp_uartinit; [exact E2|exact Ha2|]. intros a3 k3 Ha3 E3 L3.
  apply wp_bind. eapply wp_ideinit; [exact E3|exact Ha3|exact Hn1|]. intros a4 k4 Ha4 E4 Hd4 L4.
  apply HQ; try done.
  - change (k_lapic _) with (k_lapic k4). rewrite L4. change (k_lapic _) with (k_lapic k3). rewrite L3.
    change (k_lapic _) with (k_lapic k2). rewrite L2, Lm1. exact Hregs.
  - cbn [m_devsw set_m_kern set_m_ioapic set_m_devsw]. rewrite Hdev1. reflexivity.
Qed.

Lemma lines_on (j : Z) : bool_decide (j ∈ [IRQ_IDE; IRQ_COM1]) = (j =? IRQ_COM1) || (j =? IRQ_IDE).
Proof.
  rewrite (bool_decide_ext _ (j = IRQ_COM1 ∨ j = IRQ_IDE)) by set_solver.
  destruct (Z.eqb_spec j IRQ_COM1), (Z.eqb_spec j IRQ_IDE); cbn [orb];
    [rewrite bool_decide_eq_true_2 by tauto..|rewrite bool_decide_eq_false_2 by tauto]; done.
Qed.
(** The three words of [lidt] make up the address. *)
Lemma idtr_base p : 0 ≤ p < 4294967296 → u16 p + 65536 * u16 (Z.shiftr (u32 p) 16) = p.
Proof.
  intros Hp. rewrite (u32_small p), Z.shiftr_div_pow2 by lia. unfold u16. change (2 ^ 16) with 65536. rewrite (Z.mod_small (p / 65536)).
  - pose proof (Z_div_mod_eq_full p 65536). lia.
  - split; [apply Z.div_pos; lia|apply Z.div_lt_upper_bound; lia].
Qed.

(** C2. The kernel starts. From the state the boot loader leaves, on a machine
    whose tables list one processor, with the serial chip and the second drive
    there and two pages of memory above the kernel, and with any disk from which
    recovery gets a whole file system, also one on which power failed, whose log
    has more than 24 blocks, and which has "console" in the root directory or
    else space for it there (an inode, six blocks, an entry and a link), [main]
    returns from every call and enters the scheduler. The machine is then in a
    state of the round-robin specification with exactly two processes ready,
    both at the start of their program. The file system is the recovered one. If
    the path "console" led nowhere, it leads to a new device now, number 1 of
    the table, entered in the root directory, and every other inode and file is
    as it was; if it led somewhere, it leads there still, and no inode or file
    has changed. The timer runs, the lines of the serial port and the disk are
    open to the one processor and all others masked, the console's routines are
    in the device table, and the processor's descriptor table is the one
    [tvinit] filled. *)
Theorem main_boots m Pd sb conf mp es :
  powered m Pd conf mp es → linked_at m → boot_disk Pd sb → bytes name → length name = DIRSIZ →
  ∃ m', main vectors idt_at trapret forkret_at initcode_start initcode_size mpfuel fuel name m = Ok (tt, m') ∧
    impl (ASched 0, <[0%nat:=first_regs]> {[1%nat:=first_regs]}) (CSched 0) (m_kern m') ∧
    (fsb (k_fs (m_kern m')) = sb ∧ tree sb (fview (k_fs (m_kern m'))) ∧
     console_made sb (recovered Pd sb) (fview (k_fs (m_kern m')))) ∧
    devices_up m m' ∧ ∃ g, k_gdt (m_kern m') = seginit g.
Proof.
  intros Hpw [[Htr Hfk] [Hi1 Hi2] Hidt] Hbd Hbn Hln. pose proof Hpw as [_ _ [He1 He2] _ [Hpl HpF] Hnp _ _ _ _ _ _ _ _ _].
  destruct (boot_pages_two (k_end (m_kern m))) as [(pg0 & pg1 & pages & Hpages) Htop]; [lia|done|].
  apply wp_run. unfold main. eapply wp_main_devices; [exact Hpw|]. intros m1 E1 Hd1 Hl1 Hn1 Hc1 Hr1 Hw1.
  apply wp_bind, wp_modify. apply wp_bind, wp_zoom. eapply wp_early_binit; [exact E1|exact Hd1|]. intros k2 E2 C2 L2.
  apply wp_bind, wp_zoom. apply wp_zoom, wp_ret. apply wp_bind, wp_modify. apply wp_bind, wp_zoom, wp_zoom, wp_modify.
  set (k3 := set_k_cpu _ _). assert (late (m_kern m) k3 (boot_pages (k_end (m_kern m))) Pd) as E3.
  { apply late_fls, E2. destruct (el_cpu _ _ _ _ E1) as [Hn0 _]. split; [exact (eq_trans (f_equal ncli C2) Hn0)|].
    unfold irq_on. cbn [eflags]. change FL_IF with (Z.shiftl 1 9). by rewrite testbit_lor_pow2. }
  assert (k_lapic k3 = k_lapic (m_kern m1)) as L3 by exact L2. clearbody k3.
  apply wp_bind, wp_zoom. eapply wp_late_iinit; [exact E3|]. intros k4 E4 S4 L4.
  apply wp_bind, wp_zoom. eapply wp_late_initlog; [exact E4|exact Hbd|exact (eq_trans S4 (bd_sb _ _ Hbd))|]. intros k5 M5 V5 Cu5 Ls5 L5.
  unfold main_mknod. apply wp_bind, wp_bind, wp_gets, wp_bind, wp_gets, wp_zoom.
  eapply wp_mounted_mknod; [exact M5|exact Hbd|exact V5|exact Cu5|exact Ls5|done|done|]. intros r k6 M6 Hcm L6.
  apply wp_bind, wp_zoom, wp_modify, wp_zoom. set (k7 := set_k_gdt _ _).
  assert (mounted (m_kern m) k7 (boot_pages (k_end (m_kern m))) sb) as M7 by (destruct M6 as [? [] ? ?]; by constructor).
  pose proof (mo_good _ _ _ _ M7) as Hg7. assert (linked (fview (k_fs k7)) sb ROOTINO) as Hroot.
  { assert (grows sb (fview (k_fs k5)) (fview (k_fs k7))) as Hgr.
    { unfold console_made in Hcm. destruct (resolve _ _ _ _ _); [by apply unchanged_grows, Hcm|]. by destruct Hcm as (? & _ & _ & _ & _ & Hgr & _). }
    apply Hgr. apply (linked_ext sb (recovered Pd sb)); [exact V5|apply Hbd]. }
  pose proof (before_pinit_mounted _ _ _ _ M7 Htop Hroot Htr Hfk Hi1 Hi2) as Hbp.
  rewrite Hpages in Hbp. pose proof (mo_kept _ _ _ _ M7) as K7.
  destruct (main_started _ _ _ _ _ _ fuel name k7 pg0 pg1 pages [] [] [] Hbp) as (k' & Hrun & Him & HV' & Hsb' & HL' & HG');
    [cbn; unfold NINODE; lia|by rewrite (kp_ptable _ _ _ K7)|by rewrite (kp_ptable _ _ _ K7)|by rewrite (kp_nextpid _ _ _ K7)|done|done|].
  eapply wp_of_ok; [exact Hrun|]. split_and!; [exact Him|exact Hsb'| | |constructor|].
  - eapply tree_ext; [intros b; symmetry; apply HV'|]. rewrite <- (mo_sb _ _ _ _ M7). apply Hg7.
  - eapply console_made_ext; [|exact HV'|exact Hcm]. intros b. symmetry. apply V5.
  - split; [exact Hn1|exact Hc1].
  - assert (k_lapic k' = k_lapic (m_kern m1)) as HLa by exact (eq_trans HL' (eq_trans L6 (eq_trans L5 (eq_trans L4 L3)))).
    change (k_lapic _) with (k_lapic k'). rewrite HLa. exact Hr1.
  - intros j Hj. rewrite <- lines_on. exact (Hl1 j Hj).
  - intros ps f. cbn [m_devsw set_m_kern set_m_idtr set_m_idt]. rewrite Hw1. apply dev_routines_console.
  - split; [done|]. cbn [m_idtr set_m_kern set_m_idtr]. by rewrite idtr_base.
  - exists (k_gdt k6). exact HG'.
Qed.
End theorems.

(** ** A machine to start

    One processor, the image of mkfs.c on the second drive, and chips that
    answer. *)
#[global] Instance drive_present : DrivePresent drive.
Proof. intros d. done. Qed.
#[global] Instance chip_present : ChipPresent chip.
Proof. intros u. cbn. by destruct (chip_rx u). Qed.

Definition one_entries : list mpentry := [EProc 0 (replicate 18 0); EOther MPBUS (replicate 7 0); EIoapic 2 (replicate 6 0)].
Definition one_bios : mem := demo_memory (demo_table (concat (enc_entry <$> one_entries)) [] 153).
Definition off_con : con chip := mk_con (mk_cpu 0 0 0) 0 (replicate 128 0) 0 0 0 (mk_chip [] []).
Definition off_fs : fss drive (con chip) :=
  mk_fss (mk_lst (mk_ide (mk_cpu 0 0 0) (replicate (S NBUF) zero_buf) None 0 demo_disk []) zero_log)
    zero_sb (replicate NINODE zero_inode) off_con.
Definition off_kern : kern drive chip demo_lapic :=
  mk_kern (mk_cpu 0 0 0) one_bios 0 0x180000 (mk_fls off_fs (replicate NFILE zero_file))
    (mk_lapic_st 0 (mk_demo_lapic ∅ 0)) demo_gdt (replicate NPROC no_proc) 1 None None 0.
Definition off_machine : machine drive chip demo_lapic (list (Z * Z)) demo_ioapic :=
  mk_machine off_kern demo_mpst (mk_demo_ioapic 0 {[ REG_VER := 0x170011 ]}) (replicate NDEV (None, None)) [] (0, 0).

Lemma demo_memory_bytes table x : bytes table → 0 ≤ demo_memory table x < 256.
Proof.
  intros Hb. unfold demo_memory. destruct (x <? 0xF0000); [lia|].
  destruct (_ !! Z.to_nat (x - 0xF0000)) as [y|] eqn:Hy; cbn; [|lia]. apply list_elem_of_lookup_2 in Hy.
  rewrite !elem_of_app in Hy. unfold bytes in Hb. rewrite Forall_forall in Hb.
  destruct Hy as [Hy|[Hy|Hy]]; [|apply elem_of_replicate in Hy as [-> _]; lia|by apply Hb].
  assert (Forall (λ b, 0 ≤ b < 256) demo_pointer) as HF by (repeat constructor; lia). rewrite Forall_forall in HF. by apply HF.
Qed.
Lemma off_powered : powered 9 off_machine demo_view 0xF0100 0xF0000 one_entries.
Proof.
  constructor; try reflexivity.
  - by split.
  - vm_compute. intuition congruence.
  - by constructor.
  - split; [reflexivity|]. apply (bool_decide_unpack _). vm_compute. exact I.
  - intros x. apply demo_memory_bytes. apply (bool_decide_unpack _). vm_compute. exact I.
  - vm_compute. congruence.
  - constructor; [vm_compute; reflexivity|repeat constructor|vm_compute; reflexivity|vm_compute; reflexivity|lia|vm_compute; reflexivity].
  - vm_compute. congruence.
  - split; [reflexivity|cbn; lia].
  - by split.
  - vm_compute. congruence.
  - vm_compute. congruence.
Qed.
Lemma demo_recovered b : recovered demo_view mksb b = demo_view b.
Proof.
  unfold recovered, recover, recovery_writes. change (s32 (sb_logstart mksb)) with 2.
  assert (hdr_blocks (demo_view 2) = []) as -> by (vm_compute; reflexivity). cbn [installs copy_writes app replay].
  destruct (decide (b = 2)) as [->|Hb]; [vm_compute; reflexivity|]. cbn. unfold wr. by rewrite decide_False.
Qed.
Lemma demo_boot_disk : boot_disk demo_view mksb.
Proof.
  assert (∀ n, inode_at (recovered demo_view mksb) mksb n = inode_at demo_view mksb n) as Hi.
  { intros n. unfold inode_at. by rewrite demo_recovered. }
  constructor; rewrite ?Hi.
  - vm_compute. reflexivity.
  - constructor; vm_compute; intuition congruence.
  - split; [vm_compute; reflexivity|]. assert (hdr_blocks (demo_view (s32 (sb_logstart mksb))) = []) as -> by (vm_compute; reflexivity).
    change (s32 (sb_nlog mksb)) with 30. split_and!; [apply NoDup_nil_2|done|cbn; lia|cbn; lia].
  - constructor; vm_compute; congruence.
  - eapply tree_ext; [|exact demo_whole_tree]. intros b. symmetry. apply demo_recovered.
  - intros b Hb. unfold used. rewrite demo_recovered.
    assert (Forall (λ b, bit_at (demo_view (BBLOCK b mksb)) (b mod BPB) = true) (seqZ 0 59)) as HF.
    { apply (bool_decide_unpack _). vm_compute. exact I. }
    change (sb_bmapstart mksb) with 58 in Hb. rewrite Forall_forall in HF. apply HF, elem_of_seqZ. lia.
  - apply (linked_ext mksb demo_view); [exact demo_recovered|]. apply demo_linked. by left.
  - vm_compute. reflexivity.
  - intros _. apply (has_space_ext demo_view); [intros b; symmetry; apply demo_recovered|]. constructor.
    + apply (bool_decide_unpack _). vm_compute. exact I.
    + exists 3. split; [vm_compute; intuition congruence|vm_compute; reflexivity].
    + split; vm_compute; congruence.
  - vm_compute. reflexivity.
Qed.
Definition off_vectors : list Z := (λ i, 0x102000 + 10 * i) <$> seqZ 0 256.

Lemma main_boots_witness : ∃ m' n,
  main off_vectors 0x115000 0x104000 0x103000 0x10a000 44 9 0 junk off_machine = Ok (tt, m') ∧
  impl (ASched 0, <[0%nat:=first_regs]> {[1%nat:=first_regs]}) (CSched 0) (m_kern m') ∧
  resolve (fview (k_fs (m_kern m'))) mksb false [chars "console"] ROOTINO = Some n.
Proof.
  destruct (main_boots off_vectors 0x115000 0x104000 0x103000 0x10a000 44 9 0 junk off_machine demo_view mksb 0xF0100 0xF0000 one_entries)
    as (m' & Hrun & Him & (_ & _ & Hcm) & _).
  - exact off_powered.
  - constructor; [lia|split; [vm_compute; split; congruence|vm_compute; congruence]|lia].
  - exact demo_boot_disk.
  - apply (bool_decide_unpack _). vm_compute. exact I.
  - reflexivity.
  - unfold console_made in Hcm. rewrite (resolve_ext _ demo_view) in Hcm by exact demo_recovered.
    assert (resolve demo_view mksb false console_path ROOTINO = None) as Hno by (vm_compute; reflexivity). rewrite Hno in Hcm.
    destruct Hcm as (n & _ & _ & _ & Hp & _). exists m', n. split_and!; [exact Hrun|exact Him|exact Hp].
Defined.
