(* ===== verification/InitTheorems.v ===== *)
(** * Correctness of the first user program

    [main] of init.c through printf.c, the stubs of usys.S, the system calls,
    the open files, the file system and the console, down to the bytes on the
    serial line. *)

From S2P Require Import Prelude Spinlock CString Ide Drive Bio BioFacts Layout Mkfs Log LogDisk LogFacts LogSpecs LogCrash Fs FsFacts FsInodes FsFiles FsTable FsWrite FsDirs FsPaths FsNames FsTree FsNodes File FileFacts FileCreate FileTxn Boot Demo NameTheorems CreateTheorems Kalloc Syscall Console ConsoleFacts Printf Kernel Init InitFacts.

Section theorems.
Context {D U : Type} {dev : IdeDevice D} {dok : IdeDeviceOk D} {udev : Uart U} {uok : UartOk U}.
Context (ps : list pcb) (fuel : nat) (name : list Z).
Abbreviation devtab := (devtab ps fuel).
Context (ra depth : nat → Z) (console_at : Z).
Implicit Types s : sys D (con U).

(** The process at the start of [main], with [stack] bytes of stack: the
    string is in its memory, it may open one more file, and the path leads to
    the device 1. *)
Record init_ready s (R : list nat) (n : Z) (stack : Z) (f : nat) (x : file) : Prop := {
  ir_good : fs_good (ffs (sfl s)) [] [] R;
  ir_root : linked (fview (ffs (sfl s))) (fsb (ffs (sfl s))) ROOTINO;
  ir_refs : (S (length R) < NINODE)%nat;
  ir_path : resolve (fview (ffs (sfl s))) (fsb (ffs (sfl s))) false [chars "console"] ROOTINO = Some n;
  ir_dev : di_type (inode_at (fview (ffs (sfl s))) (fsb (ffs (sfl s))) n) = T_DEV ∧
    di_major (inode_at (fview (ffs (sfl s))) (fsb (ffs (sfl s))) n) = Z.of_nat CONSOLE;
  ir_uart : uart (frest (ffs (sfl s))) ≠ 0;
  ir_file : free_file (ftable (sfl s)) f x;
  ir_fd : None ∈ take (Z.to_nat NOFILE) (p_ofile (sproc s));
  ir_proc : proc_ok (sproc s);
  ir_stack : stack ≤ p_esp (sproc s) ≤ p_sz (sproc s);
  ir_depth i : 0 ≤ depth i ≤ stack - 20;
  ir_string : load_bytes (smem s) (p_offset (sproc s) + console_at) 8 = str "console";
  ir_apart : 0 ≤ console_at ∧ (console_at + 8 ≤ p_esp (sproc s) - stack ∨ p_esp (sproc s) ≤ console_at ∧ console_at + 8 ≤ p_sz (sproc s));
}.

Lemma wp_syscall E num m (Q : unit → sys D (con U) → Prop) s :
  p_eax (sproc s) = num → 0 < num < 2147483648 → syscalls devtab name num = Some m →
  wp E m (λ r s', Q tt (set_sproc (set_p_eax (u32 r) (sproc s')) s')) s → wp E (syscall devtab name) Q s.
Proof.
  intros He Hn Hm HQ. unfold syscall. apply wp_bind, wp_gets. rewrite He, s32_small, Z.gtb_ltb, (proj2 (Z.ltb_lt _ _)), Hm by lia.
  apply wp_bind. eapply wp_mono; [exact HQ|]. intros r s' Hs'. by apply wp_modify.
Qed.

(** Between the open and the close: descriptor [fd] is the file, [bs] has been
    transmitted, and memory differs in the stack only. *)
Record talking s0 s (stack : Z) (f : nat) (fd : Z) (x : file) (i : nat) (p : inode) (n : Z) (R : list nat) (bs : list Z) : Prop := {
  tk_con : on_console (sfl s) f x i p n R;
  tk_files : ftable (sfl s) = <[f:=x]> (ftable (sfl s0));
  tk_says : speaks (ffs (sfl s0)) (ffs (sfl s)) bs;
  tk_proc : ∃ e, sproc s = set_p_eax e (set_p_ofile (<[Z.to_nat fd:=Some f]> (p_ofile (sproc s0))) (sproc s0));
  tk_mem : within (p_offset (sproc s0) + (p_esp (sproc s0) - stack)) (p_offset (sproc s0) + p_esp (sproc s0)) (smem s0) (smem s);
  tk_ticks : ticks s = ticks s0;
}.

Lemma fd_free l f p : None ∈ take (Z.to_nat NOFILE) (p_ofile p) → l = p_ofile p →
  ∃ fd, fdalloc p f = Some (fd, set_p_ofile (<[Z.to_nat fd:=Some f]> l) p) ∧ 0 ≤ fd < NOFILE ∧ l !! Z.to_nat fd = Some None.
Proof.
  intros [j Hj]%list_elem_of_lookup ->. unfold fdalloc.
  destruct (fdalloc_scan 0 (take (Z.to_nat NOFILE) (p_ofile p))) as [k|] eqn:Hk.
  - destruct (fdalloc_scan_spec _ _ _ Hk) as (k' & -> & Hl & _). apply lookup_take_Some in Hl as [Hl Hlt]. cbn [Nat.add].
    exists (Z.of_nat k'). cbn [mbind option_bind]. rewrite Nat2Z.id. split_and!; [done|lia|lia|done].
  - destruct (fdalloc_scan_none _ _ j Hk) as [y Hy]; [by eapply lookup_lt_Some|congruence].
Qed.

Lemma wp_uopen E R n stack f x (Q : Z → sys D (con U) → Prop) s :
  init_ready s R n stack f x → bytes name → length name = DIRSIZ →
  (∀ fd x' i p s', 0 ≤ fd < NOFILE → p_ofile (sproc s) !! Z.to_nat fd = Some None → talking s s' stack f fd x' i p n R [] → Q fd s') →
  wp E (ucall devtab name SYS_open [console_at; O_RDWR] (ra 0)) Q s.
Proof.
  intros [Hg Hroot HR Hp [Hd1 Hd2] Hu Hf Hfd Hok Hst Hdep Hstr [Hca Hap]] Hbn Hln HQ. pose proof (Hdep 0%nat) as Hdep0. pose proof Hok as (Ho1 & Ho2 & Ho3).
  apply wp_ucall; [done|cbn; lia|]. cbn [length]. change (4 * Z.of_nat 3) with 12. intros m' Hm' Harg.
  set (p1 := set_p_eax SYS_open (set_p_esp (p_esp (sproc s) - 12) (sproc s))) in *.
  destruct (fd_free (p_ofile (sproc s)) f p1 Hfd eq_refl) as (fd & Hal & Hfr & Hno).
  assert (load_bytes m' (p_offset (sproc s) + console_at) 8 = str "console") as Hstr'.
  { rewrite <- Hstr. eapply within_bytes; [exact Hm'|]. lia. }
  eapply (wp_syscall E SYS_open); [reflexivity|unfold SYS_open; lia|reflexivity|].
  eapply (wp_sys_open_con ps fuel name E (chars "console") 7 (p_offset (sproc s) + console_at) n R f x fd); try done.
  - cbn [smem sproc]. unfold argstr. change (argint m' p1 0) with (argint m' p1 (Z.of_nat 0)). rewrite (Harg 0%nat console_at eq_refl). cbn [mbind option_bind].
    rewrite s32_small, u32_small by lia. apply (fetchstr_at m' p1 console_at (chars "console")); cbn [p_sz p_offset p1 set_p_eax set_p_esp]; try done.
    + change (Z.of_nat (length (chars "console"))) with 7. lia.
    + apply (bool_decide_unpack _). vm_compute. exact I.
  - cbn [smem sproc]. apply (Harg 1%nat O_RDWR eq_refl).
  - apply (bool_decide_unpack _). vm_compute. exact I.
  - apply (bool_decide_unpack _). vm_compute. exact I.
  - intros t' x' i p Hoc Hs. cbn [sproc set_sproc p_esp set_p_eax set_p_ofile p_eax smem sfl ticks] in *. split; [done|].
    rewrite s32_u32, s32_small by (unfold NOFILE in *; lia). apply (HQ fd x' i p); [done|done|]. constructor; cbn [sfl sproc smem ticks set_sproc set_p_esp set_p_eax]; try done.
    + exists (u32 fd). unfold p1. by destruct (sproc s).
    + eapply within_sub; [exact Hm'|lia|lia].
Qed.

(** A process with [stack] bytes of stack and the descriptor [fd]. *)
Record has_fd (p : proc) (stack fd : Z) : Prop := {
  hf_proc : proc_ok p;
  hf_stack : 20 ≤ stack ≤ p_esp p ∧ p_esp p ≤ p_sz p;
  hf_fd : 0 ≤ fd < NOFILE ∧ p_ofile p !! Z.to_nat fd = Some None;
}.

Lemma wp_uuptime E s0 s stack f fd x i p n R bs (Q : Z → sys D (con U) → Prop) :
  has_fd (sproc s0) stack fd → talking s0 s stack f fd x i p n R bs →
  (∀ s', talking s0 s' stack f fd x i p n R bs → Q (s32 (ticks s0)) s') →
  wp E (ucall devtab name SYS_uptime [] (ra 1)) Q s.
Proof.
  intros [Hok Hst _] [Hc Hfs Hsa [e He] Hm Ht] HQ. apply wp_ucall; [by rewrite He|rewrite He; cbn; lia|]. cbn [length]. change (4 * Z.of_nat 1) with 4.
  intros m' Hm' _. eapply (wp_syscall E SYS_uptime); [reflexivity|unfold SYS_uptime; lia|reflexivity|].
  unfold sys_uptime. apply wp_bind, wp_get, wp_ret. cbn [sproc set_sproc p_esp set_p_eax set_p_esp p_eax ticks]. split; [done|].
  rewrite s32_u32, Ht, (s32_small (s32 _)) by apply s32_range. apply HQ. constructor; cbn [sfl sproc smem ticks]; try done.
  - rewrite He. eexists. reflexivity.
  - eapply within_trans; [exact Hm|]. rewrite He in Hm'. eapply within_sub; [exact Hm'|cbn; lia|cbn; lia].
Qed.

Lemma wp_putc E s0 s stack f fd x i p n R bs c d ret (Q : unit → sys D (con U) → Prop) :
  has_fd (sproc s0) stack fd → talking s0 s stack f fd x i p n R bs → uart (frest (ffs (sfl s0))) ≠ 0 →
  0 ≤ c < 256 → 0 ≤ d ≤ stack - 20 →
  (∀ x' s', talking s0 s' stack f fd x' i p n R (bs ++ [c]) → Q tt s') →
  wp E (putc devtab name fd c d ret) Q s.
Proof.
  intros [Hok Hst [Hfd Hno]] [Hc Hfs Hsa [e He] Hm Ht] Hu Hcr Hd HQ. pose proof Hok as (H1 & H2 & H3).
  assert (p_esp (sproc s) = p_esp (sproc s0) ∧ p_sz (sproc s) = p_sz (sproc s0) ∧ p_offset (sproc s) = p_offset (sproc s0)) as (Hesp & Hsz & Hoff) by (by rewrite He).
  unfold putc, set_esp. apply wp_bind, wp_modify. rewrite u32_small by lia.
  apply wp_bind, wp_push; cbn [sproc set_sproc set_p_esp p_esp p_sz p_offset]; [unfold proc_ok; cbn; lia|lia|].
  set (a := p_esp (sproc s) - d - 4). set (m1 := store4 _ _ _). cbn [set_sproc smem sfl ticks].
  apply wp_bind, wp_gets. cbn [sproc p_esp set_p_esp]. apply wp_bind.
  apply wp_ucall; cbn [sproc p_esp set_p_esp p_sz p_offset length]; [unfold proc_ok; cbn; lia|lia|]. change (4 * Z.of_nat 4) with 16. cbn [smem sfl ticks].
  intros m2 Hm2 Harg. set (p1 := set_p_eax SYS_write _) in *.
  pose proof (Harg 0%nat fd eq_refl) as A0. pose proof (Harg 1%nat a eq_refl) as A1. pose proof (Harg 2%nat 1 eq_refl) as A2.
  change (Z.of_nat 0) with 0 in A0. change (Z.of_nat 1) with 1 in A1. change (Z.of_nat 2) with 2 in A2.
  rewrite s32_small in A0 by (unfold NOFILE in *; lia). rewrite s32_small in A1 by lia. change (s32 1) with 1 in A2.
  assert (m1 (p_offset (sproc s) + a) = c) as Hbyte.
  { unfold m1, store4. rewrite !store_spec. rewrite !decide_False by lia. rewrite decide_True by done.
    rewrite (u32_small c) by lia. by apply u8_small. }
  eapply (wp_syscall E SYS_write); [reflexivity|unfold SYS_write; lia|reflexivity|].
  eapply (wp_sys_write_con ps fuel E fd f x i p n R (p_offset (sproc s) + a) c).
  - cbn [smem sproc]. unfold argfd. rewrite A0. cbn [mbind option_bind]. rewrite (proj2 (Z.ltb_ge fd 0)), Z.geb_leb, (proj2 (Z.leb_gt NOFILE fd)) by lia.
    cbn [orb]. assert (p_ofile p1 !! Z.to_nat fd = Some (Some f)) as ->; [|done].
    unfold p1. cbn [p_ofile set_p_eax set_p_esp]. rewrite He. cbn [p_ofile set_p_eax set_p_ofile]. apply list_lookup_insert_eq. by eapply lookup_lt_Some.
  - exact A2.
  - cbn [smem sproc]. unfold argptr. rewrite A1. cbn [mbind option_bind]. unfold p1. cbn [p_sz p_offset set_p_eax set_p_esp].
    rewrite (u32_small a), (u32_small (a + 1)), Z.geb_leb, Z.gtb_ltb, (proj2 (Z.leb_gt _ _)), (proj2 (Z.ltb_ge (p_sz (sproc s)) (a + 1))) by lia. cbn [orb Z.ltb Z.compare].
    rewrite u32_small by lia. f_equal. lia.
  - cbn [smem]. rewrite Hm2 by lia. exact Hbyte.
  - done.
  - exact Hc.
  - cbn [sfl]. by rewrite (speaks_uart _ _ _ Hsa).
  - intros t' x' Hoc Hs'. cbn [sproc set_sproc set_sfl sfl smem ticks p_esp set_p_eax set_p_esp p_eax]. split; [done|]. apply wp_modify.
    cbn [sproc set_sproc p_esp set_p_esp smem sfl ticks]. replace (u32 (a + 4 + d)) with (p_esp (sproc s)) by (rewrite u32_small by lia; lia).
    apply (HQ x'). constructor; cbn [sfl sproc smem ticks ffs ftable]; try done.
    + rewrite Hfs. by rewrite list_insert_insert_eq.
    + exact (speaks_trans _ _ _ _ _ Hsa Hs').
    + rewrite He. eexists. unfold p1. rewrite He. reflexivity.
    + eapply within_trans; [exact Hm|]. apply within_trans with m1.
      * unfold m1. eapply within_sub; [apply within_store4|lia|lia].
      * eapply within_sub; [exact Hm2|lia|lia].
Qed.
Lemma wp_putcs E s0 stack f fd i p n R cs bs k x s (Q : unit → sys D (con U) → Prop) :
  has_fd (sproc s0) stack fd → talking s0 s stack f fd x i p n R bs → uart (frest (ffs (sfl s0))) ≠ 0 →
  bytes cs → (∀ j, 0 ≤ depth j ≤ stack - 20) →
  (∀ x' s', talking s0 s' stack f fd x' i p n R (bs ++ cs) → Q tt s') →
  wp E (putcs devtab name ra depth fd cs k) Q s.
Proof.
  intros Hfd Ht Hu Hb Hd. revert bs k x s Ht. induction Hb as [|c cs Hc Hb IH]; intros bs k x s Ht HQ; cbn [putcs].
  - apply wp_ret. apply (HQ x). by rewrite app_nil_r.
  - apply wp_bind. eapply wp_putc; [done..|apply Hd|]. intros x' s' Ht'. eapply IH; [exact Ht'|].
    intros x2 s2 H2. apply (HQ x2). by rewrite <- app_assoc in H2.
Qed.

Lemma wp_uclose E s0 s stack f fd x i p n R bs (Q : Z → sys D (con U) → Prop) :
  has_fd (sproc s0) stack fd → talking s0 s stack f fd x i p n R bs → (length R < NINODE)%nat →
  (∀ t' x' m' e, fs_good t' [] [] R → speaks (ffs (sfl s0)) t' bs → f_ref x' = 0 →
     within (p_offset (sproc s0) + (p_esp (sproc s0) - stack)) (p_offset (sproc s0) + p_esp (sproc s0)) (smem s0) m' →
     Q 0 (mk_sys (mk_fls t' (<[f:=x']> (ftable (sfl s0)))) m' (set_p_eax e (sproc s0)) (ticks s0))) →
  wp E (ucall devtab name SYS_close [fd] (ra 2)) Q s.
Proof.
  intros [Hok Hst [Hfd Hno]] [Hc Hfs Hsa [e He] Hm Ht] HR HQ. pose proof Hok as (H1 & H2 & H3).
  apply wp_ucall; [by rewrite He|rewrite He; cbn; lia|]. cbn [length]. change (4 * Z.of_nat 2) with 8. intros m' Hm' Harg.
  set (p1 := set_p_eax SYS_close _) in *. pose proof (Harg 0%nat fd eq_refl) as A0. change (Z.of_nat 0) with 0 in A0.
  rewrite s32_small in A0 by (unfold NOFILE in *; lia).
  assert (p_ofile p1 = <[Z.to_nat fd:=Some f]> (p_ofile (sproc s0))) as Ho by (unfold p1; by rewrite He).
  eapply (wp_syscall E SYS_close); [reflexivity|unfold SYS_close; lia|reflexivity|].
  eapply (wp_sys_close_con E fd f x i p n R); [|exact Hc|done|].
  - cbn [smem sproc]. unfold argfd. rewrite A0. cbn [mbind option_bind]. rewrite (proj2 (Z.ltb_ge fd 0)), Z.geb_leb, (proj2 (Z.leb_gt NOFILE fd)) by lia.
    cbn [orb]. rewrite Ho, list_lookup_insert_eq by (by eapply lookup_lt_Some). done.
  - intros t' Hg' Hs'. cbn [sproc set_sproc sfl smem ticks p_esp set_p_eax set_p_esp set_p_ofile p_eax]. split; [done|].
    rewrite Ho, Ht, Hfs, !list_insert_insert_eq, list_insert_id by done. set (x' := set_f_type _ _). change (s32 (u32 0)) with 0.
    assert (∀ b, set_p_esp b (set_p_eax (u32 0) (set_p_ofile (p_ofile (sproc s0)) p1)) = set_p_esp b (set_p_eax (u32 0) (sproc s0))) as -> by (intros b; unfold p1; by rewrite He).
    assert (p_esp (sproc s) = p_esp (sproc s0)) as -> by (by rewrite He).
    assert (set_p_esp (p_esp (sproc s0)) (set_p_eax (u32 0) (sproc s0)) = set_p_eax (u32 0) (sproc s0)) as -> by (by destruct (sproc s0)).
    apply HQ; [done| |done|].
    + rewrite <- (app_nil_r bs). exact (speaks_trans _ _ _ _ _ Hsa Hs').
    + eapply within_trans; [exact Hm|]. rewrite He in Hm'. eapply within_sub; [exact Hm'|cbn; lia|cbn; lia].
Qed.

(** What the greeting looks like. *)
Definition greeted (ds : list Z) : list Z :=
  chars "Hello from init.c. It's " ++ (DIGIT <$> ds) ++ chars " ticks since start." ++ [10].
Lemma printf_greeting v : 0 ≤ v < 2147483648 →
  ∃ ds, numeral_of 10 v ds ∧ printf greeting [AWord v] = Some (greeted ds) ∧ bytes (greeted ds).
Proof.
  intros Hv. destruct (printf_number (chars "Hello from init.c. It's ") (chars " ticks since start." ++ [10]) v) as (ds & Hn & Hp);
    [apply (bool_decide_unpack _); vm_compute; exact I..|done|]. exists ds. split_and!; [done| |].
  - change greeting with (chars "Hello from init.c. It's " ++ 37 :: 100 :: (chars " ticks since start." ++ [10]) ++ [0]). by rewrite Hp.
  - unfold greeted. apply Forall_app. split; [apply (bool_decide_unpack _); vm_compute; exact I|]. apply Forall_app. split; [by eapply numeral_bytes|].
    apply (bool_decide_unpack _). vm_compute. exact I.
Qed.

(** The end of a run from [s]: [ds] is on the line, and nothing is left
    behind. *)
Record greets s s' (R : list nat) (stack : Z) (f : nat) (ds : list Z) : Prop := {
  gr_line : tx (uhw (frest (ffs (sfl s')))) = tx (uhw (frest (ffs (sfl s)))) ++ greeted ds;
  gr_good : fs_good (ffs (sfl s')) [] [] R;
  gr_disk : (∀ b, fview (ffs (sfl s')) b = fview (ffs (sfl s)) b) ∧ wrote (fio (ffs (sfl s'))) = wrote (fio (ffs (sfl s)));
  gr_files : ∃ x', ftable (sfl s') = <[f:=x']> (ftable (sfl s)) ∧ f_ref x' = 0;
  gr_fds : p_ofile (sproc s') = p_ofile (sproc s);
  gr_esp : p_esp (sproc s') = p_esp (sproc s);
  gr_mem : within (p_offset (sproc s) + (p_esp (sproc s) - stack)) (p_offset (sproc s) + p_esp (sproc s)) (smem s) (smem s');
}.
Lemma wp_init_main E s R n stack f x (Q : unit → sys D (con U) → Prop) :
  init_ready s R n stack f x → bytes name → length name = DIRSIZ → 0 ≤ ticks s < 2147483648 →
  (∀ ds s', numeral_of 10 (ticks s) ds → greets s s' R stack f ds → Q tt s') →
  wp E (init_main devtab name ra depth console_at) Q s.
Proof.
  intros Hr Hbn Hln Htk HQ. destruct (printf_greeting (ticks s) Htk) as (ds & Hn & Hpr & Hb).
  pose proof Hr as [_ _ HR _ _ Hu _ _ Hok Hst Hdep _ _].
  unfold init_main. apply wp_bind. eapply wp_uopen; [exact Hr|done|done|]. intros fd x1 i p s1 Hfd Hno T1.
  assert (has_fd (sproc s) stack fd) as Hf by (constructor; [done|pose proof (Hdep 0%nat); lia|done]).
  apply wp_bind. eapply wp_uuptime; [exact Hf|exact T1|]. intros s2 T2. rewrite s32_small by lia.
  apply wp_bind. unfold u_printf. rewrite Hpr. eapply (wp_putcs _ s stack f fd i p n R (greeted ds) []); [exact Hf|exact T2|exact Hu|exact Hb|exact Hdep|].
  intros x3 s3 T3. cbn [app] in T3. apply wp_bind. eapply wp_uclose; [exact Hf|exact T3|lia|].
  intros t' x' m' e Hg Hs Hx Hm. apply wp_ret. apply (HQ ds); [done|].
  destruct Hs as [Hv _ Hw _ (c & u & Hfr & _ & Htx)]. constructor; cbn [sfl ffs ftable sproc smem p_ofile p_esp set_p_eax]; try done; [by rewrite Hfr|by exists x'].
Qed.
(** The frame of [start]. *)
Lemma init_ready_frame s R n stack f x m : init_ready s R n stack f x → (∀ i, 0 ≤ depth i ≤ stack - 32) →
  within (p_offset (sproc s) + (p_esp (sproc s) - 12)) (p_offset (sproc s) + p_esp (sproc s)) (smem s) m →
  init_ready (mk_sys (sfl s) m (set_p_esp (p_esp (sproc s) - 12) (sproc s)) (ticks s)) R n (stack - 12) f x.
Proof.
  intros [? ? ? ? ? ? ? ? Hok Hst _ Hstr Hap] Hdep Hm. pose proof (Hdep 0%nat). constructor; cbn [sfl sproc smem p_offset p_esp p_sz p_ofile set_p_esp]; try done.
  - lia.
  - intros i. specialize (Hdep i). lia.
  - rewrite <- Hstr. eapply within_bytes; [exact Hm|]. lia.
  - lia.
Qed.

(** C3. The first user program greets. Started with room on its stack, a free
    descriptor and file, and a disk on which the path "console" leads to the
    device 1, the code of initcode.S and init.c gets to its endless loop: the
    serial chip has transmitted exactly the line with the number of ticks in
    decimal, the descriptor and the file are free again, the inode's reference
    is given back, nothing has been written to the disk, and memory has
    changed nowhere but in the stack. *)
Theorem init_greets ret s R n stack f x :
  init_ready s R n stack f x → (∀ i, 0 ≤ depth i ≤ stack - 32) → bytes name → length name = DIRSIZ → 0 ≤ ticks s < 2147483648 →
  ∃ ds s', start devtab name ra depth console_at ret s = Ok (tt, s') ∧ numeral_of 10 (ticks s) ds ∧
    tx (uhw (frest (ffs (sfl s')))) = tx (uhw (frest (ffs (sfl s)))) ++ greeted ds ∧
    (fs_good (ffs (sfl s')) [] [] R ∧ (∀ b, fview (ffs (sfl s')) b = fview (ffs (sfl s)) b) ∧
     wrote (fio (ffs (sfl s'))) = wrote (fio (ffs (sfl s)))) ∧
    (∃ x', ftable (sfl s') = <[f:=x']> (ftable (sfl s)) ∧ f_ref x' = 0) ∧
    p_ofile (sproc s') = p_ofile (sproc s) ∧
    within (p_offset (sproc s) + (p_esp (sproc s) - stack)) (p_offset (sproc s) + p_esp (sproc s)) (smem s) (smem s').
Proof.
  intros Hr Hdep Hbn Hln Htk. pose proof Hr as [_ _ _ _ _ _ _ _ Hok Hst _ _ _]. pose proof (Hdep 0%nat) as Hd0.
  assert (∃ s', start devtab name ra depth console_at ret s = Ok (tt, s') ∧ ∃ m ds, numeral_of 10 (ticks s) ds ∧
    within (p_offset (sproc s) + (p_esp (sproc s) - 12)) (p_offset (sproc s) + p_esp (sproc s)) (smem s) m ∧
    greets (mk_sys (sfl s) m (set_p_esp (p_esp (sproc s) - 12) (sproc s)) (ticks s)) s' R (stack - 12) f ds) as (s' & Hrun & m & ds & Hn & Hm & Hgr).
  { apply wp_run. unfold start. do 3 (apply wp_bind, wp_push; cbn [sproc p_esp set_p_esp p_sz p_offset smem sfl ticks]; [done|lia|]).
    set (m := store4 _ _ _). assert (within (p_offset (sproc s) + (p_esp (sproc s) - 12)) (p_offset (sproc s) + p_esp (sproc s)) (smem s) m) as Hm.
    { unfold m. intros y Hy. rewrite !store4_other by lia. done. }
    replace (p_esp (sproc s) - 4 - 4 - 4) with (p_esp (sproc s) - 12) by lia.
    assert (set_p_esp (p_esp (sproc s) - 12) (set_p_esp (p_esp (sproc s) - 4 - 4) (set_p_esp (p_esp (sproc s) - 4) (sproc s))) =
      set_p_esp (p_esp (sproc s) - 12) (sproc s)) as -> by done.
    eapply wp_init_main; [by apply init_ready_frame|done|done|done|]. intros ds s' Hn Hgr. exists m, ds. done. }
  exists ds, s'. destruct Hgr as [G1 G2 [G3 G3'] G4 G5 G6 G7]. cbn [sfl sproc p_ofile p_esp p_offset smem set_p_esp] in *. split_and!; try done.
  eapply within_trans; [eapply within_sub; [exact Hm|lia|lia]|]. eapply within_sub; [exact G7|lia|lia].
Qed.
End theorems.

(** ** A machine to greet from

    The image of mkfs.c after [mknod("console", 1, 1)], and a process with the
    string at 256 and a stack of 256 bytes below 4096. *)
Definition with_con (t : fss drive unit) (c : con chip) : fss drive (con chip) := mk_fss (flog t) (fsb t) (icache t) c.
Lemma with_con_good t c H L R : fs_good t H L R → fs_good (with_con t c) H L R.
Proof. intros [[[? ? ?] Hsb HV Hsy] Ht Hm]. constructor; [constructor; [by constructor|done..]|done|done]. Qed.
Definition console_con : con chip := mk_con (mk_cpu 0 0 FL_IF) 1 (replicate 128 0) 0 0 0 (mk_chip [] []).
Definition init_mem : mem := λ x, if bool_decide (0x400100 ≤ x < 0x400108) then default 0 (str "console" !! Z.to_nat (x - 0x400100)) else 0.
Definition init_proc : proc := mk_proc 0xff000 0x400000 1 0 0x1000 (replicate 16 None).
Definition init_sys (t : fss drive unit) : sys drive (con chip) :=
  mk_sys (mk_fls (with_con t console_con) (replicate NFILE zero_file)) init_mem init_proc 42.

Lemma console_can_create : can_create fs0 [] (chars "console") [] junk 3.
Proof.
  destruct fs0_can_create as [Hg Hr Hrf _ Hn Hl Hb Hi _]. constructor; [exact Hg|exact Hr|exact Hrf| |exact Hn|exact Hl|exact Hb|exact Hi|].
  - split; apply (bool_decide_unpack _); vm_compute; exact I.
  - intros d Hd. rewrite (demo_resolves _ (Some 1)) in Hd by (vm_compute; reflexivity). injection Hd as <-.
    unfold inode_at. rewrite fs0_view. split; vm_compute; congruence.
Qed.
Lemma init_sys_ready (t : fss drive unit) n :
  fs_good t [] [] [] → linked (fview t) (fsb t) ROOTINO → resolve (fview t) (fsb t) false [chars "console"] ROOTINO = Some n →
  di_type (inode_at (fview t) (fsb t) n) = T_DEV → di_major (inode_at (fview t) (fsb t) n) = 1 →
  init_ready (λ _, 64) 256 (init_sys t) [] n 128 0 zero_file.
Proof.
  intros Hg Hr Hp Ht Hm. constructor; try done.
  - by apply with_con_good.
  - cbn. unfold NINODE. lia.
  - constructor; [reflexivity|done|unfold NFILE; lia|lia].
  - apply (bool_decide_unpack _). vm_compute. exact I.
  - vm_compute. intuition congruence.
Qed.

(** With 42 ticks. *)
Lemma init_greets_witness : ∃ (s s' : sys drive (con chip)) ds, numeral_of 10 42 ds ∧
  start (devtab [] 0) junk (λ _, 0x123) (λ _, 64) 256 9 s = Ok (tt, s') ∧
  chip_tx (uhw (frest (ffs (sfl s')))) = greeted ds.
Proof.
  destruct (make_entered [] no_files [] (chars "console") [] T_DEV 1 1 junk 3 1) as (n & t & _ & Hen);
    [exact console_can_create|exact fs0_current|vm_compute; intuition congruence|vm_compute; congruence|apply demo_resolves; vm_compute; reflexivity|apply demo_resolves; vm_compute; reflexivity|].
  pose proof (tx_sb _ _ (en_tx _ _ _ _ _ _ _ _ _ Hen)) as Hsb. destruct (en_made _ _ _ _ _ _ _ _ _ Hen) as (M1 & M2 & _).
  pose proof (en_path _ _ _ _ _ _ _ _ _ Hen) as Hp. destruct (en_grows _ _ _ _ _ _ _ _ _ Hen ROOTINO (cc_root _ _ _ _ _ _ console_can_create)) as (Hl & _).
  pose proof (en_good _ _ _ _ _ _ _ _ _ Hen) as Hg. rewrite <- Hsb in M1, M2, Hp, Hl. clear Hen Hsb.
  destruct (init_greets [] 0 junk (λ _, 0x123) (λ _, 64) 256 9 (init_sys t) [] n 128 0 zero_file) as (ds & s' & Hrun & Hn & Htx & _).
  - apply init_sys_ready; [exact Hg|exact Hl|exact Hp|exact M1|exact M2].
  - intros _. lia.
  - apply (bool_decide_unpack _). vm_compute. exact I.
  - reflexivity.
  - cbn. lia.
  - exists (init_sys t), s', ds. split_and!; [exact Hn|exact Hrun|exact Htx].
Defined.
