(* ===== verification/KernelTheorems.v ===== *)
(** * Correctness of the rest of the kernel

    The properties of spinlock.c, string.c, kalloc.c, console.c, printf.c,
    syscall.c, sysfile.c and vm.c, each with a concrete use. *)

From S2P Require Import Prelude Spinlock CString Layout Fs Kalloc Syscall Console ConsoleFacts Printf Vm Kernel Reports.

(** C37. Interrupt nesting. Through any sequence of [pushcli] and [popcli]
    calls that does not panic, interrupts are off whenever the depth is
    positive, and when the depth is back to 0 the interrupt flag is what it
    was before the outermost [pushcli]. *)
Theorem pushcli_popcli_nesting on c c' :
  ncli c = 0 → irq_on c = on → rtc irq_step c c' →
  (0 < ncli c' → irq_on c' = false) ∧ (ncli c' = 0 → irq_on c' = on) ∧ 0 ≤ ncli c'.
Proof.
  intros H0 Hon Hst. destruct (irq_steps_wf on c c') as [[Hn Hi]|(Hn & Hi & _)]; [by left|done| |].
  - split_and!; [lia|done|lia].
  - split_and!; [done|lia|lia].
Qed.

Definition cpu_on : cpu := mk_cpu 0 0 FL_IF.
Lemma pushcli_popcli_nesting_witness :
  rtc irq_step cpu_on (mk_cpu 1 FL_IF 0) ∧ irq_on (mk_cpu 1 FL_IF 0) = false.
Proof.
  assert (rtc irq_step cpu_on (mk_cpu 1 FL_IF 0)) as Hst.
  { apply rtc_once, step_push; [vm_compute; reflexivity|vm_compute; reflexivity]. }
  split; [exact Hst|]. apply (pushcli_popcli_nesting true cpu_on (mk_cpu 1 FL_IF 0)); [done|done|exact Hst|done].
Defined.

(** [popcli] panics when interrupts are on, or when there is no
    [pushcli] to undo. *)
Theorem popcli_misuse c :
  ncli c = 0 →
  popcli c = Panic (if irq_on c then "popcli - interruptible" else "popcli").
Proof.
  intros Hn. destruct (irq_on c) eqn:Hi; unfold popcli, readeflags, irq_on in *; munfold;
    rewrite irq_land_FL_IF, Hi; cbn; rewrite ?Hn; reflexivity.
Qed.

Lemma popcli_misuse_witness : popcli cpu_on = Panic "popcli - interruptible".
Proof. exact (popcli_misuse cpu_on eq_refl). Defined.

(** [memmove] copies as if through a temporary, also when the ranges
    overlap, and touches nothing outside the destination. *)
Theorem memmove_copies m dst src n x : 0 ≤ n →
  memmove m dst src n x = if decide (dst ≤ x < dst + n) then m (src + (x - dst)) else m x.
Proof. apply memmove_spec. Qed.

(** One byte up, onto itself. *)
Lemma memmove_copies_witness : memmove (λ x, x) 11 10 4 13 = 12.
Proof. rewrite (memmove_copies (λ x, x) 11 10 4 13); [reflexivity|lia]. Defined.

(** [memset] gives every byte of the range the low byte of [c], on the
    path that stores words as on the one that stores bytes, and no other. *)
Theorem memset_fills m dst c n x : 0 ≤ n →
  memset m dst c n x = if decide (dst ≤ x < dst + n) then u8 c else m x.
Proof. apply memset_spec. Qed.

Lemma memset_fills_witness : memset (λ _, 0) 8 (-1) 8 15 = 255.
Proof. rewrite (memset_fills (λ _, 0) 8 (-1) 8 15); [reflexivity|lia]. Defined.

(** A directory entry written with [strncpy] is found again by
    [namecmp] under exactly the names that agree with it up to [DIRSIZ] bytes. *)
Theorem strncpy_namecmp t t' w :
  bytes t → bytes t' → readable DIRSIZ t' → strncpy t DIRSIZ = Some w →
  ∃ v, namecmp t' w = Some v ∧ (v = 0 ↔ cname DIRSIZ t' = cname DIRSIZ t).
Proof.
  intros Ht Ht' Hr' Hw. destruct (strncpy_name _ _ _ Hw) as (Hl & Hn & He).
  assert (bytes w) as Hbw.
  { apply Forall_forall. intros x [->|Hx]%He; [lia|]. unfold bytes in Ht. rewrite Forall_forall in Ht. auto. }
  destruct (strncmp_some t' w DIRSIZ Hr') as [v Hv]; [left; lia|]. exists v. split; [done|].
  rewrite (strncmp_zero t' w DIRSIZ v) by done. by rewrite Hn.
Qed.

Lemma strncpy_namecmp_witness : ∃ w v, strncpy [97; 98; 0] DIRSIZ = Some w ∧ namecmp [97; 98; 0; 5] w = Some v ∧ v = 0.
Proof.
  destruct (strncpy_namecmp [97; 98; 0] [97; 98; 0; 5] ([97; 98] ++ replicate 12 0)) as (v & Hv & Hiff).
  - repeat constructor; lia.
  - repeat constructor; lia.
  - right. set_solver.
  - reflexivity.
  - exists ([97; 98] ++ replicate 12 0), v. split_and!; [reflexivity|exact Hv|]. by apply Hiff.
Defined.

(** [kinit] puts every whole page between [vstart] and [vend] on the
    free list, each once, and nothing else. *)
Theorem kinit_frees_range on vstart vend s :
  kmem_inv on s [] → 0 ≤ kend s ≤ vstart → 0 < vstart ≤ vend → vend + 2 * PGSIZE < 4294967296 →
  ∃ s' l, kinit vstart vend s = Ok (tt, s') ∧ kmem_inv on s' l ∧
    ∀ p, p ∈ l ↔ p mod PGSIZE = 0 ∧ vstart ≤ p ∧ p + PGSIZE ≤ vend.
Proof.
  intros Hinv He Hv Hmax. pose proof PGSIZE_pos as HP.
  destruct (PGROUNDUP_spec vstart) as [Hal Hr]; [lia..|]. set (p0 := PGROUNDUP vstart) in *.
  set (n := Z.to_nat ((vend - p0) / PGSIZE)).
  destruct (wp_run (kinit vstart vend) (λ s', kmem_inv on s' (reverse (range_pages p0 n))) s) as (s' & Hrun & Hinv').
  { eapply wp_kinit; [done..|]. auto. }
  exists s', (reverse (range_pages p0 n)). split_and!; [done|done|]. intros p.
  rewrite elem_of_reverse. unfold range_pages. rewrite list_elem_of_fmap.
  pose proof (Z_div_mod_eq_full (vend - p0) PGSIZE). pose proof (Z.mod_pos_bound (vend - p0) PGSIZE HP).
  split.
  - intros (i & -> & Hi%elem_of_seq). split_and!; [|nia|].
    + by rewrite Z_mod_plus_full.
    + unfold n in Hi. assert (Z.of_nat i + 1 ≤ (vend - p0) / PGSIZE) by lia. nia.
  - intros (Hm & Hlo & Hhi). assert (p0 ≤ p) as Hge.
    { pose proof (Z_div_mod_eq_full p PGSIZE). pose proof (Z_div_mod_eq_full p0 PGSIZE).
      destruct (Z_le_gt_dec p0 p); [done|]. assert (p / PGSIZE < p0 / PGSIZE) by nia. nia. }
    exists (Z.to_nat ((p - p0) / PGSIZE)).
    assert (p - p0 = PGSIZE * ((p - p0) / PGSIZE)) as Hex.
    { pose proof (Z_div_mod_eq_full (p - p0) PGSIZE) as Hd.
      rewrite Zminus_mod, Hm, Hal, Z.sub_0_r, Z.mod_0_l in Hd by lia. lia. }
    assert (0 ≤ (p - p0) / PGSIZE) by (apply Z.div_pos; lia).
    split; [rewrite Z2Nat.id by done; lia|]. apply elem_of_seq. unfold n.
    assert ((p - p0) / PGSIZE + 1 ≤ (vend - p0) / PGSIZE); [|lia]. apply Z.div_le_lower_bound; [done|]. lia.
Qed.

(** The allocator before any page is free. *)
Definition kmem0 : kmem := mk_kmem cpu_on (λ _, 0) 0 0x100000.
Lemma kmem0_inv : kmem_inv true kmem0 [].
Proof. constructor; [split; [by left|done]|done|by apply Forall_nil|apply NoDup_nil_2]. Qed.
Lemma kinit_frees_range_witness : ∃ s' l, kinit 0x100001 0x400000 kmem0 = Ok (tt, s') ∧ kmem_inv true s' l ∧ 0x200000 ∈ l.
Proof.
  destruct (kinit_frees_range true 0x100001 0x400000 kmem0) as (s' & l & Hrun & Hinv & Hl);
    [exact kmem0_inv|cbn; lia|lia|vm_compute; reflexivity|].
  exists s', l. split_and!; [exact Hrun|exact Hinv|]. apply Hl. vm_compute. done.
Defined.

(** C34. [kfree] of a page followed by [kalloc] returns that page and leaves
    the free list as it was; the pages on the list are distinct, aligned and
    inside memory, and no byte outside the page is written. *)
Theorem kfree_kalloc on s l v :
  kmem_inv on s l → page_ok (kend s) v → v ∉ l →
  ∃ s', (kfree v;; kalloc) s = Ok (v, s') ∧ kmem_inv on s' l ∧
    ∀ x, ¬ (v ≤ x < v + PGSIZE) → kmemory s' x = kmemory s x.
Proof.
  intros Hinv Hv Hnl.
  destruct (wp_ok (kfree v;; kalloc) (λ r s', r = v ∧ kmem_inv on s' l ∧
    ∀ x, ¬ (v ≤ x < v + PGSIZE) → kmemory s' x = kmemory s x) s) as (r & s' & Hrun & -> & ? & ?); [|eauto].
  apply wp_bind. eapply wp_kfree; [done..|]. intros s1 Hinv1 He1 Hm1 _.
  eapply wp_kalloc; [done|]. intros s2 Hinv2 He2 Hm2 _. split_and!; [done|done|]. by rewrite Hm2.
Qed.

Lemma kfree_kalloc_witness : ∃ s', (kfree 0x200000;; kalloc) kmem0 = Ok (0x200000, s') ∧ kmem_inv true s' [].
Proof.
  destruct (kfree_kalloc true kmem0 [] 0x200000) as (s' & Hrun & Hinv & _); [exact kmem0_inv|vm_compute; done|set_solver|].
  exists s'. split; [exact Hrun|exact Hinv].
Defined.

Section console.
Context {U : Type} {dev : Uart U} {uok : UartOk U}.
Implicit Types s : con U.

(** [printint] transmits the canonical numeral of its argument in the
    given base, with a minus sign exactly for a negative number printed
    signed, INT_MIN included, and stays within its 16-byte buffer. *)
Theorem printint_numeral s xx base sign :
  uart s ≠ 0 → base = 10 ∨ base = 16 → -2147483648 ≤ xx < 2147483648 →
  let neg := negb (sign =? 0) && (xx <? 0) in
  ∃ ds s', printint xx base sign s = Ok (tt, s') ∧
    numeral_of base (if neg then - xx else u32 xx) ds ∧
    tx (uhw s') = tx (uhw s) ++ (if neg then [45] else []) ++ (digit <$> ds).
Proof.
  intros Hu Hb Hx neg.
  destruct (wp_run (printint xx base sign) (λ s', ∃ ds, numeral_of base (if neg then - xx else u32 xx) ds ∧
    tx (uhw s') = tx (uhw s) ++ (if neg then [45] else []) ++ (digit <$> ds)) s) as (s' & Hrun & ds & Hn & Ht); [|eauto 10].
  apply wp_printint; [done..|]. cbn zeta. fold neg. intros ds s' Hn (u & -> & _ & Ht). eauto.
Qed.

(** The kernel's [cprintf] and the user library's [printf] print the same
    bytes for every format and arguments on which [printf] is defined, apart
    from [%x], [%p] and [%c]; [cprintf] leaves the interrupt state as it was. *)
Theorem cprintf_agrees_printf s on fmt args bs :
  uart s ≠ 0 → cpu_sane on (ccpu s) → bytes fmt → Forall arg_bytes args → common fmt false →
  printf fmt args = Some bs →
  ∃ s', cprintf (Some fmt) args s = Ok (tt, s') ∧ tx (uhw s') = tx (uhw s) ++ bs ∧
    rx (uhw s') = rx (uhw s) ∧ irq_on (ccpu s') = irq_on (ccpu s) ∧ ncli (ccpu s') = ncli (ccpu s).
Proof.
  intros Hu [Hwf Hlt] Hb Ha Hcom Hp. apply wp_run. eapply (wp_cprintf _ on); [done|done|lia|done..|].
  intros s' (c & u & -> & Hc & Hn & Hr & Ht). split_and!; [done|done|by eapply cpu_wf_irq|done].
Qed.

(** C23. Line editing. One serial interrupt takes every byte the chip has
    received, in order, whatever the bytes are. The ring buffer afterwards holds
    exactly what the specification [key] says of finished lines and the line
    being edited: erase and kill edit only the unfinished line, control-P leaves
    the input alone, and bytes that do not fit are dropped. The serial port has
    transmitted exactly the [echo] of each key and then, once, if control-P was
    among the bytes, the listing of the processes, one line each with number,
    state and name, given that the names end inside their arrays; the depth of critical sections and the interrupt flag are
    as before. *)
Theorem uartintr_edits ps on s q l fuel :
  ring_rep s q l → cpu_sane on (ccpu s) → Forall listable ps → (length (rx (uhw s)) < fuel)%nat →
  let cs := rx (uhw s) in let ql := foldl (λ ql c, key c ql) (q, l) cs in
  ∃ s' dump, uartintr (procdump ps) fuel s = Ok (tt, s') ∧ ring_rep s' ql.1 ql.2 ∧ rx (uhw s') = [] ∧
    tx (uhw s') = tx (uhw s) ++ echoes cs (q, l) ++ dump ∧
    (if decide (CTRL_P ∈ cs) then listing ps dump else dump = []) ∧
    ncli (ccpu s') = ncli (ccpu s) ∧ irq_on (ccpu s') = irq_on (ccpu s).
Proof.
  intros Hrep Hcpu Hps Hf cs ql.
  destruct (wp_run (uartintr (procdump ps) fuel) (λ s', ∃ dump, ring_rep s' ql.1 ql.2 ∧ rx (uhw s') = [] ∧
    tx (uhw s') = tx (uhw s) ++ echoes cs (q, l) ++ dump ∧ (if decide (CTRL_P ∈ cs) then listing ps dump else dump = []) ∧
    ncli (ccpu s') = ncli (ccpu s) ∧ irq_on (ccpu s') = irq_on (ccpu s)) s) as (s' & Hrun & dump & ?); [|eauto].
  unfold uartintr, consoleintr. apply wp_bind. eapply wp_consoleintr_loop; [done..|]. cbn zeta. fold cs ql. intros s1 Hrep1 Hrx1 Hcc1 Ht1.
  cbn [orb]. case_bool_decide as Hp.
  - apply (wp_procdump _ on); [apply (rr_uart _ _ _ Hrep1)|by rewrite Hcc1|done|]. intros dump s2 Hd (c & u & -> & Hc & Hn & Hr & Ht).
    exists dump. rewrite decide_True by done. cbn [uhw ccpu set_ccpu set_uhw]. rewrite Hr, Ht, Ht1, app_assoc, <- Hcc1.
    split_and!; try done; [destruct Hrep1; by constructor|]. eapply cpu_wf_irq; [rewrite Hcc1; apply Hcpu|done|done].
  - apply wp_ret. exists []. rewrite decide_False, app_nil_r, Hcc1 by done. done.
Qed.

(** [consoleread] returns the first line of the finished input, its
    newline included, or as much of it as was asked for; an end-of-file mark
    ends the read before it, and is consumed only by a read that got nothing. *)
Theorem consoleread_line (procdump : M (con U) unit) s q l fuel n bs q' :
  ring_rep s q l → 0 < n → read_line (Z.to_nat n) true q = Some (bs, q') →
  ∃ s', consoleread procdump fuel n s = Ok ((Z.of_nat (length bs), bs), s') ∧ ring_rep s' q' l.
Proof.
  intros Hrep Hn Hline.
  assert (length bs ≤ Z.to_nat n)%nat as Hle by (by eapply line_length).
  destruct (wp_ok (consoleread procdump fuel n) (λ r s', r = (Z.of_nat (length bs), bs) ∧ ring_rep s' q' l) s)
    as (r & s' & Hrun & -> & Hrep'); [|eauto].
  unfold consoleread. apply wp_bind. eapply wp_consoleread_loop; [done|lia|by rewrite bool_decide_eq_true_2|].
  intros s' Hrep' _. apply wp_ret. split; [|done]. cbn [fst snd]. rewrite (proj2 (Z.leb_gt n 0)) by done.
  f_equal. lia.
Qed.
End console.

(** A console with [typed] waiting in the chip and [q] in the ring. *)
Definition con_of (q typed : list Z) : con chip :=
  mk_con cpu_on 1 (q ++ replicate (128 - length q) 0) 0 (Z.of_nat (length q)) (Z.of_nat (length q)) (mk_chip typed []).
Lemma con_of_rep q typed : (length q ≤ 128)%nat → ring_rep (con_of q typed) q [].
Proof.
  intros Hq. constructor; cbn [uart ibuf ir iw ie con_of]; rewrite ?app_nil_r.
  - done.
  - rewrite length_app, length_replicate. lia.
  - lia.
  - rewrite u32_small by lia. lia.
  - rewrite u32_small; cbn; lia.
  - cbn. lia.
  - intros i c Hi. pose proof (lookup_lt_Some _ _ _ Hi). unfold INPUT_BUF.
    rewrite Z.add_0_l, Z.mod_small, Nat2Z.id by lia. by apply lookup_app_l_Some.
  - set_solver.
Qed.

Lemma printint_numeral_witness : ∃ ds s', printint (-2147483648) 10 1 (con_of [] []) = Ok (tt, s') ∧
  numeral_of 10 2147483648 ds ∧ tx (uhw s') = [45] ++ (digit <$> ds).
Proof.
  destruct (printint_numeral (con_of [] []) (-2147483648) 10 1) as (ds & s' & Hrun & Hn & Ht); [done|by left|lia|].
  exists ds, s'. split_and!; [exact Hrun|exact Hn|exact Ht].
Defined.

(** "%d%s" *)
Lemma cprintf_agrees_printf_witness : ∃ s',
  cprintf (Some [37; 100; 37; 115; 0]) [AWord 4294967289; AStr None] (con_of [] []) = Ok (tt, s') ∧
  tx (uhw s') = [45; 55; 40; 110; 117; 108; 108; 41].
Proof.
  destruct (cprintf_agrees_printf (con_of [] []) true [37; 100; 37; 115; 0] [AWord 4294967289; AStr None]
    [45; 55; 40; 110; 117; 108; 108; 41]) as (s' & Hrun & Ht & _).
  - done.
  - split; [by left|done].
  - repeat constructor; lia.
  - repeat constructor; cbn; lia.
  - cbn. lia.
  - vm_compute. reflexivity.
  - exists s'. split; [exact Hrun|exact Ht].
Defined.

(** "ab", erase, "c", control-P, enter, with one process of number 7, "sh" *)
Definition listed_proc : pcb := mk_pcb RUNNABLE 4096 0x200000 0x300000 7 0 0 KFresh [] None [115; 104; 0].
Lemma uartintr_edits_witness : ∃ s', uartintr (procdump [listed_proc]) 9 (con_of [] [97; 98; 8; 99; 16; 13]) = Ok (tt, s') ∧
  ring_rep s' [97; 99; 10] [] ∧
  tx (uhw s') = [97; 98; 8; 32; 8; 99; 10] ++ [55] ++ 32 :: chars "runble" ++ 32 :: chars "sh" ++ [10].
Proof.
  destruct (uartintr_edits [listed_proc] true (con_of [] [97; 98; 8; 99; 16; 13]) [] [] 9) as (s' & dump & Hrun & Hrep & _ & Ht & Hd & _).
  - apply con_of_rep. cbn. lia.
  - split; [by left|done].
  - repeat constructor; cbn; try lia. by exists [115; 104].
  - cbn. lia.
  - exists s'. split_and!; [exact Hrun|exact Hrep|]. rewrite Ht. cbn in Hd. destruct Hd as (ls & Hls & ->).
    apply Forall2_cons_inv_l in Hls as (b & ls' & (ds & nm & Hds & Hnm & ->) & ->%Forall2_nil_inv_l & ->).
    assert (ds = [7]) as -> by (exact (numeral_unique 10 7 ds [7] ltac:(lia) Hds ltac:(vm_compute; repeat constructor; congruence))).
    cbn in Hnm. injection Hnm as <-. vm_compute. reflexivity.
Defined.

Lemma consoleread_line_witness : ∃ s', consoleread (mret tt) 1 100 (con_of [104; 105; 10; 120; 10] []) =
  Ok ((3, [104; 105; 10]), s') ∧ ring_rep s' [120; 10] [].
Proof.
  apply (consoleread_line (mret tt) (con_of [104; 105; 10; 120; 10] []) [104; 105; 10; 120; 10] [] 1 100 [104; 105; 10] [120; 10]).
  - apply con_of_rep. cbn. lia.
  - lia.
  - vm_compute. reflexivity.
Defined.

(** C36. [argptr] hands the kernel a pointer only to a range that lies inside
    the process's memory, whatever word the user passed, overflow included. *)
Theorem argptr_in_bounds m p n size q :
  proc_ok p → size < 2147483648 → argptr m p n size = Some q →
  0 ≤ size ∧ p_offset p ≤ q ∧ q + size ≤ p_offset p + p_sz p.
Proof. apply argptr_safe. Qed.

(** A process at 2 MB with 64 KB, one argument word on its stack. *)
Definition proc0 : proc := mk_proc 0x10000 0x200000 1 SYS_write 0xff00 (replicate 16 None).
Definition mem0 : mem := store4 (λ _, 0) 0x20ff04 0x100.
Lemma proc0_ok : proc_ok proc0.
Proof. unfold proc_ok, proc0. cbn. lia. Qed.
Lemma argptr_in_bounds_witness : argptr mem0 proc0 0 512 = Some 0x200100 ∧ 0x200100 + 512 ≤ 0x200000 + 0x10000.
Proof.
  assert (argptr mem0 proc0 0 512 = Some 0x200100) as Hrun by (vm_compute; reflexivity). split; [exact Hrun|].
  apply (argptr_in_bounds mem0 proc0 0 512 0x200100); [exact proc0_ok|lia|exact Hrun].
Defined.

(** [fetchint] reads a user word exactly when all four of its bytes are
    inside the process, and then reads the word there. *)
Theorem fetchint_exact m p addr :
  proc_ok p → 0 ≤ addr < 4294967292 →
  fetchint m p addr = if decide (addr + 4 ≤ p_sz p) then Some (s32 (load4 m (p_offset p + addr))) else None.
Proof.
  intros Hp Ha. case_decide as Hd.
  - destruct (fetchint_complete m p addr Hp) as [v Hv]; [lia..|]. rewrite Hv.
    destruct (fetchint_safe m p addr v Hp) as [_ ->]; [lia|done|done].
  - destruct (fetchint m p addr) as [v|] eqn:Hv; [|done].
    destruct (fetchint_safe m p addr v Hp) as [? _]; [lia|done|lia].
Qed.

Lemma fetchint_exact_witness : fetchint mem0 proc0 0xff04 = Some 0x100 ∧ fetchint mem0 proc0 0xfffd = None.
Proof.
  split.
  - rewrite (fetchint_exact mem0 proc0 0xff04); [vm_compute; reflexivity|exact proc0_ok|lia].
  - rewrite (fetchint_exact mem0 proc0 0xfffd); [vm_compute; reflexivity|exact proc0_ok|lia].
Defined.

(** [fetchstr] succeeds exactly when a NUL lies between the pointer and
    the end of the process, and returns the distance to the first one. *)
Theorem fetchstr_exact m p addr :
  proc_ok p → 0 ≤ addr →
  match fetchstr m p addr with
  | Some (l, q) => q = p_offset p + addr ∧ 0 ≤ l ∧ addr + l < p_sz p ∧ m (q + l) = 0 ∧ ∀ x, q ≤ x < q + l → m x ≠ 0
  | None => ∀ x, addr ≤ x < p_sz p → m (p_offset p + x) ≠ 0
  end.
Proof.
  intros Hp Ha. destruct (fetchstr m p addr) as [[l q]|] eqn:Hf; [by apply fetchstr_safe|].
  intros x Hx Hz. destruct (fetchstr_complete m p addr x Hp) as [? Hs]; [lia..|done|]. congruence.
Qed.

Lemma fetchstr_exact_witness : fetchstr mem0 proc0 0xff05 = Some (1, 0x20ff05) ∧
  mem0 (0x20ff05 + 1) = 0 ∧ ∀ x, 0x20ff05 ≤ x < 0x20ff05 + 1 → mem0 x ≠ 0.
Proof.
  assert (fetchstr mem0 proc0 0xff05 = Some (1, 0x20ff05)) as Hf by (vm_compute; reflexivity).
  pose proof (fetchstr_exact mem0 proc0 0xff05 proc0_ok ltac:(lia)) as Ht. rewrite Hf in Ht.
  split; [exact Hf|]. destruct Ht as (_ & _ & _ & Hz & Hx). split; [exact Hz|exact Hx].
Defined.

(** [fdalloc] gives the file the lowest free descriptor of the process,
    changes no other, and fails only when all [NOFILE] are in use. *)
Theorem fdalloc_lowest p f :
  length (p_ofile p) = Z.to_nat NOFILE →
  match fdalloc p f with
  | Some (fd, p') => ∃ k, fd = Z.of_nat k ∧ (k < 16)%nat ∧ p_ofile p !! k = Some None ∧
      p_ofile p' = <[k:=Some f]> (p_ofile p) ∧ ∀ j, (j < k)%nat → ∃ g, p_ofile p !! j = Some (Some g)
  | None => ∀ j, (j < 16)%nat → ∃ g, p_ofile p !! j = Some (Some g)
  end.
Proof.
  intros Hl. unfold fdalloc. rewrite take_ge by lia.
  destruct (fdalloc_scan 0 (p_ofile p)) as [fd|] eqn:Hs; cbn [mbind option_bind].
  - apply fdalloc_scan_spec in Hs as (k & -> & Hk & Hlow). exists k. split_and!; try done.
    apply lookup_lt_Some in Hk. rewrite Hl in Hk. done.
  - intros j Hj. apply fdalloc_scan_none with 0%nat; [done|]. rewrite Hl. done.
Qed.

Lemma fdalloc_lowest_witness : ∃ k fd p', fdalloc proc0 5 = Some (fd, p') ∧ fd = Z.of_nat k ∧
  p_ofile p' = <[k:=Some 5%nat]> (p_ofile proc0).
Proof.
  pose proof (fdalloc_lowest proc0 5 eq_refl) as Ht.
  destruct (fdalloc proc0 5) as [[fd p']|] eqn:Hf; [|discriminate Hf].
  destruct Ht as (k & Hk & _ & _ & Hp & _). exists k, fd, p'. split_and!; [reflexivity|exact Hk|exact Hp].
Defined.

(** The user segments [switchuvm] installs start at the process, but reach 4 KB
    past the end of its [PGSIZE] region: their limit [PROCSIZE << 12] is
    counted in pages, so the last offset they allow is [PGSIZE + 4095]. *)
Theorem user_segment_overreach offset kstack c c' :
  0 ≤ offset < 4294967296 → length (gdt c) = 6%nat → switchuvm offset kstack c = Ok c' →
  ∃ data, gdt c' !! Z.to_nat SEG_UDATA = Some data ∧ seg_base data = offset ∧ sd_dpl data = DPL_USER ∧
    seg_last data = PGSIZE + 4095.
Proof.
  intros Ho Hl Hr. destruct (user_segments offset kstack c c' Ho Hl Hr) as (code & data & _ & Hd & _ & Hb & _ & Hla & Hdpl).
  eauto.
Qed.

Definition gdt0 : gdt_cpu := mk_gdt_cpu (replicate 6 no_seg) 0 0 0 0x7000.
Lemma user_segment_overreach_witness : ∃ c' data, switchuvm 0x200000 0x2ff000 gdt0 = Ok c' ∧
  gdt c' !! Z.to_nat SEG_UDATA = Some data ∧ seg_last data = 0x100fff.
Proof.
  destruct (user_segment_overreach 0x200000 0x2ff000 gdt0 _ ltac:(lia) eq_refl eq_refl) as (data & Hd & _ & _ & Hl).
  eexists _, data. split_and!; [reflexivity|exact Hd|exact Hl].
Defined.

(** ** Panic *)
Section panic.
Context {U : Type} {dev : Uart U} {uok : UartOk U}.

(** [panic], called anywhere but after one [popcli] too many, and with a
    message without conversions: it prints the processor's number, the
    message, the ten return addresses in hexadecimal and the farewell, turns
    the machine off, and leaves interrupts off. *)
Theorem panic_reports (s : con U) id w s_at msg :
  0 ≤ ncli (ccpu s) < 2147483646 → uart s ≠ 0 → Forall (λ c, 0 < c < 256 ∧ c ≠ 37) msg → 0 ≤ id < 2147483648 →
  ∃ ds dss s', k_panic id w s_at (msg ++ [0]) s = Ok ([(0x602, 0x2000); (0xB002, 0x2000)], s') ∧ numeral_of 10 id ds ∧
    Forall2 (λ pc ds, numeral_of 16 (u32 pc) ds) (getcallerpcs w s_at) dss ∧ irq_on (ccpu s') = false ∧
    tx (uhw s') = tx (uhw s) ++ chars "lapicid " ++ (DIGIT <$> ds) ++ chars ": panic: " ++ msg ++ [10] ++
      concat ((λ ds, 32 :: (digit <$> ds)) <$> dss) ++ chars "Bye COL331!" ++ [10].
Proof.
  intros Hn Hu Hmsg Hid. destruct (printf_number (chars "lapicid ") (chars ": panic: ") id) as (ds & Hds & Hp1);
    [apply (bool_decide_unpack _); vm_compute; exact I..|done|].
  assert (Forall (λ c, c ≠ 0 ∧ c ≠ 37) msg) as Hplain by (eapply Forall_impl; [exact Hmsg|]; cbn; lia).
  assert (bytes (msg ++ [0])) as Hb by (apply Forall_app; split; [eapply Forall_impl; [exact Hmsg|]; cbn; lia|by apply Forall_singleton]).
  destruct (wp_ok (k_panic id w s_at (msg ++ [0])) (λ r s', r = [(0x602, 0x2000); (0xB002, 0x2000)] ∧ ∃ dss,
    Forall2 (λ pc ds, numeral_of 16 (u32 pc) ds) (getcallerpcs w s_at) dss ∧ reports s s' ((chars "lapicid " ++ (DIGIT <$> ds) ++ chars ": panic: ") ++ msg ++ [10] ++
      concat ((λ ds, 32 :: (digit <$> ds)) <$> dss) ++ chars "Bye COL331!" ++ [10])) s) as (r & s' & Hrun & -> & dss & HF & c & u & -> & Hc & Ht).
  2: { exists ds, dss, (set_ccpu c (set_uhw u s)). split_and!; [exact Hrun|done|done|apply Hc|]. cbn [uhw set_ccpu set_uhw]. rewrite Ht.
       by rewrite <- !app_assoc. }
  unfold k_panic. apply wp_bind, wp_zoom, wp_modify. set (s0 := set_ccpu _ s).
  assert (cpu_stopped (ccpu s0)) as Hc0 by (split; [apply cli_off|done]).
  apply wp_bind. eapply wp_cprintf_common; [done|done|apply (bool_decide_unpack _); vm_compute; exact I|by repeat constructor|vm_compute; intuition congruence|exact Hp1|].
  intros s1 R1. pose proof R1 as (c1 & u1 & -> & Hc1 & _).
  apply wp_bind. eapply (wp_cprintf_common _ _ _ msg); [done|done|done|constructor|by apply common_plain|
    unfold printf; rewrite printf_plain by done; cbn; by rewrite app_nil_r|].
  intros s2 R2. pose proof R2 as (c2 & u2 & -> & Hc2 & _).
  apply wp_bind. eapply (wp_cprintf_common _ _ _ [10]); [done|done|apply (bool_decide_unpack _); vm_compute; exact I|constructor|vm_compute; intuition congruence|reflexivity|].
  intros s3 R3. pose proof R3 as (c3 & u3 & -> & Hc3 & _).
  apply wp_bind, wp_panic_pcs; [done|done|]. intros dss s4 HF R4. pose proof R4 as (c4 & u4 & -> & Hc4 & _).
  unfold halt. apply wp_bind. eapply (wp_cprintf_common _ _ _ (chars "Bye COL331!" ++ [10]));
    [done|done|apply (bool_decide_unpack _); vm_compute; exact I|by repeat constructor|vm_compute; intuition congruence|vm_compute; reflexivity|].
  intros s5 R5. apply wp_ret. split; [done|]. exists dss. split; [done|].
  destruct (reports_trans _ _ _ _ _ R1 (reports_trans _ _ _ _ _ R2 (reports_trans _ _ _ _ _ R3 (reports_trans _ _ _ _ _ R4 R5)))) as (c & u & -> & Hc & Ht).
  by exists c, u.
Qed.

(** After one [popcli] too many the depth is -1. [panic] does not get past its
    first line then: the [popcli] of [cprintf] calls [panic] again, with the
    depth at -1 again. *)
Theorem panic_again (s : con U) id w s_at msg :
  ncli (ccpu s) = -1 → uart s ≠ 0 → 0 ≤ id < 2147483648 → k_panic id w s_at msg s = Panic "popcli".
Proof.
  intros Hn Hu Hid. destruct (printf_number (chars "lapicid ") (chars ": panic: ") id) as (ds & Hds & Hp1);
    [apply (bool_decide_unpack _); vm_compute; exact I..|done|].
  apply wp_must_panic. unfold k_panic. apply wp_bind, wp_zoom, wp_modify. set (s0 := set_ccpu _ s).
  apply wp_bind. unfold cprintf. apply wp_bind, wp_zoom. eapply wp_of_ok.
  { unfold pushcli, readeflags, cli. munfold. cbn. rewrite Hn. reflexivity. }
  apply wp_bind. eapply wp_cprintf_loop; [exact Hu|apply (bool_decide_unpack _); vm_compute; exact I|by repeat constructor|vm_compute; intuition congruence|exact Hp1|].
  intros s1 (u & -> & _). apply wp_zoom. unfold popcli, readeflags. apply wp_bind, wp_gets. cbn [ccpu set_uhw set_ccpu eflags]. rewrite irq_land_FL_IF, cli_off. cbn [negb].
  apply wp_bind, wp_modify, wp_bind, wp_gets. cbn. by apply wp_panic.
Qed.
End panic.

Definition panicking : con chip := mk_con (mk_cpu 1 FL_IF 0) 1 (replicate 128 0) 0 0 0 (mk_chip [] []).
Lemma panic_reports_witness : ∃ s', k_panic 0 (λ _, 0) 0x7c00 (str "trap") panicking = Ok ([(0x602, 0x2000); (0xB002, 0x2000)], s') ∧ irq_on (ccpu s') = false.
Proof.
  destruct (panic_reports panicking 0 (λ _, 0) 0x7c00 (chars "trap")) as (ds & dss & s' & Hrun & _ & _ & Hi & _);
    [cbn; lia|done|apply (bool_decide_unpack _); vm_compute; exact I|lia|]. exists s'. split; [exact Hrun|exact Hi].
Defined.
Lemma panic_again_witness : k_panic 0 (λ _, 0) 0x7c00 (str "popcli") (set_ccpu (mk_cpu (-1) 0 0) panicking) = Panic "popcli".
Proof. apply panic_again; [reflexivity|discriminate|lia]. Defined.
