(* ===== verification/Conc.v ===== *)
(** * Threads that share memory

    The lecture programs under src/09 are POSIX threads over shared variables.
    A program is given by its shared state [G], the state [T] of one thread
    (where it is and its local variables) and the atomic actions [tstep] of a
    thread: the possible results of its next action, none when it is blocked
    or has returned. The table of threads has a fixed length; an action may
    start a thread of the table, and may look at the others, as joining one
    does. Any thread that can act may act next.

    The file has the step relation, invariants, termination by a measure, and
    a search of finite state spaces that is proved sound. *)

From stdpp Require Import pmap countable.
From S2P Require Import Prelude.

Section conc.
Context {G T : Type}.

Definition cstate : Type := G * list T.
(** Own index, own state, all threads, shared state; the results are the new
    state of the thread, the new shared state and the thread created. *)
Definition actions : Type := nat → T → list T → G → list (T * G * option (nat * T)).
Context (tstep : actions).
Implicit Types s : cstate.

Definition start (new : option (nat * T)) (ts : list T) : list T :=
  match new with None => ts | Some (j, t) => <[j:=t]> ts end.
Definition act_of (i : nat) (t : T) s : list cstate :=
  (λ r, (r.1.2, start r.2 (<[i:=r.1.1]> s.2))) <$> tstep i t s.2 s.1.
Definition succs s : list cstate := concat (imap (λ i t, act_of i t s) s.2).
Definition cstep s s' : Prop := s' ∈ succs s.
Definition stuck s : Prop := succs s = [].

Lemma cstep_inv s s' :
  cstep s s' ↔ ∃ i t t' g' new, s.2 !! i = Some t ∧ (t', g', new) ∈ tstep i t s.2 s.1 ∧ s' = (g', start new (<[i:=t']> s.2)).
Proof.
  unfold cstep, succs, act_of. rewrite list_elem_of_In, in_concat. split.
  - intros (l & Hl & Hs). apply list_elem_of_In, elem_of_lookup_imap in Hl as (i & t & -> & Ht).
    apply list_elem_of_In, list_elem_of_fmap in Hs as ([[t' g'] new] & -> & Hr). eauto 10.
  - intros (i & t & t' & g' & new & Ht & Hr & ->). eexists. split.
    + apply list_elem_of_In, elem_of_lookup_imap. eauto.
    + apply list_elem_of_In, list_elem_of_fmap. eexists (_, _, _). eauto.
Qed.
Lemma stuck_inv s : stuck s ↔ ∀ i t, s.2 !! i = Some t → tstep i t s.2 s.1 = [].
Proof.
  split.
  - intros Hs i t Ht. destruct (tstep i t s.2 s.1) as [|[[t' g'] new] l] eqn:E; [done|].
    assert (cstep s (g', start new (<[i:=t']> s.2))) as Hc; [|unfold cstep in Hc; rewrite Hs in Hc; by apply elem_of_nil in Hc].
    apply cstep_inv. exists i, t, t', g', new. rewrite E. split_and!; [done|left|done].
  - intros Hs. unfold stuck. destruct (succs s) as [|s' l] eqn:E; [done|].
    assert (cstep s s') as Hc by (unfold cstep; rewrite E; left).
    apply cstep_inv in Hc as (i & t & t' & g' & new & Ht & Hr & _). rewrite (Hs i t Ht) in Hr. by apply elem_of_nil in Hr.
Qed.

(** ** Invariants *)
Lemma invariant_rtc (I : cstate → Prop) s0 s :
  I s0 → (∀ s s', I s → cstep s s' → I s') → rtc cstep s0 s → I s.
Proof. intros H0 Hp Hr. revert H0. induction Hr; eauto. Qed.

(** ** Termination

    When a measure goes down at every step, no run is longer than the measure
    of its first state, and every run can be brought to a stuck state. *)
Lemma measure_bounds (I : cstate → Prop) (m : cstate → nat) n s0 s :
  (∀ s s', I s → cstep s s' → I s') → (∀ s s', I s → cstep s s' → (m s' < m s)%nat) →
  I s0 → nsteps cstep n s0 s → (n + m s ≤ m s0)%nat.
Proof.
  intros Hp Hm Hi Hr. revert Hi. induction Hr as [|n x y z Hxy Hyz IH]; intros Hi; [lia|].
  specialize (IH (Hp _ _ Hi Hxy)). specialize (Hm _ _ Hi Hxy). lia.
Qed.
Lemma measure_completes (I : cstate → Prop) (m : cstate → nat) s :
  (∀ s s', I s → cstep s s' → I s') → (∀ s s', I s → cstep s s' → (m s' < m s)%nat) →
  I s → ∃ s', rtc cstep s s' ∧ stuck s'.
Proof.
  intros Hp Hm. remember (m s) as k eqn:Hk. revert s Hk.
  induction (lt_wf k) as [k _ IH]. intros s -> Hi. destruct (succs s) as [|s' l] eqn:E.
  - exists s. split; [done|exact E].
  - assert (cstep s s') as Hc by (unfold cstep; rewrite E; left).
    destruct (IH (m s') (Hm _ _ Hi Hc) s' eq_refl (Hp _ _ Hi Hc)) as (s'' & Hr & Hs).
    exists s''. split; [by eapply rtc_l|done].
Qed.
End conc.

(** ** Search of a finite state space

    The codes of the seen states are the keys of a map; [todo] holds
    the seen states whose successors are still to be looked at. *)
Section search.
Context {X : Type} `{Countable X} (next : X → list X) (ok : X → bool).
Implicit Types x y : X.

Fixpoint visit (l todo : list X) (seen : Pmap unit) : list X * Pmap unit :=
  match l with
  | [] => (todo, seen)
  | x :: l =>
      match seen !! encode x with Some _ => visit l todo seen | None => visit l (x :: todo) (<[encode x:=tt]> seen) end
  end.
Fixpoint search (fuel : nat) (todo : list X) (seen : Pmap unit) : bool :=
  match fuel, todo with
  | _, [] => true
  | O, _ => false
  | S fuel, x :: todo => ok x && let (todo', seen') := visit (next x) todo seen in search fuel todo' seen'
  end.
Definition check_all (fuel : nat) (x0 : X) : bool := search fuel [x0] {[encode x0 := tt]}.

Implicit Types seen : Pmap unit.
Lemma visit_spec l : ∀ todo seen, let (todo', seen') := visit l todo seen in
  (∀ x, is_Some (seen' !! encode x) ↔ is_Some (seen !! encode x) ∨ x ∈ l) ∧
  ∀ x, x ∈ todo' ↔ x ∈ todo ∨ x ∈ l ∧ ¬ is_Some (seen !! encode x).
Proof.
  induction l as [|y l IH]; intros todo seen; cbn [visit].
  { split; intros x; rewrite elem_of_nil; tauto. }
  destruct (seen !! encode y) as [[]|] eqn:Hy.
  - assert (is_Some (seen !! encode y)) as Hy' by eauto.
    specialize (IH todo seen). destruct (visit l todo seen) as [todo' seen']. destruct IH as (Hs1 & Hs2).
    split; intros x; [rewrite Hs1|rewrite Hs2]; rewrite elem_of_cons; destruct (decide (x = y)) as [->|?]; tauto.
  - assert (¬ is_Some (seen !! encode y)) as Hy' by (rewrite Hy; by intros [? ?]).
    specialize (IH (y :: todo) (<[encode y:=tt]> seen)). destruct (visit l (y :: todo) (<[encode y:=tt]> seen)) as [todo' seen'].
    destruct IH as (Hs1 & Hs2). split; intros x; [rewrite Hs1|rewrite Hs2]; rewrite lookup_insert_is_Some', !elem_of_cons;
      destruct (decide (x = y)) as [->|?]; [tauto| |tauto|]; assert (encode y ≠ encode x) by (intros Hxy; by apply encode_inj in Hxy); tauto.
Qed.

(** When the search ends well, what it has seen is closed under steps and
    every seen state has been found in order. *)
Lemma search_sound fuel : ∀ todo seen,
  search fuel todo seen = true →
  (∀ x, is_Some (seen !! encode x) → x ∉ todo → ok x = true ∧ ∀ y, y ∈ next x → is_Some (seen !! encode y)) →
  ∃ I : X → Prop, (∀ x, is_Some (seen !! encode x) → I x) ∧ ∀ x, I x → ok x = true ∧ ∀ y, y ∈ next x → I y.
Proof.
  induction fuel as [|fuel IH]; intros [|x todo] seen Hrun Hdone; cbn in Hrun; try done.
  1,2: exists (λ x, is_Some (seen !! encode x)); split; [done|]; intros x Hx; apply Hdone; [done|by apply not_elem_of_nil].
  apply andb_true_iff in Hrun as [Hok Hrun]. pose proof (visit_spec (next x) todo seen) as Hv.
  destruct (visit (next x) todo seen) as [todo' seen']. destruct Hv as (Hs1 & Hs2).
  destruct (IH todo' seen' Hrun) as (I & Hi & Hc).
  - intros y Hy Hn. rewrite Hs2 in Hn. apply Hs1 in Hy. destruct (decide (y = x)) as [->|Hne].
    + split; [done|]. intros z Hz. apply Hs1. by right.
    + destruct (Hdone y) as [? Hnx]; [destruct (decide (is_Some (seen !! encode y))); tauto|rewrite elem_of_cons; tauto|].
      split; [done|]. intros z Hz. apply Hs1. left. by apply Hnx.
  - exists I. split; [|done]. intros y Hy. apply Hi, Hs1. by left.
Qed.
Lemma check_all_sound fuel x0 x : check_all fuel x0 = true → rtc (λ x y, y ∈ next x) x0 x → ok x = true.
Proof.
  intros Hrun Hr. destruct (search_sound fuel [x0] {[encode x0 := tt]} Hrun) as (I & Hi & Hc).
  - intros y Hy Hn. apply lookup_singleton_is_Some, encode_inj in Hy as ->. by destruct Hn; left.
  - assert (I x0) as H0 by (apply Hi; by apply lookup_singleton_is_Some). clear Hrun Hi.
    induction Hr as [x|x y z Hxy Hyz IH]; [by apply Hc|]. apply IH. by apply (Hc x).
Qed.
End search.

(** A run given by the numbers of the chosen successors, to exhibit a
    reachable state. *)
Section replay.
Context {X : Type} (next : X → list X).
Fixpoint replay (choices : list nat) (x : X) : option X :=
  match choices with
  | [] => Some x
  | c :: choices => match next x !! c with Some y => replay choices y | None => None end
  end.
Lemma replay_sound choices : ∀ x y, replay choices x = Some y → rtc (λ x y, y ∈ next x) x y.
Proof.
  induction choices as [|c choices IH]; intros x y Hr; cbn in Hr; [by simplify_eq|].
  destruct (next x !! c) as [z|] eqn:E; [|done]. eapply rtc_l; [by eapply list_elem_of_lookup_2|by apply IH].
Qed.
End replay.

(** All runs of a program that always ends: they have at most [fuel] steps,
    and the states at their ends are in order. *)
Section explore.
Context {X : Type} (next : X → list X) (ok : X → Prop).
Fixpoint explore (fuel : nat) (x : X) : Prop :=
  match next x with
  | [] => ok x
  | l => match fuel with O => False | S fuel => foldr (λ y P, explore fuel y ∧ P) True l end
  end.
Lemma explore_step fuel x y : explore (S fuel) x → y ∈ next x → explore fuel y.
Proof.
  cbn [explore]. destruct (next x) as [|z l]; [by intros _ Hy%elem_of_nil|]. generalize (z :: l). clear z l. intros l Hl Hy.
  induction l as [|z l IH]; [by apply elem_of_nil in Hy|]. cbn in Hl. destruct Hl as [Hz Hl]. apply elem_of_cons in Hy as [->|Hy]; eauto.
Qed.
Lemma explore_sound fuel x n y : explore fuel x → nsteps (λ x y, y ∈ next x) n x y → (n ≤ fuel)%nat ∧ (next y = [] → ok y).
Proof.
  intros He Hr. revert fuel He. induction Hr as [x|n x y z Hxy Hr IH]; intros fuel He.
  - split; [lia|]. intros Hn. destruct fuel; cbn [explore] in He; by rewrite Hn in He.
  - destruct fuel as [|fuel].
    + cbn [explore] in He. destruct (next x); [by apply elem_of_nil in Hxy|done].
    + destruct (IH fuel) as [? ?]; [by eapply explore_step|]. split; [lia|done].
Qed.
(** The same by computation. *)
Context (okb : X → bool) (Hok : ∀ x, okb x = true → ok x).
Fixpoint exploreb (fuel : nat) (x : X) : bool :=
  match next x with
  | [] => okb x
  | l => match fuel with O => false | S fuel => forallb (exploreb fuel) l end
  end.
Lemma exploreb_explore fuel x : exploreb fuel x = true → explore fuel x.
Proof.
  revert x. induction fuel as [|fuel IH]; intros x; cbn [exploreb explore]; destruct (next x) as [|z l]; try done; try apply Hok.
  generalize (z :: l). intros l'. induction l' as [|y l' IHl]; [done|]. cbn. intros [Hy Hl]%andb_true_iff. auto.
Qed.
End explore.

(** ** Sums over the table of threads *)
Definition zsum (l : list Z) : Z := foldr Z.add 0 l.
#[global] Arguments zsum : simpl never.
Lemma zsum_insert l i x y : l !! i = Some x → zsum (<[i:=y]> l) = zsum l - x + y.
Proof.
  revert i. induction l as [|z l IH]; intros [|i] Hi; [done|done| |].
  - cbn in *. simplify_eq. unfold zsum. cbn. lia.
  - change (<[S i:=y]> (z :: l)) with (z :: <[i:=y]> l). change (z + zsum (<[i:=y]> l) = z + zsum l - x + y).
    rewrite (IH i) by done. lia.
Qed.
Lemma zsum_nonneg l : Forall (λ z, 0 ≤ z) l → 0 ≤ zsum l.
Proof. induction 1; unfold zsum in *; cbn; lia. Qed.
Lemma zsum_bound l i x : Forall (λ z, 0 ≤ z) l → l !! i = Some x → 0 ≤ x ≤ zsum l.
Proof.
  intros HF. revert i. induction HF as [|z l Hz HF IH]; intros [|i] Hi; cbn in Hi; [done|done| |].
  - simplify_eq. pose proof (zsum_nonneg l HF). change (zsum (x :: l)) with (x + zsum l). lia.
  - specialize (IH i Hi). change (zsum (z :: l)) with (z + zsum l). lia.
Qed.
Lemma zsum_le {A} (f h : A → Z) l : Forall (λ x, f x ≤ h x) l → zsum (f <$> l) ≤ zsum (h <$> l).
Proof. induction 1; unfold zsum in *; cbn; lia. Qed.
(** The whole table is within a bound that one entry reaches: the others are
    zero. *)
Lemma zsum_only {A} (f : A → Z) l i x y j : Forall (λ x, 0 ≤ f x) l → zsum (f <$> l) ≤ 1 → l !! i = Some x → f x = 1 →
  l !! j = Some y → 0 < f y → i = j.
Proof.
  intros HF Hs Hx Hfx Hy Hfy. destruct (decide (i = j)) as [|Hne]; [done|exfalso].
  assert (zsum (<[i:=0]> (f <$> l)) = zsum (f <$> l) - f x + 0) as Hz by (apply zsum_insert; by rewrite list_lookup_fmap, Hx).
  assert (0 ≤ f y ≤ zsum (<[i:=0]> (f <$> l))); [|lia].
  apply (zsum_bound _ j); [apply Forall_insert; [by apply Forall_fmap|done]|by rewrite list_lookup_insert_ne, list_lookup_fmap, Hy by done].
Qed.

(** One entry counts and the others are zero. *)
Lemma zsum_zero {A} (f : A → Z) l : (∀ j u, l !! j = Some u → f u = 0) → zsum (f <$> l) = 0.
Proof.
  induction l as [|x l IH]; intros Hz; [done|].
  change (f x + zsum (f <$> l) = 0). rewrite (Hz 0%nat x eq_refl), IH; [done|]. intros j u Hu. by apply (Hz (S j) u).
Qed.
Lemma zsum_pos {A} (f : A → Z) l : 0 < zsum (f <$> l) → ∃ j u, l !! j = Some u ∧ 0 < f u.
Proof.
  induction l as [|x l IH]; [done|]. change (0 < f x + zsum (f <$> l) → ∃ j u, (x :: l) !! j = Some u ∧ 0 < f u). intros Hp.
  destruct (decide (0 < f x)) as [|Hn]; [by exists 0%nat, x|]. destruct IH as (j & u & Hu & Hf); [lia|]. by exists (S j), u.
Qed.
Lemma zsum_unique {A} (f : A → Z) l i x : l !! i = Some x → (∀ j u, l !! j = Some u → j ≠ i → f u = 0) → zsum (f <$> l) = f x.
Proof.
  revert i. induction l as [|y l IH]; intros [|i] Hi Hz; try done; change (f y + zsum (f <$> l) = f x); cbn in Hi.
  - simplify_eq. rewrite zsum_zero; [lia|]. intros j u Hu. by apply (Hz (S j) u).
  - rewrite (Hz 0%nat y eq_refl), (IH i); [lia|done| |done]. intros j u Hu Hne. apply (Hz (S j) u); [done|lia].
Qed.
Lemma zsum_move {A} (f : A → Z) l i x y : l !! i = Some x → zsum (f <$> <[i:=y]> l) = zsum (f <$> l) - f x + f y.
Proof. intros Hi. rewrite list_fmap_insert. apply zsum_insert. by rewrite list_lookup_fmap, Hi. Qed.

(** ** Library primitives

    A POSIX semaphore with a value: waiting is possible when it is positive. *)
Definition sem_wait (v : Z) : option Z := if v >? 0 then Some (v - 1) else None.
Definition sem_post (v : Z) : Z := v + 1.

(** One of the listed results of an action: none, or the only one. *)
Ltac inv_action H :=
  lazymatch type of H with
  | _ ∈ [] => by apply elem_of_nil in H
  | _ ∈ [_] => apply list_elem_of_singleton in H; simplify_eq
  end.

(** A run given by the threads that act, each with its first choice. *)
Section by_thread.
Context {G T : Type} (tstep : actions (G:=G) (T:=T)).
Fixpoint run_threads (ids : list nat) (s : cstate (G:=G) (T:=T)) : option (cstate (G:=G) (T:=T)) :=
  match ids with
  | [] => Some s
  | i :: ids =>
      match s.2 !! i with
      | Some t => match act_of tstep i t s with s' :: _ => run_threads ids s' | [] => None end
      | None => None
      end
  end.
Lemma run_threads_sound ids : ∀ s s', run_threads ids s = Some s' → rtc (cstep tstep) s s'.
Proof.
  induction ids as [|i ids IH]; intros s s' Hr; cbn in Hr; [by simplify_eq|].
  destruct (s.2 !! i) as [t|] eqn:Ht; [|done]. destruct (act_of tstep i t s) as [|s1 l] eqn:E; [done|].
  eapply rtc_l; [|by apply IH]. unfold cstep, succs. rewrite list_elem_of_In, in_concat. exists (act_of tstep i t s).
  split; apply list_elem_of_In; [apply elem_of_lookup_imap; eauto|rewrite E; left].
Qed.
End by_thread.
