(* ===== verification/Posix.v ===== *)
(** * Processes, open files and pipes of a POSIX system

    What the lecture programs of src/08 and src/05 use of the operating system
    and of the C library. A program is a tree of system calls: the code between
    two calls is folded into what comes next for each result. Processes
    interleave at system calls, each of which is one action; the table of
    processes, of Conc.v, bounds how many there can be, and [fork] fails when
    it is full. The system has files, open file descriptions with an offset,
    pipes, and a terminal whose output is kept as the list of writes. *)

From S2P Require Import Prelude CString Conc.

(** ** Programs *)
Definition O_RDONLY : Z := 0.
Definition O_WRONLY : Z := 1.
Definition O_RDWR : Z := 2.
Definition O_CREAT : Z := 64.
Definition O_TRUNC : Z := 512.
Definition O_APPEND : Z := 1024.
Definition flag (o f : Z) : bool := negb (Z.land o f =? 0).

Inductive call :=
| COpen (path : string) (flags : Z)
| CClose (fd : Z)
| CRead (fd : Z) (n : nat)
| CWrite (fd : Z) (data : list Z)
| CLseek (fd : Z) (off : nat)
| CDup (fd : Z)
| CPipe
| CIsatty (fd : Z)
| CGetpid
| CWait.
(** The result and the bytes or numbers stored through a pointer. *)
Definition answer : Type := Z * list Z.

(** [Stop]: the bound the model puts on a loop is reached, or the C program
    does something undefined. *)
Inductive prog :=
| Exit (status : Z)
| Stop
| Call (c : call) (k : answer → prog)
| Fork (k : Z → prog)
| Exec (name : string) (args : list string) (failed : prog).

(** Code that goes on: what follows is its argument. *)
Definition code (A : Type) : Type := (A → prog) → prog.
#[global] Instance code_ret : MRet code := λ A a k, k a.
#[global] Instance code_bind : MBind code := λ A B f m k, m (λ a, f a k).

Definition sys (c : call) : code Z := λ k, Call c (λ a, k a.1).
Definition u_open (path : string) (flags : Z) : code Z := sys (COpen path flags).
Definition close (fd : Z) : code Z := sys (CClose fd).
Definition read (fd : Z) (n : nat) : code answer := λ k, Call (CRead fd n) k.
Definition write (fd : Z) (data : list Z) : code Z := sys (CWrite fd data).
Definition lseek (fd : Z) (off : nat) : code Z := sys (CLseek fd off).
Definition dup (fd : Z) : code Z := sys (CDup fd).
Definition u_pipe : code answer := λ k, Call CPipe k.
Definition getpid : code Z := sys CGetpid.
Definition wait : code Z := sys CWait.
Definition fork : code Z := λ k, Fork k.
Definition execvp (name : string) (args : list string) : code unit := λ k, Exec name args (k tt).
Definition run (m : code prog) : prog := m id.

(** ** The C library's streams

    A stream is line buffered when it first finds a terminal below it, and
    fully buffered otherwise. No program here fills a buffer, and text with a
    newline ends in it. Streams are memory of the process: [fork] copies what
    they hold, [execvp] drops it, and [exit] writes it out. *)
Record FILE := mk_FILE { f_fd : Z; f_line : option bool; f_buf : list Z }.
Definition stdout : FILE := mk_FILE 1 None [].
Definition STDOUT_FILENO : Z := 1.
Definition STDERR_FILENO : Z := 2.
Definition STDIN_FILENO : Z := 0.

Definition fflush (f : FILE) : code FILE :=
  match f_buf f with
  | [] => mret f
  | buf => write (f_fd f) buf ≫= λ _, mret (mk_FILE (f_fd f) (f_line f) [])
  end.
Definition fput (f : FILE) (data : list Z) (nl : bool) : code FILE :=
  line ← match f_line f with Some b => mret b | None => r ← sys (CIsatty (f_fd f)); mret (r =? 1) end;
  let f := mk_FILE (f_fd f) (Some line) (f_buf f ++ data) in
  if line && nl then fflush f else mret f.
Definition fclose (f : FILE) : code Z := f ← fflush f; close (f_fd f).
Definition exit (io : FILE) (status : Z) : code prog := fflush io ≫= λ _, mret (Exit status).
(** A failed assertion ends the process without writing anything out but the
    message. *)
Definition assert (b : bool) : code unit := λ k, if b then k tt else Call (CWrite STDERR_FILENO (chars "Assertion failed")) (λ _, Exit 134).

(** Text with decimal numbers in it. *)
Inductive seg := T (s : string) | D (v : Z).
Section printf.
Context (dec : Z → list Z).
Definition seg_bytes (x : seg) : list Z := match x with T s => chars s | D v => dec v end.
(** A number has no newline. *)
Definition has_nl (x : seg) : bool := match x with T s => bool_decide (10 ∈ chars s) | D _ => false end.
Definition fprintf (f : FILE) (x : list seg) : code FILE := fput f (concat (seg_bytes <$> x)) (existsb has_nl x).
End printf.

(** ** The system *)
Inductive object := Tty | File (path : string) | PipeR (k : nat) | PipeW (k : nat).
(** [d_mode]: the flags it was opened with. *)
Record desc := mk_desc { d_obj : object; d_off : nat; d_mode : Z }.
Definition can_read (x : desc) : bool := negb (Z.land (d_mode x) 3 =? O_WRONLY).
Definition can_write (x : desc) : bool := negb (Z.land (d_mode x) 3 =? O_RDONLY).
Definition set_off v (x : desc) : desc := mk_desc (d_obj x) v (d_mode x).
Record system := mk_system {
  files : string → option (list Z);
  descs : list desc;
  pipes : list (list Z);
  tty : list (list Z);
}.
Definition set_files v g := mk_system v (descs g) (pipes g) (tty g).
Definition set_descs v g := mk_system (files g) v (pipes g) (tty g).
Definition set_pipes v g := mk_system (files g) (descs g) v (tty g).
Definition set_tty v g := mk_system (files g) (descs g) (pipes g) v.
Definition put_file (p : string) (c : list Z) g : system :=
  set_files (λ q, if String.eqb q p then Some c else files g q) g.

Definition fdtable : Type := list (option nat).
Definition fd_get (fds : fdtable) (fd : Z) : option nat := if fd <? 0 then None else mjoin (fds !! Z.to_nat fd).
(** The lowest number not in use. *)
Fixpoint fd_put (fds : fdtable) (d : nat) : nat * fdtable :=
  match fds with
  | [] => (O, [Some d])
  | None :: fds => (O, Some d :: fds)
  | Some e :: fds => let r := fd_put fds d in (S r.1, Some e :: r.2)
  end.

(** A process; [up] is the entry of the one that forked it. *)
Inductive process :=
| Unborn
| Running (up : option nat) (fds : fdtable) (p : prog)
| Zombie (up : option nat) (status : Z)
| Reaped (status : Z).

(** Does a process have a description of the object? *)
Definition holds (o : object → bool) (g : system) (t : process) : bool :=
  match t with
  | Running _ fds _ =>
      existsb (λ e, match e with Some d => match descs g !! d with Some x => o (d_obj x) | None => false end | None => false end) fds
  | _ => false
  end.
Definition is_writer (k : nat) (o : object) : bool := match o with PipeW j => (j =? k)%nat | _ => false end.
Definition is_reader (k : nat) (o : object) : bool := match o with PipeR j => (j =? k)%nat | _ => false end.

(** Bytes put into a file at an offset; a gap is filled with zeros. *)
Definition size (l : list Z) : nat := length l.
Definition fill (off : nat) (data c : list Z) : list Z :=
  if bool_decide (size c ≤ off)%nat then c ++ replicate (off - size c) 0 ++ data
  else take off c ++ data ++ drop (off + size data) c.
(** The offset after them. *)
Definition ahead (off : nat) (data : list Z) : nat := (off + size data)%nat.
Lemma fill_end c data : fill (size c) data c = c ++ data.
Proof. unfold fill. rewrite bool_decide_eq_true_2, Nat.sub_diag by done. done. Qed.
(** The first, the second and the third write to an empty file. *)
Lemma fill_first x : fill 0 x [] = x.
Proof. apply (fill_end []). Qed.
Lemma fill_second x y : fill (ahead 0 x) y x = x ++ y.
Proof. apply fill_end. Qed.
Lemma fill_third x y z : fill (ahead (ahead 0 x) y) z (x ++ y) = x ++ y ++ z.
Proof. unfold ahead. cbn [Nat.add]. replace (size x + size y)%nat with (size (x ++ y)) by (unfold size; apply length_app). by rewrite fill_end, app_assoc. Qed.

(** What a call does: it returns, or the process is killed by the signal that
    a write to a pipe without readers raises. *)
Inductive effect := Returns (a : answer) (fds : fdtable) (g : system) | Killed.
Definition fails (fds : fdtable) (g : system) : list effect := [Returns (-1, []) fds g].

Section calls.
(** Process identifiers are positive. *)
Context (pid : nat → positive).

Definition do_open (path : string) (flags : Z) (fds : fdtable) (g : system) : list effect :=
  if flag flags O_CREAT || match files g path with Some _ => true | None => false end then
    let c := if flag flags O_TRUNC then [] else default [] (files g path) in
    let r := fd_put fds (length (descs g)) in
    [Returns (Z.of_nat r.1, []) r.2 (set_descs (descs g ++ [mk_desc (File path) 0 flags]) (put_file path c g))]
  else fails fds g.
Definition do_read (d : nat) (x : desc) (n : nat) (ts : list process) (fds : fdtable) (g : system) : list effect :=
  if negb (can_read x) then fails fds g else
  match d_obj x with
  | File p =>
      let data := take n (drop (d_off x) (default [] (files g p))) in
      [Returns (Z.of_nat (size data), data) fds (set_descs (<[d:=set_off (ahead (d_off x) data) x]> (descs g)) g)]
  | PipeR k =>
      match default [] (pipes g !! k) with
      | [] => if existsb (holds (is_writer k) g) ts then [] else [Returns (0, []) fds g]
      | c => [Returns (Z.of_nat (length (take n c)), take n c) fds (set_pipes (<[k:=drop n c]> (pipes g)) g)]
      end
  | Tty => []
  | PipeW _ => fails fds g
  end.
Definition do_write (d : nat) (x : desc) (data : list Z) (ts : list process) (fds : fdtable) (g : system) : list effect :=
  if negb (can_write x) then fails fds g else
  let done g := [Returns (Z.of_nat (size data), []) fds g] in
  match d_obj x with
  | File p =>
      let c := default [] (files g p) in
      let off := if flag (d_mode x) O_APPEND then size c else d_off x in
      done (set_descs (<[d:=set_off (ahead off data) x]> (descs g)) (put_file p (fill off data c) g))
  | PipeW k =>
      if existsb (holds (is_reader k) g) ts then done (set_pipes (<[k:=default [] (pipes g !! k) ++ data]> (pipes g)) g)
      else [Killed]
  | Tty => done (set_tty (tty g ++ [data]) g)
  | PipeR _ => fails fds g
  end.
Definition do_call (i : nat) (c : call) (ts : list process) (fds : fdtable) (g : system) : list effect :=
  let on fd (f : nat → desc → list effect) :=
    match fd_get fds fd with
    | Some d => match descs g !! d with Some x => f d x | None => fails fds g end
    | None => fails fds g
    end in
  match c with
  | COpen path flags => do_open path flags fds g
  | CClose fd => on fd (λ _ _, [Returns (0, []) (<[Z.to_nat fd:=None]> fds) g])
  | CRead fd n => on fd (λ d x, do_read d x n ts fds g)
  | CWrite fd data => on fd (λ d x, do_write d x data ts fds g)
  | CLseek fd off =>
      on fd (λ d x, match d_obj x with
                    | File _ => [Returns (Z.of_nat off, []) fds (set_descs (<[d:=set_off off x]> (descs g)) g)]
                    | _ => fails fds g
                    end)
  | CDup fd => on fd (λ d _, let r := fd_put fds d in [Returns (Z.of_nat r.1, []) r.2 g])
  | CPipe =>
      let k := length (pipes g) in let n := length (descs g) in
      let r := fd_put fds n in let w := fd_put r.2 (S n) in
      [Returns (0, [Z.of_nat r.1; Z.of_nat w.1]) w.2
         (set_descs (descs g ++ [mk_desc (PipeR k) 0 O_RDONLY; mk_desc (PipeW k) 0 O_WRONLY]) (set_pipes (pipes g ++ [[]]) g))]
  | CIsatty fd => on fd (λ _ x, [Returns (match d_obj x with Tty => 1 | _ => 0 end, []) fds g])
  | CGetpid => [Returns (Z.pos (pid i), []) fds g]
  | CWait => fails fds g
  end.

(** The programs [execvp] finds. *)
Context (bin : string → list string → option prog).

Fixpoint find_unborn (k : nat) (ts : list process) : option nat :=
  match ts with
  | [] => None
  | Unborn :: _ => Some k
  | _ :: ts => find_unborn (S k) ts
  end.
(** The ended children of [i], and whether it has children. *)
Definition ended (i : nat) (ts : list process) : list (nat * Z) :=
  concat (imap (λ j t, match t with Zombie up st => if bool_decide (up = Some i) then [(j, st)] else [] | _ => [] end) ts).
Definition has_child (i : nat) (ts : list process) : bool :=
  existsb (λ t, match t with Running up _ _ | Zombie up _ => bool_decide (up = Some i) | _ => false end) ts.

Definition process_step : actions (G:=system) (T:=process) := λ i t ts g,
  match t with
  | Running up fds (Exit st) => [(Zombie up st, g, None)]
  | Running up fds (Fork k) =>
      match find_unborn 0 ts with
      | Some j => [(Running up fds (k (Z.pos (pid j))), g, Some (j, Running (Some i) fds (k 0)))]
      | None => [(Running up fds (k (-1)), g, None)]
      end
  | Running up fds (Exec name args failed) => [(Running up fds (default failed (bin name args)), g, None)]
  | Running up fds (Call CWait k) =>
      if has_child i ts then (λ js, (Running up fds (k (Z.pos (pid js.1), [])), g, Some (js.1, Reaped js.2))) <$> ended i ts
      else [(Running up fds (k (-1, [])), g, None)]
  | Running up fds (Call c k) =>
      (λ e, match e with Returns a fds g => (Running up fds (k a), g, None) | Killed => (Zombie up 141, g, None) end) <$> do_call i c ts fds g
  | _ => []
  end.
End calls.

(** Process 0 starts; its descriptors 0 and 2 are the terminal, and so is 1
    unless it is redirected to a file. The table has room for [n] more. *)
Definition system0 (fs : string → option (list Z)) (out : object) : system := mk_system fs [mk_desc Tty 0 O_RDWR; mk_desc out 0 O_RDWR] [] [].
Definition init_state (fs : string → option (list Z)) (out : object) (n : nat) (p : prog) : cstate (G:=system) (T:=process) :=
  (system0 fs out, Running None [Some 0; Some 1; Some 0]%nat p :: replicate n Unborn).
