(* ===== verification/PosixProgs.v ===== *)
(** * The lecture programs on files, processes and pipes

    08/dup.c, nodup.c, fork-fd.c, fork-fd2.c, fork-cow.c, p1.c to p5.c and
    pipe.c, and 05/io.c. *)

From S2P Require Import Prelude CString Conc Posix.

(** A text that ends in a newline. *)
Definition ln (s : string) : string := String.append s (String (Ascii.ascii_of_nat 10) EmptyString).

(** ** 08/dup.c and 08/nodup.c *)
Definition dup_main : prog := run (
  fd ← u_open "dup.txt" (Z.lor O_WRONLY (Z.lor O_CREAT O_TRUNC));
  write fd (chars (ln "hello world"));;
  fd2 ← dup fd;
  write fd2 (chars (ln "I am writing to fd2"));;
  write fd (chars (ln "I am writing to fd"));;
  close fd;;
  write fd2 (chars (ln "I can write to fd2 after fd is closed"));;
  close fd2;;
  exit stdout 0).
Definition nodup_main : prog := run (
  fd ← u_open "nodup.txt" (Z.lor O_WRONLY (Z.lor O_CREAT O_TRUNC));
  write fd (chars (ln "hello world"));;
  fd2 ← u_open "nodup.txt" O_WRONLY;
  write fd2 (chars (ln "I am writing to fd2"));;
  write fd (chars (ln "I am writing to fd"));;
  close fd;;
  write fd2 (chars (ln "I can write to fd2 after fd is closed"));;
  close fd2;;
  exit stdout 0).

(** [fprintf(stderr, ...); exit(1);] *)
Definition fork_failed (io : FILE) : code prog :=
  write STDERR_FILENO (chars (ln "fork failed"));;
  exit io 1.

(** ** 08/fork-fd.c and 08/fork-fd2.c *)
Definition fork_fd_main : prog := run (
  fd ← u_open "fd.txt" (Z.lor O_WRONLY (Z.lor O_CREAT O_TRUNC));
  write fd (chars (ln "hello world"));;
  rc ← fork;
  if rc <? 0 then fork_failed stdout
  else
    (if rc =? 0 then write fd (chars (ln "hi, I am the child"))
     else write fd (chars (ln "hi, I am the parent")));;
    close fd;;
    exit stdout 0).
(** [fopen(..., "w")]: a stream on a file is fully buffered. *)
Definition fork_fd2_main (dec : Z → list Z) : prog := run (
  fd ← u_open "fd2.txt" (Z.lor O_WRONLY (Z.lor O_CREAT O_TRUNC));
  f ← fprintf dec (mk_FILE fd None []) [T (ln "hello world")];
  f ← fflush f;
  rc ← fork;
  if rc <? 0 then
    write STDERR_FILENO (chars (ln "fork failed"));;
    f ← fflush f;
    exit stdout 1
  else
    f ← (if rc =? 0 then fprintf dec f [T (ln "hi, I am the child")]
         else fprintf dec f [T (ln "hi, I am the parent")]);
    fclose f;;
    exit stdout 0).

(** ** 08/fork-cow.c

    The array is a function from its indices; [n] is [SZ]. *)
Definition COW_SZ : Z := 100000000.
Fixpoint cow_set (n : nat) (i v : Z) (a : Z → Z) : Z → Z :=
  match n with O => a | S n => cow_set n (i + 1) v (λ j, if j =? i then v else a j) end.
Fixpoint cow_sum (n : nat) (i : Z) (a : Z → Z) (sum : Z) : Z :=
  match n with O => sum | S n => cow_sum n (i + 1) a (s32 (sum + a i)) end.
Definition fork_cow_main (n : nat) (dec : Z → list Z) : prog := run (
  pid ← getpid;
  io ← fprintf dec stdout [T "hello world (pid:"; D pid; T (ln ")")];
  let a := λ _, 0 in
  let sum := 23 in
  rc ← fork;
  if rc <? 0 then fork_failed io
  else if rc =? 0 then
    let a := cow_set n 0 1 a in
    let sum := cow_sum n 0 a sum in
    io ← fprintf dec io [T "child found sum="; D sum; T (ln "")];
    exit io 0
  else
    let a := cow_set n 0 2 a in
    let sum := cow_sum n 0 a sum in
    io ← fprintf dec io [T "parent found sum="; D sum; T (ln "")];
    exit io 0).

(** ** 08/p1.c to 08/p5.c *)
Section p.
Context (dec : Z → list Z).
Definition say (io : FILE) (x : list seg) : code FILE := fprintf dec io x.
Definition hello (io : FILE) : code FILE := pid ← getpid; say io [T "hello world (pid:"; D pid; T (ln ")")].
Definition child_hello (io : FILE) : code FILE := pid ← getpid; say io [T "hello, I am child (pid:"; D pid; T (ln ")")].
Definition p1_main : prog := run (
  io ← hello stdout;
  rc ← fork;
  if rc <? 0 then fork_failed io
  else if rc =? 0 then
    io ← child_hello io;
    exit io 0
  else
    pid ← getpid;
    io ← say io [T "hello, I am parent of "; D rc; T " (pid:"; D pid; T (ln ")")];
    exit io 0).
(** The parent's side of p2.c to p5.c. *)
Definition await_child (io : FILE) (rc : Z) : code (FILE * Z) :=
  wc ← wait;
  pid ← getpid;
  io ← say io [T "hello, I am parent of "; D rc; T " (wc:"; D wc; T ") (pid:"; D pid; T (ln ")")];
  mret (io, wc).
(** [sleep(1)] takes time and nothing else. *)
Definition p2_main : prog := run (
  io ← hello stdout;
  rc ← fork;
  if rc <? 0 then fork_failed io
  else if rc =? 0 then
    io ← child_hello io;
    exit io 0
  else
    r ← await_child io rc;
    exit r.1 0).
Definition p3_main : prog := run (
  io ← hello stdout;
  rc ← fork;
  if rc <? 0 then fork_failed io
  else if rc =? 0 then
    io ← child_hello io;
    execvp "wc" ["p3.c"]%string;;
    io ← say io [T "this shouldn't print out"];
    exit io 0
  else
    r ← await_child io rc;
    assert (r.2 >=? 0);;
    exit r.1 0).
Definition p4_main : prog := run (
  io ← hello stdout;
  rc ← fork;
  if rc <? 0 then fork_failed io
  else if rc =? 0 then
    close STDOUT_FILENO;;
    fd ← u_open "./p4.output" (Z.lor O_CREAT (Z.lor O_WRONLY O_TRUNC));
    pid ← getpid;
    io ← say io [T "hello, I am child (pid:"; D pid; T ") with fd="; D fd; T (ln "")];
    execvp "wc" ["p4.c"]%string;;
    io ← say io [T "this shouldn't print out"];
    exit io 0
  else
    r ← await_child io rc;
    assert (r.2 >=? 0);;
    exit r.1 0).
Definition p5_main : prog := run (
  io ← hello stdout;
  rc ← fork;
  if rc <? 0 then fork_failed io
  else if rc =? 0 then
    close STDOUT_FILENO;;
    u_open "./p5.output" (Z.lor O_CREAT (Z.lor O_WRONLY O_TRUNC));;
    close STDERR_FILENO;;
    dup STDOUT_FILENO;;
    io ← child_hello io;
    execvp "ls" ["p5.c"; "p5.xyz"]%string;;
    io ← say io [T "this shouldn't print out"];
    exit io 0
  else
    r ← await_child io rc;
    assert (r.2 >=? 0);;
    exit r.1 0).
End p.

(** ** 08/pipe.c

    [c] is the byte last read; as a [char] it is [EOF] when all its bits are
    set. [fuel] bounds the bytes read. *)
Definition upcase (c : Z) : Z := if (c >=? 97) && (c <=? 122) then c - 97 + 65 else c.
Fixpoint pipe_loop (fuel : nat) (io : FILE) (c : Z) : code prog :=
  match fuel with
  | O => mret Stop
  | S fuel =>
      if c =? 255 then exit io 0 else
      r ← read STDIN_FILENO 1;
      match r with
      | (n, [c]) =>
          if n <? 1 then exit io 0 else
          let c := upcase c in
          io ← fput io [c] (c =? 10);
          pipe_loop fuel io c
      | _ => exit io 0
      end
  end.
Definition pipe_main (fuel : nat) : prog := run (
  r ← u_pipe;
  match r with
  | (r, [p0; p1]) =>
      if r <? 0 then exit stdout 255 else
      rc ← fork;
      if rc <? 0 then fork_failed stdout
      else if rc =? 0 then
        close STDOUT_FILENO;;
        dup p1;;
        close p0;;
        close p1;;
        execvp "echo" ["i will get printed in capital letters!!"]%string;;
        exit stdout 0
      else
        close p1;;
        close STDIN_FILENO;;
        dup p0;;
        pipe_loop fuel stdout 0
  | _ => exit stdout 255
  end).

(** ** 05/io.c

    [buffer] is the array, [junk] what it holds at first. *)
Definition BUF_LEN : nat := 20.
Definition sprintf (s : string) (buffer : list Z) : list Z := splice 0 (str s) buffer.
(** The bytes before the NUL. *)
Definition text (buffer : list Z) : option (list Z) := n ← strlen buffer; Some (take (Z.to_nat n) buffer).
Definition with_text (buffer : list Z) (f : list Z → code prog) : code prog :=
  match text buffer with Some s => f s | None => mret Stop end.
Definition io_main (dec : Z → list Z) (junk : list Z) : prog := run (
  fd ← u_open "/tmp/file" (Z.lor O_WRONLY (Z.lor O_CREAT O_TRUNC));
  assert (fd >=? 0);;
  let buffer := sprintf (ln "hello world") junk in
  with_text buffer (λ s,
    rc ← write fd s;
    assert (rc =? Z.of_nat (length s));;
    close fd;;
    let buffer := sprintf "COL331" (replicate BUF_LEN 0) in
    fd2 ← u_open "/tmp/file" O_RDWR;
    lseek fd 6;;
    with_text buffer (λ s,
      rc ← write fd s;
      assert (rc =? Z.of_nat (length s));;
      fd3 ← u_open "/tmp/file" (Z.lor O_WRONLY O_APPEND);
      write fd3 (chars (ln "!"));;
      close fd3;;
      lseek fd2 0;;
      r ← read fd2 BUF_LEN;
      assert (r.1 >? 0);;
      let buffer := splice 0 r.2 buffer in
      with_text buffer (λ s,
        io ← fput stdout (dec r.1 ++ chars ": " ++ s) (bool_decide (10 ∈ s));
        close fd2;;
        exit io 0)))).
