(* ===== verification/PosixTheorems.v ===== *)
(** * Correctness of the lecture programs on files, processes and pipes

    Every statement is about all runs: how long they can be, and the state at
    the end of each. *)

From S2P Require Import Prelude CString Printf Conc Posix PosixProgs.

(** [%d] of a number, as the formatter of printf.c has it. *)
Definition decimal (v : Z) : list Z := default [] (u_printint v 10 1).

Section theorems.
(** How numbers are printed, the identifiers of processes, and the programs
    that can be executed. *)
Context (dec : Z → list Z) (pid : nat → positive) (bin : string → list string → option prog).
Implicit Types s : cstate (G:=system) (T:=process).

(** Every run from [s0] has at most [k] steps, and ends in [ok]. *)
Definition ends_within (bin : string → list string → option prog) (k : nat) s0 (ok : cstate (G:=system) (T:=process) → Prop) : Prop :=
  ∀ n s, nsteps (cstep (process_step pid bin)) n s0 s → (n ≤ k)%nat ∧ (stuck (process_step pid bin) s → ok s).
Lemma ends_by bin' k s0 ok : explore (succs (process_step pid bin')) ok k s0 → ends_within bin' k s0 ok.
Proof. intros He n s Hr. exact (explore_sound _ ok k s0 n s He Hr). Qed.

Lemma ends_mono bin' k s0 (ok ok' : cstate (G:=system) (T:=process) → Prop) :
  ends_within bin' k s0 ok → (∀ s, ok s → ok' s) → ends_within bin' k s0 ok'.
Proof. intros He Hi n s Hr. destruct (He n s Hr). eauto. Qed.

Definition file_is (p : string) (c : list Z) s : Prop := files s.1 p = Some c.
Definition returned (i : nat) (st : Z) s : Prop :=
  match s.2 !! i with Some (Zombie _ x) | Some (Reaped x) => x = st | _ => False end.
Definition returnedb (i : nat) (st : Z) s : bool :=
  match s.2 !! i with Some (Zombie _ x) | Some (Reaped x) => x =? st | _ => false end.
Lemma returnedb_spec i st s : returnedb i st s = true → returned i st s.
Proof. unfold returnedb, returned. destruct (s.2 !! i) as [[]|]; try done; apply Z.eqb_eq. Qed.
Definition lines (l : list string) : list Z := concat (chars ∘ ln <$> l).

Lemma dup_ends fs : ends_within bin 20 (init_state fs Tty 1 dup_main) (λ s,
  file_is "dup.txt" (lines ["hello world"; "I am writing to fd2"; "I am writing to fd"; "I can write to fd2 after fd is closed"]) s ∧ returned 0 0 s).
Proof. apply ends_by. vm_compute. repeat split. Qed.
Lemma nodup_ends fs : ends_within bin 20 (init_state fs Tty 1 nodup_main) (λ s,
  file_is "nodup.txt" (lines ["I am writingI am wriI can write to fd2 after fd is closed"]) s ∧ returned 0 0 s).
Proof. apply ends_by. vm_compute. repeat split. Qed.
Lemma fork_fd_ends fs : ends_within bin 20 (init_state fs Tty 1 fork_fd_main) (λ s,
  (file_is "fd.txt" (lines ["hello world"; "hi, I am the child"; "hi, I am the parent"]) s ∨
   file_is "fd.txt" (lines ["hello world"; "hi, I am the parent"; "hi, I am the child"]) s) ∧ returned 0 0 s ∧ returned 1 0 s).
Proof. apply ends_by. vm_compute. repeat (split || (left; reflexivity) || (right; reflexivity)). Qed.
(** With the table of processes full, [fork] fails. *)
Lemma fork_fd_fails fs : ends_within bin 20 (init_state fs Tty 0 fork_fd_main) (λ s,
  file_is "fd.txt" (lines ["hello world"]) s ∧ tty s.1 = [lines ["fork failed"]] ∧ returned 0 1 s).
Proof. apply ends_by. vm_compute. repeat split. Qed.
Lemma fork_fd2_ends fs : ends_within bin 20 (init_state fs Tty 1 (fork_fd2_main dec)) (λ s,
  (file_is "fd2.txt" (lines ["hello world"; "hi, I am the child"; "hi, I am the parent"]) s ∨
   file_is "fd2.txt" (lines ["hello world"; "hi, I am the parent"; "hi, I am the child"]) s) ∧ returned 0 0 s ∧ returned 1 0 s).
Proof. apply ends_by. vm_compute. repeat (split || (left; reflexivity) || (right; reflexivity)). Qed.
(** A program that writes [out] and ends. *)
Definition prints (fd : Z) (out : list Z) (p : prog) : prog := Call (CWrite fd out) (λ _, p).
(** What [execvp] finds under one name. *)
Definition installed (name : string) (p : list string → prog) : string → list string → option prog :=
  λ n args, if String.eqb n name then Some (p args) else bin n args.
(** echo prints its arguments and a newline. *)
Definition echo (args : list string) : prog := prints 1 (lines [String.concat " " args]) (Exit 0).
(** ** What fork copies *)
Definition said (x : list seg) : list Z := concat (seg_bytes dec <$> x).
Abbreviation pd i := (D (Z.pos (pid i))).
Definition hello_line : list Z := said [T "hello world (pid:"; pd 0%nat; T (ln ")")].
Definition child_line : list Z := said [T "hello, I am child (pid:"; pd 1%nat; T (ln ")")].
Definition parent_line : list Z := said [T "hello, I am parent of "; pd 1%nat; T " (pid:"; pd 0%nat; T (ln ")")].
Definition waited_line : list Z := said [T "hello, I am parent of "; pd 1%nat; T " (wc:"; pd 1%nat; T ") (pid:"; pd 0%nat; T (ln ")")].

Ltac leaves := repeat first [split | reflexivity | left; repeat split; reflexivity | right; repeat split; reflexivity].
Lemma p1_ends fs : ends_within bin 20 (init_state fs Tty 1 (p1_main dec)) (λ s,
  (tty s.1 = [hello_line; child_line; parent_line] ∨ tty s.1 = [hello_line; parent_line; child_line]) ∧ returned 0 0 s ∧ returned 1 0 s).
Proof. apply ends_by. vm_compute. leaves. Qed.
Lemma cow_ends fs n : ends_within bin 20 (init_state fs Tty 1 (fork_cow_main n dec)) (λ s,
  let c := said [T "child found sum="; D (cow_sum n 0 (cow_set n 0 1 (λ _, 0)) 23); T (ln "")] in
  let p := said [T "parent found sum="; D (cow_sum n 0 (cow_set n 0 2 (λ _, 0)) 23); T (ln "")] in
  (tty s.1 = [hello_line; c; p] ∨ tty s.1 = [hello_line; p; c]) ∧ returned 0 0 s ∧ returned 1 0 s).
Proof. apply ends_by. cbv -[cow_sum cow_set]. leaves. Qed.
Lemma p2_ends fs : ends_within bin 20 (init_state fs Tty 1 (p2_main dec)) (λ s,
  tty s.1 = [hello_line; child_line; waited_line] ∧ returned 0 0 s ∧ returned 1 0 s).
Proof. apply ends_by. vm_compute. leaves. Qed.
Lemma p3_ends fs out st : ends_within (installed "wc" (λ _, prints 1 out (Exit st))) 20 (init_state fs Tty 1 (p3_main dec)) (λ s,
  tty s.1 = [hello_line; child_line; out; waited_line] ∧ returned 0 0 s ∧ returned 1 st s).
Proof. apply ends_by. vm_compute. leaves. Qed.

Definition child_fd_line : list Z := said [T "hello, I am child (pid:"; pd 1%nat; T ") with fd="; D 1; T (ln "")].
Ltac written := cbv -[fill size ahead]; repeat split; try reflexivity; rewrite ?fill_first, ?fill_second, ?fill_third; reflexivity.
Lemma p4_ends fs out st : ends_within (installed "wc" (λ _, prints 1 out (Exit st))) 20 (init_state fs Tty 1 (p4_main dec)) (λ s,
  tty s.1 = [hello_line; waited_line] ∧ file_is "./p4.output" (child_fd_line ++ out) s ∧ returned 0 0 s ∧ returned 1 st s).
Proof. apply ends_by. written. Qed.
Lemma p5_ends fs err out st : ends_within (installed "ls" (λ _, prints 2 err (prints 1 out (Exit st)))) 20 (init_state fs Tty 1 (p5_main dec)) (λ s,
  tty s.1 = [hello_line; waited_line] ∧ file_is "./p5.output" (child_line ++ err ++ out) s ∧ returned 0 0 s ∧ returned 1 st s).
Proof. apply ends_by. written. Qed.
(** The shell's [> out]. *)
Definition emptied (p : string) (fs : string → option (list Z)) : string → option (list Z) := λ q, if String.eqb q p then Some [] else fs q.
Lemma p1_redirected_ends fs : ends_within bin 20 (init_state (emptied "out" fs) (File "out") 1 (p1_main dec)) (λ s,
  file_is "out" ((hello_line ++ child_line) ++ (hello_line ++ parent_line)) s ∨
  file_is "out" ((hello_line ++ parent_line) ++ (hello_line ++ child_line)) s).
Proof. apply ends_by. cbv -[fill size ahead]. repeat split; rewrite fill_first, fill_second; first [left; reflexivity|right; reflexivity]. Qed.
Lemma p4_redirected_ends fs out st : ends_within (installed "wc" (λ _, prints 1 out (Exit st))) 20 (init_state (emptied "out" fs) (File "out") 1 (p4_main dec)) (λ s,
  file_is "out" (hello_line ++ waited_line) s ∧ file_is "./p4.output" out s).
Proof. apply ends_by. written. Qed.

(** ** The sums of fork-cow.c *)
Lemma cow_set_spec n i v a j : cow_set n i v a j = if bool_decide (i ≤ j < i + Z.of_nat n) then v else a j.
Proof.
  revert i a. induction n as [|n IH]; intros i a; cbn [cow_set]; [by rewrite bool_decide_eq_false_2 by lia|].
  rewrite IH. destruct (Z.eqb_spec j i) as [->|]; repeat case_bool_decide; try done; lia.
Qed.
Lemma cow_sum_spec n i a v sum : (∀ j, i ≤ j < i + Z.of_nat n → a j = v) → 0 ≤ v → 0 ≤ sum → sum + Z.of_nat n * v < 2147483648 →
  cow_sum n i a sum = sum + Z.of_nat n * v.
Proof.
  revert i sum. induction n as [|n IH]; intros i sum Ha Hv Hs Hb; cbn [cow_sum]; [lia|].
  rewrite (Ha i) by lia. rewrite s32_small by nia. rewrite IH; [lia|intros j Hj; apply Ha; lia|done|lia|nia].
Qed.
Lemma cow_sums v : v = 1 ∨ v = 2 → cow_sum (Z.to_nat COW_SZ) 0 (cow_set (Z.to_nat COW_SZ) 0 v (λ _, 0)) 23 = 23 + v * COW_SZ.
Proof.
  intros Hv. assert (0 ≤ COW_SZ) by (unfold COW_SZ; lia). rewrite (cow_sum_spec _ _ _ v); [rewrite Z2Nat.id by done; lia| |lia|lia|].
  - intros j Hj. rewrite cow_set_spec. by rewrite bool_decide_eq_true_2.
  - rewrite Z2Nat.id by done. unfold COW_SZ. lia.
Qed.

(** C30. Descriptors and offsets, in every run. In dup.c both descriptors write
    to one open file, at one offset, so that all four lines are there in order;
    in nodup.c the two descriptors have offsets of their own and write over
    each other's lines: the first line is gone. In fork-fd.c and fork-fd2.c
    parent and child share the offset: neither writes over the other, whoever
    comes first, and what was flushed before the fork is there once. When
    there can be no more process, fork-fd.c says so and returns 1. *)
Theorem descriptors_share_offsets fs :
  ends_within bin 20 (init_state fs Tty 1 dup_main) (λ s, returned 0 0 s ∧
    file_is "dup.txt" (lines ["hello world"; "I am writing to fd2"; "I am writing to fd"; "I can write to fd2 after fd is closed"]) s) ∧
  ends_within bin 20 (init_state fs Tty 1 nodup_main) (λ s, returned 0 0 s ∧
    file_is "nodup.txt" (lines ["I am writingI am wriI can write to fd2 after fd is closed"]) s) ∧
  ends_within bin 20 (init_state fs Tty 1 fork_fd_main) (λ s, (returned 0 0 s ∧ returned 1 0 s) ∧
    (file_is "fd.txt" (lines ["hello world"; "hi, I am the child"; "hi, I am the parent"]) s ∨
     file_is "fd.txt" (lines ["hello world"; "hi, I am the parent"; "hi, I am the child"]) s)) ∧
  ends_within bin 20 (init_state fs Tty 1 (fork_fd2_main dec)) (λ s, (returned 0 0 s ∧ returned 1 0 s) ∧
    (file_is "fd2.txt" (lines ["hello world"; "hi, I am the child"; "hi, I am the parent"]) s ∨
     file_is "fd2.txt" (lines ["hello world"; "hi, I am the parent"; "hi, I am the child"]) s)) ∧
  ends_within bin 20 (init_state fs Tty 0 fork_fd_main) (λ s, returned 0 1 s ∧
    file_is "fd.txt" (lines ["hello world"]) s ∧ tty s.1 = [lines ["fork failed"]]).
Proof.
  split_and!; [eapply ends_mono; [apply dup_ends|]|eapply ends_mono; [apply nodup_ends|]|eapply ends_mono; [apply fork_fd_ends|]|
    eapply ends_mono; [apply fork_fd2_ends|]|eapply ends_mono; [apply fork_fd_fails|]]; cbv beta; tauto.
Qed.

(** What [fork] and [execvp] do to the memory of a process, in every run. The
    array and the sum of fork-cow.c are copied: child and parent find sums of
    their own, without overflow. p1.c prints its first line once on a
    terminal; but with the output going to a file the line is still in the
    buffer when the process is copied, and appears twice. *)
Theorem fork_copies_memory fs :
  ends_within bin 20 (init_state fs Tty 1 (fork_cow_main (Z.to_nat COW_SZ) dec)) (λ s,
    let c := said [T "child found sum="; D (23 + 1 * COW_SZ); T (ln "")] in
    let p := said [T "parent found sum="; D (23 + 2 * COW_SZ); T (ln "")] in
    (tty s.1 = [hello_line; c; p] ∨ tty s.1 = [hello_line; p; c]) ∧ returned 0 0 s ∧ returned 1 0 s) ∧
  ends_within bin 20 (init_state fs Tty 1 (p1_main dec)) (λ s,
    (tty s.1 = [hello_line; child_line; parent_line] ∨ tty s.1 = [hello_line; parent_line; child_line]) ∧ returned 0 0 s ∧ returned 1 0 s) ∧
  ends_within bin 20 (init_state (emptied "out" fs) (File "out") 1 (p1_main dec)) (λ s,
    file_is "out" ((hello_line ++ child_line) ++ (hello_line ++ parent_line)) s ∨
    file_is "out" ((hello_line ++ parent_line) ++ (hello_line ++ child_line)) s).
Proof.
  split_and!; [|apply p1_ends|apply p1_redirected_ends]. pose proof (cow_ends fs (Z.to_nat COW_SZ)) as H.
  rewrite (cow_sums 1), (cow_sums 2) in H by lia. exact H.
Qed.

(** C32. Waiting, executing and redirecting, in every run and whatever the
    programs print. The parent's line comes after all of the child's, with the
    child's identifier from [wait]. In p3.c the output of wc follows the
    child's line; in p4.c both are in the file instead, because the file gets
    the descriptor 1 that was just closed; in p5.c the errors of ls are in the
    file too. But if the output of p4.c itself goes to a file, the child's
    line is lost with the buffer when wc is executed. *)
Theorem exec_redirects fs err out st :
  ends_within bin 20 (init_state fs Tty 1 (p2_main dec)) (λ s,
    tty s.1 = [hello_line; child_line; waited_line] ∧ returned 0 0 s ∧ returned 1 0 s) ∧
  ends_within (installed "wc" (λ _, prints 1 out (Exit st))) 20 (init_state fs Tty 1 (p3_main dec)) (λ s,
    tty s.1 = [hello_line; child_line; out; waited_line] ∧ returned 0 0 s ∧ returned 1 st s) ∧
  ends_within (installed "wc" (λ _, prints 1 out (Exit st))) 20 (init_state fs Tty 1 (p4_main dec)) (λ s,
    tty s.1 = [hello_line; waited_line] ∧ file_is "./p4.output" (child_fd_line ++ out) s ∧ returned 0 0 s ∧ returned 1 st s) ∧
  ends_within (installed "ls" (λ _, prints 2 err (prints 1 out (Exit st)))) 20 (init_state fs Tty 1 (p5_main dec)) (λ s,
    tty s.1 = [hello_line; waited_line] ∧ file_is "./p5.output" (child_line ++ err ++ out) s ∧ returned 0 0 s ∧ returned 1 st s) ∧
  ends_within (installed "wc" (λ _, prints 1 out (Exit st))) 20 (init_state (emptied "out" fs) (File "out") 1 (p4_main dec)) (λ s,
    file_is "out" (hello_line ++ waited_line) s ∧ file_is "./p4.output" out s).
Proof. split_and!; [apply p2_ends|apply p3_ends|apply p4_ends|apply p5_ends|apply p4_redirected_ends]. Qed.

(** C31. The pipe of pipe.c: with an echo that prints its argument and a
    newline, every run ends, both processes return 0, and the text is on the
    terminal once, in capital letters. The parent sees the end of the input
    because it has closed its own end for writing. *)
Theorem pipe_capitals fs :
  ends_within (installed "echo" echo) 200 (init_state fs Tty 1 (pipe_main 50)) (λ s,
    tty s.1 = [lines ["I WILL GET PRINTED IN CAPITAL LETTERS!!"]] ∧ returned 0 0 s ∧ returned 1 0 s).
Proof.
  apply ends_by, (exploreb_explore _ _ (λ s, bool_decide (tty s.1 = [lines ["I WILL GET PRINTED IN CAPITAL LETTERS!!"]]) &&
    returnedb 0 0 s && returnedb 1 0 s)); [|vm_compute; reflexivity].
  intros s [[H1 H2]%andb_true_iff H3]%andb_true_iff. split_and!; [by apply bool_decide_eq_true_1 in H1|by apply returnedb_spec..].
Qed.

(** 05/io.c: whatever the array and the file held before, the program reads
    back what it wrote in three pieces. The descriptor [fd] it goes on using
    after closing it is the one the second open returns. *)
Theorem io_reads_back fs junk : length junk = BUF_LEN →
  ends_within bin 20 (init_state fs Tty 0 (io_main decimal junk)) (λ s,
    file_is "/tmp/file" (lines ["hello COL331!"]) s ∧ tty s.1 = [lines ["14: hello COL331!"]] ∧ returned 0 0 s).
Proof.
  intros Hj. do 20 (destruct junk as [|? junk]; [done|]). destruct junk; [|done]. apply ends_by. vm_compute. repeat split.
Qed.
End theorems.

Lemma io_reads_back_witness : length (replicate 20 7) = BUF_LEN ∧
  ends_within (λ i, Pos.of_succ_nat i) (λ _ _, None) 20 (init_state (λ _, None) Tty 0 (io_main decimal (replicate 20 7))) (λ s,
    file_is "/tmp/file" (lines ["hello COL331!"]) s ∧ tty s.1 = [lines ["14: hello COL331!"]] ∧ returned 0 0 s).
Proof. split; [reflexivity|]. apply (io_reads_back (λ i, Pos.of_succ_nat i) (λ _ _, None) (λ _, None) (replicate 20 7)). reflexivity. Defined.
