(* ===== verification/Peterson.v ===== *)
(** * 09/peterson-fence.c and 09/peterson-breaks.c

    Peterson's algorithm on the memory of an x86 multiprocessor: a store goes
    into the store buffer of its thread and reaches the memory later, in
    order; a load takes the newest value from the thread's own buffer, else
    from the memory. [__sync_synchronize] waits until the own buffer is empty.
    The volatile accesses of the C code happen in program order, and
    [counter++] is a load and a store. *)

From S2P Require Import Prelude Conc.

(** Addresses: [flag[PRODUCER]], [flag[CONSUMER]], [turn], [counter]. *)
Definition PRODUCER : nat := 0.
Definition CONSUMER : nat := 1.
Definition flag (i : nat) : nat := i.
Definition turn : nat := 2.
Definition counter : nat := 3.

(** Where a thread is: before it is created, in [producer] or [consumer]
    ([me]), in [main], or returned. *)
Inductive ppc :=
  | Unborn
  | SetFlag (me : nat) | SetTurn (me : nat) | Fence (me : nat)
  | TestFlag (me : nat) | TestTurn (me : nat)
  | LoadCounter (me : nat) | StoreCounter (me : nat) (r : Z) | ClearFlag (me : nat)
  | Ret
  | MainZero | MainWhile | MainCounter | MainFlag1 | MainFlag0 | MainTurn
  | MainCreate (i : nat) | MainJoin (i : nat) | MainPrint.
#[global] Instance ppc_eq_dec : EqDecision ppc.
Proof. solve_decision. Defined.

Record pthread := mk_pthread { p_pc : ppc; p_buf : list (nat * Z) }.
#[global] Instance pthread_eq_dec : EqDecision pthread.
Proof. solve_decision. Defined.

(** ** The memory *)
Definition rd (g : list Z) (t : pthread) (a : nat) : Z :=
  match find (λ av, (av.1 =? a)%nat) (p_buf t) with
  | Some av => av.2
  | None => default 0 (g !! a)
  end.
(** The newest store is first in the buffer. *)
Definition st (a : nat) (v : Z) (pc : ppc) (t : pthread) : pthread := mk_pthread pc ((a, v) :: p_buf t).
Definition goto (pc : ppc) (t : pthread) : pthread := mk_pthread pc (p_buf t).
Definition flush (t : pthread) (g : list Z) : list (pthread * list Z * option (nat * pthread)) :=
  match rev (p_buf t) with
  | [] => []
  | (a, v) :: l => [(mk_pthread (p_pc t) (rev l), <[a:=v]> g, None)]
  end.

(** ** The program

    [fenced] tells peterson-fence.c from peterson-breaks.c. Creating a thread
    and returning from it drain the buffer. *)
Definition other (me : nat) : nat := (1 - me)%nat.
Definition is_done (t : pthread) : bool := bool_decide (p_pc t = Ret ∧ p_buf t = []).
Definition drained (t : pthread) : bool := bool_decide (p_buf t = []).

Definition peterson_step (fenced : bool) : actions (G:=list Z) (T:=pthread) := λ i t ts g,
  flush t g ++
  match p_pc t with
  | Unborn | Ret => []
  (* producer and consumer *)
  | SetFlag me => [(st (flag me) 1 (SetTurn me) t, g, None)]
  | SetTurn me => [(st turn (Z.of_nat (other me)) (if fenced then Fence me else TestFlag me) t, g, None)]
  | Fence me => if drained t then [(goto (TestFlag me) t, g, None)] else []
  | TestFlag me => [(goto (if rd g t (flag (other me)) =? 0 then LoadCounter me else TestTurn me) t, g, None)]
  | TestTurn me =>
      [(goto (if rd g t turn =? Z.of_nat (other me) then TestFlag me else LoadCounter me) t, g, None)]
  | LoadCounter me => [(goto (StoreCounter me (rd g t counter)) t, g, None)]
  | StoreCounter me r => [(st counter (if (me =? PRODUCER)%nat then r + 1 else r - 1) (ClearFlag me) t, g, None)]
  | ClearFlag me => [(st (flag me) 0 Ret t, g, None)]
  (* main *)
  | MainZero => [(st counter 0 MainWhile t, g, None)]
  | MainWhile => [(goto (if rd g t counter =? 0 then MainCounter else Ret) t, g, None)]
  | MainCounter => [(st counter 0 MainFlag1 t, g, None)]
  | MainFlag1 => [(st (flag 1) 0 MainFlag0 t, g, None)]
  | MainFlag0 => [(st (flag 0) 0 MainTurn t, g, None)]
  | MainTurn => [(st turn 0 (MainCreate 0) t, g, None)]
  | MainCreate j =>
      if drained t then
        [(goto (if (j =? 0)%nat then MainCreate 1 else MainJoin 0) t, g, Some (S j, mk_pthread (SetFlag j) []))]
      else []
  | MainJoin j =>
      match ts !! S j with
      | Some u => if is_done u then [(goto (if (j =? 0)%nat then MainJoin 1 else MainPrint) t, g, None)] else []
      | None => []
      end
  | MainPrint => [(goto MainWhile t, g, None)]
  end.

(** The globals are zero when [main] starts. *)
Definition peterson_init : cstate (G:=list Z) (T:=pthread) :=
  ([0; 0; 0; 0], [mk_pthread MainZero []; mk_pthread Unborn []; mk_pthread Unborn []]).
(** The two programs. *)
Definition peterson_fence_step : actions (G:=list Z) (T:=pthread) := peterson_step true.
Definition peterson_breaks_step : actions (G:=list Z) (T:=pthread) := peterson_step false.
Definition peterson (fenced : bool) := cstep (if fenced then peterson_fence_step else peterson_breaks_step).

(** Inside the critical section: the counter is being changed. *)
Definition critical (t : pthread) : bool :=
  match p_pc t with
  | LoadCounter _ | StoreCounter _ _ => true
  | _ => false
  end.

(** ** The states are countable *)
Definition ppc_code (p : ppc) : nat * (nat * Z) :=
  match p with
  | Unborn => (0, (0, 0%Z)) | SetFlag n => (1, (n, 0%Z)) | SetTurn n => (2, (n, 0%Z)) | Fence n => (3, (n, 0%Z))
  | TestFlag n => (4, (n, 0%Z)) | TestTurn n => (5, (n, 0%Z)) | LoadCounter n => (6, (n, 0%Z))
  | StoreCounter n r => (7, (n, r)) | ClearFlag n => (8, (n, 0%Z)) | Ret => (9, (0, 0%Z))
  | MainZero => (10, (0, 0%Z)) | MainWhile => (11, (0, 0%Z)) | MainCounter => (12, (0, 0%Z))
  | MainFlag1 => (13, (0, 0%Z)) | MainFlag0 => (14, (0, 0%Z)) | MainTurn => (15, (0, 0%Z))
  | MainCreate n => (16, (n, 0%Z)) | MainJoin n => (17, (n, 0%Z)) | MainPrint => (18, (0, 0%Z))
  end%nat.
Definition ppc_decode (x : nat * (nat * Z)) : ppc :=
  match x with
  | (0, _) => Unborn | (1, (n, _)) => SetFlag n | (2, (n, _)) => SetTurn n | (3, (n, _)) => Fence n
  | (4, (n, _)) => TestFlag n | (5, (n, _)) => TestTurn n | (6, (n, _)) => LoadCounter n
  | (7, (n, r)) => StoreCounter n r | (8, (n, _)) => ClearFlag n | (9, _) => Ret
  | (10, _) => MainZero | (11, _) => MainWhile | (12, _) => MainCounter | (13, _) => MainFlag1
  | (14, _) => MainFlag0 | (15, _) => MainTurn | (16, (n, _)) => MainCreate n | (17, (n, _)) => MainJoin n
  | _ => MainPrint
  end%nat.
#[global] Instance ppc_countable : Countable ppc := inj_countable' ppc_code ppc_decode (ltac:(by intros [])).
#[global] Instance pthread_countable : Countable pthread :=
  inj_countable' (λ t, (p_pc t, p_buf t)) (λ x, mk_pthread x.1 x.2) (ltac:(by intros [])).

(** ** A fair run: the threads act in turn, the store buffer first. *)
Definition turn_of (fenced : bool) (i : nat) (s : cstate (G:=list Z) (T:=pthread)) : cstate :=
  match s.2 !! i with
  | Some t => default s (head (act_of (peterson_step fenced) i t s))
  | None => s
  end.
Definition peterson_round (fenced : bool) (s : cstate (G:=list Z) (T:=pthread)) : cstate :=
  turn_of fenced 2 (turn_of fenced 1 (turn_of fenced 0 s)).
Definition main_at (pc : ppc) (s : cstate (G:=list Z) (T:=pthread)) : bool :=
  match s.2 !! 0%nat with Some t => bool_decide (p_pc t = pc) | None => false end.
Fixpoint prints_within (fenced : bool) (n : nat) (s : cstate (G:=list Z) (T:=pthread)) : bool :=
  main_at MainPrint s || match n with O => false | S n => prints_within fenced n (peterson_round fenced s) end.
Lemma prints_within_iter fenced n : ∀ s, prints_within fenced n s = true →
  ∃ k, (k ≤ n)%nat ∧ main_at MainPrint (Nat.iter k (peterson_round fenced) s) = true.
Proof.
  induction n as [|n IH]; intros s; cbn [prints_within]; intros [Hp|Hp]%orb_true_iff; try done.
  1,2: exists 0%nat; split; [lia|done].
  destruct (IH _ Hp) as (k & Hk & Hm). exists (S k). split; [lia|]. by rewrite Nat.iter_succ_r.
Qed.

(** What holds of every state: one thread at most in the critical section,
    the counter zero when it is printed, [main] in its loop, and the next
    print at most 60 rounds away. *)
Definition peterson_ok (s : cstate (G:=list Z) (T:=pthread)) : bool :=
  bool_decide (length (filter (λ t, critical t = true) s.2) ≤ 1)%nat &&
  (negb (main_at MainPrint s) || bool_decide (s.1 !! counter = Some 0 ∧ Forall (λ t, p_buf t = []) s.2)) &&
  negb (main_at Ret s) && prints_within true 60 s.
Lemma peterson_checked : check_all (succs (peterson_step true)) peterson_ok 300 peterson_init = true.
Proof. vm_compute. reflexivity. Qed.
