(* ===== verification/Philosophers.v ===== *)
(** * 09/dine.c and 09/dine-dead.c

    Five philosophers who share five forks, one semaphore each. In dine.c
    ([fixed]) philosopher 0 takes the forks in the other order. A fork that
    [main] has not yet initialised is [None]; using it is undefined, and the
    program is then over ([DUndef]). The calls of printf and sleep do not
    touch the forks. *)

From S2P Require Import Prelude Conc.

Definition PHIL : nat := 5.
Definition left (p : nat) : nat := p.
Definition right (p : nat) : nat := ((p + 1) mod PHIL)%nat.

(** Before its creation; about to wait for the first and for the second fork,
    to release the left one and the right one; [main] about to initialise
    fork [i] and create philosopher [i]; joining. *)
Inductive dthread :=
  | DUnborn | DFirst (id : nat) | DSecond (id : nat) | DPostLeft (id : nat) | DPostRight (id : nat)
  | DInit (i : nat) | DCreate (i : nat) | DJoin | DUndef.
#[global] Instance dthread_eq_dec : EqDecision dthread.
Proof. solve_decision. Defined.

Definition first (fixed : bool) (id : nat) : nat := if fixed && (id =? 0)%nat then left id else right id.
Definition second (fixed : bool) (id : nat) : nat := if fixed && (id =? 0)%nat then right id else left id.

Definition fork_wait (k : nat) (t' : dthread) (g : list (option Z)) : list (dthread * list (option Z) * option (nat * dthread)) :=
  match g !! k with
  | Some (Some v) => match sem_wait v with Some v => [(t', <[k:=Some v]> g, None)] | None => [] end
  | _ => [(DUndef, g, None)]
  end.
Definition fork_post (k : nat) (t' : dthread) (g : list (option Z)) : list (dthread * list (option Z) * option (nat * dthread)) :=
  match g !! k with
  | Some (Some v) => [(t', <[k:=Some (sem_post v)]> g, None)]
  | _ => [(DUndef, g, None)]
  end.

(** Philosopher [i] is thread [i + 1]. *)
Definition dine_step (fixed : bool) : actions (G:=list (option Z)) (T:=dthread) := λ i t ts g,
  if bool_decide (DUndef ∈ ts) then [] else
  match t with
  | DUnborn | DUndef => []
  | DFirst id => fork_wait (first fixed id) (DSecond id) g
  | DSecond id => fork_wait (second fixed id) (DPostLeft id) g
  | DPostLeft id => fork_post (left id) (DPostRight id) g
  | DPostRight id => fork_post (right id) (DFirst id) g
  | DInit k => [(DCreate k, <[k:=Some 1]> g, None)]
  | DCreate k => [(if (S k <? PHIL)%nat then DInit (S k) else DJoin, g, Some (S k, DFirst k))]
  | DJoin => []  (* the philosophers never return *)
  end.
(** The two programs. *)
Definition dine_fixed_step : actions (G:=list (option Z)) (T:=dthread) := dine_step true.
Definition dine_dead_step : actions (G:=list (option Z)) (T:=dthread) := dine_step false.
Definition dine_init : cstate (G:=list (option Z)) (T:=dthread) := (replicate PHIL None, DInit 0 :: replicate PHIL DUnborn).

(** The forks a philosopher has in hand. *)
Definition holds (fixed : bool) (k : nat) (t : dthread) : bool :=
  match t with
  | DSecond id => (first fixed id =? k)%nat
  | DPostLeft id => (left id =? k)%nat || (right id =? k)%nat
  | DPostRight id => (right id =? k)%nat
  | _ => false
  end.
Definition holders (fixed : bool) (k : nat) (ts : list dthread) : nat := length (filter (λ t, holds fixed k t = true) ts).
Definition eating (t : dthread) : bool := match t with DPostLeft _ => true | _ => false end.

(** ** The states are countable *)
Definition dthread_code (t : dthread) : nat * nat :=
  match t with
  | DUnborn => (0, 0) | DFirst n => (1, n) | DSecond n => (2, n) | DPostLeft n => (3, n) | DPostRight n => (4, n)
  | DInit n => (5, n) | DCreate n => (6, n) | DJoin => (7, 0) | DUndef => (8, 0)
  end%nat.
Definition dthread_decode (x : nat * nat) : dthread :=
  match x with
  | (0, _) => DUnborn | (1, n) => DFirst n | (2, n) => DSecond n | (3, n) => DPostLeft n | (4, n) => DPostRight n
  | (5, n) => DInit n | (6, n) => DCreate n | (7, _) => DJoin | _ => DUndef
  end%nat.
#[global] Instance dthread_countable : Countable dthread :=
  inj_countable' dthread_code dthread_decode (ltac:(by intros [])).

(** ** A fair run: [main] and the philosophers act in turn. *)
Definition dine_turn (fixed : bool) (i : nat) (s : cstate (G:=list (option Z)) (T:=dthread)) : cstate :=
  match s.2 !! i with
  | Some t => default s (head (act_of (dine_step fixed) i t s))
  | None => s
  end.
Definition dine_round (fixed : bool) (s : cstate (G:=list (option Z)) (T:=dthread)) : cstate :=
  foldl (λ s i, dine_turn fixed i s) s (seq 0 (S PHIL)).
Definition undefined (s : cstate (G:=list (option Z)) (T:=dthread)) : bool := bool_decide (DUndef ∈ s.2).
(** All of [hungry] eat within [n] rounds. *)
Fixpoint fed_within (n : nat) (hungry : list nat) (s : cstate (G:=list (option Z)) (T:=dthread)) : bool :=
  match filter (λ i, s.2 !! S i ≠ Some (DPostLeft i)) hungry with
  | [] => true
  | hungry => match n with O => false | S n => fed_within n hungry (dine_round true s) end
  end.
Lemma fed_within_iter n i : ∀ hungry s, i ∈ hungry → fed_within n hungry s = true →
  ∃ k, (k ≤ n)%nat ∧ (Nat.iter k (dine_round true) s).2 !! S i = Some (DPostLeft i).
Proof.
  induction n as [|n IH]; intros hungry s Hi; cbn [fed_within];
    destruct (decide (s.2 !! S i = Some (DPostLeft i))) as [He|He]; try (intros _; exists 0%nat; split; [lia|done]);
    pose proof (proj2 (list_elem_of_filter (λ i, s.2 !! S i ≠ Some (DPostLeft i)) hungry i) (conj He Hi)) as Hf;
    destruct (filter _ hungry) as [|x l]; try (by apply elem_of_nil in Hf); [done|].
  intros Hp. destruct (IH _ _ Hf Hp) as (k & Hk & Hm). exists (S k). split; [lia|]. by rewrite Nat.iter_succ_r.
Qed.

(** What holds of every state of dine.c in which no fork was used too early:
    nobody shares a fork, somebody can act, and, once all are seated, each
    philosopher eats within 20 rounds. *)
Definition dine_ok (s : cstate (G:=list (option Z)) (T:=dthread)) : bool :=
  undefined s ||
  forallb (λ k, (holders true k s.2 <=? 1)%nat) (seq 0 PHIL) &&
  negb (bool_decide (length (succs (dine_step true) s) = 0%nat)) &&
  (bool_decide (s.2 !! 0%nat ≠ Some DJoin) || fed_within 20 (seq 0 PHIL) s).
Lemma dine_checked : check_all (succs (dine_step true)) dine_ok 700 dine_init = true.
Proof. vm_compute. reflexivity. Qed.
