(* ===== verification/Counters.v ===== *)
(** * 09/semlock.c, 09/threads-safe.c and 09/atomic.c

    Two threads increment a shared counter. [counter++] on a volatile int is
    a load and a store. The first two programs differ in the lock only, so
    that they are one program over an interface for locks, with a semaphore
    and a mutex as its instances; atomic.c has no lock and a second counter
    that is incremented in one step. *)

From S2P Require Import Prelude Conc.

(** ** Locks

    [lk_acquire i] is the call by thread [i], [None] when it blocks;
    [lk_release i] is [None] when the call is undefined. *)
Class Lock (L : Type) := {
  lk_init : L;
  lk_acquire : nat → L → option L;
  lk_release : nat → L → option L;
  lk_free : L → Prop;
  lk_held : nat → L → Prop;
}.
Class LockOk (L : Type) {lk : Lock L} := {
  lk_init_free : lk_free lk_init;
  lk_acquire_free i l : lk_free l → ∃ l', lk_acquire i l = Some l' ∧ lk_held i l';
  lk_acquire_held i j l : lk_held i l → lk_acquire j l = None;
  lk_release_held i l : lk_held i l → ∃ l', lk_release i l = Some l' ∧ lk_free l';
}.

(** A semaphore initialised to 1. *)
Definition semlock : Type := Z.
#[global] Instance semlock_ops : Lock semlock := {
  lk_init := 1;
  lk_acquire _ v := sem_wait v;
  lk_release _ v := Some (sem_post v);
  lk_free v := v = 1;
  lk_held _ v := v = 0;
}.
#[global] Instance semlock_ok : LockOk semlock.
Proof. split; cbn; intros; subst; eauto. Qed.
(** A mutex: its owner; unlocking it from another thread is undefined. *)
Definition mutex : Type := option nat.
#[global] Instance mutex_ops : Lock mutex := {
  lk_init := None;
  lk_acquire i o := match o with None => Some (Some i) | Some _ => None end;
  lk_release i o := if bool_decide (o = Some i) then Some None else None;
  lk_free o := o = None;
  lk_held i o := o = Some i;
}.
#[global] Instance mutex_ok : LockOk mutex.
Proof. split; cbn; intros; subst; try case_bool_decide; eauto; done. Qed.

(** ** worker and main *)
Record wshared (L : Type) := mk_wshared { w_counter : Z; w_lock : L; w_printed : list Z }.
Arguments mk_wshared {L} _ _ _.
Arguments w_counter {L} _.
Arguments w_lock {L} _.
Arguments w_printed {L} _.

(** In [worker], [i] is the loop variable: at the loop test, before the lock is
    taken, before the load, before the store of [r + 1], before the unlock;
    [main] at each of its calls. [WUndef]: an undefined unlock. *)
Inductive wthread :=
  | WUnborn | WLoop (i : Z) | WLoad (i : Z) | WStore (i r : Z) | WUnlock (i : Z) | WRet | WUndef
  | MInitial | MCreate1 | MCreate2 | MJoin1 | MJoin2 | MFinal.

Section worker.
Context {L : Type} {lk : Lock L} (loops : Z).

Definition set_counter v (g : wshared L) : wshared L := mk_wshared v (w_lock g) (w_printed g).
Definition set_lock l (g : wshared L) : wshared L := mk_wshared (w_counter g) l (w_printed g).
Definition print v (g : wshared L) : wshared L := mk_wshared (w_counter g) (w_lock g) (w_printed g ++ [v]).
Definition joined (j : nat) (ts : list wthread) : bool := match ts !! j with Some WRet => true | _ => false end.

Definition worker_step : actions (G:=wshared L) (T:=wthread) := λ i t ts g,
  match t with
  | WUnborn | WRet | WUndef => []
  | WLoop k =>
      if k <? loops then match lk_acquire i (w_lock g) with Some l => [(WLoad k, set_lock l g, None)] | None => [] end
      else [(WRet, g, None)]
  | WLoad k => [(WStore k (w_counter g), g, None)]
  | WStore k r => [(WUnlock k, set_counter (s32 (r + 1)) g, None)]
  | WUnlock k =>
      match lk_release i (w_lock g) with Some l => [(WLoop (k + 1), set_lock l g, None)] | None => [(WUndef, g, None)] end
  | MInitial => [(MCreate1, print (w_counter g) g, None)]
  | MCreate1 => [(MCreate2, g, Some (1%nat, WLoop 0))]
  | MCreate2 => [(MJoin1, g, Some (2%nat, WLoop 0))]
  | MJoin1 => if joined 1 ts then [(MJoin2, g, None)] else []
  | MJoin2 => if joined 2 ts then [(MFinal, g, None)] else []
  | MFinal => [(WRet, print (w_counter g) g, None)]
  end.
Definition worker_init : cstate (G:=wshared L) (T:=wthread) := (mk_wshared 0 lk_init [], [MInitial; WUnborn; WUnborn]).
End worker.

(** The two programs; the command line is the parameter [loops]. *)
Definition semlock_step (loops : Z) : actions (G:=wshared semlock) (T:=wthread) := worker_step loops.
Definition threads_safe_step (loops : Z) : actions (G:=wshared mutex) (T:=wthread) := worker_step loops.

Section worker_inv.
Context {L : Type} {lk : Lock L} (loops : Z).

(** ** The invariant

    [wdone] counts the finished increments of a worker. *)
Definition wdone (w : wthread) : Z :=
  match w with
  | WLoop i | WLoad i | WStore i _ => i
  | WUnlock i => i + 1
  | WRet => loops
  | _ => 0
  end.
Definition inside (w : wthread) : bool := match w with WLoad _ | WStore _ _ | WUnlock _ => true | _ => false end.
Definition worker_ok (c : Z) (w : wthread) : Prop :=
  match w with
  | WLoop i => 0 ≤ i ≤ loops
  | WLoad i | WUnlock i => 0 ≤ i < loops
  | WStore i r => 0 ≤ i < loops ∧ r = c
  | WUnborn | WRet => True
  | _ => False
  end.
(** Thread [j], in state [w], against the other one, [k] in state [o]. *)
Definition lock_side (j : nat) (l : L) (w o : wthread) : Prop := inside w = true → lk_held j l ∧ inside o = false.
Definition lock_ok (j k : nat) (l : L) (w o : wthread) : Prop :=
  lock_side j l w o ∧ lock_side k l o w ∧ (inside w = false → inside o = false → lk_free l).
Definition main_ok (m w1 w2 : wthread) (out : list Z) : Prop :=
  match m with
  | MInitial => w1 = WUnborn ∧ w2 = WUnborn ∧ out = []
  | MCreate1 => w1 = WUnborn ∧ w2 = WUnborn ∧ out = [0]
  | MCreate2 => w1 ≠ WUnborn ∧ w2 = WUnborn ∧ out = [0]
  | MJoin1 => w1 ≠ WUnborn ∧ w2 ≠ WUnborn ∧ out = [0]
  | MJoin2 => w1 = WRet ∧ w2 ≠ WUnborn ∧ out = [0]
  | MFinal => w1 = WRet ∧ w2 = WRet ∧ out = [0]
  | WRet => w1 = WRet ∧ w2 = WRet ∧ out = [0; 2 * loops]
  | _ => False
  end.
Inductive worker_inv : cstate (G:=wshared L) (T:=wthread) → Prop :=
  worker_inv_intro c l out m w1 w2 :
    c = wdone w1 + wdone w2 → worker_ok c w1 → worker_ok c w2 → lock_ok 1 2 l w1 w2 → main_ok m w1 w2 out →
    worker_inv (mk_wshared c l out, [m; w1; w2]).

(** Actions still to come. *)
Definition wrest (w : wthread) : Z :=
  match w with
  | WUnborn => 4 * loops + 1
  | WLoop i => 4 * (loops - i) + 1 | WLoad i => 4 * (loops - i)
  | WStore i _ => 4 * (loops - i) - 1 | WUnlock i => 4 * (loops - i) - 2
  | MInitial => 6 | MCreate1 => 5 | MCreate2 => 4 | MJoin1 => 3 | MJoin2 => 2 | MFinal => 1
  | _ => 0
  end.
Definition worker_measure (s : cstate (G:=wshared L) (T:=wthread)) : nat := Z.to_nat (foldr (λ w z, wrest w + z) 0 s.2).

Context {lkok : LockOk L}.
Hypothesis loops_range : 0 ≤ loops ∧ 2 * loops < 2147483648.

(** One action of a worker. *)
Lemma worker_action j k w o ts c l out t' g' new :
  (t', g', new) ∈ (worker_step loops) j w ts (mk_wshared c l out) →
  c = wdone w + wdone o → worker_ok c w → worker_ok c o → lock_ok j k l w o →
  ∃ c' l', g' = mk_wshared c' l' out ∧ new = None ∧ c' = wdone t' + wdone o ∧ worker_ok c' t' ∧ worker_ok c' o ∧
    lock_ok j k l' t' o ∧ 0 ≤ wrest t' < wrest w ∧ t' ≠ WUnborn ∧ w ≠ WUnborn ∧ w ≠ WRet.
Proof.
  intros Hr Hc Hw Ho (Hj & Hk & Hf). unfold lock_side in *.
  destruct w as [|i|i|i r|i| | | | | | | |]; cbn in Hr, Hw, Hj; try done; try by inv_action Hr.
  - destruct (Z.ltb_spec i loops) as [Hi|Hi].
    + destruct (inside o) eqn:Eo.
      { destruct (Hk eq_refl) as [Hh _]. rewrite (lk_acquire_held k j l Hh) in Hr. inv_action Hr. }
      destruct (lk_acquire_free j l (Hf eq_refl eq_refl)) as (l' & Ha & Hh). rewrite Ha in Hr. inv_action Hr.
      unfold set_lock, lock_ok, lock_side. cbn. rewrite Eo.
      eexists _, l'. split_and!; eauto; done || lia.
    + inv_action Hr. exists (wdone (WLoop i) + wdone o), l.
      unfold lock_ok, lock_side. cbn. split_and!; eauto; done || lia.
  - inv_action Hr. exists (wdone (WLoad i) + wdone o), l.
    unfold lock_ok, lock_side. cbn. split_and!; eauto; done || lia.
  - destruct Hw as [Hi ->]. destruct (Hj eq_refl) as [Hh Eo].
    inv_action Hr. unfold set_counter, lock_ok, lock_side. cbn. rewrite Eo.
    assert (wdone o ≤ loops) by (destruct o; cbn in *; try done; lia). assert (0 ≤ wdone o) by (destruct o; cbn in *; try done; lia).
    eexists _, l. split; [reflexivity|]. rewrite s32_small by (cbn in *; lia).
    split_and!; eauto; try done; try (cbn; lia); destruct o; cbn in *; done || lia.
  - destruct (Hj eq_refl) as [Hh Eo]. destruct (lk_release_held j l Hh) as (l' & Ha & Hfr). rewrite Ha in Hr. inv_action Hr.
    unfold set_lock, lock_ok, lock_side. cbn. rewrite Eo.
    eexists _, l'. split_and!; eauto; done || lia.
Qed.
Lemma lock_ok_sym j k l w o : lock_ok j k l w o → lock_ok k j l o w.
Proof. unfold lock_ok. naive_solver. Qed.
Lemma main_ok_first m w w' o out : w ≠ WUnborn → w ≠ WRet → w' ≠ WUnborn → main_ok m w o out → main_ok m w' o out.
Proof. intros. destruct m; cbn in *; tauto. Qed.
Lemma main_ok_second m w w' o out : w ≠ WUnborn → w ≠ WRet → w' ≠ WUnborn → main_ok m o w out → main_ok m o w' out.
Proof. intros. destruct m; cbn in *; tauto. Qed.
Lemma wrest_worker c w : worker_ok c w → 0 ≤ wrest w.
Proof. destruct w; cbn; done || lia. Qed.
Lemma wrest_main m w1 w2 out : main_ok m w1 w2 out → 0 ≤ wrest m.
Proof. destruct m; cbn; done || lia. Qed.

(** One action of [main]. *)
Lemma main_action m w1 w2 c l out t' g' new :
  (t', g', new) ∈ (worker_step loops) 0%nat m [m; w1; w2] (mk_wshared c l out) →
  c = wdone w1 + wdone w2 → worker_ok c w1 → worker_ok c w2 → lock_ok 1 2 l w1 w2 → main_ok m w1 w2 out →
  worker_inv (g', start new [t'; w1; w2]) ∧
  (worker_measure (g', start new [t'; w1; w2]) < worker_measure (mk_wshared c l out, [m; w1; w2]))%nat.
Proof.
  intros Hr Hc H1 H2 Hl Hm.
  pose proof (wrest_worker _ _ H1) as Hw1. pose proof (wrest_worker _ _ H2) as Hw2.
  unfold worker_measure. destruct m; cbn in Hm; try done; destruct Hm as (Hm1 & Hm2 & ->).
  - cbn in Hr. by inv_action Hr.
  - cbn in Hr. inv_action Hr. split; [|cbn; lia]. constructor; done.
  - cbn in Hr. inv_action Hr. split; [|cbn; lia]. by constructor; cbn; try done; lia.
  - cbn in Hr. inv_action Hr. split; [|cbn; lia]. by constructor; cbn; try done; lia.
  - unfold worker_step, joined in Hr. cbn in Hr. destruct w1; try by inv_action Hr.
    inv_action Hr. split; [|cbn; lia]. by constructor.
  - unfold worker_step, joined in Hr. cbn in Hr. destruct w2; try by inv_action Hr.
    inv_action Hr. split; [|cbn; lia]. by constructor.
  - cbn in Hr. inv_action Hr. split; [|cbn; lia]. constructor; try done. cbn. split_and!; try done. do 2 f_equal. lia.
Qed.
Lemma worker_inv_step s s' : worker_inv s → cstep (worker_step loops) s s' → worker_inv s' ∧ (worker_measure s' < worker_measure s)%nat.
Proof.
  intros [c l out m w1 w2 Hc H1 H2 Hl Hm] (i & t & t' & g' & new & Ht & Hr & ->)%cstep_inv. cbn [fst snd] in *.
  destruct i as [|[|[|i]]]; cbn in Ht; simplify_eq; cbn [insert list_insert].
  1: by apply main_action.
  all: pose proof (wrest_worker _ _ H1) as Hw1; pose proof (wrest_worker _ _ H2) as Hw2; pose proof (wrest_main _ _ _ _ Hm) as Hwm.
  - destruct (worker_action 1 2 t w2 _ _ _ _ _ _ _ Hr) as (c' & l' & -> & -> & ? & ? & ? & ? & ? & ? & ? & ?); [done..|].
    split; [|unfold worker_measure; cbn in *; lia]. constructor; try done. by eapply (main_ok_first m t).
  - apply lock_ok_sym in Hl. rewrite Z.add_comm in *.
    destruct (worker_action 2 1 t w1 _ _ _ _ _ _ _ Hr) as (c' & l' & -> & -> & ? & ? & ? & ?%lock_ok_sym & ? & ? & ? & ?); [done..|].
    split; [|unfold worker_measure; cbn in *; lia]. constructor; try done; [lia|]. by eapply (main_ok_second m t).
Qed.

Lemma worker_inv_init : worker_inv worker_init.
Proof. constructor; cbn; try done. unfold lock_ok, lock_side. cbn. split_and!; try done. intros. apply lk_init_free. Qed.

(** A worker inside the critical section can act. *)
Lemma inside_acts j w ts g : inside w = true → (worker_step loops) j w ts g ≠ [].
Proof. destruct w; cbn; try done. by destruct (lk_release j (w_lock g)). Qed.
Lemma worker_blocked j k w o ts c l out :
  worker_ok c w → lock_ok j k l w o → (worker_step loops) j w ts (mk_wshared c l out) = [] →
  (worker_step loops) k o ts (mk_wshared c l out) = [] → w = WUnborn ∨ w = WRet.
Proof.
  intros Hw (_ & _ & Hf) Hs Ho. destruct (inside w) eqn:Ew; [by apply inside_acts in Hs|].
  destruct w; cbn in Hw, Ew; try done; [by left| |by right]. cbn in Hs.
  destruct (inside o) eqn:Eo; [by apply inside_acts in Ho|].
  destruct (lk_acquire_free j l (Hf eq_refl eq_refl)) as (l' & Ha & _). rewrite Ha in Hs. by destruct (i <? loops).
Qed.
Lemma worker_stuck s : worker_inv s → stuck (worker_step loops) s → w_printed s.1 = [0; 2 * loops] ∧ s.2 = [WRet; WRet; WRet].
Proof.
  intros [c l out m w1 w2 Hc H1 H2 Hl Hm]. rewrite stuck_inv. cbn [fst snd]. intros Hs.
  pose proof (Hs 0%nat m eq_refl) as S0. pose proof (Hs 1%nat w1 eq_refl) as S1. pose proof (Hs 2%nat w2 eq_refl) as S2.
  destruct (worker_blocked 1 2 w1 w2 _ c l out H1 Hl S1 S2) as [->| ->];
    destruct (worker_blocked 2 1 w2 _ _ c l out H2 (lock_ok_sym _ _ _ _ _ Hl) S2 S1) as [->| ->];
    destruct m; cbn in Hm, S0; try done; destruct Hm as (? & ? & ?); done.
Qed.
End worker_inv.

(** ** atomic.c

    [counter++] without a lock, [acounter++] as one action. The test of the
    loop goes with the load that follows it. *)
Module Atomic.
Record ashared := mk_ashared { a_counter : Z; a_acounter : Z; a_printed : option (Z * Z) }.
Inductive athread :=
  | AUnborn | ALoop (i : Z) | AStore (i r : Z) | AAtomic (i : Z) | ARet
  | ACreate1 | ACreate2 | AJoin1 | AJoin2 | APrint.
Section atomic.
Context (loops : Z).
Definition ajoined (j : nat) (ts : list athread) : bool := match ts !! j with Some ARet => true | _ => false end.
Definition atomic_step : actions (G:=ashared) (T:=athread) := λ _ t ts g,
  match t with
  | AUnborn | ARet => []
  | ALoop k => if k <? loops then [(AStore k (a_counter g), g, None)] else [(ARet, g, None)]
  | AStore k r => [(AAtomic k, mk_ashared (s32 (r + 1)) (a_acounter g) (a_printed g), None)]
  | AAtomic k => [(ALoop (k + 1), mk_ashared (a_counter g) (s32 (a_acounter g + 1)) (a_printed g), None)]
  | ACreate1 => [(ACreate2, g, Some (1%nat, ALoop 0))]
  | ACreate2 => [(AJoin1, g, Some (2%nat, ALoop 0))]
  | AJoin1 => if ajoined 1 ts then [(AJoin2, g, None)] else []
  | AJoin2 => if ajoined 2 ts then [(APrint, g, None)] else []
  | APrint => [(ARet, mk_ashared (a_counter g) (a_acounter g) (Some (a_counter g, a_acounter g)), None)]
  end.
Definition atomic_init : cstate (G:=ashared) (T:=athread) := (mk_ashared 0 0 None, [ACreate1; AUnborn; AUnborn]).

(** Finished increments of the two counters. *)
Definition adone (t : athread) : Z :=
  match t with ALoop i | AStore i _ | AAtomic i => i | ARet => loops | _ => 0 end.
Definition cdone (t : athread) : Z := match t with AAtomic i => i + 1 | t => adone t end.
Definition athread_ok (n : Z) (t : athread) : Prop :=
  match t with
  | ALoop i => 0 ≤ i ≤ loops
  | AStore i r => 0 ≤ i < loops ∧ 0 ≤ r ≤ n
  | AAtomic i => 0 ≤ i < loops
  | AUnborn | ARet => True
  | _ => False
  end.
Definition amain_ok (m t1 t2 : athread) (out : option (Z * Z)) : Prop :=
  match m with
  | ACreate1 => t1 = AUnborn ∧ t2 = AUnborn ∧ out = None
  | ACreate2 => t1 ≠ AUnborn ∧ t2 = AUnborn ∧ out = None
  | AJoin1 => t1 ≠ AUnborn ∧ t2 ≠ AUnborn ∧ out = None
  | AJoin2 => t1 = ARet ∧ t2 ≠ AUnborn ∧ out = None
  | APrint => t1 = ARet ∧ t2 = ARet ∧ out = None
  | ARet => t1 = ARet ∧ t2 = ARet ∧ ∃ c, out = Some (c, 2 * loops) ∧ 0 ≤ c ≤ 2 * loops
  | _ => False
  end.
Inductive atomic_inv : cstate (G:=ashared) (T:=athread) → Prop :=
  atomic_inv_intro c a out m t1 t2 :
    a = adone t1 + adone t2 → 0 ≤ c ≤ cdone t1 + cdone t2 →
    athread_ok (cdone t1 + cdone t2) t1 → athread_ok (cdone t1 + cdone t2) t2 → amain_ok m t1 t2 out →
    atomic_inv (mk_ashared c a out, [m; t1; t2]).

Hypothesis loops_range : 0 ≤ loops ∧ 2 * loops < 2147483648.

Lemma cdone_range n t : athread_ok n t → 0 ≤ adone t ≤ cdone t ∧ cdone t ≤ loops.
Proof. destruct t; cbn; done || lia. Qed.
Lemma atomic_action j t o ts c a out t' g' new :
  (t', g', new) ∈ atomic_step j t ts (mk_ashared c a out) →
  a = adone t + adone o → 0 ≤ c ≤ cdone t + cdone o → athread_ok (cdone t + cdone o) t → athread_ok (cdone t + cdone o) o →
  ∃ c' a', g' = mk_ashared c' a' out ∧ new = None ∧ a' = adone t' + adone o ∧ 0 ≤ c' ≤ cdone t' + cdone o ∧
    athread_ok (cdone t' + cdone o) t' ∧ athread_ok (cdone t' + cdone o) o ∧ t ≠ AUnborn ∧ t ≠ ARet ∧ t' ≠ AUnborn.
Proof.
  intros Hr Ha Hc Ht Ho. pose proof (cdone_range _ _ Ho) as Hd.
  destruct t as [|i|i r|i| | | | | |]; cbn in Hr, Ht; try done; try by inv_action Hr.
  - destruct (Z.ltb_spec i loops); inv_action Hr; cbn in *; eexists c, _; (split; [done|]);
      split_and!; try done; try lia; destruct o; cbn in *; done || lia.
  - inv_action Hr. cbn in *. rewrite s32_small by lia. eexists _, _. split; [done|].
    split_and!; try done; try lia; destruct o; cbn in *; done || lia.
  - inv_action Hr. cbn in *. rewrite s32_small by lia. eexists _, _. split; [done|].
    split_and!; try done; try lia; destruct o; cbn in *; done || lia.
Qed.
Lemma amain_ok_first m t t' o out : t ≠ AUnborn → t ≠ ARet → t' ≠ AUnborn → amain_ok m t o out → amain_ok m t' o out.
Proof. intros. destruct m; cbn in *; tauto. Qed.
Lemma amain_ok_second m t t' o out : t ≠ AUnborn → t ≠ ARet → t' ≠ AUnborn → amain_ok m o t out → amain_ok m o t' out.
Proof. intros. destruct m; cbn in *; tauto. Qed.

Lemma atomic_main m t1 t2 c a out t' g' new :
  (t', g', new) ∈ atomic_step 0%nat m [m; t1; t2] (mk_ashared c a out) →
  a = adone t1 + adone t2 → 0 ≤ c ≤ cdone t1 + cdone t2 → athread_ok (cdone t1 + cdone t2) t1 →
  athread_ok (cdone t1 + cdone t2) t2 → amain_ok m t1 t2 out → atomic_inv (g', start new [t'; t1; t2]).
Proof.
  intros Hr Ha Hc H1 H2 Hm. destruct m; cbn in Hm; try done; destruct Hm as (Hm1 & Hm2 & Hout); subst.
  all: unfold atomic_step, ajoined in Hr; cbn in Hr; try by inv_action Hr.
  - inv_action Hr. constructor; cbn in *; try done; lia.
  - inv_action Hr. constructor; cbn in *; try done; destruct t1; cbn in *; done || lia.
  - destruct t1; by inv_action Hr.
  - destruct t2; by inv_action Hr.
  - inv_action Hr. constructor; try done. cbn in *. split_and!; try done. exists c. split; [|lia]. do 2 f_equal. lia.
Qed.
Lemma atomic_inv_step s s' : atomic_inv s → cstep atomic_step s s' → atomic_inv s'.
Proof.
  intros [c a out m t1 t2 Ha Hc H1 H2 Hm] (i & t & t' & g' & new & Ht & Hr & ->)%cstep_inv. cbn [fst snd] in *.
  destruct i as [|[|[|i]]]; cbn in Ht; simplify_eq; cbn [insert list_insert].
  - by eapply atomic_main.
  - destruct (atomic_action 1 t t2 _ _ _ _ _ _ _ Hr) as (c' & a' & -> & -> & ? & ? & ? & ? & ? & ? & ?); [done..|].
    constructor; try done. by eapply (amain_ok_first m t).
  - rewrite (Z.add_comm (cdone t1)) in Hc, H1, H2. rewrite (Z.add_comm (adone t1)) in Hr.
    destruct (atomic_action 2 t t1 _ _ _ _ _ _ _ Hr) as (c' & a' & -> & -> & Ha' & Hc' & Ht' & Ho' & ? & ? & ?); [done..|].
    rewrite Z.add_comm in Ha', Hc', Ht', Ho'. constructor; try done. by eapply (amain_ok_second m t).
Qed.
End atomic.
End Atomic.
