(* ===== verification/Transfers.v ===== *)
(** * 09/dead.c and 09/dead-fix.c

    One thread per transfer between two of [ACCS] accounts, each with a
    mutex. dead.c locks the source first; dead-fix.c ([fixed]) locks the
    account with the smaller id first. The calls of printf do not touch the
    accounts; [rand] is the list of numbers it returns. *)

From S2P Require Import Prelude Conc.

Definition ACCS : nat := 10.
Record txn := mk_txn { t_src : nat; t_dst : nat; t_amount : Z }.
(** The balances and the owners of the locks. *)
Record bank := mk_bank { balance : list Z; owner : list (option nat) }.

(** [transfer]: before the two locks, the test, the load and the store of each
    balance, the two unlocks, returned. *)
Inductive tpc :=
  | TFirst | TSecond | TTest | TLoadDst | TStoreDst (r : Z) | TLoadSrc | TStoreSrc (r : Z)
  | TUnlockSrc | TUnlockDst | TRet.
(** [main] about to create, or to join, the thread of transfer [i]. *)
Inductive tthread := TUnborn | TRun (x : txn) (p : tpc) | TCreate (i : nat) | TJoin (i : nat).

Section transfer.
Context (fixed : bool).

Definition lock1 (x : txn) : nat := if fixed && negb (t_src x <? t_dst x)%nat then t_dst x else t_src x.
Definition lock2 (x : txn) : nat := if fixed && negb (t_src x <? t_dst x)%nat then t_src x else t_dst x.

Definition mutex_lock (i a : nat) (p : tthread) (g : bank) : list (tthread * bank * option (nat * tthread)) :=
  match owner g !! a with
  | Some None => [(p, mk_bank (balance g) (<[a:=Some i]> (owner g)), None)]
  | _ => []
  end.
Definition mutex_unlock (a : nat) (p : tthread) (g : bank) : list (tthread * bank * option (nat * tthread)) :=
  [(p, mk_bank (balance g) (<[a:=None]> (owner g)), None)].
Definition bal (g : bank) (a : nat) : Z := default 0 (balance g !! a).
Definition set_bal (a : nat) (v : Z) (g : bank) : bank := mk_bank (<[a:=v]> (balance g)) (owner g).

Definition transfer_step (i : nat) (x : txn) (p : tpc) (g : bank) : list (tthread * bank * option (nat * tthread)) :=
  match p with
  | TFirst => mutex_lock i (lock1 x) (TRun x TSecond) g
  | TSecond => mutex_lock i (lock2 x) (TRun x TTest) g
  | TTest => [(TRun x (if bal g (t_src x) >? t_amount x then TLoadDst else TUnlockSrc), g, None)]
  | TLoadDst => [(TRun x (TStoreDst (bal g (t_dst x))), g, None)]
  | TStoreDst r => [(TRun x TLoadSrc, set_bal (t_dst x) (s32 (r + t_amount x)) g, None)]
  | TLoadSrc => [(TRun x (TStoreSrc (bal g (t_src x))), g, None)]
  | TStoreSrc r => [(TRun x TUnlockSrc, set_bal (t_src x) (s32 (r - t_amount x)) g, None)]
  | TUnlockSrc => mutex_unlock (t_src x) (TRun x TUnlockDst) g
  | TUnlockDst => mutex_unlock (t_dst x) (TRun x TRet) g
  | TRet => []
  end.

(** Transfer [i] of [main], for the number [r] that [rand] returned. *)
Definition txn_of (i r : nat) : txn :=
  let s := (r mod ACCS)%nat in
  let d := (i mod ACCS)%nat in
  mk_txn s (if (s =? d)%nat then ((s + 1) mod ACCS)%nat else d) 10.

Context (rand : list nat).
Definition is_ret (t : option tthread) : bool := match t with Some (TRun _ TRet) => true | _ => false end.
(** The thread of transfer [i] is thread [i + 1]; [TXNS] is the number of
    transfers. *)
Definition bank_step : actions (G:=bank) (T:=tthread) := λ i t ts g,
  match t with
  | TUnborn => []
  | TRun x p => transfer_step i x p g
  | TCreate k =>
      match rand !! k with
      | Some r => [(if (S k <? length rand)%nat then TCreate (S k) else TJoin 0, g, Some (S k, TRun (txn_of k r) TFirst))]
      | None => []
      end
  | TJoin k =>
      if (k <? length rand)%nat then if is_ret (ts !! S k) then [(TJoin (S k), g, None)] else [] else []
  end.
(** After the loop that initialises the accounts. *)
Definition bank_init : cstate (G:=bank) (T:=tthread) :=
  (mk_bank (replicate ACCS 1000) (replicate ACCS None), TCreate 0 :: replicate (length rand) TUnborn).
(** [main] has joined all threads. *)
Definition all_joined (s : cstate (G:=bank) (T:=tthread)) : Prop := s.2 !! 0%nat = Some (TJoin (length rand)).
End transfer.

(** The two programs; [rand] lists the [TXNS] numbers drawn. *)
Definition dead_step (rand : list nat) : actions (G:=bank) (T:=tthread) := bank_step false rand.
Definition dead_fix_step (rand : list nat) : actions (G:=bank) (T:=tthread) := bank_step true rand.

Section invariant.
Context (fixed : bool) (rand : list nat).

(** ** The invariant *)
Definition TOTAL : Z := 10000.
Definition held (x : txn) (p : tpc) : list nat :=
  match p with
  | TFirst | TRet => []
  | TSecond => [lock1 fixed x]
  | TUnlockDst => [t_dst x]
  | _ => [t_src x; t_dst x]
  end.
(** A transfer between its two stores. *)
Definition in_flight (t : tthread) : Z :=
  match t with TRun x TLoadSrc | TRun x (TStoreSrc _) => t_amount x | _ => 0 end.
Definition txn_ok (x : txn) : Prop :=
  (t_src x < ACCS)%nat ∧ (t_dst x < ACCS)%nat ∧ t_src x ≠ t_dst x ∧ t_amount x = 10.
Definition enough (b : list Z) (x : txn) : Prop := ∃ v, b !! t_src x = Some v ∧ t_amount x < v.
Definition tpc_ok (b : list Z) (x : txn) (p : tpc) : Prop :=
  match p with
  | TLoadDst | TLoadSrc => enough b x
  | TStoreDst r => enough b x ∧ b !! t_dst x = Some r
  | TStoreSrc r => enough b x ∧ b !! t_src x = Some r
  | _ => True
  end.
Definition created (m : tthread) (k : nat) : Prop := match m with TCreate j => (k < j)%nat | _ => True end.
Definition bmain_ok (m : tthread) (ts : list tthread) : Prop :=
  match m with
  | TCreate k => (k < length rand)%nat
  | TJoin k => (k ≤ length rand)%nat ∧ ∀ j, (j < k)%nat → is_ret (ts !! S j) = true
  | _ => False
  end.
Record bank_inv (s : cstate (G:=bank) (T:=tthread)) : Prop := {
  bi_len : length (balance s.1) = ACCS ∧ length (owner s.1) = ACCS;
  bi_thread i x p : s.2 !! i = Some (TRun x p) → txn_ok x ∧ tpc_ok (balance s.1) x p;
  bi_owner i a : owner s.1 !! a = Some (Some i) ↔ ∃ x p, s.2 !! i = Some (TRun x p) ∧ a ∈ held x p;
  bi_sum : zsum (balance s.1) = TOTAL + zsum (in_flight <$> s.2);
  bi_pos : Forall (λ z, 0 ≤ z) (balance s.1);
  bi_table : length s.2 = S (length rand);
  bi_main : ∃ m, s.2 !! 0%nat = Some m ∧ bmain_ok m s.2 ∧
    ∀ k, (k < length rand)%nat → (∃ x p, s.2 !! S k = Some (TRun x p) ∧ created m k) ∨ s.2 !! S k = Some TUnborn ∧ ¬ created m k;
}.

(** Other threads do not look at accounts they have not locked. *)
Lemma tpc_ok_frame b b' x p : (∀ a, a ∈ held x p → b' !! a = b !! a) → tpc_ok b x p → tpc_ok b' x p.
Proof.
  intros Hb. destruct p; cbn in *; unfold enough; rewrite ?Hb by set_solver; done.
Qed.
Lemma held_disjoint s i j x y p q a : bank_inv s → s.2 !! i = Some (TRun x p) → s.2 !! j = Some (TRun y q) →
  a ∈ held x p → a ∈ held y q → i = j.
Proof.
  intros Hi Hx Hy Ha Hb. assert (owner s.1 !! a = Some (Some i)) as Ho by (apply (bi_owner _ Hi); eauto).
  assert (owner s.1 !! a = Some (Some j)) as Ho' by (apply (bi_owner _ Hi); eauto). congruence.
Qed.
Lemma txn_of_ok i r : txn_ok (txn_of i r).
Proof.
  unfold txn_ok, txn_of. cbn [t_src t_dst t_amount]. assert (ACCS ≠ 0)%nat as Hz by done.
  pose proof (Nat.mod_upper_bound r ACCS Hz). pose proof (Nat.mod_upper_bound i ACCS Hz).
  split_and!; [done|case_match; [by apply Nat.mod_upper_bound|done]| |done].
  destruct (Nat.eqb_spec (r mod ACCS) (i mod ACCS)) as [E|E]; [|done].
  unfold ACCS in *. remember (r mod 10)%nat as k. destruct (decide (k = 9)%nat) as [->|?]; [done|].
  rewrite Nat.mod_small; lia.
Qed.

Lemma run_not_main s i x p : bank_inv s → s.2 !! i = Some (TRun x p) → i ≠ 0%nat.
Proof. intros Hi Hx ->. destruct (bi_main _ Hi) as (m & Hm & Hok & _). rewrite Hx in Hm. by simplify_eq. Qed.

(** A transfer goes from [p] to [p'] and changes only what it holds. *)
Lemma bank_move s i x p p' g' :
  bank_inv s → s.2 !! i = Some (TRun x p) → p ≠ TRet →
  length (balance g') = ACCS ∧ length (owner g') = ACCS → tpc_ok (balance g') x p' →
  (∀ a, a ∉ held x p → balance g' !! a = balance s.1 !! a) →
  (∀ a j, owner g' !! a = Some (Some j) ↔ j = i ∧ a ∈ held x p' ∨ j ≠ i ∧ owner s.1 !! a = Some (Some j)) →
  zsum (balance g') = zsum (balance s.1) - in_flight (TRun x p) + in_flight (TRun x p') →
  Forall (λ z, 0 ≤ z) (balance g') → bank_inv (g', <[i:=TRun x p']> s.2).
Proof.
  intros Hi Hx Hp Hlen Hok Hbal Hown Hsum Hpos.
  assert (i < length s.2)%nat as Hlt by (by eapply lookup_lt_Some). pose proof (run_not_main s i x p Hi Hx) as Hi0.
  constructor; cbn [fst snd]; try done.
  - intros j y q [(<- & [= <- <-] & _)|(Hne & Hy)]%list_lookup_insert_Some.
    + split; [by eapply (bi_thread _ Hi)|done].
    + destruct (bi_thread _ Hi j y q Hy) as [? Hq]. split; [done|]. revert Hq. apply tpc_ok_frame.
      intros a Ha. apply Hbal. intros Ha'. by destruct Hne; eapply held_disjoint.
  - intros j a. rewrite Hown. split.
    + intros [[-> Ha]|[Hne Ho]]; [exists x, p'; by rewrite list_lookup_insert_eq|].
      apply (bi_owner _ Hi) in Ho as (y & q & Hy & Ha). exists y, q. by rewrite list_lookup_insert_ne.
    + intros (y & q & [(<- & [= <- <-] & _)|(Hne & Hy)]%list_lookup_insert_Some & Ha); [by left|right].
      split; [done|]. apply (bi_owner _ Hi). eauto.
  - rewrite list_fmap_insert, (zsum_insert _ _ (in_flight (TRun x p))) by (by rewrite list_lookup_fmap, Hx).
    rewrite Hsum, (bi_sum _ Hi). lia.
  - rewrite length_insert. apply Hi.
  - destruct (bi_main _ Hi) as (m & Hm & Hmok & Hk). exists m. rewrite list_lookup_insert_ne by done. split_and!; [done| |].
    + destruct m; cbn in *; try done. destruct Hmok as [? Hj]. split; [done|]. intros j Hjk. specialize (Hj j Hjk).
      destruct (decide (i = S j)) as [->|Hne]; [|by rewrite list_lookup_insert_ne]. rewrite Hx in Hj. by destruct p.
    + intros k Hlk. destruct (decide (i = S k)) as [->|Hne]; [|rewrite list_lookup_insert_ne by done; by apply Hk].
      rewrite list_lookup_insert_eq by done. left. exists x, p'. split; [done|].
      destruct (Hk k Hlk) as [(? & ? & ? & ?)|[Hu _]]; [done|]. by rewrite Hx in Hu.
Qed.

(** What the lock calls do to the owners. *)
Section owners.
Context s i x p (Hi : bank_inv s) (Hx : s.2 !! i = Some (TRun x p)).
Lemma owns a : owner s.1 !! a = Some (Some i) ↔ a ∈ held x p.
Proof.
  rewrite (bi_owner _ Hi). split; [|eauto]. intros (y & q & Hy & Ha). rewrite Hx in Hy. by simplify_eq.
Qed.
Lemma owners_same p' : held x p' = held x p → ∀ a j,
  owner s.1 !! a = Some (Some j) ↔ j = i ∧ a ∈ held x p' ∨ j ≠ i ∧ owner s.1 !! a = Some (Some j).
Proof. intros -> a j. rewrite <- owns. destruct (decide (j = i)) as [->|?]; tauto. Qed.
Lemma owners_lock p' a0 : owner s.1 !! a0 = Some None → (∀ a, a ∈ held x p' ↔ a = a0 ∨ a ∈ held x p) → ∀ a j,
  <[a0:=Some i]> (owner s.1) !! a = Some (Some j) ↔ j = i ∧ a ∈ held x p' ∨ j ≠ i ∧ owner s.1 !! a = Some (Some j).
Proof.
  intros H0 Hh a j. rewrite Hh, <- owns. destruct (decide (a = a0)) as [->|Hne].
  - rewrite list_lookup_insert_eq by (by eapply lookup_lt_Some). rewrite H0. split; [intros [= ->]; auto|naive_solver].
  - rewrite list_lookup_insert_ne by done. destruct (decide (j = i)) as [->|?]; tauto.
Qed.
Lemma owners_unlock p' a0 : a0 ∈ held x p → (∀ a, a ∈ held x p' ↔ a ≠ a0 ∧ a ∈ held x p) → ∀ a j,
  <[a0:=None]> (owner s.1) !! a = Some (Some j) ↔ j = i ∧ a ∈ held x p' ∨ j ≠ i ∧ owner s.1 !! a = Some (Some j).
Proof.
  intros H0 Hh a j. rewrite Hh, <- owns. apply owns in H0. destruct (decide (a = a0)) as [->|Hne].
  - rewrite list_lookup_insert_eq by (by eapply lookup_lt_Some). rewrite H0. split; [done|naive_solver].
  - rewrite list_lookup_insert_ne by done. destruct (decide (j = i)) as [->|?]; tauto.
Qed.
End owners.

Lemma locks_src_dst x a : a = lock2 fixed x ∨ a ∈ [lock1 fixed x] ↔ a ∈ [t_src x; t_dst x].
Proof. unfold lock1, lock2. destruct (fixed && _); set_solver. Qed.

Hypothesis small : 10000 + 10 * Z.of_nat (S (length rand)) < 2147483638.

(** The money in flight is bounded by the number of threads. *)
Lemma in_flight_bound ts : Forall (λ t, 0 ≤ in_flight t ≤ 10) ts → zsum (in_flight <$> ts) ≤ 10 * Z.of_nat (length ts).
Proof. induction 1; unfold zsum in *; cbn; lia. Qed.
Lemma balance_range s a v : bank_inv s → balance s.1 !! a = Some v → 0 ≤ v < 2147483638.
Proof.
  intros Hi Hv. pose proof (zsum_bound _ _ _ (bi_pos _ Hi) Hv) as Hb. rewrite (bi_sum _ Hi) in Hb.
  pose proof (in_flight_bound s.2) as Hf. rewrite (bi_table _ Hi) in Hf. unfold TOTAL in Hb.
  enough (Forall (λ t, 0 ≤ in_flight t ≤ 10) s.2) as HF by (specialize (Hf HF); lia).
  apply Forall_lookup. intros j t Ht. destruct t as [|x p| |]; cbn; try lia.
  destruct (bi_thread _ Hi j x p Ht) as [(_ & _ & _ & Ham) _]. rewrite Ham. destruct p; lia.
Qed.

Lemma bank_quiet s i x p p' : bank_inv s → s.2 !! i = Some (TRun x p) → p ≠ TRet →
  tpc_ok (balance s.1) x p' → held x p' = held x p → in_flight (TRun x p') = in_flight (TRun x p) →
  bank_inv (s.1, <[i:=TRun x p']> s.2).
Proof.
  intros Hi Hx Hp Hok Hh Hf. apply (bank_move s i x p); try done; [apply Hi|by apply (owners_same s i x p)|rewrite Hf; lia|apply Hi].
Qed.
Lemma bank_store s i x p p' a v w : bank_inv s → s.2 !! i = Some (TRun x p) → p ≠ TRet →
  balance s.1 !! a = Some v → a ∈ held x p → 0 ≤ w → tpc_ok (<[a:=w]> (balance s.1)) x p' → held x p' = held x p →
  w - v = in_flight (TRun x p') - in_flight (TRun x p) → bank_inv (set_bal a w s.1, <[i:=TRun x p']> s.2).
Proof.
  intros Hi Hx Hp Ha Hh Hw Hok Hhp Hf. apply (bank_move s i x p); unfold set_bal; cbn [balance owner]; try done.
  - rewrite length_insert. apply Hi.
  - intros b Hb. apply list_lookup_insert_ne. by intros ->.
  - by apply (owners_same s i x p).
  - rewrite (zsum_insert _ _ v) by done. lia.
  - apply Forall_insert; [apply Hi|done].
Qed.
Lemma bank_lock s i x p p' a : bank_inv s → s.2 !! i = Some (TRun x p) → p ≠ TRet →
  owner s.1 !! a = Some None → (∀ b, b ∈ held x p' ↔ b = a ∨ b ∈ held x p) → tpc_ok (balance s.1) x p' →
  in_flight (TRun x p') = in_flight (TRun x p) →
  bank_inv (mk_bank (balance s.1) (<[a:=Some i]> (owner s.1)), <[i:=TRun x p']> s.2).
Proof.
  intros Hi Hx Hp Ha Hh Hok Hf. apply (bank_move s i x p); cbn [balance owner]; try done.
  - rewrite length_insert. apply Hi.
  - by apply (owners_lock s i x p).
  - rewrite Hf. lia.
  - apply Hi.
Qed.
Lemma bank_unlock s i x p p' a : bank_inv s → s.2 !! i = Some (TRun x p) → p ≠ TRet →
  a ∈ held x p → (∀ b, b ∈ held x p' ↔ b ≠ a ∧ b ∈ held x p) → tpc_ok (balance s.1) x p' →
  in_flight (TRun x p') = in_flight (TRun x p) →
  bank_inv (mk_bank (balance s.1) (<[a:=None]> (owner s.1)), <[i:=TRun x p']> s.2).
Proof.
  intros Hi Hx Hp Ha Hh Hok Hf. apply (bank_move s i x p); cbn [balance owner]; try done.
  - rewrite length_insert. apply Hi.
  - by apply (owners_unlock s i x p).
  - rewrite Hf. lia.
  - apply Hi.
Qed.

Lemma transfer_inv s i x p t' g' new : bank_inv s → s.2 !! i = Some (TRun x p) →
  (t', g', new) ∈ transfer_step fixed i x p s.1 → new = None ∧ bank_inv (g', <[i:=t']> s.2).
Proof.
  intros Hi Hx Hr. destruct (bi_thread _ Hi i x p Hx) as [(Hs & Hd & Hne & Ham) Hok].
  assert (∀ a, (a < ACCS)%nat → balance s.1 !! a = Some (bal s.1 a)) as Hbal.
  { intros a Ha. unfold bal. rewrite <- (proj1 (bi_len _ Hi)) in Ha. by destruct (lookup_lt_is_Some_2 _ _ Ha) as [v ->]. }
  destruct p as [| | | |r| |r| | |]; cbn [transfer_step] in Hr; unfold mutex_lock, mutex_unlock in Hr.
  - destruct (owner s.1 !! lock1 fixed x) as [[|]|] eqn:E; inv_action Hr. split; [done|].
    apply (bank_lock s i x TFirst); cbn; try done. set_solver.
  - destruct (owner s.1 !! lock2 fixed x) as [[|]|] eqn:E; inv_action Hr. split; [done|].
    apply (bank_lock s i x TSecond); cbn; try done. intros b. by rewrite locks_src_dst.
  - inv_action Hr. split; [done|]. destruct (Z.gtb_spec (bal s.1 (t_src x)) (t_amount x)).
    + apply (bank_quiet s i x TTest); try done. exists (bal s.1 (t_src x)). split; [auto|lia].
    + by apply (bank_quiet s i x TTest).
  - inv_action Hr. split; [done|]. apply (bank_quiet s i x TLoadDst); try done. split; [done|auto].
  - inv_action Hr. destruct Hok as [(v & Hv & Hgt) Hr]. split; [done|]. pose proof (balance_range s _ _ Hi Hr).
    rewrite Ham, s32_small by lia.
    eapply (bank_store s i x (TStoreDst r)); try done; cbn; [set_solver|lia| |lia].
    exists v. split; [by rewrite list_lookup_insert_ne|done].
  - inv_action Hr. split; [done|]. apply (bank_quiet s i x TLoadSrc); try done. split; [done|auto].
  - inv_action Hr. destruct Hok as [(v & Hv & Hgt) Hr]. rewrite Hv in Hr. simplify_eq. split; [done|].
    pose proof (balance_range s _ _ Hi Hv). rewrite s32_small by lia.
    eapply (bank_store s i x (TStoreSrc r)); try done; cbn; [set_solver|lia|lia].
  - inv_action Hr. split; [done|]. apply (bank_unlock s i x TUnlockSrc); cbn; try done; [set_solver|].
    intros b. set_solver.
  - inv_action Hr. split; [done|]. apply (bank_unlock s i x TUnlockDst); cbn; try done; [set_solver|].
    intros b. set_solver.
  - inv_action Hr.
Qed.

(** ** main *)
Lemma main_index s i t : bank_inv s → s.2 !! i = Some t → (match t with TCreate _ | TJoin _ => True | _ => False end) → i = 0%nat.
Proof.
  intros Hi Ht Hm. destruct i as [|k]; [done|]. assert (k < length rand)%nat as Hk.
  { apply lookup_lt_Some in Ht. rewrite (bi_table _ Hi) in Ht. lia. }
  destruct (bi_main _ Hi) as (m & _ & _ & Hc). destruct (Hc k Hk) as [(x & p & Hx & _)|[Hx _]]; rewrite Hx in Ht; by simplify_eq.
Qed.
Lemma create_inv s k r : bank_inv s → s.2 !! 0%nat = Some (TCreate k) → rand !! k = Some r →
  bank_inv (s.1, <[S k:=TRun (txn_of k r) TFirst]> (<[0%nat:=if (S k <? length rand)%nat then TCreate (S k) else TJoin 0]> s.2)).
Proof.
  intros Hi Hm Hr. pose proof (lookup_lt_Some _ _ _ Hr) as Hk. destruct (bi_main _ Hi) as (m & Hm' & _ & Hc).
  rewrite Hm in Hm'. simplify_eq. destruct (Hc k Hk) as [(? & ? & _ & ?)|[Hu _]]; [cbn in *; lia|].
  set (m' := if (S k <? length rand)%nat then TCreate (S k) else TJoin 0).
  assert (0 < length s.2 ∧ S k < length s.2)%nat as [Hl0 Hlk] by (rewrite (bi_table _ Hi); lia).
  assert (∀ i x p, <[S k:=TRun (txn_of k r) TFirst]> (<[0%nat:=m']> s.2) !! i = Some (TRun x p) →
    i = S k ∧ x = txn_of k r ∧ p = TFirst ∨ s.2 !! i = Some (TRun x p)) as Hlook.
  { intros i x p [(<- & [= <- <-] & _)|(_ & [(<- & Hx & _)|(_ & Hx)]%list_lookup_insert_Some)]%list_lookup_insert_Some; [by left| |by right].
    unfold m' in Hx. by destruct (S k <? length rand)%nat. }
  assert (∀ i, i ≠ 0%nat → i ≠ S k → <[S k:=TRun (txn_of k r) TFirst]> (<[0%nat:=m']> s.2) !! i = s.2 !! i) as Hother.
  { intros i ? ?. by rewrite !list_lookup_insert_ne. }
  constructor; cbn [fst snd]; try apply Hi.
  - intros i x p [(-> & -> & ->)|Hx]%Hlook; [split; [apply txn_of_ok|done]|by eapply (bi_thread _ Hi)].
  - intros i a. rewrite (bi_owner _ Hi). split; intros (x & p & Hx & Ha).
    + exists x, p. split; [|done]. rewrite Hother; [done|by eapply run_not_main|intros ->; by rewrite Hu in Hx].
    + apply Hlook in Hx as [(-> & -> & ->)|Hx]; [by apply elem_of_nil in Ha|eauto].
  - rewrite !list_fmap_insert. rewrite (zsum_insert _ _ 0), (zsum_insert _ _ 0).
    + rewrite (bi_sum _ Hi). cbn. unfold m'. destruct (S k <? length rand)%nat; cbn; lia.
    + by rewrite list_lookup_fmap, Hm.
    + by rewrite list_lookup_insert_ne, list_lookup_fmap, Hu by done.
  - rewrite !length_insert. apply Hi.
  - exists m'. rewrite list_lookup_insert_ne, list_lookup_insert_eq by done. split_and!; [done| |].
    + unfold m'. destruct (Nat.ltb_spec (S k) (length rand)); cbn; [done|]. split; [lia|]. intros; lia.
    + intros j Hj. destruct (decide (j = k)) as [->|Hjk].
      * left. rewrite list_lookup_insert_eq by (by rewrite length_insert). eexists _, _. split; [done|].
        unfold m'. destruct (S k <? length rand)%nat; cbn; [lia|done].
      * rewrite Hother by (done || lia). destruct (Hc j Hj) as [(x & p & Hx & Hcr)|[Hx Hcr]]; [left|right]; cbn in Hcr.
        { exists x, p. split; [done|]. unfold m'. destruct (S k <? length rand)%nat; cbn; [lia|done]. }
        split; [done|]. unfold m'. destruct (Nat.ltb_spec (S k) (length rand)); cbn; [lia|]. lia.
Qed.
Lemma join_inv s k : bank_inv s → s.2 !! 0%nat = Some (TJoin k) → (k < length rand)%nat → is_ret (s.2 !! S k) = true →
  bank_inv (s.1, <[0%nat:=TJoin (S k)]> s.2).
Proof.
  intros Hi Hm Hk Hret. destruct (bi_main _ Hi) as (m & Hm' & Hmok & Hc). rewrite Hm in Hm'. simplify_eq.
  assert (0 < length s.2)%nat as Hl0 by (rewrite (bi_table _ Hi); lia).
  assert (∀ i x p, <[0%nat:=TJoin (S k)]> s.2 !! i = Some (TRun x p) ↔ s.2 !! i = Some (TRun x p)) as Hlook.
  { intros i x p. destruct (decide (i = 0)%nat) as [->|?]; [|by rewrite list_lookup_insert_ne by done].
    rewrite list_lookup_insert_eq, Hm by done. done. }
  constructor; cbn [fst snd]; try apply Hi.
  - intros i x p Hx%Hlook. by eapply (bi_thread _ Hi).
  - intros i a. rewrite (bi_owner _ Hi). by setoid_rewrite Hlook.
  - rewrite list_fmap_insert, (zsum_insert _ _ 0) by (by rewrite list_lookup_fmap, Hm). rewrite (bi_sum _ Hi). cbn. lia.
  - rewrite length_insert. apply Hi.
  - exists (TJoin (S k)). rewrite list_lookup_insert_eq by done. split_and!; [done| |].
    + split; [lia|]. intros j Hj. rewrite list_lookup_insert_ne by done. destruct (decide (j = k)) as [->|?]; [done|].
      apply Hmok. lia.
    + intros j Hj. rewrite list_lookup_insert_ne by done. apply Hc. done.
Qed.

(** Actions still to come. *)
Definition trest (t : tthread) : Z :=
  match t with
  | TUnborn => 9
  | TRun _ p =>
      match p with
      | TFirst => 9 | TSecond => 8 | TTest => 7 | TLoadDst => 6 | TStoreDst _ => 5 | TLoadSrc => 4
      | TStoreSrc _ => 3 | TUnlockSrc => 2 | TUnlockDst => 1 | TRet => 0
      end
  | TCreate k => 2 * Z.of_nat (length rand) - Z.of_nat k
  | TJoin k => Z.of_nat (length rand) - Z.of_nat k
  end.
Definition bank_measure (s : cstate (G:=bank) (T:=tthread)) : nat := Z.to_nat (zsum (trest <$> s.2)).

Lemma bank_inv_step s s' : bank_inv s → cstep (bank_step fixed rand) s s' → bank_inv s'.
Proof.
  intros Hi (i & t & t' & g' & new & Ht & Hr & ->)%cstep_inv. destruct t as [|x p|k|k]; unfold bank_step in Hr.
  - inv_action Hr.
  - destruct (transfer_inv s i x p t' g' new Hi Ht Hr) as [-> ?]. done.
  - destruct (rand !! k) as [r|] eqn:E; inv_action Hr. assert (i = 0)%nat as -> by (by eapply main_index).
    by apply create_inv.
  - destruct (Nat.ltb_spec k (length rand)); [|inv_action Hr]. destruct (is_ret (s.2 !! S k)) eqn:E; inv_action Hr.
    assert (i = 0)%nat as -> by (by eapply main_index). by apply join_inv.
Qed.

Lemma trest_nonneg s : bank_inv s → Forall (λ z, 0 ≤ z) (trest <$> s.2).
Proof.
  intros Hi. apply Forall_fmap, Forall_lookup. intros i t Ht. unfold compose. destruct t as [|x p|k|k]; cbn; [lia|destruct p; lia| |].
  all: pose proof (main_index s i _ Hi Ht I) as ->; destruct (bi_main _ Hi) as (m & Hm & Hok & _); rewrite Ht in Hm; simplify_eq;
    cbn in Hok; lia.
Qed.
Lemma bank_measure_lt s s' : bank_inv s' → zsum (trest <$> s'.2) < zsum (trest <$> s.2) → (bank_measure s' < bank_measure s)%nat.
Proof. intros Hi Hlt. unfold bank_measure. pose proof (zsum_nonneg _ (trest_nonneg s' Hi)). lia. Qed.
Lemma transfer_rest i x p g t' g' new : (t', g', new) ∈ transfer_step fixed i x p g → trest t' < trest (TRun x p).
Proof.
  intros Hr. destruct p; cbn in Hr; unfold mutex_lock, mutex_unlock in Hr; repeat case_match; inv_action Hr; cbn; lia.
Qed.
Lemma bank_step_measure s s' : bank_inv s → cstep (bank_step fixed rand) s s' → (bank_measure s' < bank_measure s)%nat.
Proof.
  intros Hi Hst. apply bank_measure_lt; [by eapply bank_inv_step|].
  apply cstep_inv in Hst as (i & t & t' & g' & new & Ht & Hr & ->). destruct t as [|x p|k|k]; unfold bank_step in Hr.
  - inv_action Hr.
  - destruct (transfer_inv s i x p t' g' new Hi Ht Hr) as [-> _]. pose proof (transfer_rest _ _ _ _ _ _ _ Hr).
    cbn [start snd]. rewrite list_fmap_insert, (zsum_insert _ _ (trest (TRun x p))) by (by rewrite list_lookup_fmap, Ht). lia.
  - destruct (rand !! k) as [r|] eqn:E; inv_action Hr. apply lookup_lt_Some in E.
    pose proof (main_index s i _ Hi Ht I) as ->. destruct (bi_main _ Hi) as (m & Hm & _ & Hc). rewrite Ht in Hm. simplify_eq.
    destruct (Hc k E) as [(? & ? & _ & Hcr)|[Hu _]]; [cbn in Hcr; lia|].
    cbn [start snd]. rewrite !list_fmap_insert, (zsum_insert _ _ 9), (zsum_insert _ _ (trest (TCreate k))).
    + destruct (Nat.ltb_spec (S k) (length rand)); cbn; lia.
    + by rewrite list_lookup_fmap, Ht.
    + by rewrite list_lookup_insert_ne, list_lookup_fmap, Hu by done.
  - destruct (Nat.ltb_spec k (length rand)); [|inv_action Hr]. destruct (is_ret (s.2 !! S k)) eqn:E; inv_action Hr.
    cbn [start snd]. rewrite list_fmap_insert, (zsum_insert _ _ (trest (TJoin k))) by (by rewrite list_lookup_fmap, Ht). cbn. lia.
Qed.
Lemma bank_inv_init : rand ≠ [] → bank_inv (bank_init rand).
Proof.
  intros Hne. assert (0 < length rand)%nat by (destruct rand; [done|cbn; lia]).
  assert (∀ i x p, (TCreate 0 :: replicate (length rand) TUnborn) !! i = Some (TRun x p) → False) as Hno.
  { intros [|i] x p Hx; cbn in Hx; [done|]. by apply lookup_replicate in Hx as [? _]. }
  constructor; cbn [fst snd bank_init].
  - done.
  - intros i x p []%Hno.
  - intros i a. split; [intros [? _]%lookup_replicate; done|intros (? & ? & []%Hno & _)].
  - cbn [fmap list_fmap]. rewrite fmap_replicate. assert (∀ n, zsum (replicate n 0) = 0) as Hz.
    { induction n; unfold zsum in *; cbn; lia. }
    change (zsum (in_flight (TCreate 0) :: replicate (length rand) (in_flight TUnborn))) with (0 + zsum (replicate (length rand) 0)).
    rewrite Hz. reflexivity.
  - apply Forall_replicate. lia.
  - cbn. by rewrite length_replicate.
  - exists (TCreate 0). split_and!; [done|done|]. intros k Hk. right. split; [by apply lookup_replicate_2|cbn; lia].
Qed.
End invariant.

(** ** dead-fix.c cannot deadlock

    A thread that waits for its second lock holds a smaller one. Follow the
    chain of owners from such a thread: the locks waited for grow, so that
    the chain ends, in a thread that can go on. *)
Section fixed.
Context (rand : list nat).
Abbreviation inv := (bank_inv true rand).
Abbreviation step := (bank_step true rand).

Lemma lock_order x : t_src x ≠ t_dst x → (lock1 true x < lock2 true x)%nat.
Proof. unfold lock1, lock2, andb. destruct (Nat.ltb_spec (t_src x) (t_dst x)); unfold negb; lia. Qed.
Lemma blocked_on s i x p : inv s → s.2 !! i = Some (TRun x p) → transfer_step true i x p s.1 = [] →
  p = TRet ∨ ∃ a j y q, (p = TFirst ∧ a = lock1 true x ∨ p = TSecond ∧ a = lock2 true x) ∧
    s.2 !! j = Some (TRun y q) ∧ a ∈ held true y q.
Proof.
  intros Hi Hx Hs. destruct (bi_thread _ _ _ Hi i x p Hx) as [(Hsrc & Hdst & _ & _) _].
  assert (lock1 true x < ACCS ∧ lock2 true x < ACCS)%nat as [Hl1 Hl2] by (unfold lock1, lock2; case_match; lia).
  pose proof (proj2 (bi_len _ _ _ Hi)) as Hlo.
  assert (∀ a p', (a < ACCS)%nat → mutex_lock i a p' s.1 = [] → ∃ j y q, s.2 !! j = Some (TRun y q) ∧ a ∈ held true y q) as Hw.
  { intros a p' Ha Hm. unfold mutex_lock in Hm. rewrite <- Hlo in Ha. destruct (lookup_lt_is_Some_2 _ _ Ha) as [[j|] Ho]; rewrite Ho in Hm; [|done].
    apply (bi_owner _ _ _ Hi) in Ho as (y & q & Hy & Hh). eauto. }
  destruct p; cbn [transfer_step] in Hs; try done; [right|right|by left].
  all: apply Hw in Hs as (j & y & q & Hy & Ha); [|done]; eauto 10.
Qed.
Lemma no_second s : inv s → stuck step s → ∀ n i x, (ACCS - lock2 true x ≤ n)%nat → s.2 !! i = Some (TRun x TSecond) → False.
Proof.
  intros Hi Hs. rewrite stuck_inv in Hs. induction n as [|n IH]; intros i x Hn Hx.
  all: destruct (bi_thread _ _ _ Hi i x _ Hx) as [(Hsrc & Hdst & Hne & _) _].
  { unfold lock2 in Hn. case_match; lia. }
  destruct (blocked_on s i x _ Hi Hx (Hs i _ Hx)) as [|(a & j & y & q & [[? _]|[_ ->]] & Hy & Ha)]; [done|done|].
  destruct (blocked_on s j y q Hi Hy (Hs j _ Hy)) as [->|(b & k & z & r & [[-> _]|[-> _]] & _)]; cbn in Ha; try by apply elem_of_nil in Ha.
  apply list_elem_of_singleton in Ha. apply (IH j y); [|done].
  destruct (bi_thread _ _ _ Hi j y _ Hy) as [(_ & _ & Hny & _) _]. pose proof (lock_order y Hny). lia.
Qed.
Lemma bank_stuck s : rand ≠ [] → inv s → stuck step s → all_joined rand s ∧ ∀ i x p, s.2 !! i = Some (TRun x p) → p = TRet.
Proof.
  intros Hne Hi Hs. assert (∀ i x p, s.2 !! i = Some (TRun x p) → p = TRet) as Hret.
  { intros i x p Hx. pose proof Hs as Hs'. rewrite stuck_inv in Hs'.
    destruct (blocked_on s i x p Hi Hx (Hs' i _ Hx)) as [|(a & j & y & q & _ & Hy & Ha)]; [done|exfalso].
    destruct (blocked_on s j y q Hi Hy (Hs' j _ Hy)) as [->|(b & k & z & r & [[-> _]|[-> _]] & _)]; cbn in Ha; try by apply elem_of_nil in Ha.
    by eapply (no_second s Hi Hs). }
  split; [|done]. rewrite stuck_inv in Hs. destruct (bi_main _ _ _ Hi) as (m & Hm & Hok & Hc). pose proof (Hs 0%nat m Hm) as Hst.
  unfold all_joined. rewrite Hm. destruct m as [| |k|k]; cbn in Hok; try done; unfold bank_step in Hst.
  - destruct (lookup_lt_is_Some_2 _ _ Hok) as [r Hr]. by rewrite Hr in Hst.
  - destruct Hok as [Hk _]. destruct (Nat.ltb_spec k (length rand)); [|by do 2 f_equal; lia].
    destruct (Hc k) as [(x & p & Hx & _)|[_ Hu]]; [done| |by destruct Hu]. pose proof (Hret _ _ _ Hx) as ->. by rewrite Hx in Hst.
Qed.
End fixed.
