(* ===== verification/Pipes.v ===== *)
(** * 09/sempipe.c and 09/sem-mpmc.c

    A ring of [SZ] characters between threads. sempipe.c has one producer and
    one consumer and counts the slots with two semaphores; sem-mpmc.c
    ([locked]) has any number of both, and a lock on each side. The shared
    state also records the characters stored so far, [b_in], and the
    characters loaded so far, [b_out], in the order of these actions. *)

From S2P Require Import Prelude Conc.

Definition SZ : Z := 10.
Record pipe := mk_pipe {
  b_buf : list Z; b_reader : Z; b_writer : Z;
  write_slots : Z; read_slots : Z; write_lock : Z; read_lock : Z;
  b_in : list Z; b_out : list Z; b_printed : list Z;
}.
Definition set_buf v b := mk_pipe v (b_reader b) (b_writer b) (write_slots b) (read_slots b) (write_lock b) (read_lock b) (b_in b) (b_out b) (b_printed b).
Definition set_reader v b := mk_pipe (b_buf b) v (b_writer b) (write_slots b) (read_slots b) (write_lock b) (read_lock b) (b_in b) (b_out b) (b_printed b).
Definition set_writer v b := mk_pipe (b_buf b) (b_reader b) v (write_slots b) (read_slots b) (write_lock b) (read_lock b) (b_in b) (b_out b) (b_printed b).
Definition set_write_slots v b := mk_pipe (b_buf b) (b_reader b) (b_writer b) v (read_slots b) (write_lock b) (read_lock b) (b_in b) (b_out b) (b_printed b).
Definition set_read_slots v b := mk_pipe (b_buf b) (b_reader b) (b_writer b) (write_slots b) v (write_lock b) (read_lock b) (b_in b) (b_out b) (b_printed b).
Definition set_write_lock v b := mk_pipe (b_buf b) (b_reader b) (b_writer b) (write_slots b) (read_slots b) v (read_lock b) (b_in b) (b_out b) (b_printed b).
Definition set_read_lock v b := mk_pipe (b_buf b) (b_reader b) (b_writer b) (write_slots b) (read_slots b) (write_lock b) v (b_in b) (b_out b) (b_printed b).
Definition set_in v b := mk_pipe (b_buf b) (b_reader b) (b_writer b) (write_slots b) (read_slots b) (write_lock b) (read_lock b) v (b_out b) (b_printed b).
Definition set_out v b := mk_pipe (b_buf b) (b_reader b) (b_writer b) (write_slots b) (read_slots b) (write_lock b) (read_lock b) (b_in b) v (b_printed b).
Definition set_printed v b := mk_pipe (b_buf b) (b_reader b) (b_writer b) (write_slots b) (read_slots b) (write_lock b) (read_lock b) (b_in b) (b_out b) v.

(** [producer] with the character [c]: in [pipe_write] before the two waits,
    before [writer] is loaded to index the buffer, before the store, before
    [writer] is loaded to be advanced, before it is stored, before the two
    posts. [consumer] in the same way, [v] the character it has loaded. [main]
    about to create thread [k], or joining threads that never return. *)
Inductive bthread :=
  | BUnborn
  | PWait (c : Z) | PLock (c : Z) | PIdx (c : Z) | PStore (c w : Z) | PNext (c : Z) | PSetW (c w : Z) | PUnlock (c : Z) | PPost (c : Z)
  | CWait | CLock | CIdx | CLoad (r : Z) | CNext (v : Z) | CSetR (v r : Z) | CUnlock (v : Z) | CPost (v : Z) | CPrint (v : Z)
  | BCreate (k : nat) | BJoin.

Section pipe.
Context (locked : bool).

Definition bresult : Type := bthread * pipe * option (nat * bthread).
Definition wait_on (get : pipe → Z) (set : Z → pipe → pipe) (t' : bthread) (b : pipe) : list bresult :=
  match sem_wait (get b) with Some v => [(t', set v b, None)] | None => [] end.
Definition post_on (get : pipe → Z) (set : Z → pipe → pipe) (t' : bthread) (b : pipe) : list bresult :=
  [(t', set (sem_post (get b)) b, None)].

(** [for(char c='a'; c<='z'; c++)] inside [while(1)]. *)
Definition next_char (c : Z) : Z := if c + 1 <=? 122 then c + 1 else 97.

Definition pipe_step (t : bthread) (b : pipe) : list bresult :=
  match t with
  (* pipe_write *)
  | PWait c => wait_on write_slots set_write_slots (if locked then PLock c else PIdx c) b
  | PLock c => wait_on write_lock set_write_lock (PIdx c) b
  | PIdx c => [(PStore c (b_writer b), b, None)]
  | PStore c w => [(PNext c, set_in (b_in b ++ [c]) (set_buf (<[Z.to_nat w:=c]> (b_buf b)) b), None)]
  | PNext c => [(PSetW c (b_writer b), b, None)]
  | PSetW c w => [(if locked then PUnlock c else PPost c, set_writer ((w + 1) mod SZ) b, None)]
  | PUnlock c => post_on write_lock set_write_lock (PPost c) b
  | PPost c => post_on read_slots set_read_slots (PWait (next_char c)) b
  (* pipe_read *)
  | CWait => wait_on read_slots set_read_slots (if locked then CLock else CIdx) b
  | CLock => wait_on read_lock set_read_lock CIdx b
  | CIdx => [(CLoad (b_reader b), b, None)]
  | CLoad r => let v := default 0 (b_buf b !! Z.to_nat r) in [(CNext v, set_out (b_out b ++ [v]) b, None)]
  | CNext v => [(CSetR v (b_reader b), b, None)]
  | CSetR v r => [(if locked then CUnlock v else CPost v, set_reader ((r + 1) mod SZ) b, None)]
  | CUnlock v => post_on read_lock set_read_lock (CPost v) b
  | CPost v => post_on write_slots set_write_slots (CPrint v) b
  | CPrint v => [(CWait, set_printed (b_printed b ++ [v - 97 + 65]) b, None)]
  | _ => []
  end.

(** The threads that [main] creates: [true] for a producer. *)
Context (roles : list bool).
Definition born (producer : bool) : bthread := if producer then PWait 97 else CWait.
Definition pipes_step : actions (G:=pipe) (T:=bthread) := λ i t ts b,
  match t with
  | BCreate k =>
      match roles !! k with
      | Some r => [(BCreate (S k), b, Some (S k, born r))]
      | None => [(BJoin, b, None)]
      end
  | t => pipe_step t b
  end.
Definition pipes_init : cstate (G:=pipe) (T:=bthread) :=
  (mk_pipe (replicate (Z.to_nat SZ) 0) 0 0 SZ 0 1 1 [] [] [], BCreate 0 :: replicate (length roles) BUnborn).
Definition pipes := cstep pipes_step.
End pipe.

(** The two programs. *)
Definition sempipe_step : actions (G:=pipe) (T:=bthread) := pipes_step false [true; false].
Definition sem_mpmc_step : actions (G:=pipe) (T:=bthread) := pipes_step true [true; true; false; false].

(** ** The invariant

    How far a thread is in its call, as numbers to be added up. *)
Definition preP (t : bthread) : Z := match t with PLock _ | PIdx _ | PStore _ _ => 1 | _ => 0 end.
Definition storedP (t : bthread) : Z := match t with PNext _ | PSetW _ _ | PUnlock _ | PPost _ => 1 | _ => 0 end.
Definition pendW (t : bthread) : Z := match t with PNext _ | PSetW _ _ => 1 | _ => 0 end.
Definition critP (t : bthread) : Z := match t with PIdx _ | PStore _ _ | PNext _ | PSetW _ _ | PUnlock _ => 1 | _ => 0 end.
Definition preC (t : bthread) : Z := match t with CLock | CIdx | CLoad _ => 1 | _ => 0 end.
Definition loadedC (t : bthread) : Z := match t with CNext _ | CSetR _ _ | CUnlock _ | CPost _ => 1 | _ => 0 end.
Definition pendR (t : bthread) : Z := match t with CNext _ | CSetR _ _ => 1 | _ => 0 end.
Definition critC (t : bthread) : Z := match t with CIdx | CLoad _ | CNext _ | CSetR _ _ | CUnlock _ => 1 | _ => 0 end.
Definition is_producer (t : bthread) : Z :=
  match t with PWait _ | PLock _ | PIdx _ | PStore _ _ | PNext _ | PSetW _ _ | PUnlock _ | PPost _ => 1 | _ => 0 end.
Definition is_consumer (t : bthread) : Z :=
  match t with CWait | CLock | CIdx | CLoad _ | CNext _ | CSetR _ _ | CUnlock _ | CPost _ | CPrint _ => 1 | _ => 0 end.
(** Indices a thread has loaded are still right, and there are locks where it
    uses them. *)
Definition local_ok (locked : bool) (b : pipe) (t : bthread) : Prop :=
  match t with
  | PLock _ | PUnlock _ | CLock | CUnlock _ => locked = true
  | PStore _ w | PSetW _ w => w = b_writer b
  | CLoad r | CSetR _ r => r = b_reader b
  | _ => True
  end.
Abbreviation total f ts := (zsum (f <$> ts)).

Record sem_ok (locked : bool) (b : pipe) (ts : list bthread) : Prop := {
  so_locks : locked = true → 0 ≤ write_lock b ∧ write_lock b + total critP ts = 1 ∧ 0 ≤ read_lock b ∧ read_lock b + total critC ts = 1;
  so_slots : 0 ≤ write_slots b ∧ 0 ≤ read_slots b;
  so_used : Z.of_nat (length (b_in b)) - Z.of_nat (length (b_out b)) = read_slots b + total storedP ts + total preC ts;
  so_room : SZ - (Z.of_nat (length (b_in b)) - Z.of_nat (length (b_out b))) = write_slots b + total preP ts + total loadedC ts;
}.
Record data_ok (b : pipe) (pw pr : Z) : Prop := {
  do_buf : length (b_buf b) = Z.to_nat SZ;
  do_writer : b_writer b = (Z.of_nat (length (b_in b)) - pw) mod SZ;
  do_reader : b_reader b = (Z.of_nat (length (b_out b)) - pr) mod SZ;
  do_out : b_out b = take (length (b_out b)) (b_in b);
  do_data k : (length (b_out b) ≤ k < length (b_in b))%nat → b_buf b !! Z.to_nat (Z.of_nat k mod SZ) = b_in b !! k;
}.
Definition role_ok (r : bool) (t : bthread) : Prop := if r then is_producer t = 1 else is_consumer t = 1.
Record pipes_inv (locked : bool) (roles : list bool) (s : cstate (G:=pipe) (T:=bthread)) : Prop := {
  pv_sem : sem_ok locked s.1 s.2;
  pv_data : data_ok s.1 (total pendW s.2) (total pendR s.2);
  pv_local i t : s.2 !! i = Some t → local_ok locked s.1 t;
  pv_main : s.2 !! 0%nat = Some BJoin ∨ ∃ k, s.2 !! 0%nat = Some (BCreate k) ∧ (k ≤ length roles)%nat ∧
    ∀ j, (k ≤ j < length roles)%nat → s.2 !! S j = Some BUnborn;
  pv_born k : s.2 !! S k = Some BUnborn → ∃ j, s.2 !! 0%nat = Some (BCreate j) ∧ (j ≤ k)%nat;
  pv_role k t : s.2 !! S k = Some t → t = BUnborn ∨ ∃ r, roles !! k = Some r ∧ role_ok r t;
  pv_table : length s.2 = S (length roles);
}.

Section inv.
Context (locked : bool) (roles : list bool).
(** Without the locks, one producer and one consumer at most. *)
Hypothesis single : locked = false → ∀ j k r, roles !! j = Some r → roles !! k = Some r → j = k.
Abbreviation inv := (pipes_inv locked roles).

Lemma crit_range t : 0 ≤ critP t ≤ 1 ∧ 0 ≤ critC t ≤ 1.
Proof. destruct t; cbn; lia. Qed.

(** Two threads are not inside [pipe_write], or [pipe_read], past the lock. *)
Lemma role_unique s i j t u (r : bool) : locked = false → inv s → s.2 !! i = Some t → s.2 !! j = Some u →
  (if r then 0 < critP t ∧ 0 < critP u else 0 < critC t ∧ 0 < critC u) → i = j.
Proof.
  intros Hl Hi Ht Hu Hr. assert (∀ k v, s.2 !! k = Some v → (if r then 0 < critP v else 0 < critC v) →
    ∃ k', k = S k' ∧ roles !! k' = Some r) as Hrole.
  { intros [|k] v Hv Hc.
    - exfalso. destruct (pv_main _ _ _ Hi) as [Hm|(? & Hm & _)]; rewrite Hv in Hm; simplify_eq; destruct r; cbn in Hc; lia.
    - destruct (pv_role _ _ _ Hi k v Hv) as [->|(r' & Hr' & Hok)]; [destruct r; cbn in Hc; lia|].
      exists k. split; [done|]. destruct r, r', v; cbn in *; done || lia. }
  destruct (Hrole i t Ht) as (i' & -> & Hi'); [destruct r; tauto|]. destruct (Hrole j u Hu) as (j' & -> & Hj'); [destruct r; tauto|].
  f_equal. by eapply single.
Qed.
Lemma critP_unique s i t : inv s → s.2 !! i = Some t → critP t = 1 → ∀ j u, s.2 !! j = Some u → j ≠ i → critP u = 0.
Proof.
  intros Hi Ht Hct j u Hu Hne. pose proof (crit_range u). destruct (decide (critP u = 0)) as [|Hnz]; [done|destruct Hne].
  destruct (decide (locked = true)) as [Hl|Hl%not_true_is_false]; [|apply (role_unique s j i u t true); try done; lia].
  destruct (so_locks _ _ _ (pv_sem _ _ _ Hi) Hl) as (? & Hw & _).
  symmetry. eapply (zsum_only critP s.2); try done; [apply Forall_forall; intros; by apply crit_range|lia|lia].
Qed.
Lemma critC_unique s i t : inv s → s.2 !! i = Some t → critC t = 1 → ∀ j u, s.2 !! j = Some u → j ≠ i → critC u = 0.
Proof.
  intros Hi Ht Hct j u Hu Hne. pose proof (crit_range u). destruct (decide (critC u = 0)) as [|Hnz]; [done|destruct Hne].
  destruct (decide (locked = true)) as [Hl|Hl%not_true_is_false]; [|apply (role_unique s j i u t false); try done; lia].
  destruct (so_locks _ _ _ (pv_sem _ _ _ Hi) Hl) as (_ & _ & ? & Hw).
  symmetry. eapply (zsum_only critC s.2); try done; [apply Forall_forall; intros; by apply crit_range|lia|lia].
Qed.
(** So the thread inside is the one that has still to advance the index. *)
Lemma pendW_alone s i t : inv s → s.2 !! i = Some t → critP t = 1 → total pendW s.2 = pendW t.
Proof.
  intros Hi Ht Hc. apply (zsum_unique _ _ i); [done|]. intros j u Hu Hne.
  pose proof (critP_unique s i t Hi Ht Hc j u Hu Hne). by destruct u.
Qed.
Lemma pendR_alone s i t : inv s → s.2 !! i = Some t → critC t = 1 → total pendR s.2 = pendR t.
Proof.
  intros Hi Ht Hc. apply (zsum_unique _ _ i); [done|]. intros j u Hu Hne.
  pose proof (critC_unique s i t Hi Ht Hc j u Hu Hne). by destruct u.
Qed.

Lemma pipes_move s i t t' b' : inv s → s.2 !! i = Some t → i ≠ 0%nat → t ≠ BUnborn →
  sem_ok locked b' (<[i:=t']> s.2) →
  data_ok b' (total pendW s.2 - pendW t + pendW t') (total pendR s.2 - pendR t + pendR t') →
  (∀ j u, s.2 !! j = Some u → j ≠ i → local_ok locked s.1 u → local_ok locked b' u) → local_ok locked b' t' →
  (∀ r, role_ok r t → role_ok r t') → inv (b', <[i:=t']> s.2).
Proof.
  intros Hi Ht H0 Hub Hsem Hdata Hloc Hloc' Hrole. assert (i < length s.2)%nat as Hlt by (by eapply lookup_lt_Some).
  constructor; cbn [fst snd]; [done| | | | | |rewrite length_insert; apply Hi].
  - by rewrite !(zsum_move _ _ i t).
  - intros j u [(<- & <- & _)|(Hne & Hu)]%list_lookup_insert_Some; [done|].
    apply (Hloc j); [done|done|]. by eapply (pv_local _ _ _ Hi).
  - rewrite list_lookup_insert_ne by done. destruct (pv_main _ _ _ Hi) as [?|(k & Hk & Hle & Hun)]; [by left|right].
    exists k. split_and!; [done|done|]. intros j Hj. rewrite list_lookup_insert_ne; [by apply Hun|].
    intros ->. rewrite Hun in Ht by done. by simplify_eq.
  - intros k [(-> & Hu & _)|(Hne & Hu)]%list_lookup_insert_Some; rewrite list_lookup_insert_ne by done; [|by apply (pv_born _ _ _ Hi)].
    destruct (pv_role _ _ _ Hi k t Ht) as [?|([] & _ & Hok%Hrole)]; subst; cbn in *; done.
  - intros k u [(-> & <- & _)|(Hne & Hu)]%list_lookup_insert_Some; [|by apply (pv_role _ _ _ Hi)].
    destruct (pv_role _ _ _ Hi k t Ht) as [?|(r & Hr & Hok)]; [done|]. right. eauto.
Qed.

(** The totals after a move, as numbers. *)
Lemma sem_ok_move s i t t' b' : inv s → s.2 !! i = Some t →
  (locked = true → 0 ≤ write_lock b' ∧ write_lock b' + critP t' = write_lock s.1 + critP t ∧
    0 ≤ read_lock b' ∧ read_lock b' + critC t' = read_lock s.1 + critC t) →
  0 ≤ write_slots b' ∧ 0 ≤ read_slots b' →
  Z.of_nat (length (b_in b')) - Z.of_nat (length (b_out b')) - read_slots b' - storedP t' - preC t' =
    Z.of_nat (length (b_in s.1)) - Z.of_nat (length (b_out s.1)) - read_slots s.1 - storedP t - preC t →
  Z.of_nat (length (b_in b')) - Z.of_nat (length (b_out b')) + write_slots b' + preP t' + loadedC t' =
    Z.of_nat (length (b_in s.1)) - Z.of_nat (length (b_out s.1)) + write_slots s.1 + preP t + loadedC t →
  sem_ok locked b' (<[i:=t']> s.2).
Proof.
  intros Hi Ht Hl Hs Hu Hr. destruct (pv_sem _ _ _ Hi) as [Sl Ss Su Sr].
  constructor; rewrite ?(zsum_move _ _ i t) by done; [|done|lia|lia].
  intros E. specialize (Sl E). specialize (Hl E). lia.
Qed.

(** Actions that leave the ring and its indices alone. *)
Lemma pipes_quiet s i t t' b' : inv s → s.2 !! i = Some t → i ≠ 0%nat → t ≠ BUnborn → sem_ok locked b' (<[i:=t']> s.2) →
  (b_buf b', b_reader b', b_writer b', b_in b', b_out b') = (b_buf s.1, b_reader s.1, b_writer s.1, b_in s.1, b_out s.1) →
  pendW t' = pendW t → pendR t' = pendR t → local_ok locked s.1 t' → (∀ r, role_ok r t → role_ok r t') → inv (b', <[i:=t']> s.2).
Proof.
  intros Hi Ht H0 Hub Hsem Hb Hw Hr Hloc Hrole. injection Hb as E1 E2 E3 E4 E5. apply (pipes_move s i t); try done.
  - rewrite Hw, Hr, !Z.sub_add. destruct (pv_data _ _ _ Hi). by constructor; rewrite ?E1, ?E2, ?E3, ?E4, ?E5.
  - intros j u _ _. destruct u; cbn; congruence.
  - destruct t'; cbn in *; congruence.
Qed.

Lemma counts_nonneg t : 0 ≤ preP t ∧ 0 ≤ storedP t ∧ 0 ≤ preC t ∧ 0 ≤ loadedC t.
Proof. destruct t; cbn; lia. Qed.
Lemma total_at (f : bthread → Z) ts i t : (∀ t, 0 ≤ f t) → ts !! i = Some t → f t ≤ total f ts.
Proof.
  intros Hf Ht. apply (zsum_bound (f <$> ts) i); [|by rewrite list_lookup_fmap, Ht]. apply Forall_fmap, Forall_forall. intros. apply Hf.
Qed.
(** Between 0 and [SZ] characters are in the ring; a writer finds room, a
    reader a character. *)
Lemma ring_room s i t : inv s → s.2 !! i = Some t →
  preC t ≤ Z.of_nat (length (b_in s.1)) - Z.of_nat (length (b_out s.1)) ≤ SZ - preP t.
Proof.
  intros Hi Ht. destruct (pv_sem _ _ _ Hi) as [_ [Sw Sr] Su Ss].
  assert (∀ f, (∀ t, 0 ≤ f t) → f t ≤ total f s.2) as Hf by (intros; by eapply total_at).
  pose proof (Hf preC (λ t, proj1 (proj2 (proj2 (counts_nonneg t))))). pose proof (Hf preP (λ t, proj1 (counts_nonneg t))).
  pose proof (Hf storedP (λ t, proj1 (proj2 (counts_nonneg t)))). pose proof (Hf loadedC (λ t, proj2 (proj2 (proj2 (counts_nonneg t))))).
  pose proof (counts_nonneg t). lia.
Qed.
Lemma ring_slot k n : (k < n)%nat → Z.of_nat n - Z.of_nat k < SZ → Z.of_nat k mod SZ ≠ Z.of_nat n mod SZ.
Proof. unfold SZ. intros Hlt Hd He. pose proof (Z.div_mod (Z.of_nat k) 10). pose proof (Z.div_mod (Z.of_nat n) 10). lia. Qed.

Lemma store_step s i c w : inv s → s.2 !! i = Some (PStore c w) → i ≠ 0%nat →
  inv (set_in (b_in s.1 ++ [c]) (set_buf (<[Z.to_nat w:=c]> (b_buf s.1)) s.1), <[i:=PNext c]> s.2).
Proof.
  intros Hi Ht H0. pose proof (pendW_alone s i _ Hi Ht eq_refl) as Hpw. cbn in Hpw.
  pose proof (ring_room s i _ Hi Ht) as Hroom. cbn in Hroom. destruct (pv_data _ _ _ Hi) as [Db Dw Dr Do Dd].
  rewrite Hpw, Z.sub_0_r in Dw. pose proof (pv_local _ _ _ Hi i _ Ht) as Hw. cbn in Hw. rewrite Dw in Hw. subst w.
  assert (length (b_out s.1) ≤ length (b_in s.1))%nat as Hle by lia.
  apply (pipes_move s i (PStore c (Z.of_nat (length (b_in s.1)) mod SZ))); try done.
  - apply (sem_ok_move s i _ _ _ Hi Ht); cbn; rewrite ?length_app; cbn; try lia; [|apply (pv_sem _ _ _ Hi)].
    intros E. pose proof (so_locks _ _ _ (pv_sem _ _ _ Hi) E). lia.
  - cbn [pendW pendR]. rewrite Hpw. constructor; cbn; rewrite ?length_app; cbn; try done.
    + by rewrite length_insert.
    + rewrite Dw. f_equal. lia.
    + rewrite Dr. f_equal. lia.
    + by rewrite take_app_le.
    + intros k Hk. destruct (decide (k = length (b_in s.1))) as [->|Hne].
      * rewrite list_lookup_insert_eq, lookup_app_r, Nat.sub_diag; [done|lia|].
        rewrite Db. apply Z2Nat.inj_lt; [by apply Z.mod_pos_bound|done|]. by apply Z.mod_pos_bound.
      * rewrite list_lookup_insert_ne, lookup_app_l, Dd; [done|lia|lia|].
        intros He%Z2Nat.inj; [|by apply Z.mod_pos_bound..]. symmetry in He. revert He. apply ring_slot; lia.
Qed.
Lemma load_step s i r : inv s → s.2 !! i = Some (CLoad r) → i ≠ 0%nat →
  let v := default 0 (b_buf s.1 !! Z.to_nat r) in
  inv (set_out (b_out s.1 ++ [v]) s.1, <[i:=CNext v]> s.2).
Proof.
  intros Hi Ht H0. pose proof (pendR_alone s i _ Hi Ht eq_refl) as Hpr. cbn in Hpr.
  pose proof (ring_room s i _ Hi Ht) as Hroom. cbn in Hroom. destruct (pv_data _ _ _ Hi) as [Db Dw Dr Do Dd].
  rewrite Hpr, Z.sub_0_r in Dr. pose proof (pv_local _ _ _ Hi i _ Ht) as Hr. cbn in Hr. rewrite Dr in Hr. subst r.
  destruct (lookup_lt_is_Some_2 (b_in s.1) (length (b_out s.1))) as [v Hv]; [lia|].
  rewrite Dd, Hv by lia. cbn [default]. apply (pipes_move s i (CLoad (Z.of_nat (length (b_out s.1)) mod SZ))); try done.
  - apply (sem_ok_move s i _ _ _ Hi Ht); cbn; rewrite ?length_app; cbn; try lia; [|apply (pv_sem _ _ _ Hi)].
    intros E. pose proof (so_locks _ _ _ (pv_sem _ _ _ Hi) E). lia.
  - cbn [pendW pendR]. rewrite Hpr. constructor; cbn; rewrite ?length_app; cbn; try done.
    + rewrite Dw. f_equal. lia.
    + rewrite Dr. f_equal. lia.
    + rewrite Nat.add_1_r, (take_S_r _ _ v) by done. by rewrite <- Do.
    + intros k Hk. apply Dd. lia.
Qed.
Lemma advance_writer s i c w t' : inv s → s.2 !! i = Some (PSetW c w) → i ≠ 0%nat →
  t' = (if locked then PUnlock c else PPost c) → inv (set_writer ((w + 1) mod SZ) s.1, <[i:=t']> s.2).
Proof.
  intros Hi Ht H0 Ht'. pose proof (pendW_alone s i _ Hi Ht eq_refl) as Hpw. cbn in Hpw.
  destruct (pv_data _ _ _ Hi) as [Db Dw Dr Do Dd]. pose proof (pv_local _ _ _ Hi i _ Ht) as Hw. cbn in Hw. subst w.
  apply (pipes_move s i (PSetW c (b_writer s.1))); try done.
  - apply (sem_ok_move s i _ _ _ Hi Ht); subst t'; [intros E; rewrite E; pose proof (so_locks _ _ _ (pv_sem _ _ _ Hi) E)|apply (pv_sem _ _ _ Hi)| |].
    all: cbn; try destruct locked; cbn; lia.
  - replace (pendW t') with 0 by (subst t'; by destruct locked). replace (pendR t') with 0 by (subst t'; by destruct locked).
    cbn [pendW pendR]. rewrite Hpw. constructor; cbn; try done; [|rewrite Dr; f_equal; lia].
    rewrite Dw, Hpw, Zplus_mod_idemp_l. f_equal. lia.
  - intros j u Hu Hne. pose proof (critP_unique s i _ Hi Ht eq_refl j u Hu Hne). by destruct u.
  - subst t'. by destruct locked.
  - intros [] Hr; subst t'; by destruct locked.
Qed.
Lemma advance_reader s i v r t' : inv s → s.2 !! i = Some (CSetR v r) → i ≠ 0%nat →
  t' = (if locked then CUnlock v else CPost v) → inv (set_reader ((r + 1) mod SZ) s.1, <[i:=t']> s.2).
Proof.
  intros Hi Ht H0 Ht'. pose proof (pendR_alone s i _ Hi Ht eq_refl) as Hpr. cbn in Hpr.
  destruct (pv_data _ _ _ Hi) as [Db Dw Dr Do Dd]. pose proof (pv_local _ _ _ Hi i _ Ht) as Hr. cbn in Hr. subst r.
  apply (pipes_move s i (CSetR v (b_reader s.1))); try done.
  - apply (sem_ok_move s i _ _ _ Hi Ht); subst t'; [intros E; rewrite E; pose proof (so_locks _ _ _ (pv_sem _ _ _ Hi) E)|apply (pv_sem _ _ _ Hi)| |].
    all: cbn; try destruct locked; cbn; lia.
  - replace (pendW t') with 0 by (subst t'; by destruct locked). replace (pendR t') with 0 by (subst t'; by destruct locked).
    cbn [pendW pendR]. rewrite Hpr. constructor; cbn; try done; [rewrite Dw; f_equal; lia|].
    rewrite Dr, Hpr, Zplus_mod_idemp_l. f_equal. lia.
  - intros j u Hu Hne. pose proof (critC_unique s i _ Hi Ht eq_refl j u Hu Hne). by destruct u.
  - subst t'. by destruct locked.
  - intros [] Hr; subst t'; by destruct locked.
Qed.

(** The actions on semaphores and the loads of an index. *)
Lemma sem_wait_Some v v' : sem_wait v = Some v' → v' = v - 1 ∧ 0 ≤ v'.
Proof. unfold sem_wait. destruct (Z.gtb_spec v 0); intros; simplify_eq. lia. Qed.
Ltac split_locked := match goal with |- context [if ?l then _ else _] => case l | _ => idtac end.
Ltac quiet s i Hi Ht :=
  split; [done|];
  let E := fresh "E" in let Hl := fresh "Hl" in
  eapply (pipes_quiet s i _ _ _ Hi Ht);
  [done|done
  |apply (sem_ok_move s i _ _ _ Hi Ht);
   [intros E; pose proof (so_locks _ _ _ (pv_sem _ _ _ Hi) E) as Hl; rewrite ?E; cbn; unfold sem_post; lia
   |cbn; unfold sem_post; lia
   |split_locked; cbn; unfold sem_post; lia
   |split_locked; cbn; unfold sem_post; lia]
  |done
  |split_locked; done
  |split_locked; done
  |split_locked; done
  |intros []; split_locked; done].
Lemma thread_step s i t t' b' new : inv s → s.2 !! i = Some t → i ≠ 0%nat → (t', b', new) ∈ pipe_step locked t s.1 →
  new = None ∧ inv (b', <[i:=t']> s.2).
Proof.
  intros Hi Ht H0 Hr. pose proof (so_slots _ _ _ (pv_sem _ _ _ Hi)) as Hs.
  destruct t; unfold pipe_step, wait_on, post_on in Hr; try by inv_action Hr.
  all: try match type of Hr with context [sem_wait ?v] =>
    let E := fresh "Ew" in destruct (sem_wait v) as [v'|] eqn:E; [apply sem_wait_Some in E as [-> ?]|inv_action Hr] end.
  all: apply list_elem_of_singleton in Hr; injection Hr as -> -> ->.
  all: try (split; [done|]; first [by apply store_step|by apply load_step|by eapply advance_writer|by eapply advance_reader]).
  all: quiet s i Hi Ht.
Qed.

(** ** main *)
Definition counts : list (bthread → Z) := [preP; storedP; pendW; critP; preC; loadedC; pendR; critC].
Definition idle (t : bthread) : Prop := Forall (λ f, f t = 0) counts.
Lemma idle_born r : idle (born r).
Proof. destruct r; repeat constructor. Qed.
Lemma idle_total ts i t t' f : ts !! i = Some t → idle t → idle t' → f ∈ counts → total f (<[i:=t']> ts) = total f ts.
Proof.
  unfold idle. rewrite !Forall_forall. intros Ht Hi Hi' Hf. rewrite (zsum_move _ _ i t) by done. rewrite (Hi f Hf), (Hi' f Hf). lia.
Qed.
Lemma totals_same b ts ts' : (∀ f, f ∈ counts → total f ts' = total f ts) →
  sem_ok locked b ts → data_ok b (total pendW ts) (total pendR ts) → sem_ok locked b ts' ∧ data_ok b (total pendW ts') (total pendR ts').
Proof.
  intros Hf [S1 S2 S3 S4] Hd. assert (total critP ts' = total critP ts ∧ total critC ts' = total critC ts ∧ total preP ts' = total preP ts ∧
    total preC ts' = total preC ts ∧ total storedP ts' = total storedP ts ∧ total loadedC ts' = total loadedC ts ∧
    total pendW ts' = total pendW ts ∧ total pendR ts' = total pendR ts) as (E1 & E2 & E3 & E4 & E5 & E6 & E7 & E8).
  { split_and!; apply Hf; unfold counts; repeat constructor. }
  split; [constructor; by rewrite ?E1, ?E2, ?E3, ?E4, ?E5, ?E6|by rewrite E7, E8].
Qed.
Lemma main_step s t t' b' new : inv s → s.2 !! 0%nat = Some t → (t', b', new) ∈ pipes_step locked roles 0%nat t s.2 s.1 →
  inv (b', start new (<[0%nat:=t']> s.2)).
Proof.
  intros Hi Ht Hr. destruct (pv_main _ _ _ Hi) as [Hm|(k & Hm & Hk & Hun)]; rewrite Ht in Hm; simplify_eq; [cbn in Hr; by inv_action Hr|].
  unfold pipes_step in Hr. assert (0 < length s.2)%nat as Hl0 by (rewrite (pv_table _ _ _ Hi); lia).
  assert (∀ u, idle u → ∀ f, f ∈ counts → total f (<[0%nat:=u]> s.2) = total f s.2) as Htot.
  { intros u Hu f Hf. by apply (idle_total _ 0 (BCreate k)); [|repeat constructor| |]. }
  destruct (roles !! k) as [r|] eqn:E.
  - apply list_elem_of_singleton in Hr. injection Hr as -> -> ->. cbn [start]. pose proof (lookup_lt_Some _ _ _ E) as Hlk.
    assert (<[0%nat:=BCreate (S k)]> s.2 !! S k = Some BUnborn) as Hunk by (rewrite list_lookup_insert_ne by done; apply Hun; lia).
    destruct (totals_same s.1 s.2 (<[S k:=born r]> (<[0%nat:=BCreate (S k)]> s.2))) as [Hs Hd]; [|apply Hi|apply Hi|].
    { intros f Hf. rewrite (idle_total _ (S k) BUnborn) by first [done|apply idle_born|repeat constructor]. apply Htot; [repeat constructor|done]. }
    constructor; cbn [fst snd]; [done|done| | | | |by rewrite !length_insert; apply Hi].
    + intros j u [(<- & <- & _)|(_ & [(<- & <- & _)|(_ & Hu)]%list_lookup_insert_Some)]%list_lookup_insert_Some;
        [by destruct r|done|by eapply (pv_local _ _ _ Hi)].
    + right. exists (S k). rewrite list_lookup_insert_ne, list_lookup_insert_eq by done. split_and!; [done|done|].
      intros j Hj. rewrite !list_lookup_insert_ne by lia. apply Hun. lia.
    + intros j [(_ & Hu & _)|(Hne & Hu)]%list_lookup_insert_Some; [by destruct r|].
      rewrite list_lookup_insert_ne in Hu by done. exists (S k). rewrite list_lookup_insert_ne, list_lookup_insert_eq by done.
      split; [done|]. destruct (pv_born _ _ _ Hi j Hu) as (k' & Hk' & ?). rewrite Ht in Hk'. simplify_eq.
      assert (k' ≠ j) by congruence. lia.
    + intros j u [([= <-] & <- & _)|(_ & Hu)]%list_lookup_insert_Some; [right; exists r; split; [done|by destruct r]|].
      rewrite list_lookup_insert_ne in Hu by done. by apply (pv_role _ _ _ Hi).
  - apply list_elem_of_singleton in Hr. injection Hr as -> -> ->. cbn [start].
    destruct (totals_same s.1 s.2 (<[0%nat:=BJoin]> s.2)) as [Hs Hd]; [|apply Hi|apply Hi|].
    { intros f Hf. apply Htot; [repeat constructor|done]. }
    constructor; cbn [fst snd]; [done|done| | | | |by rewrite !length_insert; apply Hi].
    + intros j u [(<- & <- & _)|(_ & Hu)]%list_lookup_insert_Some; [done|by eapply (pv_local _ _ _ Hi)].
    + left. by rewrite list_lookup_insert_eq.
    + intros j Hu. rewrite list_lookup_insert_ne in Hu by done. destruct (pv_born _ _ _ Hi j Hu) as (k' & Hk' & Hle).
      rewrite Ht in Hk'. simplify_eq. apply lookup_lt_Some in Hu. rewrite (pv_table _ _ _ Hi) in Hu. apply lookup_ge_None in E. lia.
    + intros j u Hu. rewrite list_lookup_insert_ne in Hu by done. by apply (pv_role _ _ _ Hi).
Qed.
Lemma pipes_inv_step s s' : inv s → cstep (pipes_step locked roles) s s' → inv s'.
Proof.
  intros Hi (i & t & t' & g' & new & Ht & Hr & ->)%cstep_inv. destruct i as [|i]; [by eapply main_step|].
  destruct (pv_role _ _ _ Hi i t Ht) as [->|(r & _ & Hok)]; [cbn in Hr; by inv_action Hr|].
  destruct (thread_step s (S i) t t' g' new) as [-> ?]; try done. destruct r, t; cbn in Hok; done.
Qed.
Lemma pipes_inv_init : inv (pipes_init roles).
Proof.
  assert (∀ f, f ∈ counts → total f (BCreate 0 :: replicate (length roles) BUnborn) = 0) as Hz.
  { intros f Hf. apply zsum_zero. intros [|j] u Hu; [cbn in Hu; simplify_eq|apply lookup_replicate in Hu as [-> _]].
    all: revert f Hf; apply Forall_forall; repeat constructor. }
  assert (∀ k t, (BCreate 0 :: replicate (length roles) BUnborn) !! S k = Some t → t = BUnborn) as Hub.
  { intros k t Hk. by apply lookup_replicate in Hk as [-> _]. }
  constructor; cbn [fst snd pipes_init].
  - constructor; rewrite ?Hz by (unfold counts; repeat constructor); cbn; unfold SZ; lia.
  - rewrite !Hz by (unfold counts; repeat constructor). constructor; try done. intros k Hk. cbn in Hk. lia.
  - intros [|i] t Hi; [by cbn in Hi; simplify_eq|]. by apply Hub in Hi as ->.
  - right. exists 0%nat. split_and!; [done|lia|]. intros j Hj. apply lookup_replicate_2. lia.
  - intros k _. exists 0%nat. split; [done|lia].
  - intros k t Hk%Hub. by left.
  - cbn. by rewrite length_replicate.
Qed.

(** ** No deadlock *)
Lemma crit_acts t b : 0 < critP t ∨ 0 < critC t → pipe_step locked t b ≠ [].
Proof. destruct t; cbn; intros [?|?]; done. Qed.
Lemma sem_wait_None v : sem_wait v = None → v ≤ 0.
Proof. unfold sem_wait. destruct (Z.gtb_spec v 0); [done|lia]. Qed.
Lemma stuck_thread s i t : inv s → stuck (pipes_step locked roles) s → s.2 !! S i = Some t → pipe_step locked t s.1 = [].
Proof.
  intros Hi Hs Ht. rewrite stuck_inv in Hs. specialize (Hs _ _ Ht).
  destruct (pv_role _ _ _ Hi i t Ht) as [->|([] & _ & Hok)]; [done| |]; by destruct t.
Qed.
(** With everybody stuck, nobody is past a lock, so nobody waits for one. *)
Lemma stuck_crit s : inv s → stuck (pipes_step locked roles) s → total critP s.2 ≤ 0 ∧ total critC s.2 ≤ 0.
Proof.
  intros Hi Hs. split; apply Z.nlt_ge; intros (j & u & Hu & Hc)%zsum_pos.
  all: destruct j as [|j];
    [destruct (pv_main _ _ _ Hi) as [Hm|(? & Hm & _)]; rewrite Hu in Hm; simplify_eq; cbn in Hc; lia
    |by eapply (crit_acts u s.1); [|by eapply stuck_thread]; auto].
Qed.
Lemma blocked_thread s i t : inv s → stuck (pipes_step locked roles) s → s.2 !! S i = Some t →
  t = BUnborn ∨ (∃ c, t = PWait c) ∧ write_slots s.1 = 0 ∨ t = CWait ∧ read_slots s.1 = 0.
Proof.
  intros Hi Hs Ht. pose proof (stuck_thread s i t Hi Hs Ht) as Hst. destruct (stuck_crit s Hi Hs) as [HP HC].
  pose proof (so_slots _ _ _ (pv_sem _ _ _ Hi)) as Hsl. pose proof (pv_local _ _ _ Hi _ _ Ht) as Hl.
  destruct (pv_role _ _ _ Hi i t Ht) as [->|(r & _ & Hok)]; [by left|right].
  destruct r, t; cbn in Hok; try done; unfold pipe_step, wait_on in Hst; try done.
  - destruct (sem_wait (write_slots s.1)) eqn:E; [done|]. apply sem_wait_None in E. left. split; [eauto|lia].
  - cbn in Hl. destruct (so_locks _ _ _ (pv_sem _ _ _ Hi) Hl) as (_ & Hw & _).
    destruct (sem_wait (write_lock s.1)) eqn:E; [done|]. apply sem_wait_None in E. lia.
  - destruct (sem_wait (read_slots s.1)) eqn:E; [done|]. apply sem_wait_None in E. right. split; [done|lia].
  - cbn in Hl. destruct (so_locks _ _ _ (pv_sem _ _ _ Hi) Hl) as (_ & _ & _ & Hw).
    destruct (sem_wait (read_lock s.1)) eqn:E; [done|]. apply sem_wait_None in E. lia.
Qed.
Lemma pipes_not_stuck s : inv s → true ∈ roles → false ∈ roles → ¬ stuck (pipes_step locked roles) s.
Proof.
  intros Hi [p Hp]%list_elem_of_lookup [q Hq]%list_elem_of_lookup Hs.
  assert (s.2 !! 0%nat = Some BJoin) as Hm.
  { destruct (pv_main _ _ _ Hi) as [Hm|(k & Hm & _)]; [done|]. rewrite stuck_inv in Hs. specialize (Hs _ _ Hm).
    unfold pipes_step in Hs. by destruct (roles !! k). }
  assert (∀ k r, roles !! k = Some r → ∃ t, s.2 !! S k = Some t ∧ role_ok r t ∧
    ((∃ c, t = PWait c) ∧ write_slots s.1 = 0 ∨ t = CWait ∧ read_slots s.1 = 0)) as Hth.
  { intros k r Hr. destruct (lookup_lt_is_Some_2 s.2 (S k)) as [t Ht].
    { rewrite (pv_table _ _ _ Hi). apply lookup_lt_Some in Hr. lia. }
    exists t. split; [done|]. assert (t ≠ BUnborn) as Hb.
    { intros ->. destruct (pv_born _ _ _ Hi k Ht) as (j & Hj & _). rewrite Hm in Hj. by simplify_eq. }
    destruct (pv_role _ _ _ Hi k t Ht) as [|(r' & Hr' & Hok)]; [done|]. rewrite Hr in Hr'. simplify_eq. split; [done|].
    by destruct (blocked_thread s k t Hi Hs Ht). }
  destruct (Hth p true Hp) as (tp & _ & Hop & [[_ Hw]|[-> _]]); [|done].
  destruct (Hth q false Hq) as (tq & _ & Hoq & [[(c & ->) _]|[_ Hr]]); [done|].
  assert (∀ f, f ∈ counts → total f s.2 = 0) as Hz.
  { intros f Hf. apply zsum_zero. intros j u Hu. assert (idle u) as Hid; [|by apply (proj1 (Forall_forall _ _) Hid)].
    destruct j as [|j]; [rewrite Hm in Hu; simplify_eq; repeat constructor|].
    destruct (blocked_thread s j u Hi Hs Hu) as [->|[[(c & ->) _]|[-> _]]]; repeat constructor. }
  destruct (pv_sem _ _ _ Hi) as [_ _ Hu Hroom]. rewrite !Hz in Hu, Hroom by (unfold counts; repeat constructor).
  rewrite Hw, Hr in *. unfold SZ in Hroom. lia.
Qed.
End inv.

(** ** What sempipe.c prints *)
Section alphabet.
Definition letter (k : nat) : Z := 97 + Z.of_nat k mod 26.
Definition upper (c : Z) : Z := c - 97 + 65.
Definition p_char (t : bthread) : option Z :=
  match t with
  | PWait c | PLock c | PIdx c | PStore c _ | PNext c | PSetW c _ | PUnlock c | PPost c => Some c
  | _ => None
  end.
(** The character a consumer has loaded and not yet printed. *)
Definition c_char (t : bthread) : list Z :=
  match t with CNext v | CSetR v _ | CUnlock v | CPost v | CPrint v => [upper v] | _ => [] end.
Record producer_ok (b : pipe) (t : bthread) : Prop := {
  po_in : b_in b = letter <$> seq 0 (length (b_in b));
  po_char c : p_char t = Some c → c = letter (length (b_in b) - Z.to_nat (storedP t));
  po_stored : storedP t = 1 → b_in b ≠ [];
  po_unborn : t = BUnborn → b_in b = [];
}.
Definition consumer_ok (b : pipe) (t : bthread) : Prop := b_printed b ++ c_char t = upper <$> b_out b.
Inductive alphabet_inv : cstate (G:=pipe) (T:=bthread) → Prop :=
  alphabet_inv_intro b m p c : p_char m = None → producer_ok b p → consumer_ok b c → alphabet_inv (b, [m; p; c]).
Lemma next_letter n : next_char (letter n) = letter (S n).
Proof.
  unfold next_char, letter. rewrite Nat2Z.inj_succ. destruct (Z.leb_spec (97 + Z.of_nat n mod 26 + 1) 122) as [H|H].
  - rewrite <- Z.add_1_r, <- Z.add_mod_idemp_l, (Z.mod_small (Z.of_nat n mod 26 + 1)) by (pose proof (Z.mod_pos_bound (Z.of_nat n) 26); lia). lia.
  - pose proof (Z.mod_pos_bound (Z.of_nat n) 26). assert (Z.of_nat n mod 26 = 25) as E by lia.
    rewrite <- Z.add_1_r, <- Z.add_mod_idemp_l, E by done. done.
Qed.

Lemma producer_action t b t' b' new ch : producer_ok b t → p_char t = Some ch → (t', b', new) ∈ pipe_step false t b →
  new = None ∧ producer_ok b' t' ∧ (b_out b', b_printed b') = (b_out b, b_printed b).
Proof.
  intros [P1 P2 P3 _] Hch Hr. specialize (P2 ch Hch). destruct t; cbn in Hch; simplify_eq; unfold pipe_step, wait_on, post_on in Hr.
  1,2: destruct (sem_wait _); inv_action Hr; split_and!; try done; constructor; cbn in *; try done; intros; by simplify_eq.
  2: { inv_action Hr. cbn in *. change (Z.to_nat 0) with 0%nat in Hch. rewrite Nat.sub_0_r in Hch. subst c.
       split_and!; try done. constructor; cbn; rewrite ?length_app; cbn.
       - rewrite seq_app, fmap_app, <- P1. done.
       - intros c' [= <-]. by rewrite Nat.add_sub.
       - intros _ He. by apply app_eq_nil in He as [_ ?].
       - done. }
  5: { inv_action Hr. cbn in *. split_and!; try done. constructor; cbn; try done. intros c' [= <-]. subst c. rewrite next_letter, Nat.sub_0_r.
       f_equal. specialize (P3 eq_refl). destruct (b_in b); [done|]. cbn. lia. }
  all: inv_action Hr; split_and!; try done; constructor; cbn in *; try done; intros; by simplify_eq.
Qed.
Lemma consumer_action t b t' b' new : consumer_ok b t → is_consumer t = 1 → (t', b', new) ∈ pipe_step false t b →
  new = None ∧ consumer_ok b' t' ∧ b_in b' = b_in b.
Proof.
  unfold consumer_ok. intros Hc Hr0 Hr. destruct t; cbn in Hr0; try done; unfold pipe_step, wait_on, post_on in Hr.
  1,2: destruct (sem_wait _); inv_action Hr; done.
  2: { inv_action Hr. split_and!; try done. cbn in *. rewrite fmap_app, <- Hc, app_nil_r. done. }
  all: inv_action Hr; split_and!; try done. cbn in *. by rewrite app_nil_r.
Qed.
Lemma producer_ok_frame b b' t : b_in b' = b_in b → producer_ok b t → producer_ok b' t.
Proof. intros E []. by constructor; rewrite ?E. Qed.
Abbreviation inv := (pipes_inv false [true; false]).
Lemma alphabet_step s s' : inv s → alphabet_inv s → cstep (pipes_step false [true; false]) s s' → alphabet_inv s'.
Proof.
  intros Hi Ha (i & t & t' & g' & new & Ht & Hr & ->)%cstep_inv. destruct Ha as [b m p c Hm Hp Hc]. cbn [fst snd] in *.
  destruct i as [|[|[|]]]; cbn in Ht; simplify_eq; cbn [insert list_insert].
  - destruct (pv_main _ _ _ Hi) as [[= ->]|(k & [= ->] & Hk & Hun)]; [cbn in Hr; inv_action Hr|].
    unfold pipes_step in Hr. destruct k as [|[|[|k]]]; [..|cbn in Hk; lia]; cbn in Hr; inv_action Hr; cbn [start insert list_insert].
    + specialize (Hun 0%nat ltac:(cbn; lia)) as [= ->]. constructor; try done. destruct Hp as [P1 _ _ P4].
      specialize (P4 eq_refl). constructor; cbn; rewrite ?P4; try done. by intros c' [= <-].
    + specialize (Hun 1%nat ltac:(cbn; lia)) as [= ->]. constructor; try done.
    + by constructor.
  - destruct (pv_role _ _ _ Hi 0%nat t eq_refl) as [->|(r & [= <-] & Hok)]; [cbn in Hr; inv_action Hr|].
    assert (∃ ch, p_char t = Some ch) as [ch Hch] by (destruct t; cbn in Hok; try done; eauto).
    destruct (producer_action t b t' g' new ch Hp Hch) as (-> & Hp' & [= E1 E2]); [by destruct t|].
    constructor; try done. unfold consumer_ok in *. by rewrite E1, E2.
  - destruct (pv_role _ _ _ Hi 1%nat t eq_refl) as [->|(r & [= <-] & Hok)]; [cbn in Hr; inv_action Hr|].
    destruct (consumer_action t b t' g' new Hc Hok) as (-> & Hc' & E); [by destruct t|].
    constructor; try done. by eapply producer_ok_frame.
Qed.
End alphabet.
