(* ===== verification/CondVars.v ===== *)
(** * Programs with condition variables: 09/mypipe.c, 09/wait.c,
    09/sems-using-lock-cv.c, 09/alloc.c; and 09/wait-sem.c

    A condition variable is the list of the threads that wait on it. A thread
    that calls [pthread_cond_wait] enters the list and gives up the mutex in
    one action; it goes on when it has been taken off the list and the mutex
    is free. A signal takes one waiting thread off, any of them; a broadcast
    takes all. POSIX also lets a thread wake up without a signal; wait.c is
    modelled with and without that. *)

From S2P Require Import Prelude Conc.

(** The ways to take one off. *)
Definition signal (l : list nat) : list (list nat) :=
  match l with [] => [[]] | _ => imap (λ k _, delete k l) l end.

(** ** mypipe.c *)
Module MyPipe.
Definition SZ : Z := 10.
Record shared := mk_shared {
  buf : list Z; reader : Z; writer : Z;
  m : option nat; full : list nat; empty : list nat;
  sent : list Z; got : list Z;   (* characters stored and loaded so far *)
}.
Definition set_m v g := mk_shared (buf g) (reader g) (writer g) v (full g) (empty g) (sent g) (got g).
Definition set_full v g := mk_shared (buf g) (reader g) (writer g) (m g) v (empty g) (sent g) (got g).
Definition set_empty v g := mk_shared (buf g) (reader g) (writer g) (m g) (full g) v (sent g) (got g).
(** In [pipe_write]: before the lock, at the test, waiting on [full], before
    the store, before [writer] is advanced, before the unlock, before the
    signal; [pipe_read] in the same way. *)
Inductive thread :=
  | Unborn
  | WLock (c : Z) | WTest (c : Z) | WSleep (c : Z) | WStore (c : Z) | WAdvance (c : Z) | WUnlock (c : Z) | WSignal (c : Z)
  | RLock | RTest | RSleep | RLoad | RAdvance (v : Z) | RUnlock (v : Z) | RSignal (v : Z) | RPrint (v : Z)
  | MainCreate (k : nat) | MainJoin.
Definition lock (i : nat) (t : thread) (g : shared) : list (thread * shared * option (nat * thread)) :=
  match m g with None => [(t, set_m (Some i) g, None)] | Some _ => [] end.
Definition next_char (c : Z) : Z := if c + 1 <=? 122 then c + 1 else 97.
(** The mutex keeps other threads away from the buffer, so that the accesses
    of one statement are one action. *)
Definition mypipe_step : actions (G:=shared) (T:=thread) := λ i t ts g,
  match t with
  | Unborn => []
  | WLock c => lock i (WTest c) g
  | WTest c =>
      if (writer g + 1) mod SZ =? reader g then [(WSleep c, set_full (full g ++ [i]) (set_m None g), None)]
      else [(WStore c, g, None)]
  | WSleep c => if bool_decide (i ∈ full g) then [] else lock i (WStore c) g
  | WStore c =>
      [(WAdvance c, mk_shared (<[Z.to_nat (writer g):=c]> (buf g)) (reader g) (writer g) (m g) (full g) (empty g) (sent g ++ [c]) (got g), None)]
  | WAdvance c =>
      [(WUnlock c, mk_shared (buf g) (reader g) ((writer g + 1) mod SZ) (m g) (full g) (empty g) (sent g) (got g), None)]
  | WUnlock c => [(WSignal c, set_m None g, None)]
  | WSignal c => (λ l, (WLock (next_char c), set_empty l g, None)) <$> signal (empty g)
  | RLock => lock i RTest g
  | RTest =>
      if reader g =? writer g then [(RSleep, set_empty (empty g ++ [i]) (set_m None g), None)] else [(RLoad, g, None)]
  | RSleep => if bool_decide (i ∈ empty g) then [] else lock i RLoad g
  | RLoad =>
      let v := default 0 (buf g !! Z.to_nat (reader g)) in
      [(RAdvance v, mk_shared (buf g) (reader g) (writer g) (m g) (full g) (empty g) (sent g) (got g ++ [v]), None)]
  | RAdvance v =>
      [(RUnlock v, mk_shared (buf g) ((reader g + 1) mod SZ) (writer g) (m g) (full g) (empty g) (sent g) (got g), None)]
  | RUnlock v => [(RSignal v, set_m None g, None)]
  | RSignal v => (λ l, (RPrint v, set_full l g, None)) <$> signal (full g)
  | RPrint v => [(RLock, g, None)]
  | MainCreate k => [(if (k =? 0)%nat then MainCreate 1 else MainJoin, g, Some (S k, if (k =? 0)%nat then WLock 97 else RLock))]
  | MainJoin => []
  end.
Definition mypipe_init : cstate (G:=shared) (T:=thread) :=
  (mk_shared (replicate (Z.to_nat SZ) 0) 0 0 None [] [] [] [], [MainCreate 0; Unborn; Unborn]).
End MyPipe.

(** ** A parent waits for its child: wait.c, wait-sem.c, sems-using-lock-cv.c

    The three programs differ in the call that waits and the one that tells.
    [main] starts the parent again and again, in slot 1 of the table; the
    child is in slot 2. What is recorded of the output is whether the child
    of this round has begun ([begun]) and whether a parent has ended before
    its child began ([early]). *)
Module Wait.
Inductive sync := IfCond (spurious : bool) | Semaphore | Zem.
Record shared := mk_shared { done : Z; value : Z; m : option nat; c : list nat; begun : bool; early : bool }.
#[global] Instance shared_eq_dec : EqDecision shared.
Proof. solve_decision. Defined.
Definition set_done v g := mk_shared v (value g) (m g) (c g) (begun g) (early g).
Definition set_value v g := mk_shared (done g) v (m g) (c g) (begun g) (early g).
Definition set_m v g := mk_shared (done g) (value g) v (c g) (begun g) (early g).
Definition set_c v g := mk_shared (done g) (value g) (m g) v (begun g) (early g).
Definition set_begun v g := mk_shared (done g) (value g) (m g) (c g) v (early g).
Definition set_early v g := mk_shared (done g) (value g) (m g) (c g) (begun g) v.
(** [ChildSync k] and [ParentSync k]: before the [k]-th statement of the part
    between the two prints. *)
Inductive thread :=
  | Unborn | Ret | ChildBegin | ChildSync (k : nat) | ChildEnd
  | ParentBegin | ParentCreate | ParentSync (k : nat) | ParentEnd | ParentJoin
  | MainReset | MainCreate | MainJoin.
#[global] Instance thread_eq_dec : EqDecision thread.
Proof. solve_decision. Defined.

Definition result : Type := thread * shared * option (nat * thread).
Definition lock (i : nat) (t : thread) (g : shared) : list result :=
  match m g with None => [(t, set_m (Some i) g, None)] | Some _ => [] end.
(** Inside [pthread_cond_wait], after the mutex was given up. *)
Definition sleep (spurious : bool) (i : nat) (again t : thread) (g : shared) : list result :=
  if bool_decide (i ∈ c g) then if spurious then [(again, set_c (filter (λ j, j ≠ i) (c g)) g, None)] else []
  else lock i t g.

Definition child_tells (y : sync) (i k : nat) (g : shared) : list result :=
  match y, k with
  | Semaphore, _ => [(ChildEnd, set_value (sem_post (value g)) g, None)]
  | _, 0%nat => lock i (ChildSync 1) g
  | IfCond _, 1%nat => [(ChildSync 2, set_done 1 g, None)]
  | Zem, 1%nat => [(ChildSync 2, set_value (value g + 1) g, None)]
  | _, 2%nat => (λ l, (ChildSync 3, set_c l g, None)) <$> signal (c g)
  | _, _ => [(ChildEnd, set_m None g, None)]
  end.
Definition parent_waits (y : sync) (i k : nat) (g : shared) : list result :=
  match y, k with
  | Semaphore, _ => match sem_wait (value g) with Some v => [(ParentEnd, set_value v g, None)] | None => [] end
  | _, 0%nat => lock i (ParentSync 1) g
  | IfCond _, 1%nat =>
      if done g =? 0 then [(ParentSync 2, set_c (c g ++ [i]) (set_m None g), None)] else [(ParentSync 3, g, None)]
  | IfCond sp, 2%nat => sleep sp i (ParentSync 2) (ParentSync 3) g
  | Zem, 1%nat =>
      if value g <=? 0 then [(ParentSync 2, set_c (c g ++ [i]) (set_m None g), None)] else [(ParentSync 3, g, None)]
  | Zem, 2%nat => sleep false i (ParentSync 2) (ParentSync 1) g
  | _, _ => [(ParentEnd, set_m None g, None)]
  end.
Definition returned (j : nat) (ts : list thread) : bool := bool_decide (ts !! j = Some Ret).

Definition wait_step (y : sync) : actions (G:=shared) (T:=thread) := λ i t ts g,
  match t with
  | Unborn | Ret => []
  | ChildBegin => [(ChildSync 0, set_begun true g, None)]
  | ChildSync k => child_tells y i k g
  | ChildEnd => [(Ret, g, None)]
  | ParentBegin => [(ParentCreate, g, None)]
  | ParentCreate => [(ParentSync 0, g, Some (2%nat, ChildBegin))]
  | ParentSync k => parent_waits y i k g
  | ParentEnd => [(ParentJoin, set_early (early g || negb (begun g)) g, None)]
  | ParentJoin => if returned 2 ts then [(Ret, g, None)] else []
  | MainReset => [(MainCreate, match y with IfCond _ => set_done 0 g | _ => g end, None)]
  | MainCreate => [(MainJoin, set_begun false g, Some (1%nat, ParentBegin))]
  | MainJoin => if returned 1 ts then [(MainReset, g, None)] else []
  end.
(** The three programs. *)
Definition wait_c_step (spurious : bool) : actions (G:=shared) (T:=thread) := wait_step (IfCond spurious).
Definition wait_sem_step : actions (G:=shared) (T:=thread) := wait_step Semaphore.
Definition zem_step : actions (G:=shared) (T:=thread) := wait_step Zem.
Definition wait_init : cstate (G:=shared) (T:=thread) := (mk_shared 0 0 None [] false false, [MainReset; Unborn; Unborn]).

#[global] Instance shared_countable : Countable shared :=
  inj_countable' (λ g, (done g, value g, m g, c g, begun g, early g))
    (λ x, let '(a, b, d, e, f, h) := x in mk_shared a b d e f h) (ltac:(by intros [])).
Definition thread_code (t : thread) : nat * nat :=
  match t with
  | Unborn => (0, 0) | Ret => (1, 0) | ChildBegin => (2, 0) | ChildSync k => (3, k) | ChildEnd => (4, 0)
  | ParentBegin => (5, 0) | ParentCreate => (6, 0) | ParentSync k => (7, k) | ParentEnd => (8, 0) | ParentJoin => (9, 0)
  | MainReset => (10, 0) | MainCreate => (11, 0) | MainJoin => (12, 0)
  end%nat.
Definition thread_decode (x : nat * nat) : thread :=
  match x with
  | (0, _) => Unborn | (1, _) => Ret | (2, _) => ChildBegin | (3, k) => ChildSync k | (4, _) => ChildEnd
  | (5, _) => ParentBegin | (6, _) => ParentCreate | (7, k) => ParentSync k | (8, _) => ParentEnd | (9, _) => ParentJoin
  | (10, _) => MainReset | (11, _) => MainCreate | _ => MainJoin
  end%nat.
#[global] Instance thread_countable : Countable thread := inj_countable' thread_code thread_decode (ltac:(by intros [])).

(** No parent ends early, and somebody can always act. *)
Definition wait_ok (y : sync) (s : cstate (G:=shared) (T:=thread)) : bool :=
  negb (early s.1) && negb (bool_decide (length (succs (wait_step y) s) = 0%nat)).
Lemma wait_checked : check_all (succs (wait_step (IfCond false))) (wait_ok (IfCond false)) 200 wait_init = true.
Proof. vm_compute. reflexivity. Qed.
Lemma wait_sem_checked : check_all (succs (wait_step Semaphore)) (wait_ok Semaphore) 200 wait_init = true.
Proof. vm_compute. reflexivity. Qed.
End Wait.

(** ** alloc.c *)
Module Alloc.
Record shared := mk_shared { bytes_left : Z; m : option nat; c : list nat }.
Definition set_bytes v g := mk_shared v (m g) (c g).
Definition set_m v g := mk_shared (bytes_left g) v (c g).
Definition set_c v g := mk_shared (bytes_left g) (m g) v.
(** [my_allocate]: before the lock, at the loop test, waiting, before the
    subtraction, before the unlock; then [my_free], before the lock, the
    addition, the broadcast, the unlock. [main] creates the threads, calls
    [my_free(900)] and joins. The mutex keeps the other threads away from
    [bytes_left], so that an update is one action. *)
Inductive thread :=
  | Unborn | ALock (sz : Z) | ATest (sz : Z) | ASleep (sz : Z) | ASub (sz : Z) | AUnlock (sz : Z)
  | FLock (sz : Z) | FAdd (sz : Z) | FBroadcast (sz : Z) | FUnlock (sz : Z) | Ret
  | MCreate (k : nat) | MLock | MAdd | MBroadcast | MUnlock | MJoin (k : nat).
Definition num_threads : nat := 10.
Definition result : Type := thread * shared * option (nat * thread).
Definition lock (i : nat) (t : thread) (g : shared) : list result :=
  match m g with None => [(t, set_m (Some i) g, None)] | Some _ => [] end.
Definition szs (i : nat) : Z := (Z.of_nat num_threads - Z.of_nat i) * 100.
Definition is_ret (t : option thread) : bool := match t with Some Ret => true | _ => false end.
Definition alloc_step : actions (G:=shared) (T:=thread) := λ i t ts g,
  match t with
  | Unborn | Ret => []
  (* my_allocate *)
  | ALock sz => lock i (ATest sz) g
  | ATest sz =>
      if bytes_left g <? sz then [(ASleep sz, set_c (c g ++ [i]) (set_m None g), None)] else [(ASub sz, g, None)]
  | ASleep sz => if bool_decide (i ∈ c g) then [] else lock i (ATest sz) g
  | ASub sz => [(AUnlock sz, set_bytes (bytes_left g - sz) g, None)]
  | AUnlock sz => [(FLock sz, set_m None g, None)]
  (* my_free *)
  | FLock sz => lock i (FAdd sz) g
  | FAdd sz => [(FBroadcast sz, set_bytes (bytes_left g + sz) g, None)]
  | FBroadcast sz => [(FUnlock sz, set_c [] g, None)]
  | FUnlock sz => [(Ret, set_m None g, None)]
  (* main *)
  | MCreate k => [(if (S k <? num_threads)%nat then MCreate (S k) else MLock, g, Some (S k, ALock (szs k)))]
  | MLock => lock i MAdd g
  | MAdd => [(MBroadcast, set_bytes (bytes_left g + 900) g, None)]
  | MBroadcast => [(MUnlock, set_c [] g, None)]
  | MUnlock => [(MJoin 0, set_m None g, None)]
  | MJoin k => if is_ret (ts !! S k) then [(MJoin (S k), g, None)] else []
  end.
Definition alloc_init : cstate (G:=shared) (T:=thread) := (mk_shared 0 None [], MCreate 0 :: replicate num_threads Unborn).

(** What a thread has; [main] gives 900 bytes. *)
Definition held (t : thread) : Z := match t with AUnlock sz | FLock sz | FAdd sz => sz | _ => 0 end.
Definition given (t : thread) : Z := match t with MBroadcast | MUnlock | MJoin _ => 900 | _ => 0 end.
Definition crit (t : thread) : bool :=
  match t with
  | ATest _ | ASub _ | AUnlock _ | FAdd _ | FBroadcast _ | FUnlock _ | MAdd | MBroadcast | MUnlock => true
  | _ => false
  end.
Definition size_of (t : thread) : option Z :=
  match t with
  | ALock sz | ATest sz | ASleep sz | ASub sz | AUnlock sz | FLock sz | FAdd sz | FBroadcast sz | FUnlock sz => Some sz
  | _ => None
  end.
Definition is_main (t : thread) : bool := match t with MCreate _ | MLock | MAdd | MBroadcast | MUnlock | MJoin _ => true | _ => false end.
Definition waits (sz : Z) (t : thread) : Prop := t = ALock sz ∨ t = ATest sz ∨ t = ASleep sz.
Record alloc_inv (s : cstate (G:=shared) (T:=thread)) : Prop := {
  al_mutex i : m s.1 = Some i ↔ ∃ t, s.2 !! i = Some t ∧ crit t = true;
  al_bytes : bytes_left s.1 + zsum (held <$> s.2) = zsum (given <$> s.2) ∧ 0 ≤ bytes_left s.1;
  al_sub i sz : s.2 !! i = Some (ASub sz) → sz ≤ bytes_left s.1;
  al_size i t sz : s.2 !! i = Some t → size_of t = Some sz → 0 ≤ sz;
  al_main i t : s.2 !! i = Some t → is_main t = true ↔ i = 0%nat;
  al_table : length s.2 = S num_threads ∧ ∀ k, s.2 !! 0%nat = Some (MCreate k) → (k < num_threads)%nat;
  al_unborn j : s.2 !! S j = Some Unborn ↔ ∃ k, s.2 !! 0%nat = Some (MCreate k) ∧ (k ≤ j < num_threads)%nat;
  (* the first thread wants more than there will ever be *)
  al_first t : s.2 !! 1%nat = Some t → t = Unborn ∨ waits (szs 0) t;
}.

Lemma alloc_given s : alloc_inv s → 0 ≤ zsum (held <$> s.2) ∧ zsum (given <$> s.2) ≤ 900.
Proof.
  intros Hi. split.
  - apply zsum_nonneg, Forall_fmap, Forall_lookup. intros i t Ht. unfold compose.
    pose proof (λ sz, al_size _ Hi i t sz Ht) as Hs. destruct t; cbn in *; try done; by apply Hs.
  - destruct (lookup_lt_is_Some_2 s.2 0) as [t Ht]; [rewrite (proj1 (al_table _ Hi)); lia|].
    rewrite (zsum_unique given s.2 0%nat t); [destruct t; cbn; lia|done|].
    intros j u Hu Hj. destruct (is_main u) eqn:E; [by apply (al_main _ Hi _ _ Hu) in E|]. by destruct u.
Qed.
(** The thread that acts, when it creates nobody. *)
Lemma alloc_move s i t t' g' : alloc_inv s → s.2 !! i = Some t →
  (∀ j, m g' = Some j ↔ j = i ∧ crit t' = true ∨ j ≠ i ∧ m s.1 = Some j) →
  bytes_left g' + held t' - given t' = bytes_left s.1 + held t - given t → 0 ≤ bytes_left g' →
  (bytes_left s.1 ≤ bytes_left g' ∨ crit t = true) → (∀ sz, t' = ASub sz → sz ≤ bytes_left g') →
  (∀ sz, size_of t' = Some sz → 0 ≤ sz) → is_main t' = is_main t →
  (match t with Unborn | MCreate _ => False | _ => True end) → (match t' with Unborn | MCreate _ => False | _ => True end) →
  (waits (szs 0) t → waits (szs 0) t') → alloc_inv (g', <[i:=t']> s.2).
Proof.
  intros Hi Ht Hm Hb Hb0 Hgrow Hsub Hsz Hmain Hk Hk' Hw. assert (i < length s.2)%nat as Hlt by (by eapply lookup_lt_Some).
  assert (∀ j u, <[i:=t']> s.2 !! j = Some u ↔ j = i ∧ u = t' ∨ j ≠ i ∧ s.2 !! j = Some u) as Hlook.
  { intros j u. rewrite list_lookup_insert_Some. naive_solver. }
  assert (∀ k, <[i:=t']> s.2 !! 0%nat = Some (MCreate k) ↔ s.2 !! 0%nat = Some (MCreate k)) as Hcr.
  { intros k. rewrite Hlook. destruct (decide (i = 0)%nat) as [->|]; [|naive_solver].
    rewrite Ht. split; [intros [[_ <-]|[? _]]; done|intros [= ->]; done]. }
  constructor; cbn [fst snd].
  - intros j. rewrite Hm, (al_mutex _ Hi). setoid_rewrite Hlook. naive_solver.
  - rewrite !(zsum_move _ _ i t) by done. destruct (al_bytes _ Hi). lia.
  - intros j sz [(-> & <-)|(Hne & Hj)]%Hlook; [by apply Hsub|]. pose proof (al_sub _ Hi j sz Hj). destruct Hgrow as [?|Hc]; [lia|].
    destruct Hne. assert (m s.1 = Some i) as E1 by (apply (al_mutex _ Hi); eauto).
    assert (m s.1 = Some j) as E2 by (apply (al_mutex _ Hi); eauto). congruence.
  - intros j u sz [(-> & ->)|(Hne & Hj)]%Hlook; [by apply Hsz|by eapply (al_size _ Hi)].
  - intros j u [(-> & ->)|(Hne & Hj)]%Hlook; [rewrite Hmain|]; by eapply (al_main _ Hi).
  - rewrite length_insert. split; [apply Hi|]. intros k Hk0%Hcr. by apply (al_table _ Hi).
  - intros j. setoid_rewrite Hcr. rewrite <- (al_unborn _ Hi), Hlook. split; [intros [[_ <-]|[_ ?]]; done|].
    intros Hu. right. split; [|done]. intros <-. rewrite Ht in Hu. by simplify_eq.
  - intros u [(<- & ->)|(Hne & Hj)]%Hlook; [|by apply (al_first _ Hi)].
    right. apply Hw. destruct (al_first _ Hi t Ht) as [->|?]; done.
Qed.
Lemma mutex_own s i t : alloc_inv s → s.2 !! i = Some t → m s.1 = Some i ↔ crit t = true.
Proof.
  intros Hi Ht. rewrite (al_mutex _ Hi). split; [|eauto]. intros (u & Hu & Hc). rewrite Ht in Hu. by simplify_eq.
Qed.
(** The mutex is kept, taken or given up. *)
Definition mutex_moves (i : nat) (t t' : thread) (g g' : shared) : Prop :=
  m g' = m g ∧ crit t' = crit t ∨ m g = None ∧ m g' = Some i ∧ crit t' = true ∨ m g' = None ∧ crit t = true ∧ crit t' = false.
Lemma mutex_moves_owner s i t t' g' : alloc_inv s → s.2 !! i = Some t → mutex_moves i t t' s.1 g' →
  ∀ j, m g' = Some j ↔ j = i ∧ crit t' = true ∨ j ≠ i ∧ m s.1 = Some j.
Proof.
  intros Hi Ht Hm j. pose proof (mutex_own s i t Hi Ht) as Ho. destruct (decide (j = i)) as [->|Hne].
  - destruct Hm as [[-> ->]|[(H1 & H2 & H3)|(H1 & H2 & H3)]]; [rewrite Ho; tauto|rewrite H2; tauto|rewrite H1, H3; naive_solver].
  - destruct Hm as [[-> _]|[(H1 & H2 & _)|(H1 & H2 & _)]]; [tauto| |].
    + rewrite H2, H1. naive_solver.
    + apply Ho in H2. rewrite H1, H2. naive_solver.
Qed.
(** An action that changes neither the bytes nor the table of threads. *)
Definition same_kind (t t' : thread) : Prop :=
  held t' = held t ∧ given t' = given t ∧ is_main t' = is_main t ∧
  (match t with Unborn | MCreate _ => False | _ => True end) ∧ (match t' with Unborn | MCreate _ => False | _ => True end).
Lemma alloc_quiet s i t t' g' : alloc_inv s → s.2 !! i = Some t → mutex_moves i t t' s.1 g' → bytes_left g' = bytes_left s.1 →
  same_kind t t' → (∀ sz, t' = ASub sz → sz ≤ bytes_left s.1) → (size_of t' = size_of t ∨ size_of t' = None) →
  (waits (szs 0) t → waits (szs 0) t') → alloc_inv (g', <[i:=t']> s.2).
Proof.
  intros Hi Ht Hm Hb (H1 & H2 & H3 & H4 & H5) Hsub Hsz Hw. destruct (al_bytes _ Hi) as [_ Hb0].
  eapply (alloc_move s i t); try done; [by eapply mutex_moves_owner|lia|lia|lia|by rewrite Hb|].
  intros sz E. destruct Hsz as [Hsz|Hsz]; [|congruence]. rewrite Hsz in E. by eapply (al_size _ Hi).
Qed.
Lemma create_step s k : alloc_inv s → s.2 !! 0%nat = Some (MCreate k) →
  alloc_inv (s.1, <[S k:=ALock (szs k)]> (<[0%nat:=if (S k <? num_threads)%nat then MCreate (S k) else MLock]> s.2)).
Proof.
  intros Hi Hk. set (m' := if (S k <? num_threads)%nat then MCreate (S k) else MLock).
  assert (is_main m' = true ∧ crit m' = false ∧ held m' = 0 ∧ given m' = 0 ∧ size_of m' = None) as (M1 & M2 & M3 & M4 & M5)
    by (unfold m'; by destruct (_ <? _)%nat).
  destruct (al_table _ Hi) as [Hlen Hlt]. specialize (Hlt k Hk).
  assert (s.2 !! S k = Some Unborn) as Hu by (apply (al_unborn _ Hi); exists k; split; [done|lia]).
  assert (∀ j u, <[S k:=ALock (szs k)]> (<[0%nat:=m']> s.2) !! j = Some u ↔
    j = S k ∧ u = ALock (szs k) ∨ j = 0%nat ∧ u = m' ∨ j ≠ S k ∧ j ≠ 0%nat ∧ s.2 !! j = Some u) as Hlook.
  { intros j u. rewrite !list_lookup_insert_Some, length_insert. naive_solver lia. }
  constructor; cbn [fst snd].
  - intros j. rewrite (al_mutex _ Hi). setoid_rewrite Hlook. split; intros (u & Hu' & Hc).
    + exists u. split; [|done]. right. right. split_and!; [intros ->; rewrite Hu in Hu'; by simplify_eq|intros ->; rewrite Hk in Hu'; by simplify_eq|done].
    + destruct Hu' as [[-> ->]|[[-> ->]|(_ & _ & ?)]]; [done|congruence|eauto].
  - rewrite (zsum_move _ _ (S k) Unborn), (zsum_move _ _ 0%nat (MCreate k)), (zsum_move given _ (S k) Unborn), (zsum_move given _ 0%nat (MCreate k));
      rewrite ?list_lookup_insert_ne by done; try done. rewrite M3, M4. cbn. destruct (al_bytes _ Hi). lia.
  - intros j sz [[-> ?]|[[-> ?]|(_ & _ & ?)]]%Hlook; [done|unfold m' in *; by destruct (_ <? _)%nat|by eapply (al_sub _ Hi)].
  - intros j u sz [[-> ->]|[[-> ->]|(_ & _ & ?)]]%Hlook; [cbn; intros [= <-]; unfold szs; lia|by rewrite M5|by eapply (al_size _ Hi)].
  - intros j u [[-> ->]|[[-> ->]|(_ & _ & ?)]]%Hlook; [done|by rewrite M1|by eapply (al_main _ Hi)].
  - rewrite !length_insert. split; [done|]. intros j [[? _]|[[_ E]|(_ & ? & _)]]%Hlook; [done| |done].
    unfold m' in E. destruct (Nat.ltb_spec (S k) num_threads); by simplify_eq.
  - intros j. rewrite Hlook. split.
    + intros [[_ ?]|[[? _]|(Hj & _ & Hb)]]; [done|done|]. apply (al_unborn _ Hi) in Hb as (k' & Hk' & ?). rewrite Hk in Hk'. simplify_eq.
      exists (S k'). rewrite Hlook. split; [right; left; split; [done|]|lia]. unfold m'. destruct (Nat.ltb_spec (S k') num_threads); [done|lia].
    + intros (k' & [[? _]|[[_ E]|(_ & ? & _)]]%Hlook & Hj); [done| |done]. right. right. unfold m' in E.
      destruct (Nat.ltb_spec (S k) num_threads); simplify_eq. split_and!; [lia|done|]. apply (al_unborn _ Hi). exists k. split; [done|lia].
  - intros u [[E ->]|[[? _]|(_ & _ & ?)]]%Hlook; [|done|by apply (al_first _ Hi)]. right. injection E as <-. by left.
Qed.
Lemma alloc_inv_step s s' : alloc_inv s → cstep alloc_step s s' → alloc_inv s'.
Proof.
  intros Hi (i & t & t' & g' & new & Ht & Hr & ->)%cstep_inv. destruct (al_bytes _ Hi) as [Hb Hb0].
  pose proof (al_size _ Hi i t) as Hsz. destruct (alloc_given s Hi) as [Hh Hg].
  destruct t as [|sz|sz|sz|sz|sz|sz|sz|sz|sz| |k| | | | |k]; unfold alloc_step, lock in Hr; try by inv_action Hr.
  all: try (destruct (bool_decide _); [by inv_action Hr|]).
  all: try (destruct (m s.1) eqn:Em; [by inv_action Hr|]).
  all: try (inv_action Hr; cbn [start]; eapply (alloc_quiet s i _ _ _ Hi Ht);
    [first [by right; left|by right; right|by left]|done|done|done|cbn; auto|intros [?|[?|?]]; simplify_eq; unfold waits; auto; done]).
  - destruct (Z.ltb_spec (bytes_left s.1) sz) as [Hlt|Hge]; inv_action Hr; cbn [start]; eapply (alloc_quiet s i _ _ _ Hi Ht).
    1-6: first [by right; right|done|by left|intros [?|[?|?]]; simplify_eq; unfold waits; auto].
    all: [> by left|done|done|intros sz' [= <-]; lia|by left|].
    intros [?|[[= ->]|?]]; simplify_eq. exfalso. unfold szs, num_threads in *. cbn in Hge. lia.
  - inv_action Hr. cbn [start]. pose proof (al_sub _ Hi i sz Ht). eapply (alloc_move s i _ _ _ Hi Ht); cbn; try done; try lia.
    + apply (mutex_moves_owner s i _ (AUnlock sz) _ Hi Ht). by left.
    + intros sz' [= <-]. by apply Hsz.
    + intros [?|[?|?]]; done.
  - inv_action Hr. cbn [start]. specialize (Hsz sz Ht eq_refl). eapply (alloc_move s i _ _ _ Hi Ht); cbn; try done; try lia.
    + apply (mutex_moves_owner s i _ (FBroadcast sz) _ Hi Ht). by left.
    + intros sz' [= <-]. done.
    + intros [?|[?|?]]; done.
  - inv_action Hr. cbn [start]. pose proof (proj1 (al_main _ Hi i _ Ht) eq_refl) as ->. by apply create_step.
  - inv_action Hr. cbn [start]. eapply (alloc_move s i _ _ _ Hi Ht); cbn; try done; try lia.
    + apply (mutex_moves_owner s i _ MBroadcast _ Hi Ht). by left.
    + intros [?|[?|?]]; done.
  - destruct (is_ret (s.2 !! S k)); inv_action Hr. cbn [start]. eapply (alloc_quiet s i _ _ _ Hi Ht); [by left|done|done|done|by left|].
    intros [?|[?|?]]; done.
Qed.
Lemma alloc_inv_init : alloc_inv alloc_init.
Proof.
  assert (∀ j u, alloc_init.2 !! j = Some u → j = 0%nat ∧ u = MCreate 0 ∨ (1 ≤ j ≤ 10)%nat ∧ u = Unborn) as Hlook.
  { intros [|j] u Hu; [cbn in Hu; simplify_eq; by left|right]. apply lookup_replicate in Hu as [-> ?]. unfold num_threads in *. split; [lia|done]. }
  constructor.
  - intros i. split; [done|]. intros (u & [[_ ->]|[_ ->]]%Hlook & ?); done.
  - split; [by vm_compute|done].
  - intros i sz [[_ ?]|[_ ?]]%Hlook; done.
  - intros i t sz [[_ ->]|[_ ->]]%Hlook ?; done.
  - intros i t [[-> ->]|[? ->]]%Hlook; [done|split; [done|lia]].
  - split; [done|]. intros k [= <-]. unfold num_threads. lia.
  - intros j. split; [intros [[? _]|[? _]]%Hlook; [done|]; exists 0%nat; split; [done|unfold num_threads; lia]|].
    intros (k & [= <-] & ?). change (replicate num_threads Unborn !! j = Some Unborn). apply lookup_replicate_2. lia.
  - intros t [[? _]|[_ ->]]%Hlook; [done|by left].
Qed.
(** [main] never gets past the first join. *)
Lemma alloc_no_join s s' : alloc_inv s → (∀ k, s.2 !! 0%nat ≠ Some (MJoin (S k))) → cstep alloc_step s s' →
  ∀ k, s'.2 !! 0%nat ≠ Some (MJoin (S k)).
Proof.
  intros Hi Hn (i & t & t' & g' & new & Ht & Hr & ->)%cstep_inv k Hk. cbn [snd] in Hk.
  assert (i = 0%nat ∧ t' = MJoin (S k)) as [-> ->].
  { destruct new as [[j u]|]; cbn [start] in Hk.
    - unfold alloc_step, lock in Hr. destruct t; repeat case_match; inv_action Hr;
        (apply list_lookup_insert_Some in Hk as [(? & _ & _)|(_ & Hk)]; [done|]);
        (apply list_lookup_insert_Some in Hk as [(_ & ? & _)|(_ & Hk)]; [done|by apply Hn in Hk]).
    - apply list_lookup_insert_Some in Hk as [(-> & -> & _)|(_ & Hk)]; [done|by apply Hn in Hk]. }
  destruct t; unfold alloc_step, lock in Hr; repeat case_match; inv_action Hr.
  destruct k0 as [|j]; [|by apply Hn in Ht].
  destruct (s.2 !! 1%nat) as [u|] eqn:Eu; [|done]. destruct (al_first _ Hi u Eu) as [->|[->|[->| ->]]]; done.
Qed.
End Alloc.
