(* ===== verification/RwLock.v ===== *)
(** * 09/rw-using-sems.c

    A readers-writer lock out of two semaphores, and its use: writers move
    one unit between two cells of an array, readers add the array up and
    stop the program ([ROops]) when the sum is not zero. Loads and stores of
    the shared variables are actions of their own; [rand] returns anything. *)

From S2P Require Import Prelude Conc.

Record rwshared := mk_rwshared { rw_lock : Z; rw_writelock : Z; rw_readers : Z; rw_x : list Z }.
Definition set_rlock v g := mk_rwshared v (rw_writelock g) (rw_readers g) (rw_x g).
Definition set_wlock v g := mk_rwshared (rw_lock g) v (rw_readers g) (rw_x g).
Definition set_readers v g := mk_rwshared (rw_lock g) (rw_writelock g) v (rw_x g).
Definition set_x v g := mk_rwshared (rw_lock g) (rw_writelock g) (rw_readers g) v.

(** [k] counts the iterations. [inc]: before the lock, the load and the store
    of [x[i]], the load and the store of [x[j]], the unlock. [sum]: the
    statements of [rwlock_acquire_readlock], the loop with its index and [s],
    the statements of [rwlock_release_readlock], the test of [s]. *)
Inductive rthread :=
  | RUnborn | RRet | ROops
  | IWait (k : nat) | ILoad1 (k i j : nat) | IStore1 (k i j : nat) (r : Z) | ILoad2 (k j : nat) | IStore2 (k j : nat) (r : Z) | IPost (k : nat)
  | SWait (k : nat) | SIncr (k : nat) | SSetInc (k : nat) (r : Z) | STest (k : nat) | SWaitW (k : nat) | SPost (k : nat)
  | SSum (k i : nat) (s : Z)
  | RWait (k : nat) (s : Z) | RDecr (k : nat) (s : Z) | RSetDec (k : nat) (s r : Z) | RTest (k : nat) (s : Z) | RPostW (k : nat) (s : Z) | RPost (k : nat) (s : Z)
  | SCheck (k : nat) (s : Z)
  | MCreate (n : nat) | MJoin (n : nat).

Section rw.
(** [SZ], [ITER], and the threads [main] creates: [true] for [inc]. *)
Context (sz iter : nat) (roles : list bool).

Definition rwresult : Type := rthread * rwshared * option (nat * rthread).
Definition wait_lock (t : rthread) (g : rwshared) : list rwresult :=
  match sem_wait (rw_lock g) with Some v => [(t, set_rlock v g, None)] | None => [] end.
Definition wait_wlock (t : rthread) (g : rwshared) : list rwresult :=
  match sem_wait (rw_writelock g) with Some v => [(t, set_wlock v g, None)] | None => [] end.
Definition post_lock (t : rthread) (g : rwshared) : list rwresult := [(t, set_rlock (sem_post (rw_lock g)) g, None)].
Definition post_wlock (t : rthread) (g : rwshared) : list rwresult := [(t, set_wlock (sem_post (rw_writelock g)) g, None)].
Definition cell (g : rwshared) (i : nat) : Z := default 0 (rw_x g !! i).
(** The next iteration, or the end of the loop. *)
Definition inc_next (k : nat) : rthread := if (k <? iter)%nat then IWait k else RRet.
Definition sum_next (k : nat) : rthread := if (k <? iter)%nat then SWait k else RRet.
Definition pairs : list (nat * nat) := i ← seq 0 sz; (λ j, (i, j)) <$> seq 0 sz.

(** The indices are any two; they are chosen with the lock, on which the calls
    of [rand] before it do not depend. *)
Definition inc_step (t : rthread) (g : rwshared) : list rwresult :=
  match t with
  | IWait k =>
      match sem_wait (rw_writelock g) with
      | Some v => (λ ij, (ILoad1 k ij.1 ij.2, set_wlock v g, None)) <$> pairs
      | None => []
      end
  | ILoad1 k i j => [(IStore1 k i j (cell g i), g, None)]
  | IStore1 k i j r => [(ILoad2 k j, set_x (<[i:=s32 (r + 1)]> (rw_x g)) g, None)]
  | ILoad2 k j => [(IStore2 k j (cell g j), g, None)]
  | IStore2 k j r => [(IPost k, set_x (<[j:=s32 (r - 1)]> (rw_x g)) g, None)]
  | IPost k => post_wlock (inc_next (S k)) g
  | _ => []
  end.
Definition rwlock_acquire_readlock (t : rthread) (g : rwshared) : list rwresult :=
  match t with
  | SWait k => wait_lock (SIncr k) g
  | SIncr k => [(SSetInc k (rw_readers g), g, None)]
  | SSetInc k r => [(STest k, set_readers (r + 1) g, None)]
  | STest k => [(if rw_readers g =? 1 then SWaitW k else SPost k, g, None)]
  | SWaitW k => wait_wlock (SPost k) g
  | SPost k => post_lock (SSum k 0 0) g
  | _ => []
  end.
Definition rwlock_release_readlock (t : rthread) (g : rwshared) : list rwresult :=
  match t with
  | RWait k s => wait_lock (RDecr k s) g
  | RDecr k s => [(RSetDec k s (rw_readers g), g, None)]
  | RSetDec k s r => [(RTest k s, set_readers (r - 1) g, None)]
  | RTest k s => [(if rw_readers g =? 0 then RPostW k s else RPost k s, g, None)]
  | RPostW k s => post_wlock (RPost k s) g
  | RPost k s => post_lock (SCheck k s) g
  | _ => []
  end.
Definition sum_step (t : rthread) (g : rwshared) : list rwresult :=
  match t with
  | SSum k i s => if (i <? sz)%nat then [(SSum k (S i) (s32 (s + cell g i)), g, None)] else [(RWait k s, g, None)]
  | SCheck k s => [(if s =? 0 then sum_next (S k) else ROops, g, None)]
  | SWait _ | SIncr _ | SSetInc _ _ | STest _ | SWaitW _ | SPost _ => rwlock_acquire_readlock t g
  | RWait _ _ | RDecr _ _ | RSetDec _ _ _ | RTest _ _ | RPostW _ _ | RPost _ _ => rwlock_release_readlock t g
  | _ => []
  end.
Definition is_done (t : option rthread) : bool := match t with Some RRet => true | _ => false end.
Definition rw_born (writer : bool) : rthread := if writer then inc_next 0 else sum_next 0.
Definition rw_step : actions (G:=rwshared) (T:=rthread) := λ _ t ts g,
  match t with
  | MCreate n =>
      match roles !! n with
      | Some r => [(MCreate (S n), g, Some (S n, rw_born r))]
      | None => [(MJoin 0, g, None)]
      end
  | MJoin n => if is_done (ts !! S n) then [(MJoin (S n), g, None)] else []
  | t => inc_step t g ++ sum_step t g
  end.
(** After [rwlock_init]. *)
Definition rw_init : cstate (G:=rwshared) (T:=rthread) :=
  (mk_rwshared 1 1 0 (replicate sz 0), MCreate 0 :: replicate (length roles) RUnborn).
End rw.

(** ** The invariant *)
Definition inL (t : rthread) : Z :=
  match t with
  | SIncr _ | SSetInc _ _ | STest _ | SWaitW _ | SPost _ | RDecr _ _ | RSetDec _ _ _ | RTest _ _ | RPostW _ _ | RPost _ _ => 1
  | _ => 0
  end.
(** Threads that [readers] counts. *)
Definition counted (t : rthread) : Z :=
  match t with STest _ | SWaitW _ | SPost _ | SSum _ _ _ | RWait _ _ | RDecr _ _ | RSetDec _ _ _ => 1 | _ => 0 end.
Definition inW (t : rthread) : Z :=
  match t with ILoad1 _ _ _ | IStore1 _ _ _ _ | ILoad2 _ _ | IStore2 _ _ _ | IPost _ => 1 | _ => 0 end.
Definition pending (t : rthread) : Z := match t with ILoad2 _ _ | IStore2 _ _ _ => 1 | _ => 0 end.
(** The share of the write lock that the readers have as a group, as seen by
    one thread: the first has still to take it, the last to give it back. *)
Definition first_last (n : Z) (t : rthread) : Z :=
  match t with
  | STest _ => if n =? 1 then -1 else 0
  | SWaitW _ => -1
  | RTest _ _ => if n =? 0 then 1 else 0
  | RPostW _ _ => 1
  | _ => 0
  end.
Definition some_reader (n : Z) : Z := if n >? 0 then 1 else 0.
Abbreviation total f ts := (zsum (f <$> ts)).

Definition rlocal_ok (sz : nat) (g : rwshared) (t : rthread) : Prop :=
  match t with
  | SSetInc _ r => r = rw_readers g
  | RSetDec _ s r => r = rw_readers g ∧ s = 0
  | SWaitW _ => rw_readers g = 1
  | RPostW _ s => rw_readers g = 0 ∧ s = 0
  | ILoad1 _ i j => (i < sz)%nat ∧ (j < sz)%nat
  | IStore1 _ i j r => (i < sz)%nat ∧ (j < sz)%nat ∧ rw_x g !! i = Some r
  | ILoad2 _ j => (j < sz)%nat
  | IStore2 _ j r => (j < sz)%nat ∧ rw_x g !! j = Some r
  | SSum _ i s => (i ≤ sz)%nat ∧ s = s32 (zsum (take i (rw_x g)))
  | RWait _ s | RDecr _ s | RTest _ s | RPost _ s | SCheck _ s => s = 0
  | ROops => False
  | _ => True
  end.
Record rw_inv (sz : nat) (s : cstate (G:=rwshared) (T:=rthread)) : Prop := {
  rv_lock : 0 ≤ rw_lock s.1 ∧ rw_lock s.1 + total inL s.2 = 1;
  rv_readers : rw_readers s.1 = total counted s.2;
  rv_wlock : 0 ≤ rw_writelock s.1 ∧
    rw_writelock s.1 + total inW s.2 + some_reader (rw_readers s.1) + total (first_last (rw_readers s.1)) s.2 = 1;
  rv_x : length (rw_x s.1) = sz ∧ (zsum (rw_x s.1) - total pending s.2) mod 4294967296 = 0;
  rv_local i t : s.2 !! i = Some t → rlocal_ok sz s.1 t;
}.

Section inv.
Context (sz iter : nat) (roles : list bool).
Abbreviation inv := (rw_inv sz).
Implicit Types s : cstate (G:=rwshared) (T:=rthread).

Lemma rcounts t : 0 ≤ inL t ≤ 1 ∧ 0 ≤ counted t ≤ 1 ∧ 0 ≤ inW t ≤ 1 ∧ 0 ≤ pending t ≤ inW t.
Proof. destruct t; cbn; lia. Qed.
Lemma rtotal_at (f : rthread → Z) ts i t : (∀ t, 0 ≤ f t) → ts !! i = Some t → f t ≤ total f ts.
Proof.
  intros Hf Ht. apply (zsum_bound (f <$> ts) i); [|by rewrite list_lookup_fmap, Ht]. apply Forall_fmap, Forall_forall. intros. apply Hf.
Qed.
Lemma rtotal_nonneg (f : rthread → Z) ts : (∀ t, 0 ≤ f t) → 0 ≤ total f ts.
Proof. intros Hf. apply zsum_nonneg, Forall_fmap, Forall_forall. intros. apply Hf. Qed.

(** One thread at a time between the wait and the post of [lock]. *)
Lemma inL_unique s i t : inv s → s.2 !! i = Some t → inL t = 1 → ∀ j u, s.2 !! j = Some u → j ≠ i → inL u = 0.
Proof.
  intros Hi Ht Hl j u Hu Hne. pose proof (rcounts u). destruct (decide (inL u = 0)) as [|Hnz]; [done|destruct Hne].
  symmetry. destruct (rv_lock _ _ Hi). eapply (zsum_only inL s.2); try done; [apply Forall_forall; intros; apply rcounts|lia|lia].
Qed.
Lemma first_last_alone s i t n : inv s → s.2 !! i = Some t → inL t = 1 → total (first_last n) s.2 = first_last n t.
Proof.
  intros Hi Ht Hl. apply (zsum_unique _ _ i); [done|]. intros j u Hu Hne.
  pose proof (inL_unique s i t Hi Ht Hl j u Hu Hne). by destruct u.
Qed.
Lemma first_last_none s n : inv s → ¬ 0 < total inL s.2 → total (first_last n) s.2 = 0.
Proof.
  intros Hi Hn. apply zsum_zero. intros j u Hu. pose proof (rtotal_at inL s.2 j u (λ t, proj1 (proj1 (rcounts t))) Hu).
  pose proof (rcounts u). destruct u; cbn in *; done || lia.
Qed.
(** The readers as a group have the write lock or not. *)
Lemma group_share s : inv s → 0 ≤ some_reader (rw_readers s.1) + total (first_last (rw_readers s.1)) s.2.
Proof.
  intros Hi. assert (0 ≤ some_reader (rw_readers s.1)) as Hs by (unfold some_reader; case_match; lia).
  destruct (decide (0 < total inL s.2)) as [(j & u & Hu & Hp)%zsum_pos|Hn]; [|rewrite first_last_none by done; lia].
  assert (inL u = 1) as Hl by (pose proof (rcounts u); lia). rewrite (first_last_alone s j u) by done.
  pose proof (rv_local _ _ Hi j u Hu) as Hloc. destruct u; cbn in *; try lia; try (case_match; lia).
  - unfold some_reader. destruct (Z.eqb_spec (rw_readers s.1) 1) as [->|]; [done|case_match; lia].
  - by rewrite Hloc.
Qed.
Lemma inW_unique s i t : inv s → s.2 !! i = Some t → inW t = 1 → ∀ j u, s.2 !! j = Some u → j ≠ i → inW u = 0.
Proof.
  intros Hi Ht Hl j u Hu Hne. pose proof (rcounts u). destruct (decide (inW u = 0)) as [|Hnz]; [done|destruct Hne].
  symmetry. destruct (rv_wlock _ _ Hi). pose proof (group_share s Hi).
  eapply (zsum_only inW s.2); try done; [apply Forall_forall; intros; apply rcounts|lia|lia].
Qed.
Lemma pending_alone s i t : inv s → s.2 !! i = Some t → inW t = 1 → total pending s.2 = pending t.
Proof.
  intros Hi Ht Hl. apply (zsum_unique _ _ i); [done|]. intros j u Hu Hne.
  pose proof (inW_unique s i t Hi Ht Hl j u Hu Hne). by destruct u.
Qed.
(** While one thread reads, nobody writes. *)
Lemma reading_excludes s i t : inv s → s.2 !! i = Some t → counted t = 1 → inL t = 0 → total inW s.2 = 0.
Proof.
  intros Hi Ht Hc Hl. destruct (rv_wlock _ _ Hi) as [Hw0 Hw]. pose proof (rv_readers _ _ Hi) as Hr.
  pose proof (rtotal_nonneg inW s.2 (λ t, proj1 (proj1 (proj2 (proj2 (rcounts t)))))) as HW.
  assert (1 ≤ rw_readers s.1) as Hn.
  { rewrite Hr, <- Hc. apply (rtotal_at counted s.2 i t); [|done]. intros. apply rcounts. }
  assert (some_reader (rw_readers s.1) = 1) as Hs by (unfold some_reader; destruct (Z.gtb_spec (rw_readers s.1) 0); lia).
  enough (0 ≤ total (first_last (rw_readers s.1)) s.2) by lia.
  destruct (decide (0 < total inL s.2)) as [(j & u & Hu & Hp)%zsum_pos|Hn0]; [|by rewrite first_last_none].
  assert (inL u = 1) as Hlu by (pose proof (rcounts u); lia). rewrite (first_last_alone s j u) by done.
  assert (counted u = 1 → 2 ≤ rw_readers s.1) as Htwo.
  { intros Hcu. destruct (Z_lt_le_dec (rw_readers s.1) 2) as [Hlt|]; [|done]. exfalso. rewrite Hr in Hlt.
    assert (i = j) as ->; [|rewrite Ht in Hu; simplify_eq; lia].
    eapply (zsum_only counted s.2); try done; [apply Forall_forall; intros; apply rcounts|lia|lia]. }
  pose proof (rv_local _ _ Hi j u Hu) as Hloc. destruct u; cbn in *; try lia.
  - destruct (Z.eqb_spec (rw_readers s.1) 1); lia.
  - case_match; lia.
Qed.

(** ** One action of a thread *)
Lemma rw_move s i t t' g' : inv s → s.2 !! i = Some t →
  0 ≤ rw_lock g' ∧ rw_lock g' + inL t' = rw_lock s.1 + inL t →
  rw_readers g' = rw_readers s.1 - counted t + counted t' →
  0 ≤ rw_writelock g' ∧ rw_writelock g' + inW t' + some_reader (rw_readers g') + total (first_last (rw_readers g')) (<[i:=t']> s.2) =
    rw_writelock s.1 + inW t + some_reader (rw_readers s.1) + total (first_last (rw_readers s.1)) s.2 →
  length (rw_x g') = sz ∧ (zsum (rw_x g') - pending t') mod 4294967296 = (zsum (rw_x s.1) - pending t) mod 4294967296 →
  (∀ j u, s.2 !! j = Some u → j ≠ i → rlocal_ok sz s.1 u → rlocal_ok sz g' u) → rlocal_ok sz g' t' →
  inv (g', <[i:=t']> s.2).
Proof.
  intros Hi Ht [L0 L] R [W0 W] [X0 X] Hloc Hloc'. destruct Hi as [[IL0 IL] IR [IW0 IW] [IX0 IX] Iloc].
  constructor; cbn [fst snd]; rewrite ?(zsum_move inL _ i t), ?(zsum_move counted _ i t), ?(zsum_move inW _ i t), ?(zsum_move pending _ i t) by done.
  - lia.
  - lia.
  - lia.
  - split; [done|]. replace (zsum (rw_x g') - (total pending s.2 - pending t + pending t')) with
      ((zsum (rw_x g') - pending t') - (total pending s.2 - pending t)) by lia.
    rewrite Zminus_mod, X, <- Zminus_mod. rewrite <- IX. f_equal. lia.
  - intros j u [(<- & <- & _)|(Hne & Hu)]%list_lookup_insert_Some; [done|]. by eapply Hloc, Iloc.
Qed.
(** Actions that leave [readers] and the array alone. *)
Lemma rw_quiet s i t t' g' : inv s → s.2 !! i = Some t →
  0 ≤ rw_lock g' ∧ rw_lock g' + inL t' = rw_lock s.1 + inL t →
  0 ≤ rw_writelock g' ∧
    rw_writelock g' + inW t' + first_last (rw_readers s.1) t' = rw_writelock s.1 + inW t + first_last (rw_readers s.1) t →
  rw_readers g' = rw_readers s.1 → rw_x g' = rw_x s.1 → counted t' = counted t → pending t' = pending t →
  rlocal_ok sz s.1 t' → inv (g', <[i:=t']> s.2).
Proof.
  intros Hi Ht L W R X C P Hloc. apply (rw_move s i t); try done; rewrite ?R, ?X, ?P; [lia| | | |].
  - rewrite (zsum_move _ _ i t) by done. lia.
  - split; [apply Hi|done].
  - intros j u _ _. destruct u; cbn; rewrite ?R, ?X; done.
  - destruct t'; cbn in *; rewrite ?R, ?X; done.
Qed.
(** A writer stores one cell. *)
Lemma rw_store s i t t' a v w : inv s → s.2 !! i = Some t → inW t = 1 → inW t' = 1 → inL t = inL t' → counted t' = counted t →
  first_last (rw_readers s.1) t' = first_last (rw_readers s.1) t → rw_x s.1 !! a = Some v →
  (w - v - (pending t' - pending t)) mod 4294967296 = 0 → rlocal_ok sz (set_x (<[a:=w]> (rw_x s.1)) s.1) t' →
  inv (set_x (<[a:=w]> (rw_x s.1)) s.1, <[i:=t']> s.2).
Proof.
  intros Hi Ht HW HW' HL HC HF Ha Hv Hloc. destruct (rv_lock _ _ Hi). destruct (rv_wlock _ _ Hi). destruct (rv_x _ _ Hi).
  apply (rw_move s i t); try done; cbn [rw_lock rw_readers rw_writelock rw_x set_x].
  - lia.
  - lia.
  - rewrite (zsum_move _ _ i t) by done. lia.
  - rewrite length_insert, (zsum_insert _ _ v) by done. split; [done|].
    replace (zsum (rw_x s.1) - v + w - pending t') with ((zsum (rw_x s.1) - pending t) + (w - v - (pending t' - pending t))) by lia.
    rewrite Zplus_mod, Hv, Z.add_0_r. apply Z.mod_mod. lia.
  - intros j u Hu Hne. pose proof (inW_unique s i t Hi Ht HW j u Hu Hne) as Hu0.
    destruct u; cbn in *; try done. intros _. exfalso.
    pose proof (reading_excludes s j _ Hi Hu eq_refl eq_refl) as Hz. pose proof (rtotal_at inW s.2 i t (λ t, proj1 (proj1 (proj2 (proj2 (rcounts t))))) Ht). lia.
Qed.
(** A reader, alone between wait and post, changes [readers]. *)
Lemma rw_count s i t t' n' : inv s → s.2 !! i = Some t → inL t = 1 → inL t' = 1 → inW t' = inW t → pending t' = pending t →
  n' = rw_readers s.1 - counted t + counted t' →
  some_reader n' + first_last n' t' = some_reader (rw_readers s.1) + first_last (rw_readers s.1) t →
  rlocal_ok sz (set_readers n' s.1) t' → inv (set_readers n' s.1, <[i:=t']> s.2).
Proof.
  intros Hi Ht HL HL' HW HP Hn Hs Hloc. destruct (rv_lock _ _ Hi). destruct (rv_wlock _ _ Hi). destruct (rv_x _ _ Hi).
  apply (rw_move s i t); try done; cbn [rw_lock rw_readers rw_writelock rw_x set_readers].
  - lia.
  - split; [done|]. rewrite (zsum_move _ _ i t), !(first_last_alone s i t) by done. lia.
  - rewrite HP. done.
  - intros j u Hu Hne. pose proof (inL_unique s i t Hi Ht HL j u Hu Hne). by destruct u.
Qed.
Lemma s32_mod v w : (s32 (v + w) - v - w) mod 4294967296 = 0.
Proof.
  unfold s32, u32. assert ((v + w) mod 4294967296 = v + w - 4294967296 * ((v + w) / 4294967296)) as E by (apply Z.mod_eq; lia).
  case_match; rewrite E.
  - replace (_ - v - w) with (- ((v + w) / 4294967296) * 4294967296) by lia. apply Z.mod_mul. lia.
  - replace (_ - v - w) with ((- ((v + w) / 4294967296) - 1) * 4294967296) by lia. apply Z.mod_mul. lia.
Qed.
Lemma s32_add a b : s32 (s32 a + b) = s32 (a + b).
Proof.
  unfold s32 at 1 3. assert (u32 (s32 a + b) = u32 (a + b)) as ->; [|done].
  unfold u32, s32. case_match; unfold u32.
  - apply Zplus_mod_idemp_l.
  - replace (a mod 4294967296 - 4294967296 + b) with (a mod 4294967296 + b + (-1) * 4294967296) by lia.
    rewrite Z.mod_add by lia. apply Zplus_mod_idemp_l.
Qed.

Lemma zsum_app1 l z : zsum (l ++ [z]) = zsum l + z.
Proof. unfold zsum. rewrite foldr_app. cbn. induction l as [|y l IH]; cbn; lia. Qed.
Lemma sem_wait_inv v v' : sem_wait v = Some v' → v' = v - 1 ∧ 0 ≤ v'.
Proof. unfold sem_wait. destruct (Z.gtb_spec v 0); intros; simplify_eq. lia. Qed.
Lemma cell_lookup s i : inv s → (i < sz)%nat → rw_x s.1 !! i = Some (cell s.1 i).
Proof. intros Hi Hlt. unfold cell. rewrite <- (proj1 (rv_x _ _ Hi)) in Hlt. by destruct (lookup_lt_is_Some_2 _ _ Hlt) as [v ->]. Qed.
Lemma inc_next_idle k : let t := inc_next iter k in
  inL t = 0 ∧ inW t = 0 ∧ (∀ n, first_last n t = 0) ∧ counted t = 0 ∧ pending t = 0 ∧ ∀ g, rlocal_ok sz g t.
Proof. unfold inc_next. by destruct (_ <? _)%nat. Qed.
Lemma sum_next_idle k : let t := sum_next iter k in
  inL t = 0 ∧ inW t = 0 ∧ (∀ n, first_last n t = 0) ∧ counted t = 0 ∧ pending t = 0 ∧ ∀ g, rlocal_ok sz g t.
Proof. unfold sum_next. by destruct (_ <? _)%nat. Qed.

Lemma inc_thread s i t t' g' new : inv s → s.2 !! i = Some t → (t', g', new) ∈ inc_step sz iter t s.1 →
  new = None ∧ inv (g', <[i:=t']> s.2).
Proof.
  intros Hi Ht Hr. pose proof (rv_lock _ _ Hi) as [HL _]. pose proof (rv_wlock _ _ Hi) as [HW _]. pose proof (rv_local _ _ Hi i t Ht) as Hloc.
  destruct t as [| | |k|k a b|k a b r|k b|k b r|k|k|k|k r|k|k|k|k n z|k z|k z|k z r|k z|k z|k z|k z|n|n];
    unfold inc_step in Hr; try (by inv_action Hr).
  all: cbn in Hloc.
  - destruct (sem_wait (rw_writelock s.1)) as [v|] eqn:E; [|inv_action Hr]. apply sem_wait_inv in E as [-> ?].
    apply list_elem_of_fmap in Hr as ((a & b) & [= -> -> ->] & Hp). split; [done|].
    unfold pairs in Hp. apply list_elem_of_bind in Hp as (a' & Hb & Ha). apply list_elem_of_fmap in Hb as (b' & [= -> ->] & Hb).
    apply elem_of_seq in Ha, Hb. apply (rw_quiet s i (IWait k)); cbn; try done; lia.
  - inv_action Hr. split; [done|]. apply (rw_quiet s i (ILoad1 k a b)); cbn; try done; destruct_and?; split_and!; try done; try lia; by apply cell_lookup.
  - inv_action Hr. split; [done|]. destruct Hloc as (Ha & Hb & Hx). eapply (rw_store s i (IStore1 k a b r)); try done.
    cbn. pose proof (s32_mod r 1) as E. rewrite <- E. f_equal. lia.
  - inv_action Hr. split; [done|]. apply (rw_quiet s i (ILoad2 k b)); cbn; try done; destruct_and?; split_and!; try done; try lia; by apply cell_lookup.
  - inv_action Hr. split; [done|]. destruct Hloc as (Hb & Hx). eapply (rw_store s i (IStore2 k b r)); try done.
    cbn. change (r - 1) with (r + -1). pose proof (s32_mod r (-1)) as E. rewrite <- E. f_equal. lia.
  - unfold post_wlock in Hr. inv_action Hr. split; [done|]. destruct (inc_next_idle (S k)) as (N1 & N2 & N3 & N4 & N5 & N6).
    apply (rw_quiet s i (IPost k)); cbn; unfold sem_post; rewrite ?N1, ?N2, ?N3; try done; cbn; lia.
Qed.
Lemma sum_thread s i t t' g' new : inv s → s.2 !! i = Some t → (t', g', new) ∈ sum_step sz iter t s.1 →
  new = None ∧ inv (g', <[i:=t']> s.2).
Proof.
  intros Hi Ht Hr. pose proof (rv_lock _ _ Hi) as [HL _]. pose proof (rv_wlock _ _ Hi) as [HW _]. pose proof (rv_local _ _ Hi i t Ht) as Hloc.
  assert (0 ≤ rw_readers s.1) as Hn0 by (rewrite (rv_readers _ _ Hi); apply rtotal_nonneg; intros; apply rcounts).
  assert (counted t = 1 → 1 ≤ rw_readers s.1) as Hn1.
  { intros <-. rewrite (rv_readers _ _ Hi). apply (rtotal_at counted s.2 i t); [|done]. intros. apply rcounts. }
  destruct t as [| | |k|k a b|k a b r|k b|k b r|k|k|k|k r|k|k|k|k n z|k z|k z|k z r|k z|k z|k z|k z|n|n];
    unfold sum_step, rwlock_acquire_readlock, rwlock_release_readlock, wait_lock, wait_wlock, post_lock, post_wlock in Hr; try (by inv_action Hr).
  all: cbn in Hloc.
  all: try match type of Hr with context [sem_wait ?v] =>
    let E := fresh "Ew" in destruct (sem_wait v) as [v'|] eqn:E; [apply sem_wait_inv in E as [-> ?]|by inv_action Hr] end.
  (* the actions that only take or give a semaphore, or load *)
  all: try (inv_action Hr; split; [done|]; eapply (rw_quiet s i _ _ _ Hi Ht); cbn; unfold sem_post; (done || lia)).
  - inv_action Hr. split; [done|]. apply (rw_count s i (SSetInc k (rw_readers s.1))); cbn; try done; [lia|].
    unfold some_reader. destruct (Z.gtb_spec (rw_readers s.1 + 1) 0), (Z.gtb_spec (rw_readers s.1) 0), (Z.eqb_spec (rw_readers s.1 + 1) 1); lia.
  - destruct (Z.eqb_spec (rw_readers s.1) 1) as [E|E]; inv_action Hr; split; [done| |done|];
      eapply (rw_quiet s i _ _ _ Hi Ht); cbn; try done; try lia.
    + by rewrite E.
    + destruct (Z.eqb_spec (rw_readers s.1) 1); [done|lia].
  - inv_action Hr. split; [done|]. eapply (rw_quiet s i _ _ _ Hi Ht); cbn; unfold sem_post; try done; try lia. split; [lia|done].
  - destruct Hloc as [Hn Hz]. destruct (Nat.ltb_spec n sz) as [Hlt|Hge]; inv_action Hr; split; [done| |done|];
      eapply (rw_quiet s i _ _ _ Hi Ht); try done; cbn.
    + split; [lia|]. rewrite s32_add, (take_S_r _ _ (cell s.1 n)) by (by apply cell_lookup). by rewrite zsum_app1.
    + pose proof (reading_excludes s i _ Hi Ht eq_refl eq_refl) as HWz. destruct (rv_x _ _ Hi) as [Hlen Hsum].
      assert (total pending s.2 = 0) as Hp.
      { pose proof (zsum_le pending inW s.2). assert (total pending s.2 ≤ total inW s.2) by (apply zsum_le, Forall_forall; intros; apply rcounts).
        pose proof (rtotal_nonneg pending s.2 (λ t, proj1 (proj2 (proj2 (proj2 (rcounts t)))))). lia. }
      rewrite Hp, Z.sub_0_r in Hsum. rewrite take_ge by lia. unfold s32, u32. by rewrite Hsum.
  - destruct Hloc as [-> ->]. inv_action Hr. split; [done|]. specialize (Hn1 eq_refl).
    apply (rw_count s i (RSetDec k 0 (rw_readers s.1))); cbn; try done; [lia|].
    unfold some_reader. destruct (Z.gtb_spec (rw_readers s.1 - 1) 0), (Z.gtb_spec (rw_readers s.1) 0), (Z.eqb_spec (rw_readers s.1 - 1) 0); lia.
  - subst z. destruct (Z.eqb_spec (rw_readers s.1) 0) as [E|E]; inv_action Hr; split; [done| |done|];
      eapply (rw_quiet s i _ _ _ Hi Ht); cbn; try done; try lia.
    + by rewrite E.
    + destruct (Z.eqb_spec (rw_readers s.1) 0); [done|lia].
  - subst z. cbn in Hr. inv_action Hr. split; [done|]. destruct (sum_next_idle (S k)) as (N1 & N2 & N3 & N4 & N5 & N6).
    eapply (rw_quiet s i _ _ _ Hi Ht); rewrite ?N1, ?N2, ?N3; try done; cbn; try lia.
Qed.

(** ** main and the table of threads *)
Definition is_main (t : rthread) : bool := match t with MCreate _ | MJoin _ => true | _ => false end.
Record rw_table (s : cstate (G:=rwshared) (T:=rthread)) : Prop := {
  rt_len : length s.2 = S (length roles);
  rt_main i t : s.2 !! i = Some t → is_main t = true ↔ i = 0%nat;
  rt_born k : s.2 !! S k = Some RUnborn ↔ ∃ j, s.2 !! 0%nat = Some (MCreate j) ∧ (j ≤ k < length roles)%nat;
  rt_join n : s.2 !! 0%nat = Some (MJoin n) → (n ≤ length roles)%nat;
}.
Definition rw_all s : Prop := inv s ∧ rw_table s.

Lemma table_move s i t t' g' : rw_table s → s.2 !! i = Some t → is_main t = is_main t' →
  (match t with RUnborn | MCreate _ => False | _ => True end) → (match t' with RUnborn | MCreate _ => False | _ => True end) →
  (∀ n, t' = MJoin n → (n ≤ length roles)%nat) → rw_table (g', <[i:=t']> s.2).
Proof.
  intros Hi Ht Hm Hk Hk' Hn. assert (i < length s.2)%nat as Hlt by (by eapply lookup_lt_Some).
  assert (∀ j u, <[i:=t']> s.2 !! j = Some u ↔ j = i ∧ u = t' ∨ j ≠ i ∧ s.2 !! j = Some u) as Hlook.
  { intros j u. rewrite list_lookup_insert_Some. naive_solver. }
  assert (∀ k, <[i:=t']> s.2 !! 0%nat = Some (MCreate k) ↔ s.2 !! 0%nat = Some (MCreate k)) as Hcr.
  { intros k. rewrite Hlook. destruct (decide (i = 0)%nat) as [->|]; [|naive_solver].
    rewrite Ht. split; [intros [[_ <-]|[? _]]; done|intros [= ->]; done]. }
  constructor; cbn [snd].
  - rewrite length_insert. apply Hi.
  - intros j u [(-> & ->)|(Hne & Hj)]%Hlook; [rewrite <- Hm|]; by eapply (rt_main _ Hi).
  - intros k. setoid_rewrite Hcr. rewrite <- (rt_born _ Hi), Hlook. split; [intros [[_ <-]|[_ ?]]; done|].
    intros Hu. right. split; [|done]. intros <-. rewrite Ht in Hu. by simplify_eq.
  - intros n [(_ & E)|(_ & Hj)]%Hlook; [by apply Hn|by apply (rt_join _ Hi)].
Qed.
Lemma thread_kind t t' g g' new : (t', g', new) ∈ inc_step sz iter t g ++ sum_step sz iter t g →
  is_main t = false ∧ is_main t' = false ∧ (match t with RUnborn | MCreate _ => False | _ => True end) ∧
  (match t' with RUnborn | MCreate _ => False | _ => True end).
Proof.
  intros Hr. destruct t; cbn in Hr; unfold wait_lock, wait_wlock, post_lock, post_wlock, inc_next, sum_next in Hr;
    try (destruct (sem_wait _)); try (apply list_elem_of_fmap in Hr as (? & [= -> -> ->] & _)); try done; try (rewrite app_nil_r in Hr);
    try (apply list_elem_of_fmap in Hr as (? & [= -> -> ->] & _)); try done;
    repeat case_match; inv_action Hr; done.
Qed.
(** Creating a thread whose counts are all zero. *)
Definition ridle (t : rthread) : Prop :=
  inL t = 0 ∧ inW t = 0 ∧ (∀ n, first_last n t = 0) ∧ counted t = 0 ∧ pending t = 0 ∧ ∀ g, rlocal_ok sz g t.
Lemma idle_move s i t t' : inv s → s.2 !! i = Some t → ridle t → ridle t' → inv (s.1, <[i:=t']> s.2).
Proof.
  intros Hi Ht (A1 & A2 & A3 & A4 & A5 & A6) (B1 & B2 & B3 & B4 & B5 & B6). destruct (rv_lock _ _ Hi), (rv_wlock _ _ Hi).
  apply (rw_quiet s i t); try done; rewrite ?A1, ?A2, ?A3, ?A4, ?A5, ?B1, ?B2, ?B3, ?B4, ?B5; try done; lia.
Qed.
Lemma rw_born_idle r : ridle (rw_born iter r) ∧ is_main (rw_born iter r) = false ∧ rw_born iter r ≠ RUnborn.
Proof. unfold rw_born, inc_next, sum_next. destruct r; destruct (_ <? _)%nat; repeat split; done. Qed.

Lemma create_table s k r : rw_table s → s.2 !! 0%nat = Some (MCreate k) → roles !! k = Some r →
  rw_table (s.1, <[S k:=rw_born iter r]> (<[0%nat:=MCreate (S k)]> s.2)).
Proof.
  intros Hi Hk Hr. pose proof (lookup_lt_Some _ _ _ Hr) as Hlt. destruct (rw_born_idle r) as (_ & Hb & Hbu).
  assert (rw_born iter r = RUnborn → False) as Hbu' by done.
  pose proof (rt_len _ Hi) as Hlen. assert (∀ j u, <[S k:=rw_born iter r]> (<[0%nat:=MCreate (S k)]> s.2) !! j = Some u ↔
    j = S k ∧ u = rw_born iter r ∨ j = 0%nat ∧ u = MCreate (S k) ∨ j ≠ S k ∧ j ≠ 0%nat ∧ s.2 !! j = Some u) as Hlook.
  { intros j u. rewrite !list_lookup_insert_Some, length_insert. naive_solver lia. }
  constructor; cbn [snd].
  - by rewrite !length_insert.
  - intros j u [[-> ->]|[[-> ->]|(_ & _ & ?)]]%Hlook; [by rewrite Hb|done|by eapply (rt_main _ Hi)].
  - intros j. rewrite Hlook. split.
    + intros [[_ ?]|[[? _]|(Hj & _ & Hb')]]; [by destruct Hbu|done|]. apply (rt_born _ Hi) in Hb' as (k' & Hk' & ?). rewrite Hk in Hk'. simplify_eq.
      exists (S k'). rewrite Hlook. split; [by right; left|lia].
    + intros (k' & [[? _]|[[_ E]|(_ & ? & _)]]%Hlook & Hj); [done| |done]. right. right. simplify_eq. split_and!; [lia|done|].
      apply (rt_born _ Hi). exists k. split; [done|lia].
  - intros n [[? _]|[[_ ?]|(_ & ? & _)]]%Hlook; done.
Qed.
Lemma rw_all_step s s' : rw_all s → cstep (rw_step sz iter roles) s s' → rw_all s'.
Proof.
  intros [Hi Hb] (i & t & t' & g' & new & Ht & Hr & ->)%cstep_inv. destruct (is_main t) eqn:Em.
  - pose proof (proj1 (rt_main _ Hb i t Ht) Em) as ->. destruct t as [| | | | | | | | | | | | | | | | | | | | | | |k|n]; try done; unfold rw_step in Hr.
    + destruct (roles !! k) as [r|] eqn:E.
      * apply list_elem_of_singleton in Hr. injection Hr as -> -> ->. cbn [start]. split; [|by apply create_table].
        pose proof (lookup_lt_Some _ _ _ E) as Hlt. assert (s.2 !! S k = Some RUnborn) as Hu by (apply (rt_born _ Hb); exists k; split; [done|lia]).
        apply (idle_move (s.1, <[0%nat:=MCreate (S k)]> s.2) (S k) RUnborn); [|by apply list_lookup_insert_Some; auto|done|apply rw_born_idle].
        by apply (idle_move s 0 (MCreate k)).
      * apply list_elem_of_singleton in Hr. injection Hr as -> -> ->. cbn [start]. split; [by apply (idle_move s 0 (MCreate k))|].
        apply lookup_ge_None in E. constructor; cbn [snd]; rewrite ?length_insert; try apply Hb.
        { intros j u [(<- & <- & _)|(Hne & Hj)]%list_lookup_insert_Some; [done|by eapply (rt_main _ Hb)]. }
        { intros j. rewrite list_lookup_insert_ne by done. split.
          - intros (k' & Hk' & ?)%(rt_born _ Hb). rewrite Ht in Hk'. simplify_eq. lia.
          - intros (k' & [(_ & ? & _)|(? & _)]%list_lookup_insert_Some & _); done. }
        { intros n [(_ & [= <-] & _)|(? & _)]%list_lookup_insert_Some; [lia|done]. }
    + destruct (is_done (s.2 !! S n)) eqn:E; [|by inv_action Hr]. apply list_elem_of_singleton in Hr. injection Hr as -> -> ->. cbn [start].
      split; [by apply (idle_move s 0 (MJoin n))|]. apply (table_move s 0 (MJoin n)); try done. intros n' [= <-].
      destruct (s.2 !! S n) as [u|] eqn:Eu; [|done]. apply lookup_lt_Some in Eu. rewrite (rt_len _ Hb) in Eu. lia.
  - assert ((t', g', new) ∈ inc_step sz iter t s.1 ++ sum_step sz iter t s.1) as Hr' by (by destruct t).
    destruct (thread_kind _ _ _ _ _ Hr') as (_ & K1 & K2 & K3).
    assert (new = None ∧ inv (g', <[i:=t']> s.2)) as [-> Hi'] by (apply elem_of_app in Hr' as [?|?]; [by eapply inc_thread|by eapply sum_thread]).
    split; [done|]. apply (table_move s i t); try done; [by rewrite Em|]. intros n ->. done.
Qed.

Lemma rw_all_init : rw_all (rw_init sz roles).
Proof.
  assert (∀ j u, (rw_init sz roles).2 !! j = Some u → j = 0%nat ∧ u = MCreate 0 ∨ (1 ≤ j ≤ length roles)%nat ∧ u = RUnborn) as Hlook.
  { intros [|j] u Hu; [cbn in Hu; simplify_eq; by left|right]. apply lookup_replicate in Hu as [-> ?]. split; [lia|done]. }
  assert (∀ f, f (MCreate 0) = 0 → f RUnborn = 0 → total f (rw_init sz roles).2 = 0) as Hz.
  { intros f H1 H2. apply zsum_zero. intros j u [[_ ->]|[_ ->]]%Hlook; done. }
  assert (∀ n, zsum (replicate n 0) = 0) as Hr by (induction n; unfold zsum in *; cbn; lia).
  split; constructor; rewrite ?Hz by done; cbn [fst rw_init rw_lock rw_writelock rw_readers rw_x]; try done.
  - split; [apply length_replicate|]. by rewrite Hr.
  - intros i t [[_ ->]|[_ ->]]%Hlook; done.
  - cbn. by rewrite length_replicate.
  - intros i t [[-> ->]|[? ->]]%Hlook; [done|split; [done|lia]].
  - intros k. split; [intros [[? _]|[? _]]%Hlook; [done|]; exists 0%nat; split; [done|lia]|].
    intros (j & [= <-] & ?). change (replicate (length roles) RUnborn !! k = Some RUnborn). apply lookup_replicate_2. lia.
Qed.

(** ** No deadlock *)
Hypothesis cells : (0 < sz)%nat.
Lemma sem_wait_none v : 0 < v → sem_wait v ≠ None.
Proof. unfold sem_wait. destruct (Z.gtb_spec v 0); [done|lia]. Qed.
(** A thread that cannot act waits for a semaphore, or has returned. *)
Lemma rw_blocked s t : inc_step sz iter t s.1 ++ sum_step sz iter t s.1 = [] →
  is_main t = true ∨ t = RUnborn ∨ t = RRet ∨ t = ROops ∨ ((∃ k, t = IWait k ∨ t = SWaitW k) ∧ rw_writelock s.1 ≤ 0) ∨
  ((∃ k, t = SWait k ∨ ∃ z, t = RWait k z) ∧ rw_lock s.1 ≤ 0).
Proof.
  intros [H1 H2]%app_eq_nil. destruct t; try (by cbn in H1, H2); try auto; cbn in H1, H2; unfold wait_lock, wait_wlock in *.
  - destruct (Z_lt_le_dec 0 (rw_writelock s.1)) as [Hp|]; [|eauto 10]. apply sem_wait_none in Hp. destruct (sem_wait _); [|done].
    apply fmap_nil_inv in H1. unfold pairs in H1. destruct sz; [lia|]. by cbn in H1.
  - destruct (Z_lt_le_dec 0 (rw_lock s.1)) as [Hp|]; [|eauto 10]. apply sem_wait_none in Hp. by destruct (sem_wait _).
  - destruct (Z_lt_le_dec 0 (rw_writelock s.1)) as [Hp|]; [|eauto 10]. apply sem_wait_none in Hp. by destruct (sem_wait _).
  - by destruct (match sz with 0%nat => false | S m => (i <=? m)%nat end).
  - destruct (Z_lt_le_dec 0 (rw_lock s.1)) as [Hp|]; [|eauto 10]. apply sem_wait_none in Hp. by destruct (sem_wait _).
Qed.
(** Threads that have all returned, with [main] waiting for none of them. *)
Lemma all_over s : rw_table s → (∀ i t, s.2 !! i = Some t → is_main t = true ∨ t = RUnborn ∨ t = RRet) →
  (∀ t, s.2 !! 0%nat = Some t → is_main t = true → rw_step sz iter roles 0%nat t s.2 s.1 = []) →
  s.2 !! 0%nat = Some (MJoin (length roles)) ∧ ∀ k t, s.2 !! S k = Some t → t = RRet.
Proof.
  intros Hb Hend Hs.
  destruct (lookup_lt_is_Some_2 s.2 0) as [m Hm]; [rewrite (rt_len _ Hb); lia|].
  pose proof (proj2 (rt_main _ Hb 0%nat m Hm) eq_refl) as Hmm. specialize (Hs m Hm Hmm).
  destruct m as [| | | | | | | | | | | | | | | | | | | | | | |k|n]; try done; unfold rw_step in Hs; [by destruct (roles !! k)|].
  assert (∀ k t, s.2 !! S k = Some t → t = RRet) as Hret.
  { intros k t Ht. destruct (Hend _ _ Ht) as [Hm'|[->|?]]; [by apply (rt_main _ Hb _ _ Ht) in Hm'| |done].
    apply (rt_born _ Hb) in Ht as (j & Hj & _). rewrite Hm in Hj. by simplify_eq. }
  split; [|done]. rewrite Hm. pose proof (rt_join _ Hb n Hm) as Hn. do 2 f_equal.
  destruct (decide (n = length roles)) as [|Hne]; [done|exfalso].
  destruct (lookup_lt_is_Some_2 s.2 (S n)) as [u Hu]; [rewrite (rt_len _ Hb); lia|]. rewrite Hu, (Hret n u Hu) in Hs. done.
Qed.
Lemma rw_stuck s : rw_all s → stuck (rw_step sz iter roles) s → s.2 !! 0%nat = Some (MJoin (length roles)) ∧
  ∀ k t, s.2 !! S k = Some t → t = RRet.
Proof.
  intros [Hi Hb] Hs. rewrite stuck_inv in Hs. destruct (rv_lock _ _ Hi) as [L0 HL]. destruct (rv_wlock _ _ Hi) as [W0 HW].
  assert (∀ i t, s.2 !! i = Some t → is_main t = true ∨ t = RUnborn ∨ t = RRet ∨ ((∃ k, t = IWait k ∨ t = SWaitW k) ∧ rw_writelock s.1 ≤ 0) ∨
    ((∃ k, t = SWait k ∨ ∃ z, t = RWait k z) ∧ rw_lock s.1 ≤ 0)) as Hbl.
  { intros i t Ht. destruct (is_main t) eqn:Em; [by left|]. pose proof (rv_local _ _ Hi i t Ht) as Hloc.
    assert (inc_step sz iter t s.1 ++ sum_step sz iter t s.1 = []) as Hn by (specialize (Hs i t Ht); destruct t; first [exact Hs|done]).
    destruct (rw_blocked s t Hn) as [?|[?|[?|[->|[?|?]]]]]; [congruence|auto 10|auto 10|done|auto 10|auto 10]. }
  assert (total inW s.2 = 0) as HW0.
  { apply zsum_zero. intros j u Hu. destruct (Hbl j u Hu) as [Hm|[->|[->|[[(k & [->| ->]) _]|[(k & [->|(z & ->)]) _]]]]]; try done. by destruct u. }
  (* nobody waits for the write lock inside the lock *)
  assert (∀ j k, s.2 !! j = Some (SWaitW k) → False) as Hnw.
  { intros j k Hj. destruct (Hbl j _ Hj) as [?|[?|[?|[[_ Hle]|[(k' & [?|(? & ?)]) _]]]]]; try done.
    rewrite (first_last_alone s j (SWaitW k)) in HW by done. pose proof (rv_local _ _ Hi j _ Hj) as Hr. cbn in Hr. rewrite Hr in HW. cbn in HW. lia. }
  assert (total inL s.2 = 0) as HL0.
  { apply zsum_zero. intros j u Hu. destruct (Hbl j u Hu) as [Hm|[->|[->|[[(k & [->| ->]) _]|[(k & [->|(z & ->)]) _]]]]]; try done; [by destruct u|].
    by destruct (Hnw j k). }
  assert (rw_readers s.1 = 0) as Hr0.
  { rewrite (rv_readers _ _ Hi). apply zsum_zero. intros j u Hu.
    destruct (Hbl j u Hu) as [Hm|[->|[->|[[(k & [->| ->]) _]|[_ Hle]]]]]; try done; [by destruct u|by destruct (Hnw j k)|lia]. }
  rewrite first_last_none, HW0, Hr0 in HW by (done || lia). cbn in HW.
  assert (∀ i t, s.2 !! i = Some t → is_main t = true ∨ t = RUnborn ∨ t = RRet) as Hend.
  { intros i t Ht. destruct (Hbl i t Ht) as [?|[?|[?|[[_ ?]|[_ ?]]]]]; auto; lia. }
  apply all_over; [done|done|]. intros t Ht _. by apply Hs.
Qed.
End inv.
