(* ===== verification/RwCtr.v ===== *)
(** * 09/rw-ctr.c, and rw-using-sems.c as an implementation of it

    The same program over the library's readers-writer lock. The lock is given
    by what POSIX says of it: any number of readers or one writer. The lock of
    rw-using-sems.c implements it: every step of that program is a step of
    this one, or is not seen by it. *)

From S2P Require Import Prelude Conc RwLock.

(** Holders of the lock. *)
Record rwl := mk_rwl { l_w : Z; l_r : Z }.
Definition pthread_rwlock_init : rwl := mk_rwl 0 0.
Definition pthread_rwlock_rdlock (l : rwl) : option rwl := if l_w l =? 0 then Some (mk_rwl 0 (l_r l + 1)) else None.
Definition pthread_rwlock_wrlock (l : rwl) : option rwl := if (l_w l =? 0) && (l_r l =? 0) then Some (mk_rwl 1 0) else None.
Definition pthread_rwlock_unlock (l : rwl) : rwl := if l_w l =? 0 then mk_rwl 0 (l_r l - 1) else mk_rwl 0 (l_r l).

Record cshared := mk_cshared { c_lock : rwl; c_x : list Z }.
Definition set_c_lock v g := mk_cshared v (c_x g).
Definition set_c_x v g := mk_cshared (c_lock g) v.

(** [inc] before its lock, at its two loads and stores and its unlock; [sum]
    before its lock, in its loop, before its unlock and at its test. *)
Inductive cthread :=
  | CUnborn | CRet | COops
  | CWr (k : nat) | CLoad1 (k i j : nat) | CStore1 (k i j : nat) (r : Z) | CLoad2 (k j : nat) | CStore2 (k j : nat) (r : Z) | CWUnlock (k : nat)
  | CRd (k : nat) | CSum (k i : nat) (s : Z) | CRUnlock (k : nat) (s : Z) | CCheck (k : nat) (s : Z)
  | CCreate (n : nat) | CJoin (n : nat).

Section ctr.
Context (sz iter : nat) (roles : list bool).

Definition ctr_inc_next (k : nat) : cthread := if (k <? iter)%nat then CWr k else CRet.
Definition ctr_sum_next (k : nat) : cthread := if (k <? iter)%nat then CRd k else CRet.
Definition c_cell (g : cshared) (i : nat) : Z := default 0 (c_x g !! i).

Definition ctr_inc (t : cthread) (g : cshared) : list (cthread * cshared * option (nat * cthread)) :=
  match t with
  | CWr k =>
      match pthread_rwlock_wrlock (c_lock g) with
      | Some l => (λ ij, (CLoad1 k ij.1 ij.2, set_c_lock l g, None)) <$> pairs sz
      | None => []
      end
  | CLoad1 k i j => [(CStore1 k i j (c_cell g i), g, None)]
  | CStore1 k i j r => [(CLoad2 k j, set_c_x (<[i:=s32 (r + 1)]> (c_x g)) g, None)]
  | CLoad2 k j => [(CStore2 k j (c_cell g j), g, None)]
  | CStore2 k j r => [(CWUnlock k, set_c_x (<[j:=s32 (r - 1)]> (c_x g)) g, None)]
  | CWUnlock k => [(ctr_inc_next (S k), set_c_lock (pthread_rwlock_unlock (c_lock g)) g, None)]
  | _ => []
  end.
Definition ctr_sum (t : cthread) (g : cshared) : list (cthread * cshared * option (nat * cthread)) :=
  match t with
  | CRd k =>
      match pthread_rwlock_rdlock (c_lock g) with
      | Some l => [(CSum k 0 0, set_c_lock l g, None)]
      | None => []
      end
  | CSum k i s => if (i <? sz)%nat then [(CSum k (S i) (s32 (s + c_cell g i)), g, None)] else [(CRUnlock k s, g, None)]
  | CRUnlock k s => [(CCheck k s, set_c_lock (pthread_rwlock_unlock (c_lock g)) g, None)]
  | CCheck k s => [(if s =? 0 then ctr_sum_next (S k) else COops, g, None)]
  | _ => []
  end.
Definition ctr_done (t : option cthread) : bool := match t with Some CRet => true | _ => false end.
Definition ctr_born (writer : bool) : cthread := if writer then ctr_inc_next 0 else ctr_sum_next 0.
Definition ctr_step : actions (G:=cshared) (T:=cthread) := λ _ t ts g,
  match t with
  | CCreate n =>
      match roles !! n with
      | Some r => [(CCreate (S n), g, Some (S n, ctr_born r))]
      | None => [(CJoin 0, g, None)]
      end
  | CJoin n => if ctr_done (ts !! S n) then [(CJoin (S n), g, None)] else []
  | t => ctr_inc t g ++ ctr_sum t g
  end.
Definition ctr_init : cstate (G:=cshared) (T:=cthread) :=
  (mk_cshared pthread_rwlock_init (replicate sz 0), CCreate 0 :: replicate (length roles) CUnborn).
End ctr.

(** ** rw-using-sems.c implements it

    A reader has the lock once it is past the wait for [writelock], or past
    the test when another reader has it already; it gives it back at the post,
    or at the test when other readers remain. *)
Definition abs (t : rthread) : cthread :=
  match t with
  | RUnborn => CUnborn | RRet => CRet | ROops => COops
  | IWait k => CWr k | ILoad1 k i j => CLoad1 k i j | IStore1 k i j r => CStore1 k i j r
  | ILoad2 k j => CLoad2 k j | IStore2 k j r => CStore2 k j r | IPost k => CWUnlock k
  | SWait k | SIncr k | SSetInc k _ | STest k | SWaitW k => CRd k
  | SPost k => CSum k 0 0
  | SSum k i s => CSum k i s
  | RWait k s | RDecr k s | RSetDec k s _ | RTest k s | RPostW k s => CRUnlock k s
  | RPost k s | SCheck k s => CCheck k s
  | MCreate n => CCreate n | MJoin n => CJoin n
  end.
Definition holder (t : rthread) : Z :=
  match t with SPost _ | SSum _ _ _ | RWait _ _ | RDecr _ _ | RSetDec _ _ _ | RTest _ _ | RPostW _ _ => 1 | _ => 0 end.
Definition abs_state (s : cstate (G:=rwshared) (T:=rthread)) : cstate (G:=cshared) (T:=cthread) :=
  (mk_cshared (mk_rwl (total inW s.2) (total holder s.2)) (rw_x s.1), abs <$> s.2).

Section refine.
Context (sz iter : nat) (roles : list bool).
Abbreviation inv := (rw_inv sz).
Implicit Types s : cstate (G:=rwshared) (T:=rthread).

(** Holders are the counted readers, but for the one between the wait and the
    post of [lock]. *)
Definition skew (t : rthread) : Z := match t with STest _ | SWaitW _ => -1 | RTest _ _ | RPostW _ _ => 1 | _ => 0 end.
Lemma holder_skew ts : total holder ts = total counted ts + total skew ts.
Proof. induction ts as [|t ts IH]; [done|]. unfold zsum in *. cbn. rewrite IH. destruct t; cbn; lia. Qed.
Lemma holder_cases s : inv s → total holder s.2 = rw_readers s.1 + total skew s.2 ∧
  ((∃ j u, s.2 !! j = Some u ∧ inL u = 1 ∧ total skew s.2 = skew u ∧
      total (first_last (rw_readers s.1)) s.2 = first_last (rw_readers s.1) u) ∨
   total skew s.2 = 0 ∧ total (first_last (rw_readers s.1)) s.2 = 0).
Proof.
  intros Hi. rewrite holder_skew, <- (rv_readers _ _ Hi). split; [done|].
  destruct (decide (0 < total inL s.2)) as [(j & u & Hu & Hp)%zsum_pos|Hn].
  - left. exists j, u. assert (inL u = 1) as Hl by (pose proof (rcounts u); lia). split_and!; [done|done| |by apply (first_last_alone sz s j u)].
    apply (zsum_unique _ _ j); [done|]. intros i v Hv Hne. pose proof (inL_unique sz s j u Hi Hu Hl i v Hv Hne). by destruct v.
  - right. split; [|by apply (first_last_none sz)]. apply zsum_zero. intros j u Hu.
    pose proof (rtotal_at inL s.2 j u (λ t, proj1 (proj1 (rcounts t))) Hu). pose proof (rcounts u). destruct u; cbn in *; done || lia.
Qed.
Lemma holder_nonneg s : 0 ≤ total holder s.2.
Proof. apply rtotal_nonneg. intros []; cbn; lia. Qed.
Lemma inW_nonneg s : 0 ≤ total inW s.2.
Proof. apply rtotal_nonneg. intros. apply rcounts. Qed.

(** The write lock is free: nobody holds the lock. *)
Lemma wlock_free s : inv s → 0 < rw_writelock s.1 → total inW s.2 = 0 ∧ total holder s.2 = 0.
Proof.
  intros Hi Hw. destruct (rv_wlock _ _ Hi) as [_ He]. pose proof (group_share sz s Hi). pose proof (inW_nonneg s) as HW0. pose proof (holder_nonneg s) as HH0.
  split; [lia|]. destruct (holder_cases s Hi) as [Hh Hc]. rewrite Hh in *.
  assert (some_reader (rw_readers s.1) + total (first_last (rw_readers s.1)) s.2 = 0) as Hg by lia. unfold some_reader in Hg.
  destruct Hc as [(j & u & Hu & Hl & Hs & Hf)|[Hs Hf]]; rewrite Hs, Hf in *; [|destruct (Z.gtb_spec (rw_readers s.1) 0); lia].
  pose proof (rv_local _ _ Hi j u Hu) as Hloc.
  destruct u; cbn in *; try lia; repeat match goal with H : context [?a >? ?b] |- _ => destruct (Z.gtb_spec a b) | H : context [?a =? ?b] |- _ => destruct (Z.eqb_spec a b) end; lia.
Qed.
(** A thread that holds the lock for reading, or may take it: nobody writes. *)
Lemma holder_excludes s i t : inv s → s.2 !! i = Some t → inL t = 1 → first_last (rw_readers s.1) t + some_reader (rw_readers s.1) = 1 → total inW s.2 = 0.
Proof.
  intros Hi Ht Hl Hs. destruct (rv_wlock _ _ Hi) as [? He]. rewrite (first_last_alone sz s i t) in He by done. pose proof (inW_nonneg s). lia.
Qed.

(** A step of one thread that its image takes too. *)
Lemma abs_move s i t t' g' : s.2 !! i = Some t →
  abs_state (g', <[i:=t']> s.2) =
    (mk_cshared (mk_rwl (total inW s.2 - inW t + inW t') (total holder s.2 - holder t + holder t')) (rw_x g'), <[i:=abs t']> (abs <$> s.2)).
Proof. intros Ht. unfold abs_state. cbn [fst snd]. by rewrite !(zsum_move _ _ i t), list_fmap_insert by done. Qed.
Definition unseen s s' : Prop := abs_state s' = abs_state s.
Lemma unseen_move s i t t' g' : s.2 !! i = Some t → abs t' = abs t → inW t' = inW t → holder t' = holder t → rw_x g' = rw_x s.1 →
  unseen s (g', <[i:=t']> s.2).
Proof.
  intros Ht Ha Hw Hh Hx. unfold unseen. rewrite (abs_move s i t) by done. unfold abs_state. rewrite Ha, Hw, Hh, Hx. f_equal; [f_equal; f_equal; lia|].
  apply list_insert_id. by rewrite list_lookup_fmap, Ht.
Qed.
Lemma seen_move s i t t' g' c' : s.2 !! i = Some t → (abs t', c', None) ∈ ctr_step sz iter roles i (abs t) (abs <$> s.2) (abs_state s).1 →
  c' = mk_cshared (mk_rwl (total inW s.2 - inW t + inW t') (total holder s.2 - holder t + holder t')) (rw_x g') →
  cstep (ctr_step sz iter roles) (abs_state s) (abs_state (g', <[i:=t']> s.2)).
Proof.
  intros Ht Hr ->. apply cstep_inv. exists i, (abs t), (abs t'). eexists _, None. split_and!; [|exact Hr|].
  - cbn [abs_state snd]. by rewrite list_lookup_fmap, Ht.
  - cbn [start]. by apply abs_move.
Qed.

(** A step that keeps the counts. *)
Ltac same_counts := unfold abs_state, set_c_x, set_c_lock; cbn; repeat f_equal; lia.

Lemma inc_next_abs k : abs (inc_next iter k) = ctr_inc_next iter k ∧ inW (inc_next iter k) = 0 ∧ holder (inc_next iter k) = 0.
Proof. unfold inc_next, ctr_inc_next. by destruct (_ <? _)%nat. Qed.
Lemma sum_next_abs k : abs (sum_next iter k) = ctr_sum_next iter k ∧ inW (sum_next iter k) = 0 ∧ holder (sum_next iter k) = 0.
Proof. unfold sum_next, ctr_sum_next. by destruct (_ <? _)%nat. Qed.
Lemma writer_alone s i t : inv s → s.2 !! i = Some t → inW t = 1 → total inW s.2 = 1.
Proof.
  intros Hi Ht Hw. rewrite <- Hw. apply (zsum_unique _ _ i); [done|]. intros j u Hu Hne. by apply (inW_unique sz s i t Hi Ht Hw j u).
Qed.

Lemma inc_simulated s i t t' g' new : inv s → s.2 !! i = Some t → (t', g', new) ∈ inc_step sz iter t s.1 →
  cstep (ctr_step sz iter roles) (abs_state s) (abs_state (g', <[i:=t']> s.2)).
Proof.
  intros Hi Ht Hr. destruct t as [| | |k|k a b|k a b r|k b|k b r|k|k|k|k r|k|k|k|k n z|k z|k z|k z r|k z|k z|k z|k z|n|n];
    unfold inc_step in Hr; try (by inv_action Hr).
  - destruct (sem_wait (rw_writelock s.1)) as [v|] eqn:E; [|inv_action Hr]. apply sem_wait_inv in E as [-> ?].
    apply list_elem_of_fmap in Hr as ((a & b) & [= -> -> ->] & Hp). destruct (wlock_free s Hi) as [HW HH]; [lia|].
    eapply (seen_move s i (IWait k)); [done| |reflexivity]. cbn [abs ctr_step ctr_inc]. unfold pthread_rwlock_wrlock. cbn [abs_state fst c_lock l_w l_r].
    rewrite HW, HH. cbn. rewrite app_nil_r. apply list_elem_of_fmap. by exists (a, b).
  - inv_action Hr. eapply (seen_move s i (ILoad1 k a b)); [done|by left|]. same_counts.
  - inv_action Hr. eapply (seen_move s i (IStore1 k a b r)); [done|by left|]. same_counts.
  - inv_action Hr. eapply (seen_move s i (ILoad2 k b)); [done|by left|]. same_counts.
  - inv_action Hr. eapply (seen_move s i (IStore2 k b r)); [done|by left|]. same_counts.
  - unfold post_wlock in Hr. inv_action Hr. destruct (inc_next_abs (S k)) as (N1 & N2 & N3). pose proof (writer_alone s i (IPost k) Hi Ht eq_refl) as HW.
    eapply (seen_move s i (IPost k)); [done|rewrite N1; by left|]. unfold abs_state, set_c_lock, pthread_rwlock_unlock. cbn. rewrite N2, N3, HW. cbn.
    same_counts.
Qed.
(** A reader that takes or gives back the lock. *)
Lemma rdlock_seen s i t k g' : s.2 !! i = Some t → abs t = CRd k → inW t = 0 → holder t = 0 → rw_x g' = rw_x s.1 →
  total inW s.2 = 0 → cstep (ctr_step sz iter roles) (abs_state s) (abs_state (g', <[i:=SPost k]> s.2)).
Proof.
  intros Ht Ha Hw Hh Hx HW. eapply (seen_move s i t); [done| |].
  - rewrite Ha. cbn [abs ctr_step ctr_inc ctr_sum app]. unfold pthread_rwlock_rdlock. cbn. rewrite HW. by left.
  - rewrite Hw, Hh, Hx, HW. same_counts.
Qed.
Lemma unlock_seen s i t k z g' : s.2 !! i = Some t → abs t = CRUnlock k z → inW t = 0 → holder t = 1 → rw_x g' = rw_x s.1 →
  total inW s.2 = 0 → cstep (ctr_step sz iter roles) (abs_state s) (abs_state (g', <[i:=RPost k z]> s.2)).
Proof.
  intros Ht Ha Hw Hh Hx HW. eapply (seen_move s i t); [done| |].
  - rewrite Ha. by left.
  - unfold set_c_lock, pthread_rwlock_unlock. cbn. rewrite Hw, Hh, Hx, HW. same_counts.
Qed.
Lemma sum_simulated s i t t' g' new : inv s → s.2 !! i = Some t → (t', g', new) ∈ sum_step sz iter t s.1 →
  unseen s (g', <[i:=t']> s.2) ∨ cstep (ctr_step sz iter roles) (abs_state s) (abs_state (g', <[i:=t']> s.2)).
Proof.
  intros Hi Ht Hr. pose proof (rv_local _ _ Hi i t Ht) as Hloc. pose proof (rv_wlock _ _ Hi) as [HW0 _].
  assert (counted t = 1 → 1 ≤ rw_readers s.1) as Hn1.
  { intros <-. rewrite (rv_readers _ _ Hi). apply (rtotal_at counted s.2 i t); [|done]. intros. apply rcounts. }
  assert (0 ≤ rw_readers s.1) as Hn0 by (rewrite (rv_readers _ _ Hi); apply rtotal_nonneg; intros; apply rcounts).
  destruct t as [| | |k|k a b|k a b r|k b|k b r|k|k|k|k r|k|k|k|k n z|k z|k z|k z r|k z|k z|k z|k z|n|n];
    unfold sum_step, rwlock_acquire_readlock, rwlock_release_readlock, wait_lock, wait_wlock, post_lock, post_wlock in Hr; try (by inv_action Hr).
  all: try match type of Hr with context [sem_wait ?v] =>
    let E := fresh "Ew" in destruct (sem_wait v) as [v'|] eqn:E; [apply sem_wait_inv in E as [-> ?]|by inv_action Hr] end.
  (* what happens under [lock] is not seen *)
  all: try (inv_action Hr; left; eapply (unseen_move s i _ _ _ Ht); reflexivity).
  - specialize (Hn1 eq_refl). destruct (Z.eqb_spec (rw_readers s.1) 1) as [E|E]; inv_action Hr; [left; by eapply (unseen_move s i _ _ _ Ht)|right].
    apply (rdlock_seen s i (STest k)); try done. apply (holder_excludes s i (STest k)); try done. cbn. unfold some_reader.
    rewrite (proj2 (Z.eqb_neq _ _) E). destruct (Z.gtb_spec (rw_readers s.1) 0); lia.
  - inv_action Hr. right. apply (rdlock_seen s i (SWaitW k)); try done. apply (wlock_free s Hi). lia.
  - destruct (Nat.ltb_spec n sz) as [Hlt|Hge]; inv_action Hr; right; (eapply (seen_move s i (SSum k n z)); [done| |]).
    + cbn [abs ctr_step ctr_inc ctr_sum app]. rewrite (proj2 (Nat.ltb_lt _ _) Hlt). by left.
    + same_counts.
    + cbn [abs ctr_step ctr_inc ctr_sum app]. rewrite (proj2 (Nat.ltb_ge _ _) Hge). by left.
    + same_counts.
  - destruct (Z.eqb_spec (rw_readers s.1) 0) as [E|E]; inv_action Hr; [left; by eapply (unseen_move s i _ _ _ Ht)|right].
    apply (unlock_seen s i (RTest k z)); try done. apply (holder_excludes s i (RTest k z)); try done. cbn. unfold some_reader.
    rewrite (proj2 (Z.eqb_neq _ _) E). destruct (Z.gtb_spec (rw_readers s.1) 0); lia.
  - inv_action Hr. right. destruct Hloc as [E _]. apply (unlock_seen s i (RPostW k z)); try done.
    apply (holder_excludes s i (RPostW k z)); try done. cbn. by rewrite E.
  - cbn in Hr. inv_action Hr. right. destruct (sum_next_abs (S k)) as (N1 & N2 & N3). eapply (seen_move s i (SCheck k z)); [done| |].
    + cbn [abs ctr_step ctr_inc ctr_sum app]. rewrite <- N1. destruct (z =? 0); by left.
    + unfold abs_state. destruct (z =? 0); rewrite ?N2, ?N3; same_counts.
Qed.

Lemma born_abs r : abs (rw_born iter r) = ctr_born iter r ∧ inW (rw_born iter r) = 0 ∧ holder (rw_born iter r) = 0.
Proof. destruct r; [apply inc_next_abs|apply sum_next_abs]. Qed.
Lemma main_simulated s s' i t t' g' new : rw_table roles s → s.2 !! i = Some t → is_main t = true →
  (t', g', new) ∈ rw_step sz iter roles i t s.2 s.1 → s' = (g', start new (<[i:=t']> s.2)) →
  cstep (ctr_step sz iter roles) (abs_state s) (abs_state s').
Proof.
  intros Hb Ht Em Hr ->. pose proof (proj1 (rt_main _ _ Hb i t Ht) Em) as ->.
  destruct t as [| | | | | | | | | | | | | | | | | | | | | | |k|n]; try done; unfold rw_step in Hr.
  - destruct (roles !! k) as [r|] eqn:E; inv_action Hr; cbn [start].
    + assert (s.2 !! S k = Some RUnborn) as Hu.
      { apply (rt_born _ _ Hb). exists k. split; [done|]. apply lookup_lt_Some in E. lia. }
      destruct (born_abs r) as (N1 & N2 & N3). apply cstep_inv. exists 0%nat, (CCreate k), (CCreate (S k)), (abs_state s).1, (Some (S k, ctr_born iter r)).
      split_and!; [cbn; by rewrite list_lookup_fmap, Ht|cbn [ctr_step]; rewrite E; by left|].
      pose proof (abs_move (s.1, <[0%nat:=MCreate (S k)]> s.2) (S k) RUnborn (rw_born iter r) s.1) as Hm. cbn [snd] in Hm.
      rewrite Hm by (by rewrite list_lookup_insert_ne). cbn [start]. rewrite N1, N2, N3, !(zsum_move _ _ 0 (MCreate k)), list_fmap_insert by done. f_equal. same_counts.
    + eapply (seen_move s 0 (MCreate k)); [done|cbn [abs ctr_step]; rewrite E; by left|]. same_counts.
  - destruct (is_done (s.2 !! S n)) eqn:E; inv_action Hr. cbn [start].
    eapply (seen_move s 0 (MJoin n)); [done|cbn [abs ctr_step]; rewrite list_lookup_fmap|].
    + destruct (s.2 !! S n) as [[]|]; try done. by left.
    + same_counts.
Qed.
Lemma rw_simulated s s' : rw_all sz roles s → cstep (rw_step sz iter roles) s s' →
  unseen s s' ∨ cstep (ctr_step sz iter roles) (abs_state s) (abs_state s').
Proof.
  intros [Hi Hb] (i & t & t' & g' & new & Ht & Hr & Hs')%cstep_inv. destruct (is_main t) eqn:Em; [right; by eapply main_simulated|].
  assert ((t', g', new) ∈ inc_step sz iter t s.1 ++ sum_step sz iter t s.1) as [Hr'|Hr']%elem_of_app by (by destruct t); subst s'.
  - destruct (inc_thread sz iter s i t t' g' new) as [-> _]; [done..|]. right. by eapply inc_simulated.
  - destruct (sum_thread sz iter s i t t' g' new) as [-> _]; [done..|]. by eapply sum_simulated.
Qed.
Lemma abs_init : abs_state (rw_init sz roles) = ctr_init sz roles.
Proof.
  assert (∀ f : rthread → Z, f (MCreate 0) = 0 → f RUnborn = 0 → total f (MCreate 0 :: replicate (length roles) RUnborn) = 0) as Hz.
  { intros f H1 H2. apply zsum_zero. intros [|j] u; cbn; [by intros [= <-]|]. by intros [-> _]%lookup_replicate. }
  unfold abs_state, rw_init, ctr_init. cbn [fst snd rw_x]. rewrite !Hz by done. cbn [fmap list_fmap]. by rewrite fmap_replicate.
Qed.

(** ** And has all its behaviours

    When no thread is between the wait and the post of [lock], every step of
    rw-ctr.c is matched by a run of rw-using-sems.c in which one thread acts. *)
Definition settled s : Prop := ∀ i t, s.2 !! i = Some t → inL t = 0.
Definition own (x y : rthread * rwshared) : Prop :=
  (y.1, y.2, None) ∈ inc_step sz iter x.1 x.2 ++ sum_step sz iter x.1 x.2.
Lemma own_run x y ts i : rtc own x y → ts !! i = Some x.1 → rtc (cstep (rw_step sz iter roles)) (x.2, ts) (y.2, <[i:=y.1]> ts).
Proof.
  intros Hr. revert ts. induction Hr as [x|x y z Hxy Hyz IH]; intros ts Ht; [by rewrite list_insert_id|].
  assert (i < length ts)%nat as Hlt by (by eapply lookup_lt_Some).
  eapply rtc_l; [|rewrite <- (list_insert_insert_eq ts i (z.1) (y.1)); apply IH; by apply list_lookup_insert_eq].
  apply cstep_inv. exists i, x.1, y.1, y.2, None. split_and!; [done| |done]. unfold own in Hxy. destruct x as [[] ?]; try exact Hxy; by apply elem_of_nil in Hxy.
Qed.
Lemma settled_counts s : inv s → settled s → rw_lock s.1 = 1 ∧ total holder s.2 = rw_readers s.1 ∧
  rw_writelock s.1 + total inW s.2 + some_reader (rw_readers s.1) = 1.
Proof.
  intros Hi Hs. destruct (rv_lock _ _ Hi) as [_ HL]. rewrite (zsum_zero inL s.2) in HL by exact Hs. destruct (rv_wlock _ _ Hi) as [_ HW].
  destruct (holder_cases s Hi) as [Hh [(j & u & Hu & Hl & _)|[Hk Hf]]]; [rewrite (Hs j u Hu) in Hl; lia|]. split_and!; lia.
Qed.
Lemma settled_move s i t' g' : settled s → inL t' = 0 → settled (g', <[i:=t']> s.2).
Proof. intros Hs Ht j u [(_ & <- & _)|(_ & Hj)]%list_lookup_insert_Some; [done|by eapply Hs]. Qed.

Ltac own_step := eapply (rtc_l _ _ (_, _)); [unfold own;
  cbn [fst snd inc_step sum_step rwlock_acquire_readlock rwlock_release_readlock app wait_lock wait_wlock post_lock post_wlock
    rw_lock rw_writelock rw_readers rw_x set_rlock set_wlock set_readers sem_wait sem_post];
  try change (1 >? 0) with true; cbv iota; left|cbn [fst snd]].
Lemma acquire_run k g : rw_lock g = 1 → 0 ≤ rw_readers g → (rw_readers g = 0 → rw_writelock g = 1) →
  ∃ w, rtc own (SWait k, g) (SSum k 0 0, mk_rwshared 1 w (rw_readers g + 1) (rw_x g)).
Proof.
  destruct g as [l w n x]. cbn [rw_lock rw_writelock rw_readers rw_x]. intros -> Hn Hw.
  destruct (decide (n = 0)) as [->|Hne]; [rewrite Hw by done; exists 0|exists w]; do 4 own_step.
  - do 2 own_step. done.
  - rewrite (proj2 (Z.eqb_neq (n + 1) 1)) by lia. own_step. done.
Qed.
Lemma release_run k z g : rw_lock g = 1 → 0 < rw_readers g →
  ∃ w, rtc own (RWait k z, g) (SCheck k z, mk_rwshared 1 w (rw_readers g - 1) (rw_x g)).
Proof.
  destruct g as [l w n x]. cbn [rw_lock rw_writelock rw_readers rw_x]. intros -> Hn.
  destruct (decide (n = 1)) as [->|Hne]; [exists (w + 1)|exists w]; do 4 own_step.
  - do 2 own_step. done.
  - rewrite (proj2 (Z.eqb_neq (n - 1) 0)) by lia. own_step. done.
Qed.

Definition matched s (c' : cstate (G:=cshared) (T:=cthread)) : Prop :=
  ∃ s', rtc (cstep (rw_step sz iter roles)) s s' ∧ settled s' ∧ abs_state s' = c'.
Lemma matched_own s i t t' g' c' ct : s.2 !! i = Some t → settled s → rtc own (t, s.1) (t', g') → inL t' = 0 → ct = abs t' →
  c' = mk_cshared (mk_rwl (total inW s.2 - inW t + inW t') (total holder s.2 - holder t + holder t')) (rw_x g') →
  matched s (c', <[i:=ct]> (abs <$> s.2)).
Proof.
  intros Ht Hs Hr Hl -> ->. exists (g', <[i:=t']> s.2). split_and!.
  - destruct s as [g ts]. exact (own_run (t, g) (t', g') ts i Hr Ht).
  - by apply settled_move.
  - by apply abs_move.
Qed.
Lemma inc_matched s i t c' ct new : inv s → settled s → s.2 !! i = Some t → (ct, c', new) ∈ ctr_inc sz iter (abs t) (abs_state s).1 →
  new = None ∧ matched s (c', <[i:=ct]> (abs <$> s.2)).
Proof.
  intros Hi Hs Ht Hr. pose proof (Hs i t Ht) as Hl. destruct (settled_counts s Hi Hs) as (HL & HH & HW). pose proof (inW_nonneg s) as HW0. pose proof (holder_nonneg s) as HH0.
  destruct t as [| | |k|k a b|k a b r|k b|k b r|k|k|k|k r|k|k|k|k n z|k z|k z|k z r|k z|k z|k z|k z|n|n]; try done; cbn [abs ctr_inc] in Hr; try (by inv_action Hr).
  - unfold pthread_rwlock_wrlock in Hr. cbn [abs_state fst c_lock l_w l_r] in Hr.
    destruct (Z.eqb_spec (total inW s.2) 0) as [E1|]; cbn [andb] in Hr; [|by inv_action Hr].
    destruct (Z.eqb_spec (total holder s.2) 0) as [E2|]; [|by inv_action Hr].
    apply list_elem_of_fmap in Hr as ([a b] & [= -> -> ->] & Hp). split; [done|].
    eapply (matched_own s i _ (ILoad1 k a b) (set_wlock (rw_writelock s.1 - 1) s.1)); [done|done|apply rtc_once|done|done|same_counts].
    unfold own. cbn [fst snd inc_step]. unfold sem_wait. rewrite <- HH, E1, E2 in HW. change (some_reader 0) with 0 in HW.
    destruct (Z.gtb_spec (rw_writelock s.1) 0); [|lia]. apply elem_of_app. left. apply list_elem_of_fmap. by exists (a, b).
  - inv_action Hr. split; [done|]. eapply (matched_own s i _ (IStore1 k a b (cell s.1 a))); [done|done|apply rtc_once; by left|done|done|same_counts].
  - inv_action Hr. split; [done|]. eapply (matched_own s i _ (ILoad2 k b)); [done|done|apply rtc_once; by left|done|done|same_counts].
  - inv_action Hr. split; [done|]. eapply (matched_own s i _ (IStore2 k b (cell s.1 b))); [done|done|apply rtc_once; by left|done|done|same_counts].
  - inv_action Hr. split; [done|]. eapply (matched_own s i _ (IPost k)); [done|done|apply rtc_once; by left|done|done|same_counts].
  - inv_action Hr. split; [done|]. destruct (inc_next_abs (S k)) as (N1 & N2 & N3). pose proof (writer_alone s i _ Hi Ht eq_refl) as HW1.
    eapply (matched_own s i _ (inc_next iter (S k))); [done|done|apply rtc_once; by left|apply inc_next_idle; exact 0%nat|done|].
    unfold pthread_rwlock_unlock. cbn [abs_state fst c_lock l_w l_r]. rewrite N2, N3, HW1. same_counts.
Qed.
Lemma sum_matched s i t c' ct new : inv s → settled s → s.2 !! i = Some t → (ct, c', new) ∈ ctr_sum sz iter (abs t) (abs_state s).1 →
  new = None ∧ matched s (c', <[i:=ct]> (abs <$> s.2)).
Proof.
  intros Hi Hs Ht Hr. pose proof (Hs i t Ht) as Hl. destruct (settled_counts s Hi Hs) as (HL & HH & HW). pose proof (inW_nonneg s) as HW0. pose proof (holder_nonneg s) as HH0.
  destruct t as [| | |k|k a b|k a b r|k b|k b r|k|k|k|k r|k|k|k|k n z|k z|k z|k z r|k z|k z|k z|k z|n|n]; try done; cbn [abs ctr_sum] in Hr; try (by inv_action Hr).
  - unfold pthread_rwlock_rdlock in Hr. cbn [abs_state fst c_lock l_w l_r] in Hr.
    destruct (Z.eqb_spec (total inW s.2) 0) as [E|]; inv_action Hr. split; [done|].
    destruct (acquire_run k s.1) as [w Hrun]; [done|lia|intros E0; rewrite E0 in HW; change (some_reader 0) with 0 in HW; lia|].
    eapply (matched_own s i _ (SSum k 0 0)); [done|done|exact Hrun|done|done|same_counts].
  - destruct (Nat.ltb_spec n sz) as [Hlt|Hge]; inv_action Hr; (split; [done|]);
      [eapply (matched_own s i _ (SSum k (S n) (s32 (z + cell s.1 n))))|eapply (matched_own s i _ (RWait k z))]; try done;
      try (apply rtc_once; unfold own; cbn [fst snd inc_step sum_step app]); try same_counts.
    + rewrite (proj2 (Nat.ltb_lt _ _) Hlt). by left.
    + rewrite (proj2 (Nat.ltb_ge _ _) Hge). by left.
  - inv_action Hr. split; [done|]. pose proof (rtotal_at holder s.2 i _ ltac:(intros []; cbn; lia) Ht) as Hh1. cbn [holder] in Hh1.
    destruct (release_run k z s.1) as [w Hrun]; [done|lia|]. assert (total inW s.2 = 0) as HWz.
    { pose proof (rv_wlock _ _ Hi). rewrite <- HH in HW. unfold some_reader in HW. destruct (Z.gtb_spec (total holder s.2) 0); lia. }
    eapply (matched_own s i _ (SCheck k z)); [done|done|exact Hrun|done|done|].
    unfold pthread_rwlock_unlock. cbn [abs_state fst c_lock l_w l_r]. rewrite HWz. same_counts.
  - inv_action Hr. split; [done|]. destruct (sum_next_abs (S k)) as (N1 & N2 & N3).
    eapply (matched_own s i _ (if z =? 0 then sum_next iter (S k) else ROops)); [done|done|apply rtc_once; by left| | |].
    + destruct (z =? 0); [apply sum_next_idle; exact 0%nat|done].
    + by destruct (z =? 0).
    + destruct (z =? 0); rewrite ?N2, ?N3; same_counts.
Qed.

Lemma main_matched s t c' ct new : rw_table roles s → settled s → s.2 !! 0%nat = Some t → is_main t = true →
  (ct, c', new) ∈ ctr_step sz iter roles 0%nat (abs t) (abs <$> s.2) (abs_state s).1 →
  matched s (c', start new (<[0%nat:=ct]> (abs <$> s.2))).
Proof.
  intros Hb Hs Ht Em Hr. assert (∀ x new' t', (t', s.1, new') ∈ rw_step sz iter roles 0%nat t s.2 s.1 → x = (s.1, start new' (<[0%nat:=t']> s.2)) →
    rtc (cstep (rw_step sz iter roles)) s x) as Hstep.
  { intros x new' t' Hin ->. apply rtc_once, cstep_inv. by exists 0%nat, t, t', s.1, new'. }
  destruct t as [| | | | | | | | | | | | | | | | | | | | | | |k|n]; try done; cbn [abs ctr_step] in Hr.
  - destruct (roles !! k) as [r|] eqn:E; inv_action Hr; cbn [start].
    + assert (s.2 !! S k = Some RUnborn) as Hu.
      { apply (rt_born _ _ Hb). exists k. split; [done|]. apply lookup_lt_Some in E. lia. }
      destruct (born_abs r) as (N1 & N2 & N3). eexists. split_and!.
      * apply (Hstep _ (Some (S k, rw_born iter r)) (MCreate (S k))); [cbn [rw_step]; rewrite E; by left|reflexivity].
      * cbn [start]. apply (settled_move (s.1, <[0%nat:=MCreate (S k)]> s.2)); [by apply settled_move|apply (rw_born_idle 0)].
      * pose proof (abs_move (s.1, <[0%nat:=MCreate (S k)]> s.2) (S k) RUnborn (rw_born iter r) s.1) as Hm. cbn [snd] in Hm.
        cbn [start]. rewrite Hm by (by rewrite list_lookup_insert_ne). rewrite N1, N2, N3, !(zsum_move _ _ 0 (MCreate k)), list_fmap_insert by done.
        f_equal. same_counts.
    + eexists. split_and!; [apply (Hstep _ None (MJoin 0)); [cbn [rw_step]; rewrite E; by left|reflexivity]|by apply settled_move|].
      cbn [start]. rewrite (abs_move s 0 (MCreate k)) by done. f_equal. same_counts.
  - rewrite list_lookup_fmap in Hr. destruct (s.2 !! S n) as [u|] eqn:E; [|cbn in Hr; by inv_action Hr]. cbn [fmap option_fmap option_map] in Hr.
    assert (ctr_done (Some (abs u)) = is_done (Some u)) as Hd by (by destruct u). rewrite Hd in Hr. destruct (is_done (Some u)) eqn:Eu; inv_action Hr.
    eexists. split_and!; [apply (Hstep _ None (MJoin (S n))); [cbn [rw_step]; rewrite E, Eu; by left|reflexivity]|by apply settled_move|].
    cbn [start]. rewrite (abs_move s 0 (MJoin n)) by done. f_equal. same_counts.
Qed.
Lemma ctr_matched s c' : rw_all sz roles s → settled s → cstep (ctr_step sz iter roles) (abs_state s) c' → matched s c'.
Proof.
  intros [Hi Hb] Hs (i & ct & ct' & cg & new & Ht & Hr & ->)%cstep_inv. cbn [abs_state snd] in *. rewrite list_lookup_fmap in Ht.
  destruct (s.2 !! i) as [t|] eqn:E; [|done]. injection Ht as <-. destruct (is_main t) eqn:Em.
  - pose proof (proj1 (rt_main _ _ Hb i t E) Em) as ->. by eapply main_matched.
  - assert ((ct', cg, new) ∈ ctr_inc sz iter (abs t) (abs_state s).1 ++ ctr_sum sz iter (abs t) (abs_state s).1) as [Hr'|Hr']%elem_of_app by (by destruct t).
    + destruct (inc_matched s i t cg ct' new) as [-> Hm]; done.
    + destruct (sum_matched s i t cg ct' new) as [-> Hm]; done.
Qed.
(** What rw-ctr.c reaches, rw-using-sems.c reaches. *)
Lemma ctr_reached c : rtc (cstep (ctr_step sz iter roles)) (ctr_init sz roles) c →
  ∃ s, rtc (cstep (rw_step sz iter roles)) (rw_init sz roles) s ∧ rw_all sz roles s ∧ settled s ∧ abs_state s = c.
Proof.
  revert c. apply rtc_ind_r.
  - exists (rw_init sz roles). split_and!; [done|apply rw_all_init| |apply abs_init].
    intros [|j] u; cbn; [by intros [= <-]|by intros [-> _]%lookup_replicate].
  - intros c1 c _ Hc (s & Hrs & Ha & Hs & <-).
    destruct (ctr_matched s c Ha Hs Hc) as (s' & Hrs' & Hs' & Heq). exists s'. split_and!; [by etrans| |done|done].
    eapply (invariant_rtc (rw_step sz iter roles)); [exact Ha|intros ????; by eapply rw_all_step|exact Hrs'].
Qed.

(** When rw-ctr.c cannot go on, it is over. *)
Lemma ctr_stuck s : (0 < sz)%nat → rw_all sz roles s → settled s → stuck (ctr_step sz iter roles) (abs_state s) →
  s.2 !! 0%nat = Some (MJoin (length roles)) ∧ ∀ k t, s.2 !! S k = Some t → t = RRet.
Proof.
  intros Hsz [Hi Hb] Hs Hst. rewrite stuck_inv in Hst.
  assert (∀ i t, s.2 !! i = Some t → ctr_step sz iter roles i (abs t) (abs <$> s.2) (abs_state s).1 = []) as Hno.
  { intros i t Ht. apply (Hst i). cbn. by rewrite list_lookup_fmap, Ht. }
  assert (∀ i t, s.2 !! i = Some t → is_main t = true ∨ t = RUnborn ∨ t = RRet ∨ ∃ k, t = IWait k ∨ t = SWait k) as Hbl.
  { intros i t Ht. pose proof (Hno i t Ht) as Hn. pose proof (Hs i t Ht) as Hl. pose proof (rv_local _ _ Hi i t Ht) as Hloc.
    destruct t as [| | |k|k a b|k a b r|k b|k b r|k|k|k|k r|k|k|k|k n z|k z|k z|k z r|k z|k z|k z|k z|n|n]; try discriminate Hl; try discriminate Hn; try destruct Hloc;
      [by right; left|by right; right; left|right; right; right; exists k; by left|right; right; right; exists k; by right| |by left|by left].
    cbn [abs ctr_step ctr_inc ctr_sum app] in Hn. by destruct (_ <? _)%nat. }
  assert (total inW s.2 = 0 ∧ total holder s.2 = 0) as [HW HH].
  { split; apply zsum_zero; intros j u Hu; destruct (Hbl j u Hu) as [Hm|[->|[->|(k & [->| ->])]]]; try done; by destruct u. }
  apply (all_over sz iter roles); [done|done| |].
  - intros i t Ht. destruct (Hbl i t Ht) as [?|[?|[?|(k & [->| ->])]]]; auto; specialize (Hno i _ Ht); exfalso; revert Hno; cbn;
      unfold pthread_rwlock_wrlock, pthread_rwlock_rdlock; cbn; rewrite HW, ?HH; cbn; [|done].
    destruct sz as [|n]; [lia|done].
  - intros t Ht Hm. specialize (Hno 0%nat t Ht). destruct t as [| | | | | | | | | | | | | | | | | | | | | | |k|n]; try done; cbn in Hno |- *.
    + by destruct (roles !! k).
    + rewrite list_lookup_fmap in Hno. destruct (s.2 !! S n) as [[]|]; done.
Qed.
End refine.
