(* ===== verification/ConcTheorems.v ===== *)
(** * Theorems about the concurrent lecture programs (src/09) *)

From S2P Require Import Prelude Conc Peterson Philosophers Counters Transfers Pipes CondVars RwLock RwCtr.

(** ** Counters *)

(** semlock.c and threads-safe.c, for any lock that meets the interface:
    every run ends, after at most 8 actions per iteration and 8 more, however
    the threads are scheduled; a run that cannot go on has printed the initial
    value 0 and the final value [2 * loops], all threads having returned; and
    every run can be continued to that point. *)
Theorem worker_total {L} {lk : Lock L} {lkok : LockOk L} (loops : Z) n s :
  0 ≤ loops ∧ 2 * loops < 2147483648 →
  nsteps (cstep (worker_step loops)) n (worker_init (L:=L)) s →
  Z.of_nat n ≤ 8 * loops + 8 ∧
  (stuck (worker_step loops) s → w_printed s.1 = [0; 2 * loops] ∧ s.2 = [WRet; WRet; WRet]) ∧
  ∃ s', rtc (cstep (worker_step loops)) s s' ∧ stuck (worker_step loops) s'.
Proof.
  intros Hl Hr. assert (∀ s s', worker_inv loops s → cstep (worker_step loops) s s' → worker_inv loops s') as Hp.
  { intros x y Hx Hxy. by eapply worker_inv_step. }
  assert (∀ s s', worker_inv loops s → cstep (worker_step loops) s s' → (worker_measure loops s' < worker_measure (L:=L) loops s)%nat) as Hm.
  { intros x y Hx Hxy. by eapply worker_inv_step. }
  pose proof (worker_inv_init (L:=L) loops) as H0. assert (worker_inv loops s) as Hs.
  { eapply (invariant_rtc _ (worker_inv loops)); [exact H0|exact Hp|]. by eapply rtc_nsteps_2. }
  split_and!.
  - pose proof (measure_bounds _ (worker_inv loops) (worker_measure loops) n _ _ Hp Hm H0 Hr) as Hb.
    unfold worker_measure in Hb at 2. cbn in Hb. unfold zsum in Hb. lia.
  - by apply worker_stuck.
  - by apply (measure_completes _ (worker_inv loops) (worker_measure loops)).
Qed.
Lemma worker_total_witness : ∃ n s, nsteps (cstep (worker_step 1)) n (worker_init (L:=semlock)) s ∧ Z.of_nat n ≤ 16 ∧ w_printed s.1 = [0; 2].
Proof.
  destruct (run_threads (worker_step 1) [0; 0; 0; 1; 1; 1; 1; 2; 2; 2; 2; 1; 2; 0; 0; 0]%nat (worker_init (L:=semlock))) as [s'|] eqn:E;
    [|vm_compute in E; discriminate E].
  destruct (rtc_nsteps_1 _ _ (run_threads_sound _ _ _ _ E)) as [n Hn].
  destruct (worker_total 1 n s') as (Hb & Hp & _); [lia|exact Hn|]. exists n, s'. split_and!; [exact Hn|exact Hb|].
  apply Hp. vm_compute in E. injection E as <-. reflexivity.
Defined.

(** atomic.c: when the counters are printed, the atomic one is exact and the
    other at most that; it may be less. *)
Theorem atomic_counts loops s c a : 0 ≤ loops ∧ 2 * loops < 2147483648 →
  rtc (cstep (Atomic.atomic_step loops)) Atomic.atomic_init s → Atomic.a_printed s.1 = Some (c, a) → a = 2 * loops ∧ 0 ≤ c ≤ 2 * loops.
Proof.
  intros Hl Hr Hp. assert (Atomic.atomic_inv loops s) as Hi.
  { eapply (invariant_rtc _ (Atomic.atomic_inv loops)); [|intros ?? ??; by eapply Atomic.atomic_inv_step|exact Hr].
    constructor; cbn; try done; lia. }
  destruct Hi as [c' a' out m t1 t2 _ _ _ _ Hm]. cbn in Hp. subst out.
  destruct m; cbn in Hm; try done; try (by destruct Hm as (_ & _ & ?)). destruct Hm as (_ & _ & ? & [= -> ->] & ?). done.
Qed.
Lemma atomic_loses : ∃ s, rtc (cstep (Atomic.atomic_step 1)) Atomic.atomic_init s ∧ Atomic.a_printed s.1 = Some (1, 2).
Proof.
  destruct (run_threads (Atomic.atomic_step 1) [0; 0; 1; 2; 1; 2; 1; 2; 1; 2; 0; 0; 0]%nat Atomic.atomic_init) as [s|] eqn:E; [|vm_compute in E; discriminate E].
  exists s. split; [by eapply run_threads_sound|]. vm_compute in E. injection E as <-. reflexivity.
Qed.

(** ** Peterson's algorithm *)
Lemma peterson_checked_rtc s : rtc (peterson true) peterson_init s → peterson_ok s = true.
Proof. apply (check_all_sound _ _ 300), peterson_checked. Qed.

(** C27. peterson-fence.c on a memory with store buffers: at most one thread is
    changing the counter, the counter is zero in memory, with all buffers
    empty, whenever [main] prints it, so that [main] never leaves its loop;
    and when the threads act in turn the next print is at most 60 rounds away
    from any state. *)
Theorem peterson_fence_correct s :
  rtc (peterson true) peterson_init s →
  (length (filter (λ t, critical t = true) s.2) ≤ 1)%nat ∧
  (main_at MainPrint s = true → s.1 !! counter = Some 0 ∧ Forall (λ t, p_buf t = []) s.2) ∧
  main_at Ret s = false ∧
  ∃ k, (k ≤ 60)%nat ∧ main_at MainPrint (Nat.iter k (peterson_round true) s) = true.
Proof.
  intros Hr%peterson_checked_rtc. unfold peterson_ok in Hr. apply andb_true_iff in Hr as [[[H1 H2]%andb_true_iff H3]%andb_true_iff H4].
  split_and!; [by apply bool_decide_eq_true in H1| |by apply negb_true_iff|by apply prints_within_iter].
  intros Hm. rewrite Hm in H2. by apply bool_decide_eq_true in H2.
Qed.
Lemma peterson_fence_correct_witness :
  ∃ s, rtc (peterson true) peterson_init s ∧ s.2 !! 1%nat = Some (mk_pthread (LoadCounter 0) []) ∧
    ∃ k, (k ≤ 60)%nat ∧ main_at MainPrint (Nat.iter k (peterson_round true) s) = true.
Proof.
  destruct (run_threads (peterson_step true) (replicate 13 0 ++ replicate 6 1)%nat peterson_init) as [s|] eqn:E; [|vm_compute in E; discriminate E].
  pose proof (run_threads_sound _ _ _ _ E) as Hr. exists s. split; [exact Hr|].
  destruct (peterson_fence_correct s Hr) as (_ & _ & _ & Hk). split; [|exact Hk]. vm_compute in E. injection E as <-. reflexivity.
Defined.

(** Without the fence the same program can leave its loop: both threads get
    into the critical section and the counter is not zero at the end. *)
Theorem peterson_without_fence : ∃ s, rtc (peterson false) peterson_init s ∧ main_at Ret s = true ∧ s.1 !! counter = Some (-1).
Proof.
  destruct (replay (succs (peterson_step false)) (replicate 14 0 ++ replicate 10 1 ++ [0; 0; 1] ++ replicate 10 0)%nat peterson_init) as [s|] eqn:E;
    [|vm_compute in E; discriminate E].
  exists s. split; [by eapply replay_sound|]. vm_compute in E. injection E as <-. split; reflexivity.
Qed.

(** ** Dining philosophers *)

(** C28. dine.c, as long as no philosopher has used a fork that [main] had not
    yet initialised: no fork is in two hands, somebody can always act, and,
    once all five are seated and act in turn, each of them eats within 20
    rounds from any state. *)
Theorem dine_correct s :
  rtc (cstep (dine_step true)) dine_init s → undefined s = false →
  (∀ k, (k < PHIL)%nat → (holders true k s.2 ≤ 1)%nat) ∧ ¬ stuck (dine_step true) s ∧
  (s.2 !! 0%nat = Some DJoin → ∀ i, (i < PHIL)%nat →
     ∃ n, (n ≤ 20)%nat ∧ (Nat.iter n (dine_round true) s).2 !! S i = Some (DPostLeft i)).
Proof.
  intros Hr Hu. pose proof (check_all_sound _ _ 700 _ _ dine_checked Hr) as Hok. unfold dine_ok in Hok. rewrite Hu in Hok. cbn [orb] in Hok.
  apply andb_true_iff in Hok as [[H1 H2]%andb_true_iff H3]. split_and!.
  - intros k Hk. rewrite forallb_forall in H1. apply Nat.leb_le, H1, in_seq. lia.
  - intros Hs. rewrite Hs in H2. done.
  - intros Hj i Hi. apply orb_true_iff in H3 as [H3|H3]; [by apply bool_decide_eq_true in H3|].
    apply (fed_within_iter 20 i (seq 0 PHIL)); [|done]. apply elem_of_seq. lia.
Qed.
Lemma dine_correct_witness : ∃ s, rtc (cstep (dine_step true)) dine_init s ∧ s.2 !! 0%nat = Some DJoin ∧
  ∃ n, (n ≤ 20)%nat ∧ (Nat.iter n (dine_round true) s).2 !! 4%nat = Some (DPostLeft 3).
Proof.
  destruct (run_threads (dine_step true) [0; 0; 0; 0; 0; 0; 0; 0; 0; 0; 1; 2; 3; 4]%nat dine_init) as [s|] eqn:E; [|vm_compute in E; discriminate E].
  pose proof (run_threads_sound _ _ _ _ E) as Hr. vm_compute in E. injection E as <-.
  eexists. split; [exact Hr|]. split; [reflexivity|]. destruct (dine_correct _ Hr) as (_ & _ & He); [vm_compute; reflexivity|].
  apply (He eq_refl 3%nat). unfold PHIL. lia.
Defined.

(** dine-dead.c: five philosophers with one fork each wait for ever. *)
Theorem dine_dead_deadlocks : ∃ s, rtc (cstep (dine_step false)) dine_init s ∧ undefined s = false ∧ stuck (dine_step false) s.
Proof.
  destruct (run_threads (dine_step false) [0; 0; 0; 0; 0; 0; 0; 0; 0; 0; 1; 2; 3; 4; 5]%nat dine_init) as [s|] eqn:E; [|vm_compute in E; discriminate E].
  exists s. split; [by eapply run_threads_sound|]. vm_compute in E. injection E as <-. split; reflexivity.
Qed.
(** A philosopher may take a fork that does not exist yet: in both programs
    [main] initialises fork [i] right before it creates philosopher [i], who
    also uses fork [i + 1]. *)
Theorem dine_uninitialised fixed : ∃ s, rtc (cstep (dine_step fixed)) dine_init s ∧ undefined s = true.
Proof.
  destruct fixed.
  - destruct (run_threads (dine_step true) [0; 0; 1; 1]%nat dine_init) as [s|] eqn:E; [|vm_compute in E; discriminate E].
    exists s. split; [by eapply run_threads_sound|]. vm_compute in E. injection E as <-. reflexivity.
  - destruct (run_threads (dine_step false) [0; 0; 1]%nat dine_init) as [s|] eqn:E; [|vm_compute in E; discriminate E].
    exists s. split; [by eapply run_threads_sound|]. vm_compute in E. injection E as <-. reflexivity.
Qed.

(** ** Transfers *)

(** C24. dead-fix.c: every run ends, after at most 11 actions per transfer; a
    run that cannot go on is finished, [main] having joined all threads, and
    then the money is all there and no account is overdrawn; and every run can
    be continued to that point. In between, the total differs only by the
    transfers between their two stores. *)
Theorem transfer_total rand n s :
  rand ≠ [] → 10000 + 10 * Z.of_nat (S (length rand)) < 2147483638 →
  nsteps (cstep (bank_step true rand)) n (bank_init rand) s →
  (n ≤ 11 * length rand)%nat ∧ zsum (balance s.1) = TOTAL + zsum (in_flight <$> s.2) ∧ Forall (λ z, 0 ≤ z) (balance s.1) ∧
  (stuck (bank_step true rand) s → all_joined rand s ∧ zsum (balance s.1) = TOTAL) ∧
  ∃ s', rtc (cstep (bank_step true rand)) s s' ∧ stuck (bank_step true rand) s'.
Proof.
  intros Hne Hsm Hr. pose proof (bank_inv_init true rand Hsm Hne) as H0.
  assert (∀ s s', bank_inv true rand s → cstep (bank_step true rand) s s' → bank_inv true rand s') as Hp by (intros ?? ??; by eapply bank_inv_step).
  assert (∀ s s', bank_inv true rand s → cstep (bank_step true rand) s s' → (bank_measure rand s' < bank_measure rand s)%nat) as Hm
    by (intros ?? ??; by eapply bank_step_measure).
  assert (bank_inv true rand s) as Hs by (eapply (invariant_rtc _ (bank_inv true rand)); [exact H0|exact Hp|by eapply rtc_nsteps_2]).
  split_and!; [| |apply Hs| |by apply (measure_completes _ (bank_inv true rand) (bank_measure rand))].
  - pose proof (measure_bounds _ (bank_inv true rand) (bank_measure rand) n _ _ Hp Hm H0 Hr) as Hb.
    enough (bank_measure rand (bank_init rand) = 11 * length rand)%nat by lia.
    unfold bank_measure, bank_init. cbn [snd fmap list_fmap]. rewrite fmap_replicate. cbn [trest].
    assert (∀ m, zsum (replicate m 9) = 9 * Z.of_nat m) as Hz by (induction m; unfold zsum in *; cbn [replicate foldr]; lia).
    change (zsum (?x :: ?l)) with (x + zsum l). rewrite Hz. lia.
  - apply Hs.
  - intros Hst. destruct (bank_stuck rand s Hne Hs Hst) as [Hj Hret]. split; [done|].
    rewrite (bi_sum _ _ _ Hs), (zsum_zero in_flight); [lia|]. intros j u Hu. destruct u as [|x p| |]; try done.
    by rewrite (Hret _ _ _ Hu).
Qed.
Lemma transfer_total_witness : ∃ s, rtc (cstep (bank_step true [1; 0]%nat)) (bank_init [1; 0]%nat) s ∧ all_joined [1; 0]%nat s ∧ zsum (balance s.1) = TOTAL.
Proof.
  destruct (run_threads (bank_step true [1; 0]%nat) (replicate 2 0 ++ replicate 9 1 ++ replicate 9 2 ++ replicate 2 0)%nat (bank_init [1; 0]%nat)) as [s|] eqn:E;
    [|vm_compute in E; discriminate E].
  pose proof (run_threads_sound _ _ _ _ E) as Hr. exists s. split; [exact Hr|]. destruct (rtc_nsteps_1 _ _ Hr) as [n Hn].
  destruct (transfer_total [1; 0]%nat n s) as (_ & _ & _ & Hst & _); [discriminate|vm_compute; reflexivity|exact Hn|].
  apply Hst. vm_compute in E. injection E as <-. reflexivity.
Defined.

(** dead.c: two transfers in opposite directions block each other. *)
Theorem transfer_deadlocks : ∃ s, rtc (cstep (bank_step false [1; 0]%nat)) (bank_init [1; 0]%nat) s ∧
  stuck (bank_step false [1; 0]%nat) s ∧ ¬ all_joined [1; 0]%nat s.
Proof.
  destruct (run_threads (bank_step false [1; 0]%nat) [0; 0; 1; 2]%nat (bank_init [1; 0]%nat)) as [s|] eqn:E; [|vm_compute in E; discriminate E].
  exists s. split; [by eapply run_threads_sound|]. vm_compute in E. injection E as <-. split; [reflexivity|]. unfold all_joined. cbn. done.
Qed.

(** ** Pipes *)
Lemma pipes_inv_reachable locked roles s : (locked = false → ∀ j k r, roles !! j = Some r → roles !! k = Some r → j = k) →
  rtc (pipes locked roles) (pipes_init roles) s → pipes_inv locked roles s.
Proof.
  intros Hs Hr. eapply (invariant_rtc _ (pipes_inv locked roles)); [by apply pipes_inv_init| |exact Hr].
  intros x y Hx Hxy. by eapply pipes_inv_step.
Qed.

(** C25. The rings of sem-mpmc.c, with any number of producers and consumers,
    and of sempipe.c, with one of each: the characters loaded are the
    characters stored, in the same order and without loss, never more than
    [SZ] ahead; and when there are producers and consumers somebody can always
    act. *)
Theorem pipe_fifo locked roles s :
  (locked = false → ∀ j k r, roles !! j = Some r → roles !! k = Some r → j = k) →
  rtc (pipes locked roles) (pipes_init roles) s →
  b_out s.1 `prefix_of` b_in s.1 ∧
  Z.of_nat (length (b_in s.1)) ≤ Z.of_nat (length (b_out s.1)) + SZ ∧
  (true ∈ roles → false ∈ roles → ¬ stuck (pipes_step locked roles) s).
Proof.
  intros Hs Hr. pose proof (pipes_inv_reachable locked roles s Hs Hr) as Hi. split_and!.
  - rewrite (do_out _ _ _ (pv_data _ _ _ Hi)). apply prefix_take.
  - destruct (lookup_lt_is_Some_2 s.2 0) as [t Ht]; [rewrite (pv_table _ _ _ Hi); lia|].
    pose proof (ring_room locked roles s 0 t Hi Ht). pose proof (counts_nonneg t). lia.
  - intros. by apply pipes_not_stuck.
Qed.
(** Two producers and two consumers, as in sem-mpmc.c. *)
Lemma pipe_fifo_witness : ∃ s, rtc (pipes true [true; true; false; false]) (pipes_init [true; true; false; false]) s ∧
  b_in s.1 = [97; 97] ∧ b_out s.1 = [97] ∧ b_out s.1 `prefix_of` b_in s.1.
Proof.
  destruct (run_threads (pipes_step true [true; true; false; false]) ([0; 0; 0; 0; 0] ++ [1; 2] ++ replicate 7 1 ++ replicate 3 2 ++ replicate 5 3)%nat
    (pipes_init [true; true; false; false])) as [s|] eqn:E; [|vm_compute in E; discriminate E].
  pose proof (run_threads_sound _ _ _ _ E) as Hr. exists s. split; [exact Hr|].
  destruct (pipe_fifo true [true; true; false; false] s) as (Hp & _ & _); [discriminate|exact Hr|].
  vm_compute in E. injection E as <-. split; [reflexivity|]. split; [reflexivity|exact Hp].
Defined.

(** sempipe.c prints the alphabet in capitals, again and again. *)
Theorem sempipe_prints s : rtc (pipes false [true; false]) (pipes_init [true; false]) s →
  b_printed s.1 = (λ k, 65 + Z.of_nat k mod 26) <$> seq 0 (length (b_printed s.1)).
Proof.
  intros Hr. assert (∀ j k r, [true; false] !! j = Some r → [true; false] !! k = Some r → j = k) as Hs.
  { intros [|[|j]] [|[|k]] r Hj Hk; cbn in *; congruence || done. }
  assert (pipes_inv false [true; false] s ∧ alphabet_inv s) as [Hi Ha].
  { eapply (invariant_rtc _ (λ s, pipes_inv false [true; false] s ∧ alphabet_inv s)); [| |exact Hr].
    - split; [by apply pipes_inv_init|]. constructor; [done| |done]. by constructor; [|intros ? [=]|intros [=]|].
    - intros x y [Hx Hx'] Hxy. split; [by eapply pipes_inv_step|by eapply alphabet_step]. }
  pose proof (do_out _ _ _ (pv_data _ _ _ Hi)) as Ho. destruct Ha as [b m p c _ [Hin _ _ _] Hc]. cbn [fst] in *.
  unfold consumer_ok in Hc. assert (b_printed b `prefix_of` upper <$> (letter <$> seq 0 (length (b_in b)))) as [l Hl].
  { rewrite <- Hin. trans (upper <$> b_out b); [rewrite <- Hc; by apply prefix_app_r|].
    rewrite Ho. eexists. by rewrite <- fmap_app, take_drop. }
  assert (length (b_printed b) ≤ length (b_in b))%nat as Hle.
  { apply (f_equal length) in Hl. rewrite !length_fmap, length_seq, length_app in Hl. lia. }
  apply (f_equal (take (length (b_printed b)))) in Hl. rewrite take_app_length in Hl. rewrite <- Hl at 1.
  rewrite <- !fmap_take, take_seq, Nat.min_l by lia. rewrite <- list_fmap_compose. apply list_fmap_ext.
  intros i k _. unfold compose, upper, letter. lia.
Qed.

(** mypipe.c with its one producer and one consumer: after a signal that
    comes late, the consumer goes on with the ring empty and loads a character
    nobody has stored. *)
Theorem mypipe_reads_empty : ∃ s, rtc (cstep MyPipe.mypipe_step) MyPipe.mypipe_init s ∧ MyPipe.sent s.1 = [97] ∧ MyPipe.got s.1 = [97; 0].
Proof.
  destruct (run_threads MyPipe.mypipe_step ([0; 0] ++ replicate 5 1 ++ replicate 9 2 ++ [1; 2; 2])%nat MyPipe.mypipe_init) as [s|] eqn:E;
    [|vm_compute in E; discriminate E].
  exists s. split; [by eapply run_threads_sound|]. vm_compute in E. injection E as <-. split; reflexivity.
Qed.

(** ** Waiting for a child *)

(** wait.c without spurious wakeups, and wait-sem.c: no parent ends before its
    child has begun, and the program never stops. *)
Theorem parent_waits_for_child y s : y = Wait.IfCond false ∨ y = Wait.Semaphore → rtc (cstep (Wait.wait_step y)) Wait.wait_init s →
  Wait.early s.1 = false ∧ ¬ stuck (Wait.wait_step y) s.
Proof.
  intros Hy Hr. assert (Wait.wait_ok y s = true) as Hok.
  { destruct Hy as [->| ->]; [by apply (check_all_sound _ _ 200 _ _ Wait.wait_checked)|by apply (check_all_sound _ _ 200 _ _ Wait.wait_sem_checked)]. }
  apply andb_true_iff in Hok as [H1 H2]. split; [by apply negb_true_iff|]. intros Hs. rewrite Hs in H2. done.
Qed.
(** wait.c relies on a wakeup meaning a signal: with the spurious ones POSIX
    allows, a parent can end before its child begins. And the semaphore of
    sems-using-lock-cv.c never goes down: the second parent does not wait for
    its child. *)
Theorem parent_ends_early y : y = Wait.IfCond true ∨ y = Wait.Zem → ∃ s, rtc (cstep (Wait.wait_step y)) Wait.wait_init s ∧ Wait.early s.1 = true.
Proof.
  intros [->| ->].
  - destruct (run_threads (Wait.wait_step (Wait.IfCond true)) ([0; 0] ++ replicate 8 1)%nat Wait.wait_init) as [s|] eqn:E; [|vm_compute in E; discriminate E].
    exists s. split; [by eapply run_threads_sound|]. vm_compute in E. injection E as <-. reflexivity.
  - destruct (run_threads (Wait.wait_step Wait.Zem) ([0; 0; 1; 1] ++ replicate 6 2 ++ replicate 5 1 ++ [0; 0; 0] ++ replicate 6 1)%nat Wait.wait_init) as [s|] eqn:E;
      [|vm_compute in E; discriminate E].
    exists s. split; [by eapply run_threads_sound|]. vm_compute in E. injection E as <-. reflexivity.
Qed.
Lemma parent_ends_early_witness : ∃ s, rtc (cstep (Wait.wait_step Wait.Zem)) Wait.wait_init s ∧ Wait.early s.1 = true.
Proof. apply (parent_ends_early Wait.Zem). right. reflexivity. Defined.

(** alloc.c: bytes are neither lost nor handed out twice, and at most the
    900 that [main] gives are ever free; the first thread, which asks for
    1000, never gets them, so that [main] waits for it for ever. *)
Theorem alloc_first_starves s :
  rtc (cstep Alloc.alloc_step) Alloc.alloc_init s →
  Alloc.bytes_left s.1 + zsum (Alloc.held <$> s.2) = zsum (Alloc.given <$> s.2) ∧ 0 ≤ Alloc.bytes_left s.1 ≤ 900 ∧
  (∀ t, s.2 !! 1%nat = Some t → t = Alloc.Unborn ∨ Alloc.waits 1000 t) ∧ ∀ k, s.2 !! 0%nat ≠ Some (Alloc.MJoin (S k)).
Proof.
  intros Hr. assert (Alloc.alloc_inv s ∧ ∀ k, s.2 !! 0%nat ≠ Some (Alloc.MJoin (S k))) as [Hi Hj].
  { eapply (invariant_rtc _ (λ s, Alloc.alloc_inv s ∧ ∀ k, s.2 !! 0%nat ≠ Some (Alloc.MJoin (S k)))); [| |exact Hr].
    - split; [apply Alloc.alloc_inv_init|done].
    - intros x y [Hx Hn] Hxy. split; [by eapply Alloc.alloc_inv_step|]. by eapply Alloc.alloc_no_join. }
  destruct (Alloc.al_bytes _ Hi). destruct (Alloc.alloc_given s Hi). split_and!; [done|done|lia|apply Hi|done].
Qed.

(** ** Readers and writers *)

(** C26. rw-using-sems.c, with any number of readers and writers: no reader ever
    finds a sum other than zero, so that the program does not stop with the
    error; while one thread reads the array nobody writes it, and at most one
    thread writes; and when nobody can act any more, all threads have returned
    and [main] has joined them. *)
Theorem rw_readers_consistent sz iter roles s :
  (0 < sz)%nat → rtc (cstep (rw_step sz iter roles)) (rw_init sz roles) s →
  (ROops ∉ s.2) ∧ (total inW s.2 ≤ 1) ∧
  (∀ i k n z, s.2 !! i = Some (SSum k n z) → total inW s.2 = 0) ∧
  (stuck (rw_step sz iter roles) s → s.2 !! 0%nat = Some (MJoin (length roles)) ∧ ∀ k t, s.2 !! S k = Some t → t = RRet).
Proof.
  intros Hsz Hr. assert (rw_all sz roles s) as [Hi Hb].
  { eapply (invariant_rtc _ (rw_all sz roles)); [apply rw_all_init|intros ????; by eapply rw_all_step|exact Hr]. }
  split_and!.
  - intros [i Ho]%list_elem_of_lookup. by apply (rv_local _ _ Hi) in Ho.
  - destruct (rv_wlock _ _ Hi). pose proof (group_share sz s Hi). lia.
  - intros i k n z Ht. by apply (reading_excludes sz s i _ Hi Ht).
  - intros Hs. by apply (rw_stuck sz iter roles Hsz).
Qed.
(** A reader adds up while a writer waits. *)
Lemma rw_readers_consistent_witness : ∃ s, rtc (cstep (rw_step 3 1 [true; false])) (rw_init 3 [true; false]) s ∧
  s.2 !! 2%nat = Some (SSum 0 1 0) ∧ total inW s.2 = 0.
Proof.
  destruct (run_threads (rw_step 3 1 [true; false]) ([0; 0; 0] ++ replicate 7 2)%nat (rw_init 3 [true; false])) as [s|] eqn:E; [|vm_compute in E; discriminate E].
  pose proof (run_threads_sound _ _ _ _ E) as Hr. exists s. split; [exact Hr|].
  destruct (rw_readers_consistent 3 1 [true; false] s) as (_ & _ & Hx & _); [lia|exact Hr|].
  assert (s.2 !! 2%nat = Some (SSum 0 1 0)) as Hs by (vm_compute in E; injection E as <-; reflexivity).
  split; [exact Hs|]. exact (Hx _ _ _ _ Hs).
Defined.

(** C29. The lock of rw-using-sems.c is a readers-writer lock. The program
    reaches exactly the states of rw-ctr.c, which uses the library's lock,
    when one sees of a thread what it does with the array and of the lock who
    holds it: for each of its runs rw-ctr.c has one that ends in the same state
    seen this way, and every state that rw-ctr.c can reach it can reach too. *)
Theorem rw_sems_implements_rwlock sz iter roles c :
  rtc (cstep (ctr_step sz iter roles)) (ctr_init sz roles) c ↔
  ∃ s, rtc (cstep (rw_step sz iter roles)) (rw_init sz roles) s ∧ abs_state s = c.
Proof.
  split.
  - intros (s & Hr & _ & _ & Ha)%ctr_reached. eauto.
  - intros (s & Hr & <-). rewrite <- (abs_init sz roles). revert s Hr.
    assert (∀ s, rtc (cstep (rw_step sz iter roles)) (rw_init sz roles) s →
      rw_all sz roles s ∧ rtc (cstep (ctr_step sz iter roles)) (abs_state (rw_init sz roles)) (abs_state s)) as Hall; [|by apply Hall].
    apply rtc_ind_r; [split; [apply rw_all_init|done]|]. intros s s' _ Hs [Ha Hr]. split; [by eapply rw_all_step|].
    destruct (rw_simulated sz iter roles s s' Ha Hs) as [->|Hc]; [done|by eapply rtc_r].
Qed.

(** rw-ctr.c, with any number of readers and writers: no reader finds a sum
    other than zero; there is at most one writer, and none while somebody
    reads; and when nobody can act any more, all threads have returned and
    [main] has joined them. *)
Theorem rw_ctr_consistent sz iter roles c :
  (0 < sz)%nat → rtc (cstep (ctr_step sz iter roles)) (ctr_init sz roles) c →
  (COops ∉ c.2) ∧ (l_w (c_lock c.1) ≤ 1) ∧ (0 < l_r (c_lock c.1) → l_w (c_lock c.1) = 0) ∧
  (stuck (ctr_step sz iter roles) c → c.2 !! 0%nat = Some (CJoin (length roles)) ∧ ∀ k t, c.2 !! S k = Some t → t = CRet).
Proof.
  intros Hsz (s & _ & [Hi Hb] & Hs & <-)%ctr_reached. destruct (settled_counts sz s Hi Hs) as (_ & HH & HW). destruct (rv_wlock _ _ Hi).
  split_and!.
  - intros [i Ho]%list_elem_of_lookup. cbn in Ho. rewrite list_lookup_fmap in Ho. destruct (s.2 !! i) as [t|] eqn:Ht; [|done].
    pose proof (rv_local _ _ Hi i t Ht) as Hloc. by destruct t.
  - cbn. unfold some_reader in HW. destruct (_ >? 0); lia.
  - cbn. rewrite HH. intros Hr. unfold some_reader in HW. pose proof (inW_nonneg s). destruct (Z.gtb_spec (rw_readers s.1) 0); lia.
  - intros Hst. destruct (ctr_stuck sz iter roles s Hsz (conj Hi Hb) Hs Hst) as [Hm0 Hret]. cbn. rewrite list_lookup_fmap, Hm0. split; [done|].
    intros k t. rewrite list_lookup_fmap. destruct (s.2 !! S k) as [u|] eqn:Hu; [|done]. rewrite (Hret k u Hu). by intros [= <-].
Qed.
Lemma rw_ctr_consistent_witness : ∃ c, rtc (cstep (ctr_step 3 1 [true; false])) (ctr_init 3 [true; false]) c ∧
  l_r (c_lock c.1) = 1 ∧ l_w (c_lock c.1) = 0.
Proof.
  destruct (run_threads (ctr_step 3 1 [true; false]) [0; 0; 0; 2; 2]%nat (ctr_init 3 [true; false])) as [c|] eqn:E; [|vm_compute in E; discriminate E].
  pose proof (run_threads_sound _ _ _ _ E) as Hr. exists c. split; [exact Hr|].
  destruct (rw_ctr_consistent 3 1 [true; false] c) as (_ & _ & Hx & _); [lia|exact Hr|].
  assert (l_r (c_lock c.1) = 1) as Hs by (vm_compute in E; injection E as <-; reflexivity).
  split; [exact Hs|]. apply Hx. rewrite Hs. reflexivity.
Defined.

(** The first round of alloc.c: nobody has got anything before [main] gives. *)
Lemma alloc_first_starves_witness : ∃ s, rtc (cstep Alloc.alloc_step) Alloc.alloc_init s ∧ s.2 !! 1%nat = Some (Alloc.ASleep 1000) ∧
  ∀ k, s.2 !! 0%nat ≠ Some (Alloc.MJoin (S k)).
Proof.
  destruct (run_threads Alloc.alloc_step (replicate 10 0 ++ [1; 1] ++ replicate 4 0 ++ [1; 1])%nat Alloc.alloc_init) as [s|] eqn:E; [|vm_compute in E; discriminate E].
  pose proof (run_threads_sound _ _ _ _ E) as Hr. exists s. split; [exact Hr|].
  destruct (alloc_first_starves s Hr) as (_ & _ & _ & Hj). split; [vm_compute in E; injection E as <-; reflexivity|exact Hj].
Defined.
